(* ===== verification/_CoqProject ===== *)
-Q . S2P
Prelude.v
Float64.v
Queue.v
RateLimit.v
Sse.v
Proxies.v
GoStrings.v
ProtoWire.v
Schemas.v
OpenApi.v
BuildTools.v
Proto.v
ProtoTables.v
GoHeap.v
DeepCopies.v
Volumes.v
Budgets.v
Samples.v
Codec.v
K8s.v
Types.v
Encoding.v
Store.v
Estimator.v
Decision.v
Conditions.v
Topology.v
Validator.v
Template.v
PodSpecs.v
Pods.v
Fleet.v
Services.v
Broker.v
Workset.v
WorkPool.v
Controller.v
AgentDeploys.v
AgentSets.v
Sampler.v
Autoscaler.v
ClosedLoop.v
Mesh.v
Driftwatch.v
Lifecycle.v
Rater.v
PeerCards.v
MetricsText.v
Introspect.v
Scrapes.v
RaterLoop.v
Telemetry.v
Daemon.v
Certs.v
Webhook.v
InitRuntime.v
Commands.v
Manager.v
Runners.v
ScalingMetrics.v
Clients.v
Informers.v
Gateway.v
Processes.v
