(* ===== verification/Prelude.v ===== *)
(** * Kynomesh: a verification of the control plane

    Kynomesh runs fleets of AI agents on Kubernetes.  A user declares an
    AgentSet (a list of agents, an entry agent, a communication pattern).  The
    AgentSet controller validates it and derives one AgentDeploy per agent, an
    entry service and a daemon; the AgentDeploy controller turns each
    AgentDeploy into pods and services.  An admission webhook applies the same
    validation when an AgentSet is written.  In every agent pod an init
    container writes the agent's topology and a probe binary, and a broker
    sits between callers and the agent: it routes, limits, forwards and counts
    requests and republishes the agent's card; the daemon discovers and
    scrapes the brokers and answers load and peer-card queries; inside the controller process a sampler keeps
    a history of those answers per AgentDeploy, the autoscaler patches
    [spec.replicas] from it, and the drift watcher deletes pods that serve an
    outdated peer card.

<<
      kynomesh <subcommand> --Commands--> the processes below
      kubectl --Webhook(Certs): Validator--> AgentSet (schemas: OpenApi)
      API events --Manager--> the two controllers' queues
      Runners: both controllers and three background components, each with a
        watch set (Workset) and its workers (WorkPool), on the leader
      AgentSet --Validator, Topology, AgentDeploys, AgentSets--> AgentDeploys
      AgentDeploy --Controller: Services, Pods(PodSpecs, Template)--> pods,
        pass after pass until the fleet is as desired (Fleet), and with the
        AgentSet controller until the whole set is (Mesh)
      pod environment --Encoding--> InitRuntime (topology), Broker (runtime)
      caller --Broker: Proxies(RateLimit, Sse)--> agent;  Budgets, MetricsText
        ^ discovered and scraped by the daemon (Daemon, MetricsText,
          Introspect; Scrapes: Rater on Queue, PeerCards)
      daemon --Sampler--> history (Samples, Codec, Store)
      history --Autoscaler: Decision(Estimator)--> AgentDeploy.spec.replicas
      daemon --Driftwatch--> pod deletions
      REST and gRPC clients of the daemon: Gateway; of the API: Clients,
        Informers, with the messages of ProtoTables
>>

    All paths below are relative to [src/].

    ** How code becomes definitions

    - Go objects are immutable values.  What justifies it is proved apart: over
      a heap with pointers, slices and maps ([GoHeap]) the deep copies the
      controllers mutate share nothing with the objects they were made of
      ([DeepCopies]).
    - Go structs are Records and keep their field names behind a short prefix;
      string enums are strings or Inductives; [map] is [gmap], [[]T] is [list].
      Where the result of a [range] over a map could matter, the iteration
      order is a parameter with the hypothesis that it is a permutation.
    - Integers keep their width: [wrap_s]/[wrap_u] below are Go's conversions,
      and every conversion the source makes is written out.  [float64] is the
      executable binary64 of [Float64.v].  [math.Exp] and the value of an
      out-of-range float-to-integer conversion are parameters.
    - Fallible code returns [result e a]; code that can panic (an index out of
      range, a nil map) returns [option], [None] being the panic, or an error
      type with a constructor for it ([Panicked] in the protobuf readers), and
      the theorems that say an operation returns are stated as such.
    - The Kubernetes API is the class [Client] of [K8s.v]: one operation per
      verb over an abstract cluster state, which other actors may change
      between two calls.  Its laws are separate ([sole_writer],
      [prompt_delete]) and are assumed only by the theorems that need them; an
      in-memory cluster ([MemCluster]) satisfies them and runs the witnesses.
      Controllers thread the state through their calls and record what they
      issued, in order.
    - Code outside the repository is a parameter of the Section that uses it:
      the object hash (SHA-256 of JSON), the JSON codec, [IsDNS1035Label],
      [url.Parse], [GetScaledValueFromIntOrPercent], [SetControllerReference],
      the random name suffix, the clock, DNS and network connections.  Where
      the code relies on more than the type, the interface is a class with the
      documented laws and an instance that meets them: [Crypto] (certificates),
      [ControllerRuntime] (predicates and event handlers), [LimiterSpec] (what
      a proxy needs of a limiter).
    - [sort.Slice] is the class [GoSort]: some permutation that is sorted, not
      assumed stable.
    - Recursion is structural everywhere; the conflict retry of
      [ConfigMapStore.upsert] is unrolled, since the source bounds it to one.
      Fuel is used in decimal printing ([Itoa], 64 digits, more than a 64-bit
      integer has; parsing what it prints gives the number back) and in
      [strings.Fields] (the length of the text plus one: every step consumes a
      byte), for the depth of embedded structs in [OpenApi] (3, which is
      checked to be enough for every API type), and in reading a protobuf
      message (the length of the input: every field consumes a byte, and running
      out is an error of its own, proved not to occur).

    ** Files

    Foundations: this file (integers, results, the sort class, shared list
    lemmas, tactics and the hint database); [Float64]; [GoStrings] (the
    functions of [strings], [net] and [net/http] the code calls); [K8s] (API
    objects and the client interface); [Types]
    ([pkg/apis/kynomesh/v1alpha1/*_types.go], [const.go] and the small
    accessors); [Encoding] ([agentdeploy_encoding.go], [agentset_encoding.go],
    [pkg/shared/util/json.go]: an object injected into an environment is read
    back as it was, over an executable base64); [Volumes] ([pkg/shared/util]:
    every secret an object refers to is mounted where it is read, names,
    environment look-ups, random suffixes, the source of a kubeconfig).

    Generated code of the API group:
    - [GoHeap], [DeepCopies]: [zz_generated.deepcopy.go].  A deep copy reads as
      the original and whatever is written through it leaves the original, and
      everything else allocated before, as it was; and conversely.
    - [Schemas], [OpenApi]: [zz_generated.openapi.go],
      [hack/gen-openapi-spec/main.go].  What [encoding/json] makes of an API
      object is valid for the schema published for it, times that are not set
      excepted; references resolve; no default is left.
    - [ProtoWire], [Proto], [ProtoTables]: [generated.pb.go].  Each method is a
      program over an engine made of the code all of them repeat.  For every
      message [Unmarshal] gives back what [Marshal] wrote, which does not depend
      on the order maps are ranged over; any bytes are read to a value of the
      type or to one of the errors.
    - [Clients], [Informers]: [register.go], [pkg/client].  The scheme has the
      kinds of the group, clients of a clientset share a configuration, fakes
      answer from their tracker; the shared informer factory over all
      interleavings: one informer per type, none run twice, none started after
      shutdown.
    - [BuildTools]: [hack/crdgen], [hack/json-schema], [hack/gen-openapi-spec].
      Cleaning a definition is idempotent and keeps what the API server is
      configured by; the published schema pins group and kind.

    The binary:
    - [Commands]: [cmd], [pkg/version], [pkg/shared/logging].  Every container
      the controllers render runs the subcommand it is meant for, on the ports
      it declares.
    - [Runners]: [Start] of [pkg/reconciler/cmd/start.go].  What is registered
      with the manager, that followers are passive, and how the pacing of the
      watch sets relates to the age and the window of samples.
    - [Processes]: the [Start] functions, [buildScheme], [NewReconciler] of both
      controllers, logger context, version, HTTP clients.  A webhook that cannot be
      configured touches nothing; the watch sets never steer a reconcile.
    - [Lifecycle]: [Start], [runReaper] and the connection cache of the sampler
      and the drift watcher, over all interleavings and against the class
      [SourceCache] both implement: every connection is cached or closed, once.

    Manager and webhook:
    - [Manager]: [pkg/reconciler/cmd/start.go], [pkg/reconciler/config.go].  A
      change of an owned object wakes its owner's controller, a status write
      does not wake its own; start-up options; a reloaded configuration file
      is the last one that decodes.
    - [Certs]: [pkg/shared/tls/tls.go].  The certificates that are made verify
      against the CA that is returned, for the hosts and the time asked for.
    - [Webhook]: [pkg/webhook].  Admission decides well-formedness; after
      registration the API server trusts the server it is pointed at,
      whichever replica's secret won, when only replicas with the same options
      write it; replicas share one certificate.

    API group ([pkg/apis/kynomesh/v1alpha1]):
    - [Conditions]: [status_types.go].  [setCondition] refines a map update.
    - [Topology]: [topology.go].  What each pattern lets an agent see; the
      Sequential chain visits every agent once.
    - [Template]: [pod_template.go], [container_template.go].  Layers of
      templates compose, with own values winning over defaults.

    AgentSet controller ([pkg/reconciler/agentset], [pkg/reconciler/validator]):
    - [Validator]: [validator/agentset.go].  Validation is equivalent to a
      declarative well-formedness; derived object names do not collide.
    - [AgentDeploys]: [agentdeploys.go].  One child per agent, the create /
      update / delete diff is exact and converges, health aggregation.
    - [AgentSets]: [entry_service.go], [daemon.go], [controller.go].  Services
      select exactly their pods; [Reconcile] never panics; an invalid spec
      changes nothing but the status.

    AgentDeploy controller ([pkg/reconciler/agentdeploy]):
    - [PodSpecs]: [pod_spec.go].  The rendered pod does not depend on scaling.
    - [Pods]: [pods.go].  A pass equals the execution of a declarative plan;
      from that: safety of every delete and create whatever the API answers,
      progress, idempotence on a settled fleet, counters.
    - [Fleet]: passes one after the other, on a cluster that does what it is
      asked ([reliable], met by a cluster in memory): a rollout ends, in as
      many passes as it has batches, with at most one batch out of service.
    - [Services]: [services.go].  Upsert converges and is then read-only.
    - [Controller]: [controller.go].  Outcome reporting and the watch sets,
      proved against the class [ScaleWatcher].
    - [Workset], [WorkPool]: [pkg/shared/workset].  The key set discharges
      [ScaleWatcher]; the pool of goroutines around it, as a step relation,
      refines the assigner loop, starves no key, bounds the keys in work,
      never deadlocks and stops when cancelled.
    - [Driftwatch]: [driftwatch/watcher.go].  Only stale live pods are deleted,
      never more than [maxUnavailable], and a pass without error deletes that
      many or all of them.

    Scaling ([pkg/reconciler/agentdeploy/scaling]):
    - [Samples], [Codec], [Store]: [history/].  The buffer is a window, the
      binary format is exact (round trip, no truncated or extended blob read,
      no panic), a flush is what a restart loads.  Samples recorded one after
      the other under different pod specs never mix; [Record] and [Flush] are
      split at their locks, and a flush that overlaps a record can mix them.
    - [Estimator], [Decision]: [decision/].  The knee is the first plateau;
      decisions stay in range, within the step and behind the cooldowns; an
      idle fleet reaches the minimum.
    - [Sampler]: [sampling/].  Sampling returns, is local to its key and
      records the scrape.
    - [Autoscaler]: [autoscaler.go], [tracker.go].  Which patches are issued,
      and when.
    - [ClosedLoop]: [Autoscaler], [Controller] and [Fleet] composed: turn after
      turn the fleet is what was decided, and without load it shrinks to the
      minimum.
    - [Mesh]: [AgentSets], [AgentDeploys], [Controller] and [Fleet] composed, the
      passes of both controllers in any order: an AgentSet comes up from any
      state in which no replica slot mixes pods of two specs, and is then left
      alone.
    - [Telemetry]: [Scrapes], [Rater] and [Sampler] composed: what the controller
      records of an AgentDeploy is the load its brokers reported, stated on
      their answers, over the window it asked for.
    - [ScalingMetrics]: [metrics/metrics.go].  Deleted AgentDeploys leave no
      series.

    Data plane:
    - [InitRuntime]: [cmd/commands/init_runtime.go], [probe].  Files are
      installed atomically; the topology an agent reads addresses its peers'
      services; the rendered probes test the agent's health.
    - [RateLimit], [Sse], [Budgets]: [pkg/broker/ratelimit], [pkg/broker/sse.go],
      [pkg/broker/cmd/budgets.go] and [drain.go].  The in-flight invariant over
      all interleavings, the cap slices, event counting independent of
      chunking, termination budgets within the grace period.
    - [Proxies]: [pkg/broker/metrics.go], [proxy_http.go], [proxy_grpc.go].
      Over all interleavings the gauges and counters equal the requests they
      stand for and slots are neither leaked nor exceeded; gRPC forwarding is
      transparent.
    - [Broker]: [pkg/broker/broker.go], [agentcard_proxy.go], [uds.go],
      [serverinfo], [cmd/start.go].  The runtime is well-formed; what the card
      advertises is served; the broker of a rendered pod is configured from
      its own AgentDeploy; the serve loop stops.
    - [MetricsText]: [pkg/broker/cmd/drain.go],
      [pkg/daemon/server/scraper/metrics_scraper.go].  The drain's parser sums
      a page's gauges; the scraper reads back the broker's counters and makes
      an error of anything else.
    - [Introspect]: [pkg/broker/introspection.go],
      [pkg/daemon/server/scraper/introspect_scraper.go] and
      [agentcard_scraper.go].  The cache is transparent while modification
      times identify contents; the document round-trips.
    - [Daemon]: [pkg/daemon/server/cmd], [pkg/daemon/server/service/server.go],
      [pkg/daemon/client], [pkg/shared/discovery].  Discovered hosts are the
      pods' names; the rendered daemon is reached and configured; a REST call
      arrives at its method.
    - [Gateway]: [daemon.pb.gw.go], [grpc_client.go], [driftwatch/dialer.go].  A
      REST call is answered as the gRPC client's call is; the REST client of
      the package names its window parameter as the gateway does not.
    - [Queue], [Rater], [PeerCards], [Scrapes], [RaterLoop]: [pkg/shared/queue],
      [pkg/daemon/server/rater], [pkg/daemon/server/service].  Bounded
      histories, reset-aware rates, the consecutive-poll gate, report pruning;
      a concurrent scrape pass whose outcome does not depend on the order its
      ticks finish in; and, across the daemon and the drift watcher, that a
      pod called stale reported a hash other than one seen on consecutive
      polls.  The loop returns when cancelled and its counters are the scrapes
      it made.

    ** Not modelled

    Bytes on the wire: the standard library's reverse proxy, HTTP and gRPC
    servers and TLS handshakes are represented by what they hand to the code.
    Flag parsing (cobra), log output, the output of Prometheus; [String] of the
    protobuf messages and their descriptors, and the gRPC messages and stubs of
    the daemon, which are calls into their libraries; declarations of Go
    interfaces; descriptions in schemas.  Goroutines appear
    as the interleavings of the operations they call (the requests of the
    broker, the limiter's step relation, the worker pool, the order in which
    scrapes complete); a method that holds its mutex throughout is one step.
    Time passes between steps; a theorem that needs it says how much. *)
From stdpp Require Export base gmap list strings fin_maps sorting.
From Stdlib Require Export ZArith Lia.
From Stdlib.Strings Require Export Byte Ascii.
#[export] Set Default Proof Using "Type".

(** Go's numeric literals are integers: every file of the library reads
    numerals in [Z] unless it says [%nat]. *)
Declare Scope go_scope.
Delimit Scope go_scope with go.
#[global] Open Scope Z_scope.

(** ** Machine-width integers

    A [w]-bit Go integer is a [Z]; [wrap_u]/[wrap_s] are the conversions
    [uintN(x)]/[intN(x)], which keep the low [w] bits. *)
Definition wrap_u (w : Z) (x : Z) : Z := x mod 2 ^ w.
Definition wrap_s (w : Z) (x : Z) : Z :=
  (x + 2 ^ (w - 1)) mod 2 ^ w - 2 ^ (w - 1).

Definition in_u (w x : Z) : Prop := 0 <= x < 2 ^ w.
Definition in_s (w x : Z) : Prop := - 2 ^ (w - 1) <= x < 2 ^ (w - 1).

Abbreviation int32 := (wrap_s 32).
Abbreviation int64 := (wrap_s 64).
Abbreviation uint16 := (wrap_u 16).
Abbreviation uint32 := (wrap_u 32).
Abbreviation uint64 := (wrap_u 64).

Lemma wrap_s_in w x : 0 < w → in_s w (wrap_s w x).
Proof.
  intros Hw. unfold in_s, wrap_s.
  assert (2 ^ w = 2 * 2 ^ (w - 1)) as E.
  { rewrite <- Z.pow_succ_r by lia. f_equal; lia. }
  pose proof (Z.mod_pos_bound (x + 2 ^ (w - 1)) (2 ^ w)
                (Z.pow_pos_nonneg 2 w eq_refl ltac:(lia))). lia.
Qed.

Lemma wrap_s_small w x : 0 < w → in_s w x → wrap_s w x = x.
Proof.
  unfold in_s, wrap_s. intros Hw Hx.
  assert (2 ^ w = 2 * 2 ^ (w - 1)) as E.
  { rewrite <- Z.pow_succ_r by lia. f_equal; lia. }
  rewrite Z.mod_small by lia. lia.
Qed.

Lemma wrap_u_small w x : in_u w x → wrap_u w x = x.
Proof. intros H. apply Z.mod_small. exact H. Qed.

Lemma wrap_u_in w x : 0 <= w → in_u w (wrap_u w x).
Proof. intros Hw. apply Z.mod_pos_bound. apply Z.pow_pos_nonneg; lia. Qed.

(** A signed value survives the detour through its unsigned bit pattern. *)
Lemma wrap_s_u w x : 0 < w → in_s w x → wrap_s w (wrap_u w x) = x.
Proof.
  intros Hw Hx. rewrite <- (wrap_s_small w x Hw Hx) at 2.
  unfold wrap_s, wrap_u. rewrite Zplus_mod_idemp_l. done.
Qed.

(** [in_range] closes side conditions about concrete machine widths. *)
Ltac in_range := unfold in_s, in_u in *; cbn in *; lia.

(** ** Time

    [time.Time] is its distance in nanoseconds from the Unix epoch, an
    unbounded [Z]; [time.Duration] is a signed 64-bit count of nanoseconds. *)
Abbreviation Time := Z (only parsing).
Abbreviation Duration := Z (only parsing).

Definition nanosecond : Duration := 1.
Definition millisecond : Duration := 1000000.
Definition second : Duration := 1000000000.
Definition minute : Duration := 60 * second.
Definition hour : Duration := 60 * minute.

(** The zero [time.Time] is midnight of 1 January of year 1, UTC. *)
Definition zero_time : Time := -62135596800 * second.
Definition is_zero (t : Time) : bool := t =? zero_time.

Definition min_duration : Duration := - 2 ^ 63.
Definition max_duration : Duration := 2 ^ 63 - 1.

(** [t.Sub(u)] saturates at the ends of the [Duration] range. *)
Definition time_sub (t u : Time) : Duration :=
  Z.max min_duration (Z.min max_duration (t - u)).

Lemma time_sub_lt t u d :
  min_duration < d <= max_duration → time_sub t u < d ↔ t - u < d.
Proof. unfold time_sub, min_duration, max_duration. lia. Qed.

(** ** Errors

    A fallible Go call returns a value or an error.  [ApiError] keeps the
    classes of API-server errors the controllers test for. *)
Inductive ApiError : Set :=
  | NotFound
  | AlreadyExists
  | Conflict
  | OtherError (msg : string).
#[export] Instance ApiError_eq_dec : EqDecision ApiError.
Proof. solve_decision. Defined.

Definition IsNotFound (e : ApiError) : bool := bool_decide (e = NotFound).
Definition IsAlreadyExists (e : ApiError) : bool := bool_decide (e = AlreadyExists).
Definition IsConflict (e : ApiError) : bool := bool_decide (e = Conflict).

Inductive result (E A : Type) : Type :=
  | Ok (a : A)
  | Err (e : E).
Arguments Ok {E A} a.
Arguments Err {E A} e.

Definition result_bind {E A B} (r : result E A) (k : A → result E B) : result E B :=
  match r with Ok a => k a | Err e => Err e end.
Notation "'let!' x ':=' r 'in' k" := (result_bind r (fun x => k))
  (at level 10, x pattern, r at level 100, k at level 200) : go_scope.

Definition is_Ok {E A} (r : result E A) : bool :=
  match r with Ok _ => true | Err _ => false end.

(** ** Lists *)

(** Drop the longest prefix that satisfies [p]. *)
Fixpoint drop_while {A} (p : A → bool) (l : list A) : list A :=
  match l with
  | [] => []
  | x :: l' => if p x then drop_while p l' else l
  end.

Lemma drop_while_suffix {A} (p : A → bool) l : drop_while p l `suffix_of` l.
Proof.
  induction l as [|x l IH]; cbn; [done|].
  destruct (p x); [by apply suffix_cons_r|done].
Qed.

(** Keep the last [n] elements. *)
Definition last_n {A} (n : nat) (l : list A) : list A := drop (length l - n) l.

Lemma length_last_n {A} n (l : list A) : length (last_n n l) = (n `min` length l)%nat.
Proof. unfold last_n. rewrite length_drop. lia. Qed.

Lemma last_n_all {A} n (l : list A) : (length l <= n)%nat → last_n n l = l.
Proof. intros H. unfold last_n. by replace (length l - n)%nat with 0%nat by lia. Qed.

Lemma last_n_suffix {A} n (l : list A) : last_n n l `suffix_of` l.
Proof. exists (take (length l - n) l). unfold last_n. by rewrite take_drop. Qed.

Lemma NoDup_fmap_elem {A B} (f : A → B) l x y : NoDup (f <$> l) → x ∈ l → y ∈ l → f x = f y → x = y.
Proof.
  intros Hnd [i Hi]%list_elem_of_lookup [j Hj]%list_elem_of_lookup E.
  assert (i = j) as ->; [|congruence]. eapply NoDup_lookup; [exact Hnd|rewrite list_lookup_fmap, Hi; done|].
  by rewrite list_lookup_fmap, Hj, E.
Qed.
Lemma elem_of_rev {A} (l : list A) x : x ∈ rev l ↔ x ∈ l.
Proof. rewrite !list_elem_of_In. symmetry. apply in_rev. Qed.

Lemma sublist_elem_of {A} (k l : list A) x : k `sublist_of` l → x ∈ k → x ∈ l.
Proof. intros Hs Hx. by eapply elem_of_submseteq; [|apply sublist_submseteq]. Qed.

Lemma StronglySorted_sublist {A} (R : relation A) (k l : list A) :
  k `sublist_of` l → StronglySorted R l → StronglySorted R k.
Proof.
  induction 1 as [|x k l Hs IH|x k l Hs IH]; intros HS; [constructor| |];
    inversion HS; subst; [|by apply IH].
  constructor; [by apply IH|]. apply Forall_forall. intros y Hy.
  eapply Forall_forall; [done|]. by eapply sublist_elem_of.
Qed.

Lemma StronglySorted_snoc {A} (R : relation A) l x :
  StronglySorted R l → Forall (λ y, R y x) l → StronglySorted R (l ++ [x]).
Proof.
  induction 1 as [|y l Hs IH HF]; cbn; intros H; [repeat constructor|].
  inversion H; subst. constructor; [by apply IH|]. apply Forall_app. split; [done|by constructor].
Qed.

Lemma Forall2_elem_l {A B} (P : A → B → Prop) k l x :
  Forall2 P k l → x ∈ k → ∃ y, y ∈ l ∧ P x y.
Proof.
  induction 1 as [|a b k l Hab _ IH]; [set_solver|].
  intros [->|Hx]%elem_of_cons; [exists b; split; [apply list_elem_of_here|done]|].
  destruct (IH Hx) as (y & Hy & HP). exists y. split; [by apply list_elem_of_further|done].
Qed.

(** Number of leading elements that satisfy [p]. *)
Fixpoint lead {A} (p : A → bool) (l : list A) : nat :=
  match l with
  | [] => 0
  | x :: l' => if p x then S (lead p l') else 0
  end.

Lemma drop_while_drop {A} (p : A → bool) l : drop_while p l = drop (lead p l) l.
Proof. induction l as [|x l IH]; cbn; [done|]. by destruct (p x). Qed.

Lemma lead_le {A} (p : A → bool) l : (lead p l <= length l)%nat.
Proof. induction l as [|x l IH]; cbn; [lia|]. destruct (p x); lia. Qed.

Lemma lead_mono {A} (p q : A → bool) l k :
  (∀ x, p x = true → q x = true) → (lead p l <= lead q (l ++ k))%nat.
Proof.
  intros Hpq. induction l as [|x l IH]; cbn; [lia|].
  destruct (p x) eqn:E; [|lia]. rewrite (Hpq _ E). lia.
Qed.

(** Along [l], once [p] fails it keeps failing. *)
Definition down_closed {A} (p : A → bool) (l : list A) : Prop :=
  StronglySorted (λ x y, p y = true → p x = true) l.

Lemma lead_drop {A} (p : A → bool) l j :
  down_closed p l → (j + lead p (drop j l) = j `max` lead p l)%nat ∨ (length l < j)%nat.
Proof.
  intros H. revert j. induction H as [|x l HS IH HF]; intros j.
  { destruct j; cbn; [left; lia|right; lia]. }
  destruct j as [|j]; cbn [drop length]; [left; lia|].
  destruct (IH j) as [E|E]; [left|right; lia]. cbn [lead].
  destruct (p x) eqn:Ex; [lia|].
  assert (lead p (drop j l) = 0%nat) as ->; [|lia].
  destruct (drop j l) as [|y l'] eqn:Ed; [done|]. cbn.
  destruct (p y) eqn:Ey; [|done].
  assert (y ∈ l) as Hy.
  { rewrite <- (take_drop j l), Ed. set_solver. }
  eapply Forall_forall in HF; [|exact Hy]. by specialize (HF Ey).
Qed.

Lemma last_n_drop {A} n k (l : list A) :
  last_n n (drop k l) = drop (k `max` (length l - n)) l.
Proof. unfold last_n. rewrite length_drop, drop_drop. f_equal. lia. Qed.

(** What a window of the newest [n] elements not satisfying [p] keeps does
    not depend on an earlier, weaker window having been applied. *)
Lemma window_snoc {A} n (p q : A → bool) l x :
  (∀ y, p y = true → q y = true) → down_closed q (l ++ [x]) →
  last_n n (drop_while q (last_n n (drop_while p l) ++ [x])) =
  last_n n (drop_while q (l ++ [x])).
Proof.
  intros Hpq Hq. rewrite (drop_while_drop p), last_n_drop.
  set (j := (lead p l `max` (length l - n))%nat).
  assert (j <= length l)%nat as Hj by (subst j; pose proof (lead_le p l); lia).
  replace (drop j l ++ [x]) with (drop j (l ++ [x])) by (by rewrite drop_app_le).
  rewrite !drop_while_drop, drop_drop, !last_n_drop.
  destruct (lead_drop q (l ++ [x]) j Hq) as [->|E]; [|rewrite length_app in E; cbn in E; lia].
  pose proof (lead_mono p q l [x] Hpq). subst j. rewrite length_app. cbn [length].
  f_equal. lia.
Qed.

Lemma down_closed_filter {A} (p : A → bool) l :
  down_closed p l → drop_while p l = filter (λ x, p x = false) l.
Proof.
  induction 1 as [|x l HS IH HF]; [done|]. cbn [drop_while]. rewrite filter_cons.
  destruct (p x) eqn:E; [rewrite decide_False; [done|congruence]|].
  rewrite decide_True by done. f_equal. clear -HF. induction HF as [|y l Hy _ IH]; [done|].
  rewrite filter_cons, <- IH. destruct (p y); [|by rewrite decide_True].
  by specialize (Hy eq_refl).
Qed.

(** Counting the elements of a list that satisfy [p]. *)
Definition countZ {A} (p : A → bool) (l : list A) : Z :=
  foldr (λ x n, Z.b2z (p x) + n) 0 l.

Lemma countZ_cons {A} (p : A → bool) x l : countZ p (x :: l) = Z.b2z (p x) + countZ p l.
Proof. done. Qed.

Lemma countZ_app {A} (p : A → bool) k l : countZ p (k ++ l) = countZ p k + countZ p l.
Proof. induction k as [|x k IH]; [done|]. rewrite <- app_comm_cons, !countZ_cons, IH. lia. Qed.

Lemma countZ_insert {A} (p : A → bool) l i x y :
  l !! i = Some x → countZ p (<[i:=y]> l) = countZ p l - Z.b2z (p x) + Z.b2z (p y).
Proof.
  revert i. induction l as [|z l IH]; intros [|i] H; try done.
  - injection H as ->. cbn [insert list_insert]. rewrite !countZ_cons. lia.
  - change (<[S i:=y]> (z :: l)) with (z :: <[i:=y]> l). rewrite !countZ_cons, IH by done. lia.
Qed.

Lemma countZ_nonneg {A} (p : A → bool) l : 0 <= countZ p l.
Proof.
  induction l as [|x l IH]; [done|]. rewrite countZ_cons. destruct (p x); cbn [Z.b2z]; lia.
Qed.

Lemma countZ_mono {A} (p q : A → bool) l :
  (∀ x, x ∈ l → p x = true → q x = true) → countZ p l <= countZ q l.
Proof.
  induction l as [|x l IH]; intros H; [done|]. rewrite !countZ_cons.
  specialize (IH ltac:(intros; apply H; [by apply list_elem_of_further|done])).
  specialize (H x (list_elem_of_here _ _)).
  destruct (p x), (q x); cbn [Z.b2z]; first [lia|by specialize (H eq_refl)].
Qed.

Lemma countZ_elem {A} (p : A → bool) l i x : l !! i = Some x → p x = true → 0 < countZ p l.
Proof.
  intros Hi Hp. rewrite <- (take_drop_middle l i x Hi), countZ_app, countZ_cons, Hp.
  pose proof (countZ_nonneg p (take i l)). pose proof (countZ_nonneg p (drop (S i) l)).
  cbn [Z.b2z]. lia.
Qed.

Lemma countZ_add {A} (p q r : A → bool) l :
  (∀ x, x ∈ l → Z.b2z (r x) = Z.b2z (p x) + Z.b2z (q x)) → countZ r l = countZ p l + countZ q l.
Proof.
  induction l as [|x l IH]; intros H; [done|]. rewrite !countZ_cons.
  specialize (IH ltac:(intros; apply H; by apply list_elem_of_further)).
  specialize (H x (list_elem_of_here _ _)). lia.
Qed.

(** ** Bytes *)
Definition byte_of_Z (z : Z) : byte :=
  default x00 (Byte.of_N (Z.to_N (z mod 256))).
Definition Z_of_byte (b : byte) : Z := Z.of_N (Byte.to_N b).

#[export] Instance byte_eq_dec : EqDecision byte := Byte.byte_eq_dec.

Lemma Z_of_byte_range b : 0 <= Z_of_byte b < 256.
Proof. unfold Z_of_byte. pose proof (Byte.to_N_bounded b). lia. Qed.

Lemma Z_of_byte_of_Z z : Z_of_byte (byte_of_Z z) = z mod 256.
Proof.
  unfold Z_of_byte, byte_of_Z. pose proof (Z.mod_pos_bound z 256 ltac:(lia)).
  destruct (Byte.of_N (Z.to_N (z mod 256))) as [b|] eqn:E; cbn.
  - apply Byte.to_of_N in E. rewrite E. lia.
  - apply Byte.of_N_None_iff in E. lia.
Qed.

Lemma length_list_byte s : length (String.list_byte_of_string s) = String.length s.
Proof.
  unfold String.list_byte_of_string. rewrite length_map. induction s; cbn; congruence.
Qed.

(** ** Proof automation shared by the components *)
Create HintDb kyno discriminated.
#[export] Hint Resolve wrap_s_in wrap_u_in : kyno.

(** Case on every [if]/[match] scrutinee of the goal and every hypothesis. *)
Ltac case_match_all := repeat (case_match; simplify_eq/=).

(** Split [Forall] and [StronglySorted] goals on concrete lists. *)
Ltac split_list :=
  repeat match goal with
  | |- StronglySorted _ [] => apply SSorted_nil
  | |- StronglySorted _ (_ :: _) => apply SSorted_cons
  | |- Forall _ [] => apply Forall_nil_2
  | |- Forall _ (_ :: _) => apply Forall_cons_2
  end.

(** Turn the boolean comparisons of the code into propositions. *)
Ltac zbool :=
  repeat match goal with
  | H : _ && _ = true |- _ => apply andb_true_iff in H as [??]
  | H : _ || _ = false |- _ => apply orb_false_iff in H as [??]
  | H : negb _ = true |- _ => apply negb_true_iff in H
  | H : negb _ = false |- _ => apply negb_false_iff in H
  | H : (_ <? _) = true |- _ => apply Z.ltb_lt in H
  | H : (_ <? _) = false |- _ => apply Z.ltb_ge in H
  | H : (_ <=? _) = true |- _ => apply Z.leb_le in H
  | H : (_ <=? _) = false |- _ => apply Z.leb_gt in H
  | H : (_ =? _) = true |- _ => apply Z.eqb_eq in H
  | H : (_ =? _) = false |- _ => apply Z.eqb_neq in H
  | H : bool_decide _ = true |- _ => apply bool_decide_eq_true in H
  | H : bool_decide _ = false |- _ => apply bool_decide_eq_false in H
  end.

(** ** Sorting

    [sort.Slice] orders a slice by a [less] function; the order of elements
    that compare equal is unspecified, so the sort is an interface of which
    only the documented contract is known. *)
Definition strict_weak {A} (less : A → A → bool) : Prop :=
  (∀ x, less x x = false) ∧
  (∀ x y z, less x y = true → less y z = true → less x z = true) ∧
  (∀ x y z, less x y = false → less y z = false → less x z = false).

Class GoSort := {
  sort_slice : ∀ {A : Type}, (A → A → bool) → list A → list A;
  sort_slice_perm : ∀ {A} (less : A → A → bool) l, sort_slice less l ≡ₚ l;
  sort_slice_sorted : ∀ {A} (less : A → A → bool) l,
    strict_weak less → StronglySorted (λ x y, less y x = false) (sort_slice less l)
}.

(** Insertion sort meets the contract (and is stable). *)
Fixpoint insert_by {A} (less : A → A → bool) (x : A) (l : list A) : list A :=
  match l with
  | [] => [x]
  | y :: l' => if less x y then x :: l else y :: insert_by less x l'
  end.
Fixpoint isort_acc {A} (less : A → A → bool) (l acc : list A) : list A :=
  match l with
  | [] => acc
  | x :: l' => isort_acc less l' (insert_by less x acc)
  end.

Lemma insert_by_perm {A} (less : A → A → bool) x l : insert_by less x l ≡ₚ x :: l.
Proof.
  induction l as [|y l IH]; cbn; [done|]. case_match; [done|]. rewrite IH. constructor.
Qed.

Lemma insert_by_sorted {A} (less : A → A → bool) x l :
  strict_weak less → StronglySorted (λ x y, less y x = false) l →
  StronglySorted (λ x y, less y x = false) (insert_by less x l).
Proof.
  intros (Hi & Ht & Hn). induction 1 as [|y l Hs IH HF]; cbn; [repeat constructor|].
  destruct (less x y) eqn:E.
  - constructor; [by constructor|]. constructor.
    + destruct (less y x) eqn:E2; [|done]. specialize (Ht _ _ _ E E2). by rewrite Hi in Ht.
    + eapply Forall_impl; [exact HF|]. intros z Hz. cbn in Hz.
      destruct (less z x) eqn:E2; [|done]. specialize (Ht _ _ _ E2 E). congruence.
  - constructor; [done|]. rewrite insert_by_perm. by constructor.
Qed.

#[export, refine] Instance insertion_sort : GoSort := {
  sort_slice A less l := isort_acc less l []
}.
Proof.
  - intros A less l. enough (∀ acc, isort_acc less l acc ≡ₚ l ++ acc) as H.
    { rewrite H. by rewrite app_nil_r. }
    induction l as [|x l IH]; intros acc; cbn; [done|].
    rewrite IH, insert_by_perm. by rewrite Permutation_middle.
  - intros A less l Hw.
    enough (∀ acc, StronglySorted (λ x y, less y x = false) acc →
                   StronglySorted (λ x y, less y x = false) (isort_acc less l acc)) as H.
    { apply H. constructor. }
    induction l as [|x l IH]; intros acc Hacc; cbn; [done|]. apply IH.
    by apply insert_by_sorted.
Defined.

(** ** Decimal integers: [strconv.ParseInt(s, 10, 64)], [strconv.Atoi] and
    [strconv.Itoa] on a 64-bit platform *)
Definition digit_val (a : Ascii.ascii) : option Z :=
  let n := Z.of_N (Ascii.N_of_ascii a) in
  if (48 <=? n) && (n <=? 57) then Some (n - 48) else None.

Fixpoint parse_digits (acc : Z) (s : string) : option Z :=
  match s with
  | EmptyString => Some acc
  | String a s' => d ← digit_val a; parse_digits (10 * acc + d) s'
  end.

Definition parse_nonempty (s : string) : option Z :=
  match s with EmptyString => None | _ => parse_digits 0 s end.

Definition in_range64 (z : Z) : option Z :=
  if (- 2 ^ 63 <=? z) && (z <? 2 ^ 63) then Some z else None.

Definition ParseInt (s : string) : option Z :=
  match s with
  | String "-"%char s' => v ← parse_nonempty s'; in_range64 (- v)
  | String "+"%char s' => v ← parse_nonempty s'; in_range64 v
  | _ => v ← parse_nonempty s; in_range64 v
  end.
Definition Atoi : string → option Z := ParseInt.

Definition digit_char (d : Z) : Ascii.ascii := Ascii.ascii_of_N (Z.to_N (48 + d)).

(** Decimal digits of [n >= 0], by repeated division; [fuel] bounds the
    number of digits (64 is enough for any 64-bit value). *)
Fixpoint digits_of (fuel : nat) (n : Z) (acc : string) : string :=
  let acc' := String (digit_char (n mod 10)) acc in
  match fuel with
  | O => acc'
  | S f => if n <? 10 then acc' else digits_of f (n / 10) acc'
  end.

Definition Itoa (n : Z) : string :=
  if n <? 0 then String "-"%char (digits_of 64 (- n) "") else digits_of 64 n "".

Lemma digit_val_char d : 0 <= d < 10 → digit_val (digit_char d) = Some d.
Proof.
  intros H. unfold digit_val, digit_char.
  rewrite Ascii.N_ascii_embedding by lia. rewrite Z2N.id by lia.
  assert (((48 <=? 48 + d) && (48 + d <=? 57)) = true) as ->; [|f_equal; lia].
  apply andb_true_iff. split; apply Z.leb_le; lia.
Qed.

Lemma parse_digits_of fuel n acc k :
  0 <= n < 10 ^ (Z.of_nat fuel + 1) →
  parse_digits k (digits_of fuel n acc) =
    parse_digits (k * 10 ^ (1 + Z.of_nat (String.length (digits_of fuel n acc)) -
                            Z.of_nat (String.length acc) - 1) + n) acc.
Proof.
  revert n acc k. induction fuel as [|fuel IH]; intros n acc k Hn; cbn [digits_of].
  - cbn [parse_digits String.length]. rewrite digit_val_char by (apply Z.mod_pos_bound; lia).
    cbn [mbind option_bind]. change (10 ^ (Z.of_nat 0 + 1)) with 10 in Hn.
    rewrite Z.mod_small by lia. f_equal. rewrite Nat2Z.inj_succ.
    replace (1 + Z.succ _ - _ - 1) with 1 by lia. lia.
  - assert (10 ^ (Z.of_nat (S fuel) + 1) = 10 * 10 ^ (Z.of_nat fuel + 1)) as E10.
    { rewrite <- Z.pow_succ_r by lia. f_equal. lia. }
    destruct (n <? 10) eqn:E; zbool.
    + cbn [parse_digits String.length]. rewrite digit_val_char by (apply Z.mod_pos_bound; lia).
      cbn [mbind option_bind]. rewrite Z.mod_small by lia. f_equal. rewrite Nat2Z.inj_succ.
      replace (1 + Z.succ _ - _ - 1) with 1 by lia. lia.
    + rewrite IH by (split; [apply Z.div_pos; lia|apply Z.div_lt_upper_bound; lia]).
      cbn [parse_digits String.length]. rewrite digit_val_char by (apply Z.mod_pos_bound; lia).
      cbn [mbind option_bind]. f_equal.
      set (L := Z.of_nat (String.length (digits_of fuel (n / 10) _))).
      rewrite Nat2Z.inj_succ. set (a := Z.of_nat (String.length acc)).
      assert (a + 1 <= L) as HL.
      { subst L a. clear. generalize (n / 10); intros m. generalize (digit_char (n mod 10)); intros c.
        enough (∀ f m s, (String.length s <= String.length (digits_of f m s))%nat) as H.
        { specialize (H fuel m (String c acc)). cbn [String.length] in H. lia. }
        clear. induction f as [|f IH]; intros m s; cbn [digits_of String.length]; [lia|].
        case_match; cbn [String.length]; [lia|].
        specialize (IH (m / 10) (String (digit_char (m mod 10)) s)). cbn [String.length] in IH. lia. }
      replace (1 + L - a - 1) with (Z.succ (1 + L - Z.succ a - 1)) by lia.
      rewrite Z.pow_succ_r by lia. rewrite (Z.div_mod n 10) at 3 by lia. ring.
Qed.

Lemma digits_of_head fuel n acc : 0 <= n →
  ∃ d s, digits_of fuel n acc = String (digit_char d) s ∧ 0 <= d < 10.
Proof.
  revert n acc. induction fuel as [|fuel IH]; intros n acc Hn; cbn [digits_of].
  - exists (n mod 10), acc. split; [done|apply Z.mod_pos_bound; lia].
  - case_match; [exists (n mod 10), acc; split; [done|apply Z.mod_pos_bound; lia]|].
    apply IH. apply Z.div_pos; lia.
Qed.

Lemma Atoi_Itoa n : in_s 64 n → 0 <= n → Atoi (Itoa n) = Some n.
Proof.
  intros Hr Hn. unfold Atoi, Itoa. destruct (n <? 0) eqn:E; zbool; [lia|].
  pose proof (parse_digits_of 64 n "" 0) as HP.
  assert (0 <= n < 10 ^ (Z.of_nat 64 + 1)) as Hb by in_range.
  specialize (HP Hb). cbn [parse_digits] in HP. rewrite Z.mul_0_l, Z.add_0_l in HP.
  destruct (digits_of_head 64 n "" Hn) as (d & s & Hs & Hd). rewrite Hs in *.
  assert (parse_nonempty (String (digit_char d) s) = Some n) as HN by exact HP.
  assert (in_range64 n = Some n) as HR.
  { unfold in_range64. unfold in_s in Hr. cbn in Hr. case_match; [done|].
    apply andb_false_iff in H as [H|H]; zbool; cbn in *; lia. }
  unfold ParseInt.
  destruct (digit_char d) as [[] [] [] [] [] [] [] []] eqn:Ed; try (rewrite HN; exact HR);
    exfalso; pose proof (digit_val_char d Hd) as HV; rewrite Ed in HV; vm_compute in HV;
    discriminate.
Qed.


Lemma Atoi_Itoa_signed n : in_s 64 n → Atoi (Itoa n) = Some n.
Proof.
  intros Hr. destruct (decide (0 <= n)) as [Hn|Hn]; [by apply Atoi_Itoa|].
  unfold Atoi, Itoa. rewrite (proj2 (Z.ltb_lt _ _)) by lia.
  pose proof (parse_digits_of 64 (- n) "" 0) as HP.
  assert (0 <= - n < 10 ^ (Z.of_nat 64 + 1)) as Hb by in_range.
  specialize (HP Hb). cbn [parse_digits] in HP. rewrite Z.mul_0_l, Z.add_0_l in HP.
  destruct (digits_of_head 64 (- n) "" ltac:(lia)) as (d & s & Hs & Hd). rewrite Hs in *.
  unfold ParseInt. cbn [parse_nonempty]. rewrite HP. cbn [mbind option_bind]. rewrite Z.opp_involutive.
  unfold in_range64. unfold in_s in Hr. cbn in Hr. case_match; [done|].
  apply andb_false_iff in H as [H|H]; zbool; cbn in *; lia.
Qed.

(** ** String order: Go compares strings byte by byte *)
Lemma string_compare_lt_trans a b c :
  String.compare a b = Lt → String.compare b c = Lt → String.compare a c = Lt.
Proof.
  revert b c. induction a as [|x a IH]; intros [|y b] [|z c]; cbn; try done.
  unfold Ascii.compare.
  destruct (N.compare_spec (Ascii.N_of_ascii x) (Ascii.N_of_ascii y)) as [E|E|E]; try done;
    destruct (N.compare_spec (Ascii.N_of_ascii y) (Ascii.N_of_ascii z)) as [E'|E'|E']; try done;
    destruct (N.compare_spec (Ascii.N_of_ascii x) (Ascii.N_of_ascii z)) as [E''|E''|E''];
    try done; try lia; eauto.
Qed.

Lemma string_ltb_lt a b : String.ltb a b = true ↔ String.compare a b = Lt.
Proof. unfold String.ltb. destruct (String.compare a b); intuition congruence. Qed.

Lemma string_ltb_strict_weak : strict_weak String.ltb.
Proof.
  split_and!.
  - intros x. unfold String.ltb. pose proof (String.compare_antisym x x) as Hx.
    by destruct (String.compare x x).
  - intros x y z. rewrite !string_ltb_lt. apply string_compare_lt_trans.
  - intros x y z Hxy Hyz. destruct (String.ltb x z) eqn:E; [|done]. apply string_ltb_lt in E.
    unfold String.ltb in Hxy, Hyz. rewrite String.compare_antisym in Hxy, Hyz.
    destruct (String.compare y x) eqn:Eyx; cbn in Hxy; try done.
    { apply String.compare_eq_iff in Eyx as ->. destruct (String.compare z x) eqn:Ezx; try done;
        rewrite String.compare_antisym, Ezx in E; done. }
    pose proof (string_compare_lt_trans _ _ _ Eyx E) as Hyz'.
    rewrite String.compare_antisym, Hyz' in Hyz. done.
Qed.

Lemma string_ltb_total a b : String.ltb a b = false → String.ltb b a = false → a = b.
Proof.
  unfold String.ltb. pose proof (String.compare_antisym a b) as Ha.
  destruct (String.compare a b) eqn:E; try done.
  - intros _ _. by apply String.compare_eq_iff in E.
  - by destruct (String.compare b a).
Qed.

(** A weak order on a key orders the values. *)
Lemma strict_weak_on {A B} (f : A → B) (less : B → B → bool) :
  strict_weak less → strict_weak (λ x y, less (f x) (f y)).
Proof. intros (H1 & H2 & H3). split_and!; intros; eauto. Qed.
#[export] Hint Resolve string_ltb_strict_weak : kyno.

(** ** Map iteration: [for k, v := range m] visits every entry once, in an
    unspecified order *)
Class GoRange := {
  range_map : ∀ {K A : Type} `{Countable K}, gmap K A → list (K * A);
  range_map_perm : ∀ {K A : Type} `{Countable K} (m : gmap K A), range_map m ≡ₚ map_to_list m
}.
#[export, refine] Instance range_in_key_order : GoRange := {
  range_map K A _ _ m := map_to_list m
}.
Proof. done. Defined.

Lemma range_map_elem `{GoRange} {K A} `{Countable K} (m : gmap K A) k x :
  (k, x) ∈ range_map m ↔ m !! k = Some x.
Proof. by rewrite range_map_perm, elem_of_map_to_list. Qed.
