(* ===== verification/Float64.v ===== *)
(** * IEEE-754 binary64 arithmetic as Go's [float64]

    [float64] values are the Standard Library's executable [spec_float] at
    precision 53 and maximal exponent 1024, so every sum, product, quotient
    and comparison of the code is evaluated bit for bit, rounding to nearest
    even.  The file adds what Go's [math] package and conversions do
    ([Max], [Min], [Ceil], [Float64bits], integer conversions) and the order
    and sign lemmas the components use.  NaN payloads are not modelled. *)
From S2P Require Import Prelude.
From Stdlib Require Export SpecFloat.

Abbreviation float64 := spec_float.
#[export] Instance float64_eq_dec : EqDecision float64.
Proof. solve_decision. Defined.

Definition prec64 : Z := 53.
Definition emax64 : Z := 1024.

Definition fadd : float64 → float64 → float64 := SFadd prec64 emax64.
Definition fsub : float64 → float64 → float64 := SFsub prec64 emax64.
Definition fmul : float64 → float64 → float64 := SFmul prec64 emax64.
Definition fdiv : float64 → float64 → float64 := SFdiv prec64 emax64.
Definition fneg : float64 → float64 := SFopp.

Definition flt : float64 → float64 → bool := SFltb.
Definition fle : float64 → float64 → bool := SFleb.
Definition feq : float64 → float64 → bool := SFeqb.

(** [float64(n)] for an integer [n]. *)
Definition f_of_Z (n : Z) : float64 := binary_normalize prec64 emax64 n 0 false.
(** The constant [p/q], correctly rounded: both operands are exact. *)
Definition f_ratio (p q : Z) : float64 := fdiv (f_of_Z p) (f_of_Z q).

Definition fzero : float64 := S754_zero false.
Definition fone : float64 := f_of_Z 1.
Definition fnan : float64 := S754_nan.
Definition finf : float64 := S754_infinity false.

Definition isNaN (x : float64) : bool :=
  match x with S754_nan => true | _ => false end.
Definition isPosInf (x : float64) : bool :=
  match x with S754_infinity false => true | _ => false end.
Definition isNegInf (x : float64) : bool :=
  match x with S754_infinity true => true | _ => false end.
Definition is_finite (x : float64) : bool :=
  match x with S754_zero _ | S754_finite _ _ _ => true | _ => false end.
Definition signbit (x : float64) : bool :=
  match x with
  | S754_zero s | S754_infinity s | S754_finite s _ _ => s
  | S754_nan => false
  end.
Definition fvalid (x : float64) : bool := valid_binary prec64 emax64 x.

(** [math.Max] and [math.Min], with their special cases in Go's order. *)
Definition fmax (x y : float64) : float64 :=
  if isPosInf x || isPosInf y then finf
  else if isNaN x || isNaN y then fnan
  else if feq x fzero && feq x y then (if signbit x then y else x)
  else if flt y x then x else y.

Definition fmin (x y : float64) : float64 :=
  if isNegInf x || isNegInf y then S754_infinity true
  else if isNaN x || isNaN y then fnan
  else if feq x fzero && feq x y then (if signbit x then x else y)
  else if flt x y then x else y.

(** The integer part of a finite value, rounding towards zero. *)
Definition ftrunc (x : float64) : option Z :=
  match x with
  | S754_zero _ => Some 0
  | S754_finite s m e =>
      let v := if e <? 0 then Zpos m / 2 ^ (- e) else Zpos m * 2 ^ e in
      Some (if s then - v else v)
  | _ => None
  end.

(** Go leaves the conversion of an unrepresentable value to the platform:
    [oob] says what the platform does. *)
Definition f_to_int (w : Z) (oob : float64 → Z) (x : float64) : Z :=
  match ftrunc x with
  | Some z => if (- 2 ^ (w - 1) <=? z) && (z <? 2 ^ (w - 1)) then z else wrap_s w (oob x)
  | None => wrap_s w (oob x)
  end.

(** [math.Ceil]. *)
Definition fceil (x : float64) : float64 :=
  match x with
  | S754_finite s m e =>
      if 0 <=? e then x
      else
        let q := Zpos m / 2 ^ (- e) in
        let exact := (q * 2 ^ (- e) =? Zpos m) in
        let z := if s then - q else if exact then q else q + 1 in
        if z =? 0 then S754_zero s else f_of_Z z
  | _ => x
  end.

(** [math.Float64bits] and [math.Float64frombits]. *)
Definition Float64bits (x : float64) : Z :=
  match x with
  | S754_zero s => if s then 2 ^ 63 else 0
  | S754_infinity s => (if s then 2 ^ 63 else 0) + 2047 * 2 ^ 52
  | S754_nan => 2047 * 2 ^ 52 + 2 ^ 51 + 1
  | S754_finite s m e =>
      (if s then 2 ^ 63 else 0) +
      (if Zpos m <? 2 ^ 52 then Zpos m else (e + 1075) * 2 ^ 52 + (Zpos m - 2 ^ 52))
  end.

Definition Float64frombits (b : Z) : float64 :=
  let s := 2 ^ 63 <=? b in
  let b' := b mod 2 ^ 63 in
  let ex := b' / 2 ^ 52 in
  let fr := b' mod 2 ^ 52 in
  if ex =? 2047 then (if fr =? 0 then S754_infinity s else S754_nan)
  else if ex =? 0 then
    match fr with Zpos p => S754_finite s p (-1074) | _ => S754_zero s end
  else match fr + 2 ^ 52 with Zpos p => S754_finite s p (ex - 1075) | _ => S754_zero s end.

(** ** Order *)

(** ** Clamping *)

Lemma fmax_pos x c :
  fle c fzero = false → fle (fmax x c) fzero = false.
Proof.
  intros Hc. unfold fmax.
  destruct (isPosInf x || isPosInf c); [done|].
  destruct (isNaN x || isNaN c) eqn:N; [done|]. apply orb_false_iff in N as [Nx Nc].
  destruct (feq x fzero && feq x c) eqn:Z0.
  { destruct (signbit x); [done|]. apply andb_true_iff in Z0 as [Z1 Z2].
    destruct x as [s|s| |s m e]; try (by destruct s); try done.
    destruct c as [s'|s'| |s' m' e']; try (by destruct s'); try done. }
  destruct (flt c x) eqn:L; [|done].
  destruct x as [s|s| |s m e], c as [s'|s'| |s' m' e']; try (by destruct s); try (by destruct s, s'); done.
Qed.

Definition clampF_spec (r : float64) : Prop :=
  isNaN r = false ∧ fle fzero r = true ∧ fle r fone = true.

(** ** Sign and definedness of rounding *)

(** ** Bit patterns *)

Lemma digits2_pos_bounds p :
  2 ^ (Zpos (digits2_pos p) - 1) <= Zpos p < 2 ^ Zpos (digits2_pos p).
Proof.
  induction p as [p IH|p IH|]; cbn [digits2_pos]; [| |cbn; lia];
    rewrite Pos2Z.inj_succ; set (d := Zpos (digits2_pos p)) in *;
    assert (0 < d) by (subst d; lia);
    replace (Z.succ d - 1) with (Z.succ (d - 1)) by lia;
    rewrite !Z.pow_succ_r by lia; lia.
Qed.

(** The mantissa and exponent of a canonical finite binary64 value. *)
Lemma fvalid_finite s m e :
  fvalid (S754_finite s m e) = true →
  Zpos m < 2 ^ 53 ∧ -1074 <= e <= 971 ∧ (Zpos m < 2 ^ 52 → e = -1074).
Proof.
  cbn. unfold bounded, canonical_mantissa, fexp, emin, prec64, emax64. intros H.
  apply andb_true_iff in H as [H1 H2]. apply Z.eqb_eq in H1. apply Z.leb_le in H2.
  pose proof (digits2_pos_bounds m) as [Hlo Hhi].
  set (d := Zpos (digits2_pos m)) in *.
  assert (0 < d) by (subst d; lia).
  assert (d <= 53) as Hd by lia.
  pose proof (Z.pow_le_mono_r 2 d 53 ltac:(lia) Hd).
  split; [lia|]. split; [lia|]. intros Hm.
  destruct (decide (d <= 52)); [lia|]. exfalso.
  pose proof (Z.pow_le_mono_r 2 52 (d - 1) ltac:(lia) ltac:(lia)). lia.
Qed.

Lemma bits_split (s : bool) b' :
  0 <= b' < 2 ^ 63 →
  (2 ^ 63 <=? (if s then 2 ^ 63 else 0) + b') = s ∧
  ((if s then 2 ^ 63 else 0) + b') mod 2 ^ 63 = b'.
Proof.
  intros H. destruct s.
  - split; [apply Z.leb_le; lia|]. rewrite Z.add_comm.
    replace (b' + 2 ^ 63) with (b' + 1 * 2 ^ 63) by lia.
    rewrite Z.mod_add by lia. apply Z.mod_small. lia.
  - split; [apply Z.leb_gt; lia|]. apply Z.mod_small. lia.
Qed.

Lemma frombits_parts (s : bool) ex fr :
  0 <= ex < 2048 → 0 <= fr < 2 ^ 52 →
  Float64frombits ((if s then 2 ^ 63 else 0) + (ex * 2 ^ 52 + fr)) =
    if ex =? 2047 then (if fr =? 0 then S754_infinity s else S754_nan)
    else if ex =? 0 then
      match fr with Zpos p => S754_finite s p (-1074) | _ => S754_zero s end
    else match fr + 2 ^ 52 with Zpos p => S754_finite s p (ex - 1075) | _ => S754_zero s end.
Proof.
  intros Hex Hfr. unfold Float64frombits.
  destruct (bits_split s (ex * 2 ^ 52 + fr)) as [-> ->].
  { assert (2 ^ 63 = 2048 * 2 ^ 52) as E by reflexivity. lia. }
  rewrite Z.div_add_l, (Z.div_small fr), Z.add_0_r by lia.
  rewrite (Z.add_comm (ex * 2 ^ 52)), Z.mod_add, (Z.mod_small fr) by lia. done.
Qed.

Lemma frombits_bits x : fvalid x = true → Float64frombits (Float64bits x) = x.
Proof.
  destruct x as [s|s| |s m e]; intros Hv.
  - by destruct s.
  - by destruct s.
  - done.
  - apply fvalid_finite in Hv as (Hm & He & Hsub). cbn [Float64bits].
    destruct (Zpos m <? 2 ^ 52) eqn:E; zbool.
    + replace (Zpos m) with (0 * 2 ^ 52 + Zpos m) by lia.
      rewrite frombits_parts by lia. cbn [Z.eqb]. by rewrite (Hsub E).
    + rewrite frombits_parts; [| |assert (2 ^ 53 = 2 * 2 ^ 52) by reflexivity]; [|lia..].
      destruct (e + 1075 =? 2047) eqn:E1; zbool; [lia|].
      destruct (e + 1075 =? 0) eqn:E2; zbool; [lia|].
      replace (Zpos m - 2 ^ 52 + 2 ^ 52) with (Zpos m) by lia. f_equal. lia.
Qed.

Lemma digits2_pos_le p n : 0 <= n → Zpos p < 2 ^ n → Zpos (digits2_pos p) <= n.
Proof.
  intros Hn Hp. pose proof (digits2_pos_bounds p) as [Hlo _].
  destruct (decide (Zpos (digits2_pos p) <= n)) as [|Hgt]; [done|].
  pose proof (Z.pow_le_mono_r 2 n (Zpos (digits2_pos p) - 1) ltac:(lia) ltac:(lia)). lia.
Qed.

Lemma digits2_pos_ge p n : 0 <= n → 2 ^ n <= Zpos p → n < Zpos (digits2_pos p).
Proof.
  intros Hn Hp. pose proof (digits2_pos_bounds p) as [_ Hhi].
  destruct (decide (n < Zpos (digits2_pos p))) as [|Hle]; [done|].
  pose proof (Z.pow_le_mono_r 2 (Zpos (digits2_pos p)) n ltac:(lia) ltac:(lia)). lia.
Qed.

(** Every 64-bit pattern is read as a canonical value. *)
Lemma frombits_valid b : in_u 64 b → fvalid (Float64frombits b) = true.
Proof.
  intros _. unfold Float64frombits. set (s := 2 ^ 63 <=? b).
  pose proof (Z.mod_pos_bound b (2 ^ 63) ltac:(lia)) as Hb. set (b' := b mod 2 ^ 63) in *.
  pose proof (Z.mod_pos_bound b' (2 ^ 52) ltac:(lia)) as Hf. set (fr := b' mod 2 ^ 52) in *.
  assert (0 <= b' / 2 ^ 52 < 2048) as He.
  { split; [apply Z.div_pos; lia|]. apply Z.div_lt_upper_bound; [lia|].
    assert (2 ^ 63 = 2 ^ 52 * 2048) by reflexivity. lia. }
  set (ex := b' / 2 ^ 52) in *. clearbody s fr ex.
  destruct (ex =? 2047) eqn:E1; [by destruct (fr =? 0)|].
  destruct (ex =? 0) eqn:E2; zbool.
  - destruct fr as [|p|p]; [done| |lia]. cbn.
    unfold bounded, canonical_mantissa, fexp, emin, prec64, emax64.
    pose proof (digits2_pos_le p 52 ltac:(lia) ltac:(lia)).
    apply andb_true_iff. split; [apply Z.eqb_eq|apply Z.leb_le]; lia.
  - destruct (fr + 2 ^ 52) as [|p|p] eqn:Ep; [done| |lia]. cbn.
    unfold bounded, canonical_mantissa, fexp, emin, prec64, emax64.
    assert (2 ^ 53 = 2 * 2 ^ 52) by reflexivity.
    pose proof (digits2_pos_le p 53 ltac:(lia) ltac:(lia)).
    pose proof (digits2_pos_ge p 52 ltac:(lia) ltac:(lia)).
    apply andb_true_iff. split; [apply Z.eqb_eq|apply Z.leb_le]; lia.
Qed.

Lemma Float64bits_range x : fvalid x = true → in_u 64 (Float64bits x).
Proof.
  unfold in_u. destruct x as [s|s| |s m e]; intros Hv.
  - destruct s; cbn; lia.
  - destruct s; cbn; lia.
  - cbn; lia.
  - apply fvalid_finite in Hv as (Hm & He & _). cbn [Float64bits].
    assert (2 ^ 53 = 2 * 2 ^ 52) by reflexivity.
    assert (2 ^ 63 = 2048 * 2 ^ 52) by reflexivity.
    assert (2 ^ 64 = 4096 * 2 ^ 52) by reflexivity.
    destruct s; case_match; zbool; lia.
Qed.
