(* ===== verification/Queue.v ===== *)
(** * Overflow queue ([pkg/shared/queue/overflow_queue.go])

    A bounded FIFO that drops its oldest element when full.  Every operation
    runs under the queue's own lock, so a concurrent history is a sequence of
    the operations below.  The abstract specification is "the last [n] values
    appended". *)
From S2P Require Import Prelude.

Module Queue.

Record OverflowQueue (T : Type) : Type := mkQueue {
  elements : list T;
  maxSize : Z
}.
Arguments mkQueue {T} _ _.
Arguments elements {T} _.
Arguments maxSize {T} _.

Definition New {T} (size : Z) : OverflowQueue T := mkQueue [] size.

(** [Append]; slicing [elements[1:]] of an empty slice panics ([None]). *)
Definition Append {T} (q : OverflowQueue T) (value : T) : option (OverflowQueue T) :=
  if maxSize q <=? Z.of_nat (length (elements q)) then
    match elements q with
    | [] => None
    | _ :: tl => Some (mkQueue (tl ++ [value]) (maxSize q))
    end
  else Some (mkQueue (elements q ++ [value]) (maxSize q)).

Definition Items {T} (q : OverflowQueue T) : list T := elements q.

Fixpoint reverse {T} (input : list T) : list T :=
  match input with
  | [] => input
  | x :: tl => reverse tl ++ [x]
  end.

Definition ReversedItems {T} (q : OverflowQueue T) : list T := reverse (Items q).
Definition Length {T} (q : OverflowQueue T) : Z := Z.of_nat (length (elements q)).

Fixpoint AppendAll {T} (q : OverflowQueue T) (vs : list T) : option (OverflowQueue T) :=
  match vs with
  | [] => Some q
  | v :: vs' => q' ← Append q v; AppendAll q' vs'
  end.

Section Facts.
Context {T : Type}.
Implicit Types q : OverflowQueue T.

Definition wf q : Prop := 0 < maxSize q ∧ Length q <= maxSize q.

Lemma Append_wf q v :
wf q → ∃ q', Append q v = Some q' ∧ wf q' ∧ maxSize q' = maxSize q ∧
  elements q' = last_n (Z.to_nat (maxSize q)) (elements q ++ [v]).
Proof.
intros [Hpos Hlen]. unfold Append, wf, Length in *.
destruct (maxSize q <=? _) eqn:E; zbool.
- destruct (elements q) as [|x tl] eqn:Eq; cbn [length] in *; [lia|].
  eexists; split; [done|]. cbn [maxSize elements]. rewrite length_app. cbn [length].
  split; [lia|]. split; [done|].
  unfold last_n. rewrite length_app. cbn [length].
  replace (S (length tl) + 1 - Z.to_nat (maxSize q))%nat with 1%nat by lia. done.
- eexists; split; [done|]. cbn [maxSize elements]. rewrite length_app. cbn [length].
  split; [lia|]. split; [done|]. rewrite last_n_all; [done|].
  rewrite length_app. cbn [length]. lia.
Qed.

Lemma last_n_last_n n (l : list T) v :
last_n n (last_n n l ++ [v]) = last_n n (l ++ [v]).
Proof.
unfold last_n. rewrite !length_app, length_drop. cbn [length].
destruct (decide (length l <= n)%nat) as [H|H].
- replace (length l - n)%nat with 0%nat by lia. rewrite drop_0. f_equal. lia.
- rewrite !drop_app, !drop_drop, length_drop.
  f_equal; [|f_equal; lia]. f_equal; lia.
Qed.

Lemma last_n_app n (l vs : list T) : last_n n (last_n n l ++ vs) = last_n n (l ++ vs).
Proof.
induction vs as [|w vs IH] using rev_ind.
- rewrite !app_nil_r. unfold last_n. rewrite length_drop, drop_drop. f_equal. lia.
- rewrite !app_assoc. rewrite <- last_n_last_n, IH. by rewrite last_n_last_n.
Qed.

Lemma AppendAll_last_n q vs :
wf q → ∃ q', AppendAll q vs = Some q' ∧ wf q' ∧ maxSize q' = maxSize q ∧
  elements q' = last_n (Z.to_nat (maxSize q)) (elements q ++ vs).
Proof.
revert q. induction vs as [|v vs IH]; intros q Hq; cbn [AppendAll].
- exists q. split; [done|]. split; [done|]. split; [done|].
  rewrite app_nil_r, last_n_all; [done|]. unfold wf, Length in Hq. lia.
- destruct (Append_wf q v Hq) as (q1 & -> & Hq1 & Hm & He). cbn.
  destruct (IH q1 Hq1) as (q2 & -> & Hq2 & Hm2 & He2).
  exists q2. split; [done|]. split; [done|]. split; [congruence|].
  rewrite He2, He, Hm. clear -Hq.
  replace (elements q ++ v :: vs) with ((elements q ++ [v]) ++ vs)
    by (by rewrite <- app_assoc).
  apply last_n_app.
Qed.

Lemma reverse_rev (l : list T) : reverse l = rev l.
Proof. induction l; cbn; congruence. Qed.

End Facts.

(** For a queue of positive capacity [n], appending any sequence of
    values never panics and leaves exactly the last [n] of them in order, so
    the queue never holds more than [n] elements and loses only the oldest. *)
Theorem queue_keeps_last_n {T} (n : Z) (vs : list T) :
  0 < n →
  ∃ q, AppendAll (New n) vs = Some q ∧
       Items q = last_n (Z.to_nat n) vs ∧
       ReversedItems q = rev (last_n (Z.to_nat n) vs) ∧
       Length q = Z.min n (Z.of_nat (length vs)).
Proof.
  intros Hn. destruct (AppendAll_last_n (@New T n) vs) as (q & H & _ & _ & He).
  { unfold wf, Length. cbn. lia. }
  exists q. unfold Items, ReversedItems, Length, Items. cbn [New maxSize elements app] in He.
  rewrite He, reverse_rev, length_last_n. repeat split; [done|lia].
Qed.

Lemma queue_keeps_last_n_witness :
  ∃ q, AppendAll (New 2) [1; 2; 3] = Some q ∧ Items q = [2; 3].
Proof.
  destruct (queue_keeps_last_n 2 [1; 2; 3] ltac:(lia)) as (q & H & Hi & _).
  exists q. split; [exact H|exact Hi].
Defined.

End Queue.
