(* ===== verification/RateLimit.v ===== *)
(** * Broker admission control ([pkg/broker/ratelimit])

    [limiter.go] (interface, unlimited limiter), [semaphore.go] (counting
    semaphore with a movable limit) and [dns_count.go] (the fleet-wide cap
    partitioned over the replicas found in DNS).  The [Limiter] interface is
    a type class; the traffic through one broker is a step relation whose
    steps interleave requests, completions and recounts. *)
From S2P Require Import Prelude.
From stdpp Require Import relations.
#[local] Open Scope Z_scope.

Module RateLimit.

(** [Limiter.Acquire] returns the new state and, when admitted, the release
    function to run on completion. *)
Class Limiter (L : Type) := {
  Acquire : L → L * option (L → L)
}.

(** ** The unlimited limiter *)
Inductive unlimited : Set := Unlimited.
Definition noopRelease (u : unlimited) : unlimited := u.
#[export] Instance unlimited_limiter : Limiter unlimited := {
  Acquire u := (u, Some noopRelease)
}.

(** ** The counting semaphore *)
Record semaphore : Set := mkSem { held : Z; limit : Z }.

Definition newSemaphore (l : Z) : semaphore := mkSem 0 l.

Definition release (s : semaphore) : semaphore :=
  if 0 <? held s then mkSem (held s - 1) (limit s) else s.

Definition SemAcquire (s : semaphore) : semaphore * option (semaphore → semaphore) :=
  if limit s <=? held s then (s, None)
  else (mkSem (held s + 1) (limit s), Some release).

Definition SetLimit (s : semaphore) (l : Z) : semaphore := mkSem (held s) l.
Definition limitValue (s : semaphore) : Z := limit s.

#[export] Instance semaphore_limiter : Limiter semaphore := { Acquire := SemAcquire }.

(** [NewLimiter]: a cap of 0 or less means unlimited. *)
Definition NewLimiter (maxInFlight : Z) : unlimited + semaphore :=
  if maxInFlight <=? 0 then inl Unlimited else inr (newSemaphore maxInFlight).

#[export] Instance sum_limiter : Limiter (unlimited + semaphore) := {
  Acquire l := match l with
               | inl u => (inl u, Some id)
               | inr s => let '(s', r) := SemAcquire s in
                          (inr s', (λ f l', match l' with inr x => inr (f x) | _ => l' end) <$> r)
               end
}.

(** ** The DNS-count limiter *)
Record dnsCountLimiter : Set := mkDNS { sem : semaphore; maxInFlight : Z }.

Definition NewDNSCountLimiter (cap : Z) : dnsCountLimiter :=
  mkDNS (newSemaphore cap) cap.

#[export] Instance dns_limiter : Limiter dnsCountLimiter := {
  Acquire l := let '(s', r) := SemAcquire (sem l) in
               (mkDNS s' (maxInFlight l),
                (λ f l', mkDNS (f (sem l')) (maxInFlight l')) <$> r)
}.

(** [sliceFor]: the ceiling of [maxInFlight/replicas], in 64-bit [int]s. *)
Definition sliceFor (cap replicas : Z) : Z :=
  if replicas <=? 1 then cap
  else Z.quot (int64 (int64 (cap + replicas) - 1)) replicas.

(** [recount]: [hosts] is the outcome of the DNS discovery; an error keeps
    the current slice. *)
Definition recount {E} (l : dnsCountLimiter) (hosts : result E Z) : dnsCountLimiter :=
  match hosts with
  | Err _ => l
  | Ok n => mkDNS (SetLimit (sem l) (sliceFor (maxInFlight l) n)) (maxInFlight l)
  end.

(** ** One broker's traffic

    [pending] holds the release function of every admitted request that has
    not completed; a completion runs one of them once, in any order. *)
Record traffic : Type := mkTraffic {
  lim : dnsCountLimiter;
  pending : list (dnsCountLimiter → dnsCountLimiter)
}.

Inductive step : traffic → traffic → Prop :=
  | step_admit t l' r :
      Acquire (lim t) = (l', Some r) →
      step t (mkTraffic l' (r :: pending t))
  | step_reject t l' :
      Acquire (lim t) = (l', None) →
      step t (mkTraffic l' (pending t))
  | step_done l ps r qs :
      step (mkTraffic l (ps ++ r :: qs)) (mkTraffic (r l) (ps ++ qs))
  | step_recount t (hosts : result string Z) :
      (∀ n, hosts = Ok n → in_s 32 n) →
      step t (mkTraffic (recount (lim t) hosts) (pending t)).

Definition start (cap : Z) : traffic := mkTraffic (NewDNSCountLimiter cap) [].
Definition outstanding (t : traffic) : Z := Z.of_nat (length (pending t)).

(** ** Slices *)

Lemma sliceFor_ceil cap n :
  in_s 32 cap → 0 < cap → in_s 32 n → 1 < n →
  sliceFor cap n = (cap + n - 1) / n.
Proof.
  intros Hc Hc0 Hn Hn1. unfold sliceFor.
  destruct (n <=? 1) eqn:E; zbool; [lia|].
  rewrite (wrap_s_small 64 (cap + n)) by in_range.
  rewrite wrap_s_small by in_range.
  rewrite Z.quot_div_nonneg by lia. f_equal; lia.
Qed.

Lemma sliceFor_bounds cap n :
  in_s 32 cap → 0 < cap → in_s 32 n → 0 < sliceFor cap n <= cap.
Proof.
  intros Hc Hc0 Hn. destruct (decide (1 < n)) as [H|H].
  - rewrite sliceFor_ceil by done.
    pose proof (Z.mul_div_le (cap + n - 1) n ltac:(lia)).
    pose proof (Z.mul_succ_div_gt (cap + n - 1) n ltac:(lia)).
    split; nia.
  - unfold sliceFor. destruct (n <=? 1) eqn:E; zbool; lia.
Qed.

(** ** Invariant of the traffic *)
Definition dnsRelease (l : dnsCountLimiter) : dnsCountLimiter :=
  mkDNS (release (sem l)) (maxInFlight l).

Definition inv (cap : Z) (t : traffic) : Prop :=
  maxInFlight (lim t) = cap ∧
  held (sem (lim t)) = outstanding t ∧
  0 < limit (sem (lim t)) <= cap ∧
  outstanding t <= cap ∧
  Forall (eq dnsRelease) (pending t).

Lemma Acquire_cases (l : dnsCountLimiter) l' r :
  Acquire l = (l', r) →
  (limit (sem l) <= held (sem l) ∧ l' = l ∧ r = None) ∨
  (held (sem l) < limit (sem l) ∧ r = Some dnsRelease ∧
   l' = mkDNS (mkSem (held (sem l) + 1) (limit (sem l))) (maxInFlight l)).
Proof.
  destruct l as [[h k] m]. unfold Acquire, dns_limiter, SemAcquire. cbn.
  destruct (k <=? h) eqn:E; zbool; intros [= <- <-]; [left|right]; done.
Qed.

Lemma inv_step cap t t' :
  in_s 32 cap → 0 < cap → inv cap t → step t t' → inv cap t'.
Proof.
  intros Hc Hc0 (Hm & Hh & Hl & Ho & Hp) Hs.
  inversion Hs as [? l' r H|? l' H|l ps r qs|? hosts H]; subst;
    unfold inv, outstanding in *; cbn [lim pending] in *.
  - destruct (Acquire_cases _ _ _ H) as [(?&?&?)|(?&[= ->]&->)]; [done|].
    cbn [sem held limit maxInFlight length]. rewrite Nat2Z.inj_succ.
    repeat split; try lia. by constructor.
  - destruct (Acquire_cases _ _ _ H) as [(?&->&?)|(?&?&->)]; done.
  - apply Forall_app in Hp as [Hp1 Hp2]. inversion Hp2 as [|? ? <- Hq]; subst.
    unfold dnsRelease, release. rewrite length_app in *. cbn [length] in *.
    assert ((0 <? held (sem l)) = true) as -> by (apply Z.ltb_lt; lia).
    cbn [sem held limit maxInFlight]. repeat split; try lia. by apply Forall_app.
  - destruct hosts as [n|e]; cbn [recount sem SetLimit held limit maxInFlight]; [|done].
    pose proof (sliceFor_bounds (maxInFlight (lim t)) n Hc ltac:(lia) (H n eq_refl)).
    repeat split; try lia. done.
Qed.

Lemma inv_reachable cap t :
  in_s 32 cap → 0 < cap → rtc step (start cap) t → inv cap t.
Proof.
  intros Hc Hc0 H. remember (start cap) as t0 eqn:E.
  assert (inv cap t0) as H0.
  { subst. unfold inv, outstanding. cbn. repeat split; try lia. constructor. }
  clear E. induction H as [|t1 t2 t3 Hs _ IH]; [done|].
  apply IH. by eapply inv_step.
Qed.

(** In every interleaving of admissions, rejections, completions and
    DNS recounts (failed ones included) that starts from a fresh fleet-aware
    limiter, the semaphore's [held] count equals the number of requests in
    flight, and it never exceeds the configured cap. *)
Theorem inflight_never_exceeds_cap cap t :
  in_s 32 cap → 0 < cap → rtc step (start cap) t →
  held (sem (lim t)) = outstanding t ∧ outstanding t <= cap.
Proof. intros Hc Hc0 H. destruct (inv_reachable cap t Hc Hc0 H) as (_&?&_&?&_). done. Qed.

Lemma inflight_never_exceeds_cap_witness :
  ∃ t, rtc step (start 3) t ∧ outstanding t = 1 ∧ outstanding t <= 3.
Proof.
  assert (rtc step (start 3) (mkTraffic (mkDNS (mkSem 1 3) 3) [dnsRelease])) as H.
  { eapply rtc_l; [|apply rtc_refl].
    eapply (step_admit (start 3)). reflexivity. }
  exists (mkTraffic (mkDNS (mkSem 1 3) 3) [dnsRelease]). split; [exact H|]. split; [reflexivity|].
  apply (inflight_never_exceeds_cap 3 _ ltac:(in_range) ltac:(lia) H).
Defined.

(** The slices partition the fleet-wide cap from above: over [n]
    replicas they add up to at least the cap (so total in-flight can reach
    it and the autoscaler sees the ceiling) and overshoot it by fewer than
    [n] slots. *)
Theorem slices_cover_cap cap n :
  in_s 32 cap → 0 < cap → in_s 32 n → 0 < n →
  cap <= n * sliceFor cap n < cap + n.
Proof.
  intros Hc Hc0 Hn Hn0. destruct (decide (1 < n)) as [H|H].
  - rewrite sliceFor_ceil by done.
    pose proof (Z.mul_div_le (cap + n - 1) n ltac:(lia)).
    pose proof (Z.mul_succ_div_gt (cap + n - 1) n ltac:(lia)). lia.
  - assert (n = 1) as -> by lia. unfold sliceFor. cbn -[Z.quot]. lia.
Qed.

Lemma slices_cover_cap_witness : 10 <= 4 * sliceFor 10 4 < 14.
Proof. apply (slices_cover_cap 10 4); in_range. Defined.

(** After a recount the admission decision is exactly "fewer than the
    new slice are in flight": lowering the slice below the requests already
    held rejects every new request and never drops a held one. *)
Theorem recount_then_acquire {E} (l : dnsCountLimiter) (n : Z) :
  let l' := @recount E l (Ok n) in
  held (sem l') = held (sem l) ∧
  ((Acquire l').2 = None ↔ sliceFor (maxInFlight l) n <= held (sem l)) ∧
  ((Acquire l').2 = None → (Acquire l').1 = l').
Proof.
  cbn. unfold SemAcquire. cbn.
  destruct (sliceFor (maxInFlight l) n <=? held (sem l)) eqn:H; zbool; cbn;
    repeat split; intros; try lia; try done.
Qed.

End RateLimit.
