(* ===== verification/Sse.v ===== *)
(** * Server-sent-event accounting ([pkg/broker/sse.go])

    [streamRecorder] wraps a response writer, decides from the Content-Type
    whether the response is an event stream and counts the events that pass
    through [Write], whatever the chunking of the writes.  The wrapped writer
    only receives the same calls, so the model keeps the recorder's own
    fields and the per-transport counter. *)
From S2P Require Import Prelude.
#[local] Open Scope Z_scope.

Module Sse.

Definition LF : byte := x0a.
Definition CR : byte := x0d.

(** [splitSSEEvents]: [i] walks the buffer as the suffix [buf], [start] is
    the suffix after the last delimiter. *)
Fixpoint scan (buf start : list byte) (count : Z) : Z * list byte :=
  match buf with
  | b0 :: ((b1 :: l2) as tl) =>
      if bool_decide (b0 = LF) && bool_decide (b1 = LF) then scan l2 l2 (count + 1)
      else match l2 with
           | b2 :: b3 :: l4 =>
               if bool_decide (b0 = CR) && bool_decide (b1 = LF) &&
                  bool_decide (b2 = CR) && bool_decide (b3 = LF)
               then scan l4 l4 (count + 1)
               else scan tl start count
           | _ => scan tl start count
           end
  | _ => (count, start)
  end.

Definition splitSSEEvents (buf : list byte) : Z * list byte := scan buf buf 0.

(** ** Content-Type detection *)

(** The UTF-8 encodings of the white-space characters [strings.TrimSpace]
    removes. *)
Definition spaces : list (list byte) :=
  [[x09]; [x0a]; [x0b]; [x0c]; [x0d]; [x20]; [xc2; x85]; [xc2; xa0]; [xe1; x9a; x80];
   [xe2; x80; x80]; [xe2; x80; x81]; [xe2; x80; x82]; [xe2; x80; x83]; [xe2; x80; x84];
   [xe2; x80; x85]; [xe2; x80; x86]; [xe2; x80; x87]; [xe2; x80; x88]; [xe2; x80; x89];
   [xe2; x80; x8a]; [xe2; x80; xa8]; [xe2; x80; xa9]; [xe2; x80; xaf]; [xe2; x81; x9f];
   [xe3; x80; x80]].

Fixpoint strip_prefix (p l : list byte) : option (list byte) :=
  match p, l with
  | [], _ => Some l
  | x :: p', y :: l' => if bool_decide (x = y) then strip_prefix p' l' else None
  | _, [] => None
  end.

Fixpoint strip_one (ps : list (list byte)) (l : list byte) : option (list byte) :=
  match ps with
  | [] => None
  | p :: ps' => match strip_prefix p l with Some r => Some r | None => strip_one ps' l end
  end.

(** Each round removes at least one byte: [length l] rounds are enough. *)
Fixpoint trim_left (fuel : nat) (ps : list (list byte)) (l : list byte) : list byte :=
  match fuel with
  | O => l
  | S n => match strip_one ps l with Some l' => trim_left n ps l' | None => l end
  end.

Definition TrimSpace (l : list byte) : list byte :=
  let l1 := trim_left (length l) spaces l in
  rev (trim_left (length l1) (map (@rev byte) spaces) (rev l1)).

Definition to_lower (b : byte) : byte :=
  let z := Z_of_byte b in
  if (65 <=? z) && (z <=? 90) then byte_of_Z (z + 32) else b.

(** Simple case folding onto ASCII: besides the ASCII letters, U+017F folds
    to [s] (no letter of the compared constant folds to another rune). *)
Fixpoint fold_ascii (l : list byte) : list byte :=
  match l with
  | xc5 :: xbf :: l' => x73 :: fold_ascii l'
  | b :: l' => to_lower b :: fold_ascii l'
  | [] => []
  end.

Definition event_stream : list byte := String.list_byte_of_string "text/event-stream".

Fixpoint before_semicolon (ct : list byte) : list byte :=
  match ct with
  | [] => []
  | x3b :: _ => []
  | b :: l => b :: before_semicolon l
  end.

(** [detectSSE]'s test on the Content-Type header. *)
Definition isEventStream (ct : list byte) : bool :=
  bool_decide (fold_ascii (TrimSpace (before_semicolon ct)) = event_stream).

(** ** The recorder *)
Record streamRecorder : Set := mkRec {
  counter : Z;          (* the transport's stream-message counter *)
  headersSet : bool;
  sse : bool;
  statusCode : Z;
  carry : list byte
}.

Definition newStreamRecorder (c : Z) : streamRecorder :=
  mkRec c false false 200 [].

Definition detectSSE (ct : list byte) (r : streamRecorder) : streamRecorder :=
  mkRec (counter r) true (isEventStream ct) (statusCode r) (carry r).

(** [countEvents]. *)
Definition countEvents (p : list byte) (r : streamRecorder) : streamRecorder :=
  let buf := match carry r with [] => p | c => c ++ p end in
  let '(events, remainder) := splitSSEEvents buf in
  mkRec (if 0 <? events then counter r + events else counter r)
        (headersSet r) (sse r) (statusCode r)
        (match remainder with [] => [] | _ => remainder end).

(** [WriteHeader] and [Write]; [ct] is the Content-Type header at the time
    of the call. *)
Definition WriteHeader (ct : list byte) (code : Z) (r : streamRecorder) : streamRecorder :=
  detectSSE ct (mkRec (counter r) (headersSet r) (sse r) code (carry r)).

Definition Write (ct : list byte) (p : list byte) (r : streamRecorder) : streamRecorder :=
  let r1 := if headersSet r then r else detectSSE ct r in
  if sse r1 then countEvents p r1 else r1.

Definition StatusCode (r : streamRecorder) : Z := statusCode r.

(** ** The delimiter scanner *)

Lemma scan_count buf start c k :
  scan buf start (c + k) = ((scan buf start c).1 + k, (scan buf start c).2).
Proof.
  revert start c. induction buf as [buf IH] using (induction_ltof1 _ (@length _)); unfold ltof in IH.
  intros start c. destruct buf as [|b0 [|b1 l2]]; [done..|].
  cbn [scan]. case_match.
  { replace (c + k + 1) with (c + 1 + k) by lia. apply IH. cbn; lia. }
  destruct l2 as [|b2 [|b3 l4]]; [done|apply (IH [b1; b2]); cbn; lia|].
  case_match; [|apply (IH (b1 :: b2 :: b3 :: l4)); cbn; lia].
  replace (c + k + 1) with (c + 1 + k) by lia. apply IH. cbn; lia.
Qed.

(** One step of the scanner, as a view of the buffer. *)
Inductive view : list byte → option (list byte) → Prop :=
  | view_lf l : view (LF :: LF :: l) (Some l)
  | view_crlf l : view (CR :: LF :: CR :: LF :: l) (Some l)
  | view_none l : (∀ l', l ≠ LF :: LF :: l') → (∀ l', l ≠ CR :: LF :: CR :: LF :: l') → view l None.

Definition delim (l : list byte) : option (list byte) :=
  match l with
  | b0 :: b1 :: l2 =>
      if bool_decide (b0 = LF) && bool_decide (b1 = LF) then Some l2
      else match l2 with
           | b2 :: b3 :: l4 =>
               if bool_decide (b0 = CR) && bool_decide (b1 = LF) &&
                  bool_decide (b2 = CR) && bool_decide (b3 = LF)
               then Some l4 else None
           | _ => None
           end
  | _ => None
  end.

Lemma delim_view l : view l (delim l).
Proof.
  destruct l as [|b0 [|b1 l2]]; [by constructor..|]. cbn [delim].
  destruct (bool_decide (b0 = LF) && bool_decide (b1 = LF)) eqn:E1.
  { zbool. subst. constructor. }
  destruct l2 as [|b2 [|b3 l4]].
  - constructor; intros l' [= -> -> ?]; done.
  - constructor; intros l' [= -> -> ?]; done.
  - case_match eqn:E2; zbool; [subst; constructor|].
    constructor; intros l' [= ]; subst; cbn in *; done.
Qed.

Lemma scan_unfold buf start c :
  (2 <= length buf)%nat →
  scan buf start c =
    match delim buf with
    | Some l => scan l l (c + 1)
    | None => scan (tail buf) start c
    end.
Proof.
  destruct buf as [|b0 [|b1 l2]]; cbn [length]; [lia..|intros _].
  cbn [scan delim tail]. case_match; [done|].
  destruct l2 as [|b2 [|b3 l4]]; try done. by case_match.
Qed.

Lemma delim_length l l' : delim l = Some l' → (length l' < length l)%nat.
Proof. intros H. pose proof (delim_view l) as V. rewrite H in V. inversion V; cbn; lia. Qed.

(** A delimiter found at the head of [l] is found there whatever follows. *)
Lemma delim_app l l' k : delim l = Some l' → delim (l ++ k) = Some (l' ++ k).
Proof. intros H. pose proof (delim_view l) as V. rewrite H in V. inversion V; done. Qed.

(** No delimiter begins at any position of [l] when [k] follows it. *)
Fixpoint no_delim (l k : list byte) : Prop :=
  match l with
  | [] => True
  | _ :: tl => delim (l ++ k) = None ∧ no_delim tl k
  end.

Lemma no_delim_snoc p a k :
  no_delim p (a :: k) → delim (a :: k) = None → no_delim (p ++ [a]) k.
Proof.
  induction p as [|x p IH]; cbn [no_delim app]; [done|].
  intros [H1 H2] Ha. rewrite <- app_assoc. split; [done|by apply IH].
Qed.

Lemma scan_short buf s c : (length buf < 2)%nat → scan buf s c = (c, s).
Proof. destruct buf as [|? [|? ?]]; cbn; try done; lia. Qed.

(** Scanning passes over positions where no delimiter begins. *)
Lemma scan_skip p k s c : no_delim p k → scan (p ++ k) s c = scan k s c.
Proof.
  induction p as [|a p IH]; cbn [no_delim app]; [done|]. intros [H1 H2].
  destruct (decide (2 <= length (a :: p ++ k))%nat) as [H|H].
  - rewrite scan_unfold by done. rewrite H1. cbn [tail]. by apply IH.
  - rewrite !scan_short; [done| |]; cbn [length] in H |- *; rewrite ?length_app in *; lia.
Qed.

(** A delimiter that needs bytes of [B] begins in a tail of at most three
    bytes of [A], on which the scanner had found nothing. *)
Lemma delim_straddle A B l :
  (2 <= length A)%nat → delim A = None → delim (A ++ B) = Some l →
  ∀ s c, scan A s c = (c, s).
Proof.
  intros HA HN HS s c. pose proof (delim_view (A ++ B)) as V. rewrite HS in V.
  inversion V as [l' E E'|l' E E'|]; clear V.
  - destruct A as [|a [|b A]]; cbn in *; try lia. by simplify_eq.
  - destruct A as [|a [|b [|d [|e A]]]]; cbn [length app] in *; try lia; by simplify_eq.
Qed.

(** Scanning [A ++ B] is scanning [A], then the remainder of [A] with [B]
    behind it. *)
Lemma scan_chunk A B p c :
  no_delim p (A ++ B) →
  scan (A ++ B) (p ++ A ++ B) c =
    scan ((scan A (p ++ A) c).2 ++ B) ((scan A (p ++ A) c).2 ++ B) (scan A (p ++ A) c).1.
Proof.
  revert p c. induction A as [A IH] using (induction_ltof1 _ (@length _)); unfold ltof in IH.
  intros p c Hp. destruct (decide (2 <= length A)%nat) as [HA|HA].
  2:{ rewrite (scan_short A) by lia. cbn [fst snd]. rewrite <- app_assoc.
      symmetry. by apply scan_skip. }
  destruct (delim A) as [l|] eqn:E.
  - rewrite (scan_unfold (A ++ B)) by (rewrite length_app; lia).
    rewrite (delim_app _ _ _ E), (scan_unfold A), E by done.
    apply (IH l (delim_length _ _ E) [] (c + 1)). done.
  - destruct (delim (A ++ B)) as [l|] eqn:EB.
    + rewrite (delim_straddle A B l) by done. cbn [fst snd]. rewrite <- app_assoc.
      symmetry. by apply scan_skip.
    + rewrite (scan_unfold (A ++ B)) by (rewrite length_app; lia).
      rewrite EB, (scan_unfold A), E by done.
      destruct A as [|a A]; cbn [length] in *; [lia|]. cbn [tail app].
      replace (p ++ a :: A ++ B) with ((p ++ [a]) ++ A ++ B) by (by rewrite <- app_assoc).
      replace (p ++ a :: A) with ((p ++ [a]) ++ A) by (by rewrite <- app_assoc).
      apply IH; [cbn; lia|]. by apply no_delim_snoc.
Qed.

Lemma split_chunk A B :
  splitSSEEvents (A ++ B) =
    let '(n1, r1) := splitSSEEvents A in
    let '(n2, r2) := splitSSEEvents (r1 ++ B) in
    (n1 + n2, r2).
Proof.
  unfold splitSSEEvents. pose proof (scan_chunk A B [] 0 I) as H. cbn [app] in H.
  rewrite H. destruct (scan A A 0) as [n1 r1]. cbn [fst snd].
  replace n1 with (0 + n1) at 1 by lia. rewrite scan_count.
  destruct (scan (r1 ++ B) (r1 ++ B) 0) as [n2 r2]. cbn. f_equal; lia.
Qed.

Lemma scan_nonneg buf s c : 0 <= c → 0 <= (scan buf s c).1.
Proof.
  revert s c. induction buf as [buf IH] using (induction_ltof1 _ (@length _)); unfold ltof in IH.
  intros s c Hc. destruct (decide (2 <= length buf)%nat) as [H|H];
    [|rewrite scan_short; [done|lia]].
  rewrite scan_unfold by done. destruct (delim buf) as [l|] eqn:E.
  - apply IH; [by apply delim_length|lia].
  - apply IH; [destruct buf; cbn in *; lia|done].
Qed.

Lemma countEvents_spec p r :
  countEvents p r =
    mkRec (counter r + (splitSSEEvents (carry r ++ p)).1) (headersSet r) (sse r)
          (statusCode r) (splitSSEEvents (carry r ++ p)).2.
Proof.
  unfold countEvents.
  replace (match carry r with [] => p | c => c ++ p end) with (carry r ++ p)
    by (by destruct (carry r)).
  pose proof (scan_nonneg (carry r ++ p) (carry r ++ p) 0 ltac:(lia)) as Hn.
  unfold splitSSEEvents. destruct (scan _ _ 0) as [n rem]. cbn [fst snd] in *.
  f_equal; [|by destruct rem]. destruct (0 <? n) eqn:E; zbool; lia.
Qed.

Fixpoint Writes (ct : list byte) (ps : list (list byte)) (r : streamRecorder) : streamRecorder :=
  match ps with
  | [] => r
  | p :: ps' => Writes ct ps' (Write ct p r)
  end.

Lemma Writes_sse ct ps r :
  headersSet r = true → sse r = true → splitSSEEvents (carry r) = (0, carry r) →
  Writes ct ps r =
    mkRec (counter r + (splitSSEEvents (carry r ++ concat ps)).1) true true
          (statusCode r) (splitSSEEvents (carry r ++ concat ps)).2.
Proof.
  revert r. induction ps as [|p ps IH]; intros r Hh Hs Hc; cbn [Writes concat].
  - rewrite app_nil_r, Hc. cbn. destruct r; cbn in *; subst. f_equal; lia.
  - unfold Write. rewrite Hh, Hs, countEvents_spec.
    pose proof (split_chunk (carry r ++ p) []) as E. rewrite app_nil_r in E.
    pose proof (split_chunk (carry r ++ p) (concat ps)) as E2. rewrite <- app_assoc in E2.
    destruct (splitSSEEvents (carry r ++ p)) as [n rem] eqn:En. cbn [fst snd].
    rewrite app_nil_r in E. destruct (splitSSEEvents rem) as [n2 r2] eqn:Er.
    injection E as E3 E4. assert (n2 = 0) by lia. subst n2 r2.
    rewrite IH by done. cbn [counter carry statusCode]. rewrite E2.
    destruct (splitSSEEvents (rem ++ concat ps)) as [n3 r3]. cbn. f_equal; lia.
Qed.

(** C31: counting is independent of how the body is cut into writes: for
    an event-stream response, any sequence of [Write]s leaves the counter
    increased by the number of events of the concatenated body, and carries
    exactly the bytes after its last delimiter. *)
Theorem sse_count_chunking_invariant ct ps c :
  isEventStream ct = true →
  counter (Writes ct ps (newStreamRecorder c)) = c + (splitSSEEvents (concat ps)).1 ∧
  (ps ≠ [] → carry (Writes ct ps (newStreamRecorder c)) = (splitSSEEvents (concat ps)).2).
Proof.
  intros Hct. destruct ps as [|p ps]; [cbn; split; [lia|done]|].
  cbn [Writes]. unfold Write at 1 2. cbn [headersSet newStreamRecorder].
  assert (sse (detectSSE ct (newStreamRecorder c)) = true) as Hs by done.
  rewrite Hs. change (countEvents p (detectSSE ct (newStreamRecorder c))) with
    (if sse (mkRec c true true 200 []) then
       countEvents p (mkRec c true (isEventStream ct) 200 []) else mkRec c true true 200 []).
  cbn [sse]. rewrite Hct.
  pose proof (Writes_sse ct (p :: ps) (mkRec c true true 200 []) eq_refl eq_refl eq_refl) as H.
  cbn [Writes] in H. unfold Write at 1 in H. cbn [headersSet sse] in H. rewrite H.
  cbn [counter carry concat app]. done.
Qed.

Lemma sse_count_chunking_invariant_witness :
  counter (Writes event_stream [[CR; LF; CR]; [LF]; [LF; LF]] (newStreamRecorder 5)) = 7.
Proof.
  destruct (sse_count_chunking_invariant event_stream [[CR; LF; CR]; [LF]; [LF; LF]] 5
              ltac:(vm_compute; reflexivity)) as [H _].
  rewrite H. vm_compute. reflexivity.
Defined.

(** A response that is not an event stream is never scanned: the
    counter and the carry stay as they were through any sequence of writes,
    and the status recorded is the one last passed to [WriteHeader]. *)
Theorem non_sse_passthrough ct code ps c :
  isEventStream ct = false →
  let r := Writes ct ps (WriteHeader ct code (newStreamRecorder c)) in
  counter r = c ∧ carry r = [] ∧ StatusCode r = code.
Proof.
  intros Hct. cbn. unfold WriteHeader, detectSSE, newStreamRecorder. cbn. rewrite Hct.
  induction ps as [|p ps IH]; cbn; [done|]. exact IH.
Qed.

Lemma non_sse_passthrough_witness :
  counter (Writes (String.list_byte_of_string "application/json") [[LF; LF]]
             (WriteHeader (String.list_byte_of_string "application/json") 404 (newStreamRecorder 3))) = 3.
Proof.
  apply (non_sse_passthrough (String.list_byte_of_string "application/json") 404 [[LF; LF]] 3).
  vm_compute. reflexivity.
Defined.

End Sse.
