(* ===== verification/Proxies.v ===== *)
(** * The broker's proxies ([pkg/broker/metrics.go], [proxy_http.go],
    [proxy_grpc.go])

    Every request the broker forwards runs inside one bracket: take a slot of
    the shared limiter, raise the in-flight gauge, call the agent, and, in
    the deferred functions, lower the gauge, update the counters and return
    the slot.  Requests run concurrently, so the bracket is modelled one
    shared-memory operation at a time ([wrapHTTP], [UnknownServiceHandler])
    and the broker is a step relation that interleaves the requests with one
    another and with the limiter's background recount.

    The limiter is known through the class [LimiterSpec]; the unlimited
    limiter, the semaphore and the DNS-count limiter of [RateLimit] are its
    instances.  Prometheus values are float64s that only move by whole
    numbers here; they are [Z].  The agent's side of a call
    (net/http/httputil, the gRPC stream) appears as the sequence of calls it
    makes on the response recorder, or of the frames and errors it yields. *)
From S2P Require Import Prelude RateLimit Sse.
From stdpp Require Import relations.
#[local] Open Scope Z_scope.

Module Proxies.
Import (hints) RateLimit.

(** ** Prometheus series *)
Definition value {K} `{Countable K} (m : gmap K Z) (k : K) : Z := default 0 (m !! k).
Definition add_to {K} `{Countable K} (k : K) (d : Z) (m : gmap K Z) : gmap K Z :=
  <[k := value m k + d]> m.
Definition observations (m : gmap string (list Duration)) (k : string) : list Duration :=
  default [] (m !! k).

Lemma value_add_to {K} `{Countable K} (k k' : K) d (m : gmap K Z) :
  value (add_to k d m) k' = value m k' + d * Z.b2z (bool_decide (k = k')).
Proof.
  unfold value at 1, add_to. case_bool_decide as E; cbn [Z.b2z].
  - subst. rewrite lookup_insert_eq. cbn. lia.
  - rewrite lookup_insert_ne by done. unfold value. lia.
Qed.

Definition TransportJSONRPC : string := "jsonrpc".
Definition TransportREST : string := "rest".
Definition TransportGRPC : string := "grpc".
Definition TransportPassthrough : string := "passthrough".
Definition retryAfterSeconds : Z := 1.

Record Metrics : Set := mkMetrics {
  inflight : gmap string Z;
  requests : gmap string Z;
  rejected : gmap string Z;
  streamMessages : gmap string Z;
  requestDuration : gmap string (list Duration);
  errors : gmap (string * string) Z
}.

Definition NewMetrics : Metrics := mkMetrics ∅ ∅ ∅ ∅ ∅ ∅.

(** [WithLabelValues] creates a missing series at zero. *)
Definition with_label (t : string) (m : gmap string Z) : gmap string Z :=
  match m !! t with Some _ => m | None => <[t := 0]> m end.

(** [setFor]: the handles of a transport are its label; asking for them
    creates the transport's series (but none of the per-code error series). *)
Definition setFor (t : string) (m : Metrics) : Metrics :=
  mkMetrics (with_label t (inflight m)) (with_label t (requests m)) (with_label t (rejected m))
    (with_label t (streamMessages m))
    (match requestDuration m !! t with
     | Some _ => requestDuration m
     | None => <[t := []]> (requestDuration m)
     end)
    (errors m).

Definition httpStatusClass (statusCode : Z) : string :=
  if 500 <=? statusCode then "5xx"
  else if 400 <=? statusCode then "4xx"
  else "".

Definition incInflight (t : string) (d : Z) (m : Metrics) : Metrics :=
  mkMetrics (add_to t d (inflight m)) (requests m) (rejected m) (streamMessages m)
    (requestDuration m) (errors m).
Definition incRequests (t : string) (m : Metrics) : Metrics :=
  mkMetrics (inflight m) (add_to t 1 (requests m)) (rejected m) (streamMessages m)
    (requestDuration m) (errors m).
Definition incRejected (t : string) (m : Metrics) : Metrics :=
  mkMetrics (inflight m) (requests m) (add_to t 1 (rejected m)) (streamMessages m)
    (requestDuration m) (errors m).
Definition observe (t : string) (d : Duration) (m : Metrics) : Metrics :=
  mkMetrics (inflight m) (requests m) (rejected m) (streamMessages m)
    (<[t := observations (requestDuration m) t ++ [d]]> (requestDuration m)) (errors m).
(** [transportSet.errorCounter(code).Inc()] *)
Definition errorCounter (t code : string) (m : Metrics) : Metrics :=
  mkMetrics (inflight m) (requests m) (rejected m) (streamMessages m)
    (requestDuration m) (add_to (t, code) 1 (errors m)).
Definition setStream (t : string) (n : Z) (m : Metrics) : Metrics :=
  mkMetrics (inflight m) (requests m) (rejected m) (<[t := n]> (streamMessages m))
    (requestDuration m) (errors m).

(** ** The proxies a broker can build *)
Inductive kind : Set := KHTTP | KGRPC.
#[export] Instance kind_eq_dec : EqDecision kind.
Proof. solve_decision. Defined.

(** A proxy: the label of its metric set, its protocol, and whether it was
    given the shared limiter or a nil one. *)
Record proxy : Set := mkProxy { p_set : string; p_kind : kind; p_limited : bool }.
#[export] Instance proxy_eq_dec : EqDecision proxy.
Proof. solve_decision. Defined.

Definition NewJSONRPCReverseProxy : proxy := mkProxy TransportJSONRPC KHTTP true.
Definition NewRESTReverseProxy : proxy := mkProxy TransportREST KHTTP true.
Definition NewPassthroughReverseProxy : proxy := mkProxy TransportPassthrough KHTTP false.
Definition GRPCPassthroughOptions : proxy := mkProxy TransportGRPC KGRPC true.

Definition all_proxies : list proxy :=
  [NewJSONRPCReverseProxy; NewRESTReverseProxy; NewPassthroughReverseProxy;
   GRPCPassthroughOptions].

(** ** One request

    [pc] is the next shared-memory operation of the request's handler. *)
Inductive pc : Set :=
  | Arrived       (* before [limiter.Acquire] *)
  | AtReject      (* before [rejected.Inc] *)
  | Rejected
  | Entering      (* before [inflight.Inc] *)
  | Serving       (* inside [h.ServeHTTP] or [forwardGRPCStream] *)
  | AtDec         (* deferred: before [inflight.Dec] *)
  | AtRequests    (* before [requests.Inc] *)
  | AtObserve     (* before [duration.Observe] *)
  | AtError       (* before the error counter *)
  | AtFlush       (* HTTP: inside the deferred [rec.Flush()] *)
  | AtRelease     (* deferred: before [release()] *)
  | Finished.

(** What the broker itself answers a request it sheds. *)
Inductive shed : Set :=
  | HTTPShed (status : Z) (retryAfter body : string)
  | GRPCShed (code msg : string).

Record request (L : Type) : Type := mkReq {
  rq_proxy : proxy;
  rq_pc : pc;
  rq_release : option (L → L);
  rq_start : Time;
  rq_rec : Sse.streamRecorder;
  rq_code : string;           (* gRPC: the status code name of [err] *)
  rq_shed : option shed
}.
Arguments mkReq {L}.
Arguments rq_proxy {L}.
Arguments rq_pc {L}.
Arguments rq_release {L}.
Arguments rq_start {L}.
Arguments rq_rec {L}.
Arguments rq_code {L}.
Arguments rq_shed {L}.

Definition goto {L} (c : pc) (r : request L) : request L :=
  mkReq (rq_proxy r) c (rq_release r) (rq_start r) (rq_rec r) (rq_code r) (rq_shed r).
Definition arrive {L} (p : proxy) : request L :=
  mkReq p Arrived None 0 (Sse.newStreamRecorder 0) "OK" None.

Section Handlers.
Context {L : Type} `{!RateLimit.Limiter L}.
Implicit Types (r : request L) (m : Metrics) (l : L).

(** The admission both handlers start with: a nil limiter admits. *)
Definition admission r m l : request L * Metrics * L :=
  if p_limited (rq_proxy r) then
    match RateLimit.Acquire l with
    | (l', Some rel) =>
        (mkReq (rq_proxy r) Entering (Some rel) (rq_start r) (rq_rec r) (rq_code r) None, m, l')
    | (l', None) => (goto AtReject r, m, l')
    end
  else (goto Entering r, m, l).

Definition give_back r l : L :=
  match rq_release r with Some rel => rel l | None => l end.

(** One operation of the handler built by [wrapHTTP]; [None] while the
    wrapped handler or the deferred flush of the client's connection runs,
    and after the end. *)
Definition wrapHTTP (now : Time) r m l : option (request L * Metrics * L) :=
  let t := p_set (rq_proxy r) in
  match rq_pc r with
  | Arrived => Some (admission r m l)
  | AtReject =>
      Some (mkReq (rq_proxy r) Rejected None (rq_start r) (rq_rec r) (rq_code r)
              (Some (HTTPShed 429 (Itoa retryAfterSeconds) "broker at max in-flight capacity")),
            incRejected t m, l)
  | Entering =>
      Some (mkReq (rq_proxy r) Serving (rq_release r) now
              (Sse.newStreamRecorder (value (streamMessages m) t)) (rq_code r) None,
            incInflight t 1 m, l)
  | Serving => None
  | AtDec => Some (goto AtRequests r, incInflight t (-1) m, l)
  | AtRequests => Some (goto AtObserve r, incRequests t m, l)
  | AtObserve => Some (goto AtError r, observe t (time_sub now (rq_start r)) m, l)
  | AtError =>
      let code := httpStatusClass (Sse.StatusCode (rq_rec r)) in
      Some (goto AtFlush r, if bool_decide (code ≠ "") then errorCounter t code m else m, l)
  | AtFlush => None
  | AtRelease => Some (goto Finished r, m, give_back r l)
  | Finished | Rejected => None
  end.

(** The same for the gRPC handler of [GRPCPassthroughOptions]. *)
Definition UnknownServiceHandler (now : Time) r m l : option (request L * Metrics * L) :=
  let t := p_set (rq_proxy r) in
  match rq_pc r with
  | Arrived => Some (admission r m l)
  | AtReject =>
      Some (mkReq (rq_proxy r) Rejected None (rq_start r) (rq_rec r) "ResourceExhausted"
              (Some (GRPCShed "ResourceExhausted" "broker at max in-flight capacity")),
            incRejected t m, l)
  | Entering =>
      Some (mkReq (rq_proxy r) Serving (rq_release r) now (rq_rec r) (rq_code r) None,
            incInflight t 1 m, l)
  | Serving => None
  | AtDec => Some (goto AtRequests r, incInflight t (-1) m, l)
  | AtRequests => Some (goto AtObserve r, incRequests t m, l)
  | AtObserve => Some (goto AtError r, observe t (time_sub now (rq_start r)) m, l)
  | AtError =>
      Some (goto AtRelease r,
            if bool_decide (rq_code r ≠ "OK") then errorCounter t (rq_code r) m else m, l)
  | AtRelease => Some (goto Finished r, m, give_back r l)
  | AtFlush | Finished | Rejected => None
  end.

Definition next (now : Time) r m l : option (request L * Metrics * L) :=
  match p_kind (rq_proxy r) with
  | KHTTP => wrapHTTP now r m l
  | KGRPC => UnknownServiceHandler now r m l
  end.

(** ** What happens while the agent is being called

    The reverse proxy writes the agent's response through the recorder,
    which moves the shared stream-message counter; [forwardGRPCStream]
    counts each frame it forwards to the client.  Both end in the deferred
    functions: the HTTP handler by returning or by panicking (the reverse
    proxy aborts with a panic), the gRPC one with the error it returns.
    [BFlush] is [streamRecorder.Flush]: it forwards to the client's writer,
    may wait for the client, and touches no metric; the reverse proxy calls
    it while it copies, and the deferred function once more at the end. *)
Inductive body_event : Set :=
  | BWriteHeader (ct : list byte) (code : Z)
  | BWrite (ct p : list byte)
  | BFlush
  | BFrame
  | BReturn
  | BReturnGRPC (code : string).

Definition record r m (f : Sse.streamRecorder → Sse.streamRecorder) : request L * Metrics :=
  let t := p_set (rq_proxy r) in
  let old := rq_rec r in
  let rec := f (Sse.mkRec (value (streamMessages m) t) (Sse.headersSet old) (Sse.sse old)
                  (Sse.statusCode old) (Sse.carry old)) in
  (mkReq (rq_proxy r) (rq_pc r) (rq_release r) (rq_start r) rec (rq_code r) (rq_shed r),
   setStream t (Sse.counter rec) m).

Definition body (e : body_event) r m : option (request L * Metrics) :=
  match rq_pc r, p_kind (rq_proxy r), e with
  | Serving, KHTTP, BWriteHeader ct code => Some (record r m (Sse.WriteHeader ct code))
  | Serving, KHTTP, BWrite ct p => Some (record r m (Sse.Write ct p))
  | Serving, KHTTP, BFlush => Some (r, m)
  | Serving, KHTTP, BReturn => Some (goto AtDec r, m)
  | AtFlush, KHTTP, BFlush => Some (goto AtRelease r, m)
  | Serving, KGRPC, BFrame =>
      let t := p_set (rq_proxy r) in
      Some (r, setStream t (value (streamMessages m) t + 1) m)
  | Serving, KGRPC, BReturnGRPC code =>
      Some (mkReq (rq_proxy r) AtDec (rq_release r) (rq_start r) (rq_rec r) code None, m)
  | _, _, _ => None
  end.

End Handlers.

(** ** What the proxies need of a limiter

    [taken n l]: [n] admitted requests have not released their slot.  A
    release function may run at any later time, in any order, interleaved
    with the limiter's own background changes. *)
Class LimiterSpec (L : Type) `{!RateLimit.Limiter L} (cap : option Z) := {
  taken : Z → L → Prop;
  releases : (L → L) → Prop;
  background : L → L → Prop;
  taken_admit n l l' r :
    taken n l → RateLimit.Acquire l = (l', Some r) → taken (n + 1) l' ∧ releases r;
  taken_reject n l l' :
    taken n l → RateLimit.Acquire l = (l', None) → taken n l';
  taken_release n l r : taken n l → 0 < n → releases r → taken (n - 1) (r l);
  taken_background n l l' : taken n l → background l l' → taken n l';
  taken_cap n l c : cap = Some c → taken n l → n <= c
}.

#[export, refine] Instance unlimited_spec : LimiterSpec RateLimit.unlimited None := {
  taken _ _ := True;
  releases f := f = RateLimit.noopRelease;
  background l l' := l = l'
}.
Proof. all: cbn; intros; simplify_eq; done. Defined.

(** A semaphore with the fixed limit [cap]. *)
Definition sem_taken (cap n : Z) (s : RateLimit.semaphore) : Prop :=
  RateLimit.held s = n ∧ RateLimit.limit s = cap ∧ 0 <= n <= cap.

Lemma sem_release_taken n s :
  RateLimit.held s = n → 0 < n → RateLimit.release s = RateLimit.mkSem (n - 1) (RateLimit.limit s).
Proof.
  intros <- H. unfold RateLimit.release. by rewrite (proj2 (Z.ltb_lt _ _) H).
Qed.

#[export, refine] Instance semaphore_spec cap : LimiterSpec RateLimit.semaphore (Some cap) := {
  taken := sem_taken cap;
  releases f := f = RateLimit.release;
  background l l' := l = l'
}.
Proof.
  - intros n s s' r (Hh & Hl & Hn). cbn. unfold RateLimit.SemAcquire.
    case_match; zbool; intros; simplify_eq. unfold sem_taken. cbn. split; [lia|done].
  - intros n s s' (Hh & Hl & Hn). cbn. unfold RateLimit.SemAcquire.
    case_match; intros; simplify_eq. done.
  - intros n s r (Hh & Hl & Hn) Hp ->. rewrite (sem_release_taken n) by done.
    unfold sem_taken. cbn. lia.
  - by intros n s s' ? <-.
  - intros n s c [= ->] (_ & _ & ?). lia.
Defined.

(** The fleet-aware limiter: its limit moves with every successful recount
    but stays between 1 and the configured cap. *)
Definition dns_taken (cap n : Z) (l : RateLimit.dnsCountLimiter) : Prop :=
  RateLimit.held (RateLimit.sem l) = n ∧ RateLimit.maxInFlight l = cap ∧
  0 < RateLimit.limit (RateLimit.sem l) <= cap ∧ 0 <= n <= cap.

Definition dns_spec cap (Hc : in_s 32 cap) (Hc0 : 0 < cap) :
  LimiterSpec RateLimit.dnsCountLimiter (Some cap).
Proof.
  refine {|
    taken := dns_taken cap;
    releases f := f = RateLimit.dnsRelease;
    background l l' := ∃ hosts : result string Z,
      (∀ n, hosts = Ok n → in_s 32 n) ∧ l' = RateLimit.recount l hosts |}.
  - intros n l l' r (Hh & Hm & Hl & Hn) H.
    destruct (RateLimit.Acquire_cases _ _ _ H) as [(?&?&?)|(?&[= ->]&->)]; [done|].
    unfold dns_taken. cbn. split; [lia|done].
  - intros n l l' (Hh & Hm & Hl & Hn) H.
    by destruct (RateLimit.Acquire_cases _ _ _ H) as [(?&->&?)|(?&?&->)].
  - intros n l r (Hh & Hm & Hl & Hn) Hp ->. unfold RateLimit.dnsRelease.
    rewrite (sem_release_taken n) by done. unfold dns_taken. cbn. lia.
  - intros n l l' (Hh & Hm & Hl & Hn) (hosts & Hr & ->). destruct hosts as [k|e]; [|done].
    pose proof (RateLimit.sliceFor_bounds cap k Hc Hc0 (Hr k eq_refl)).
    unfold dns_taken. cbn [RateLimit.recount RateLimit.sem RateLimit.SetLimit RateLimit.held
      RateLimit.limit RateLimit.maxInFlight]. rewrite Hm. lia.
  - intros n l c [= ->] (_ & _ & _ & ?). lia.
Defined.

(** ** The broker's traffic *)
Record broker (L : Type) : Type := mkBroker {
  b_lim : L;
  b_metrics : Metrics;
  b_reqs : list (request L)   (* every request so far, by arrival *)
}.
Arguments mkBroker {L}.
Arguments b_lim {L}.
Arguments b_metrics {L}.
Arguments b_reqs {L}.

Section Traffic.
Context {L : Type} `{!RateLimit.Limiter L} {cap : option Z} `{!LimiterSpec L cap}.
Implicit Types (r : request L) (m : Metrics) (l : L) (b : broker L).

Inductive step : broker L → broker L → Prop :=
  | step_arrive b p :
      p ∈ all_proxies →
      step b (mkBroker (b_lim b) (b_metrics b) (b_reqs b ++ [arrive p]))
  | step_next b i r now r' m' l' :
      b_reqs b !! i = Some r → next now r (b_metrics b) (b_lim b) = Some (r', m', l') →
      step b (mkBroker l' m' (<[i:=r']> (b_reqs b)))
  | step_body b i r e r' m' :
      b_reqs b !! i = Some r → body e r (b_metrics b) = Some (r', m') →
      step b (mkBroker (b_lim b) m' (<[i:=r']> (b_reqs b)))
  | step_background b l' :
      background (b_lim b) l' → step b (mkBroker l' (b_metrics b) (b_reqs b)).

(** ** What each request contributes to each series *)
Definition of_set (t : string) r : bool := bool_decide (p_set (rq_proxy r) = t).

(** Between [inflight.Inc] and [inflight.Dec]. *)
Definition in_flight (t : string) r : bool :=
  of_set t r && match rq_pc r with Serving | AtDec => true | _ => false end.
(** Past [requests.Inc]. *)
Definition completed (t : string) r : bool :=
  of_set t r &&
  match rq_pc r with AtObserve | AtError | AtFlush | AtRelease | Finished => true | _ => false end.
Definition was_shed (t : string) r : bool :=
  of_set t r && match rq_pc r with Rejected => true | _ => false end.
Definition observed (t : string) r : bool :=
  of_set t r && match rq_pc r with AtError | AtFlush | AtRelease | Finished => true | _ => false end.
(** The error label of a response; "" and "OK" stand for success. *)
Definition err_label r : string :=
  match p_kind (rq_proxy r) with
  | KHTTP => httpStatusClass (Sse.StatusCode (rq_rec r))
  | KGRPC => if bool_decide (rq_code r = "OK") then "" else rq_code r
  end.
Definition errored (t code : string) r : bool :=
  of_set t r && match rq_pc r with AtFlush | AtRelease | Finished => true | _ => false end &&
  bool_decide (err_label r = code).
(** Between [Acquire] and [release]. *)
Definition holds_slot r : bool :=
  p_limited (rq_proxy r) &&
  match rq_pc r with
  | Entering | Serving | AtDec | AtRequests | AtObserve | AtError | AtFlush | AtRelease => true
  | _ => false
  end.

Definition req_ok r : Prop :=
  rq_proxy r ∈ all_proxies ∧
  (p_limited (rq_proxy r) = false → rq_release r = None) ∧
  (holds_slot r = true → ∃ f, rq_release r = Some f ∧ releases f).

(** The change of every series when request [r] becomes [r']. *)
Definition accounts r m r' m' : Prop :=
  (∀ t, value (inflight m') t = value (inflight m) t - Z.b2z (in_flight t r) + Z.b2z (in_flight t r')) ∧
  (∀ t, value (requests m') t = value (requests m) t - Z.b2z (completed t r) + Z.b2z (completed t r')) ∧
  (∀ t, value (rejected m') t = value (rejected m) t - Z.b2z (was_shed t r) + Z.b2z (was_shed t r')) ∧
  (∀ t, Z.of_nat (length (observations (requestDuration m') t)) =
        Z.of_nat (length (observations (requestDuration m) t)) - Z.b2z (observed t r) + Z.b2z (observed t r')) ∧
  (∀ t c, c ≠ "" → value (errors m') (t, c) =
        value (errors m) (t, c) - Z.b2z (errored t c r) + Z.b2z (errored t c r')).

Lemma observations_observe t t' d (m : gmap string (list Duration)) :
  Z.of_nat (length (observations (<[t := observations m t ++ [d]]> m) t')) =
  Z.of_nat (length (observations m t')) + Z.b2z (bool_decide (t = t')).
Proof.
  unfold observations. case_bool_decide as E; cbn [Z.b2z].
  - subst. rewrite lookup_insert_eq. cbn [from_option id]. rewrite length_app. cbn [length]. lia.
  - rewrite lookup_insert_ne by done. lia.
Qed.

Lemma if_errorCounter {A} (f : Metrics → A) (b : bool) t lab m :
  f (errorCounter t lab m) = f m → f (if b then errorCounter t lab m else m) = f m.
Proof. by destruct b. Qed.

Ltac series := intros;
  rewrite ?(if_errorCounter inflight), ?(if_errorCounter requests), ?(if_errorCounter rejected),
    ?(if_errorCounter requestDuration), ?value_add_to, ?observations_observe,
    ?andb_true_r, ?andb_false_r by reflexivity; cbn [andb Z.b2z]; lia.

(** The error counter of a finished request moves by one, under its label. *)
Lemma error_series (p : proxy) t c (lab : string) m :
  c ≠ "" →
  value (errors (if bool_decide (lab ≠ "") then errorCounter (p_set p) lab m else m)) (t, c) =
  value (errors m) (t, c) +
    Z.b2z (bool_decide (p_set p = t) && true && bool_decide (lab = c)).
Proof using.
  intros Hc. rewrite andb_true_r. case_bool_decide as E.
  - cbn [errorCounter errors]. rewrite value_add_to, Z.mul_1_l. do 2 f_equal.
    rewrite <- bool_decide_and. apply bool_decide_ext. naive_solver.
  - subst. rewrite (bool_decide_eq_false_2 ("" = c)) by congruence.
    rewrite andb_false_r. cbn. lia.
Qed.

Lemma grpc_error_series (p : proxy) t c (code : string) m :
  c ≠ "" →
  value (errors (if bool_decide (code ≠ "OK") then errorCounter (p_set p) code m else m)) (t, c) =
  value (errors m) (t, c) +
    Z.b2z (bool_decide (p_set p = t) && true &&
           bool_decide ((if bool_decide (code = "OK") then "" else code) = c)).
Proof using.
  intros Hc. rewrite <- (error_series p t c _ m) by done.
  destruct (decide (code = "OK")) as [->|E]; [done|].
  rewrite (bool_decide_eq_false_2 (code = "OK")), (bool_decide_eq_true_2 (code ≠ "OK")) by done.
  case_bool_decide as E2; [done|]. subst. cbn [errorCounter errors].
  rewrite value_add_to, bool_decide_eq_false_2 by congruence. cbn. lia.
Qed.

Lemma next_accounts now r m l r' m' l' :
  next now r m l = Some (r', m', l') → accounts r m r' m' ∧ rq_proxy r' = rq_proxy r.
Proof.
  destruct r as [p c rel st rec code sh]. unfold next, wrapHTTP, UnknownServiceHandler, admission.
  cbn [rq_proxy rq_pc].
  intros Hn. split; [|destruct (p_kind p), c; simplify_eq/=; case_match_all; done].
  unfold accounts, in_flight, completed, was_shed, observed, errored, err_label, of_set.
  destruct (p_kind p) eqn:Ek, c; cbn [rq_rec] in Hn;
    try (destruct (p_limited p) eqn:El; [destruct (RateLimit.Acquire l) as [? [?|]]|]);
    simplify_eq/=; rewrite ?Ek; split_and!; try series; intros t cd Hcd;
    rewrite ?(error_series p), ?(grpc_error_series p) by done;
    rewrite ?andb_false_r; cbn [andb Z.b2z]; lia.
Qed.

Lemma body_accounts e r m r' m' :
  body e r m = Some (r', m') →
  accounts r m r' m' ∧ rq_proxy r' = rq_proxy r ∧ rq_release r' = rq_release r ∧
  holds_slot r' = holds_slot r.
Proof.
  destruct r as [p c rel st rec code sh]. unfold body, record. cbn [rq_proxy rq_pc].
  destruct c; try done; destruct (p_kind p) eqn:Ek, e; intros; simplify_eq/=;
    (split; [|done]); unfold accounts, in_flight, completed, was_shed, observed, errored, err_label,
    of_set; cbn; rewrite ?Ek; split_and!; series.
Qed.

Lemma next_slot now r m l r' m' l' n :
  next now r m l = Some (r', m', l') → req_ok r → taken n l →
  (holds_slot r = true → 0 < n) →
  taken (n - Z.b2z (holds_slot r) + Z.b2z (holds_slot r')) l' ∧ req_ok r'.
Proof.
  destruct r as [p c rel st rec code sh]. intros Hn (Hp & Hu & Hs) Ht H0.
  assert (∀ k, Z.b2z true = 1 ∧ Z.b2z false = 0 ∧ n - k + k = n) as Hz by (intros; cbn; lia).
  unfold req_ok, holds_slot, next, wrapHTTP, UnknownServiceHandler, admission, give_back in *.
  cbn [rq_proxy rq_pc rq_release] in *.
  destruct (p_limited p) eqn:El; cbn [andb] in *.
  - destruct (p_kind p), c; cbn in *; simplify_eq/=; rewrite ?El; cbn;
      try (destruct (RateLimit.Acquire l) as [lx [rx|]] eqn:Ea; simplify_eq/=; rewrite ?El; cbn);
      try (destruct (taken_admit _ _ _ _ Ht Ea));
      try pose proof (taken_reject _ _ _ Ht Ea);
      rewrite ?Z.sub_0_r, ?Z.add_0_r, ?Z.sub_add; try (split; [done|naive_solver]).
    all: destruct (Hs eq_refl) as (f & -> & Hf); split; [|naive_solver].
    all: by apply taken_release; [done|apply H0|done].
  - rewrite (Hu eq_refl) in *.
    destruct (p_kind p), c; cbn in *; simplify_eq/=; rewrite ?El; cbn;
      rewrite ?Z.sub_0_r, ?Z.add_0_r; naive_solver.
Qed.

(** ** The invariant *)
Definition metrics_inv m (rs : list (request L)) : Prop :=
  (∀ t, value (inflight m) t = countZ (in_flight t) rs) ∧
  (∀ t, value (requests m) t = countZ (completed t) rs) ∧
  (∀ t, value (rejected m) t = countZ (was_shed t) rs) ∧
  (∀ t, Z.of_nat (length (observations (requestDuration m) t)) = countZ (observed t) rs) ∧
  (∀ t c, c ≠ "" → value (errors m) (t, c) = countZ (errored t c) rs).

Lemma metrics_inv_insert m m' rs i r r' :
  rs !! i = Some r → accounts r m r' m' → metrics_inv m rs → metrics_inv m' (<[i:=r']> rs).
Proof.
  intros Hi (A1 & A2 & A3 & A4 & A5) (I1 & I2 & I3 & I4 & I5).
  split_and!; intros; rewrite (countZ_insert _ _ _ _ _ Hi).
  - by rewrite A1, I1.
  - by rewrite A2, I2.
  - by rewrite A3, I3.
  - by rewrite A4, I4.
  - by rewrite A5, I5.
Qed.

Definition inv b : Prop :=
  metrics_inv (b_metrics b) (b_reqs b) ∧
  taken (countZ holds_slot (b_reqs b)) (b_lim b) ∧ Forall req_ok (b_reqs b).

Lemma req_ok_arrive p : p ∈ all_proxies → req_ok (arrive p).
Proof. intros Hp. unfold req_ok, holds_slot. cbn. rewrite andb_false_r. done. Qed.

Lemma arrive_contributes p t c :
  in_flight t (arrive p : request L) = false ∧ completed t (arrive p : request L) = false ∧
  was_shed t (arrive p : request L) = false ∧ observed t (arrive p : request L) = false ∧
  errored t c (arrive p : request L) = false.
Proof.
  unfold in_flight, completed, was_shed, observed, errored. cbn [rq_pc arrive].
  by rewrite andb_false_r.
Qed.

Lemma metrics_inv_arrive m rs p : metrics_inv m rs → metrics_inv m (rs ++ [arrive p]).
Proof.
  intros (I1 & I2 & I3 & I4 & I5).
  assert (∀ q : request L → bool, q (arrive p) = false → countZ q (rs ++ [arrive p]) = countZ q rs) as E.
  { intros q Hq. rewrite countZ_app, countZ_cons, Hq. cbn. lia. }
  split_and!; intros t; [..|intros c]; rewrite E by first [apply (arrive_contributes p t "")|apply (arrive_contributes p t c)]; auto.
Qed.

Lemma broker_inv_step b b' : inv b → step b b' → inv b'.
Proof.
  intros (HM & HT & HR) Hs. destruct Hs as [b p Hp|b i r now r' m' l' Hi Hn|b i r e r' m' Hi Hb|b l' Hg];
    unfold inv; cbn [b_metrics b_reqs b_lim].
  - split_and!; [by apply metrics_inv_arrive| |].
    + rewrite countZ_app, countZ_cons. unfold holds_slot at 2. cbn. rewrite andb_false_r.
      cbn. by rewrite Z.add_0_r.
    + apply Forall_app. split; [done|]. constructor; [by apply req_ok_arrive|constructor].
  - pose proof (Forall_lookup_1 _ _ _ _ HR Hi) as Hr.
    destruct (next_accounts _ _ _ _ _ _ _ Hn) as [HA _].
    destruct (next_slot _ _ _ _ _ _ _ _ Hn Hr HT) as [HT' Hr'].
    { intros Hs. by eapply countZ_elem. }
    split_and!; [by eapply metrics_inv_insert| |by apply Forall_insert].
    by rewrite (countZ_insert _ _ _ _ _ Hi).
  - pose proof (Forall_lookup_1 _ _ _ _ HR Hi) as (Hp & Hu & Hs).
    destruct (body_accounts _ _ _ _ _ Hb) as (HA & Ep & Er & Eh).
    split_and!; [by eapply metrics_inv_insert| |].
    + rewrite (countZ_insert _ _ _ _ _ Hi), Eh, Z.sub_add. done.
    + apply Forall_insert; [done|]. unfold req_ok. by rewrite Ep, Er, Eh.
  - split_and!; [done| |done]. by eapply taken_background.
Qed.

(** A broker that has just built its proxies. *)
Definition boot (ps : list proxy) l : broker L :=
  mkBroker l (foldr (λ p m, setFor (p_set p) m) NewMetrics ps) [].

Lemma value_with_label t t' (m : gmap string Z) : value (with_label t m) t' = value m t'.
Proof.
  unfold with_label, value. destruct (m !! t) eqn:E; [done|].
  destruct (decide (t = t')) as [->|N]; [by rewrite lookup_insert_eq, E|by rewrite lookup_insert_ne].
Qed.

Lemma metrics_inv_setFor t m : metrics_inv m ([] : list (request L)) → metrics_inv (setFor t m) [].
Proof.
  intros (I1 & I2 & I3 & I4 & I5). unfold setFor.
  split_and!; intros; cbn [inflight requests rejected requestDuration errors];
    rewrite ?value_with_label; auto.
  rewrite <- (I4 t0). unfold observations. destruct (requestDuration m !! t) eqn:E; [done|].
  destruct (decide (t = t0)) as [->|N]; [by rewrite lookup_insert_eq, E|by rewrite lookup_insert_ne].
Qed.

Lemma inv_boot ps l : taken 0 l → inv (boot ps l).
Proof.
  intros H0. unfold inv, boot. cbn [b_metrics b_reqs b_lim]. split_and!; [|done|constructor].
  induction ps as [|p ps IH]; [|by apply metrics_inv_setFor].
  split_and!; intros; done.
Qed.

Lemma broker_inv_reachable ps l b : taken 0 l → rtc step (boot ps l) b → inv b.
Proof.
  intros H0 Hr. pose proof (inv_boot ps l H0) as Hi. revert Hi. generalize (boot ps l) Hr. clear.
  intros b0 Hr. induction Hr as [|b1 b2 b3 Hs _ IH]; intros Hi; [done|].
  apply IH. by eapply broker_inv_step.
Qed.

(** Requests in flight on the rate-limited transports hold a slot each. *)
Lemma limited_in_flight_hold rs :
  Forall req_ok rs →
  countZ (in_flight TransportJSONRPC) rs + countZ (in_flight TransportREST) rs +
    countZ (in_flight TransportGRPC) rs <= countZ holds_slot rs.
Proof.
  induction 1 as [|r rs (Hp & _) _ IH]; [done|]. rewrite !countZ_cons.
  enough (Z.b2z (in_flight TransportJSONRPC r) + Z.b2z (in_flight TransportREST r) +
          Z.b2z (in_flight TransportGRPC r) <= Z.b2z (holds_slot r)) by lia.
  destruct r as [p c]. unfold in_flight, holds_slot, of_set. cbn [rq_proxy rq_pc] in *. clear -Hp.
  unfold all_proxies in Hp. rewrite !elem_of_cons in Hp.
  destruct Hp as [->|[->|[->|[->|[]%not_elem_of_nil]]]]; destruct c; vm_compute; congruence.
Qed.

Lemma over_counts (p : request L → bool) rs :
  (∀ r, rq_pc r = Finished ∨ rq_pc r = Rejected → p r = false) →
  Forall (λ r, rq_pc r = Finished ∨ rq_pc r = Rejected) rs → countZ p rs = 0.
Proof.
  intros Hp. induction 1 as [|r rs Hr _ IH]; [done|]. rewrite countZ_cons, IH, Hp by done. done.
Qed.
End Traffic.

(** The broker of a fleet member: the DNS-count limiter shared by the three
    A2A transports. *)
Definition fleet_step (cap : Z) (Hc : in_s 32 cap) (Hc0 : 0 < cap) :=
  step (LimiterSpec0 := dns_spec cap Hc Hc0).
Definition fleet_boot (cap : Z) : broker RateLimit.dnsCountLimiter :=
  boot all_proxies (RateLimit.NewDNSCountLimiter cap).

(** C11: at every moment of every interleaving of requests, agent responses and
    DNS recounts, the in-flight gauge of each transport is exactly the number
    of its requests between entering and leaving the agent call; the gauges
    of the three A2A transports together never exceed the slots taken, which
    never exceed the configured cap; every request past its end is counted
    once, as completed (with one duration) or as rejected; and when all
    requests are over, every gauge is back at zero and every slot free. *)
Theorem proxies_account_requests cap (Hc : in_s 32 cap) (Hc0 : 0 < cap) b :
  rtc (fleet_step cap Hc Hc0) (fleet_boot cap) b →
  let g t := value (inflight (b_metrics b)) t in
  let over r := rq_pc r = Finished ∨ rq_pc r = Rejected in
  (∀ t, g t = countZ (λ r, bool_decide (p_set (rq_proxy r) = t) &&
                       match rq_pc r with Serving | AtDec => true | _ => false end) (b_reqs b)) ∧
  g TransportJSONRPC + g TransportREST + g TransportGRPC <= RateLimit.held (RateLimit.sem (b_lim b)) ∧
  RateLimit.held (RateLimit.sem (b_lim b)) <= cap ∧
  (Forall over (b_reqs b) →
   (∀ t, g t = 0 ∧
      value (requests (b_metrics b)) t + value (rejected (b_metrics b)) t =
        countZ (λ r, bool_decide (p_set (rq_proxy r) = t)) (b_reqs b) ∧
      Z.of_nat (length (observations (requestDuration (b_metrics b)) t)) =
        value (requests (b_metrics b)) t) ∧
   RateLimit.held (RateLimit.sem (b_lim b)) = 0).
Proof.
  intros Hr g over.
  assert (inv (LimiterSpec0 := dns_spec cap Hc Hc0) b) as ((I1 & I2 & I3 & I4 & I5) & HT & HR).
  { eapply broker_inv_reachable; [|exact Hr]. unfold taken, dns_spec, dns_taken. cbn. lia. }
  assert (dns_taken cap (countZ holds_slot (b_reqs b)) (b_lim b)) as (Hh & _ & _ & Hn) by exact HT.
  split_and!.
  - intros t. apply I1.
  - subst g. cbn beta. rewrite Hh, !I1. eapply limited_in_flight_hold, HR.
  - lia.
  - intros Ho. split; [|rewrite Hh; apply over_counts; [|done]; unfold holds_slot;
      intros r [->| ->]; apply andb_false_r].
    intros t. subst g. cbn beta. rewrite I1, I2, I3, I4. split_and!.
    + apply over_counts; [|done]. unfold in_flight. intros r [->| ->]; apply andb_false_r.
    + clear -Ho. induction Ho as [|r rs Hr _ IH]; [done|]. rewrite !countZ_cons.
      unfold completed at 1, was_shed at 1, of_set.
      destruct Hr as [->| ->]; rewrite andb_true_r, andb_false_r; cbn [Z.b2z]; lia.
    + clear -Ho. induction Ho as [|r rs Hr _ IH]; [done|]. rewrite !countZ_cons, IH.
      f_equal. unfold completed, observed. by destruct Hr as [->| ->].
Qed.

(** One JSON-RPC request admitted and inside the agent call. *)
Lemma proxies_account_requests_witness :
  ∃ b, rtc (fleet_step 2 ltac:(in_range) ltac:(lia)) (fleet_boot 2) b ∧
       value (inflight (b_metrics b)) TransportJSONRPC = 1 ∧
       RateLimit.held (RateLimit.sem (b_lim b)) <= 2.
Proof.
  set (Hc := ltac:(in_range) : in_s 32 2). set (Hc0 := ltac:(lia) : 0 < 2).
  assert (∃ b, rtc (fleet_step 2 Hc Hc0) (fleet_boot 2) b ∧
               value (inflight (b_metrics b)) TransportJSONRPC = 1) as (b & Hr & Hv).
  { eexists. split.
    - eapply rtc_l; [apply (step_arrive _ NewJSONRPCReverseProxy); apply list_elem_of_here|].
      eapply rtc_l; [eapply (step_next _ 0 _ 5); reflexivity|].
      eapply rtc_l; [eapply (step_next _ 0 _ 5); reflexivity|]. apply rtc_refl.
    - vm_compute. reflexivity. }
  exists b. split; [exact Hr|]. split; [exact Hv|].
  exact (proj1 (proj2 (proj2 (proxies_account_requests 2 Hc Hc0 b Hr)))).
Defined.

(** ** Forwarding one gRPC stream ([forwardGRPCStream])

    Frames are opaque byte strings.  A source yields its frames in order and
    then an error ([io.EOF] at a normal end), or keeps [RecvMsg] blocked
    after them ([None]).  [send i] is the error of the [i]-th [SendMsg] of
    the destination. *)
Definition frame := list byte.

(** [rawCodec] passes a frame through when it is given a byte slice. *)
Inductive message : Set :=
  | RawBytes (f : frame)
  | OtherMessage (goType : string).

Definition Marshal (v : message) : result string frame :=
  match v with
  | RawBytes f => Ok f
  | OtherMessage ty => Err ("broker.rawCodec: expected *[]byte, got " +:+ ty)
  end.
Definition Unmarshal (data : frame) (v : message) : result string message :=
  match v with
  | RawBytes _ => Ok (RawBytes data)
  | OtherMessage ty => Err ("broker.rawCodec: expected *[]byte, got " +:+ ty)
  end.

Inductive streamErr : Set :=
  | EOF
  | StreamErr (code msg : string).
#[export] Instance streamErr_eq_dec : EqDecision streamErr.
Proof. solve_decision. Defined.

Record source : Set := mkSource { frames : list frame; ends : option streamErr }.

(** [copyMessages]: the frames forwarded (each counts one) and the error it
    returns, [None] while it is blocked in [RecvMsg]. *)
Fixpoint copyMessages_from (i : nat) (fs : list frame) (e : option streamErr)
    (send : nat → option streamErr) : list frame * option streamErr :=
  match fs with
  | [] => ([], e)
  | f :: fs' =>
      match send i with
      | Some se => ([], Some se)
      | None => let '(sent, r) := copyMessages_from (S i) fs' e send in (f :: sent, r)
      end
  end.
Definition copyMessages (src : source) (send : nat → option streamErr) : list frame * option streamErr :=
  copyMessages_from 0 (frames src) (ends src) send.

(** What the client, the backend and the connection do during one call. *)
Record call : Type := mkCall {
  c_method : option string;                (* [grpc.Method] of the context *)
  c_newStream : option streamErr;          (* the error of [NewStream] *)
  c_client : source;                       (* frames the caller sends *)
  c_backend : source;                      (* frames the agent sends *)
  c_toBackend : nat → option streamErr;    (* [SendMsg] towards the agent *)
  c_toClient : nat → option streamErr      (* [SendMsg] towards the caller *)
}.

Record outcome : Set := mkOutcome {
  o_err : option streamErr;                (* what the handler returns *)
  o_toClient : list frame;
  o_toBackend : list frame;
  o_counted : Z
}.

Definition notEOF (e : streamErr) : option streamErr := if bool_decide (e = EOF) then None else Some e.

(** [None]: the handler has not returned, one of the two loops is still
    blocked. *)
Definition forwardGRPCStream (c : call) : option outcome :=
  match c_method c with
  | None => Some (mkOutcome (Some (StreamErr "Internal"
              "broker: failed to extract method name from context")) [] [] 0)
  | Some _ =>
      match c_newStream c with
      | Some e => Some (mkOutcome (Some e) [] [] 0)
      | None =>
          let '(up, clientErr) := copyMessages (c_client c) (c_toBackend c) in
          let '(down, backendErr) := copyMessages (c_backend c) (c_toClient c) in
          match backendErr with
          | None => None
          | Some be =>
              match clientErr with
              | None => None
              | Some ce =>
                  Some (mkOutcome
                          (match notEOF be with Some e => Some e | None => notEOF ce end)
                          down up (Z.of_nat (length down)))
              end
          end
      end
  end.

Lemma copyMessages_prefix i fs e send :
  let '(sent, r) := copyMessages_from i fs e send in
  sent `prefix_of` fs ∧
  ((∀ j, (i <= j < i + length fs)%nat → send j = None) → sent = fs ∧ r = e).
Proof.
  revert i. induction fs as [|f fs IH]; intros i; cbn [copyMessages_from]; [done|].
  destruct (send i) as [se|] eqn:Es.
  - split; [apply prefix_nil|]. intros Ha. specialize (Ha i ltac:(cbn; lia)). congruence.
  - specialize (IH (S i)). destruct (copyMessages_from (S i) fs e send) as [sent r].
    destruct IH as [HP HA]. split; [by apply prefix_cons|]. intros Ha.
    destruct HA as [-> ->]; [|done]. intros j Hj. apply Ha. cbn. lia.
Qed.

Lemma copyMessages_ends i fs e send :
  ∃ e', (copyMessages_from i fs (Some e) send).2 = Some e'.
Proof.
  revert i. induction fs as [|f fs IH]; intros i; cbn [copyMessages_from]; [by eexists|].
  destruct (send i); [by eexists|]. destruct (IH (S i)) as [e' He].
  destruct (copyMessages_from _ _ _ _). cbn in *. eauto.
Qed.

(** A gRPC call through the broker is transparent: what reaches each side
    is always a prefix of what the other side sent, in order and unchanged;
    when no send fails and both sides end, each receives everything, the
    message counter grows by the number of the agent's frames, and the status
    is the agent's own error when it has one, else the caller's, else OK. *)
Theorem grpc_forwarding_transparent c me be ce :
  c_method c = Some me → c_newStream c = None →
  ends (c_backend c) = Some be → ends (c_client c) = Some ce →
  ∃ o, forwardGRPCStream c = Some o ∧
    o_toClient o `prefix_of` frames (c_backend c) ∧
    o_toBackend o `prefix_of` frames (c_client c) ∧
    o_counted o = Z.of_nat (length (o_toClient o)) ∧
    ((∀ i, c_toClient c i = None) → (∀ i, c_toBackend c i = None) →
     o_toClient o = frames (c_backend c) ∧ o_toBackend o = frames (c_client c) ∧
     o_err o = if bool_decide (be = EOF) then (if bool_decide (ce = EOF) then None else Some ce)
               else Some be).
Proof.
  intros Hm Hn Hb Hc. unfold forwardGRPCStream, copyMessages. rewrite Hm, Hn, Hb, Hc.
  pose proof (copyMessages_prefix 0 (frames (c_client c)) (Some ce) (c_toBackend c)) as Pu.
  pose proof (copyMessages_prefix 0 (frames (c_backend c)) (Some be) (c_toClient c)) as Pd.
  pose proof (copyMessages_ends 0 (frames (c_client c)) ce (c_toBackend c)) as [ue Eu].
  pose proof (copyMessages_ends 0 (frames (c_backend c)) be (c_toClient c)) as [de Ed].
  destruct (copyMessages_from 0 (frames (c_client c)) _ _) as [up cr].
  destruct (copyMessages_from 0 (frames (c_backend c)) _ _) as [down br].
  cbn in Eu, Ed. subst cr br. destruct Pu as [Pu1 Pu2], Pd as [Pd1 Pd2].
  eexists. split; [reflexivity|]. cbn. split_and!; try done.
  intros H1 H2. destruct Pu2 as [-> [= ->]]; [intros; apply H2|].
  destruct Pd2 as [-> [= ->]]; [intros; apply H1|]. split_and!; try done.
  unfold notEOF. by repeat case_bool_decide.
Qed.

Lemma grpc_forwarding_transparent_witness :
  ∃ o, forwardGRPCStream (mkCall (Some "m") None (mkSource [[x01]] (Some EOF))
         (mkSource [[x02]; [x03]] (Some (StreamErr "Unavailable" "gone")))
         (λ _, None) (λ _, None)) = Some o ∧
       o_err o = Some (StreamErr "Unavailable" "gone") ∧ o_counted o = 2.
Proof.
  set (c := mkCall _ _ _ _ _ _).
  destruct (grpc_forwarding_transparent c "m" (StreamErr "Unavailable" "gone") EOF eq_refl eq_refl
              eq_refl eq_refl) as (o & E & _ & _ & Hk & H).
  destruct (H (λ _, eq_refl) (λ _, eq_refl)) as (Hd & _ & He).
  exists o. split; [exact E|]. split; [exact He|]. rewrite Hk, Hd. reflexivity.
Defined.

(** The handler joins both directions: once the agent has ended the call,
    the caller sees the agent's status only when its own direction ends too
    (it half-closes, cancels, or sends another frame).  A caller that keeps
    its side open and waits is not answered, and its slot stays taken. *)
Theorem forward_waits_for_caller c me :
  c_method c = Some me → c_newStream c = None →
  ends (c_client c) = None →
  (∀ i, (i < length (frames (c_client c)))%nat → c_toBackend c i = None) →
  forwardGRPCStream c = None.
Proof.
  intros Hm Hn He Hs. unfold forwardGRPCStream, copyMessages. rewrite Hm, Hn, He.
  pose proof (copyMessages_prefix 0 (frames (c_client c)) None (c_toBackend c)) as Pu.
  destruct (copyMessages_from 0 (frames (c_client c)) _ _) as [up cr].
  destruct Pu as [_ H]. destruct H as [_ ->]; [intros j Hj; apply Hs; lia|].
  destruct (copyMessages_from 0 (frames (c_backend c)) _ _) as [? [?|]]; done.
Qed.

End Proxies.
