(* ===== verification/GoStrings.v ===== *)
(** * Go's [strings], [net.SplitHostPort], [path.Clean] and [http.ServeMux]

    The string functions of the standard library the other files call, on
    byte strings, with the lemmas they need.  Separators are single bytes,
    as in every call of the source. *)
From S2P Require Import Prelude.
#[local] Open Scope string_scope.
#[local] Open Scope list_scope.

Module GoStrings.

Definition HasPrefix (s p : string) : bool := String.prefix p s.

Fixpoint HasSuffix (s suf : string) : bool :=
  String.eqb s suf || match s with EmptyString => false | String _ s' => HasSuffix s' suf end.

Fixpoint Contains (s sub : string) : bool :=
  String.prefix sub s || match s with EmptyString => false | String _ s' => Contains s' sub end.

(** [strings.TrimRight(s, c)] *)
Fixpoint TrimRight (s : string) (c : ascii) : string :=
  match s with
  | EmptyString => EmptyString
  | String a s' =>
      let t := TrimRight s' c in
      if String.eqb t "" && Ascii.eqb a c then EmptyString else String a t
  end.

(** [strings.TrimSuffix(s, suf)] *)
Fixpoint TrimSuffix (s suf : string) : string :=
  if String.eqb s suf then ""
  else match s with EmptyString => EmptyString | String a s' => String a (TrimSuffix s' suf) end.

(** [strings.Split(s, c)]: never empty. *)
Fixpoint Split (s : string) (c : ascii) : list string :=
  match s with
  | EmptyString => [""]
  | String a s' =>
      if Ascii.eqb a c then "" :: Split s' c
      else match Split s' c with
           | w :: ws => String a w :: ws
           | [] => [String a ""]
           end
  end.

Fixpoint Join (l : list string) (sep : string) : string :=
  match l with
  | [] => ""
  | [x] => x
  | x :: l' => x +:+ sep +:+ Join l' sep
  end.

(** [strings.ToLower] of ASCII text. *)
Definition lower_byte (a : ascii) : ascii :=
  let n := Ascii.N_of_ascii a in
  if (65 <=? n)%N && (n <=? 90)%N then Ascii.ascii_of_N (n + 32) else a.
Fixpoint ToLower (s : string) : string :=
  match s with EmptyString => EmptyString | String a s' => String (lower_byte a) (ToLower s') end.

Fixpoint has_byte (c : ascii) (s : string) : bool :=
  match s with EmptyString => false | String a s' => Ascii.eqb a c || has_byte c s' end.

Fixpoint all_bytes (p : ascii → bool) (s : string) : bool :=
  match s with EmptyString => true | String a s' => p a && all_bytes p s' end.

Lemma all_bytes_has p c s : all_bytes p s = true → p c = false → has_byte c s = false.
Proof.
  intros H Hc. induction s as [|a s IH]; [done|]. cbn in *. apply andb_true_iff in H as [Ha Hs].
  rewrite IH, orb_false_r by done. apply Ascii.eqb_neq. congruence.
Qed.

(** The last byte of a string. *)
Fixpoint last_byte (s : string) : option ascii :=
  match s with
  | EmptyString => None
  | String a EmptyString => Some a
  | String _ s' => last_byte s'
  end.

(** ** Splitting and joining *)

Lemma prefix_app p s : String.prefix p (p +:+ s) = true.
Proof.
  induction p as [|a p IH]; [by destruct s|]. change (String a p +:+ s) with (String a (p +:+ s)).
  cbn [String.prefix]. destruct (ascii_dec a a); [exact IH|done].
Qed.

Lemma prefix_inv p s : String.prefix p s = true → ∃ t, s = p +:+ t.
Proof.
  revert s. induction p as [|a p IH]; intros s; [by exists s|].
  destruct s as [|b s]; [done|]. cbn. destruct (ascii_dec a b) as [->|]; [|done].
  intros (t & ->)%IH. by exists t.
Qed.

Lemma string_app_nil s : s +:+ "" = s.
Proof.
  induction s as [|a s IH]; [done|]. change (String a s +:+ "") with (String a (s +:+ "")). by rewrite IH.
Qed.

Lemma string_app_assoc s t u : (s +:+ t) +:+ u = s +:+ (t +:+ u).
Proof.
  induction s as [|a s IH]; [done|].
  change ((String a s +:+ t) +:+ u) with (String a ((s +:+ t) +:+ u)).
  change (String a s +:+ (t +:+ u)) with (String a (s +:+ (t +:+ u))). by rewrite IH.
Qed.

Lemma Split_nonempty s c : Split s c ≠ [].
Proof. destruct s as [|a s]; cbn; [done|]. case_match; [done|]. by case_match. Qed.

Lemma Split_no_sep s c : has_byte c s = false → Split s c = [s].
Proof.
  induction s as [|a s IH]; [done|]. cbn. intros [Ha Hs]%orb_false_iff.
  by rewrite Ha, IH.
Qed.

Lemma Split_app_sep s t c :
  has_byte c s = false → Split (s +:+ String c t) c = s :: Split t c.
Proof.
  induction s as [|a s IH]; intros H.
  - change ("" +:+ String c t) with (String c t). cbn [Split]. by rewrite Ascii.eqb_refl.
  - cbn in H. apply orb_false_iff in H as [Ha Hs].
    change (String a s +:+ String c t) with (String a (s +:+ String c t)).
    cbn [Split]. by rewrite Ha, IH.
Qed.

(** [Split] undoes [Join] when no field contains the separator. *)
Lemma Split_Join l c :
  l ≠ [] → Forall (λ s, has_byte c s = false) l → Split (Join l (String c "")) c = l.
Proof.
  intros Hl HF. induction HF as [|x l Hx HF IH]; [done|].
  destruct l as [|y l]; [by apply Split_no_sep|].
  change (Join (x :: y :: l) (String c "")) with (x +:+ String c (Join (y :: l) (String c ""))).
  rewrite Split_app_sep by done. by rewrite IH.
Qed.

(** ** [net.SplitHostPort]: whether the address has a port *)

(** Host and port around the last colon. *)
Fixpoint cut_last (c : ascii) (s : string) : option (string * string) :=
  match s with
  | EmptyString => None
  | String a s' =>
      match cut_last c s' with
      | Some (h, p) => Some (String a h, p)
      | None => if Ascii.eqb a c then Some ("", s') else None
      end
  end.

(** Text up to and after the first [c]. *)
Fixpoint cut_first (c : ascii) (s : string) : option (string * string) :=
  match s with
  | EmptyString => None
  | String a s' =>
      if Ascii.eqb a c then Some ("", s')
      else match cut_first c s' with Some (h, p) => Some (String a h, p) | None => None end
  end.

Definition SplitHostPort (hostport : string) : option (string * string) :=
  match cut_last ":"%char hostport with
  | None => None                                     (* missing port *)
  | Some (host, port) =>
      match hostport with
      | String "["%char rest =>
          match cut_first "]"%char rest with
          | None => None                             (* missing ']' *)
          | Some (h, after) =>
              (* the colon must directly follow the bracket *)
              if negb (String.eqb after (":" +:+ port)) then None
              else if has_byte "["%char rest || has_byte "]"%char after then None
              else Some (h, port)
          end
      | _ =>
          if has_byte ":"%char host then None        (* too many colons *)
          else if has_byte "["%char hostport || has_byte "]"%char hostport then None
          else Some (host, port)
      end
  end.

(** A text that is a host or a port number: no colons and no brackets. *)
Definition plain_part (s : string) : Prop :=
  has_byte ":"%char s = false ∧ has_byte "["%char s = false ∧ has_byte "]"%char s = false.

Lemma cut_last_none c s : has_byte c s = false → cut_last c s = None.
Proof.
  induction s as [|a s IH]; [done|]. cbn. intros [Ha Hs]%orb_false_iff. by rewrite IH, Ha.
Qed.

Lemma cut_last_app c h p : has_byte c p = false → cut_last c (h +:+ String c p) = Some (h, p).
Proof.
  intros Hp. induction h as [|a h IH].
  - change (cut_last c (String c p) = Some ("", p)). cbn [cut_last].
    by rewrite (cut_last_none _ _ Hp), Ascii.eqb_refl.
  - change (cut_last c (String a (h +:+ String c p)) = Some (String a h, p)). cbn [cut_last]. by rewrite IH.
Qed.

Lemma has_byte_app c s t : has_byte c (s +:+ t) = has_byte c s || has_byte c t.
Proof.
  induction s as [|a s IH]; [done|].
  change (Ascii.eqb a c || has_byte c (s +:+ t) = Ascii.eqb a c || has_byte c s || has_byte c t).
  by rewrite IH, orb_assoc.
Qed.

Lemma SplitHostPort_plain h p : plain_part h → plain_part p → SplitHostPort (h +:+ ":" +:+ p) = Some (h, p).
Proof.
  intros (Hh1 & Hh2 & Hh3) (Hp1 & Hp2 & Hp3). unfold SplitHostPort.
  change (":" +:+ p) with (String ":"%char p). rewrite cut_last_app by done.
  rewrite Hh1, !has_byte_app. cbn [has_byte]. rewrite Hh2, Hh3, Hp2, Hp3.
  destruct h as [|a h]; [done|]. cbn in Hh2. apply orb_false_iff in Hh2 as [Ha _].
  destruct (Ascii.eqb_spec a "["%char) as [->|Hne]; [done|].
  cbn. by destruct a as [[] [] [] [] [] [] [] []]; try congruence.
Qed.

Lemma SplitHostPort_no_port h : plain_part h → SplitHostPort h = None.
Proof. intros (Hh & _). unfold SplitHostPort. by rewrite cut_last_none. Qed.

Lemma Contains_app a sub b : Contains (a +:+ sub +:+ b) sub = true.
Proof.
  induction a as [|x a IH].
  - change (Contains (sub +:+ b) sub = true). pose proof (prefix_app sub b) as Hp.
    destruct (sub +:+ b); cbn [Contains]; by rewrite Hp.
  - change (String.prefix sub (String x (a +:+ sub +:+ b)) || Contains (a +:+ sub +:+ b) sub = true).
    by rewrite IH, orb_true_r.
Qed.

(** ** [path.Clean] on rooted paths, and [http.ServeMux] *)

(** Segments of a rooted path after removing empty and dot segments. *)
Fixpoint clean_segments (segs : list string) (acc : list string) : list string :=
  match segs with
  | [] => rev acc
  | s :: l =>
      if String.eqb s "" || String.eqb s "." then clean_segments l acc
      else if String.eqb s ".." then clean_segments l (tail acc)
      else clean_segments l (s :: acc)
  end.

Definition rooted (p : string) : string :=
  match p with
  | EmptyString => "/"
  | String "/"%char _ => p
  | _ => "/" +:+ p
  end.

(** [cleanPath] of net/http: the canonical path, which keeps a trailing
    slash. *)
Definition cleanPath (p : string) : string :=
  let p := rooted p in
  let np := "/" +:+ Join (clean_segments (Split p "/"%char) []) "/" in
  if bool_decide (last_byte p = Some "/"%char) && negb (String.eqb np "/") then np +:+ "/" else np.

(** A pattern without method, host or wildcards: it ends in a slash when it
    names a subtree. *)
Definition is_subtree (pat : string) : bool := bool_decide (last_byte pat = Some "/"%char).
Definition pattern_matches (pat path : string) : bool :=
  if is_subtree pat then HasPrefix path pat else String.eqb pat path.

(** The most specific matching pattern: among prefixes of one path, the
    longest. *)
Fixpoint best_match {A} (pats : list (string * A)) (path : string) (best : option (string * A))
    : option (string * A) :=
  match pats with
  | [] => best
  | (pat, h) :: l =>
      let best' :=
        if pattern_matches pat path then
          match best with
          | Some (b, _) => if (String.length b <? String.length pat)%nat then Some (pat, h) else best
          | None => Some (pat, h)
          end
        else best in
      best_match l path best'
  end.

Inductive routed (A : Type) : Type :=
  | Handler (h : A)
  | Redirect (path : string)
  | NotFound.
Arguments Handler {A}.
Arguments Redirect {A}.
Arguments NotFound {A}.

(** [ServeMux]: a path that is not canonical is redirected to its canonical
    form; the root of a registered subtree without its slash is redirected
    to the subtree, unless the path itself is registered. *)
Definition ServeMux {A} (pats : list (string * A)) (path : string) : routed A :=
  let cp := cleanPath path in
  let exact := match best_match pats cp None with
               | Some (pat, _) => negb (is_subtree pat) || String.eqb pat cp
               | None => false
               end in
  if negb exact && negb (is_subtree cp) && existsb (λ ph, String.eqb (ph.1) (cp +:+ "/")) pats
  then Redirect (cp +:+ "/")
  else if negb (String.eqb cp path) then Redirect cp
  else match best_match pats cp None with Some (_, h) => Handler h | None => NotFound end.

Lemma app_snoc_inj s t c : s +:+ String c "" = t +:+ String c "" → s = t.
Proof.
  revert t. induction s as [|a s IH]; intros [|b t] H; [done|..].
  - destruct t; discriminate.
  - destruct s; discriminate.
  - injection H as -> H. f_equal. by apply IH.
Qed.

Lemma last_byte_snoc s c : last_byte (s +:+ String c "") = Some c.
Proof.
  induction s as [|a s IH]; [done|].
  change (String a s +:+ String c "") with (String a (s +:+ String c "")).
  cbn [last_byte]. destruct (s +:+ String c "") eqn:E; [by destruct s|exact IH].
Qed.

(** A path of ordinary segments is canonical. *)
Definition ordinary (seg : string) : Prop :=
  seg ≠ "" ∧ seg ≠ "." ∧ seg ≠ ".." ∧ has_byte "/"%char seg = false.

Lemma clean_ordinary segs acc :
  Forall ordinary segs → clean_segments segs acc = rev acc ++ segs.
Proof.
  intros H. revert acc. induction H as [|s l (H1 & H2 & H3 & _) _ IH]; intros acc; cbn [clean_segments].
  { by rewrite app_nil_r. }
  apply String.eqb_neq in H1, H2, H3. rewrite H1, H2, H3. cbn [orb]. rewrite IH. cbn [rev].
  by rewrite <- app_assoc.
Qed.

Lemma last_byte_app s c t : last_byte (s +:+ String c t) = last_byte (String c t).
Proof.
  induction s as [|a s IH]; [done|].
  change (String a s +:+ String c t) with (String a (s +:+ String c t)).
  cbn [last_byte]. destruct (s +:+ String c t) eqn:E; [by destruct s|exact IH].
Qed.

Lemma last_byte_in s c : last_byte s = Some c → has_byte c s = true.
Proof.
  induction s as [|a s IH]; [done|]. cbn [last_byte has_byte]. destruct s as [|b s].
  - intros [= ->]. by rewrite Ascii.eqb_refl.
  - intros H. by rewrite (IH H), orb_true_r.
Qed.

Lemma last_byte_join segs x :
  Forall ordinary (segs ++ [x]) → last_byte (Join (segs ++ [x]) "/") = last_byte x.
Proof.
  induction segs as [|s segs IH]; intros H; [done|]. inversion H as [|? ? Hs H']; subst.
  destruct segs as [|y segs].
  - cbn [app Join]. inversion H' as [|? ? (Hx & _) _]; subst. destruct x as [|c x]; [done|].
    change (s +:+ "/" +:+ String c x) with (s +:+ String "/"%char (String c x)).
    rewrite last_byte_app. done.
  - change (Join ((s :: y :: segs) ++ [x]) "/") with (s +:+ String "/"%char (Join ((y :: segs) ++ [x]) "/")).
    rewrite last_byte_app, <- IH by done. cbn [last_byte].
    destruct (Join ((y :: segs) ++ [x]) "/") eqn:E; [|done].
    inversion H' as [|? ? (Hy & _) _]; subst. destruct y as [|c y]; [done|].
    exfalso. clear -E. destruct segs; discriminate E.
Qed.

Lemma cleanPath_segments segs x :
  Forall ordinary (segs ++ [x]) →
  let path := "/" +:+ Join (segs ++ [x]) "/" in
  cleanPath path = path ∧ Split path "/"%char = "" :: segs ++ [x].
Proof.
  intros H path.
  assert (Split path "/"%char = "" :: segs ++ [x]) as Hs.
  { unfold path. change ("/" +:+ Join (segs ++ [x]) "/") with (String "/"%char (Join (segs ++ [x]) "/")).
    cbn [Split]. change (Ascii.eqb "/"%char "/"%char) with true. cbn iota. f_equal. apply Split_Join.
    - by destruct segs.
    - eapply Forall_impl; [exact H|]. by intros ? (_ & _ & _ & ?). }
  split; [|done]. unfold cleanPath. change (rooted path) with path. rewrite Hs.
  cbn [clean_segments String.eqb orb]. rewrite clean_ordinary by done. cbn [rev app].
  change ("/" +:+ Join (segs ++ [x]) "/") with path.
  assert (bool_decide (last_byte path = Some "/"%char) = false) as ->; [|done].
  apply bool_decide_eq_false_2. intros El.
  assert (last_byte path = last_byte x) as E.
  { rewrite <- (last_byte_join segs x H). unfold path.
    change ("/" +:+ Join (segs ++ [x]) "/") with (String "/"%char (Join (segs ++ [x]) "/")).
    cbn [last_byte]. destruct (Join (segs ++ [x]) "/") eqn:Ej; [|done].
    apply Forall_app in H as [_ H]. inversion H as [|? ? (Hx & _) _]; subst.
    exfalso. destruct segs as [|y [|]]; cbn in Ej; [done|..]; destruct y; discriminate Ej. }
  rewrite E in El. apply last_byte_in in El. apply Forall_app in H as [_ H].
  inversion H as [|? ? (_ & _ & _ & Hx) _]; subst. congruence.
Qed.

Lemma cleanPath_rooted p : HasPrefix (cleanPath p) "/" = true.
Proof. unfold cleanPath. case_match; destruct (Join _ _); done. Qed.

(** A path served by a handler is canonical: any other is redirected. *)
Lemma ServeMux_unclean {A} (pats : list (string * A)) path :
  cleanPath path ≠ path → ∃ to, ServeMux pats path = Redirect to.
Proof.
  intros H. unfold ServeMux. apply String.eqb_neq in H. case_match; [eauto|].
  rewrite H. cbn [negb]. eauto.
Qed.

Example clean_ex :
  map cleanPath [""; "/"; "//a"; "/a/./b"; "/a/../b"; "/a/b/"; "/../x"; "a"] =
  ["/"; "/"; "/a"; "/a/b"; "/b"; "/a/b/"; "/x"; "/a"].
Proof. reflexivity. Qed.

End GoStrings.
