(* ===== verification/ProtoWire.v ===== *)
(** * The protobuf wire format ([pkg/apis/kynomesh/v1alpha1/generated.pb.go])

    Variable-length integers, length-delimited fields, and unknown fields: what
    the generated [Marshal], [Size] and [Unmarshal] of the API types share.
    Marshalling fills a buffer of exactly the computed size from its end, so
    the integers are written over a given slice, where Go panics out of range
    ([None]).  Reading works on the rest of the input and its index [iNdEx].
    [varint] says what bytes stand for an integer; the code is shown to write
    and read them, at every width. *)
From S2P Require Import Prelude.
#[local] Open Scope Z_scope.
#[local] Open Scope go_scope.

Module ProtoWire.

(** ** Bits of wrapped integers *)
Lemma testbit_wrap_u w x i : 0 <= w → 0 <= i → Z.testbit (wrap_u w x) i = (i <? w) && Z.testbit x i.
Proof.
  intros Hw Hi. unfold wrap_u. destruct (Z.ltb_spec i w).
  - by rewrite Z.mod_pow2_bits_low.
  - by rewrite Z.mod_pow2_bits_high.
Qed.
Lemma testbit_wrap_s w x i : 0 < w → 0 <= i → Z.testbit (wrap_s w x) i = Z.testbit x (Z.min i (w - 1)).
Proof.
  intros Hw Hi. pose proof (wrap_s_in w x Hw) as Hin.
  assert (∃ q, wrap_s w x = x + q * 2 ^ w) as [q Hq].
  { unfold wrap_s. exists (- ((x + 2 ^ (w - 1)) / 2 ^ w)).
    pose proof (Z.div_mod (x + 2 ^ (w - 1)) (2 ^ w) ltac:(apply Z.pow_nonzero; lia)). lia. }
  assert (∀ j, 0 <= j < w → Z.testbit (wrap_s w x) j = Z.testbit x j) as Hlow.
  { intros j Hj. rewrite <- (Z.mod_pow2_bits_low (wrap_s w x) w j), <- (Z.mod_pow2_bits_low x w j) by lia.
    f_equal. rewrite Hq. apply Z.mod_add. apply Z.pow_nonzero; lia. }
  destruct (Z.le_gt_cases i (w - 1)); [rewrite Z.min_l by lia; apply Hlow; lia|].
  rewrite Z.min_r, <- Hlow by lia. unfold in_s in Hin.
  assert (2 ^ (w - 1) <= 2 ^ i) by (apply Z.pow_le_mono_r; lia).
  rewrite !(Z.testbit_eqb (wrap_s w x)) by lia. destruct (Z.lt_ge_cases (wrap_s w x) 0).
  - assert (∀ j, 2 ^ (w - 1) <= 2 ^ j → wrap_s w x / 2 ^ j = -1) as Hneg.
    { intros j Hj. symmetry. apply (Z.div_unique_pos _ _ _ (wrap_s w x + 2 ^ j)); lia. }
    by rewrite !Hneg.
  - by rewrite !(Z.div_small (wrap_s w x)) by lia.
Qed.

(** The integer types a field may have, as conversions from [Z]. *)
Inductive Width := IntT | Int32T | Int64T | Uint32T | Uint64T.
Definition conv (t : Width) : Z → Z :=
  match t with IntT | Int64T => wrap_s 64 | Int32T => wrap_s 32 | Uint32T => wrap_u 32 | Uint64T => wrap_u 64 end.

Lemma conv_lor t a b : conv t (Z.lor a b) = Z.lor (conv t a) (conv t b).
Proof.
  apply Z.bits_inj'. intros i Hi. rewrite Z.lor_spec.
  destruct t; cbn [conv]; rewrite ?testbit_wrap_s, ?testbit_wrap_u, Z.lor_spec by lia; try done; by destruct (i <? _).
Qed.
Lemma conv_wrap_u64 t z : conv t (wrap_u 64 z) = conv t z.
Proof.
  apply Z.bits_inj'. intros i Hi. destruct t; cbn [conv];
    rewrite ?testbit_wrap_s by lia; rewrite ?testbit_wrap_u by lia.
  1-3: by rewrite (proj2 (Z.ltb_lt (Z.min i _) 64)) by lia.
  - destruct (Z.ltb_spec i 32), (Z.ltb_spec i 64); try done; lia.
  - by destruct (i <? 64).
Qed.
Lemma conv_conv t z : conv t (conv t z) = conv t z.
Proof.
  destruct t; cbn [conv]; (rewrite wrap_s_small by (try apply wrap_s_in; lia)) || rewrite wrap_u_small by (apply wrap_u_in; lia); done.
Qed.
Lemma conv_0 t : conv t 0 = 0.
Proof. by destruct t. Qed.

(** ** Integers of seven bits a byte *)
Definition Len64 (x : Z) : Z := if x <=? 0 then 0 else Z.log2 x + 1.
Definition sovGenerated (x : Z) : Z := (Len64 (Z.lor x 1) + 6) / 7.

(** [dAtA[i] = b] *)
Definition set_at (buf : list byte) (i : Z) (b : Z) : option (list byte) :=
  if (0 <=? i) && (i <? Z.of_nat (length buf)) then Some (<[Z.to_nat i := byte_of_Z b]> buf) else None.
(** [copy(dAtA[i:], s)] *)
Definition copy_at (buf : list byte) (i : Z) (s : list byte) : option (list byte) :=
  if (0 <=? i) && (i <=? Z.of_nat (length buf)) then
    let n := Z.to_nat i in let s := take (length buf - n) s in
    Some (take n buf ++ s ++ drop (n + length s) buf)
  else None.

Fixpoint put_varint (k : nat) (buf : list byte) (offset v : Z) : option (list byte) :=
  match k with
  | O => None
  | S k =>
      if v <? 128 then set_at buf offset v
      else
        buf ← set_at buf offset (Z.lor (Z.land v 127) 128);
        put_varint k buf (offset + 1) (Z.shiftr v 7)
  end.
(** A [uint64] has at most ten digits. *)
Definition encodeVarintGenerated (buf : list byte) (offset v : Z) : option (list byte * Z) :=
  let base := offset - sovGenerated v in
  buf ← put_varint 10 buf base v;
  Some (buf, base).

(** What the bytes are. *)
Fixpoint varint_k (k : nat) (v : Z) : list byte :=
  match k with
  | O => []
  | S k => if v <? 128 then [byte_of_Z v] else byte_of_Z (Z.lor (Z.land v 127) 128) :: varint_k k (Z.shiftr v 7)
  end.
Definition varint (v : Z) : list byte := varint_k 10 v.

Lemma varint_k_S k v : varint_k (S k) v =
  if v <? 128 then [byte_of_Z v] else byte_of_Z (Z.lor (Z.land v 127) 128) :: varint_k k (Z.shiftr v 7).
Proof. done. Qed.
Lemma put_varint_S k buf offset v : put_varint (S k) buf offset v =
  if v <? 128 then set_at buf offset v
  else buf ← set_at buf offset (Z.lor (Z.land v 127) 128); put_varint k buf (offset + 1) (Z.shiftr v 7).
Proof. done. Qed.

Lemma sov_small v : 0 <= v < 128 → sovGenerated v = 1.
Proof.
  intros Hv. unfold sovGenerated, Len64.
  assert (0 < Z.lor v 1 < 128) as Hl.
  { assert (0 <= Z.lor v 1) by (apply Z.lor_nonneg; lia).
    assert (Z.lor v 1 ≠ 0) by (intros [_ ?]%Z.lor_eq_0_iff; lia).
    assert (Z.log2 (Z.lor v 1) < 7).
    { rewrite Z.log2_lor by lia. apply Z.max_lub_lt; [|done]. destruct (Z.eq_dec v 0) as [->|]; [done|].
      apply Z.log2_lt_pow2; lia. }
    split; [lia|]. apply (Z.log2_lt_cancel (Z.lor v 1) 128). done. }
  destruct (Z.leb_spec (Z.lor v 1) 0); [lia|].
  assert (Z.log2 (Z.lor v 1) < 7) by (apply Z.log2_lt_pow2; lia).
  pose proof (Z.log2_nonneg (Z.lor v 1)). symmetry. apply (Z.div_unique_pos _ _ 1 (Z.log2 (Z.lor v 1))); lia.
Qed.
Lemma sov_step v : 128 <= v → sovGenerated v = 1 + sovGenerated (Z.shiftr v 7).
Proof.
  intros Hv. unfold sovGenerated, Len64.
  assert (∀ x, 0 < x → Z.lor x 1 > 0 ∧ Z.log2 (Z.lor x 1) = Z.log2 x) as Hlog.
  { intros x Hx. split.
    - assert (0 <= Z.lor x 1) by (apply Z.lor_nonneg; lia).
      assert (Z.lor x 1 ≠ 0) by (intros [_ ?]%Z.lor_eq_0_iff; lia). lia.
    - rewrite Z.log2_lor by lia. pose proof (Z.log2_nonneg x). change (Z.log2 1) with 0. lia. }
  assert (0 < Z.shiftr v 7) as Hs.
  { rewrite Z.shiftr_div_pow2 by lia. change (2 ^ 7) with 128. apply Z.div_str_pos. lia. }
  destruct (Hlog v) as [H1 ->]; [lia|]. destruct (Hlog _ Hs) as [H2 ->].
  destruct (Z.leb_spec (Z.lor v 1) 0), (Z.leb_spec (Z.lor (Z.shiftr v 7) 1) 0); try lia.
  assert (7 <= Z.log2 v) by (apply Z.log2_le_pow2; lia).
  rewrite Z.log2_shiftr by lia. rewrite Z.max_r by lia.
  replace (Z.log2 v + 1 + 6) with (Z.log2 v - 7 + 1 + 6 + 1 * 7) by lia. rewrite Z.div_add by lia. lia.
Qed.

Lemma shiftr7 v : Z.shiftr v 7 = v / 128.
Proof. by rewrite Z.shiftr_div_pow2. Qed.

Lemma shift_bound k v : 0 <= v < 2 ^ (7 * Z.of_nat (S k)) → 0 <= Z.shiftr v 7 < 2 ^ (7 * Z.of_nat k).
Proof.
  intros Hv. rewrite shiftr7. replace (7 * Z.of_nat (S k)) with (7 + 7 * Z.of_nat k) in Hv by lia.
  rewrite Z.pow_add_r in Hv by lia. split; [apply Z.div_pos; lia|]. apply Z.div_lt_upper_bound; lia.
Qed.

Lemma length_varint_k k : ∀ v, 0 <= v < 2 ^ (7 * Z.of_nat (S k)) → Z.of_nat (length (varint_k (S k) v)) = sovGenerated v.
Proof.
  induction k as [|k IH]; intros v Hv; rewrite varint_k_S.
  - rewrite (proj2 (Z.ltb_lt _ _)) by (change (2 ^ (7 * Z.of_nat 1)) with 128 in Hv; lia).
    rewrite sov_small; [done|]. change (2 ^ (7 * Z.of_nat 1)) with 128 in Hv. lia.
  - destruct (Z.ltb_spec v 128) as [Hlt|Hge]; [by rewrite sov_small by lia|].
    cbn [length]. rewrite Nat2Z.inj_succ, IH, (sov_step v) by (done || by apply shift_bound). lia.
Qed.
Lemma length_varint v : in_u 64 v → Z.of_nat (length (varint v)) = sovGenerated v.
Proof. intros Hv. apply length_varint_k. unfold in_u in Hv. change (2 ^ (7 * Z.of_nat 10)) with (2 ^ 64 * 64). lia. Qed.

(** ** Writing *)
Lemma set_at_spec buf i b : 0 <= i < Z.of_nat (length buf) →
  set_at buf i b = Some (take (Z.to_nat i) buf ++ byte_of_Z b :: drop (S (Z.to_nat i)) buf).
Proof.
  intros Hi. unfold set_at. rewrite (proj2 (Z.leb_le _ _)), (proj2 (Z.ltb_lt _ _)) by lia. cbn.
  rewrite insert_take_drop by lia. done.
Qed.

(** Bytes placed at an offset of the buffer. *)
Definition placed (buf : list byte) (i : Z) (bs : list byte) : list byte :=
  take (Z.to_nat i) buf ++ bs ++ drop (Z.to_nat i + length bs) buf.

Lemma length_placed buf i bs : 0 <= i → i + Z.of_nat (length bs) <= Z.of_nat (length buf) → length (placed buf i bs) = length buf.
Proof. intros Hi Hl. unfold placed. rewrite !length_app, length_take, length_drop. lia. Qed.

Lemma placed_after buf i a bs : 0 <= i → i + Z.of_nat (length (a ++ bs)) <= Z.of_nat (length buf) →
  placed (placed buf i a) (i + Z.of_nat (length a)) bs = placed buf i (a ++ bs).
Proof.
  intros Hi Hl. rewrite length_app in Hl. unfold placed.
  replace (Z.to_nat (i + Z.of_nat (length a))) with (Z.to_nat i + length a)%nat by lia.
  set (n := Z.to_nat i). assert (length (take n buf ++ a) = n + length a)%nat as Hx by (rewrite length_app, length_take; lia).
  rewrite (app_assoc (take n buf) a), take_app_length' by done. rewrite <- !app_assoc. do 3 f_equal.
  rewrite app_assoc, drop_app_ge, Hx, drop_drop, length_app by lia. f_equal. lia.
Qed.

Lemma placed_before buf i a bs : Z.of_nat (length a) <= i → i + Z.of_nat (length bs) <= Z.of_nat (length buf) →
  placed (placed buf i bs) (i - Z.of_nat (length a)) a = placed buf (i - Z.of_nat (length a)) (a ++ bs).
Proof.
  intros Hi Hl. unfold placed. set (n := Z.to_nat (i - Z.of_nat (length a))).
  replace (Z.to_nat i) with (n + length a)%nat by lia.
  rewrite take_app_le by (rewrite length_take; lia). rewrite take_take, Nat.min_l by lia. f_equal.
  rewrite drop_app_ge by (rewrite length_take; lia). rewrite length_take, Nat.min_l by lia.
  replace (n + length a - (n + length a))%nat with 0%nat by lia. rewrite drop_0, <- app_assoc. f_equal. f_equal.
  rewrite length_app. f_equal. lia.
Qed.

Lemma put_varint_spec k : ∀ buf off v, 0 <= v < 2 ^ (7 * Z.of_nat (S k)) → 0 <= off →
  off + Z.of_nat (length (varint_k (S k) v)) <= Z.of_nat (length buf) →
  put_varint (S k) buf off v = Some (placed buf off (varint_k (S k) v)).
Proof.
  induction k as [|k IH]; intros buf off v Hv Ho Hl; rewrite put_varint_S; rewrite varint_k_S in *.
  - assert (v < 128) by (change (2 ^ (7 * Z.of_nat 1)) with 128 in Hv; lia).
    rewrite (proj2 (Z.ltb_lt v 128)) in * by done. rewrite set_at_spec by (cbn in Hl; lia).
    unfold placed. cbn [app length]. by rewrite Nat.add_1_r.
  - destruct (Z.ltb_spec v 128) as [Hlt|Hge].
    + rewrite set_at_spec by (cbn in Hl; lia). unfold placed. cbn [app length]. by rewrite Nat.add_1_r.
    + set (b := Z.lor (Z.land v 127) 128) in *. cbn [length] in Hl.
      rewrite set_at_spec by lia. cbn [mbind option_bind].
      change (take (Z.to_nat off) buf ++ byte_of_Z b :: drop (S (Z.to_nat off)) buf) with
        (take (Z.to_nat off) buf ++ [byte_of_Z b] ++ drop (S (Z.to_nat off)) buf).
      replace (S (Z.to_nat off)) with (Z.to_nat off + length [byte_of_Z b])%nat by (cbn; lia). fold (placed buf off [byte_of_Z b]).
      rewrite IH; [| by apply shift_bound|lia|rewrite length_placed; cbn [length]; lia].
      f_equal. apply (placed_after buf off [byte_of_Z b]); [done|]. cbn [app length]. lia.
Qed.

Lemma encodeVarint_spec buf i v : in_u 64 v → Z.of_nat (length (varint v)) <= i <= Z.of_nat (length buf) →
  encodeVarintGenerated buf i v =
    Some (placed buf (i - Z.of_nat (length (varint v))) (varint v), i - Z.of_nat (length (varint v))).
Proof.
  intros Hv Hi. unfold encodeVarintGenerated. rewrite <- length_varint by done. unfold varint in *.
  rewrite put_varint_spec; [done| |lia|lia]. unfold in_u in Hv. change (2 ^ (7 * Z.of_nat 10)) with (2 ^ 64 * 64). lia.
Qed.

Lemma copy_at_spec buf i s : 0 <= i → i + Z.of_nat (length s) <= Z.of_nat (length buf) → copy_at buf i s = Some (placed buf i s).
Proof.
  intros Hi Hl. unfold copy_at. rewrite !(proj2 (Z.leb_le _ _)) by lia. cbn. by rewrite (take_ge s) by lia.
Qed.
(** ** Reading *)
Inductive ProtoError :=
  | ErrIntOverflow
  | ErrUnexpectedEOF
  | ErrInvalidLength
  | ErrUnexpectedEndOfGroup
  | ErrIllegalWireType (wireType : Z)
  | ErrEndGroupForNonGroup (msg : string)
  | ErrIllegalTag (msg : string) (fieldNum wire : Z)
  | ErrWrongWireType (wireType : Z) (field : string)
  | ErrExternal (e : string)
  | Panicked                        (** no error of the code: an index or a slice out of range *)
  | Stuck.                          (** no error of the code: a bound too small, or no value of the type *)

(** The input from [iNdEx] on stands for the index.  [iNdEx >= l]: *)
Definition past_end (rest : list byte) : bool := match rest with [] => true | _ => false end.
(** The loop over the digits, at the width of the variable they go to;
    [dAtA[iNdEx]] panics at the end. *)
Fixpoint read_varint (t : Width) (shift acc : Z) (rest : list byte) : result ProtoError (Z * list byte) :=
  if 64 <=? shift then Err ErrIntOverflow
  else if past_end rest then Err ErrUnexpectedEOF
  else match rest with
       | [] => Err Panicked
       | b :: rest =>
           let acc := Z.lor acc (conv t (Z.shiftl (Z.land (Z_of_byte b) 127) shift)) in
           if Z_of_byte b <? 128 then Ok (acc, rest) else read_varint t (shift + 7) acc rest
       end.

Lemma digit_low v : Z.land v 127 = v mod 128.
Proof. apply (Z.land_ones v 7). lia. Qed.
Lemma digit_join v : Z.lor (Z.land v 127) (Z.shiftl (Z.shiftr v 7) 7) = v.
Proof.
  apply Z.bits_inj'. intros i Hi. rewrite Z.lor_spec. change 127 with (Z.ones 7). rewrite Z.land_spec.
  destruct (Z.lt_ge_cases i 7).
  - rewrite Z.ones_spec_low, Z.shiftl_spec_low by lia. by rewrite andb_true_r, orb_false_r.
  - rewrite Z.ones_spec_high, Z.shiftl_spec, Z.shiftr_spec by lia. rewrite andb_false_r. cbn. f_equal. lia.
Qed.
Lemma digit_byte v : Z_of_byte (byte_of_Z (Z.lor (Z.land v 127) 128)) = v mod 128 + 128.
Proof.
  rewrite Z_of_byte_of_Z. rewrite digit_low. pose proof (Z.mod_pos_bound v 128 ltac:(lia)).
  assert (Z.lor (v mod 128) 128 = v mod 128 + 128) as ->; [|by rewrite Z.mod_small by lia].
  rewrite <- Z.lxor_lor, <- Z.add_nocarry_lxor; [done| |].
  all: apply Z.bits_inj'; intros i Hi; rewrite Z.land_spec, Z.bits_0; change 128 with (2 ^ 7) in *; rewrite Z.pow2_bits_eqb by lia.
  all: destruct (Z.eqb_spec 7 i) as [<-|]; [|by rewrite andb_false_r].
  all: by rewrite Z.mod_pow2_bits_high.
Qed.

Lemma read_varint_k t k : ∀ v shift acc rest, 0 <= v < 2 ^ (7 * Z.of_nat (S k)) → 0 <= shift → shift + 7 * Z.of_nat k < 64 →
  read_varint t shift (conv t acc) (varint_k (S k) v ++ rest) = Ok (conv t (Z.lor acc (Z.shiftl v shift)), rest).
Proof.
  assert (∀ v, 0 <= v < 128 → Z_of_byte (byte_of_Z v) = v ∧ Z.land v 127 = v) as Hsmall.
  { intros v Hv. rewrite Z_of_byte_of_Z, digit_low, !Z.mod_small by lia. done. }
  induction k as [|k IH]; intros v shift acc rest Hv Hs0 Hs; rewrite varint_k_S.
  - assert (v < 128) by (change (2 ^ (7 * Z.of_nat 1)) with 128 in Hv; lia). destruct (Hsmall v) as [Hb Hl]; [lia|].
    rewrite (proj2 (Z.ltb_lt v 128)) by done. cbn [app read_varint past_end].
    rewrite (proj2 (Z.leb_gt 64 shift)), Hb, (proj2 (Z.ltb_lt v 128)), Hl by lia. by rewrite <- conv_lor.
  - destruct (Z.ltb_spec v 128) as [Hlt|Hge].
    + destruct (Hsmall v) as [Hb Hl]; [lia|]. cbn [app read_varint past_end].
      rewrite (proj2 (Z.leb_gt 64 shift)), Hb, (proj2 (Z.ltb_lt v 128)), Hl by lia. by rewrite <- conv_lor.
    + cbn [app]. cbn [read_varint past_end]. rewrite (proj2 (Z.leb_gt 64 shift)), digit_byte by lia.
      pose proof (Z.mod_pos_bound v 128 ltac:(lia)). rewrite (proj2 (Z.ltb_ge _ _)) by lia. rewrite <- conv_lor.
      rewrite IH by (first [by apply shift_bound | lia]). f_equal. f_equal. f_equal.
      rewrite <- Z.lor_assoc. f_equal. rewrite digit_low.
      assert ((v mod 128 + 128) mod 128 = v mod 128) as ->.
      { rewrite <- (Z.mul_1_l 128) at 2. by rewrite Z.mod_add, Z.mod_mod by lia. }
      rewrite (Z.add_comm shift 7), <- Z.shiftl_shiftl by lia.
      rewrite <- Z.shiftl_lor. f_equal. rewrite <- digit_low. apply digit_join.
Qed.

(** What was written is read back, as the value of the type read into. *)
Lemma read_varint_roundtrip t v rest : in_u 64 v → read_varint t 0 0 (varint v ++ rest) = Ok (conv t v, rest).
Proof.
  intros Hv. pose proof (read_varint_k t 9 v 0 0 rest) as Hr. rewrite conv_0, Z.lor_0_l, Z.shiftl_0_r in Hr. apply Hr; [|lia..].
  unfold in_u in Hv. change (2 ^ (7 * Z.of_nat 10)) with (2 ^ 64 * 64). lia.
Qed.

Lemma read_varint_short t rest : ∀ shift acc n rest', read_varint t shift acc rest = Ok (n, rest') → (length rest' < length rest)%nat ∧ ∃ p, rest = p ++ rest'.
Proof.
  induction rest as [|b rest IH]; intros shift acc n rest'; cbn [read_varint past_end]; (destruct (64 <=? shift); [done|]); [done|].
  destruct (Z_of_byte b <? 128).
  - intros [= _ <-]. split; [cbn; lia|]. by exists [b].
  - intros [? [p ->]]%IH. split; [cbn; lia|]. by exists (b :: p).
Qed.

(** The reader ends with a value or an error of the code. *)
Definition fault (e : ProtoError) : bool := match e with Panicked | Stuck => true | _ => false end.
Definition ends {A} (r : result ProtoError A) : Prop := match r with Ok _ => True | Err e => fault e = false end.

Lemma ends_bind {A B} (r : result ProtoError A) (k : A → result ProtoError B) :
  ends r → (∀ a, r = Ok a → ends (k a)) → ends (let! a := r in k a).
Proof. intros Hr Hk. destruct r as [a|e]; cbn; [by apply Hk|done]. Qed.
Lemma ends_Ok {A} (a : A) : ends (Ok a).
Proof. done. Qed.
Lemma ends_read_varint t shift acc rest : ends (read_varint t shift acc rest).
Proof.
  revert shift acc. induction rest as [|b rest IH]; intros shift acc; cbn [read_varint past_end]; (destruct (64 <=? shift); [done|]); [done|].
  by destruct (Z_of_byte b <? 128); [|apply IH].
Qed.
#[export] Hint Resolve ends_Ok ends_read_varint : kyno.

(** A length and that many bytes: the checks before [dAtA[iNdEx:postIndex]],
    with [iNdEx] the bytes read of the [l] there are. *)
Definition index (l : Z) (rest : list byte) : Z := l - Z.of_nat (length rest).
(** [dAtA[iNdEx:postIndex]], with the bytes after it; [dAtA[iNdEx:]]. *)
Definition slice (l postIndex : Z) (rest : list byte) : result ProtoError (list byte * list byte) :=
  let n := postIndex - index l rest in
  if (0 <=? n) && (n <=? Z.of_nat (length rest)) then Ok (take (Z.to_nat n) rest, drop (Z.to_nat n) rest)
  else Err Panicked.
Definition slice_from (dAtA : list byte) (iNdEx : Z) : result ProtoError (list byte) :=
  if (0 <=? iNdEx) && (iNdEx <=? Z.of_nat (length dAtA)) then Ok (drop (Z.to_nat iNdEx) dAtA) else Err Panicked.
Definition read_bytes (t : Width) (l : Z) (rest : list byte) : result ProtoError (list byte * list byte) :=
  let! (n, rest) := read_varint t 0 0 rest in
  let n := wrap_s 64 n in
  if n <? 0 then Err ErrInvalidLength
  else
    let postIndex := wrap_s 64 (index l rest + n) in
    if postIndex <? 0 then Err ErrInvalidLength
    else if l <? postIndex then Err ErrUnexpectedEOF
    else slice l postIndex rest.

Lemma wrap64_small n : 0 <= n < 2 ^ 63 → wrap_s 64 n = n ∧ wrap_u 64 n = n.
Proof.
  intros Hn. split; [apply wrap_s_small; [lia|]; unfold in_s; lia|]. apply Z.mod_small. lia.
Qed.
Lemma wrap_s64 n : 0 <= n < 2 ^ 63 → wrap_s 64 n = n.
Proof. apply wrap64_small. Qed.
Lemma wrap64_sum i n : 0 <= i < 2 ^ 63 → 0 <= n < 2 ^ 63 → (wrap_s 64 (i + n) = i + n ∧ i + n < 2 ^ 63) ∨ wrap_s 64 (i + n) < 0.
Proof.
  intros Hi Hn. destruct (Z.lt_ge_cases (i + n) (2 ^ 63)); [left; split; [apply wrap_s64|]; lia|right].
  unfold wrap_s. rewrite <- (Z_mod_plus_full _ (-1) (2 ^ 64)), Z.mod_small; lia.
Qed.
Lemma length_conv t n : conv t = wrap_s 64 ∨ conv t = wrap_u 64 → 0 <= n < 2 ^ 63 → wrap_s 64 (conv t n) = n.
Proof. intros Ht Hn. destruct (wrap64_small n Hn) as [H1 H2]. by destruct Ht as [-> | ->]; rewrite ?H2, !H1. Qed.

Lemma slice_ok l n rest : 0 <= n <= Z.of_nat (length rest) →
  slice l (index l rest + n) rest = Ok (take (Z.to_nat n) rest, drop (Z.to_nat n) rest).
Proof.
  intros Hn. unfold slice. replace (index l rest + n - index l rest) with n by lia.
  by rewrite !(proj2 (Z.leb_le _ _)) by lia.
Qed.
Lemma slice_inv l post rest bs rest' : slice l post rest = Ok (bs, rest') →
  rest = bs ++ rest' ∧ Z.of_nat (length bs) = post - index l rest.
Proof.
  unfold slice. cbv zeta. destruct (_ && _) eqn:E; [|done]. apply andb_true_iff in E as [E1%Z.leb_le E2%Z.leb_le]. intros [= <- <-].
  split; [by rewrite take_drop|]. rewrite length_take. lia.
Qed.
Lemma slice_from_ok dAtA i : 0 <= i <= Z.of_nat (length dAtA) → slice_from dAtA i = Ok (drop (Z.to_nat i) dAtA).
Proof. intros Hi. unfold slice_from. by rewrite !(proj2 (Z.leb_le _ _)) by lia. Qed.

Lemma read_bytes_roundtrip t l bs rest : conv t = wrap_s 64 ∨ conv t = wrap_u 64 →
  Z.of_nat (length (varint (Z.of_nat (length bs)) ++ bs ++ rest)) <= l < 2 ^ 63 →
  read_bytes t l (varint (Z.of_nat (length bs)) ++ bs ++ rest) = Ok (bs, rest).
Proof.
  intros Ht Hl. rewrite !length_app in Hl. unfold read_bytes. rewrite read_varint_roundtrip by (unfold in_u; lia).
  cbn [result_bind]. rewrite length_conv by (done || lia). rewrite (proj2 (Z.ltb_ge _ _)) by lia.
  assert (0 <= index l (bs ++ rest) + Z.of_nat (length bs) <= l) as Hp by (unfold index; rewrite length_app; lia).
  rewrite wrap_s64 by lia. rewrite (proj2 (Z.ltb_ge _ 0)), (proj2 (Z.ltb_ge l _)) by lia.
  rewrite slice_ok by (rewrite length_app; lia). by rewrite Nat2Z.id, take_app_length, drop_app_length.
Qed.
Lemma read_bytes_inv t l rest bs rest' : read_bytes t l rest = Ok (bs, rest') →
  ∃ p, rest = p ++ bs ++ rest' ∧ (0 < length p)%nat.
Proof.
  unfold read_bytes. destruct (read_varint t 0 0 rest) as [[n r]|] eqn:E; cbn [result_bind]; [|done].
  apply read_varint_short in E as [Hlt [p ->]]. cbv zeta. do 3 (case_match; [done|]). intros [-> _]%slice_inv.
  exists p. split; [done|]. rewrite !length_app in Hlt. lia.
Qed.
Lemma read_bytes_short t l rest bs rest' : read_bytes t l rest = Ok (bs, rest') →
  (length rest' < length rest)%nat ∧ ∃ p, rest = p ++ rest'.
Proof. intros (p & -> & Hp)%read_bytes_inv. rewrite !length_app. split; [lia|]. exists (p ++ bs). by rewrite <- app_assoc. Qed.
Lemma read_bytes_split t l rest bs rest' : read_bytes t l rest = Ok (bs, rest') → (length bs + length rest' < length rest)%nat.
Proof. intros (p & -> & Hp)%read_bytes_inv. rewrite !length_app. lia. Qed.
(** The checks are enough: the slice is in range. *)
Lemma ends_read_bytes t l rest : Z.of_nat (length rest) <= l < 2 ^ 63 → ends (read_bytes t l rest).
Proof.
  intros Hl. apply ends_bind; [apply ends_read_varint|]. intros [n r] Hr. apply read_varint_short in Hr as [Hr _]. cbv zeta.
  destruct (Z.ltb_spec (wrap_s 64 n) 0) as [|Hn]; [done|]. destruct (wrap_s_in 64 n ltac:(lia)) as [_ Hn'].
  assert (0 <= index l r < 2 ^ 63) as Hi by (unfold index; lia).
  destruct (wrap64_sum (index l r) (wrap_s 64 n)) as [[-> _]|Hneg]; [lia|unfold in_s in *; lia| |].
  - destruct (Z.ltb_spec (index l r + wrap_s 64 n) 0); [done|]. destruct (Z.ltb_spec l (index l r + wrap_s 64 n)); [done|].
    rewrite slice_ok; [done|]. unfold index in *. lia.
  - by rewrite (proj2 (Z.ltb_lt _ 0)).
Qed.

(** ** Unknown fields *)
Definition skip_field (l wireType depth : Z) (rest : list byte) : result ProtoError (Z * Z) :=
  if wireType =? 0 then
    let! (_, rest) := read_varint Uint64T 0 0 rest in Ok (index l rest, depth)
  else if wireType =? 1 then Ok (wrap_s 64 (index l rest + 8), depth)
  else if wireType =? 2 then
    let! (length, rest) := read_varint IntT 0 0 rest in
    if length <? 0 then Err ErrInvalidLength else Ok (wrap_s 64 (index l rest + length), depth)
  else if wireType =? 3 then Ok (index l rest, depth + 1)
  else if wireType =? 4 then
    if depth =? 0 then Err ErrUnexpectedEndOfGroup else Ok (index l rest, depth - 1)
  else if wireType =? 5 then Ok (wrap_s 64 (index l rest + 4), depth)
  else Err (ErrIllegalWireType wireType).
Fixpoint skip_loop (fuel : nat) (dAtA : list byte) (iNdEx depth : Z) : result ProtoError Z :=
  let l := Z.of_nat (length dAtA) in
  match fuel with
  | O => Err Stuck
  | S fuel =>
      if iNdEx <? l then
        let! from := slice_from dAtA iNdEx in
        let! (wire, rest) := read_varint Uint64T 0 0 from in
        let! (iNdEx, depth) := skip_field l (Z.land wire 7) depth rest in
        if iNdEx <? 0 then Err ErrInvalidLength
        else if depth =? 0 then Ok iNdEx
        else skip_loop fuel dAtA iNdEx depth
      else Err ErrUnexpectedEOF
  end.
Definition skipGenerated (dAtA : list byte) : result ProtoError Z := skip_loop (S (length dAtA)) dAtA 0 0.

(** What is read has the type read into. *)
Lemma read_varint_conv t rest : ∀ shift acc n rest', read_varint t shift (conv t acc) rest = Ok (n, rest') → ∃ m, n = conv t m.
Proof.
  induction rest as [|b rest IH]; intros shift acc n rest'; cbn [read_varint past_end]; (destruct (64 <=? shift); [done|]); [done|].
  rewrite <- conv_lor. destruct (Z_of_byte b <? 128); [intros [= <- _]; eauto|apply IH].
Qed.

Lemma index_drop (dAtA rest : list byte) i p : 0 <= i → drop (Z.to_nat i) dAtA = p ++ rest →
  (length rest < length (drop (Z.to_nat i) dAtA))%nat → i < index (Z.of_nat (length dAtA)) rest <= Z.of_nat (length dAtA).
Proof. intros Hi Hd Hlt. rewrite length_drop in Hlt. unfold index. lia. Qed.

Lemma ends_skip_field l w d rest : ends (skip_field l w d rest).
Proof.
  unfold skip_field. repeat case_match; try done; (apply ends_bind; [apply ends_read_varint|]); intros [n r] _; [done|].
  by case_match.
Qed.
Lemma skip_field_index dAtA i w d p rest i' d' : Z.of_nat (length dAtA) < 2 ^ 63 → 0 <= i →
  drop (Z.to_nat i) dAtA = p ++ rest → (length rest < length (drop (Z.to_nat i) dAtA))%nat →
  skip_field (Z.of_nat (length dAtA)) w d rest = Ok (i', d') → i < i' < 2 ^ 63 ∨ i' < 0.
Proof.
  intros Hl Hi Hd Hlt. pose proof (index_drop _ _ _ _ Hi Hd Hlt) as Hx. unfold skip_field.
  repeat case_match; try done; intros H'; simplify_eq; try lia.
  - destruct (read_varint Uint64T 0 0 rest) as [[n r]|] eqn:E; simplify_eq/=.
    apply read_varint_short in E as [Hr [q ->]]. left. rewrite app_assoc in Hd.
    assert (length r < length (drop (Z.to_nat i) dAtA))%nat as Hlt' by lia.
    pose proof (index_drop _ _ _ _ Hi Hd Hlt'). lia.
  - destruct (wrap64_sum (index (Z.of_nat (length dAtA)) rest) 8); lia.
  - destruct (read_varint IntT 0 0 rest) as [[n r]|] eqn:E; cbn [result_bind] in H'; [|done].
    destruct (Z.ltb_spec n 0); [done|]. injection H' as <- <-.
    pose proof E as E'. rewrite <- (conv_0 IntT) in E'. apply (read_varint_conv IntT rest 0 0) in E' as [m Hm].
    assert (n < 2 ^ 63) by (rewrite Hm; apply wrap_s_in; lia).
    apply read_varint_short in E as [Hr [q ->]]. rewrite app_assoc in Hd.
    assert (length r < length (drop (Z.to_nat i) dAtA))%nat as Hlt' by lia.
    pose proof (index_drop _ _ _ _ Hi Hd Hlt').
    destruct (wrap64_sum (index (Z.of_nat (length dAtA)) r) n); lia.
  - destruct (wrap64_sum (index (Z.of_nat (length dAtA)) rest) 4); lia.
Qed.

Lemma skip_loop_spec fuel : ∀ dAtA i depth, Z.of_nat (length dAtA) < 2 ^ 63 → 0 <= i →
  Z.max 0 (Z.of_nat (length dAtA) - i) < Z.of_nat fuel →
  ends (skip_loop fuel dAtA i depth) ∧ ∀ n, skip_loop fuel dAtA i depth = Ok n → i < n < 2 ^ 63.
Proof.
  induction fuel as [|fuel IH]; intros dAtA i depth Hl Hi Hf; [lia|]. cbn [skip_loop].
  destruct (Z.ltb_spec i (Z.of_nat (length dAtA))); [|done]. rewrite slice_from_ok by lia. cbn [result_bind].
  destruct (read_varint Uint64T 0 0 (drop (Z.to_nat i) dAtA)) as [[wire rest]|e] eqn:E; cbn [result_bind].
  2: { split; [|done]. pose proof (ends_read_varint Uint64T 0 0 (drop (Z.to_nat i) dAtA)) as He. by rewrite E in He. }
  apply read_varint_short in E as [Hr [p Hp]].
  destruct (skip_field _ _ _ rest) as [[i' d']|e] eqn:E; cbn [result_bind].
  2: { split; [|done]. match type of E with ?s = _ => pose proof (ends_skip_field _ _ _ _ : ends s) as He end. by rewrite E in He. }
  destruct (skip_field_index _ _ _ _ _ _ _ _ Hl Hi Hp Hr E) as [Hi'|Hi'].
  - rewrite (proj2 (Z.ltb_ge _ _)) by lia. destruct (d' =? 0); [split; [done|]; by intros n [= <-]|].
    destruct (IH dAtA i' d') as [H1 H2]; [lia..|]. split; [done|]. intros n Hn%H2. lia.
  - rewrite (proj2 (Z.ltb_lt _ _)) by lia. done.
Qed.

(** Skipping ends, and moves on. *)
Lemma skip_spec dAtA : Z.of_nat (length dAtA) < 2 ^ 63 →
  ends (skipGenerated dAtA) ∧ ∀ n, skipGenerated dAtA = Ok n → 0 < n < 2 ^ 63.
Proof. intros Hl. apply skip_loop_spec; lia. Qed.

(** A one-byte integer is its byte. *)
Lemma read_tag v rest : 0 <= v < 128 → read_varint Uint64T 0 0 (byte_of_Z v :: rest) = Ok (v, rest).
Proof.
  intros Hv. assert (varint v = [byte_of_Z v]) as Hb by (unfold varint; rewrite varint_k_S, (proj2 (Z.ltb_lt _ _)) by lia; done).
  pose proof (read_varint_roundtrip Uint64T v rest) as Hr. rewrite Hb in Hr. cbn [app conv] in Hr.
  rewrite Hr by (unfold in_u; lia). rewrite (proj2 (wrap64_small v ltac:(lia))). done.
Qed.
End ProtoWire.
