(* ===== verification/Schemas.v ===== *)
(** * JSON, Go values as [encoding/json] writes them, and OpenAPI schemas

    What the published schemas of the API types ([zz_generated.openapi.go]) are
    about.  A Go value carries the fields of its structs with their tags, as
    reflection sees them; [marshal] writes it the way [encoding/json] does:
    embedded structs are merged into their parent, [omitempty] drops empty
    values, nil references are [null].  [valid] says when JSON conforms to a
    schema.  A boolean comparison of a type with a schema ([agrees_def]) is
    shown sound: what is marshalled from the type conforms. *)
From S2P Require Import Prelude.
#[local] Open Scope Z_scope.

Module Schemas.

#[warnings="-register-all"]
Inductive json :=
  | JNull
  | JBool (b : bool)
  | JNumber (z : Z)
  | JString (s : string)
  | JArray (l : list json)
  | JObject (ms : list (string * json)).

(** ** Go types and values *)
Inductive GoT :=
  | GTString
  | GTEnum (vals : list string)     (** a string type with its constants *)
  | GTBool
  | GTInt (bits : Z) (signed : bool)
  | GTPtr (T : GoT)
  | GTSlice (T : GoT)
  | GTMap                           (** [map[string]string] *)
  | GTNamed (n : string).           (** a struct, or a type of another package *)

(** A struct field: its name, type and JSON tag, and its [+optional] marker. *)
Record Field := mkField {
  fd_go : string;
  fd_type : GoT;
  fd_json : string;
  fd_omitempty : bool;
  fd_inline : bool;
  fd_optional : bool
}.

#[warnings="-register-all"]
Inductive gval :=
  | GString (s : string)
  | GBool (b : bool)
  | GInt (z : Z)
  | GNil
  | GPtr (v : gval)
  | GSlice (vs : list gval)
  | GMap (m : list (string * string))
  | GStruct (fs : list (Field * gval))
  | GExt (j : json).                (** a value of another package, as it is written *)

Lemma gval_nested_ind (P : gval → Prop) :
  (∀ s, P (GString s)) → (∀ b, P (GBool b)) → (∀ z, P (GInt z)) → P GNil → (∀ v, P v → P (GPtr v)) →
  (∀ vs, Forall P vs → P (GSlice vs)) → (∀ m, P (GMap m)) →
  (∀ fs, Forall (λ fv, P fv.2) fs → P (GStruct fs)) → (∀ j, P (GExt j)) → ∀ v, P v.
Proof.
  intros Hs Hb Hi Hn Hp Hsl Hm Hst He. fix IH 1. intros [s|b|z| |v|vs|m|fs|j].
  - apply Hs.
  - apply Hb.
  - apply Hi.
  - apply Hn.
  - apply Hp, IH.
  - apply Hsl. induction vs; constructor; [apply IH|done].
  - apply Hm.
  - apply Hst. induction fs as [|[f v] fs IHfs]; constructor; [apply IH|done].
  - apply He.
Qed.

(** What [omitempty] drops. *)
Definition is_empty (v : gval) : bool :=
  match v with
  | GString s => bool_decide (s = "")
  | GBool b => negb b
  | GInt z => bool_decide (z = 0)
  | GNil => true
  | GSlice vs => bool_decide (length vs = 0%nat)
  | GMap m => bool_decide (length m = 0%nat)
  | GPtr _ | GStruct _ | GExt _ => false
  end.

Definition members (j : json) : list (string * json) := match j with JObject ms => ms | _ => [] end.

Fixpoint marshal (v : gval) : json :=
  match v with
  | GString s => JString s
  | GBool b => JBool b
  | GInt z => JNumber z
  | GNil => JNull
  | GPtr v => marshal v
  | GSlice vs => JArray (map marshal vs)
  | GMap m => JObject (map (λ kv, (kv.1, JString kv.2)) m)
  | GStruct fs =>
      JObject (flat_map (λ fv,
        let '(f, v) := fv in
        if fd_inline f then members (marshal v)
        else if fd_omitempty f && is_empty v then []
        else [(fd_json f, marshal v)]) fs)
  | GExt j => j
  end.

(** ** Schemas *)
Inductive Default := DString (s : string) | DInt (z : Z) | DObject.
Inductive Extension := EString (s : string) | EList (l : list string).

#[warnings="-register-all"]
Inductive Schema := mkSchema {
  s_Type : list string;
  s_Format : string;
  s_Default : option Default;
  s_Enum : list string;
  s_Ref : option string;
  s_Items : option Schema;
  s_AdditionalProperties : option (bool * option Schema);
  s_Properties : list (string * Schema);
  s_Required : list string;
  s_Extensions : list (string * Extension)
}.

Record OpenAPIDefinition := mkDefinition { od_Schema : Schema; od_Dependencies : list string }.

(** Literals of the generated code. *)
Definition typ (t f : string) : Schema := mkSchema [t] f None [] None None None [] [] [].
Definition ref_to (r : string) : Schema := mkSchema [] "" None [] (Some r) None None [] [] [].
Definition array_of (s : Schema) : Schema := mkSchema ["array"] "" None [] None (Some s) None [] [] [].
Definition map_of (s : Schema) : Schema := mkSchema ["object"] "" None [] None None (Some (true, Some s)) [] [] [].
Definition object_of (ps : list (string * Schema)) (required : list string) : Schema :=
  mkSchema ["object"] "" None [] None None None ps required [].
Definition with_default (d : Default) (s : Schema) : Schema :=
  mkSchema (s_Type s) (s_Format s) (Some d) (s_Enum s) (s_Ref s) (s_Items s) (s_AdditionalProperties s)
    (s_Properties s) (s_Required s) (s_Extensions s).
Definition with_enum (e : list string) (s : Schema) : Schema :=
  mkSchema (s_Type s) (s_Format s) (s_Default s) e (s_Ref s) (s_Items s) (s_AdditionalProperties s)
    (s_Properties s) (s_Required s) (s_Extensions s).
Definition with_ext (x : list (string * Extension)) (s : Schema) : Schema :=
  mkSchema (s_Type s) (s_Format s) (s_Default s) (s_Enum s) (s_Ref s) (s_Items s) (s_AdditionalProperties s)
    (s_Properties s) (s_Required s) x.

Section schemas.
(** The structs of the API group, the fields of structs of other packages that
    they embed, the schemas published for the group, and those that other
    packages publish for their types. *)
Context (structs : string → option (list Field)) (ext_fields : string → list Field).
Context (defs foreign : string → option Schema).

Definition published (n : string) : option Schema :=
  match defs n with Some s => Some s | None => foreign n end.

(** A value that is written as something of its type: not [null], and one of
    the constants of an enumeration. *)
Definition fit (T : GoT) (v : gval) : Prop :=
  match T, v with
  | GTEnum vals, GString s => s ∈ vals
  | _, GNil => False
  | _, _ => True
  end.

Definition int_range (bits : Z) (signed : bool) (z : Z) : Prop :=
  if signed then - 2 ^ (bits - 1) <= z < 2 ^ (bits - 1) else 0 <= z < 2 ^ bits.

(** JSON that conforms to a schema: no member without a property, every
    required member there. *)
#[warnings="-register-all"]
Inductive valid : Schema → json → Prop :=
  | valid_ref s n s' j : s_Ref s = Some n → published n = Some s' → valid s' j → valid s j
  | valid_string s x : s_Type s = ["string"] → (s_Enum s = [] ∨ x ∈ s_Enum s) → valid s (JString x)
  | valid_bool s b : s_Type s = ["boolean"] → valid s (JBool b)
  | valid_int32 s z : s_Type s = ["integer"] → s_Format s = "int32" → - 2 ^ 31 <= z < 2 ^ 31 → valid s (JNumber z)
  | valid_int64 s z : s_Type s = ["integer"] → s_Format s = "int64" → - 2 ^ 63 <= z < 2 ^ 63 → valid s (JNumber z)
  | valid_array s t js : s_Type s = ["array"] → s_Items s = Some t → Forall (valid t) js → valid s (JArray js)
  | valid_map s t ms :
      s_Type s = ["object"] → s_AdditionalProperties s = Some (true, Some t) → NoDup ms.*1 →
      Forall (λ kj, valid t kj.2) ms → valid s (JObject ms)
  | valid_object s ms :
      s_Type s = ["object"] → s_AdditionalProperties s = None → NoDup ms.*1 →
      (∀ k j, (k, j) ∈ ms → ∃ t, (k, t) ∈ s_Properties s ∧ valid t j) →
      (∀ k, k ∈ s_Required s → k ∈ ms.*1) → valid s (JObject ms).

(** An embedded struct of another package, here with fields that are strings
    and left out when empty, is written with those. *)
Definition embedded_as (fs : list Field) (j : json) : Prop :=
  ∃ ms, j = JObject ms ∧ NoDup ms.*1 ∧
    ∀ k v, (k, v) ∈ ms → (∃ f, f ∈ fs ∧ fd_json f = k) ∧ ∃ s, v = JString s.

(** A value of a type in which no field that is always written is nil, and in
    which the values of other packages are written as those publish it. *)
Fixpoint typed (T : GoT) (v : gval) {struct v} : Prop :=
  match v, T with
  | GString s, GTString => True
  | GString s, GTEnum vals => s = "" ∨ s ∈ vals
  | GBool _, GTBool => True
  | GInt z, GTInt bits signed => int_range bits signed z
  | GNil, (GTPtr _ | GTSlice _ | GTMap) => True
  | GPtr v, GTPtr T => typed T v
  | GSlice vs, GTSlice T => foldr (λ v P, typed T v ∧ P) True vs
  | GMap m, GTMap => NoDup m.*1
  | GStruct fs, GTNamed n =>
      structs n = Some fs.*1 ∧
      foldr (λ fv P,
        let '(f, v) := fv in
        (typed (fd_type f) v ∧ (fd_omitempty f = false → fit (fd_type f) v)) ∧ P) True fs
  | GExt j, GTNamed n => 
      structs n = None ∧ if bool_decide (ext_fields n = []) then valid (ref_to n) j else embedded_as (ext_fields n) j
  | _, _ => False
  end.

(** ** Comparing a type with a schema *)

Definition nilable (T : GoT) : bool :=
  match T with GTPtr _ | GTSlice _ | GTMap | GTEnum _ => true | _ => false end.

Definition int_fits (bits : Z) (signed : bool) (fmt : string) : bool :=
  let b := if signed then bits else bits + 1 in
  (String.eqb fmt "int32" && (1 <=? b) && (b <=? 32)) || (String.eqb fmt "int64" && (1 <=? b) && (b <=? 64)).

Definition type_is (s : Schema) (t : string) : bool := bool_decide (s_Type s = [t]).

Fixpoint agrees_ty (T : GoT) (s : Schema) : bool :=
  match T with
  | GTString => type_is s "string" && bool_decide (s_Enum s = [])
  | GTEnum vals => type_is s "string" && bool_decide (s_Enum s = vals)
  | GTBool => type_is s "boolean"
  | GTInt bits signed => type_is s "integer" && int_fits bits signed (s_Format s)
  | GTPtr T => negb (nilable T) && agrees_ty T s
  | GTSlice T =>
      type_is s "array" && negb (nilable T) &&
      match s_Items s with Some t => agrees_ty T t | None => false end
  | GTMap =>
      type_is s "object" &&
      match s_AdditionalProperties s with
      | Some (true, Some t) => type_is t "string" && bool_decide (s_Enum t = [])
      | _ => false
      end
  | GTNamed n =>
      bool_decide (s_Ref s = Some n) &&
      bool_decide (is_Some (defs n) ↔ is_Some (structs n)) && bool_decide (ext_fields n = [])
  end.

(** The fields a struct is written with: those of embedded structs in place.
    [fuel] bounds the depth of embedding. *)
Fixpoint written (fuel : nat) (fs : list Field) : option (list Field) :=
  match fuel with
  | O => None
  | S fuel =>
      foldr (λ f acc,
        acc ← acc;
        if fd_inline f then
          match fd_type f with
          | GTNamed n =>
              match structs n with
              | Some fs => gs ← written fuel fs; Some (gs ++ acc)
              | None => if bool_decide (ext_fields n = []) then None else Some (ext_fields n ++ acc)
              end
          | _ => None
          end
        else Some (f :: acc)) (Some []) fs
  end.

(** The properties are the written fields, of the same types; required are
    those always written and not marked optional. *)
Definition agrees_def (fuel : nat) (n : string) : bool :=
  match structs n, defs n with
  | Some fs, Some s =>
      match written fuel fs with
      | Some ws =>
          bool_decide (s_Type s = ["object"]) && bool_decide (s_AdditionalProperties s = None) &&
          bool_decide (NoDup (fd_json <$> ws)) &&
          bool_decide ((s_Properties s).*1 = fd_json <$> ws) &&
          forallb (λ fp, agrees_ty (fd_type fp.1) fp.2.2) (zip ws (s_Properties s)) &&
          bool_decide (s_Required s = fd_json <$> filter (λ f, fd_omitempty f = false ∧ fd_optional f = false) ws)
      | None => false
      end
  | _, _ => false
  end.
End schemas.

(** ** The comparison is sound *)
Section soundness.
Context (structs : string → option (list Field)) (ext_fields : string → list Field).
Context (defs foreign : string → option Schema) (fuel : nat).
Context (Hstrings : ∀ n f, f ∈ ext_fields n → fd_type f = GTString ∧ fd_omitempty f = true).
#[local] Unset Default Proof Using.
Abbreviation typed := (typed structs ext_fields defs foreign).
Abbreviation valid := (valid defs foreign).
Abbreviation agrees_ty := (agrees_ty structs ext_fields defs).

Definition conforms (f : Field) (j : json) : Prop := ∀ s, agrees_ty (fd_type f) s = true → valid s j.

(** Members that are written for the fields [ws]. *)
Record described (ws : list Field) (ms : list (string * json)) : Prop := {
  desc_field k j : (k, j) ∈ ms → ∃ f, f ∈ ws ∧ fd_json f = k ∧ conforms f j;
  desc_present f : f ∈ ws → fd_omitempty f = false → fd_json f ∈ ms.*1;
  desc_unique : NoDup (fd_json <$> ws) → NoDup ms.*1
}.

Lemma described_keys ws ms k : described ws ms → k ∈ ms.*1 → k ∈ fd_json <$> ws.
Proof.
  intros Hd ([k' j] & -> & Hin)%list_elem_of_fmap. destruct (desc_field _ _ Hd _ _ Hin) as (f & Hf & <- & _).
  exact (list_elem_of_fmap_2 fd_json _ _ Hf).
Qed.

Lemma described_nil : described [] [].
Proof. split; [by intros k j ?%not_elem_of_nil|by intros f ?%not_elem_of_nil|constructor]. Qed.

Lemma described_app ws1 ws2 ms1 ms2 : described ws1 ms1 → described ws2 ms2 → described (ws1 ++ ws2) (ms1 ++ ms2).
Proof.
  intros H1 H2. split.
  - intros k j [Hin|Hin]%elem_of_app; [apply (desc_field _ _ H1) in Hin|apply (desc_field _ _ H2) in Hin];
      destruct Hin as (f & ? & ?); exists f; (split; [apply elem_of_app; auto|done]).
  - intros f Hf Ho. rewrite fmap_app, elem_of_app. apply elem_of_app in Hf as [Hf|Hf]; [left|right]; by eapply desc_present.
  - rewrite !fmap_app, !NoDup_app. intros (Ha & Hd & Hb). split_and!; [by eapply desc_unique| |by eapply desc_unique].
    intros k Hk1 Hk2. apply (Hd k); by eapply described_keys.
Qed.

Lemma described_one f j : conforms f j → described [f] [(fd_json f, j)].
Proof.
  intros Hc. split.
  - intros k j' [= -> ->]%list_elem_of_singleton. exists f. split; [by left|done].
  - intros g ->%list_elem_of_singleton _. by left.
  - intros _. apply NoDup_singleton.
Qed.
Lemma described_omitted f : fd_omitempty f = true → described [f] [].
Proof.
  intros Ho. split; [by intros k j ?%not_elem_of_nil| |constructor].
  intros g ->%list_elem_of_singleton ?. congruence.
Qed.

Lemma described_external n j : embedded_as (ext_fields n) j → described (ext_fields n) (members j).
Proof.
  intros (ms & -> & Hnd & Hms). split.
  - intros k v Hin. destruct (Hms k v Hin) as [(f & Hf & Hk) [s ->]]. exists f. split_and!; [done|done|].
    intros t. destruct (Hstrings n f Hf) as [-> _]. cbn. intros [Ht He]%andb_true_iff.
    unfold type_is in Ht. apply bool_decide_eq_true in Ht, He. apply valid_string; auto.
  - intros f Hf Ho. destruct (Hstrings n f Hf) as [_ ?]. congruence.
  - done.
Qed.

Lemma foldr_Forall {A} (P : A → Prop) l : foldr (λ x Q, P x ∧ Q) True l ↔ Forall P l.
Proof. induction l as [|x l IH]; cbn; [done|]. by rewrite Forall_cons, IH. Qed.

Lemma typed_struct fs n :
  typed (GTNamed n) (GStruct fs) ↔
    structs n = Some fs.*1 ∧
    Forall (λ fv, typed (fd_type fv.1) fv.2 ∧ (fd_omitempty fv.1 = false → fit (fd_type fv.1) fv.2)) fs.
Proof.
  cbn [Schemas.typed]. rewrite <- foldr_Forall. apply and_iff_compat_l.
  induction fs as [|[f v] fs IH]; cbn [foldr fst snd]; [done|]. by rewrite IH.
Qed.

Lemma nonempty_fit T v : typed T v → is_empty v = false → fit T v.
Proof.
  destruct v, T; cbn; try done. intros [->|?]; [|done]. by rewrite bool_decide_eq_true_2.
Qed.

(** A value conforms, and an embedded one is written with its fields. *)
Definition value_ok (v : gval) : Prop :=
  (∀ T s, agrees_ty T s = true → typed T v → fit T v → valid s (marshal v)) ∧
  (∀ d n ws, typed (GTNamed n) v →
     match structs n with
     | Some fs => written structs ext_fields d fs = Some ws
     | None => ws = ext_fields n ∧ ws ≠ []
     end → described ws (members (marshal v))).

Lemma struct_described d fs : Forall (λ fv, value_ok fv.2) fs →
  Forall (λ fv, typed (fd_type fv.1) fv.2 ∧ (fd_omitempty fv.1 = false → fit (fd_type fv.1) fv.2)) fs →
  ∀ ws, written structs ext_fields d fs.*1 = Some ws → described ws (members (marshal (GStruct fs))).
Proof.
  destruct d as [|d]; [done|]. intros Hok Hty. cbn [written marshal members].
  induction fs as [|[f v] fs IH]; [intros ws [= <-]; apply described_nil|].
  apply Forall_cons in Hok as [[Hv Hin] Hok], Hty as [[Ht Hf] Hty]. cbn [fst snd] in *.
  intros ws Hw. cbn [fmap list_fmap foldr flat_map fst] in Hw |- *.
  match type of Hw with (?acc ≫= _) = _ => destruct acc as [acc'|] eqn:Ea; [|done] end.
  specialize (IH Hok Hty acc' eq_refl). cbn in Hw.
  destruct (fd_inline f).
  - destruct (fd_type f) as [| | | | | | |n]; try done. specialize (Hin d n).
    destruct (structs n) as [gs|].
    + destruct (written structs ext_fields d gs) as [ws'|] eqn:Eg; [|done]. injection Hw as <-. apply described_app; [|done].
      by apply Hin.
    + case_bool_decide as En; [done|]. injection Hw as <-. apply described_app; [|done]. by apply Hin.
  - injection Hw as <-. change (f :: acc') with ([f] ++ acc'). apply described_app; [|done].
    destruct (fd_omitempty f) eqn:Ho; [destruct (is_empty v) eqn:Ee|]; cbn.
    + by apply described_omitted.
    + apply described_one. intros s Hs. apply (Hv _ s Hs Ht). by apply nonempty_fit.
    + apply described_one. intros s Hs. apply (Hv _ s Hs Ht). by apply Hf.
Qed.

Context (Hdefs : ∀ n, is_Some (defs n) → agrees_def structs ext_fields defs fuel n = true).

Lemma struct_valid n s ms ws :
  defs n = Some s → (∃ fs, structs n = Some fs ∧ written structs ext_fields fuel fs = Some ws) → described ws ms →
  valid s (JObject ms).
Proof.
  intros Es (fs & Ef & Ew) Hd. pose proof (Hdefs n (mk_is_Some _ _ Es)) as Ha.
  unfold agrees_def in Ha. rewrite Ef, Es, Ew in Ha. rewrite !andb_true_iff, !bool_decide_eq_true in Ha.
  destruct Ha as [[[[[Ht Hap] Hnd] Hk] Hall] Hreq]. apply valid_object; [done|done|by apply (desc_unique _ _ Hd)| |].
  - intros k j Hin. destruct (desc_field _ _ Hd _ _ Hin) as (f & Hf & <- & Hc).
    apply list_elem_of_lookup_1 in Hf as [i Hi].
    assert ((s_Properties s).*1 !! i = Some (fd_json f)) as Hp by (by rewrite Hk, list_lookup_fmap, Hi).
    rewrite list_lookup_fmap in Hp. destruct (s_Properties s !! i) as [[k t]|] eqn:Et; [|done].
    injection Hp as ->. exists t. split; [by eapply list_elem_of_lookup_2|]. apply Hc.
    rewrite forallb_forall in Hall. specialize (Hall (f, (fd_json f, t))). apply Hall, list_elem_of_In.
    apply list_elem_of_lookup. exists i. by rewrite lookup_zip_with_Some; eauto.
  - intros k. rewrite Hreq. intros (f & -> & [[Ho _] Hf]%list_elem_of_filter)%list_elem_of_fmap.
    by apply (desc_present _ _ Hd).
Qed.
Ltac agree Ha :=
  unfold type_is in Ha; repeat rewrite !andb_true_iff in Ha; destruct_and? Ha;
  repeat match goal with Hb : bool_decide _ = true |- _ => apply bool_decide_eq_true in Hb end.

Lemma int_valid bits signed z s :
  type_is s "integer" = true → int_fits bits signed (s_Format s) = true → int_range bits signed z →
  valid s (JNumber z).
Proof.
  unfold type_is, int_fits, int_range. rewrite bool_decide_eq_true, orb_true_iff, !andb_true_iff.
  intros Ht Hf Hz. rewrite !String.eqb_eq, !Z.leb_le in Hf. 
  assert (∀ a b, 0 <= a <= b → 2 ^ a <= 2 ^ b) as Hpow by (intros a b ?; apply Z.pow_le_mono_r; lia).
  destruct signed, Hf as [[[Hf H1] H2]|[[Hf H1] H2]].
  - apply valid_int32; [done|done|]. pose proof (Hpow (bits - 1) 31). lia.
  - apply valid_int64; [done|done|]. pose proof (Hpow (bits - 1) 63). lia.
  - apply valid_int32; [done|done|]. pose proof (Hpow bits 31). lia.
  - apply valid_int64; [done|done|]. pose proof (Hpow bits 63). lia.
Qed.

Lemma valid_of_ref n s j : s_Ref s = Some n → valid (ref_to n) j → valid s j.
Proof. intros Hs Hv. inversion Hv; subst; try done. cbn in *. simplify_eq. by eapply valid_ref. Qed.

Lemma fit_of_not_nilable T v : nilable T = false → typed T v → fit T v.
Proof. by destruct T, v. Qed.

Lemma values_ok v : value_ok v.
Proof.
  induction v as [s|b|z| |v IH|vs IH|m|fs IH|j] using gval_nested_ind; (split; [intros T s' Ha Ht Hf|intros d n ws Ht Hw]);
    try done.
  - destruct T; cbn in *; try done; agree Ha; apply valid_string; try done; first [by left|right; congruence].
  - destruct T; cbn in *; try done. agree Ha. by apply valid_bool.
  - destruct T; cbn in *; try done. apply andb_true_iff in Ha as [? ?]. by eapply int_valid.
  - by destruct T.
  - destruct T as [| | | |T| | |]; try done. cbn in Ha, Ht. apply andb_true_iff in Ha as [Hn Ha].
    apply negb_true_iff in Hn. apply (proj1 IH T s' Ha Ht). by apply fit_of_not_nilable.
  - destruct T as [| | | | |T| |]; try done. cbn [Schemas.agrees_ty] in Ha. rewrite !andb_true_iff in Ha.
    destruct Ha as [[Hty Hn%negb_true_iff] Ha]. unfold type_is in Hty. apply bool_decide_eq_true in Hty.
    destruct (s_Items s') as [t|] eqn:Ei; [|done]. cbn in Ht. apply foldr_Forall in Ht. cbn [marshal].
    eapply valid_array; [done|done|]. apply Forall_map. rewrite Forall_forall in IH, Ht |- *.
    intros v Hv. apply (proj1 (IH v Hv) T t Ha (Ht v Hv)). apply fit_of_not_nilable; [done|by apply Ht].
  - destruct T; try done. cbn in Ha. destruct (s_AdditionalProperties s') as [[[] [t|]]|] eqn:Ep; rewrite ?andb_false_r in Ha; try done.
    agree Ha. cbn [marshal]. eapply valid_map; [done|done| |].
    + cbn in Ht. change (map ?f m) with (f <$> m). by rewrite <- list_fmap_compose.
    + apply Forall_map, Forall_forall. intros [k x] _. apply valid_string; [done|by left].
  - destruct T as [| | | | | | |n]; try done. apply typed_struct in Ht as [En Hty]. cbn in Ha. agree Ha.
    assert (is_Some (defs n)) as [sn Esn] by (match goal with Hi : _ ↔ _ |- _ => apply Hi end; by rewrite En).
    eapply valid_ref; [done|unfold published; by rewrite Esn|].
    pose proof (Hdefs n (mk_is_Some _ _ Esn)) as Hn. unfold agrees_def in Hn. rewrite En, Esn in Hn.
    destruct (written structs ext_fields fuel fs.*1) as [ws|] eqn:Ew; [|done].
    apply (struct_valid n sn _ ws Esn); [by exists fs.*1|]. by apply (struct_described fuel fs IH Hty).
  - apply typed_struct in Ht as [En Hty]. rewrite En in Hw. by apply (struct_described d fs IH Hty).
  - destruct T as [| | | | | | |n]; try done. cbn in Ht, Ha, Hf. destruct Ht as [En Hj]. agree Ha.
    rewrite bool_decide_eq_true_2 in Hj by done. by apply (valid_of_ref n).
  - cbn in Ht. destruct Ht as [En Hj]. rewrite En in Hw. destruct Hw as [-> Hne].
    rewrite bool_decide_eq_false_2 in Hj by done. by apply described_external.
Qed.

(** What is marshalled from a type conforms to the schema published for it. *)
Lemma marshalled_conforms n v :
  is_Some (defs n) → is_Some (structs n) → ext_fields n = [] → typed (GTNamed n) v → valid (ref_to n) (marshal v).
Proof.
  intros Hd Hs He Ht. refine (proj1 (values_ok v) (GTNamed n) (ref_to n) _ Ht _).
  - cbn. by rewrite !bool_decide_eq_true_2.
  - by apply fit_of_not_nilable.
Qed.
End soundness.
End Schemas.
