(* ===== verification/OpenApi.v ===== *)
(** * The published schemas of the API types ([zz_generated.openapi.go]) and
      the program that assembles them ([hack/gen-openapi-spec/main.go])

    The structs of the API group with their JSON tags and [+optional] markers,
    the schema generated for each, and the comparison of the two: what the
    controllers write conforms to what is published.  Descriptions are left
    out.  The types of [k8s.io/api] and [k8s.io/apimachinery] are parameters;
    their names are those of their packages. *)
From S2P Require Import Prelude GoStrings Schemas.
#[local] Open Scope Z_scope.

Module OpenApi.
Import Schemas.

Definition v1alpha1 (n : string) : string := "github.com/kynoproj/kynomesh/pkg/apis/kynomesh/v1alpha1." +:+ n.
Definition corev1 (n : string) : string := "k8s.io/api/core/v1." +:+ n.
Definition metav1 (n : string) : string := "k8s.io/apimachinery/pkg/apis/meta/v1." +:+ n.
Definition intstr (n : string) : string := "k8s.io/apimachinery/pkg/util/intstr." +:+ n.

(** ** The structs *)
Definition AgentDeploy_fields : list Field := [
  mkField "TypeMeta" (GTNamed (metav1 "TypeMeta")) "" false true false;
  mkField "ObjectMeta" (GTNamed (metav1 "ObjectMeta")) "metadata" true false false;
  mkField "Spec" (GTNamed (v1alpha1 "AgentDeploySpec")) "spec" false false false;
  mkField "Status" (GTNamed (v1alpha1 "AgentDeployStatus")) "status" true false true].
Definition AgentDeploySpec_fields : list Field := [
  mkField "AbstractAgentDeploy" (GTNamed (v1alpha1 "AbstractAgentDeploy")) "" false true false;
  mkField "AgentSetName" (GTString) "agentSetName" false false false;
  mkField "Replicas" (GTPtr (GTInt 32 true)) "replicas" true false true;
  mkField "Topology" (GTNamed (v1alpha1 "Topology")) "topology" true false true].
Definition Topology_fields : list Field := [
  mkField "Pattern" (GTString) "pattern" true false true;
  mkField "IsEntry" (GTBool) "isEntry" true false true;
  mkField "Peers" (GTSlice (GTNamed (v1alpha1 "Peer"))) "peers" true false true].
Definition Peer_fields : list Field := [
  mkField "Name" (GTString) "name" false false false;
  mkField "Kind" (GTString) "kind" true false true;
  mkField "URL" (GTString) "url" true false true].
Definition AbstractAgentDeploy_fields : list Field := [
  mkField "Name" (GTString) "name" false false false;
  mkField "AbstractPodTemplate" (GTNamed (v1alpha1 "AbstractPodTemplate")) "" false true true;
  mkField "Container" (GTPtr (GTNamed (v1alpha1 "Container"))) "container" false false false;
  mkField "InitContainer" (GTPtr (GTNamed (v1alpha1 "ContainerTemplate"))) "initContainer" true false true;
  mkField "BrokerContainer" (GTPtr (GTNamed (v1alpha1 "ContainerTemplate"))) "brokerContainer" true false true;
  mkField "Volumes" (GTSlice (GTNamed (corev1 "Volume"))) "volumes" true false true;
  mkField "Scale" (GTNamed (v1alpha1 "Scale")) "scale" true false true;
  mkField "RateLimit" (GTPtr (GTNamed (v1alpha1 "RateLimit"))) "rateLimit" true false true;
  mkField "InitContainers" (GTSlice (GTNamed (corev1 "Container"))) "initContainers" true false true;
  mkField "Sidecars" (GTSlice (GTNamed (corev1 "Container"))) "sidecars" true false true;
  mkField "UpdateStrategy" (GTNamed (v1alpha1 "UpdateStrategy")) "updateStrategy" true false true;
  mkField "PublicBaseURL" (GTString) "publicBaseURL" true false true;
  mkField "DriftReload" (GTPtr (GTNamed (v1alpha1 "DriftReload"))) "driftReload" true false true].
Definition AgentDeployStatus_fields : list Field := [
  mkField "Status" (GTNamed (v1alpha1 "Status")) "" false true false;
  mkField "Phase" (GTString) "phase" false false true;
  mkField "Replicas" (GTInt 32 false) "replicas" false false true;
  mkField "DesiredReplicas" (GTInt 32 false) "desiredReplicas" false false true;
  mkField "Selector" (GTString) "selector" true false true;
  mkField "Reason" (GTString) "reason" true false true;
  mkField "Message" (GTString) "message" true false true;
  mkField "LastScaledAt" (GTNamed (metav1 "Time")) "lastScaledAt" true false true;
  mkField "ObservedGeneration" (GTInt 64 true) "observedGeneration" true false true;
  mkField "ReadyReplicas" (GTInt 32 false) "readyReplicas" true false true;
  mkField "UpdatedReplicas" (GTInt 32 false) "updatedReplicas" true false false;
  mkField "UpdatedReadyReplicas" (GTInt 32 false) "updatedReadyReplicas" true false false;
  mkField "CurrentHash" (GTString) "currentHash" true false false;
  mkField "UpdateHash" (GTString) "updateHash" true false false].
Definition AgentDeployList_fields : list Field := [
  mkField "TypeMeta" (GTNamed (metav1 "TypeMeta")) "" false true false;
  mkField "ListMeta" (GTNamed (metav1 "ListMeta")) "metadata" true false false;
  mkField "Items" (GTSlice (GTNamed (v1alpha1 "AgentDeploy"))) "items" false false false].
Definition AgentDeployTemplate_fields : list Field := [
  mkField "AbstractPodTemplate" (GTNamed (v1alpha1 "AbstractPodTemplate")) "" false true true;
  mkField "InitContainer" (GTPtr (GTNamed (v1alpha1 "ContainerTemplate"))) "initContainer" true false true;
  mkField "BrokerContainer" (GTPtr (GTNamed (v1alpha1 "ContainerTemplate"))) "brokerContainer" true false true].
Definition AgentSet_fields : list Field := [
  mkField "TypeMeta" (GTNamed (metav1 "TypeMeta")) "" false true false;
  mkField "ObjectMeta" (GTNamed (metav1 "ObjectMeta")) "metadata" true false false;
  mkField "Spec" (GTNamed (v1alpha1 "AgentSetSpec")) "spec" false false false;
  mkField "Status" (GTNamed (v1alpha1 "AgentSetStatus")) "status" true false true].
Definition AgentSetSpec_fields : list Field := [
  mkField "Pattern" (GTString) "pattern" false false false;
  mkField "Entry" (GTString) "entry" false false false;
  mkField "Agents" (GTSlice (GTNamed (v1alpha1 "AbstractAgentDeploy"))) "agents" false false false;
  mkField "Templates" (GTPtr (GTNamed (v1alpha1 "Templates"))) "templates" true false true;
  mkField "ExternalAgents" (GTSlice (GTNamed (v1alpha1 "ExternalAgentRef"))) "externalAgents" true false true;
  mkField "DriftReload" (GTPtr (GTNamed (v1alpha1 "DriftReload"))) "driftReload" true false true].
Definition ExternalAgentRef_fields : list Field := [
  mkField "Name" (GTString) "name" false false false;
  mkField "URL" (GTString) "url" false false false].
Definition Templates_fields : list Field := [
  mkField "AgentDeployTemplate" (GTPtr (GTNamed (v1alpha1 "AgentDeployTemplate"))) "agent" true false false;
  mkField "DaemonTemplate" (GTPtr (GTNamed (v1alpha1 "DaemonTemplate"))) "daemon" true false false].
Definition DaemonTemplate_fields : list Field := [
  mkField "AbstractPodTemplate" (GTNamed (v1alpha1 "AbstractPodTemplate")) "" false true false;
  mkField "Container" (GTPtr (GTNamed (v1alpha1 "ContainerTemplate"))) "container" true false false].
Definition AgentSetStatus_fields : list Field := [
  mkField "Status" (GTNamed (v1alpha1 "Status")) "" false true false;
  mkField "Phase" (GTString) "phase" true false true;
  mkField "Message" (GTString) "message" true false true;
  mkField "LastUpdated" (GTNamed (metav1 "Time")) "lastUpdated" true false true;
  mkField "AgentCount" (GTPtr (GTInt 32 false)) "agentCount" true false true;
  mkField "ExternalAgentCount" (GTPtr (GTInt 32 false)) "externalAgentCount" true false true;
  mkField "ObservedGeneration" (GTInt 64 true) "observedGeneration" true false true].
Definition AgentSetList_fields : list Field := [
  mkField "TypeMeta" (GTNamed (metav1 "TypeMeta")) "" false true false;
  mkField "ListMeta" (GTNamed (metav1 "ListMeta")) "metadata" true false false;
  mkField "Items" (GTSlice (GTNamed (v1alpha1 "AgentSet"))) "items" false false false].
Definition ContainerTemplate_fields : list Field := [
  mkField "Resources" (GTNamed (corev1 "ResourceRequirements")) "resources" true false true;
  mkField "ImagePullPolicy" (GTString) "imagePullPolicy" true false true;
  mkField "SecurityContext" (GTPtr (GTNamed (corev1 "SecurityContext"))) "securityContext" true false true;
  mkField "Env" (GTSlice (GTNamed (corev1 "EnvVar"))) "env" true false true;
  mkField "EnvFrom" (GTSlice (GTNamed (corev1 "EnvFromSource"))) "envFrom" true false true].
Definition DriftReload_fields : list Field := [
  mkField "Enabled" (GTPtr GTBool) "enabled" true false true].
Definition Metadata_fields : list Field := [
  mkField "Annotations" (GTMap) "annotations" true false false;
  mkField "Labels" (GTMap) "labels" true false false].
Definition AbstractPodTemplate_fields : list Field := [
  mkField "Metadata" (GTPtr (GTNamed (v1alpha1 "Metadata"))) "metadata" true false true;
  mkField "NodeSelector" (GTMap) "nodeSelector" true false true;
  mkField "Tolerations" (GTSlice (GTNamed (corev1 "Toleration"))) "tolerations" true false true;
  mkField "SecurityContext" (GTPtr (GTNamed (corev1 "PodSecurityContext"))) "securityContext" true false true;
  mkField "ImagePullSecrets" (GTSlice (GTNamed (corev1 "LocalObjectReference"))) "imagePullSecrets" true false true;
  mkField "PriorityClassName" (GTString) "priorityClassName" true false true;
  mkField "Priority" (GTPtr (GTInt 32 true)) "priority" true false true;
  mkField "Affinity" (GTPtr (GTNamed (corev1 "Affinity"))) "affinity" true false true;
  mkField "ServiceAccountName" (GTString) "serviceAccountName" true false true;
  mkField "RuntimeClassName" (GTPtr GTString) "runtimeClassName" true false true;
  mkField "AutomountServiceAccountToken" (GTPtr GTBool) "automountServiceAccountToken" true false true;
  mkField "DNSPolicy" (GTString) "dnsPolicy" true false true;
  mkField "DNSConfig" (GTPtr (GTNamed (corev1 "PodDNSConfig"))) "dnsConfig" true false true;
  mkField "ResourceClaims" (GTSlice (GTNamed (corev1 "PodResourceClaim"))) "resourceClaims" true false true;
  mkField "TerminationGracePeriodSeconds" (GTPtr (GTInt 64 true)) "terminationGracePeriodSeconds" true false true].
Definition Probe_fields : list Field := [
  mkField "InitialDelaySeconds" (GTPtr (GTInt 32 true)) "initialDelaySeconds" true false true;
  mkField "TimeoutSeconds" (GTPtr (GTInt 32 true)) "timeoutSeconds" true false true;
  mkField "PeriodSeconds" (GTPtr (GTInt 32 true)) "periodSeconds" true false true;
  mkField "SuccessThreshold" (GTPtr (GTInt 32 true)) "successThreshold" true false true;
  mkField "FailureThreshold" (GTPtr (GTInt 32 true)) "failureThreshold" true false true].
Definition RateLimit_fields : list Field := [
  mkField "MaxInFlight" (GTPtr (GTInt 32 true)) "maxInFlight" true false true].
Definition Scale_fields : list Field := [
  mkField "Disabled" (GTBool) "disabled" true false true;
  mkField "Min" (GTPtr (GTInt 32 true)) "min" true false true;
  mkField "Max" (GTPtr (GTInt 32 true)) "max" true false true;
  mkField "TargetSaturationPercentage" (GTPtr (GTInt 32 false)) "targetSaturationPercentage" true false true;
  mkField "ScaleUpCooldownSeconds" (GTPtr (GTInt 32 false)) "scaleUpCooldownSeconds" true false true;
  mkField "ScaleDownCooldownSeconds" (GTPtr (GTInt 32 false)) "scaleDownCooldownSeconds" true false true;
  mkField "ReplicasPerScaleUp" (GTPtr (GTInt 32 false)) "replicasPerScaleUp" true false true;
  mkField "ReplicasPerScaleDown" (GTPtr (GTInt 32 false)) "replicasPerScaleDown" true false true].
Definition Status_fields : list Field := [
  mkField "Conditions" (GTSlice (GTNamed (metav1 "Condition"))) "conditions" true false true].
Definition UpdateStrategy_fields : list Field := [
  mkField "Type" (GTEnum ["RollingUpdate"]) "type" true false true;
  mkField "RollingUpdate" (GTPtr (GTNamed (v1alpha1 "RollingUpdateStrategy"))) "rollingUpdate" true false true].
Definition RollingUpdateStrategy_fields : list Field := [
  mkField "MaxUnavailable" (GTPtr (GTNamed (intstr "IntOrString"))) "maxUnavailable" true false true].
Definition Container_fields : list Field := [
  mkField "Image" (GTString) "image" false false true;
  mkField "Command" (GTSlice GTString) "command" true false true;
  mkField "Args" (GTSlice GTString) "args" true false true;
  mkField "Env" (GTSlice (GTNamed (corev1 "EnvVar"))) "env" true false true;
  mkField "EnvFrom" (GTSlice (GTNamed (corev1 "EnvFromSource"))) "envFrom" true false true;
  mkField "VolumeMounts" (GTSlice (GTNamed (corev1 "VolumeMount"))) "volumeMounts" true false true;
  mkField "Resources" (GTNamed (corev1 "ResourceRequirements")) "resources" true false true;
  mkField "SecurityContext" (GTPtr (GTNamed (corev1 "SecurityContext"))) "securityContext" true false true;
  mkField "ImagePullPolicy" (GTPtr GTString) "imagePullPolicy" true false true;
  mkField "ReadinessProbe" (GTPtr (GTNamed (v1alpha1 "Probe"))) "readinessProbe" true false true;
  mkField "LivenessProbe" (GTPtr (GTNamed (v1alpha1 "Probe"))) "livenessProbe" true false true;
  mkField "StartupProbe" (GTPtr (GTNamed (v1alpha1 "Probe"))) "startupProbe" true false true;
  mkField "Ports" (GTSlice (GTNamed (corev1 "ContainerPort"))) "ports" true false true].

Definition api_structs : list (string * list Field) := [
  (v1alpha1 "AgentDeploy", AgentDeploy_fields);
  (v1alpha1 "AgentDeploySpec", AgentDeploySpec_fields);
  (v1alpha1 "Topology", Topology_fields);
  (v1alpha1 "Peer", Peer_fields);
  (v1alpha1 "AbstractAgentDeploy", AbstractAgentDeploy_fields);
  (v1alpha1 "AgentDeployStatus", AgentDeployStatus_fields);
  (v1alpha1 "AgentDeployList", AgentDeployList_fields);
  (v1alpha1 "AgentDeployTemplate", AgentDeployTemplate_fields);
  (v1alpha1 "AgentSet", AgentSet_fields);
  (v1alpha1 "AgentSetSpec", AgentSetSpec_fields);
  (v1alpha1 "ExternalAgentRef", ExternalAgentRef_fields);
  (v1alpha1 "Templates", Templates_fields);
  (v1alpha1 "DaemonTemplate", DaemonTemplate_fields);
  (v1alpha1 "AgentSetStatus", AgentSetStatus_fields);
  (v1alpha1 "AgentSetList", AgentSetList_fields);
  (v1alpha1 "ContainerTemplate", ContainerTemplate_fields);
  (v1alpha1 "DriftReload", DriftReload_fields);
  (v1alpha1 "Metadata", Metadata_fields);
  (v1alpha1 "AbstractPodTemplate", AbstractPodTemplate_fields);
  (v1alpha1 "Probe", Probe_fields);
  (v1alpha1 "RateLimit", RateLimit_fields);
  (v1alpha1 "Scale", Scale_fields);
  (v1alpha1 "Status", Status_fields);
  (v1alpha1 "UpdateStrategy", UpdateStrategy_fields);
  (v1alpha1 "RollingUpdateStrategy", RollingUpdateStrategy_fields);
  (v1alpha1 "Container", Container_fields)].

(** [metav1.TypeMeta], which the objects embed, is written as these two. *)
Definition embedded (n : string) : list Field :=
  if String.eqb n (metav1 "TypeMeta") then
    [mkField "Kind" GTString "kind" true false true; mkField "APIVersion" GTString "apiVersion" true false true]
  else [].

(** ** The schemas *)
Section definitions.
Context (ref : string → string).

Definition schema_AbstractAgentDeploy : OpenAPIDefinition := mkDefinition
  (object_of [
    ("name", with_default (DString "") (typ "string" ""));
    ("metadata", ref_to (ref (v1alpha1 "Metadata")));
    ("nodeSelector", map_of (typ "string" ""));
    ("tolerations", array_of (ref_to (ref (corev1 "Toleration"))));
    ("securityContext", ref_to (ref (corev1 "PodSecurityContext")));
    ("imagePullSecrets", with_ext [("x-kubernetes-patch-merge-key", EString "name"); ("x-kubernetes-patch-strategy", EString "merge")] (array_of (ref_to (ref (corev1 "LocalObjectReference")))));
    ("priorityClassName", typ "string" "");
    ("priority", typ "integer" "int32");
    ("affinity", ref_to (ref (corev1 "Affinity")));
    ("serviceAccountName", typ "string" "");
    ("runtimeClassName", typ "string" "");
    ("automountServiceAccountToken", typ "boolean" "");
    ("dnsPolicy", typ "string" "");
    ("dnsConfig", ref_to (ref (corev1 "PodDNSConfig")));
    ("resourceClaims", with_ext [("x-kubernetes-patch-merge-key", EString "name"); ("x-kubernetes-patch-strategy", EString "merge,retainKeys")] (array_of (ref_to (ref (corev1 "PodResourceClaim")))));
    ("terminationGracePeriodSeconds", typ "integer" "int64");
    ("container", ref_to (ref (v1alpha1 "Container")));
    ("initContainer", ref_to (ref (v1alpha1 "ContainerTemplate")));
    ("brokerContainer", ref_to (ref (v1alpha1 "ContainerTemplate")));
    ("volumes", with_ext [("x-kubernetes-patch-merge-key", EString "name"); ("x-kubernetes-patch-strategy", EString "merge")] (array_of (ref_to (ref (corev1 "Volume")))));
    ("scale", with_default DObject (ref_to (ref (v1alpha1 "Scale"))));
    ("rateLimit", ref_to (ref (v1alpha1 "RateLimit")));
    ("initContainers", array_of (ref_to (ref (corev1 "Container"))));
    ("sidecars", array_of (ref_to (ref (corev1 "Container"))));
    ("updateStrategy", with_default DObject (ref_to (ref (v1alpha1 "UpdateStrategy"))));
    ("publicBaseURL", typ "string" "");
    ("driftReload", ref_to (ref (v1alpha1 "DriftReload")))] ["name"; "container"])
  [(v1alpha1 "Container"); (v1alpha1 "ContainerTemplate"); (v1alpha1 "DriftReload"); (v1alpha1 "Metadata"); (v1alpha1 "RateLimit"); (v1alpha1 "Scale"); (v1alpha1 "UpdateStrategy"); (corev1 "Affinity"); (corev1 "Container"); (corev1 "LocalObjectReference"); (corev1 "PodDNSConfig"); (corev1 "PodResourceClaim"); (corev1 "PodSecurityContext"); (corev1 "Toleration"); (corev1 "Volume")].
Definition schema_AbstractPodTemplate : OpenAPIDefinition := mkDefinition
  (object_of [
    ("metadata", ref_to (ref (v1alpha1 "Metadata")));
    ("nodeSelector", map_of (typ "string" ""));
    ("tolerations", array_of (ref_to (ref (corev1 "Toleration"))));
    ("securityContext", ref_to (ref (corev1 "PodSecurityContext")));
    ("imagePullSecrets", with_ext [("x-kubernetes-patch-merge-key", EString "name"); ("x-kubernetes-patch-strategy", EString "merge")] (array_of (ref_to (ref (corev1 "LocalObjectReference")))));
    ("priorityClassName", typ "string" "");
    ("priority", typ "integer" "int32");
    ("affinity", ref_to (ref (corev1 "Affinity")));
    ("serviceAccountName", typ "string" "");
    ("runtimeClassName", typ "string" "");
    ("automountServiceAccountToken", typ "boolean" "");
    ("dnsPolicy", typ "string" "");
    ("dnsConfig", ref_to (ref (corev1 "PodDNSConfig")));
    ("resourceClaims", with_ext [("x-kubernetes-patch-merge-key", EString "name"); ("x-kubernetes-patch-strategy", EString "merge,retainKeys")] (array_of (ref_to (ref (corev1 "PodResourceClaim")))));
    ("terminationGracePeriodSeconds", typ "integer" "int64")] [])
  [(v1alpha1 "Metadata"); (corev1 "Affinity"); (corev1 "LocalObjectReference"); (corev1 "PodDNSConfig"); (corev1 "PodResourceClaim"); (corev1 "PodSecurityContext"); (corev1 "Toleration")].
Definition schema_AgentDeploy : OpenAPIDefinition := mkDefinition
  (object_of [
    ("kind", typ "string" "");
    ("apiVersion", typ "string" "");
    ("metadata", with_default DObject (ref_to (ref (metav1 "ObjectMeta"))));
    ("spec", with_default DObject (ref_to (ref (v1alpha1 "AgentDeploySpec"))));
    ("status", with_default DObject (ref_to (ref (v1alpha1 "AgentDeployStatus"))))] ["spec"])
  [(v1alpha1 "AgentDeploySpec"); (v1alpha1 "AgentDeployStatus"); (metav1 "ObjectMeta")].
Definition schema_AgentDeployList : OpenAPIDefinition := mkDefinition
  (object_of [
    ("kind", typ "string" "");
    ("apiVersion", typ "string" "");
    ("metadata", with_default DObject (ref_to (ref (metav1 "ListMeta"))));
    ("items", array_of (ref_to (ref (v1alpha1 "AgentDeploy"))))] ["items"])
  [(v1alpha1 "AgentDeploy"); (metav1 "ListMeta")].
Definition schema_AgentDeploySpec : OpenAPIDefinition := mkDefinition
  (object_of [
    ("name", with_default (DString "") (typ "string" ""));
    ("metadata", ref_to (ref (v1alpha1 "Metadata")));
    ("nodeSelector", map_of (typ "string" ""));
    ("tolerations", array_of (ref_to (ref (corev1 "Toleration"))));
    ("securityContext", ref_to (ref (corev1 "PodSecurityContext")));
    ("imagePullSecrets", with_ext [("x-kubernetes-patch-merge-key", EString "name"); ("x-kubernetes-patch-strategy", EString "merge")] (array_of (ref_to (ref (corev1 "LocalObjectReference")))));
    ("priorityClassName", typ "string" "");
    ("priority", typ "integer" "int32");
    ("affinity", ref_to (ref (corev1 "Affinity")));
    ("serviceAccountName", typ "string" "");
    ("runtimeClassName", typ "string" "");
    ("automountServiceAccountToken", typ "boolean" "");
    ("dnsPolicy", typ "string" "");
    ("dnsConfig", ref_to (ref (corev1 "PodDNSConfig")));
    ("resourceClaims", with_ext [("x-kubernetes-patch-merge-key", EString "name"); ("x-kubernetes-patch-strategy", EString "merge,retainKeys")] (array_of (ref_to (ref (corev1 "PodResourceClaim")))));
    ("terminationGracePeriodSeconds", typ "integer" "int64");
    ("container", ref_to (ref (v1alpha1 "Container")));
    ("initContainer", ref_to (ref (v1alpha1 "ContainerTemplate")));
    ("brokerContainer", ref_to (ref (v1alpha1 "ContainerTemplate")));
    ("volumes", with_ext [("x-kubernetes-patch-merge-key", EString "name"); ("x-kubernetes-patch-strategy", EString "merge")] (array_of (ref_to (ref (corev1 "Volume")))));
    ("scale", with_default DObject (ref_to (ref (v1alpha1 "Scale"))));
    ("rateLimit", ref_to (ref (v1alpha1 "RateLimit")));
    ("initContainers", array_of (ref_to (ref (corev1 "Container"))));
    ("sidecars", array_of (ref_to (ref (corev1 "Container"))));
    ("updateStrategy", with_default DObject (ref_to (ref (v1alpha1 "UpdateStrategy"))));
    ("publicBaseURL", typ "string" "");
    ("driftReload", ref_to (ref (v1alpha1 "DriftReload")));
    ("agentSetName", with_default (DString "") (typ "string" ""));
    ("replicas", typ "integer" "int32");
    ("topology", with_default DObject (ref_to (ref (v1alpha1 "Topology"))))] ["name"; "container"; "agentSetName"])
  [(v1alpha1 "Container"); (v1alpha1 "ContainerTemplate"); (v1alpha1 "DriftReload"); (v1alpha1 "Metadata"); (v1alpha1 "RateLimit"); (v1alpha1 "Scale"); (v1alpha1 "Topology"); (v1alpha1 "UpdateStrategy"); (corev1 "Affinity"); (corev1 "Container"); (corev1 "LocalObjectReference"); (corev1 "PodDNSConfig"); (corev1 "PodResourceClaim"); (corev1 "PodSecurityContext"); (corev1 "Toleration"); (corev1 "Volume")].
Definition schema_AgentDeployStatus : OpenAPIDefinition := mkDefinition
  (object_of [
    ("conditions", with_ext [("x-kubernetes-list-map-keys", EList ["type"]); ("x-kubernetes-list-type", EString "map"); ("x-kubernetes-patch-merge-key", EString "type"); ("x-kubernetes-patch-strategy", EString "merge")] (array_of (ref_to (ref (metav1 "Condition")))));
    ("phase", with_default (DString "") (typ "string" ""));
    ("replicas", with_default (DInt 0) (typ "integer" "int64"));
    ("desiredReplicas", with_default (DInt 0) (typ "integer" "int64"));
    ("selector", typ "string" "");
    ("reason", typ "string" "");
    ("message", typ "string" "");
    ("lastScaledAt", ref_to (ref (metav1 "Time")));
    ("observedGeneration", typ "integer" "int64");
    ("readyReplicas", typ "integer" "int64");
    ("updatedReplicas", typ "integer" "int64");
    ("updatedReadyReplicas", typ "integer" "int64");
    ("currentHash", typ "string" "");
    ("updateHash", typ "string" "")] [])
  [(metav1 "Condition"); (metav1 "Time")].
Definition schema_AgentDeployTemplate : OpenAPIDefinition := mkDefinition
  (object_of [
    ("metadata", ref_to (ref (v1alpha1 "Metadata")));
    ("nodeSelector", map_of (typ "string" ""));
    ("tolerations", array_of (ref_to (ref (corev1 "Toleration"))));
    ("securityContext", ref_to (ref (corev1 "PodSecurityContext")));
    ("imagePullSecrets", with_ext [("x-kubernetes-patch-merge-key", EString "name"); ("x-kubernetes-patch-strategy", EString "merge")] (array_of (ref_to (ref (corev1 "LocalObjectReference")))));
    ("priorityClassName", typ "string" "");
    ("priority", typ "integer" "int32");
    ("affinity", ref_to (ref (corev1 "Affinity")));
    ("serviceAccountName", typ "string" "");
    ("runtimeClassName", typ "string" "");
    ("automountServiceAccountToken", typ "boolean" "");
    ("dnsPolicy", typ "string" "");
    ("dnsConfig", ref_to (ref (corev1 "PodDNSConfig")));
    ("resourceClaims", with_ext [("x-kubernetes-patch-merge-key", EString "name"); ("x-kubernetes-patch-strategy", EString "merge,retainKeys")] (array_of (ref_to (ref (corev1 "PodResourceClaim")))));
    ("terminationGracePeriodSeconds", typ "integer" "int64");
    ("initContainer", ref_to (ref (v1alpha1 "ContainerTemplate")));
    ("brokerContainer", ref_to (ref (v1alpha1 "ContainerTemplate")))] [])
  [(v1alpha1 "ContainerTemplate"); (v1alpha1 "Metadata"); (corev1 "Affinity"); (corev1 "LocalObjectReference"); (corev1 "PodDNSConfig"); (corev1 "PodResourceClaim"); (corev1 "PodSecurityContext"); (corev1 "Toleration")].
Definition schema_AgentSet : OpenAPIDefinition := mkDefinition
  (object_of [
    ("kind", typ "string" "");
    ("apiVersion", typ "string" "");
    ("metadata", with_default DObject (ref_to (ref (metav1 "ObjectMeta"))));
    ("spec", with_default DObject (ref_to (ref (v1alpha1 "AgentSetSpec"))));
    ("status", with_default DObject (ref_to (ref (v1alpha1 "AgentSetStatus"))))] ["spec"])
  [(v1alpha1 "AgentSetSpec"); (v1alpha1 "AgentSetStatus"); (metav1 "ObjectMeta")].
Definition schema_AgentSetList : OpenAPIDefinition := mkDefinition
  (object_of [
    ("kind", typ "string" "");
    ("apiVersion", typ "string" "");
    ("metadata", with_default DObject (ref_to (ref (metav1 "ListMeta"))));
    ("items", array_of (ref_to (ref (v1alpha1 "AgentSet"))))] ["items"])
  [(v1alpha1 "AgentSet"); (metav1 "ListMeta")].
Definition schema_AgentSetSpec : OpenAPIDefinition := mkDefinition
  (object_of [
    ("pattern", with_default (DString "") (typ "string" ""));
    ("entry", with_default (DString "") (typ "string" ""));
    ("agents", with_ext [("x-kubernetes-patch-merge-key", EString "name"); ("x-kubernetes-patch-strategy", EString "merge")] (array_of (ref_to (ref (v1alpha1 "AbstractAgentDeploy")))));
    ("templates", ref_to (ref (v1alpha1 "Templates")));
    ("externalAgents", with_ext [("x-kubernetes-patch-merge-key", EString "name"); ("x-kubernetes-patch-strategy", EString "merge")] (array_of (ref_to (ref (v1alpha1 "ExternalAgentRef")))));
    ("driftReload", ref_to (ref (v1alpha1 "DriftReload")))] ["pattern"; "entry"; "agents"])
  [(v1alpha1 "AbstractAgentDeploy"); (v1alpha1 "DriftReload"); (v1alpha1 "ExternalAgentRef"); (v1alpha1 "Templates")].
Definition schema_AgentSetStatus : OpenAPIDefinition := mkDefinition
  (object_of [
    ("conditions", with_ext [("x-kubernetes-list-map-keys", EList ["type"]); ("x-kubernetes-list-type", EString "map"); ("x-kubernetes-patch-merge-key", EString "type"); ("x-kubernetes-patch-strategy", EString "merge")] (array_of (ref_to (ref (metav1 "Condition")))));
    ("phase", typ "string" "");
    ("message", typ "string" "");
    ("lastUpdated", ref_to (ref (metav1 "Time")));
    ("agentCount", typ "integer" "int64");
    ("externalAgentCount", typ "integer" "int64");
    ("observedGeneration", typ "integer" "int64")] [])
  [(metav1 "Condition"); (metav1 "Time")].
Definition schema_Container : OpenAPIDefinition := mkDefinition
  (object_of [
    ("image", with_default (DString "") (typ "string" ""));
    ("command", array_of (typ "string" ""));
    ("args", array_of (typ "string" ""));
    ("env", array_of (ref_to (ref (corev1 "EnvVar"))));
    ("envFrom", array_of (ref_to (ref (corev1 "EnvFromSource"))));
    ("volumeMounts", array_of (ref_to (ref (corev1 "VolumeMount"))));
    ("resources", with_default DObject (ref_to (ref (corev1 "ResourceRequirements"))));
    ("securityContext", ref_to (ref (corev1 "SecurityContext")));
    ("imagePullPolicy", typ "string" "");
    ("readinessProbe", ref_to (ref (v1alpha1 "Probe")));
    ("livenessProbe", ref_to (ref (v1alpha1 "Probe")));
    ("startupProbe", ref_to (ref (v1alpha1 "Probe")));
    ("ports", with_ext [("x-kubernetes-list-map-keys", EList ["containerPort"; "protocol"]); ("x-kubernetes-list-type", EString "map"); ("x-kubernetes-patch-merge-key", EString "containerPort"); ("x-kubernetes-patch-strategy", EString "merge")] (array_of (ref_to (ref (corev1 "ContainerPort")))))] [])
  [(v1alpha1 "Probe"); (corev1 "ContainerPort"); (corev1 "EnvFromSource"); (corev1 "EnvVar"); (corev1 "ResourceRequirements"); (corev1 "SecurityContext"); (corev1 "VolumeMount")].
Definition schema_ContainerTemplate : OpenAPIDefinition := mkDefinition
  (object_of [
    ("resources", with_default DObject (ref_to (ref (corev1 "ResourceRequirements"))));
    ("imagePullPolicy", typ "string" "");
    ("securityContext", ref_to (ref (corev1 "SecurityContext")));
    ("env", array_of (ref_to (ref (corev1 "EnvVar"))));
    ("envFrom", array_of (ref_to (ref (corev1 "EnvFromSource"))))] [])
  [(corev1 "EnvFromSource"); (corev1 "EnvVar"); (corev1 "ResourceRequirements"); (corev1 "SecurityContext")].
Definition schema_DaemonTemplate : OpenAPIDefinition := mkDefinition
  (object_of [
    ("metadata", ref_to (ref (v1alpha1 "Metadata")));
    ("nodeSelector", map_of (typ "string" ""));
    ("tolerations", array_of (ref_to (ref (corev1 "Toleration"))));
    ("securityContext", ref_to (ref (corev1 "PodSecurityContext")));
    ("imagePullSecrets", with_ext [("x-kubernetes-patch-merge-key", EString "name"); ("x-kubernetes-patch-strategy", EString "merge")] (array_of (ref_to (ref (corev1 "LocalObjectReference")))));
    ("priorityClassName", typ "string" "");
    ("priority", typ "integer" "int32");
    ("affinity", ref_to (ref (corev1 "Affinity")));
    ("serviceAccountName", typ "string" "");
    ("runtimeClassName", typ "string" "");
    ("automountServiceAccountToken", typ "boolean" "");
    ("dnsPolicy", typ "string" "");
    ("dnsConfig", ref_to (ref (corev1 "PodDNSConfig")));
    ("resourceClaims", with_ext [("x-kubernetes-patch-merge-key", EString "name"); ("x-kubernetes-patch-strategy", EString "merge,retainKeys")] (array_of (ref_to (ref (corev1 "PodResourceClaim")))));
    ("terminationGracePeriodSeconds", typ "integer" "int64");
    ("container", ref_to (ref (v1alpha1 "ContainerTemplate")))] [])
  [(v1alpha1 "ContainerTemplate"); (v1alpha1 "Metadata"); (corev1 "Affinity"); (corev1 "LocalObjectReference"); (corev1 "PodDNSConfig"); (corev1 "PodResourceClaim"); (corev1 "PodSecurityContext"); (corev1 "Toleration")].
Definition schema_DriftReload : OpenAPIDefinition := mkDefinition
  (object_of [
    ("enabled", typ "boolean" "")] [])
  [].
Definition schema_ExternalAgentRef : OpenAPIDefinition := mkDefinition
  (object_of [
    ("name", with_default (DString "") (typ "string" ""));
    ("url", with_default (DString "") (typ "string" ""))] ["name"; "url"])
  [].
Definition schema_Metadata : OpenAPIDefinition := mkDefinition
  (object_of [
    ("annotations", map_of (typ "string" ""));
    ("labels", map_of (typ "string" ""))] [])
  [].
Definition schema_Peer : OpenAPIDefinition := mkDefinition
  (object_of [
    ("name", with_default (DString "") (typ "string" ""));
    ("kind", typ "string" "");
    ("url", typ "string" "")] ["name"])
  [].
Definition schema_Probe : OpenAPIDefinition := mkDefinition
  (object_of [
    ("initialDelaySeconds", typ "integer" "int32");
    ("timeoutSeconds", typ "integer" "int32");
    ("periodSeconds", typ "integer" "int32");
    ("successThreshold", typ "integer" "int32");
    ("failureThreshold", typ "integer" "int32")] [])
  [].
Definition schema_RateLimit : OpenAPIDefinition := mkDefinition
  (object_of [
    ("maxInFlight", typ "integer" "int32")] [])
  [].
Definition schema_RollingUpdateStrategy : OpenAPIDefinition := mkDefinition
  (object_of [
    ("maxUnavailable", ref_to (ref (intstr "IntOrString")))] [])
  [(intstr "IntOrString")].
Definition schema_Scale : OpenAPIDefinition := mkDefinition
  (object_of [
    ("disabled", typ "boolean" "");
    ("min", typ "integer" "int32");
    ("max", typ "integer" "int32");
    ("targetSaturationPercentage", typ "integer" "int64");
    ("scaleUpCooldownSeconds", typ "integer" "int64");
    ("scaleDownCooldownSeconds", typ "integer" "int64");
    ("replicasPerScaleUp", typ "integer" "int64");
    ("replicasPerScaleDown", typ "integer" "int64")] [])
  [].
Definition schema_Status : OpenAPIDefinition := mkDefinition
  (object_of [
    ("conditions", with_ext [("x-kubernetes-list-map-keys", EList ["type"]); ("x-kubernetes-list-type", EString "map"); ("x-kubernetes-patch-merge-key", EString "type"); ("x-kubernetes-patch-strategy", EString "merge")] (array_of (ref_to (ref (metav1 "Condition")))))] [])
  [(metav1 "Condition")].
Definition schema_Templates : OpenAPIDefinition := mkDefinition
  (object_of [
    ("agent", ref_to (ref (v1alpha1 "AgentDeployTemplate")));
    ("daemon", ref_to (ref (v1alpha1 "DaemonTemplate")))] [])
  [(v1alpha1 "AgentDeployTemplate"); (v1alpha1 "DaemonTemplate")].
Definition schema_Topology : OpenAPIDefinition := mkDefinition
  (object_of [
    ("pattern", typ "string" "");
    ("isEntry", typ "boolean" "");
    ("peers", array_of (ref_to (ref (v1alpha1 "Peer"))))] [])
  [(v1alpha1 "Peer")].
Definition schema_UpdateStrategy : OpenAPIDefinition := mkDefinition
  (object_of [
    ("type", with_enum ["RollingUpdate"] (typ "string" ""));
    ("rollingUpdate", ref_to (ref (v1alpha1 "RollingUpdateStrategy")))] [])
  [(v1alpha1 "RollingUpdateStrategy")].

Definition GetOpenAPIDefinitions : list (string * OpenAPIDefinition) := [
  (v1alpha1 "AbstractAgentDeploy", schema_AbstractAgentDeploy);
  (v1alpha1 "AbstractPodTemplate", schema_AbstractPodTemplate);
  (v1alpha1 "AgentDeploy", schema_AgentDeploy);
  (v1alpha1 "AgentDeployList", schema_AgentDeployList);
  (v1alpha1 "AgentDeploySpec", schema_AgentDeploySpec);
  (v1alpha1 "AgentDeployStatus", schema_AgentDeployStatus);
  (v1alpha1 "AgentDeployTemplate", schema_AgentDeployTemplate);
  (v1alpha1 "AgentSet", schema_AgentSet);
  (v1alpha1 "AgentSetList", schema_AgentSetList);
  (v1alpha1 "AgentSetSpec", schema_AgentSetSpec);
  (v1alpha1 "AgentSetStatus", schema_AgentSetStatus);
  (v1alpha1 "Container", schema_Container);
  (v1alpha1 "ContainerTemplate", schema_ContainerTemplate);
  (v1alpha1 "DaemonTemplate", schema_DaemonTemplate);
  (v1alpha1 "DriftReload", schema_DriftReload);
  (v1alpha1 "ExternalAgentRef", schema_ExternalAgentRef);
  (v1alpha1 "Metadata", schema_Metadata);
  (v1alpha1 "Peer", schema_Peer);
  (v1alpha1 "Probe", schema_Probe);
  (v1alpha1 "RateLimit", schema_RateLimit);
  (v1alpha1 "RollingUpdateStrategy", schema_RollingUpdateStrategy);
  (v1alpha1 "Scale", schema_Scale);
  (v1alpha1 "Status", schema_Status);
  (v1alpha1 "Templates", schema_Templates);
  (v1alpha1 "Topology", schema_Topology);
  (v1alpha1 "UpdateStrategy", schema_UpdateStrategy)].
End definitions.

Definition assoc {A} (l : list (string * A)) (n : string) : option A :=
  snd <$> find (λ kv, String.eqb kv.1 n) l.
Definition api_struct : string → option (list Field) := assoc api_structs.
Definition api_schema (n : string) : option Schema := od_Schema <$> assoc (GetOpenAPIDefinitions (λ n, n)) n.

(** ** Schemas and structs agree *)
Lemma assoc_elem {A} (l : list (string * A)) n : is_Some (assoc l n) ↔ n ∈ l.*1.
Proof.
  unfold assoc. split.
  - destruct (find _ l) as [[k x]|] eqn:E; [|by intros [? [=]]]. intros _.
    apply find_some in E as [Hin%list_elem_of_In Hk%String.eqb_eq]. cbn in Hk. subst k.
    exact (list_elem_of_fmap_2 fst _ _ Hin).
  - intros ([k x] & Hk & Hin)%list_elem_of_fmap. cbn in Hk. subst k. destruct (find _ l) as [y|] eqn:E; [by eexists|].
    exfalso. apply list_elem_of_In in Hin. apply (find_none _ _ E) in Hin. cbn in Hin. by rewrite String.eqb_refl in Hin.
Qed.

Lemma schemas_agree :
  forallb (agrees_def api_struct embedded api_schema 3) (GetOpenAPIDefinitions (λ n, n)).*1 = true.
Proof. vm_compute. reflexivity. Qed.
Lemma same_names : bool_decide (api_structs.*1 ⊆ (GetOpenAPIDefinitions (λ n, n)).*1) = true.
Proof. vm_compute. reflexivity. Qed.

(** C21: what the API types are written as conforms to the schemas published
    for them.  For every type of the API group and every value of it ([typed])
    in which the references that are always written are set and the values of
    Kubernetes types (metadata, times, container specs) are themselves written
    as Kubernetes publishes them, the JSON that [encoding/json] makes of it is
    valid, down through embedded and referenced types; a schema has no
    property that the type has no field for, and requires exactly the fields
    that are always written and not marked optional.  A status whose time is
    not set is not covered, whatever else it holds: a zero [metav1.Time] is
    written as null (the tag's [omitempty] does not drop a struct), and that
    does not conform ([zero_time_does_not_conform]). *)
Theorem written_objects_conform foreign n v :
  n ∈ api_structs.*1 → typed api_struct embedded api_schema foreign (GTNamed n) v →
  valid api_schema foreign (ref_to n) (marshal v) ∧
  ∃ s fs ws, api_schema n = Some s ∧ api_struct n = Some fs ∧ written api_struct embedded 3 fs = Some ws ∧
    (s_Properties s).*1 = fd_json <$> ws ∧
    s_Required s = fd_json <$> filter (λ f, fd_omitempty f = false ∧ fd_optional f = false) ws.
Proof.
  intros Hn Ht. assert (∀ n, is_Some (api_schema n) → agrees_def api_struct embedded api_schema 3 n = true) as Hag.
  { intros m Hm. pose proof schemas_agree as Ha. rewrite forallb_forall in Ha. apply Ha, list_elem_of_In, assoc_elem.
    unfold api_schema in Hm. by rewrite fmap_is_Some in Hm. }
  assert (is_Some (api_schema n)) as Hs.
  { unfold api_schema. rewrite fmap_is_Some. apply assoc_elem. revert Hn.
    enough (api_structs.*1 ⊆ (GetOpenAPIDefinitions (λ n, n)).*1) as Hsub by apply Hsub.
    exact (proj1 (bool_decide_eq_true _) same_names). }
  assert (is_Some (api_struct n)) as Hf by (by apply assoc_elem). split.
  - apply (marshalled_conforms api_struct embedded api_schema foreign 3); try done.
    + intros m f. unfold embedded.
      destruct (String.eqb m (metav1 "TypeMeta")); [|by intros ?%not_elem_of_nil].
      intros [->|[->|?%not_elem_of_nil]%elem_of_cons]%elem_of_cons; done.
    + unfold embedded. destruct (String.eqb_spec n (metav1 "TypeMeta")) as [->|]; [|done]. by destruct Hf.
  - pose proof (Hag n Hs) as Ha. unfold agrees_def in Ha. destruct Hs as [s Es], Hf as [fs Ef]. rewrite Es, Ef in Ha.
    destruct (written api_struct embedded 3 fs) as [ws|] eqn:Ew; [|done].
    rewrite !andb_true_iff, !bool_decide_eq_true in Ha. destruct Ha as [[[[_ _] Hk] _] Hreq].
    by exists s, fs, ws.
Qed.

(** What Kubernetes publishes for [metav1.Time] (its other schemas are a
    parameter): a string, and never null. *)
Definition time_schema : Schema := typ "string" "date-time".

(** A status with a time that is not set does not conform: [encoding/json]
    writes the zero [metav1.Time] as null. *)
Theorem zero_time_does_not_conform foreign n name fs :
  (n, name) ∈ [(v1alpha1 "AgentDeployStatus", "lastScaledAt"); (v1alpha1 "AgentSetStatus", "lastUpdated")] →
  foreign (metav1 "Time") = Some time_schema →
  (mkField (if String.eqb name "lastScaledAt" then "LastScaledAt" else "LastUpdated") (GTNamed (metav1 "Time"))
     name true false true, GExt JNull) ∈ fs →
  ¬ valid api_schema foreign (ref_to n) (marshal (GStruct fs)).
Proof.
  intros Hn Htime Hin Hv.
  assert ((name, JNull) ∈ members (marshal (GStruct fs))) as Hm.
  { cbn [marshal members]. apply list_elem_of_In, in_flat_map. eexists. split; [by apply list_elem_of_In|]. by left. }
  revert Hm Hv. generalize (marshal (GStruct fs)). intros j0 Hm Hv.
  assert (∃ s, published api_schema foreign n = Some s ∧
    Forall (λ kt, kt.1 = name → kt.2 = ref_to (metav1 "Time")) (s_Properties s) ∧ s_Ref s = None ∧
    s_AdditionalProperties s = None) as (s & Es & Hall & Hr & Hap).
  { revert Hn. rewrite !elem_of_cons, elem_of_nil. intros [[= -> ->]|[[= -> ->]|[]]];
      (eexists; split; [vm_compute; reflexivity|]; split; [|done]);
      repeat (apply Forall_cons; split; [by intros|]); apply Forall_nil; done. }
  inversion Hv as [? n' s' j E1 E2 Hv'| | | | | | |]; subst; try done. cbn in E1. simplify_eq.
  inversion Hv' as [? n2 s2 j2 E3| | | | | |? t ms _ E4|? ms _ _ _ Hms]; subst; try congruence;
    cbn [members] in Hm; try (by apply not_elem_of_nil in Hm).
  destruct (Hms _ _ Hm) as (t & Ht & Hvt). rewrite Forall_forall in Hall. pose proof (Hall _ Ht eq_refl) as Et.
  cbn in Et. subst t. inversion Hvt as [? n3 s3 j3 E5 E6 Hv3| | | | | | |]; subst. cbn in E5. simplify_eq.
  unfold published in E6. change (api_schema (metav1 "Time")) with (@None Schema) in E6. simplify_eq.
  by inversion Hv3.
Qed.

(** ** Assembling the specification *)

(** [strings.ReplaceAll] for a non-empty [old]; [skip] bytes are still covered
    by the last match. *)
Fixpoint replace_from (old new : string) (skip : nat) (s : string) : string :=
  match s with
  | EmptyString => EmptyString
  | String c s' =>
      match skip with
      | S k => replace_from old new k s'
      | O => if String.prefix old s then new +:+ replace_from old new (String.length old - 1) s'
             else String c (replace_from old new 0 s')
      end
  end.
Definition ReplaceAll (s old new : string) : string := replace_from old new 0 s.

Definition swaggify (name : string) : string :=
  let name := ReplaceAll name "github.com/kynoproj/kynomesh/pkg/apis/kynomesh" "kynomesh.kyno.sh" in
  match GoStrings.Split name "/" with
  | [] => ""
  | host :: parts => GoStrings.Join (GoStrings.Join (reverse (GoStrings.Split host ".")) "." :: parts) "."
  end.

Definition spec_version (version : string) : string :=
  if negb (String.eqb version "latest") && negb (GoStrings.HasPrefix version "v") then "v" +:+ version else version.

(** Definitions missing from the specification of Kubernetes. *)
Definition missingMachinerySwagger : list (string * Schema) :=
  [("io.k8s.apimachinery.pkg.apis.meta.v1.Duration", mkSchema ["string"] "" None [] None None None [] [] [])].

Definition getKubernetesSwagger (file : gmap string Schema) : gmap string Schema :=
  foldl (λ m kv, <[kv.1 := kv.2]> m) file missingMachinerySwagger.

Section spec.
(** [common.EscapeJsonPointer], and the definitions in the file of Kubernetes. *)
Context (EscapeJsonPointer : string → string) (file : gmap string Schema).

Definition referenceCallback (name : string) : string := "#/definitions/" +:+ EscapeJsonPointer (swaggify name).

(** The [definitions] of the swagger; [ds] are the generated ones in the order
    the map is ranged over. *)
Definition definitions (ds : list (string * OpenAPIDefinition)) : gmap string Schema :=
  let defs := foldl (λ defs kv, <[swaggify kv.1 := od_Schema kv.2]> defs) ∅ ds in
  let dependencies := ds ≫= λ kv, od_Dependencies kv.2 in
  let k8s := getKubernetesSwagger file in
  let defs := foldl (λ defs dep,
    if negb (GoStrings.Contains dep "k8s.io") then defs
    else match k8s !! swaggify dep with Some kd => <[swaggify dep := kd]> defs | None => defs end)
    defs dependencies in
  k8s ∪ defs.
End spec.

(** The references of a schema. *)
Fixpoint refs (s : Schema) : list string :=
  match s_Ref s with Some r => [r] | None => [] end ++
  match s_Items s with Some t => refs t | None => [] end ++
  match s_AdditionalProperties s with Some (_, Some t) => refs t | _ => [] end ++
  (fix go ps := match ps with [] => [] | (_, t) :: ps => refs t ++ go ps end) (s_Properties s).

(** ** References resolve *)

Lemma refs_callback ref :
  map (λ kv, (kv.1, refs (od_Schema kv.2), od_Dependencies kv.2)) (GetOpenAPIDefinitions ref) =
  map (λ kv, (kv.1, map ref (refs (od_Schema kv.2)), od_Dependencies kv.2)) (GetOpenAPIDefinitions (λ n, n)).
Proof. vm_compute. reflexivity. Qed.

Definition local_name (n : string) : bool := existsb (String.eqb n) (GetOpenAPIDefinitions (λ n, n)).*1.
Definition is_k8s (n : string) : bool := GoStrings.HasPrefix (swaggify n) "io.k8s." && GoStrings.Contains n "k8s.io".

(** The dependencies of a definition are its references, to definitions of
    ours and of Kubernetes, and none needs escaping. *)
Definition deps_ok (kv : string * OpenAPIDefinition) : bool :=
  bool_decide (refs (od_Schema kv.2) ⊆ od_Dependencies kv.2) &&
  bool_decide (od_Dependencies kv.2 ⊆ refs (od_Schema kv.2)) &&
  forallb (λ n, (local_name n || is_k8s n) &&
                negb (GoStrings.has_byte "~" (swaggify n)) && negb (GoStrings.has_byte "/" (swaggify n)))
    (od_Dependencies kv.2) &&
  GoStrings.HasPrefix (swaggify kv.1) "sh.kyno.kynomesh.".

Lemma all_deps_ok : forallb deps_ok (GetOpenAPIDefinitions (λ n, n)) = true.
Proof. vm_compute. reflexivity. Qed.
Lemma swaggified_unique : bool_decide (NoDup (map swaggify (GetOpenAPIDefinitions (λ n, n)).*1)) = true.
Proof. vm_compute. reflexivity. Qed.

Lemma definition_refs ref n d :
  (n, d) ∈ GetOpenAPIDefinitions ref →
  local_name n = true ∧ GoStrings.HasPrefix (swaggify n) "sh.kyno.kynomesh." = true ∧
  ∀ r, r ∈ refs (od_Schema d) → ∃ m, r = ref m ∧ m ∈ od_Dependencies d ∧ (local_name m || is_k8s m = true) ∧
    GoStrings.has_byte "~" (swaggify m) = false ∧ GoStrings.has_byte "/" (swaggify m) = false.
Proof.
  intros Hin.
  assert ((n, refs (od_Schema d), od_Dependencies d) ∈
    map (λ kv, (kv.1, refs (od_Schema kv.2), od_Dependencies kv.2)) (GetOpenAPIDefinitions ref)) as Hm
    by exact (list_elem_of_fmap_2 (λ kv : string * OpenAPIDefinition, (kv.1, refs (od_Schema kv.2), od_Dependencies kv.2)) _ _ Hin).
  rewrite refs_callback in Hm. apply list_elem_of_fmap in Hm as ([n' d'] & E & Hin'). cbn in E. injection E as -> Er Ed.
  pose proof all_deps_ok as Ha. rewrite forallb_forall in Ha. specialize (Ha _ (proj1 (list_elem_of_In _ _) Hin')).
  unfold deps_ok in Ha. cbn [fst snd] in Ha. rewrite !andb_true_iff, !bool_decide_eq_true, forallb_forall in Ha.
  destruct Ha as [[[Hsub _] Hall] Hp]. split_and!; [|done|].
  - apply existsb_exists. exists n'. split; [|apply String.eqb_refl]. apply list_elem_of_In.
    exact (list_elem_of_fmap_2 fst _ _ Hin').
  - intros r Hr. rewrite Er in Hr. apply list_elem_of_fmap in Hr as (m & -> & Hm). exists m.
    specialize (Hall m). rewrite !andb_true_iff, !negb_true_iff in Hall.
    destruct Hall as [[? ?] ?]; [by apply list_elem_of_In, Hsub|]. rewrite Ed. split_and!; try done. by apply Hsub.
Qed.

Lemma foldl_insert_lookup {A B} (f : A → string) (g : A → B) l : ∀ (m : gmap string B) x,
  NoDup (map f l) → x ∈ l → foldl (λ m x, <[f x := g x]> m) m l !! f x = Some (g x).
Proof.
  induction l as [|y l IH] using rev_ind; intros m x Hnd Hx; [by apply not_elem_of_nil in Hx|].
  rewrite foldl_app. cbn. rewrite map_app, NoDup_app in Hnd. destruct Hnd as (Hnd & Hd & _).
  apply elem_of_app in Hx as [Hx|Hx%list_elem_of_singleton]; [|subst; apply lookup_insert_eq].
  rewrite lookup_insert_ne; [by apply IH|]. intros E. apply (Hd (f x)); [by apply list_elem_of_fmap_2|]. rewrite <- E. by left.
Qed.

Lemma deps_keep (k8s : gmap string Schema) k deps : ∀ defs : gmap string Schema,
  k8s !! k = None →
  foldl (λ defs dep,
    if negb (GoStrings.Contains dep "k8s.io") then defs
    else match k8s !! swaggify dep with Some kd => <[swaggify dep := kd]> defs | None => defs end)
    defs deps !! k = defs !! k.
Proof.
  induction deps as [|dep deps IH]; intros defs Hk; [done|]. cbn. rewrite IH by done.
  destruct (negb _); [done|]. destruct (k8s !! swaggify dep) as [kd|] eqn:E; [|done].
  apply lookup_insert_ne. congruence.
Qed.

(** In the assembled specification every definition of ours is there, and each
    of its references points at a definition: the specification of Kubernetes
    is read from a file that has the types ours depend on, under its own
    names. *)
Theorem references_resolve EscapeJsonPointer (file : gmap string Schema) ds :
  (∀ s, GoStrings.has_byte "~" s = false → GoStrings.has_byte "/" s = false → EscapeJsonPointer s = s) →
  (∀ k, is_Some (file !! k) → GoStrings.HasPrefix k "io.k8s." = true) →
  (∀ n d m, (n, d) ∈ ds → m ∈ od_Dependencies d → is_k8s m = true → is_Some (file !! swaggify m)) →
  ds ≡ₚ GetOpenAPIDefinitions (referenceCallback EscapeJsonPointer) →
  ∀ n d, (n, d) ∈ ds →
    definitions file ds !! swaggify n = Some (od_Schema d) ∧
    ∀ r, r ∈ refs (od_Schema d) → ∃ target, r = "#/definitions/" +:+ target ∧ is_Some (definitions file ds !! target).
Proof.
  intros Hesc Hfile Hdep Hds.
  assert (∀ n d, (n, d) ∈ ds → definitions file ds !! swaggify n = Some (od_Schema d)) as Hown.
  { intros n d Hin. pose proof Hin as Hin'. rewrite Hds in Hin'. destruct (definition_refs _ _ _ Hin') as (_ & Hp & _).
    assert (getKubernetesSwagger file !! swaggify n = None) as Hn.
    { unfold getKubernetesSwagger. cbn. rewrite lookup_insert_ne by (intros E; by rewrite <- E in Hp).
      apply eq_None_not_Some. intros Hk%Hfile. apply GoStrings.prefix_inv in Hp as [t E]. by rewrite E in Hk. }
    unfold definitions. rewrite lookup_union_r, deps_keep by done.
    apply (foldl_insert_lookup (λ kv : string * OpenAPIDefinition, swaggify kv.1) (λ kv, od_Schema kv.2) ds ∅ (n, d)); [|done].
    rewrite Hds. pose proof (proj1 (bool_decide_eq_true _) swaggified_unique) as Hu. by rewrite map_map in Hu. }
  intros n d Hin. split; [by apply Hown|]. intros r Hr. pose proof Hin as Hin'. rewrite Hds in Hin'.
  destruct (definition_refs _ _ _ Hin') as (_ & _ & Hrefs). destruct (Hrefs r Hr) as (m & -> & Hm & Hk & Ht & Hs).
  exists (swaggify m). unfold referenceCallback. rewrite Hesc by done. split; [done|].
  apply orb_true_iff in Hk as [Hl|Hk].
  - apply existsb_exists in Hl as (m' & Hm'%list_elem_of_In & ->%String.eqb_eq).
    assert (∃ d', (m', d') ∈ ds) as [d' Hd'].
    { assert (m' ∈ ds.*1) as ([k d'] & -> & ?)%list_elem_of_fmap; [|by exists d']. by rewrite Hds. }
    by rewrite (Hown _ _ Hd').
  - unfold definitions, getKubernetesSwagger. cbn. destruct (Hdep n d m Hin Hm Hk) as [s Es].
    apply lookup_union_is_Some. left. by apply lookup_insert_is_Some; destruct (decide (swaggify m = "io.k8s.apimachinery.pkg.apis.meta.v1.Duration")); [left|right].
Qed.

(** ** Removing the defaults

    The written specification is read back as JSON and the [default]s of its
    properties are deleted; [None] is a failed type assertion. *)
Definition member (k : string) (j : json) : option json :=
  match j with JObject ms => assoc ms k | _ => None end.
Definition del (k : string) (ms : list (string * json)) : list (string * json) := filter (λ kv, kv.1 ≠ k) ms.
Definition on_member (k : string) (f : json → json) (ms : list (string * json)) : list (string * json) :=
  map (λ kv, if String.eqb kv.1 k then (kv.1, f kv.2) else kv) ms.
Definition drop_default (j : json) : json :=
  match j with JObject ms => JObject (del "default" ms) | _ => j end.

Definition strip_prop (prop : json) : option json :=
  match prop with
  | JObject ms =>
      Some (JObject (on_member "additionalProperties" drop_default (on_member "items" drop_default (del "default" ms))))
  | _ => None
  end.
(** A loop over the values of a map. *)
Definition each (f : json → option json) (ms : list (string * json)) : option (list (string * json)) :=
  mapM (λ kv, v ← f kv.2; Some (kv.1, v)) ms.
Definition strip_def (d : json) : option json :=
  match d with
  | JObject ms =>
      ms ← match assoc ms "properties" with
           | Some (JObject props) => props' ← each strip_prop props; Some (on_member "properties" (λ _, JObject props') ms)
           | _ => Some ms
           end;
      Some (JObject (on_member "additionalProperties" drop_default ms))
  | _ => None
  end.
Definition strip_defaults (swaggerObj : json) : option json :=
  match swaggerObj with
  | JObject ms =>
      match assoc ms "definitions" with
      | Some (JObject ds) => ds' ← each strip_def ds; Some (JObject (on_member "definitions" (λ _, JObject ds') ms))
      | _ => None
      end
  | _ => None
  end.

Lemma assoc_cons {A} k (x : A) l n : assoc ((k, x) :: l) n = if String.eqb k n then Some x else assoc l n.
Proof. unfold assoc. cbn. by destruct (String.eqb k n). Qed.

Lemma assoc_del ms k n : assoc (del k ms) n = if String.eqb k n then None else assoc ms n.
Proof.
  unfold del. induction ms as [|[k' x] ms IH]; [by destruct (String.eqb k n)|]. rewrite filter_cons. cbn [fst].
  case_decide as Hk; rewrite ?assoc_cons, IH; 
    destruct (String.eqb_spec k n), (String.eqb_spec k' n); congruence || naive_solver.
Qed.

Lemma assoc_on_member ms k f n :
  assoc (on_member k f ms) n = if String.eqb k n then f <$> assoc ms n else assoc ms n.
Proof.
  unfold on_member. induction ms as [|[k' x] ms IH]; cbn [map fst snd]; [by destruct (String.eqb k n)|].
  destruct (String.eqb_spec k' k) as [->|Hne]; rewrite !assoc_cons, IH.
  - by destruct (String.eqb_spec k n).
  - destruct (String.eqb_spec k n), (String.eqb_spec k' n); congruence.
Qed.

Lemma each_assoc f ms ms' n v : each f ms = Some ms' → assoc ms' n = Some v → ∃ u, assoc ms n = Some u ∧ f u = Some v.
Proof.
  unfold each. rewrite mapM_Some. induction 1 as [|[k u] [k' v'] ms ms' E _ IH]; [done|].
  cbn in E. destruct (f u) as [w|] eqn:Ew; [|done]. injection E as <- <-. rewrite !assoc_cons.
  destruct (String.eqb k n); [|done]. intros [= <-]. by exists u.
Qed.

Definition no_default (j : json) : Prop := member "default" j = None.
Lemma dropped j : no_default (drop_default j).
Proof. destruct j as [| | | | |ms]; try done. unfold no_default. cbn. by rewrite assoc_del. Qed.

Lemma strip_prop_clean p p' : strip_prop p = Some p' →
  no_default p' ∧ (∀ i, member "items" p' = Some i → no_default i) ∧
  ∀ i, member "additionalProperties" p' = Some i → no_default i.
Proof.
  destruct p as [| | | | |ms]; try done. intros [= <-]. unfold no_default at 1. cbn [member].
  rewrite !assoc_on_member, !assoc_del. cbn. split; [done|].
  split; intros i Hi; destruct (assoc ms _); try done; injection Hi as <-; apply dropped.
Qed.

Lemma additional_dropped us i :
  member "additionalProperties" (JObject (on_member "additionalProperties" drop_default us)) = Some i → no_default i.
Proof.
  cbn [member]. rewrite assoc_on_member. cbn. destruct (assoc us "additionalProperties"); [|done].
  intros [= <-]. apply dropped.
Qed.

(** After the clean-up no property of a definition has a default, nor has what
    it is a list or a map of. *)
Theorem stripped_has_no_default sw sw' n d :
  strip_defaults sw = Some sw' → member "definitions" sw' ≫= member n = Some d →
  (∀ p prop, member "properties" d ≫= member p = Some prop →
     no_default prop ∧ (∀ i, member "items" prop = Some i → no_default i) ∧
     (∀ i, member "additionalProperties" prop = Some i → no_default i)) ∧
  (∀ i, member "additionalProperties" d = Some i → no_default i).
Proof.
  destruct sw as [| | | | |ms]; try done. unfold strip_defaults.
  destruct (assoc ms "definitions") as [[| | | | |ds]|] eqn:Ed; try done.
  destruct (each strip_def ds) as [ds'|] eqn:Es; [|done]. intros [= <-] Hd.
  cbn [member] in Hd. rewrite assoc_on_member, Ed in Hd. cbn in Hd.
  destruct (each_assoc _ _ _ _ _ Es Hd) as (u & _ & Hu). clear Hd Es Ed.
  destruct u as [| | | | |us]; try done. cbn in Hu.
  destruct (assoc us "properties") as [[| | | | |props]|] eqn:Ep.
  all: cbn in Hu; try (injection Hu as <-; split; [|apply additional_dropped];
    intros p prop; cbn [member]; rewrite assoc_on_member, Ep; cbn; discriminate).
  destruct (each strip_prop props) as [props'|] eqn:E; [|done]. injection Hu as <-. split; [|apply additional_dropped].
  intros p prop. cbn [member]. rewrite !assoc_on_member, Ep. cbn. intros Hp.
  destruct (each_assoc _ _ _ _ _ E Hp) as (q & _ & Hq). by apply (strip_prop_clean q).
Qed.

(** ** Examples *)
(** The status of an AgentSet that was updated at some time. *)
Definition ex_set_status : gval := GStruct (zip AgentSetStatus_fields
  [GStruct (zip Status_fields [GNil]); GString "Running"; GString ""; GExt (JString "2026-01-01T00:00:00Z");
   GPtr (GInt 2); GNil; GInt 7]).
Definition ex_foreign (n : string) : option Schema :=
  if String.eqb n (metav1 "Time") then Some time_schema else None.

Lemma written_objects_conform_witness :
  marshal ex_set_status = JObject [("phase", JString "Running"); ("lastUpdated", JString "2026-01-01T00:00:00Z");
    ("agentCount", JNumber 2); ("observedGeneration", JNumber 7)] ∧
  valid api_schema ex_foreign (ref_to (v1alpha1 "AgentSetStatus")) (marshal ex_set_status).
Proof.
  split; [reflexivity|].
  refine (proj1 (written_objects_conform ex_foreign (v1alpha1 "AgentSetStatus") ex_set_status _ _)).
  - apply (bool_decide_eq_true_1 _). vm_compute. reflexivity.
  - split; [reflexivity|]. cbn [foldr ex_set_status zip zip_with AgentSetStatus_fields fd_type fd_omitempty typed].
    split_and!; try done; try (by intros ?); try (unfold int_range; lia).
    rewrite bool_decide_eq_true_2 by reflexivity.
    eapply valid_ref; [reflexivity|vm_compute; reflexivity|]. apply valid_string; [reflexivity|by left].
Defined.

Definition ex_file : gmap string Schema :=
  list_to_map (map (λ m, (swaggify m, typ "object" ""))
    (filter (λ m, is_k8s m = true) (GetOpenAPIDefinitions (λ n, n) ≫= λ kv, od_Dependencies kv.2))).

Definition ex_defs : list (string * OpenAPIDefinition) := GetOpenAPIDefinitions (referenceCallback (λ s, s)).

Lemma references_resolve_witness :
  swaggify (v1alpha1 "AgentSet") = "sh.kyno.kynomesh.v1alpha1.AgentSet" ∧
  definitions ex_file ex_defs !! swaggify (v1alpha1 "AgentSet") =
    Some (od_Schema (schema_AgentSet (referenceCallback (λ s, s)))).
Proof.
  split; [vm_compute; reflexivity|].
  refine (proj1 (references_resolve (λ s, s) ex_file ex_defs _ _ _ _ (v1alpha1 "AgentSet")
            (schema_AgentSet (referenceCallback (λ s, s))) _)).
  - done.
  - assert (map_Forall (λ k _, GoStrings.HasPrefix k "io.k8s." = true) ex_file) as Hf
      by (apply (bool_decide_eq_true_1 _); vm_compute; reflexivity).
    intros k [s Hs]. by apply (Hf k s).
  - assert (Forall (λ kv, Forall (λ m, is_k8s m = true → is_Some (ex_file !! swaggify m)) (od_Dependencies kv.2)) ex_defs) as Hf
      by (apply (bool_decide_eq_true_1 _); vm_compute; reflexivity).
    intros n d m Hin Hm. rewrite Forall_forall in Hf. specialize (Hf _ Hin). rewrite Forall_forall in Hf. by apply Hf.
  - done.
  - unfold ex_defs, GetOpenAPIDefinitions. do 7 right. by left.
Defined.

Lemma stripped_has_no_default_witness :
  no_default (JObject [("type", JString "string")]) ∧ strip_defaults
    (JObject [("definitions", JObject [("d", JObject [("properties",
       JObject [("p", JObject [("default", JString ""); ("type", JString "string")])])])])]) =
    Some (JObject [("definitions", JObject [("d", JObject [("properties",
       JObject [("p", JObject [("type", JString "string")])])])])]).
Proof.
  split; [|reflexivity].
  refine (proj1 (proj1 (stripped_has_no_default
    (JObject [("definitions", JObject [("d", JObject [("properties",
       JObject [("p", JObject [("default", JString ""); ("type", JString "string")])])])])])
    _ "d" _ eq_refl eq_refl) "p" _ eq_refl)).
Defined.
End OpenApi.
