(* ===== verification/BuildTools.v ===== *)
(** * The tools that publish schemas ([hack])

    [hack/gen-openapi-spec/main.go] writes the specification of the API group,
    [hack/json-schema/main.go] makes a JSON schema of it for editors, and
    [hack/crdgen/crd.go] strips the generated custom resource definitions.
    Documents are trees ([json] of [Schemas]); [interface{}] values are type
    asserted where the code does, and [None] is the panic of a failed
    assertion, of a failed read, or a call of [log.Fatal].  A change of a nested map is a
    change of the document it belongs to, since Go maps are shared.  Files are a
    map of texts; the JSON and YAML codecs are parameters. *)
From S2P Require Import Prelude GoStrings Schemas OpenApi.
#[local] Open Scope Z_scope.

Module BuildTools.
Import GoStrings Schemas OpenApi.

Definition obj : Type := list (string * json).

(** [x.(obj)], [x.([]interface{})]. *)
Definition as_obj (x : option json) : option obj := match x with Some (JObject ms) => Some ms | _ => None end.
Definition as_array (x : option json) : option (list json) := match x with Some (JArray l) => Some l | _ => None end.

(** [m[k] = v]. *)
Definition set_key (k : string) (v : json) (ms : obj) : obj :=
  match assoc ms k with
  | Some _ => on_member k (λ _, v) ms
  | None => ms ++ [(k, v)]
  end.
(** Changes to the map found at [k]. *)
Definition in_obj (k : string) (f : obj → option obj) (ms : obj) : option obj :=
  o ← as_obj (assoc ms k); o' ← f o; Some (on_member k (λ _, JObject o') ms).

(** ** [crdgen] *)
Definition preserved : obj := [("type", JString "object"); ("x-kubernetes-preserve-unknown-fields", JBool true)].

Definition updateSpecProperties (specObj : obj) (filename : string) : option obj :=
  if HasSuffix filename "_monovertices.yaml" || HasSuffix filename "_vertices.yaml" then
    match assoc specObj "properties" with
    | None => Some preserved
    | Some props =>
        specPropsObj ← as_obj (Some props);
        Some (match assoc specPropsObj "replicas" with
              | Some replicas => set_key "properties" (JObject [("replicas", replicas)]) preserved
              | None => preserved
              end)
    end
  else Some preserved.

(** The body of the loop over the properties; the key is in the map. *)
Definition clean_property (filename k : string) (v : json) : option json :=
  if String.eqb k "status" then Some (JObject preserved)
  else if String.eqb k "spec" then
    specObj ← as_obj (Some v); JObject <$> updateSpecProperties specObj filename
  else if String.eqb k "apiVersion" || String.eqb k "kind" then
    o ← as_obj (Some v); Some (JObject (del "description" o))
  else Some v.
Definition clean_properties (filename : string) (properties : obj) : option obj :=
  mapM (λ kv, v ← clean_property filename kv.1 kv.2; Some (kv.1, v)) properties.

Definition clean_version (filename : string) (version : obj) : option obj :=
  in_obj "schema" (in_obj "openAPIV3Schema" (in_obj "properties" (clean_properties filename))) version.
Definition clean_spec (filename : string) (spec : obj) : option obj :=
  let spec := del "validation" spec in
  versions ← as_array (assoc spec "versions");
  match versions with
  | v :: rest =>
      version ← as_obj (Some v);
      version' ← clean_version filename version;
      Some (on_member "versions" (λ _, JArray (JObject version' :: rest)) spec)
  | [] => None
  end.
Definition clean_metadata (metadata : obj) : option obj := Some (del "creationTimestamp" (del "annotations" metadata)).
Definition clean_document (filename : string) (crd : obj) : option obj :=
  let crd := del "status" crd in
  crd ← in_obj "metadata" clean_metadata crd;
  in_obj "spec" (clean_spec filename) crd.

(** ** [json-schema] *)
Definition group := "kynomesh.kyno.sh".
Definition version := "v1alpha1".
Definition agentSetKind := "AgentSet".
Definition crdKinds : list string := [agentSetKind].
Definition definitionKey (kind : string) : string := "sh.kyno.kynomesh." +:+ version +:+ "." +:+ kind.

Definition gvk (kind : string) : json :=
  JArray [JObject [("group", JString group); ("kind", JString kind); ("version", JString version)]].
(** One turn of the loop over the kinds: the definition is changed in place. *)
Definition pin_kind (kind : string) (definitions : obj) : option obj :=
  in_obj (definitionKey kind) (λ v,
    let v := set_key "x-kubernetes-group-version-kind" (gvk kind) v in
    in_obj "properties" (λ props,
      props ← in_obj "apiVersion" (λ p, Some (set_key "const" (JString (group +:+ "/" +:+ version)) p)) props;
      in_obj "kind" (λ p, Some (set_key "const" (JString kind) p)) props) v) definitions.
Definition reference (kind : string) : json := JObject [("$ref", JString ("#/definitions/" +:+ definitionKey kind))].
Definition build_schema (swagger : obj) : option obj :=
  definitions ← foldl (λ ds kind, ds ← ds; pin_kind kind ds) (as_obj (assoc swagger "definitions")) crdKinds;
  Some [("$id", JString "http://sh.kyno.kynomesh/kynomesh.json");
        ("$schema", JString "http://json-schema.org/schema#");
        ("type", JString "object");
        ("oneOf", JArray (map reference crdKinds));
        ("definitions", JObject definitions)].

(** ** The programs, over files *)
Section programs.
Context {text : Type} (yaml_Unmarshal : text → result string json) (yaml_Marshal : json → result string text).
Context (Decode : text → result string json) (Encode : json → result string text).
Context (MarshalSwagger : string → gmap string Schema → result string text).
Context (WriteFile : string → text → gmap string text → result string (gmap string text)).

Definition must {A} (r : result string A) : option A := match r with Ok x => Some x | Err _ => None end.

Definition cleanCRD (filename : string) (files : gmap string text) : option (gmap string text) :=
  data ← files !! filename;
  crd ← must (yaml_Unmarshal data);
  crd ← as_obj (Some crd);
  crd ← clean_document filename crd;
  data ← must (yaml_Marshal (JObject crd));
  must (WriteFile filename data files).

(** [main] of [crdgen]; [args] is [os.Args]. *)
Definition crdgen_main (args : list string) (files : gmap string text) : option (gmap string text) :=
  cmd ← args !! 1%nat;
  if String.eqb cmd "cleancrd" then file ← args !! 2%nat; cleanCRD file files else None.

Definition json_schema_main (files : gmap string text) : option (gmap string text) :=
  data ← files !! "api/openapi-spec/swagger.json";
  swagger ← must (Decode data);
  swagger ← as_obj (Some swagger);
  schema ← build_schema swagger;
  data ← must (Encode (JObject schema));
  must (WriteFile "api/json-schema/schema.json" data files).

(** [main] of [gen-openapi-spec]; [ds] are the generated definitions in the
    order the map is ranged over, [k8s] reads the file of Kubernetes. *)
Definition gen_openapi_main (k8s : string → option (gmap string Schema)) (ds : list (string * OpenAPIDefinition))
    (args : list string) (files : gmap string text) : option (gmap string text) :=
  version ← args !! 1%nat; kubeSwaggerPath ← args !! 2%nat; output ← args !! 3%nat;
  file ← k8s kubeSwaggerPath;
  jsonBytes ← must (MarshalSwagger (spec_version version) (definitions file ds));
  files ← must (WriteFile output jsonBytes files);
  data ← files !! output;
  swaggerObj ← must (Decode data);
  swaggerObj ← strip_defaults swaggerObj;
  data ← must (Encode swaggerObj);
  must (WriteFile output data files).
End programs.

(** ** Changing members *)
Definition fixed_at (k : string) (v : json) (ms : obj) : Prop := Forall (λ kv, kv.1 = k → kv.2 = v) ms.

Lemma on_member_fixed k v ms : fixed_at k v ms → on_member k (λ _, v) ms = ms.
Proof.
  unfold on_member. induction 1 as [|[k' x] ms Hx _ IH]; cbn; [done|]. rewrite IH.
  destruct (String.eqb_spec k' k) as [E|]; [|done]. by rewrite <- (Hx E).
Qed.
Lemma on_member_fixes k v ms : fixed_at k v (on_member k (λ _, v) ms).
Proof.
  unfold on_member. apply Forall_map, Forall_true. intros [k' x]. cbn.
  destruct (String.eqb_spec k' k); cbn; [done|]. by intros ->.
Qed.
Lemma on_member_keeps k k' v f ms : k ≠ k' → fixed_at k v ms → fixed_at k v (on_member k' f ms).
Proof.
  intros Hne Hf. unfold on_member. apply Forall_map. eapply Forall_impl; [exact Hf|]. intros [j x] Hx. cbn in *.
  destruct (String.eqb_spec j k') as [->|]; cbn; [congruence|done].
Qed.
Lemma del_on_member k k' f ms : del k (on_member k' f ms) = on_member k' f (del k ms).
Proof.
  unfold del, on_member. induction ms as [|[j x] ms IH]; [done|]. cbn [map]. rewrite !filter_cons. cbn [fst].
  rewrite IH. destruct (String.eqb_spec j k') as [->|]; cbn [fst]; case_decide; cbn [map fst]; rewrite ?String.eqb_refl; try done.
  by destruct (String.eqb_spec j k').
Qed.
Lemma del_del k ms : del k (del k ms) = del k ms.
Proof. unfold del. rewrite list_filter_filter. apply list_filter_iff. tauto. Qed.
Lemma del_swap k k' ms : del k (del k' ms) = del k' (del k ms).
Proof. unfold del. rewrite !list_filter_filter. apply list_filter_iff. tauto. Qed.
Lemma set_key_same k v ms : assoc (set_key k v ms) k = Some v.
Proof.
  unfold set_key. destruct (assoc ms k) as [x|] eqn:E.
  - by rewrite assoc_on_member, String.eqb_refl, E.
  - revert E. induction ms as [|[j x] ms IH]; cbn [app]; rewrite ?assoc_cons; [by rewrite String.eqb_refl|].
    by destruct (String.eqb j k).
Qed.
Lemma set_key_other k v ms n : n ≠ k → assoc (set_key k v ms) n = assoc ms n.
Proof.
  intros Hne. unfold set_key. destruct (assoc ms k) as [x|].
  - rewrite assoc_on_member. by destruct (String.eqb_spec k n); [subst|].
  - induction ms as [|[j x] ms IH]; cbn [app]; rewrite !assoc_cons; [by destruct (String.eqb_spec k n); [subst|]|].
    by rewrite IH.
Qed.
Lemma in_obj_spec k f ms ms' : in_obj k f ms = Some ms' →
  ∃ o o', assoc ms k = Some (JObject o) ∧ f o = Some o' ∧ assoc ms' k = Some (JObject o') ∧
    fixed_at k (JObject o') ms' ∧ (∀ n, n ≠ k → assoc ms' n = assoc ms n) ∧ ms' = on_member k (λ _, JObject o') ms.
Proof.
  unfold in_obj. destruct (assoc ms k) as [[| | | | |o]|] eqn:E; try done. cbn. destruct (f o) as [o'|] eqn:Ef; [|done].
  intros [= <-]. exists o, o'. split_and!; try done.
  - by rewrite assoc_on_member, String.eqb_refl, E.
  - apply on_member_fixes.
  - intros n Hn. rewrite assoc_on_member. by destruct (String.eqb_spec k n); [subst|].
Qed.
Lemma in_obj_settled k f o ms : assoc ms k = Some (JObject o) → f o = Some o → fixed_at k (JObject o) ms → in_obj k f ms = Some ms.
Proof. intros E Ef Hf. unfold in_obj. rewrite E. cbn. rewrite Ef. cbn. by rewrite on_member_fixed. Qed.

(** A change that, once made, changes nothing more. *)
Definition settles (f : obj → option obj) : Prop := ∀ o o', f o = Some o' → f o' = Some o'.
Lemma in_obj_settles k f : settles f → settles (in_obj k f).
Proof.
  intros Hf ms ms' (o & o' & _ & Ef & E & Hfix & _)%in_obj_spec. apply (in_obj_settled _ _ o'); [done|by eapply Hf|done].
Qed.

(** ** Cleaning a definition *)
Lemma updateSpecProperties_settles filename : settles (λ o, updateSpecProperties o filename).
Proof.
  intros o o'. unfold updateSpecProperties. destruct (_ || _); [|done].
  destruct (assoc o "properties") as [[| | | | |ps]|]; cbn; try done; [|by intros [= <-]].
  destruct (assoc ps "replicas") as [r|]; intros [= <-]; done.
Qed.
Lemma clean_property_settles filename k v v' : clean_property filename k v = Some v' → clean_property filename k v' = Some v'.
Proof.
  unfold clean_property. destruct (String.eqb k "status"); [by intros [= <-]|]. destruct (String.eqb k "spec").
  - destruct v as [| | | | |o]; try done. cbn. destruct (updateSpecProperties o filename) as [o'|] eqn:E; [|done].
    intros [= <-]. cbn. by rewrite (updateSpecProperties_settles filename o o' E).
  - destruct (_ || _); [|by intros [= <-]]. destruct v as [| | | | |o]; try done. intros [= <-]. cbn. by rewrite del_del.
Qed.
Lemma clean_properties_settles filename : settles (clean_properties filename).
Proof.
  intros o o'. unfold clean_properties. intros E%mapM_Some. apply mapM_Some. induction E as [|[k v] [k' v'] o o' E _ IH]; constructor; [|done].
  cbn in *. destruct (clean_property filename k v) as [u|] eqn:Eu; [|done]. injection E as <- <-.
  by rewrite (clean_property_settles _ _ _ _ Eu).
Qed.
Lemma clean_version_settles filename : settles (clean_version filename).
Proof. apply in_obj_settles, in_obj_settles, in_obj_settles, clean_properties_settles. Qed.

Lemma clean_spec_spec filename spec spec' : clean_spec filename spec = Some spec' →
  ∃ v v' rest, assoc spec "versions" = Some (JArray (JObject v :: rest)) ∧ clean_version filename v = Some v' ∧
    assoc spec' "versions" = Some (JArray (JObject v' :: rest)) ∧ del "validation" spec' = spec' ∧
    fixed_at "versions" (JArray (JObject v' :: rest)) spec' ∧
    ∀ n, n ≠ "versions" → n ≠ "validation" → assoc spec' n = assoc spec n.
Proof.
  unfold clean_spec. rewrite assoc_del. cbn. destruct (assoc spec "versions") as [[| | | |l|]|] eqn:E; try done. cbn.
  destruct l as [|v rest]; [done|]. destruct v as [| | | | |v]; try done. cbn.
  destruct (clean_version filename v) as [v'|] eqn:Ev; [|done]. intros [= <-]. exists v, v', rest. split_and!; try done.
  - by rewrite assoc_on_member, assoc_del, E.
  - by rewrite del_on_member, del_del.
  - apply on_member_fixes.
  - intros n H1 H2. rewrite assoc_on_member, assoc_del.
    destruct (String.eqb_spec "versions" n), (String.eqb_spec "validation" n); congruence.
Qed.
Lemma clean_spec_settles filename : settles (clean_spec filename).
Proof.
  intros o o' (v & v' & rest & _ & Ev & E & Hd & Hfix & _)%clean_spec_spec. unfold clean_spec. rewrite Hd, E. cbn.
  rewrite (clean_version_settles filename v v' Ev). cbn. by rewrite on_member_fixed.
Qed.
Lemma clean_metadata_settles : settles clean_metadata.
Proof. intros o o' [= <-]. unfold clean_metadata. f_equal. by rewrite (del_swap "annotations"), !del_del, del_swap. Qed.

(** Cleaning a definition file is idempotent, removes what it is meant to and
    keeps what the API server is configured by: group, names, scope, and of
    the first version everything but its schema, so also the subresources;
    further versions stay as they are. *)
Theorem crd_cleaning filename crd crd' : clean_document filename crd = Some crd' →
  clean_document filename crd' = Some crd' ∧ assoc crd' "status" = None ∧
  ∃ spec spec' v v' rest,
    assoc crd "spec" = Some (JObject spec) ∧ assoc crd' "spec" = Some (JObject spec') ∧
    (∀ n, n ≠ "versions" → n ≠ "validation" → assoc spec' n = assoc spec n) ∧
    assoc spec "versions" = Some (JArray (JObject v :: rest)) ∧ assoc spec' "versions" = Some (JArray (JObject v' :: rest)) ∧
    ∀ n, n ≠ "schema" → assoc v' n = assoc v n.
Proof.
  unfold clean_document at 1. destruct (in_obj "metadata" _ _) as [crd1|] eqn:Em; [|done]. intros Es.
  apply in_obj_spec in Em as (m & m' & _ & Hm & Em & Fm & Om & E1). apply in_obj_spec in Es as (sp & sp' & Es0 & Hs & Es & Fs & Os & E2).
  assert (del "status" crd' = crd') as Hd by (by rewrite E2, E1, !del_on_member, del_del).
  split_and!.
  - unfold clean_document. rewrite Hd, (in_obj_settled _ _ m').
    + cbn. apply (in_obj_settled _ _ sp'); [done|by eapply clean_spec_settles|done].
    + by rewrite Os.
    + by eapply clean_metadata_settles.
    + rewrite E2. by apply on_member_keeps.
  - rewrite <- Hd. by rewrite assoc_del.
  - destruct (clean_spec_spec _ _ _ Hs) as (v & v' & rest & Ev & Hv & Ev' & _ & _ & Ho). exists sp, sp', v, v', rest. split_and!; try done.
    + rewrite Om, assoc_del in Es0; done.
    + by destruct (in_obj_spec _ _ _ _ Hv) as (? & ? & _ & _ & _ & _ & ? & _).
Qed.

(** The fields of [spec] are not in the schema of any definition of ours: their
    names do not end in [_vertices.yaml].  So where the scale subresource of
    AgentDeploy refers to [.spec.replicas], the cleaned schema defines no such
    field and no default for it. *)
Theorem cleaned_spec_is_open name properties properties' :
  clean_properties ("kynomesh.kyno.sh_" +:+ name +:+ "s.yaml") properties = Some properties' →
  HasSuffix ("kynomesh.kyno.sh_" +:+ name +:+ "s.yaml") "_monovertices.yaml" = false →
  HasSuffix ("kynomesh.kyno.sh_" +:+ name +:+ "s.yaml") "_vertices.yaml" = false →
  ∀ s, assoc properties' "spec" = Some s → s = JObject preserved ∧ member "properties" s = None.
Proof.
  unfold clean_properties. intros E%mapM_Some H1 H2 s. induction E as [|[k v] [k' v'] o o' E _ IH]; [done|]. rewrite assoc_cons.
  cbn [fst snd] in E. destruct (clean_property _ k v) as [u|] eqn:Eu; [|done]. cbn in E. injection E as <- <-.
  destruct (String.eqb_spec k "spec") as [->|]; [|done]. intros [= <-]. unfold clean_property in Eu. cbn [String.eqb Ascii.eqb Bool.eqb] in Eu.
  destruct v as [| | | | |o1]; try done. cbn [as_obj mbind option_bind] in Eu. unfold updateSpecProperties in Eu. rewrite H1, H2 in Eu.
  injection Eu as <-. done.
Qed.

(** ** The published schema *)
Lemma definitionKey_is_ours : definitionKey agentSetKind = swaggify (v1alpha1 "AgentSet").
Proof. vm_compute. reflexivity. Qed.

Fixpoint at_path (path : list string) (j : json) : option json :=
  match path with
  | [] => Some j
  | k :: path => member k j ≫= at_path path
  end.
Definition clean_prop (prop : json) : Prop :=
  no_default prop ∧ (∀ i, member "items" prop = Some i → no_default i) ∧
  ∀ i, member "additionalProperties" prop = Some i → no_default i.
Lemma set_const_clean v p : clean_prop (JObject p) → clean_prop (JObject (set_key "const" v p)).
Proof. unfold clean_prop, no_default. cbn. by rewrite !set_key_other by done. Qed.

(** What [pin_kind] makes of the definitions. *)
Lemma pin_kind_spec kind ds ds' : pin_kind kind ds = Some ds' →
  (∀ n, n ≠ definitionKey kind → assoc ds' n = assoc ds n) ∧
  ∃ d d' ps ps' a k, assoc ds (definitionKey kind) = Some (JObject d) ∧ assoc ds' (definitionKey kind) = Some (JObject d') ∧
    assoc d "properties" = Some (JObject ps) ∧ assoc d' "properties" = Some (JObject ps') ∧
    assoc d' "x-kubernetes-group-version-kind" = Some (gvk kind) ∧
    assoc d' "additionalProperties" = assoc d "additionalProperties" ∧
    assoc ps "apiVersion" = Some (JObject a) ∧ assoc ps' "apiVersion" = Some (JObject (set_key "const" (JString (group +:+ "/" +:+ version)) a)) ∧
    assoc ps "kind" = Some (JObject k) ∧ assoc ps' "kind" = Some (JObject (set_key "const" (JString kind) k)) ∧
    ∀ n, n ≠ "apiVersion" → n ≠ "kind" → assoc ps' n = assoc ps n.
Proof.
  intros (d & d' & Ed & Hd & Ed' & _ & Ho & _)%in_obj_spec. split; [done|].
  apply in_obj_spec in Hd as (ps & ps' & Eps & Hps & Eps' & _ & Hod & _). rewrite set_key_other in Eps by done.
  destruct (in_obj "apiVersion" _ ps) as [ps1|] eqn:Ea; [|done]. cbn in Hps.
  apply in_obj_spec in Ea as (a & a' & Ea & [= <-] & Ea' & _ & Hoa & _). apply in_obj_spec in Hps as (k & k' & Ek & [= <-] & Ek' & _ & Hok & _).
  exists d, d', ps, ps', a, k. split_and!; try done.
  - rewrite Hod by done. by rewrite set_key_same.
  - rewrite Hod by done. by rewrite set_key_other.
  - by rewrite Hok.
  - by rewrite <- Hoa.
  - intros n H1 H2. by rewrite Hok, Hoa.
Qed.

(** The schema made of the written specification refers to the definition of
    every kind, which pins [apiVersion] and [kind]; and still no property has a
    default. *)
Theorem published_schema sw sw' schema :
  strip_defaults sw = Some (JObject sw') → build_schema sw' = Some schema →
  (∀ kind, kind ∈ crdKinds → ∃ refs d,
     assoc schema "oneOf" = Some (JArray refs) ∧ reference kind ∈ refs ∧
     at_path ["definitions"; definitionKey kind] (JObject schema) = Some d ∧
     at_path ["properties"; "kind"; "const"] d = Some (JString kind) ∧
     at_path ["properties"; "apiVersion"; "const"] d = Some (JString "kynomesh.kyno.sh/v1alpha1") ∧
     member "x-kubernetes-group-version-kind" d = Some (gvk kind)) ∧
  ∀ n p prop, at_path ["definitions"; n; "properties"; p] (JObject schema) = Some prop → clean_prop prop.
Proof.
  intros Hst. unfold build_schema, crdKinds. cbn [foldl]. destruct (assoc sw' "definitions") as [[| | | | |ds]|] eqn:Eds; try done.
  cbn [as_obj mbind option_bind]. destruct (pin_kind agentSetKind ds) as [ds'|] eqn:Ep; [|done]. cbn [mbind option_bind]. intros [= <-].
  destruct (pin_kind_spec _ _ _ Ep) as (Ho & d & d' & ps & ps' & a & k & Ed & Ed' & Eps & Eps' & Eg & _ & Ea & Ea' & Ek & Ek' & Hp).
  assert (∀ n d p prop, assoc ds n = Some (JObject d) → member "properties" (JObject d) ≫= member p = Some prop → clean_prop prop) as Hcl.
  { intros n d0 p prop Hn Hprop. apply (stripped_has_no_default sw (JObject sw') n (JObject d0) Hst) with (p := p); [|done].
    cbn. rewrite Eds. done. }
  split.
  - intros kind ->%list_elem_of_singleton. exists [reference agentSetKind], (JObject d').
    split_and!; [done|by left| | | |exact Eg]; cbn [at_path member mbind option_bind].
    + change (assoc _ "definitions") with (Some (JObject ds')). cbn [mbind option_bind member]. by rewrite Ed'.
    + rewrite Eps'. cbn [mbind option_bind member]. rewrite Ek'. cbn [mbind option_bind member]. by rewrite set_key_same.
    + rewrite Eps'. cbn [mbind option_bind member]. rewrite Ea'. cbn [mbind option_bind member]. by rewrite set_key_same.
  - intros n p prop Hprop. cbn [at_path member mbind option_bind] in Hprop.
    change (assoc _ "definitions") with (Some (JObject ds')) in Hprop. cbn [mbind option_bind member] in Hprop.
    destruct (assoc ds' n) as [d0|] eqn:Hn; [|done]. cbn [mbind option_bind] in Hprop.
    destruct (decide (n = definitionKey agentSetKind)) as [->|Hne].
    2: { rewrite Ho in Hn by done. destruct d0 as [| | | | |d0]; try done. apply (Hcl n d0 p prop Hn). cbn [member] in *.
         destruct (assoc d0 "properties") as [ps0|]; [|done]. cbn [mbind option_bind] in *. by destruct (member p ps0). }
    assert (d0 = JObject d') as -> by congruence. cbn [member] in Hprop. rewrite Eps' in Hprop. cbn [mbind option_bind member] in Hprop.
    assert (∀ q x, assoc ps q = Some x → clean_prop x) as Hq.
    { intros q x Hx. apply (Hcl _ d q x Ed). cbn [member]. rewrite Eps. done. }
    destruct (decide (p = "apiVersion")) as [->|]; [|destruct (decide (p = "kind")) as [->|]].
    + rewrite Ea' in Hprop. injection Hprop as <-. by eapply set_const_clean, Hq.
    + rewrite Ek' in Hprop. injection Hprop as <-. by eapply set_const_clean, Hq.
    + rewrite Hp in Hprop by done. destruct (assoc ps p) as [x|] eqn:Ex; [|done]. injection Hprop as <-. by eapply Hq.
Qed.

(** ** Examples *)
Definition ex_crd : obj :=
  [("kind", JString "CustomResourceDefinition");
   ("metadata", JObject [("name", JString "agentdeploys.kynomesh.kyno.sh"); ("creationTimestamp", JNull)]);
   ("spec", JObject [("group", JString group); ("versions", JArray [JObject
     [("name", JString "v1alpha1");
      ("schema", JObject [("openAPIV3Schema", JObject [("properties", JObject
         [("kind", JObject [("description", JString "K"); ("type", JString "string")]);
          ("spec", JObject [("properties", JObject [("replicas", JObject [("type", JString "integer")])])]);
          ("status", JObject [])])])]);
      ("subresources", JObject [("scale", JObject [("specReplicasPath", JString ".spec.replicas")])])]])]);
   ("status", JObject [])].
Example ex_cleaned :
  clean_document "kynomesh.kyno.sh_agentdeploys.yaml" ex_crd = Some
  [("kind", JString "CustomResourceDefinition");
   ("metadata", JObject [("name", JString "agentdeploys.kynomesh.kyno.sh")]);
   ("spec", JObject [("group", JString group); ("versions", JArray [JObject
     [("name", JString "v1alpha1");
      ("schema", JObject [("openAPIV3Schema", JObject [("properties", JObject
         [("kind", JObject [("type", JString "string")]); ("spec", JObject preserved); ("status", JObject preserved)])])]);
      ("subresources", JObject [("scale", JObject [("specReplicasPath", JString ".spec.replicas")])])]])])].
Proof. reflexivity. Qed.

Definition ex_swagger : json :=
  JObject [("definitions", JObject [("sh.kyno.kynomesh.v1alpha1.AgentSet", JObject [("properties", JObject
    [("apiVersion", JObject [("type", JString "string"); ("default", JString "")]); ("kind", JObject [("type", JString "string")])])])])].
Definition ex_stripped : obj := match strip_defaults ex_swagger with Some j => members j | None => [] end.
Definition ex_schema : obj := default [] (build_schema ex_stripped).
Lemma published_schema_witness :
  at_path ["definitions"; "sh.kyno.kynomesh.v1alpha1.AgentSet"; "properties"] (JObject ex_schema) =
    Some (JObject [("apiVersion", JObject [("type", JString "string"); ("const", JString "kynomesh.kyno.sh/v1alpha1")]);
                   ("kind", JObject [("type", JString "string"); ("const", JString "AgentSet")])]) ∧
  ∃ refs, assoc ex_schema "oneOf" = Some (JArray refs) ∧ reference "AgentSet" ∈ refs.
Proof.
  split; [vm_compute; reflexivity|].
  destruct (published_schema ex_swagger ex_stripped ex_schema ltac:(vm_compute; reflexivity) ltac:(vm_compute; reflexivity)) as [Hk _].
  destruct (Hk "AgentSet" ltac:(left)) as (refs & d & E & Hr & _). by exists refs.
Defined.
End BuildTools.
