(* ===== verification/Proto.v ===== *)
(** * The protobuf codec of the API types ([pkg/apis/kynomesh/v1alpha1/generated.pb.go])

    Every type of the API group has a generated [Size], [MarshalToSizedBuffer],
    [Marshal] and [Unmarshal].  The generated bodies are sequences of a few
    shapes of statement, one per field, so a body is a table of its statements
    in the order of the code ([ProtoTables]) and the shapes are defined here
    once: [Size], [MarshalToSizedBuffer] and [Unmarshal] run such a table.
    [enc] is the reference: what bytes the message description stands for.
    Messages of other packages are the interface [External].

    The theorems are about the tables a description generates, for any
    description that is well formed; [ProtoTables] shows that the tables of the
    code are those of [generated.proto]. *)
From S2P Require Import Prelude Schemas OpenApi ProtoWire.
#[local] Open Scope Z_scope.
#[local] Open Scope go_scope.

Module Proto.
Import Schemas OpenApi ProtoWire.
#[local] Arguments api_struct _ : simpl never.

(** ** Go values *)
#[warnings="-register-all"]
Inductive val {X : Type} :=
  | VStr (s : string)
  | VBool (b : bool)
  | VInt (z : Z)
  | VNil
  | VPtr (v : val)
  | VSlice (vs : list val)
  | VMap (m : gmap string string)
  | VStruct (fs : list (string * val))
  | VExt (x : X).                 (** a value of another package *)
Arguments val : clear implicits.

Definition get {X} (f : string) (fs : list (string * val X)) : val X :=
  default VNil (snd <$> List.find (λ kv, String.eqb (fst kv) f) fs).
Definition set {X} (f : string) (v : val X) (fs : list (string * val X)) : list (string * val X) :=
  (λ kv, if String.eqb (fst kv) f then (f, v) else kv) <$> fs.

(** ** Statement tables *)
(** How many values a field holds: a value, a pointer, a slice or a map. *)
Inductive quant := One | Opt | Rep | Entries.
(** A statement is about a field; [I] is what the statement has besides. *)
#[warnings="-register-all"]
Inductive msg {I : Type} :=
  | Ext (n : string)
  | Prog (n : string) (ops : list op)
with op {I : Type} := mkOp (i : I) (f : string) (q : quant) (b : base)
with base {I : Type} := Str | Int | Bool | Entry | Msg (m : msg).
Arguments msg : clear implicits.
Arguments op : clear implicits.
Arguments base : clear implicits.

Definition op_base {I} (o : op I) : base I := match o with mkOp _ _ _ b => b end.
Definition op_field {I} (o : op I) : string := match o with mkOp _ f _ _ => f end.
Definition base_all {I} (P : msg I → Prop) (b : base I) : Prop := match b with Msg m => P m | _ => True end.

Lemma msg_nested_ind {I} (P : msg I → Prop) :
  (∀ n, P (Ext n)) → (∀ n ops, Forall (λ o, base_all P (op_base o)) ops → P (Prog n ops)) → ∀ m, P m.
Proof.
  intros He Hp. fix IH 1. intros [n|n ops]; [apply He|]. apply Hp.
  induction ops as [|[i f q b] ops IHops]; constructor; [|done]. destruct b; cbn; [done..|apply IH].
Qed.

(** ** Messages of other packages *)
Inductive MarshalErr := Panic | ExtErr (e : string).
Class External (X : Type) := {
  ext_of : string → X → Prop;                      (** the values of a type *)
  ext_zero : string → X;                           (** its zero value *)
  ext_enc : X → list byte;                         (** the bytes of a value *)
  ext_Size : X → Z;
  ext_MarshalToSizedBuffer : X → list byte → result MarshalErr (list byte * Z);
  ext_Unmarshal : string → X → list byte → result string X;
  ext_canon : X → X;                               (** a value as it is read back *)
  ext_zero_of : ∀ n, ext_of n (ext_zero n);
  ext_Size_law : ∀ x, ext_Size x = Z.of_nat (length (ext_enc x));
  ext_Marshal_law : ∀ x dAtA, (length (ext_enc x) <= length dAtA)%nat →
    ext_MarshalToSizedBuffer x dAtA =
      Ok (placed dAtA (Z.of_nat (length dAtA) - Z.of_nat (length (ext_enc x))) (ext_enc x), Z.of_nat (length (ext_enc x)));
  ext_roundtrip_law : ∀ n x, ext_of n x → ext_Unmarshal n (ext_zero n) (ext_enc x) = Ok (ext_canon x);
  ext_typed_law : ∀ n x bs x', ext_of n x → ext_Unmarshal n x bs = Ok x' → ext_of n x'
}.

Definition bytes_of : string → list byte := String.list_byte_of_string.
Definition string_of : list byte → string := String.string_of_list_byte.
Definition entry {X} (k v : string) : val X := VStruct [("key", VStr k); ("value", VStr v)].

(** ** Marshalling *)
Section marshal.
Context {X : Type} `{!External X} `{!GoRange} `{!GoSort}.

(** [keysFor<F>]: the keys of the map, sorted. *)
Definition sorted_keys (m : gmap string string) : list string := sort_slice String.ltb (range_map m).*1.
(** The values a field holds, in the order they are written in the message. *)
Definition elems (q : quant) (v : val X) : option (list (val X)) :=
  match q, v with
  | One, v => Some [v]
  | Opt, VNil | Rep, VNil | Entries, VNil => Some []
  | Opt, VPtr v => Some [v]
  | Rep, VSlice vs => Some vs
  | Entries, VMap m => Some ((λ k, entry k (default "" (m !! k))) <$> sorted_keys m)
  | _, _ => None
  end.

(** [Size] ranges over the map itself. *)
Definition elems_any (q : quant) (v : val X) : option (list (val X)) :=
  match q, v with
  | Entries, VMap m => Some ((λ kv, entry kv.1 kv.2) <$> range_map m)
  | q, v => elems q v
  end.

Definition lift {A} (o : option A) : result MarshalErr A := match o with Some a => Ok a | None => Err Panic end.
(** The buffer and the index before which everything is still to be written. *)
Definition MState : Type := list byte * Z.
Definition put_byte (b : Z) (st : MState) : result MarshalErr MState :=
  let! buf := lift (set_at st.1 (st.2 - 1) b) in Ok (buf, st.2 - 1).
Definition put_length (n : Z) (st : MState) : result MarshalErr MState :=
  lift (encodeVarintGenerated st.1 st.2 (wrap_u 64 n)).
Definition put_string (s : string) (st : MState) : result MarshalErr MState :=
  let n := Z.of_nat (String.length s) in
  let! buf := lift (copy_at st.1 (st.2 - n) (bytes_of s)) in
  put_length n (buf, st.2 - n).
Definition put_entry (k v : string) (st : MState) : result MarshalErr MState :=
  let baseI := st.2 in
  let! st := put_string v st in
  let! st := put_byte 0x12 st in
  let! st := put_string k st in
  let! st := put_byte 0xa st in
  put_length (baseI - st.2) st.
(** A message is written into [dAtA[:i]]. *)
Definition put_message (sub : list byte → result MarshalErr (list byte * Z)) (st : MState) : result MarshalErr MState :=
  if (st.2 <? 0) || (Z.of_nat (length st.1) <? st.2) then Err Panic
  else
    let! (buf, size) := sub (take (Z.to_nat st.2) st.1) in
    put_length size (buf ++ drop (Z.to_nat st.2) st.1, st.2 - size).
Definition put_value (b : base Z) (sub : msg Z → val X → list byte → result MarshalErr (list byte * Z)) (v : val X) (st : MState) :
    result MarshalErr MState :=
  match b, v with
  | Str, VStr s => put_string s st
  | Int, VInt z => put_length z st
  | Bool, VBool b => put_byte (if b then 1 else 0) st
  | Entry, VStruct [(_, VStr k); (_, VStr v)] => put_entry k v st
  | Msg m, v => put_message (sub m v) st
  | _, _ => Err Panic
  end.
(** The statements of a body, one after the other. *)
Definition run {S O E : Type} (f : O → S → result E S) : list O → S → result E S :=
  fix go ops st := match ops with [] => Ok st | o :: ops => let! st := f o st in go ops st end.
Definition put_field (sub : msg Z → val X → list byte → result MarshalErr (list byte * Z)) (tag : Z) (q : quant) (b : base Z)
    (v : val X) (st : MState) : result MarshalErr MState :=
  let! vs := lift (elems q v) in
  run (λ v st, let! st := put_value b sub v st in put_byte tag st) (rev vs) st.
Definition put_op (sub : msg Z → val X → list byte → result MarshalErr (list byte * Z)) (fs : list (string * val X)) (o : op Z)
    (st : MState) : result MarshalErr MState :=
  match o with mkOp tag f q b => put_field sub tag q b (get f fs) st end.

Fixpoint MarshalToSizedBuffer (m : msg Z) (v : val X) (dAtA : list byte) {struct m} : result MarshalErr (list byte * Z) :=
  match m, v with
  | Ext _, VExt x => ext_MarshalToSizedBuffer x dAtA
  | Prog _ ops, VStruct fs =>
      let! (buf, i) := run (put_op MarshalToSizedBuffer fs) ops (dAtA, Z.of_nat (length dAtA)) in
      Ok (buf, Z.of_nat (length dAtA) - i)
  | _, _ => Err Panic
  end.

Definition value_size (sub : msg Z → val X → Z) (b : base Z) (v : val X) : Z :=
  match b, v with
  | Str, VStr s => let l := Z.of_nat (String.length s) in l + sovGenerated (wrap_u 64 l)
  | Int, VInt z => sovGenerated (wrap_u 64 z)
  | Entry, VStruct [(_, VStr k); (_, VStr v)] =>
      let lk := Z.of_nat (String.length k) in
      let lv := Z.of_nat (String.length v) in
      let mapEntrySize := 1 + lk + sovGenerated (wrap_u 64 lk) + 1 + lv + sovGenerated (wrap_u 64 lv) in
      mapEntrySize + sovGenerated (wrap_u 64 mapEntrySize)
  | Msg m, v => let l := sub m v in l + sovGenerated (wrap_u 64 l)
  | _, _ => 0
  end.
Definition sum_Z (l : list Z) : Z := foldr Z.add 0 l.
Definition op_size (sub : msg Z → val X → Z) (fs : list (string * val X)) (o : op Z) : Z :=
  match o with mkOp n f q b => sum_Z ((λ v, n + value_size sub b v) <$> default [] (elems_any q (get f fs))) end.
(** [n] counts up in an [int]: addition modulo [2^64]. *)
Fixpoint Size (m : msg Z) (v : val X) {struct m} : Z :=
  match m, v with
  | Ext _, VExt x => ext_Size x
  | Prog _ ops, VStruct fs => wrap_s 64 (sum_Z (op_size Size fs <$> ops))
  | _, _ => 0
  end.

(** [Marshal] and [MarshalTo]: [pm] and [ps] are the tables of the type. *)
Definition Marshal (ps pm : msg Z) (v : val X) : result MarshalErr (list byte) :=
  let size := Size ps v in
  if size <? 0 then Err Panic
  else
    let! (dAtA, n) := MarshalToSizedBuffer pm v (replicate (Z.to_nat size) Byte.x00) in
    if (n <? 0) || (Z.of_nat (length dAtA) <? n) then Err Panic else Ok (take (Z.to_nat n) dAtA).
Definition MarshalTo (ps pm : msg Z) (v : val X) (dAtA : list byte) : result MarshalErr (list byte * Z) :=
  let size := Size ps v in
  if (size <? 0) || (Z.of_nat (length dAtA) <? size) then Err Panic
  else
    let! (buf, n) := MarshalToSizedBuffer pm v (take (Z.to_nat size) dAtA) in
    Ok (buf ++ drop (Z.to_nat size) dAtA, n).
End marshal.

(** ** Unmarshalling *)
(** A [case] of the switch: its field number, the wire type it asks for and
    the type of the variable the digits go to. *)
Record Case := mkCase { c_num : Z; c_wireType : Z; c_width : Width }.

Section unmarshal.
Context {X : Type} `{!External X}.

(** [T{}], from the declaration of the struct; the depth of the types is
    bounded by [zero_depth]. *)
Fixpoint zero_of (fuel : nat) (T : GoT) : val X :=
  match T with
  | GTString | GTEnum _ => VStr ""
  | GTBool => VBool false
  | GTInt _ _ => VInt 0
  | GTPtr _ | GTSlice _ | GTMap => VNil
  | GTNamed n =>
      match fuel, api_struct n with
      | S fuel, Some fs => VStruct ((λ f, (fd_go f, zero_of fuel (fd_type f))) <$> fs)
      | _, _ => VExt (ext_zero n)
      end
  end.
Definition zero_depth : nat := 10.
Definition zero_msg {I} (m : msg I) : val X :=
  match m with Ext n => VExt (ext_zero n) | Prog n _ => zero_of zero_depth (GTNamed (v1alpha1 n)) end.

(** What the field is after one more value was read. *)
Definition place (q : quant) (cur v : val X) : val X :=
  match q, cur with
  | Opt, _ => VPtr v
  | Rep, VSlice vs => VSlice (vs ++ [v])
  | Rep, _ => VSlice [v]
  | _, _ => v
  end.
(** The value a message is read into. *)
Definition target {I} (q : quant) (m : msg I) (cur : val X) : val X :=
  match q, cur with
  | One, cur => cur
  | Opt, VPtr v => v
  | _, _ => zero_msg m
  end.

(** [iNdEx = preIndex] and the skipped bytes, which are to end before [bound];
    the index moves to [next]. *)
Definition skip_unknown (l bound : Z) (rest : list byte) : result ProtoError (list byte) :=
  let! skippy := skipGenerated rest in
  let next := wrap_s 64 (index l rest + skippy) in
  if (skippy <? 0) || (next <? 0) then Err ErrInvalidLength
  else if bound <? next then Err ErrUnexpectedEOF
  else let! (_, rest) := slice l next rest in Ok rest.

(** An entry of a map: its loop runs up to [postIndex], and a key or a value
    may reach beyond. *)
Fixpoint read_entry (fuel : nat) (l postIndex : Z) (rest : list byte) (mapkey mapvalue : string) : result ProtoError (string * string) :=
  match fuel with
  | O => Err Stuck
  | S fuel =>
      if index l rest <? postIndex then
        let! (wire, rest') := read_varint Uint64T 0 0 rest in
        let fieldNum := wrap_s 32 (Z.shiftr wire 3) in
        if fieldNum =? 1 then
          let! (bs, rest) := read_bytes Uint64T l rest' in read_entry fuel l postIndex rest (string_of bs) mapvalue
        else if fieldNum =? 2 then
          let! (bs, rest) := read_bytes Uint64T l rest' in read_entry fuel l postIndex rest mapkey (string_of bs)
        else
          let! rest := skip_unknown l postIndex rest in read_entry fuel l postIndex rest mapkey mapvalue
      else Ok (mapkey, mapvalue)
  end.
Definition map_of_val (v : val X) : gmap string string := match v with VMap m => m | _ => ∅ end.

(** The body of a [case]: the field's new value and what is left to read. *)
Definition read_field (sub : msg Case → val X → list byte → result ProtoError (val X)) (w : Width) (q : quant) (b : base Case)
    (cur : val X) (l : Z) (rest : list byte) : result ProtoError (val X * list byte) :=
  match b with
  | Str => let! (bs, rest) := read_bytes w l rest in Ok (place q cur (VStr (string_of bs)), rest)
  | Int => let! (z, rest) := read_varint w 0 0 rest in Ok (place q cur (VInt z), rest)
  | Bool => let! (z, rest) := read_varint w 0 0 rest in Ok (place q cur (VBool (negb (z =? 0))), rest)
  | Entry =>
      let! (bs, post) := read_bytes w l rest in
      let! (mapkey, mapvalue) := read_entry (S (length rest)) l (index l post) (bs ++ post) "" "" in
      Ok (VMap (<[mapkey := mapvalue]> (map_of_val cur)), post)
  | Msg m =>
      let! (bs, rest) := read_bytes w l rest in
      let! v := sub m (target q m cur) bs in
      Ok (place q cur v, rest)
  end.

Definition handler : Type := Case * string * (val X → Z → list byte → result ProtoError (val X * list byte)).
Definition case_of (sub : msg Case → val X → list byte → result ProtoError (val X)) (o : op Case) : handler :=
  match o with mkOp c f q b => (c, f, read_field sub (c_width c) q b) end.

(** The loop over the fields of a message [n]. *)
Fixpoint read_fields (fuel : nat) (n : string) (cases : list handler) (l : Z) (rest : list byte) (fs : list (string * val X)) :
    result ProtoError (list (string * val X)) :=
  match fuel with
  | O => Err Stuck
  | S fuel =>
      if index l rest <? l then
        let! (wire, rest') := read_varint Uint64T 0 0 rest in
        let fieldNum := wrap_s 32 (Z.shiftr wire 3) in
        let wireType := Z.land wire 7 in
        if wireType =? 4 then Err (ErrEndGroupForNonGroup n)
        else if fieldNum <=? 0 then Err (ErrIllegalTag n fieldNum wire)
        else
          match List.find (λ h, c_num h.1.1 =? fieldNum) cases with
          | Some (c, f, read) =>
              if negb (wireType =? c_wireType c) then Err (ErrWrongWireType wireType f)
              else
                let! (v, rest) := read (get f fs) l rest' in
                read_fields fuel n cases l rest (set f v fs)
          | None =>
              let! rest := skip_unknown l l rest in
              read_fields fuel n cases l rest fs
          end
      else Ok fs
  end.

Fixpoint Unmarshal (m : msg Case) (v : val X) (dAtA : list byte) {struct m} : result ProtoError (val X) :=
  match m, v with
  | Ext n, VExt x => match ext_Unmarshal n x dAtA with Ok x => Ok (VExt x) | Err e => Err (ErrExternal e) end
  | Prog n ops, VStruct fs =>
      let! fs := read_fields (S (length dAtA)) n (case_of Unmarshal <$> ops) (Z.of_nat (length dAtA)) dAtA fs in
      Ok (VStruct fs)
  | _, _ => Err Stuck
  end.
End unmarshal.

(** ** The description of a message *)
(** A field of a [.proto] message: its number, and the Go integer type. *)
Record Fld := mkFld { d_num : Z; d_width : Width }.
Definition wire_type (b : base Fld) : Z := match b with Int | Bool => 0 | _ => 2 end.
Definition tag (a : Fld) (b : base Fld) : Z := d_num a * 8 + wire_type b.

(** A table with other annotations. *)
Fixpoint retable {I} (ann : Fld → base Fld → I) (order : list (op I) → list (op I)) (m : msg Fld) : msg I :=
  match m with
  | Ext n => Ext n
  | Prog n ops =>
      Prog n (order ((λ o, match o with
        | mkOp a f q b => mkOp (ann a b) f q
            match b with Str => Str | Int => Int | Bool => Bool | Entry => Entry | Msg m => Msg (retable ann order m) end
        end) <$> ops))
  end.
Definition rebase {I} (ann : Fld → base Fld → I) (order : list (op I) → list (op I)) (b : base Fld) : base I :=
  match b with Str => Str | Int => Int | Bool => Bool | Entry => Entry | Msg m => Msg (retable ann order m) end.
Definition retable_op {I} (ann : Fld → base Fld → I) (order : list (op I) → list (op I)) (o : op Fld) : op I :=
  match o with mkOp a f q b => mkOp (ann a b) f q (rebase ann order b) end.
Lemma retable_Prog {I} (ann : Fld → base Fld → I) order n ops :
  retable ann order (Prog n ops) = Prog n (order (retable_op ann order <$> ops)).
Proof. reflexivity. Qed.

Definition read_width (a : Fld) (b : base Fld) : Width :=
  match b with Str => Uint64T | Int => d_width a | Bool | Entry | Msg _ => IntT end.
(** The three functions the generator emits for a message. *)
Definition marshal_ann : Fld → base Fld → Z := tag.
Definition size_ann (_ : Fld) (b : base Fld) : Z := match b with Bool => 2 | _ => 1 end.
Definition unmarshal_ann (a : Fld) (b : base Fld) : Case := mkCase (d_num a) (wire_type b) (read_width a b).
Definition gen_MarshalToSizedBuffer : msg Fld → msg Z := retable marshal_ann (λ ops, rev ops).
Definition gen_Size : msg Fld → msg Z := retable size_ann (λ ops, ops).
Definition gen_Unmarshal : msg Fld → msg Case := retable unmarshal_ann (λ ops, ops).

(** Does the description fit the Go struct? *)
Definition width_of (bits : Z) (signed : bool) : Width :=
  if bits =? 32 then (if signed then Int32T else Uint32T) else (if signed then Int64T else Uint64T).
Definition fits_one (T : GoT) (a : Fld) (b : base Fld) : bool :=
  match b, T with
  | Str, (GTString | GTEnum _) => true
  | Bool, GTBool => true
  | Int, GTInt bits signed =>
      match width_of bits signed, d_width a with
      | Int32T, Int32T | Int64T, Int64T | Uint32T, Uint32T | Uint64T, Uint64T => true
      | _, _ => false
      end
  | Msg (Prog n _), GTNamed n' => String.eqb n' (v1alpha1 n)
  | Msg (Ext n), GTNamed n' => String.eqb n' n && negb (bool_decide (is_Some (api_struct n)))
  | _, _ => false
  end.
Definition fits (T : GoT) (a : Fld) (q : quant) (b : base Fld) : bool :=
  match q, T, b with
  | One, T, b => fits_one T a b
  | Opt, GTPtr T, b | Rep, GTSlice T, b => fits_one T a b
  | Entries, GTMap, Entry => true
  | _, _, _ => false
  end.
(** The depth is enough for the zero value. *)
Fixpoint deep (fuel : nat) (T : GoT) : bool :=
  match T with
  | GTNamed n =>
      match api_struct n with
      | None => true
      | Some fs => match fuel with O => false | S fuel => forallb (λ f, deep fuel (fd_type f)) fs end
      end
  | _ => true
  end.
Definition op_num (o : op Fld) : Z := match o with mkOp a _ _ _ => d_num a end.
Definition op_fits (fields : list Field) (o : op Fld) : bool :=
  match o with
  | mkOp a f q b =>
      (1 <=? d_num a) && (d_num a <=? 15) &&
      match List.find (λ fd, String.eqb (fd_go fd) f) fields with Some fd => fits (fd_type fd) a q b | None => false end
  end.
Fixpoint wf (m : msg Fld) : bool :=
  match m with
  | Ext n => negb (bool_decide (is_Some (api_struct n)))
  | Prog n ops =>
      match api_struct (v1alpha1 n) with
      | None => false
      | Some fields =>
          bool_decide (NoDup (fd_go <$> fields)) && bool_decide (NoDup (op_field <$> ops)) && bool_decide (NoDup (op_num <$> ops)) &&
          deep (zero_depth - 1) (GTNamed (v1alpha1 n)) &&
          forallb (λ o, op_fits fields o && match o with mkOp _ _ _ (Msg m) => wf m | _ => true end) ops
      end
  end.

(** ** The reference: what bytes stand for a value *)
Section reference.
Context {X : Type} `{!External X}.

Definition canonical_elems : quant → val X → option (list (val X)) :=
  @elems X range_in_key_order insertion_sort.
Definition field_names (n : string) : list string := fd_go <$> default [] (api_struct (v1alpha1 n)).
Definition len (bs : list byte) : Z := Z.of_nat (length bs).
Definition delimited (bs : list byte) : list byte := varint (len bs) ++ bs.

Definition enc_value (sub : msg Fld → val X → list byte) (b : base Fld) (v : val X) : list byte :=
  match b, v with
  | Str, VStr s => delimited (bytes_of s)
  | Int, VInt z => varint (wrap_u 64 z)
  | Bool, VBool b => [byte_of_Z (if b then 1 else 0)]
  | Entry, VStruct [(_, VStr k); (_, VStr v)] =>
      delimited (byte_of_Z 0xa :: delimited (bytes_of k) ++ byte_of_Z 0x12 :: delimited (bytes_of v))
  | Msg m, v => delimited (sub m v)
  | _, _ => []
  end.
Definition enc_op (sub : msg Fld → val X → list byte) (fs : list (string * val X)) (o : op Fld) : list byte :=
  match o with
  | mkOp a f q b => concat ((λ v, byte_of_Z (tag a b) :: enc_value sub b v) <$> default [] (canonical_elems q (get f fs)))
  end.
Fixpoint enc (m : msg Fld) (v : val X) {struct m} : list byte :=
  match m, v with
  | Ext _, VExt x => ext_enc x
  | Prog _ ops, VStruct fs => concat (enc_op enc fs <$> ops)
  | _, _ => []
  end.

(** The values of the Go type. *)
Definition typed_value (sub : msg Fld → val X → Prop) (a : Fld) (b : base Fld) (v : val X) : Prop :=
  match b with
  | Str => ∃ s, v = VStr s
  | Int => ∃ z, v = VInt z ∧ conv (d_width a) z = z
  | Bool => ∃ b, v = VBool b
  | Entry => ∃ k s, v = entry k s
  | Msg m => sub m v
  end.
Definition typed_op (sub : msg Fld → val X → Prop) (fs : list (string * val X)) (o : op Fld) : Prop :=
  match o with
  | mkOp a f q b => ∃ vs, canonical_elems q (get f fs) = Some vs ∧ Forall (typed_value sub a b) vs
  end.
Fixpoint typed (m : msg Fld) (v : val X) {struct m} : Prop :=
  match m with
  | Ext n => ∃ x, v = VExt x ∧ ext_of n x
  | Prog n ops =>
      ∃ fs, v = VStruct fs ∧ fs.*1 = field_names n ∧ foldr (λ o P, typed_op typed fs o ∧ P) True ops
  end.
Lemma typed_Prog n ops v : typed (Prog n ops) v ↔ ∃ fs, v = VStruct fs ∧ fs.*1 = field_names n ∧ Forall (typed_op typed fs) ops.
Proof.
  cbn. apply exist_proper. intros fs. do 2 (apply and_iff_compat_l).
  induction ops as [|o ops IH]; cbn; [by rewrite Forall_nil|]. by rewrite Forall_cons, IH.
Qed.
End reference.

(** ** Marshalling writes the reference *)
Section writing.
Context {X : Type} `{!External X} `{!GoRange} `{!GoSort}.
#[local] Unset Default Proof Using.

Lemma sorted_keys_canonical m : sorted_keys m = @sorted_keys range_in_key_order insertion_sort m.
Proof.
  unfold sorted_keys. apply (StronglySorted_unique_strong (λ x y, String.ltb y x = false));
    try apply sort_slice_sorted, string_ltb_strict_weak.
  - intros x y _ _ H1 H2. by apply string_ltb_total.
  - rewrite !sort_slice_perm. by rewrite !range_map_perm.
Qed.
Lemma elems_canonical q (v : val X) : elems q v = canonical_elems q v.
Proof. destruct q, v; cbn; try done. by rewrite sorted_keys_canonical. Qed.
Lemma elems_any_perm q (v : val X) vs : canonical_elems q v = Some vs → ∃ vs', elems_any q v = Some vs' ∧ vs' ≡ₚ vs.
Proof.
  rewrite <- elems_canonical. intros Hv. destruct q, v; cbn in *; simplify_eq; eauto. eexists; split; [done|].
  unfold sorted_keys. rewrite sort_slice_perm, (range_map_perm m). rewrite <- list_fmap_compose. 
  apply reflexive_eq. apply Forall_fmap_ext_1. apply Forall_forall. intros [k x] Hk.
  apply elem_of_map_to_list in Hk. cbn. by rewrite Hk.
Qed.

(** [put] writes [bs] right before the index. *)
Definition writes (put : MState → result MarshalErr MState) (bs : list byte) : Prop :=
  ∀ buf i, len bs <= i <= len buf → len buf < 2 ^ 63 → put (buf, i) = Ok (placed buf (i - len bs) bs, i - len bs).

Lemma len_app a b : len (a ++ b) = len a + len b.
Proof. unfold len. rewrite length_app. lia. Qed.
Lemma len_cons x a : len (x :: a) = 1 + len a.
Proof. unfold len. cbn. lia. Qed.
Lemma len_nonneg a : 0 <= len a.
Proof. unfold len. lia. Qed.
Lemma len_placed buf i bs : 0 <= i → i + len bs <= len buf → len (placed buf i bs) = len buf.
Proof. unfold len. intros. by rewrite length_placed. Qed.

Lemma writes_seq p q a b : writes p a → writes q b → writes (λ st, let! st := p st in q st) (b ++ a).
Proof.
  intros Hp Hq buf i Hi Hb. rewrite len_app in Hi. pose proof (len_nonneg a). pose proof (len_nonneg b).
  rewrite Hp by lia. cbn [result_bind]. rewrite Hq; [|rewrite len_placed; lia..].
  rewrite len_app. f_equal. replace (i - (len b + len a)) with (i - len a - len b) by lia. f_equal.
  apply placed_before; unfold len in *; lia.
Qed.
Lemma writes_nil : writes Ok [].
Proof.
  intros buf i Hi Hb. cbn. rewrite Z.sub_0_r. f_equal. f_equal. unfold placed. cbn. by rewrite Nat.add_0_r, take_drop.
Qed.
Lemma run_app {S O E} (f : O → S → result E S) a b st : run f (a ++ b) st = let! st := run f a st in run f b st.
Proof. revert st. induction a as [|o a IH]; intros st; cbn; [done|]. destruct (f o st); cbn; [apply IH|done]. Qed.

Lemma writes_ext p q bs : (∀ st, p st = q st) → writes p bs → writes q bs.
Proof. intros E Hp buf i Hi Hb. rewrite <- E. by apply Hp. Qed.
Lemma writes_run {O} (f : O → MState → result MarshalErr MState) (g : O → list byte) os :
  Forall (λ o, writes (f o) (g o)) os → writes (run f (rev os)) (concat (g <$> os)).
Proof.
  induction 1 as [|o os Ho _ IH]; cbn [rev fmap list_fmap concat]; [apply writes_nil|].
  apply (writes_ext (λ st, let! st := run f (rev os) st in let! st := f o st in Ok st)).
  { intros st. by rewrite run_app. }
  apply writes_seq; [done|]. eapply writes_ext; [|exact Ho]. intros st. cbn. by destruct (f o st).
Qed.

Lemma run_fmap {S O O' E} (f : O → S → result E S) (h : O' → O) os st : run f (h <$> os) st = run (λ o, f (h o)) os st.
Proof. revert st. induction os as [|o os IH]; intros st; cbn; [done|]. destruct (f (h o) st); cbn; [apply IH|done]. Qed.

Lemma writes_put_byte b : writes (put_byte b) [byte_of_Z b].
Proof.
  intros buf i Hi Hb. unfold put_byte, len in *. cbn [fst snd length] in *.
  rewrite set_at_spec by lia. unfold placed. cbn [lift result_bind app length]. change (Z.of_nat 1) with 1. do 3 f_equal.
  f_equal. f_equal. lia.
Qed.
Lemma writes_put_length z : writes (put_length z) (varint (wrap_u 64 z)).
Proof.
  intros buf i Hi Hb. unfold put_length, len in *. cbn [fst snd]. rewrite encodeVarint_spec; [done| |lia].
  apply wrap_u_in. lia.
Qed.
Lemma put_length_after bs buf i : len (delimited bs) <= i <= len buf → len buf < 2 ^ 63 →
  put_length (len bs) (placed buf (i - len bs) bs, i - len bs) = Ok (placed buf (i - len (delimited bs)) (delimited bs), i - len (delimited bs)).
Proof.
  unfold delimited. rewrite len_app. intros Hi Hb. pose proof (len_nonneg bs). pose proof (len_nonneg (varint (len bs))).
  assert (wrap_u 64 (len bs) = len bs) as Hw by (apply wrap64_small; lia).
  pose proof (writes_put_length (len bs)) as Hp. rewrite Hw in Hp. rewrite Hp; [|rewrite ?len_placed; lia..].
  f_equal. replace (i - (len (varint (len bs)) + len bs)) with (i - len bs - len (varint (len bs))) by lia.
  f_equal. apply placed_before; unfold len in *; lia.
Qed.
Lemma writes_put_string s : writes (put_string s) (delimited (bytes_of s)).
Proof.
  intros buf i Hi Hb. assert (len (bytes_of s) = Z.of_nat (String.length s)) as Hs by (unfold len, bytes_of; by rewrite length_list_byte).
  unfold put_string. cbn [fst snd]. rewrite <- Hs. pose proof Hi as Hi'. unfold delimited in Hi'. rewrite len_app in Hi'.
  pose proof (len_nonneg (varint (len (bytes_of s)))). pose proof (len_nonneg (bytes_of s)).
  rewrite copy_at_spec by (unfold len in *; lia). by apply put_length_after.
Qed.
(** The length of what was just written goes before it. *)
Lemma writes_sized p bs : writes p bs → writes (λ st, let! st' := p st in put_length (st.2 - st'.2) st') (delimited bs).
Proof.
  intros Hp buf i Hi Hb. pose proof Hi as Hi'. unfold delimited in Hi'. rewrite len_app in Hi'.
  pose proof (len_nonneg (varint (len bs))). rewrite Hp by lia. cbn [result_bind fst snd].
  replace (i - (i - len bs)) with (len bs) by lia. by apply put_length_after.
Qed.
Definition entry_bytes (k v : string) : list byte := byte_of_Z 0xa :: delimited (bytes_of k) ++ byte_of_Z 0x12 :: delimited (bytes_of v).
Lemma writes_put_entry k v : writes (put_entry k v) (delimited (entry_bytes k v)).
Proof.
  apply (writes_ext (λ st, let! st' := (let! st' := (let! st' := (let! st' := put_string v st in put_byte 0x12 st') in put_string k st') in
    put_byte 0xa st') in put_length (st.2 - st'.2) st')).
  { intros st. unfold put_entry. destruct (put_string v st) as [s1|]; cbn [result_bind]; [|done].
    destruct (put_byte 0x12 s1) as [s2|]; cbn [result_bind]; [|done]. by destruct (put_string k s2). }
  apply writes_sized.
  apply (writes_seq (λ st, let! st := (let! st := put_string v st in put_byte 0x12 st) in put_string k st) _ (delimited (bytes_of k) ++ [byte_of_Z 0x12] ++ delimited (bytes_of v)) [byte_of_Z 0xa]);
    [|apply writes_put_byte]. apply (writes_seq (λ st, let! st := put_string v st in put_byte 0x12 st)); [|apply writes_put_string].
  apply writes_seq; [apply writes_put_string|apply writes_put_byte].
Qed.

(** A routine that fills the end of the buffer it is given. *)
Definition fills (sub : list byte → result MarshalErr (list byte * Z)) (bs : list byte) : Prop :=
  ∀ dAtA, len bs <= len dAtA → len dAtA < 2 ^ 63 → sub dAtA = Ok (placed dAtA (len dAtA - len bs) bs, len bs).

Lemma placed_take buf i bs : len bs <= i <= len buf →
  placed (take (Z.to_nat i) buf) (i - len bs) bs ++ drop (Z.to_nat i) buf = placed buf (i - len bs) bs.
Proof.
  intros Hi. unfold placed, len in *. rewrite take_take, Nat.min_l by lia. rewrite <- !app_assoc. f_equal. f_equal.
  replace (Z.to_nat (i - Z.of_nat (length bs)) + length bs)%nat with (Z.to_nat i) by lia.
  rewrite (drop_ge (take _ _)) by (rewrite length_take; lia). done.
Qed.
Lemma writes_put_message sub bs : fills sub bs → writes (put_message sub) (delimited bs).
Proof.
  intros Hs buf i Hi Hb. pose proof Hi as Hi'. unfold delimited in Hi'. rewrite len_app in Hi'.
  pose proof (len_nonneg (varint (len bs))). pose proof (len_nonneg bs). unfold put_message. cbn [fst snd]. fold (len buf).
  rewrite !(proj2 (Z.ltb_ge _ _)) by lia. cbn [orb].
  assert (len (take (Z.to_nat i) buf) = i) as Hl by (unfold len in *; rewrite length_take; lia).
  rewrite Hs by (rewrite Hl; lia). cbn [result_bind]. rewrite Hl, placed_take by lia. by apply put_length_after.
Qed.

Lemma writes_value (subm : msg Z → val X → list byte → result MarshalErr (list byte * Z)) a b v :
  typed_value typed a b v → base_all (λ m, typed m v → fills (subm (gen_MarshalToSizedBuffer m) v) (enc m v)) b →
  writes (put_value (rebase marshal_ann (λ ops, rev ops) b) subm v) (enc_value enc b v).
Proof.
  intros Hv Hs. destruct b; cbn in *.
  - destruct Hv as [s ->]. apply writes_put_string.
  - destruct Hv as (z & -> & _). apply writes_put_length.
  - destruct Hv as [b ->]. apply writes_put_byte.
  - destruct Hv as (k & s & ->). apply writes_put_entry.
  - apply writes_put_message. by apply Hs.
Qed.

(** The buffer of a message holds exactly the reference. *)
Lemma writes_op o fs : typed_op typed fs o →
  base_all (λ m, ∀ v, typed m v → fills (MarshalToSizedBuffer (gen_MarshalToSizedBuffer m) v) (enc m v)) (op_base o) →
  writes (put_op MarshalToSizedBuffer fs (retable_op marshal_ann (λ ops, rev ops) o)) (enc_op enc fs o).
Proof.
  destruct o as [a f q b]. cbn [typed_op op_base retable_op put_op enc_op]. intros (vs & Hvs & Hty) Hsub.
  rewrite Hvs. cbn [default].
  apply (writes_ext (run (λ v st, let! st := put_value (rebase marshal_ann (λ ops, rev ops) b) MarshalToSizedBuffer v st in
    put_byte (marshal_ann a b) st) (rev vs))).
  { intros st. unfold put_op, put_field. by rewrite elems_canonical, Hvs. }
  apply writes_run. eapply Forall_impl; [exact Hty|]. intros v Hv. cbn beta.
  apply (writes_seq _ _ (enc_value enc b v) [_]); [|apply writes_put_byte].
  eapply writes_value; [exact Hv|]. destruct b; cbn in *; auto.
Qed.
Lemma MarshalToSizedBuffer_fills m : ∀ v, typed m v → fills (MarshalToSizedBuffer (gen_MarshalToSizedBuffer m) v) (enc m v).
Proof.
  induction m as [n|n ops IH] using msg_nested_ind; intros v.
  - intros (x & -> & _) dAtA Hl Hb. apply ext_Marshal_law. unfold len in Hl. cbn in Hl. lia.
  - intros (fs & -> & _ & Hops)%typed_Prog dAtA Hl Hb. unfold gen_MarshalToSizedBuffer. rewrite retable_Prog.
    cbn [MarshalToSizedBuffer enc]. fold (len dAtA).
    assert (writes (run (put_op MarshalToSizedBuffer fs) (rev (retable_op marshal_ann (λ ops, rev ops) <$> ops))) (concat (enc_op enc fs <$> ops))) as Hw.
    { apply (writes_ext (run (λ o, put_op MarshalToSizedBuffer fs (retable_op marshal_ann (λ ops, rev ops) o)) (rev ops))).
      { intros st. rewrite <- (map_rev (retable_op _ _)). by rewrite <- run_fmap. }
      apply writes_run, Forall_forall. intros o Ho. rewrite Forall_forall in IH, Hops. apply writes_op; auto. }
    rewrite Hw by (cbn in Hl; lia). cbn [result_bind]. do 2 f_equal. lia.
Qed.

(** ** The size is the length *)
Lemma sum_Z_perm l1 l2 : l1 ≡ₚ l2 → sum_Z l1 = sum_Z l2.
Proof. unfold sum_Z. induction 1; cbn [foldr]; lia. Qed.
Lemma sum_Z_len {O} (f : O → Z) (g : O → list byte) os : Forall (λ o, f o = len (g o)) os → sum_Z (f <$> os) = len (concat (g <$> os)).
Proof.
  induction 1 as [|o os Ho _ IH]; [done|]. change (f o + sum_Z (f <$> os) = len (g o ++ concat (g <$> os))). by rewrite len_app, IH, Ho.
Qed.
Lemma len_in {O} (g : O → list byte) os o : o ∈ os → len (g o) <= len (concat (g <$> os)).
Proof.
  induction 1 as [o os|o o' os _ IH]; cbn [fmap list_fmap concat]; rewrite len_app; [pose proof (len_nonneg (concat (g <$> os)))|pose proof (len_nonneg (g o'))]; lia.
Qed.
Lemma len_varint z : in_u 64 z → len (varint z) = sovGenerated z.
Proof. apply length_varint. Qed.
Lemma len_delimited bs : len bs < 2 ^ 63 → len (delimited bs) = len bs + sovGenerated (wrap_u 64 (len bs)).
Proof.
  intros Hb. pose proof (len_nonneg bs). rewrite (proj2 (wrap64_small (len bs) ltac:(lia))).
  unfold delimited. rewrite len_app, len_varint by (unfold in_u; lia). lia.
Qed.
Lemma len_bytes_of s : len (bytes_of s) = Z.of_nat (String.length s).
Proof. unfold len, bytes_of. by rewrite length_list_byte. Qed.

Lemma value_size_len (subm : msg Z → val X → Z) a b v : typed_value typed a b v → len (enc_value enc b v) < 2 ^ 63 →
  base_all (λ m, typed m v → len (enc m v) < 2 ^ 63 → subm (gen_Size m) v = len (enc m v)) b →
  size_ann a b + value_size subm (rebase size_ann (λ ops, ops) b) v = 1 + len (enc_value enc b v).
Proof.
  assert (∀ bs, len bs <= len (delimited bs)) as Hle.
  { intros bs. unfold delimited. rewrite len_app. pose proof (len_nonneg (varint (len bs))). lia. }
  intros Hv Hl Hs. destruct b; cbn [typed_value base_all rebase size_ann] in *.
  - destruct Hv as [s ->]. cbn [enc_value value_size] in *. pose proof (Hle (bytes_of s)).
    rewrite len_delimited, len_bytes_of by lia. done.
  - destruct Hv as (z & -> & _). cbn [enc_value value_size]. by rewrite len_varint by (apply wrap_u_in; lia).
  - destruct Hv as [b ->]. done.
  - destruct Hv as (k & s & ->). cbn [enc_value value_size entry] in *.
    fold (entry_bytes k s) in *. pose proof (Hle (entry_bytes k s)).
    assert (len (entry_bytes k s) = 2 + len (delimited (bytes_of k)) + len (delimited (bytes_of s))) as He.
    { unfold entry_bytes. rewrite len_cons, len_app, len_cons. lia. }
    pose proof (len_nonneg (delimited (bytes_of k))). pose proof (len_nonneg (delimited (bytes_of s))).
    pose proof (Hle (bytes_of k)). pose proof (Hle (bytes_of s)).
    assert (len (bytes_of k) < 2 ^ 63 ∧ len (bytes_of s) < 2 ^ 63 ∧ len (entry_bytes k s) < 2 ^ 63) as (Hk & Hs' & He') by lia.
    rewrite (len_delimited _ Hk), (len_delimited _ Hs'), !len_bytes_of in He. rewrite (len_delimited _ He'), He. f_equal. f_equal; [lia|]. f_equal. f_equal. lia.
  - cbn [enc_value value_size] in *. pose proof (Hle (enc m v)). fold gen_Size. 
    change (retable size_ann (λ ops, ops) m) with (gen_Size m). rewrite Hs, len_delimited by (done || lia). done.
Qed.

Lemma op_size_len fs o : typed_op typed fs o → len (enc_op enc fs o) < 2 ^ 63 →
  base_all (λ m, ∀ v, typed m v → len (enc m v) < 2 ^ 63 → Size (gen_Size m) v = len (enc m v)) (op_base o) →
  op_size Size fs (retable_op size_ann (λ ops, ops) o) = len (enc_op enc fs o).
Proof.
  destruct o as [a f q b]. cbn [typed_op op_base retable_op op_size enc_op]. intros (vs & Hvs & Hty) Hl Hs.
  destruct (elems_any_perm _ _ _ Hvs) as (vs' & -> & Hp). rewrite Hvs in *. cbn [from_option id] in *.
  rewrite (sum_Z_perm _ _ (fmap_Permutation _ _ _ Hp)). apply sum_Z_len. apply Forall_forall. intros v Hv.
  pose proof (len_in (λ v, byte_of_Z (tag a b) :: enc_value enc b v) vs v Hv) as Hle. cbn beta in Hle.
  rewrite len_cons in *. rewrite Forall_forall in Hty. apply value_size_len; [by apply Hty|lia|]. destruct b; cbn in *; auto.
Qed.

Lemma Size_len m : ∀ v, typed m v → len (enc m v) < 2 ^ 63 → Size (gen_Size m) v = len (enc m v).
Proof.
  induction m as [n|n ops IH] using msg_nested_ind; intros v.
  - intros (x & -> & _) _. apply ext_Size_law.
  - intros (fs & -> & _ & Hops)%typed_Prog Hl. unfold gen_Size. rewrite retable_Prog. cbn [Size enc] in *.
    rewrite <- list_fmap_compose, (sum_Z_len _ (enc_op enc fs)).
    + apply wrap_s64. pose proof (len_nonneg (concat (enc_op enc fs <$> ops))). lia.
    + apply Forall_forall. intros o Ho. rewrite Forall_forall in IH, Hops. pose proof (len_in (enc_op enc fs) ops o Ho).
      apply op_size_len; [by apply Hops|lia|by apply IH].
Qed.

(** [Marshal] returns the reference: the size is right, every byte of the
    buffer is written, and nothing runs out of it. *)
Lemma Marshal_enc m v : typed m v → len (enc m v) < 2 ^ 63 → Marshal (gen_Size m) (gen_MarshalToSizedBuffer m) v = Ok (enc m v).
Proof.
  intros Hv Hl. unfold Marshal. rewrite Size_len by done. pose proof (len_nonneg (enc m v)).
  rewrite (proj2 (Z.ltb_ge _ _)) by lia. set (n := Z.to_nat (len (enc m v))).
  assert (len (replicate n Byte.x00) = len (enc m v)) as Hn by (unfold n, len; rewrite length_replicate; lia).
  rewrite MarshalToSizedBuffer_fills by (rewrite ?Hn; done || lia). cbn [result_bind]. rewrite Hn, Z.sub_diag.
  assert (placed (replicate n Byte.x00) 0 (enc m v) = enc m v) as ->.
  { unfold placed. cbn. rewrite drop_ge, app_nil_r; [done|]. rewrite length_replicate. unfold n, len. lia. }
  fold (len (enc m v)). rewrite !(proj2 (Z.ltb_ge _ _)) by lia. cbn. f_equal. apply take_ge. unfold n, len. lia.
Qed.
End writing.

(** ** Unmarshalling ends, and keeps the type *)
Section reading.
Context {X : Type} `{!External X}.
#[local] Unset Default Proof Using.
Implicit Types (fs : list (string * val X)) (v cur : val X).

Lemma set_keys f v fs : (set f v fs).*1 = fs.*1.
Proof. unfold set. induction fs as [|[g w] fs IH]; cbn; [done|]. rewrite IH. by destruct (String.eqb_spec g f) as [->|]. Qed.
Lemma get_set f v fs : f ∈ fs.*1 → get f (set f v fs) = v.
Proof.
  unfold get, set. induction fs as [|[g w] fs IH]; cbn; [by intros ?%not_elem_of_nil|]. destruct (String.eqb_spec g f) as [->|Hg]; cbn.
  - by rewrite String.eqb_refl.
  - rewrite (proj2 (String.eqb_neq g f)) by done. intros [?|?]%elem_of_cons; [congruence|]. by apply IH.
Qed.
Lemma get_set_ne f g v fs : f ≠ g → get f (set g v fs) = get f fs.
Proof.
  intros Hne. unfold get, set. induction fs as [|[h w] fs IH]; cbn; [done|]. destruct (String.eqb_spec h g) as [->|Hh]; cbn.
  - by rewrite (proj2 (String.eqb_neq g f)) by done.
  - by destruct (String.eqb h f).
Qed.
Lemma set_get f fs : NoDup fs.*1 → set f (get f fs) fs = fs.
Proof.
  unfold get, set. induction fs as [|[g w] fs IH]; cbn; [done|]. intros [Hn Hd]%NoDup_cons.
  destruct (String.eqb_spec g f) as [->|Hg]; cbn.
  - f_equal. rewrite <- (list_fmap_id fs) at 2. apply Forall_fmap_ext_1, Forall_forall. intros [h u] Hh. cbn.
    destruct (String.eqb_spec h f) as [->|]; [|done]. destruct Hn. by apply (list_elem_of_fmap_2 fst) in Hh.
  - f_equal. by apply IH.
Qed.

Definition field_typed (a : Fld) (q : quant) (b : base Fld) v : Prop :=
  ∃ vs, canonical_elems q v = Some vs ∧ Forall (typed_value typed a b) vs.

(** *** Zero values *)
Lemma zero_of_S k : ∀ T, deep k T = true → zero_of (X := X) (S k) T = zero_of k T.
Proof.
  induction k as [|k IH]; intros [| | | | | | |n] Hd; try done; cbn in Hd |- *; destruct (api_struct n) as [fs|]; try done.
  f_equal. apply list_fmap_ext. intros i f Hi. f_equal. apply IH.
  rewrite forallb_forall in Hd. apply (Hd f). apply list_elem_of_In. by eapply list_elem_of_lookup_2.
Qed.
Definition zero_field (q : quant) (b : base Fld) : val X :=
  match q, b with
  | One, Str => VStr ""
  | One, Int => VInt 0
  | One, Bool => VBool false
  | One, Msg m => zero_msg m
  | _, _ => VNil
  end.
Definition wf_base (b : base Fld) : bool := match b with Msg m => wf m | _ => true end.

Lemma wf_Prog n ops : wf (Prog n ops) = true → ∃ fields, api_struct (v1alpha1 n) = Some fields ∧
  NoDup (fd_go <$> fields) ∧ NoDup (op_field <$> ops) ∧ NoDup (op_num <$> ops) ∧ deep (zero_depth - 1) (GTNamed (v1alpha1 n)) = true ∧
  Forall (λ o, op_fits fields o = true ∧ wf_base (op_base o) = true) ops.
Proof.
  cbn [wf]. destruct (api_struct (v1alpha1 n)) as [fields|]; [|done].
  intros [[[[H1 H2]%andb_prop H3]%andb_prop H4]%andb_prop H5]%andb_prop. apply bool_decide_eq_true in H1, H2, H3.
  exists fields. split_and!; try done. apply Forall_forall. intros o Ho. rewrite forallb_forall in H5.
  specialize (H5 o). rewrite <- list_elem_of_In in H5. specialize (H5 Ho). apply andb_prop in H5 as [H5 H6]. split; [done|].
  by destruct o as [a f q []].
Qed.

Lemma fits_zero T a q b : fits T a q b = true → wf_base b = true → zero_of (zero_depth - 1) T = zero_field q b.
Proof.
  destruct q; cbn [fits]; intros Hf Hw; [|by destruct T..|by destruct T, b].
  destruct b as [| | | |m]; cbn [fits_one] in Hf; [by destruct T..|]. destruct m as [n|n ops], T; try done.
  - apply andb_prop in Hf as [->%String.eqb_eq Hn]. cbn. destruct (api_struct n) eqn:E; [|done].
    apply negb_true_iff, bool_decide_eq_false in Hn. by destruct Hn.
  - apply String.eqb_eq in Hf as ->. apply wf_Prog in Hw as (fields & _ & _ & _ & _ & Hd & _).
    symmetry. by apply (zero_of_S (zero_depth - 1)).
Qed.
Lemma zero_msg_Prog {I} n (ops : list (op I)) fields : api_struct (v1alpha1 n) = Some fields →
  zero_msg (X := X) (Prog n ops) = VStruct ((λ f, (fd_go f, zero_of (zero_depth - 1) (fd_type f))) <$> fields).
Proof. intros E. cbn. by rewrite E. Qed.
Lemma get_zero fields f fd : List.find (λ fd, String.eqb (fd_go fd) f) fields = Some fd →
  get f ((λ f, (fd_go f, zero_of (X := X) (zero_depth - 1) (fd_type f))) <$> fields) = zero_of (zero_depth - 1) (fd_type fd).
Proof.
  unfold get. induction fields as [|g fields IH]; [done|]. cbn [List.find fmap list_fmap fst snd].
  destruct (String.eqb (fd_go g) f); [by intros [= ->]|]. apply IH.
Qed.

(** The fields of a zero message. *)
Lemma zero_fields n ops : wf (Prog n ops) = true → ∃ zs, zero_msg (Prog n ops) = VStruct zs ∧ zs.*1 = field_names n ∧ NoDup zs.*1 ∧
  Forall (λ o, op_field o ∈ zs.*1 ∧ match o with mkOp _ f q b => get f zs = zero_field q b end) ops.
Proof.
  intros (fields & E & Hnd & _ & _ & _ & Hops)%wf_Prog. eexists. split; [by apply zero_msg_Prog|].
  rewrite <- list_fmap_compose. unfold field_names. rewrite E. split_and!; [done|done|].
  eapply Forall_impl; [exact Hops|]. intros [a f q b] [Hf Hw]. cbn in Hf, Hw. cbn [op_field]. apply andb_prop in Hf as [_ Hf].
  destruct (List.find _ fields) as [fd|] eqn:Hfd; [|done]. split; [|by rewrite (get_zero _ _ _ Hfd); eapply fits_zero].
  apply List.find_some in Hfd as [Hin <-%String.eqb_eq]. apply (list_elem_of_fmap_2 fd_go). by apply list_elem_of_In.
Qed.

Lemma typed_zero m : wf m = true → typed m (zero_msg m).
Proof.
  induction m as [n|n ops IH] using msg_nested_ind; intros Hw; [exists (ext_zero n); split; [done|apply ext_zero_of]|].
  destruct (zero_fields n ops Hw) as (zs & Hz & Hk & _ & Hzs). rewrite Hz. apply typed_Prog. exists zs. split_and!; [done|done|].
  apply wf_Prog in Hw as (fields & _ & _ & _ & _ & _ & Hops). rewrite Forall_forall in IH, Hzs, Hops |- *. intros o Ho.
  destruct (Hzs o Ho) as [_ Hget]. destruct (Hops o Ho) as [Hf Hwb]. specialize (IH o Ho).
  destruct o as [a f q b]. cbn in IH, Hwb, Hf. apply andb_prop in Hf as [_ Hf]. cbn [typed_op].
  rewrite Hget. destruct q; [|by eexists..]. exists [zero_field One b]. split; [done|]. apply Forall_singleton.
  destruct (List.find _ fields) as [fd|]; [|done]. destruct b; cbn in *; eauto using conv_0.
  by destruct (fd_type fd).
Qed.

(** *** One field at a time *)
(** A reader of a field: it ends, moves on, and gives a value of the type. *)
Definition reads (P : val X → Prop) (read : val X → Z → list byte → result ProtoError (val X * list byte)) : Prop :=
  ∀ cur l rest, P cur → len rest <= l < 2 ^ 63 →
    ends (read cur l rest) ∧ ∀ v rest', read cur l rest = Ok (v, rest') → P v ∧ (length rest' < length rest)%nat.

Lemma skip_unknown_spec l bound rest : rest ≠ [] → len rest <= l < 2 ^ 63 → bound <= l →
  ends (skip_unknown l bound rest) ∧ ∀ rest', skip_unknown l bound rest = Ok rest' → (length rest' < length rest)%nat.
Proof.
  intros Hne Hl Hb. unfold skip_unknown. destruct (skip_spec rest) as [He Hok]; [unfold len in Hl; lia|].
  destruct (skipGenerated rest) as [n|e]; cbn [result_bind]; [|by split].
  destruct (Hok n eq_refl) as [Hn Hn']. rewrite (proj2 (Z.ltb_ge n 0)) by lia. cbn [orb].
  destruct (wrap64_sum (index l rest) n) as [[-> _]|Hneg]; [unfold index, len in *; lia|lia| |by rewrite (proj2 (Z.ltb_lt _ 0))].
  destruct (Z.ltb_spec (index l rest + n) 0); [done|]. destruct (Z.ltb_spec bound (index l rest + n)); [done|].
  rewrite slice_ok by (unfold index in *; lia). cbn [result_bind]. split; [done|]. intros rest' [= <-].
  rewrite length_drop. destruct rest; [done|]. cbn [length]. lia.
Qed.

Lemma index_lt l rest : len rest <= l → index l rest < l → rest ≠ [].
Proof. unfold index. intros _ Hi ->. cbn in Hi. lia. Qed.

Lemma read_entry_ends fuel : ∀ l post rest k s, (length rest < fuel)%nat → len rest <= l < 2 ^ 63 → post <= l → ends (read_entry fuel l post rest k s).
Proof.
  induction fuel as [|fuel IH]; intros l post rest k s Hf Hl Hp; [lia|]. cbn [read_entry].
  destruct (Z.ltb_spec (index l rest) post); [|done]. apply ends_bind; [apply ends_read_varint|]. intros [wire rest'] Hr.
  apply read_varint_short in Hr as [Hr _].
  assert (∀ bs r, read_bytes Uint64T l rest' = Ok (bs, r) → (length r < fuel)%nat ∧ len r <= l < 2 ^ 63) as Hb.
  { intros bs r [Hb _]%read_bytes_short. unfold len in *. lia. }
  repeat case_match.
  - apply ends_bind; [apply ends_read_bytes; unfold len in *; lia|]. intros [bs r] [??]%Hb. by apply IH.
  - apply ends_bind; [apply ends_read_bytes; unfold len in *; lia|]. intros [bs r] [??]%Hb. by apply IH.
  - destruct (skip_unknown_spec l post rest) as [He Hs]; [apply (index_lt l); lia|done|lia|].
    apply ends_bind; [done|]. intros r Hr'%Hs. apply IH; unfold len in *; lia.
Qed.

Definition fits_shape (q : quant) (b : base Fld) : Prop := match q, b with Entries, Entry => True | Entries, _ | _, Entry => False | _, _ => True end.
Lemma fits_fits_shape T a q b : fits T a q b = true → fits_shape q b.
Proof. by destruct q, T, b; cbn; intros. Qed.

Lemma field_typed_place a q b cur v : field_typed a q b cur → q ≠ Entries → typed_value typed a b v → field_typed a q b (place q cur v).
Proof.
  intros (vs & Hvs & Hty) Hq Hv. destruct q; try done; cbn [place]; [exists [v]|exists [v]|].
  - by split; [|apply Forall_singleton].
  - by split; [|apply Forall_singleton].
  - destruct cur; simplify_eq/=; [exists [v]|eexists]; (split; [done|]); rewrite ?Forall_app, ?Forall_singleton; done.
Qed.
Lemma typed_target a q m cur : field_typed a q (Msg m) cur → wf m = true → typed m (target q m cur).
Proof.
  intros (vs & Hvs & Hty) Hw.
  destruct q; [|destruct cur; try by apply typed_zero|by destruct cur; apply typed_zero|by destruct cur; apply typed_zero].
  - injection Hvs as <-. rewrite Forall_singleton in Hty. exact Hty.
  - injection Hvs as <-. rewrite Forall_singleton in Hty. exact Hty.
Qed.
Lemma zero_msg_gen m : zero_msg (X := X) (gen_Unmarshal m) = zero_msg m.
Proof. by destruct m. Qed.
Lemma target_gen q m cur : target q (gen_Unmarshal m) cur = target q m cur.
Proof. destruct q, cur; cbn [target]; by rewrite ?zero_msg_gen. Qed.
Lemma field_typed_map a (m : gmap string string) : field_typed a Entries Entry (VMap m).
Proof. eexists. split; [done|]. apply Forall_fmap, Forall_forall. intros k _. cbn. eauto. Qed.

Lemma reads_field a q b (subm : msg Case → val X → list byte → result ProtoError (val X)) : fits_shape q b → wf_base b = true →
  base_all (λ m, ∀ v bs, typed m v → len bs < 2 ^ 63 →
    ends (subm (gen_Unmarshal m) v bs) ∧ ∀ v', subm (gen_Unmarshal m) v bs = Ok v' → typed m v') b →
  reads (field_typed a q b) (read_field subm (read_width a b) q (rebase unmarshal_ann (λ ops, ops) b)).
Proof.
  intros Hsh Hw Hsub cur l rest Hcur Hl.
  assert (∀ t bs r, read_bytes t l rest = Ok (bs, r) → (length r < length rest)%nat) as Hshort by (by intros t bs r [? _]%read_bytes_short).
  assert (q ≠ Entries ∨ b = Entry) as Hq by (destruct q, b; auto).
  destruct b as [| | | |m]; cbn [rebase read_field read_width] in *.
  - split; [apply ends_bind; [apply ends_read_bytes; unfold len in *; lia|by intros []]|]. intros v rest' Hr.
    destruct (read_bytes Uint64T l rest) as [[bs r]|] eqn:E; simplify_eq/=. split; [|by eapply Hshort].
    destruct Hq as [Hq|]; [|done]. apply field_typed_place; [done..|]. cbn. eauto.
  - split; [apply ends_bind; [apply ends_read_varint|by intros []]|]. intros v rest' Hr.
    destruct (read_varint (d_width a) 0 0 rest) as [[z r]|] eqn:E; simplify_eq/=. split; [|by eapply read_varint_short].
    rewrite <- (conv_0 (d_width a)) in E. destruct (read_varint_conv (d_width a) rest 0 0 z rest') as [z' ->].
    { by rewrite conv_0 in E |- *. }
    destruct Hq as [Hq|]; [|done]. apply field_typed_place; [done..|]. cbn. eauto using conv_conv.
  - split; [apply ends_bind; [apply ends_read_varint|by intros []]|]. intros v rest' Hr.
    destruct (read_varint IntT 0 0 rest) as [[z r]|] eqn:E; simplify_eq/=. split; [|by eapply read_varint_short].
    destruct Hq as [Hq|]; [|done]. apply field_typed_place; [done..|]. cbn. eauto.
  - split.
    + apply ends_bind; [apply ends_read_bytes; unfold len in *; lia|]. intros [bs post] E. apply ends_bind; [|by intros []].
      pose proof (read_bytes_split _ _ _ _ _ E). apply read_entry_ends; unfold len, index in *; rewrite ?length_app; lia.
    + intros v rest' Hr. destruct (read_bytes IntT l rest) as [[bs post]|] eqn:E; cbn [result_bind] in Hr; [|done].
      destruct (read_entry _ _ _ _ _ _) as [[k s]|]; simplify_eq/=. split; [|by eapply Hshort].
      destruct q; try done. apply field_typed_map.
  - destruct Hq as [Hq|]; [|done]. split.
    + apply ends_bind; [apply ends_read_bytes; unfold len in *; lia|]. intros [bs r] E. apply ends_bind; [|by intros].
      change (retable unmarshal_ann (λ ops, ops) m) with (gen_Unmarshal m). rewrite target_gen. apply Hsub; [by eapply typed_target|]. pose proof (read_bytes_split _ _ _ _ _ E). unfold len in *. lia.
    + intros v rest' Hr. destruct (read_bytes IntT l rest) as [[bs r]|] eqn:E; cbn [result_bind] in Hr; [|done].
      change (retable unmarshal_ann (λ ops, ops) m) with (gen_Unmarshal m) in Hr. rewrite target_gen in Hr.
      destruct (subm (gen_Unmarshal m) _ bs) as [v'|] eqn:E'; simplify_eq/=. split; [|by eapply Hshort].
      apply field_typed_place; [done..|]. cbn. pose proof (read_bytes_split _ _ _ _ _ E).
      eapply Hsub; [| |exact E']; [by eapply typed_target|unfold len in *; lia].
Qed.

(** *** The whole message *)
Lemma read_fields_spec n (names : list string) (P : string → val X → Prop) (cases : list handler) :
  Forall (λ h, reads (P h.1.2) h.2 ∧ h.1.2 ∈ names) cases →
  ∀ fuel l rest fs, (length rest < fuel)%nat → len rest <= l < 2 ^ 63 → fs.*1 = names → Forall (λ h, P h.1.2 (get h.1.2 fs)) cases →
    ends (read_fields fuel n cases l rest fs) ∧
    ∀ fs', read_fields fuel n cases l rest fs = Ok fs' → fs'.*1 = names ∧ Forall (λ h, P h.1.2 (get h.1.2 fs')) cases.
Proof.
  intros Hc. induction fuel as [|fuel IH]; intros l rest fs Hf Hl Hk Hfs; [lia|]. cbn [read_fields].
  destruct (Z.ltb_spec (index l rest) l) as [Hi|]; [|split; [done|]; by intros fs' [= <-]].
  destruct (read_varint Uint64T 0 0 rest) as [[wire rest']|e] eqn:E; cbn [result_bind].
  2: { split; [|done]. pose proof (ends_read_varint Uint64T 0 0 rest) as He. by rewrite E in He. }
  apply read_varint_short in E as [Hr _]. cbv zeta.
  destruct (Z.land wire 7 =? 4); [done|]. destruct (wrap_s 32 (Z.shiftr wire 3) <=? 0); [done|]. 
  match goal with |- context [List.find ?p cases] => destruct (List.find p cases) as [[[c f] read]|] eqn:Hfind end.
  - apply List.find_some in Hfind as [Hin%list_elem_of_In _]. destruct (negb _); [done|].
    pose proof (proj1 (Forall_forall _ _) Hc _ Hin) as [Hread Hname]. pose proof (proj1 (Forall_forall _ _) Hfs _ Hin) as Hcur.
    cbn in Hread, Hname, Hcur. destruct (Hread (get f fs) l rest') as [He Hok]; [done|unfold len in *; lia|].
    destruct (read (get f fs) l rest') as [[v r]|e]; cbn [result_bind]; [|by split].
    destruct (Hok v r eq_refl) as [Hv Hlen]. apply IH; [lia|unfold len in *; lia|by rewrite set_keys|].
    eapply Forall_impl; [exact Hfs|]. intros [[c' f'] read'] Hx. cbn in Hx |- *.
    destruct (decide (f' = f)) as [->|Hne]; [|by rewrite get_set_ne]. rewrite get_set; [done|]. by rewrite Hk.
  - destruct (skip_unknown_spec l l rest) as [He Hs]; [apply (index_lt l); lia|done|lia|].
    destruct (skip_unknown l l rest) as [r|e]; cbn [result_bind]; [|by split].
    specialize (Hs r eq_refl). apply IH; try done; unfold len in *; lia.
Qed.

Lemma typed_op_field fs a f q b : typed_op typed fs (mkOp a f q b) ↔ field_typed a q b (get f fs).
Proof. done. Qed.

Lemma reads_iff (P Q : val X → Prop) read : (∀ v, Q v ↔ P v) → reads P read → reads Q read.
Proof.
  intros HPQ Hr cur l rest Hcur%HPQ Hl. destruct (Hr cur l rest Hcur Hl) as [He Hok]. split; [done|].
  intros v rest' [Hv Hlen]%Hok. by rewrite HPQ.
Qed.
Lemma reads_op (o : op Fld) fields (subm : msg Case → val X → list byte → result ProtoError (val X)) :
  op_fits fields o = true → wf_base (op_base o) = true →
  base_all (λ m, ∀ v bs, typed m v → len bs < 2 ^ 63 →
    ends (subm (gen_Unmarshal m) v bs) ∧ ∀ v', subm (gen_Unmarshal m) v bs = Ok v' → typed m v') (op_base o) →
  reads (λ v, match o with mkOp a _ q b => field_typed a q b v end) (case_of subm (retable_op unmarshal_ann (λ ops, ops) o)).2.
Proof.
  destruct o as [a f q b]. intros [_ Hf]%andb_prop Hw Hs. cbn [retable_op case_of snd].
  destruct (List.find _ fields) as [fd|]; [|done]. apply reads_field; [by eapply fits_fits_shape|done..].
Qed.

(** On any bytes, [Unmarshal] into a value of the type returns an error of the
    code or a value of the type. *)
Lemma Unmarshal_spec m : wf m = true → ∀ v dAtA, typed m v → len dAtA < 2 ^ 63 →
  ends (Unmarshal (gen_Unmarshal m) v dAtA) ∧ ∀ v', Unmarshal (gen_Unmarshal m) v dAtA = Ok v' → typed m v'.
Proof.
  induction m as [n|n ops IH] using msg_nested_ind; intros Hw v dAtA.
  - intros (x & -> & Hx) _. cbn. destruct (ext_Unmarshal n x dAtA) as [x'|e] eqn:E; split; try done.
    intros v' [= <-]. exists x'. split; [done|]. by eapply ext_typed_law.
  - intros (fs & -> & Hk & Hops)%typed_Prog Hl. unfold gen_Unmarshal. rewrite retable_Prog. cbn [Unmarshal].
    set (P f v := Forall (λ o, match o with mkOp a g q b => f = g → field_typed a q b v end) ops).
    set (cases := case_of Unmarshal <$> (retable_op unmarshal_ann (λ ops, ops) <$> ops)).
    assert (∀ fs, Forall (λ h, P h.1.2 (get h.1.2 fs)) cases ↔ Forall (typed_op typed fs) ops) as HP.
    { intros fs'. unfold cases, P. rewrite !Forall_fmap, !Forall_forall. split.
      - intros Hx [a f q b] Ho. pose proof (proj1 (Forall_forall _ _) (Hx _ Ho) _ Ho eq_refl) as Hy. exact Hy.
      - intros Hx [a f q b] _. cbn. apply Forall_forall. intros [a' g q' b'] Ho' ->. exact (Hx _ Ho'). }
    destruct (read_fields_spec n (field_names n) P cases) with (fuel := S (length dAtA)) (l := len dAtA) (rest := dAtA) (fs := fs) as [He Hok];
      [|lia|unfold len in *; lia|done|by apply HP|].
    { destruct (zero_fields n ops Hw) as (zs & _ & Hzk & _ & Hzs). rewrite Hzk in Hzs.
      apply wf_Prog in Hw as (fields & _ & _ & Hnd & _ & _ & Hfit). unfold cases. rewrite !Forall_fmap, Forall_forall. intros o Ho.
      rewrite Forall_forall in IH, Hfit, Hzs. destruct (Hfit o Ho) as [Hf Hwb]. specialize (IH o Ho). destruct (Hzs o Ho) as [Hin _].
      split; [|by destruct o]. eapply reads_iff; [|eapply (reads_op o fields); [done..|]].
      - intros v. unfold P. destruct o as [a f q b]. cbn. rewrite Forall_forall. split; [intros Hx; exact (Hx _ Ho eq_refl)|].
        intros Hx o' Ho'. destruct o' as [a' g q' b'] eqn:Eo'. intros ->.
        assert (mkOp a' g q' b' = mkOp a g q b) as [= -> -> ->]; [|exact Hx].
        eapply NoDup_fmap_elem; [exact Hnd|done..].
      - destruct o as [a f q b], b; cbn in *; eauto. }
    fold (len dAtA). split.
    + apply ends_bind; [done|]. by intros.
    + intros v' Hv'. destruct (read_fields _ _ _ _ _ _) as [fs'|] eqn:E; simplify_eq/=. destruct (Hok fs' eq_refl) as [Hk' Hfs'].
      apply (typed_Prog n ops). exists fs'. split_and!; [done|done|]. by apply HP.
Qed.

(** ** What was written is read back *)
(** The value as it is read back: fields outside the message are zero, an
    empty slice or map is nil. *)
Definition canon_value (sub : msg Fld → val X → val X) (b : base Fld) v : val X := match b with Msg m => sub m v | _ => v end.
Definition canon_field (sub : msg Fld → val X → val X) (q : quant) (b : base Fld) v : val X :=
  match q, v with
  | One, v => canon_value sub b v
  | Opt, VPtr v => VPtr (canon_value sub b v)
  | Rep, VSlice [] => VNil
  | Rep, VSlice vs => VSlice (canon_value sub b <$> vs)
  | Entries, VMap m => if decide (m = ∅) then VNil else VMap m
  | _, v => v
  end.
Definition fields_of v : list (string * val X) := match v with VStruct fs => fs | _ => [] end.
Definition canon_op (sub : msg Fld → val X → val X) fs (zs : list (string * val X)) (o : op Fld) : list (string * val X) :=
  match o with mkOp _ f q b => set f (canon_field sub q b (get f fs)) zs end.
Fixpoint canon (m : msg Fld) v {struct m} : val X :=
  match m, v with
  | Ext _, VExt x => VExt (ext_canon x)
  | Prog n ops, VStruct fs => VStruct (foldl (canon_op canon fs) (fields_of (zero_of zero_depth (GTNamed (v1alpha1 n)))) ops)
  | _, v => v
  end.

(** Some rounds of the loop. *)
Definition moves n (cases : list handler) l (inp : list byte) fs (rest : list byte) fs' : Prop :=
  ∀ fuel, (length inp < fuel)%nat → ∃ fuel', (length rest < fuel')%nat ∧
    read_fields fuel n cases l inp fs = read_fields fuel' n cases l rest fs'.
Lemma moves_refl n cases l inp fs : moves n cases l inp fs inp fs.
Proof. intros fuel Hf. eauto. Qed.
Lemma moves_trans n cases l a fa b fb c fc : moves n cases l a fa b fb → moves n cases l b fb c fc → moves n cases l a fa c fc.
Proof. intros Ha Hb fuel (f1 & H1 & ->)%Ha. destruct (Hb f1 H1) as (f2 & H2 & ->). eauto. Qed.

Lemma tag_parts (a : Fld) (b : base Fld) : 1 <= d_num a <= 15 → 0 <= tag a b < 128 ∧ wrap_s 32 (Z.shiftr (tag a b) 3) = d_num a ∧ Z.land (tag a b) 7 = wire_type b.
Proof.
  intros Ha. assert (0 <= wire_type b < 8) by (destruct b; cbn; lia). unfold tag. split; [lia|]. split.
  - rewrite Z.shiftr_div_pow2 by lia. change (2 ^ 3) with 8. rewrite Z.div_add_l, (Z.div_small (wire_type b)), Z.add_0_r by lia.
    apply wrap_s_small; [lia|]. unfold in_s. lia.
  - change 7 with (Z.ones 3). rewrite Z.land_ones by lia. change (2 ^ 3) with 8. rewrite Z.add_comm, Z.mod_add, Z.mod_small by lia. done.
Qed.
Lemma wire_type_not_4 (b : base Fld) : (wire_type b =? 4) = false.
Proof. by destruct b. Qed.

(** One value of a field. *)
Definition place_value (q : quant) (b : base Fld) cur v : val X :=
  match b, v with
  | Entry, VStruct [(_, VStr k); (_, VStr s)] => VMap (<[k := s]> (map_of_val cur))
  | _, v => place q cur v
  end.
Lemma find_case (subm : msg Case → val X → list byte → result ProtoError (val X)) ops o : NoDup (op_num <$> ops) → o ∈ ops →
  List.find (λ h : handler, c_num h.1.1 =? op_num o) (case_of subm <$> (retable_op unmarshal_ann (λ ops, ops) <$> ops)) =
    Some (case_of subm (retable_op unmarshal_ann (λ ops, ops) o)).
Proof.
  intros Hnd Ho. induction Ho as [o ops|o o' ops Ho IH]; cbn.
  - destruct o as [a f q b]. cbn. by rewrite Z.eqb_refl.
  - apply NoDup_cons in Hnd as [Hni Hnd]. destruct o' as [a' f' q' b']. cbn. cbn in Hni.
    destruct (Z.eqb_spec (d_num a') (op_num o)) as [E|]; [|by apply IH]. destruct Hni. rewrite E. by apply list_elem_of_fmap_2.
Qed.

Lemma string_bytes s : string_of (bytes_of s) = s.
Proof. apply String.string_of_list_byte_of_string. Qed.
Lemma read_delimited t l bs rest : conv t = wrap_s 64 ∨ conv t = wrap_u 64 → len (delimited bs ++ rest) <= l < 2 ^ 63 →
  read_bytes t l (delimited bs ++ rest) = Ok (bs, rest).
Proof. unfold delimited, len. rewrite <- !app_assoc. by apply read_bytes_roundtrip. Qed.

Lemma read_entry_part fuel l post r k s x t : t = 0xa ∨ t = 0x12 → index l (byte_of_Z t :: delimited (bytes_of x) ++ r) < post →
  len (byte_of_Z t :: delimited (bytes_of x) ++ r) <= l < 2 ^ 63 →
  read_entry (S fuel) l post (byte_of_Z t :: delimited (bytes_of x) ++ r) k s =
    if t =? 0xa then read_entry fuel l post r x s else read_entry fuel l post r k x.
Proof.
  intros Ht Hi Hl. cbn [read_entry]. rewrite (proj2 (Z.ltb_lt _ _)) by done. rewrite read_tag by lia. cbn [result_bind].
  rewrite len_cons in Hl. rewrite read_delimited by (by right || lia). cbn [result_bind]. rewrite string_bytes.
  by destruct Ht as [-> | ->].
Qed.
Lemma read_entry_bytes l k s post fuel : len (entry_bytes k s ++ post) <= l < 2 ^ 63 →
  read_entry (S (S (S fuel))) l (index l post) (entry_bytes k s ++ post) "" "" = Ok (k, s).
Proof.
  intros Hl. unfold entry_bytes in *. cbn [app] in *. rewrite <- !app_assoc in *. cbn [app] in *.
  assert (∀ x (a : list byte), index l (x :: a ++ post) < index l post) as Hidx by (intros x a; unfold index; cbn [length]; rewrite length_app; lia).
  rewrite read_entry_part; [cbn [Z.eqb Pos.eqb]|by left| |done].
  2: { pose proof (Hidx (byte_of_Z 0xa) (delimited (bytes_of k) ++ byte_of_Z 0x12 :: delimited (bytes_of s))) as Hx.
       by rewrite <- app_assoc in Hx. }
  rewrite read_entry_part; [cbn [Z.eqb Pos.eqb]|by right|apply Hidx|].
  - cbn [read_entry]. rewrite (proj2 (Z.ltb_ge _ _)) by lia. done.
  - rewrite len_cons, len_app in Hl. pose proof (len_nonneg (delimited (bytes_of k))). lia.
Qed.

Lemma read_value a q b v cur l rest : typed_value typed a b v → len (enc_value enc b v ++ rest) <= l < 2 ^ 63 →
  base_all (λ m, target q m cur = zero_msg m ∧ Unmarshal (gen_Unmarshal m) (zero_msg m) (enc m v) = Ok (canon m v)) b →
  read_field Unmarshal (read_width a b) q (rebase unmarshal_ann (λ ops, ops) b) cur l (enc_value enc b v ++ rest) =
    Ok (place_value q b cur (canon_value canon b v), rest).
Proof.
  intros Hv Hl Hs. destruct b as [| | | |m]; cbn [typed_value rebase read_field read_width base_all enc_value canon_value place_value] in *.
  - destruct Hv as [s ->]. cbn [enc_value] in *. rewrite read_delimited by (done || by right). cbn [result_bind]. by rewrite string_bytes.
  - destruct Hv as (z & -> & Hz). cbn [enc_value] in *. rewrite read_varint_roundtrip by (apply wrap_u_in; lia). cbn [result_bind].
    by rewrite conv_wrap_u64, Hz.
  - by destruct Hv as [[] ->].
  - destruct Hv as (k & s & ->). cbn [enc_value entry] in *. fold (entry_bytes k s) in *.
    rewrite read_delimited by (done || by left). cbn [result_bind]. unfold delimited in *.
    destruct (length ((varint (len (entry_bytes k s)) ++ entry_bytes k s) ++ rest)) as [|[|fuel]] eqn:E.
    1-2: unfold entry_bytes in E; rewrite !length_app in E; cbn [length] in E; rewrite length_app in E; cbn [length] in E; lia.
    rewrite read_entry_bytes; [done|]. rewrite !len_app in *. pose proof (len_nonneg (varint (len (entry_bytes k s)))). lia.
  - destruct Hs as [Ht Hu]. rewrite read_delimited by (done || by left). cbn [result_bind].
    change (retable unmarshal_ann (λ ops, ops) m) with (gen_Unmarshal m). rewrite target_gen, Ht, Hu. done.
Qed.

Lemma read_round n ops a f q b v fs l rest : wf (Prog n ops) = true → mkOp a f q b ∈ ops → typed_value typed a b v →
  len (byte_of_Z (tag a b) :: enc_value enc b v ++ rest) <= l < 2 ^ 63 →
  base_all (λ m, target q m (get f fs) = zero_msg m ∧ Unmarshal (gen_Unmarshal m) (zero_msg m) (enc m v) = Ok (canon m v)) b →
  moves n (case_of Unmarshal <$> (retable_op unmarshal_ann (λ ops, ops) <$> ops)) l
    (byte_of_Z (tag a b) :: enc_value enc b v ++ rest) fs rest (set f (place_value q b (get f fs) (canon_value canon b v)) fs).
Proof.
  intros Hw Ho Hv Hl Hs fuel Hf. destruct fuel as [|fuel]; [lia|]. exists fuel. split; [cbn [length] in Hf; rewrite length_app in Hf; lia|].
  apply wf_Prog in Hw as (fields & _ & _ & _ & Hnd & _ & Hops). rewrite Forall_forall in Hops. destruct (Hops _ Ho) as [Hfit _].
  cbn in Hfit. apply andb_prop in Hfit as [[H1%Z.leb_le H2%Z.leb_le]%andb_prop _].
  destruct (tag_parts a b) as (Ht & Hn & Hw); [lia|]. cbn [read_fields].
  rewrite (proj2 (Z.ltb_lt _ _)) by (unfold index; cbn [length]; lia). rewrite read_tag by done. cbn [result_bind]. cbv zeta.
  rewrite Hn, Hw, wire_type_not_4, (proj2 (Z.leb_gt _ _)) by lia. change (d_num a) with (op_num (mkOp a f q b)).
  rewrite (find_case Unmarshal ops _ Hnd Ho). cbn [retable_op case_of]. rewrite Z.eqb_refl. cbn [negb].
  rewrite len_cons in Hl. cbn [unmarshal_ann c_width]. rewrite read_value by (done || lia). done.
Qed.

Lemma set_set f v w fs : set f v (set f w fs) = set f v fs.
Proof.
  unfold set. rewrite <- list_fmap_compose. apply list_fmap_ext. intros _ [g u] _. cbn.
  by destruct (String.eqb_spec g f) as [->|Hg]; cbn; [rewrite String.eqb_refl|rewrite (proj2 (String.eqb_neq _ _))].
Qed.
Definition slice (vs : list (val X)) : val X := match vs with [] => VNil | _ => VSlice vs end.
Definition map_val (m : gmap string string) : val X := if decide (m = ∅) then VNil else VMap m.
Lemma place_slice vs v : place Rep (slice vs) v = slice (vs ++ [v]).
Proof. by destruct vs. Qed.
Lemma map_of_map_val m : map_of_val (map_val m) = m.
Proof. unfold map_val. by case_decide as Hm; [rewrite Hm|]. Qed.
Lemma map_val_insert k s (m : gmap string string) : map_val (<[k := s]> m) = VMap (<[k := s]> m).
Proof. unfold map_val. case_decide as Hm; [|done]. by apply insert_non_empty in Hm. Qed.

Section fields.
Context (n : string) (ops : list (op Fld)) (Hwf : wf (Prog n ops) = true) (l : Z).
Context (IH : Forall (λ o, base_all (λ m, ∀ v, typed m v → len (enc m v) < 2 ^ 63 →
  Unmarshal (gen_Unmarshal m) (zero_msg m) (enc m v) = Ok (canon m v)) (op_base o)) ops).
Abbreviation cases := (case_of Unmarshal <$> (retable_op unmarshal_ann (λ ops, ops) <$> ops)).
Abbreviation value_bytes a b v := (byte_of_Z (tag a b) :: enc_value enc b v).

Lemma len_sub_value b v : base_all (λ m, len (enc m v) <= len (enc_value enc b v)) b.
Proof. destruct b; cbn [base_all enc_value]; try done. unfold delimited. rewrite len_app. pose proof (len_nonneg (varint (len (enc m v)))). lia. Qed.
Lemma read_one a f q b v fs rest : mkOp a f q b ∈ ops → typed_value typed a b v → len (value_bytes a b v ++ rest) <= l < 2 ^ 63 →
  base_all (λ m, target q m (get f fs) = zero_msg m) b →
  moves n cases l (value_bytes a b v ++ rest) fs rest (set f (place_value q b (get f fs) (canon_value canon b v)) fs).
Proof.
  intros Ho Hv Hl Ht. apply read_round; try done. rewrite Forall_forall in IH. specialize (IH _ Ho). cbn [op_base] in IH.
  pose proof (len_sub_value b v). destruct b as [| | | |m]; cbn [base_all typed_value] in *; try done. split; [done|]. apply IH; [done|].
  cbn [app] in Hl. rewrite len_cons, len_app in Hl. pose proof (len_nonneg rest). lia.
Qed.

Lemma read_repeated a f b vs : ∀ acc fs rest, mkOp a f Rep b ∈ ops → fits_shape Rep b → Forall (typed_value typed a b) vs → f ∈ fs.*1 → NoDup fs.*1 → get f fs = slice acc →
  len (concat ((λ v, value_bytes a b v) <$> vs) ++ rest) <= l < 2 ^ 63 →
  moves n cases l (concat ((λ v, value_bytes a b v) <$> vs) ++ rest) fs rest (set f (slice (acc ++ (canon_value canon b <$> vs))) fs).
Proof.
  induction vs as [|v vs IHvs]; intros acc fs rest Ho Hsh Hty Hin Hnd Hget Hl.
  - cbn. rewrite app_nil_r, <- Hget, set_get by done. apply moves_refl.
  - apply Forall_cons in Hty as [Hv Hty]. cbn [fmap list_fmap concat] in *. rewrite <- app_assoc in *.
    eapply moves_trans; [apply read_one; try done; destruct b; try done; cbn; by destruct (get f fs)|].
    assert (place_value Rep b (get f fs) (canon_value canon b v) = slice (acc ++ [canon_value canon b v])) as ->.
    { rewrite Hget, <- place_slice. by destruct b. }
    pose proof (IHvs (acc ++ [canon_value canon b v]) (set f (slice (acc ++ [canon_value canon b v])) fs) rest) as Hm.
    rewrite set_set, set_keys, get_set, <- app_assoc in Hm by done. apply Hm; try done.
    rewrite len_app in Hl. pose proof (len_nonneg (value_bytes a b v)). lia.
Qed.

(** The entries of a map, whatever the order of the keys. *)
Lemma read_map a f (m : gmap string string) ks : ∀ acc fs rest, mkOp a f Entries Entry ∈ ops → f ∈ fs.*1 → NoDup fs.*1 → get f fs = map_val acc →
  len (concat ((λ v, value_bytes a Entry v) <$> ((λ k, entry k (default "" (m !! k))) <$> ks)) ++ rest) <= l < 2 ^ 63 →
  moves n cases l (concat ((λ v, value_bytes a Entry v) <$> ((λ k, entry k (default "" (m !! k))) <$> ks)) ++ rest) fs rest
    (set f (map_val (foldl (λ acc k, <[k := default "" (m !! k)]> acc) acc ks)) fs).
Proof.
  induction ks as [|k ks IHks]; intros acc fs rest Ho Hin Hnd Hget Hl.
  - cbn. rewrite <- Hget, set_get by done. apply moves_refl.
  - cbn [fmap list_fmap concat foldl] in *. rewrite <- app_assoc in *.
    eapply moves_trans; [apply read_one; try done; cbn; eauto|]. cbn [canon_value place_value entry]. rewrite Hget, map_of_map_val, <- map_val_insert.
    pose proof (IHks (<[k := default "" (m !! k)]> acc) (set f (map_val (<[k := default "" (m !! k)]> acc)) fs) rest) as Hm.
    rewrite set_set, set_keys, get_set in Hm by done. apply Hm; try done.
    rewrite len_app in Hl. pose proof (len_nonneg (value_bytes a Entry (entry k (default "" (m !! k))))). lia.
Qed.
Lemma fold_keys (m : gmap string string) ks : ks ≡ₚ (map_to_list m).*1 → foldl (λ acc k, <[k := default "" (m !! k)]> acc) ∅ ks = m.
Proof.
  intros Hp. assert (∀ k, k ∈ ks ↔ k ∈ dom m) as Hd.
  { intros k. rewrite Hp, elem_of_dom. split; [intros ([k' x] & -> & Hx%elem_of_map_to_list)%list_elem_of_fmap; by eexists|].
    intros [x Hx]. apply list_elem_of_fmap. exists (k, x). split; [done|]. by apply elem_of_map_to_list. }
  apply map_eq. intros k. clear Hp.
  assert (∀ acc : gmap string string, foldl (λ acc k, <[k := default "" (m !! k)]> acc) acc ks !! k = if decide (k ∈ ks) then Some (default "" (m !! k)) else acc !! k) as Hf.
  { clear Hd. induction ks as [|k' ks IHks]; intros acc; cbn [foldl]; [done|]. rewrite IHks.
    destruct (decide (k ∈ ks)) as [Hi|Hi]; [by rewrite decide_True by (by right)|].
    destruct (decide (k' = k)) as [->|Hne]; [by rewrite decide_True, lookup_insert_eq by (by left)|].
    rewrite decide_False, lookup_insert_ne by (try done; intros [->|?]%elem_of_cons; done). done. }
  rewrite Hf. destruct (decide (k ∈ ks)) as [Hi|Hi]; rewrite Hd in Hi.
  - apply elem_of_dom in Hi as [x ->]. done.
  - rewrite lookup_empty. symmetry. by apply not_elem_of_dom.
Qed.

Lemma read_op a f q b src fs rest : mkOp a f q b ∈ ops → fits_shape q b → typed_op typed src (mkOp a f q b) → f ∈ fs.*1 → NoDup fs.*1 →
  get f fs = zero_field q b → len (enc_op enc src (mkOp a f q b) ++ rest) <= l < 2 ^ 63 →
  moves n cases l (enc_op enc src (mkOp a f q b) ++ rest) fs rest (canon_op canon src fs (mkOp a f q b)).
Proof.
  intros Ho Hsh (vs & Hvs & Hty) Hin Hnd Hget. cbn [enc_op canon_op]. rewrite Hvs. cbn [from_option id]. intros Hl. destruct q.
  - injection Hvs as <-. rewrite Forall_singleton in Hty. cbn [fmap list_fmap concat canon_field] in *. rewrite app_nil_r in *.
    pose proof (read_one a f One b (get f src) fs rest Ho Hty Hl) as Hm.
    destruct b; try done; apply Hm; cbn; by rewrite ?Hget.
  - destruct (get f src) as [| | | |v| | | |] eqn:E; simplify_eq/=.
    + replace (set f VNil fs) with fs; [apply moves_refl|]. symmetry. rewrite <- (set_get f fs) at 2 by done. rewrite Hget. by destruct b.
    + rewrite Forall_singleton in Hty. rewrite app_nil_r in *.
      pose proof (read_one a f Opt b v fs rest Ho Hty Hl) as Hm. destruct b; try done; apply Hm; cbn; by rewrite ?Hget.
  - assert (canon_field canon Rep b (get f src) = slice ([] ++ (canon_value canon b <$> vs))) as ->.
    { destruct (get f src) as [| | | | |us| | |]; simplify_eq/=; [done|]. by destruct vs. }
    by apply read_repeated.
  - destruct b; try done. destruct (get f src) as [| | | | | |m| |] eqn:E; try discriminate Hvs.
    + injection Hvs as <-. cbn. replace (set f VNil fs) with fs; [apply moves_refl|]. symmetry. rewrite <- (set_get f fs) at 2 by done. by rewrite Hget.
    + set (ks := @sorted_keys range_in_key_order insertion_sort m).
      assert (vs = (λ k, entry k (default "" (m !! k))) <$> ks) as -> by (unfold ks; by injection Hvs).
      pose proof (read_map a f m ks ∅ fs rest) as Hm. rewrite fold_keys in Hm.
      2: { unfold ks, sorted_keys. by rewrite sort_slice_perm, range_map_perm. }
      by apply Hm.
Qed.

Lemma read_ops src ops2 : ∀ fs, ops2 ⊆ ops → NoDup (op_field <$> ops2) → Forall (typed_op typed src) ops2 → NoDup fs.*1 →
  Forall (λ o, op_field o ∈ fs.*1 ∧ match o with mkOp _ f q b => get f fs = zero_field q b end) ops2 →
  len (concat (enc_op enc src <$> ops2)) <= l < 2 ^ 63 →
  moves n cases l (concat (enc_op enc src <$> ops2)) fs [] (foldl (canon_op canon src) fs ops2).
Proof.
  induction ops2 as [|o ops2 IHo]; intros fs Hsub Hfn Hty Hnd Hz Hl; [apply moves_refl|].
  cbn [fmap list_fmap concat foldl] in *. apply Forall_cons in Hty as [Ho Hty]. apply Forall_cons in Hz as [[Hin Hget] Hz].
  apply NoDup_cons in Hfn as [Hni Hfn].
  assert (o ∈ ops) as Hoin by (apply Hsub; left). pose proof Hwf as (fields & _ & _ & _ & _ & _ & Hops)%wf_Prog.
  rewrite Forall_forall in Hops. destruct (Hops o Hoin) as [Hfit _]. destruct o as [a f q b]. cbn [op_field] in *.
  apply andb_prop in Hfit as [_ Hfit]. destruct (List.find _ fields) as [fd|]; [|done].
  eapply moves_trans; [apply read_op; try done; by eapply fits_fits_shape|]. apply IHo; try done.
  - intros o Hin'. apply Hsub. by right.
  - cbn [canon_op]. by rewrite set_keys.
  - cbn [canon_op]. rewrite Forall_forall in Hz |- *. intros o Ho'. rewrite set_keys. destruct (Hz o Ho') as [H1 H2]. split; [done|].
    destruct o as [a' f' q' b']. rewrite get_set_ne; [done|]. intros <-. destruct Hni. by apply (list_elem_of_fmap_2 op_field) in Ho'.
  - rewrite len_app in Hl. pose proof (len_nonneg (enc_op enc src (mkOp a f q b))). lia.
Qed.
End fields.

Lemma roundtrip m : wf m = true → ∀ v, typed m v → len (enc m v) < 2 ^ 63 →
  Unmarshal (gen_Unmarshal m) (zero_msg m) (enc m v) = Ok (canon m v).
Proof.
  induction m as [n|n ops IH] using msg_nested_ind; intros Hw v.
  - intros (x & -> & Hx) _. cbn. by rewrite ext_roundtrip_law.
  - intros (src & -> & _ & Hty)%typed_Prog Hl.
    destruct (zero_fields n ops Hw) as (zs & Hz & Hzk & Hznd & Hzs). rewrite Hz.
    pose proof Hw as (fields & _ & _ & Hfnd & _ & _ & Hops)%wf_Prog.
    unfold gen_Unmarshal. rewrite retable_Prog. cbn [Unmarshal enc canon] in *. fold (len (concat (enc_op enc src <$> ops))).
    change (zero_of zero_depth (GTNamed (v1alpha1 n))) with (zero_msg (X := X) (Prog n ops)). rewrite Hz. cbn [fields_of].
    assert (Forall (λ o, base_all (λ m, ∀ v, typed m v → len (enc m v) < 2 ^ 63 →
      Unmarshal (gen_Unmarshal m) (zero_msg m) (enc m v) = Ok (canon m v)) (op_base o)) ops) as IH'.
    { rewrite Forall_forall in IH, Hops |- *. intros o Ho. specialize (IH o Ho). destruct (Hops o Ho) as [_ Hwb].
      destruct o as [a f q []]; cbn in *; auto. }
    destruct (read_ops n ops Hw (len (concat (enc_op enc src <$> ops))) IH' src ops zs) with (fuel := S (length (concat (enc_op enc src <$> ops))))
      as (fuel' & Hf' & ->); try done; [lia|]. destruct fuel' as [|fuel']; [cbn in Hf'; lia|].
    cbn [read_fields]. rewrite (proj2 (Z.ltb_ge _ _)); [done|]. unfold index. cbn. lia.
Qed.
End reading.
End Proto.
