(* ===== verification/ProtoTables.v ===== *)
(** * The generated tables of the API types ([pkg/apis/kynomesh/v1alpha1/generated.pb.go])

    Per type: its message in [generated.proto] ([T_proto]), and the statements
    of its [MarshalToSizedBuffer] (last field first), [Size] and [Unmarshal],
    in the order of the code.  A statement of [MarshalToSizedBuffer] has the
    tag byte it writes, one of [Size] the constant it adds, a [case] of
    [Unmarshal] its number, the wire type it checks and the type of the
    variable the digits are collected in.  The tables are the ones the messages
    generate, so the theorems of [Proto] hold of the code. *)
From S2P Require Import Prelude Schemas OpenApi ProtoWire Proto.
#[local] Open Scope Z_scope.
#[local] Open Scope go_scope.

Module ProtoTables.
Import Schemas OpenApi ProtoWire Proto.

(** ** The messages of [generated.proto] *)
Definition Metadata_proto : msg Fld := Prog "Metadata" [
  mkOp (mkFld 1 IntT) "Annotations" Entries Entry;
  mkOp (mkFld 2 IntT) "Labels" Entries Entry].
Definition AbstractPodTemplate_proto : msg Fld := Prog "AbstractPodTemplate" [
  mkOp (mkFld 1 IntT) "Metadata" Opt (Msg Metadata_proto);
  mkOp (mkFld 2 IntT) "NodeSelector" Entries Entry;
  mkOp (mkFld 3 IntT) "Tolerations" Rep (Msg (Ext (corev1 "Toleration")));
  mkOp (mkFld 4 IntT) "SecurityContext" Opt (Msg (Ext (corev1 "PodSecurityContext")));
  mkOp (mkFld 5 IntT) "ImagePullSecrets" Rep (Msg (Ext (corev1 "LocalObjectReference")));
  mkOp (mkFld 6 IntT) "PriorityClassName" One Str;
  mkOp (mkFld 7 Int32T) "Priority" Opt Int;
  mkOp (mkFld 8 IntT) "Affinity" Opt (Msg (Ext (corev1 "Affinity")));
  mkOp (mkFld 9 IntT) "ServiceAccountName" One Str;
  mkOp (mkFld 10 IntT) "RuntimeClassName" Opt Str;
  mkOp (mkFld 11 IntT) "AutomountServiceAccountToken" Opt Bool;
  mkOp (mkFld 12 IntT) "DNSPolicy" One Str;
  mkOp (mkFld 13 IntT) "DNSConfig" Opt (Msg (Ext (corev1 "PodDNSConfig")));
  mkOp (mkFld 14 IntT) "ResourceClaims" Rep (Msg (Ext (corev1 "PodResourceClaim")));
  mkOp (mkFld 15 Int64T) "TerminationGracePeriodSeconds" Opt Int].
Definition Probe_proto : msg Fld := Prog "Probe" [
  mkOp (mkFld 1 Int32T) "InitialDelaySeconds" Opt Int;
  mkOp (mkFld 2 Int32T) "TimeoutSeconds" Opt Int;
  mkOp (mkFld 3 Int32T) "PeriodSeconds" Opt Int;
  mkOp (mkFld 4 Int32T) "SuccessThreshold" Opt Int;
  mkOp (mkFld 5 Int32T) "FailureThreshold" Opt Int].
Definition Container_proto : msg Fld := Prog "Container" [
  mkOp (mkFld 1 IntT) "Image" One Str;
  mkOp (mkFld 2 IntT) "Command" Rep Str;
  mkOp (mkFld 3 IntT) "Args" Rep Str;
  mkOp (mkFld 4 IntT) "Env" Rep (Msg (Ext (corev1 "EnvVar")));
  mkOp (mkFld 5 IntT) "EnvFrom" Rep (Msg (Ext (corev1 "EnvFromSource")));
  mkOp (mkFld 6 IntT) "VolumeMounts" Rep (Msg (Ext (corev1 "VolumeMount")));
  mkOp (mkFld 7 IntT) "Resources" One (Msg (Ext (corev1 "ResourceRequirements")));
  mkOp (mkFld 8 IntT) "SecurityContext" Opt (Msg (Ext (corev1 "SecurityContext")));
  mkOp (mkFld 9 IntT) "ImagePullPolicy" Opt Str;
  mkOp (mkFld 10 IntT) "ReadinessProbe" Opt (Msg Probe_proto);
  mkOp (mkFld 11 IntT) "LivenessProbe" Opt (Msg Probe_proto);
  mkOp (mkFld 12 IntT) "StartupProbe" Opt (Msg Probe_proto);
  mkOp (mkFld 13 IntT) "Ports" Rep (Msg (Ext (corev1 "ContainerPort")))].
Definition ContainerTemplate_proto : msg Fld := Prog "ContainerTemplate" [
  mkOp (mkFld 1 IntT) "Resources" One (Msg (Ext (corev1 "ResourceRequirements")));
  mkOp (mkFld 2 IntT) "ImagePullPolicy" One Str;
  mkOp (mkFld 3 IntT) "SecurityContext" Opt (Msg (Ext (corev1 "SecurityContext")));
  mkOp (mkFld 4 IntT) "Env" Rep (Msg (Ext (corev1 "EnvVar")));
  mkOp (mkFld 5 IntT) "EnvFrom" Rep (Msg (Ext (corev1 "EnvFromSource")))].
Definition DriftReload_proto : msg Fld := Prog "DriftReload" [
  mkOp (mkFld 1 IntT) "Enabled" Opt Bool].
Definition RateLimit_proto : msg Fld := Prog "RateLimit" [
  mkOp (mkFld 1 Int32T) "MaxInFlight" Opt Int].
Definition Scale_proto : msg Fld := Prog "Scale" [
  mkOp (mkFld 1 IntT) "Disabled" One Bool;
  mkOp (mkFld 2 Int32T) "Min" Opt Int;
  mkOp (mkFld 3 Int32T) "Max" Opt Int;
  mkOp (mkFld 4 Uint32T) "TargetSaturationPercentage" Opt Int;
  mkOp (mkFld 5 Uint32T) "ScaleUpCooldownSeconds" Opt Int;
  mkOp (mkFld 6 Uint32T) "ScaleDownCooldownSeconds" Opt Int;
  mkOp (mkFld 7 Uint32T) "ReplicasPerScaleUp" Opt Int;
  mkOp (mkFld 8 Uint32T) "ReplicasPerScaleDown" Opt Int].
Definition RollingUpdateStrategy_proto : msg Fld := Prog "RollingUpdateStrategy" [
  mkOp (mkFld 1 IntT) "MaxUnavailable" Opt (Msg (Ext (intstr "IntOrString")))].
Definition UpdateStrategy_proto : msg Fld := Prog "UpdateStrategy" [
  mkOp (mkFld 1 IntT) "Type" One Str;
  mkOp (mkFld 2 IntT) "RollingUpdate" Opt (Msg RollingUpdateStrategy_proto)].
Definition AbstractAgentDeploy_proto : msg Fld := Prog "AbstractAgentDeploy" [
  mkOp (mkFld 1 IntT) "Name" One Str;
  mkOp (mkFld 2 IntT) "AbstractPodTemplate" One (Msg AbstractPodTemplate_proto);
  mkOp (mkFld 3 IntT) "Container" Opt (Msg Container_proto);
  mkOp (mkFld 4 IntT) "InitContainer" Opt (Msg ContainerTemplate_proto);
  mkOp (mkFld 5 IntT) "BrokerContainer" Opt (Msg ContainerTemplate_proto);
  mkOp (mkFld 6 IntT) "Volumes" Rep (Msg (Ext (corev1 "Volume")));
  mkOp (mkFld 7 IntT) "Scale" One (Msg Scale_proto);
  mkOp (mkFld 8 IntT) "RateLimit" Opt (Msg RateLimit_proto);
  mkOp (mkFld 9 IntT) "InitContainers" Rep (Msg (Ext (corev1 "Container")));
  mkOp (mkFld 10 IntT) "Sidecars" Rep (Msg (Ext (corev1 "Container")));
  mkOp (mkFld 11 IntT) "UpdateStrategy" One (Msg UpdateStrategy_proto);
  mkOp (mkFld 12 IntT) "PublicBaseURL" One Str;
  mkOp (mkFld 13 IntT) "DriftReload" Opt (Msg DriftReload_proto)].
Definition Peer_proto : msg Fld := Prog "Peer" [
  mkOp (mkFld 1 IntT) "Name" One Str;
  mkOp (mkFld 2 IntT) "Kind" One Str;
  mkOp (mkFld 3 IntT) "URL" One Str].
Definition Topology_proto : msg Fld := Prog "Topology" [
  mkOp (mkFld 1 IntT) "Pattern" One Str;
  mkOp (mkFld 2 IntT) "IsEntry" One Bool;
  mkOp (mkFld 3 IntT) "Peers" Rep (Msg Peer_proto)].
Definition AgentDeploySpec_proto : msg Fld := Prog "AgentDeploySpec" [
  mkOp (mkFld 1 IntT) "AbstractAgentDeploy" One (Msg AbstractAgentDeploy_proto);
  mkOp (mkFld 2 IntT) "AgentSetName" One Str;
  mkOp (mkFld 3 Int32T) "Replicas" Opt Int;
  mkOp (mkFld 4 IntT) "Topology" One (Msg Topology_proto)].
Definition Status_proto : msg Fld := Prog "Status" [
  mkOp (mkFld 1 IntT) "Conditions" Rep (Msg (Ext (metav1 "Condition")))].
Definition AgentDeployStatus_proto : msg Fld := Prog "AgentDeployStatus" [
  mkOp (mkFld 1 IntT) "Status" One (Msg Status_proto);
  mkOp (mkFld 2 IntT) "Phase" One Str;
  mkOp (mkFld 3 Uint32T) "Replicas" One Int;
  mkOp (mkFld 4 Uint32T) "DesiredReplicas" One Int;
  mkOp (mkFld 5 IntT) "Selector" One Str;
  mkOp (mkFld 6 IntT) "Reason" One Str;
  mkOp (mkFld 7 IntT) "Message" One Str;
  mkOp (mkFld 8 IntT) "LastScaledAt" One (Msg (Ext (metav1 "Time")));
  mkOp (mkFld 9 Int64T) "ObservedGeneration" One Int;
  mkOp (mkFld 10 Uint32T) "ReadyReplicas" One Int;
  mkOp (mkFld 11 Uint32T) "UpdatedReplicas" One Int;
  mkOp (mkFld 12 Uint32T) "UpdatedReadyReplicas" One Int;
  mkOp (mkFld 13 IntT) "CurrentHash" One Str;
  mkOp (mkFld 14 IntT) "UpdateHash" One Str].
Definition AgentDeploy_proto : msg Fld := Prog "AgentDeploy" [
  mkOp (mkFld 1 IntT) "ObjectMeta" One (Msg (Ext (metav1 "ObjectMeta")));
  mkOp (mkFld 2 IntT) "Spec" One (Msg AgentDeploySpec_proto);
  mkOp (mkFld 3 IntT) "Status" One (Msg AgentDeployStatus_proto)].
Definition AgentDeployList_proto : msg Fld := Prog "AgentDeployList" [
  mkOp (mkFld 1 IntT) "ListMeta" One (Msg (Ext (metav1 "ListMeta")));
  mkOp (mkFld 2 IntT) "Items" Rep (Msg AgentDeploy_proto)].
Definition AgentDeployTemplate_proto : msg Fld := Prog "AgentDeployTemplate" [
  mkOp (mkFld 1 IntT) "AbstractPodTemplate" One (Msg AbstractPodTemplate_proto);
  mkOp (mkFld 2 IntT) "InitContainer" Opt (Msg ContainerTemplate_proto);
  mkOp (mkFld 3 IntT) "BrokerContainer" Opt (Msg ContainerTemplate_proto)].
Definition ExternalAgentRef_proto : msg Fld := Prog "ExternalAgentRef" [
  mkOp (mkFld 1 IntT) "Name" One Str;
  mkOp (mkFld 2 IntT) "URL" One Str].
Definition DaemonTemplate_proto : msg Fld := Prog "DaemonTemplate" [
  mkOp (mkFld 1 IntT) "AbstractPodTemplate" One (Msg AbstractPodTemplate_proto);
  mkOp (mkFld 2 IntT) "Container" Opt (Msg ContainerTemplate_proto)].
Definition Templates_proto : msg Fld := Prog "Templates" [
  mkOp (mkFld 1 IntT) "AgentDeployTemplate" Opt (Msg AgentDeployTemplate_proto);
  mkOp (mkFld 2 IntT) "DaemonTemplate" Opt (Msg DaemonTemplate_proto)].
Definition AgentSetSpec_proto : msg Fld := Prog "AgentSetSpec" [
  mkOp (mkFld 1 IntT) "Pattern" One Str;
  mkOp (mkFld 2 IntT) "Entry" One Str;
  mkOp (mkFld 3 IntT) "Agents" Rep (Msg AbstractAgentDeploy_proto);
  mkOp (mkFld 4 IntT) "Templates" Opt (Msg Templates_proto);
  mkOp (mkFld 5 IntT) "ExternalAgents" Rep (Msg ExternalAgentRef_proto);
  mkOp (mkFld 6 IntT) "DriftReload" Opt (Msg DriftReload_proto)].
Definition AgentSetStatus_proto : msg Fld := Prog "AgentSetStatus" [
  mkOp (mkFld 1 IntT) "Status" One (Msg Status_proto);
  mkOp (mkFld 2 IntT) "Phase" One Str;
  mkOp (mkFld 3 IntT) "Message" One Str;
  mkOp (mkFld 4 IntT) "LastUpdated" One (Msg (Ext (metav1 "Time")));
  mkOp (mkFld 5 Uint32T) "AgentCount" Opt Int;
  mkOp (mkFld 6 Uint32T) "ExternalAgentCount" Opt Int;
  mkOp (mkFld 7 Int64T) "ObservedGeneration" One Int].
Definition AgentSet_proto : msg Fld := Prog "AgentSet" [
  mkOp (mkFld 1 IntT) "ObjectMeta" One (Msg (Ext (metav1 "ObjectMeta")));
  mkOp (mkFld 2 IntT) "Spec" One (Msg AgentSetSpec_proto);
  mkOp (mkFld 3 IntT) "Status" One (Msg AgentSetStatus_proto)].
Definition AgentSetList_proto : msg Fld := Prog "AgentSetList" [
  mkOp (mkFld 1 IntT) "ListMeta" One (Msg (Ext (metav1 "ListMeta")));
  mkOp (mkFld 2 IntT) "Items" Rep (Msg AgentSet_proto)].

(** ** [MarshalToSizedBuffer] *)
Definition Metadata_MarshalToSizedBuffer : msg Z := Prog "Metadata" [
  mkOp 0x12 "Labels" Entries Entry;
  mkOp 0xa "Annotations" Entries Entry].
Definition AbstractPodTemplate_MarshalToSizedBuffer : msg Z := Prog "AbstractPodTemplate" [
  mkOp 0x78 "TerminationGracePeriodSeconds" Opt Int;
  mkOp 0x72 "ResourceClaims" Rep (Msg (Ext (corev1 "PodResourceClaim")));
  mkOp 0x6a "DNSConfig" Opt (Msg (Ext (corev1 "PodDNSConfig")));
  mkOp 0x62 "DNSPolicy" One Str;
  mkOp 0x58 "AutomountServiceAccountToken" Opt Bool;
  mkOp 0x52 "RuntimeClassName" Opt Str;
  mkOp 0x4a "ServiceAccountName" One Str;
  mkOp 0x42 "Affinity" Opt (Msg (Ext (corev1 "Affinity")));
  mkOp 0x38 "Priority" Opt Int;
  mkOp 0x32 "PriorityClassName" One Str;
  mkOp 0x2a "ImagePullSecrets" Rep (Msg (Ext (corev1 "LocalObjectReference")));
  mkOp 0x22 "SecurityContext" Opt (Msg (Ext (corev1 "PodSecurityContext")));
  mkOp 0x1a "Tolerations" Rep (Msg (Ext (corev1 "Toleration")));
  mkOp 0x12 "NodeSelector" Entries Entry;
  mkOp 0xa "Metadata" Opt (Msg Metadata_MarshalToSizedBuffer)].
Definition Probe_MarshalToSizedBuffer : msg Z := Prog "Probe" [
  mkOp 0x28 "FailureThreshold" Opt Int;
  mkOp 0x20 "SuccessThreshold" Opt Int;
  mkOp 0x18 "PeriodSeconds" Opt Int;
  mkOp 0x10 "TimeoutSeconds" Opt Int;
  mkOp 0x8 "InitialDelaySeconds" Opt Int].
Definition Container_MarshalToSizedBuffer : msg Z := Prog "Container" [
  mkOp 0x6a "Ports" Rep (Msg (Ext (corev1 "ContainerPort")));
  mkOp 0x62 "StartupProbe" Opt (Msg Probe_MarshalToSizedBuffer);
  mkOp 0x5a "LivenessProbe" Opt (Msg Probe_MarshalToSizedBuffer);
  mkOp 0x52 "ReadinessProbe" Opt (Msg Probe_MarshalToSizedBuffer);
  mkOp 0x4a "ImagePullPolicy" Opt Str;
  mkOp 0x42 "SecurityContext" Opt (Msg (Ext (corev1 "SecurityContext")));
  mkOp 0x3a "Resources" One (Msg (Ext (corev1 "ResourceRequirements")));
  mkOp 0x32 "VolumeMounts" Rep (Msg (Ext (corev1 "VolumeMount")));
  mkOp 0x2a "EnvFrom" Rep (Msg (Ext (corev1 "EnvFromSource")));
  mkOp 0x22 "Env" Rep (Msg (Ext (corev1 "EnvVar")));
  mkOp 0x1a "Args" Rep Str;
  mkOp 0x12 "Command" Rep Str;
  mkOp 0xa "Image" One Str].
Definition ContainerTemplate_MarshalToSizedBuffer : msg Z := Prog "ContainerTemplate" [
  mkOp 0x2a "EnvFrom" Rep (Msg (Ext (corev1 "EnvFromSource")));
  mkOp 0x22 "Env" Rep (Msg (Ext (corev1 "EnvVar")));
  mkOp 0x1a "SecurityContext" Opt (Msg (Ext (corev1 "SecurityContext")));
  mkOp 0x12 "ImagePullPolicy" One Str;
  mkOp 0xa "Resources" One (Msg (Ext (corev1 "ResourceRequirements")))].
Definition DriftReload_MarshalToSizedBuffer : msg Z := Prog "DriftReload" [
  mkOp 0x8 "Enabled" Opt Bool].
Definition RateLimit_MarshalToSizedBuffer : msg Z := Prog "RateLimit" [
  mkOp 0x8 "MaxInFlight" Opt Int].
Definition Scale_MarshalToSizedBuffer : msg Z := Prog "Scale" [
  mkOp 0x40 "ReplicasPerScaleDown" Opt Int;
  mkOp 0x38 "ReplicasPerScaleUp" Opt Int;
  mkOp 0x30 "ScaleDownCooldownSeconds" Opt Int;
  mkOp 0x28 "ScaleUpCooldownSeconds" Opt Int;
  mkOp 0x20 "TargetSaturationPercentage" Opt Int;
  mkOp 0x18 "Max" Opt Int;
  mkOp 0x10 "Min" Opt Int;
  mkOp 0x8 "Disabled" One Bool].
Definition RollingUpdateStrategy_MarshalToSizedBuffer : msg Z := Prog "RollingUpdateStrategy" [
  mkOp 0xa "MaxUnavailable" Opt (Msg (Ext (intstr "IntOrString")))].
Definition UpdateStrategy_MarshalToSizedBuffer : msg Z := Prog "UpdateStrategy" [
  mkOp 0x12 "RollingUpdate" Opt (Msg RollingUpdateStrategy_MarshalToSizedBuffer);
  mkOp 0xa "Type" One Str].
Definition AbstractAgentDeploy_MarshalToSizedBuffer : msg Z := Prog "AbstractAgentDeploy" [
  mkOp 0x6a "DriftReload" Opt (Msg DriftReload_MarshalToSizedBuffer);
  mkOp 0x62 "PublicBaseURL" One Str;
  mkOp 0x5a "UpdateStrategy" One (Msg UpdateStrategy_MarshalToSizedBuffer);
  mkOp 0x52 "Sidecars" Rep (Msg (Ext (corev1 "Container")));
  mkOp 0x4a "InitContainers" Rep (Msg (Ext (corev1 "Container")));
  mkOp 0x42 "RateLimit" Opt (Msg RateLimit_MarshalToSizedBuffer);
  mkOp 0x3a "Scale" One (Msg Scale_MarshalToSizedBuffer);
  mkOp 0x32 "Volumes" Rep (Msg (Ext (corev1 "Volume")));
  mkOp 0x2a "BrokerContainer" Opt (Msg ContainerTemplate_MarshalToSizedBuffer);
  mkOp 0x22 "InitContainer" Opt (Msg ContainerTemplate_MarshalToSizedBuffer);
  mkOp 0x1a "Container" Opt (Msg Container_MarshalToSizedBuffer);
  mkOp 0x12 "AbstractPodTemplate" One (Msg AbstractPodTemplate_MarshalToSizedBuffer);
  mkOp 0xa "Name" One Str].
Definition Peer_MarshalToSizedBuffer : msg Z := Prog "Peer" [
  mkOp 0x1a "URL" One Str;
  mkOp 0x12 "Kind" One Str;
  mkOp 0xa "Name" One Str].
Definition Topology_MarshalToSizedBuffer : msg Z := Prog "Topology" [
  mkOp 0x1a "Peers" Rep (Msg Peer_MarshalToSizedBuffer);
  mkOp 0x10 "IsEntry" One Bool;
  mkOp 0xa "Pattern" One Str].
Definition AgentDeploySpec_MarshalToSizedBuffer : msg Z := Prog "AgentDeploySpec" [
  mkOp 0x22 "Topology" One (Msg Topology_MarshalToSizedBuffer);
  mkOp 0x18 "Replicas" Opt Int;
  mkOp 0x12 "AgentSetName" One Str;
  mkOp 0xa "AbstractAgentDeploy" One (Msg AbstractAgentDeploy_MarshalToSizedBuffer)].
Definition Status_MarshalToSizedBuffer : msg Z := Prog "Status" [
  mkOp 0xa "Conditions" Rep (Msg (Ext (metav1 "Condition")))].
Definition AgentDeployStatus_MarshalToSizedBuffer : msg Z := Prog "AgentDeployStatus" [
  mkOp 0x72 "UpdateHash" One Str;
  mkOp 0x6a "CurrentHash" One Str;
  mkOp 0x60 "UpdatedReadyReplicas" One Int;
  mkOp 0x58 "UpdatedReplicas" One Int;
  mkOp 0x50 "ReadyReplicas" One Int;
  mkOp 0x48 "ObservedGeneration" One Int;
  mkOp 0x42 "LastScaledAt" One (Msg (Ext (metav1 "Time")));
  mkOp 0x3a "Message" One Str;
  mkOp 0x32 "Reason" One Str;
  mkOp 0x2a "Selector" One Str;
  mkOp 0x20 "DesiredReplicas" One Int;
  mkOp 0x18 "Replicas" One Int;
  mkOp 0x12 "Phase" One Str;
  mkOp 0xa "Status" One (Msg Status_MarshalToSizedBuffer)].
Definition AgentDeploy_MarshalToSizedBuffer : msg Z := Prog "AgentDeploy" [
  mkOp 0x1a "Status" One (Msg AgentDeployStatus_MarshalToSizedBuffer);
  mkOp 0x12 "Spec" One (Msg AgentDeploySpec_MarshalToSizedBuffer);
  mkOp 0xa "ObjectMeta" One (Msg (Ext (metav1 "ObjectMeta")))].
Definition AgentDeployList_MarshalToSizedBuffer : msg Z := Prog "AgentDeployList" [
  mkOp 0x12 "Items" Rep (Msg AgentDeploy_MarshalToSizedBuffer);
  mkOp 0xa "ListMeta" One (Msg (Ext (metav1 "ListMeta")))].
Definition AgentDeployTemplate_MarshalToSizedBuffer : msg Z := Prog "AgentDeployTemplate" [
  mkOp 0x1a "BrokerContainer" Opt (Msg ContainerTemplate_MarshalToSizedBuffer);
  mkOp 0x12 "InitContainer" Opt (Msg ContainerTemplate_MarshalToSizedBuffer);
  mkOp 0xa "AbstractPodTemplate" One (Msg AbstractPodTemplate_MarshalToSizedBuffer)].
Definition ExternalAgentRef_MarshalToSizedBuffer : msg Z := Prog "ExternalAgentRef" [
  mkOp 0x12 "URL" One Str;
  mkOp 0xa "Name" One Str].
Definition DaemonTemplate_MarshalToSizedBuffer : msg Z := Prog "DaemonTemplate" [
  mkOp 0x12 "Container" Opt (Msg ContainerTemplate_MarshalToSizedBuffer);
  mkOp 0xa "AbstractPodTemplate" One (Msg AbstractPodTemplate_MarshalToSizedBuffer)].
Definition Templates_MarshalToSizedBuffer : msg Z := Prog "Templates" [
  mkOp 0x12 "DaemonTemplate" Opt (Msg DaemonTemplate_MarshalToSizedBuffer);
  mkOp 0xa "AgentDeployTemplate" Opt (Msg AgentDeployTemplate_MarshalToSizedBuffer)].
Definition AgentSetSpec_MarshalToSizedBuffer : msg Z := Prog "AgentSetSpec" [
  mkOp 0x32 "DriftReload" Opt (Msg DriftReload_MarshalToSizedBuffer);
  mkOp 0x2a "ExternalAgents" Rep (Msg ExternalAgentRef_MarshalToSizedBuffer);
  mkOp 0x22 "Templates" Opt (Msg Templates_MarshalToSizedBuffer);
  mkOp 0x1a "Agents" Rep (Msg AbstractAgentDeploy_MarshalToSizedBuffer);
  mkOp 0x12 "Entry" One Str;
  mkOp 0xa "Pattern" One Str].
Definition AgentSetStatus_MarshalToSizedBuffer : msg Z := Prog "AgentSetStatus" [
  mkOp 0x38 "ObservedGeneration" One Int;
  mkOp 0x30 "ExternalAgentCount" Opt Int;
  mkOp 0x28 "AgentCount" Opt Int;
  mkOp 0x22 "LastUpdated" One (Msg (Ext (metav1 "Time")));
  mkOp 0x1a "Message" One Str;
  mkOp 0x12 "Phase" One Str;
  mkOp 0xa "Status" One (Msg Status_MarshalToSizedBuffer)].
Definition AgentSet_MarshalToSizedBuffer : msg Z := Prog "AgentSet" [
  mkOp 0x1a "Status" One (Msg AgentSetStatus_MarshalToSizedBuffer);
  mkOp 0x12 "Spec" One (Msg AgentSetSpec_MarshalToSizedBuffer);
  mkOp 0xa "ObjectMeta" One (Msg (Ext (metav1 "ObjectMeta")))].
Definition AgentSetList_MarshalToSizedBuffer : msg Z := Prog "AgentSetList" [
  mkOp 0x12 "Items" Rep (Msg AgentSet_MarshalToSizedBuffer);
  mkOp 0xa "ListMeta" One (Msg (Ext (metav1 "ListMeta")))].

(** ** [Size] *)
Definition Metadata_Size : msg Z := Prog "Metadata" [
  mkOp 1 "Annotations" Entries Entry;
  mkOp 1 "Labels" Entries Entry].
Definition AbstractPodTemplate_Size : msg Z := Prog "AbstractPodTemplate" [
  mkOp 1 "Metadata" Opt (Msg Metadata_Size);
  mkOp 1 "NodeSelector" Entries Entry;
  mkOp 1 "Tolerations" Rep (Msg (Ext (corev1 "Toleration")));
  mkOp 1 "SecurityContext" Opt (Msg (Ext (corev1 "PodSecurityContext")));
  mkOp 1 "ImagePullSecrets" Rep (Msg (Ext (corev1 "LocalObjectReference")));
  mkOp 1 "PriorityClassName" One Str;
  mkOp 1 "Priority" Opt Int;
  mkOp 1 "Affinity" Opt (Msg (Ext (corev1 "Affinity")));
  mkOp 1 "ServiceAccountName" One Str;
  mkOp 1 "RuntimeClassName" Opt Str;
  mkOp 2 "AutomountServiceAccountToken" Opt Bool;
  mkOp 1 "DNSPolicy" One Str;
  mkOp 1 "DNSConfig" Opt (Msg (Ext (corev1 "PodDNSConfig")));
  mkOp 1 "ResourceClaims" Rep (Msg (Ext (corev1 "PodResourceClaim")));
  mkOp 1 "TerminationGracePeriodSeconds" Opt Int].
Definition Probe_Size : msg Z := Prog "Probe" [
  mkOp 1 "InitialDelaySeconds" Opt Int;
  mkOp 1 "TimeoutSeconds" Opt Int;
  mkOp 1 "PeriodSeconds" Opt Int;
  mkOp 1 "SuccessThreshold" Opt Int;
  mkOp 1 "FailureThreshold" Opt Int].
Definition Container_Size : msg Z := Prog "Container" [
  mkOp 1 "Image" One Str;
  mkOp 1 "Command" Rep Str;
  mkOp 1 "Args" Rep Str;
  mkOp 1 "Env" Rep (Msg (Ext (corev1 "EnvVar")));
  mkOp 1 "EnvFrom" Rep (Msg (Ext (corev1 "EnvFromSource")));
  mkOp 1 "VolumeMounts" Rep (Msg (Ext (corev1 "VolumeMount")));
  mkOp 1 "Resources" One (Msg (Ext (corev1 "ResourceRequirements")));
  mkOp 1 "SecurityContext" Opt (Msg (Ext (corev1 "SecurityContext")));
  mkOp 1 "ImagePullPolicy" Opt Str;
  mkOp 1 "ReadinessProbe" Opt (Msg Probe_Size);
  mkOp 1 "LivenessProbe" Opt (Msg Probe_Size);
  mkOp 1 "StartupProbe" Opt (Msg Probe_Size);
  mkOp 1 "Ports" Rep (Msg (Ext (corev1 "ContainerPort")))].
Definition ContainerTemplate_Size : msg Z := Prog "ContainerTemplate" [
  mkOp 1 "Resources" One (Msg (Ext (corev1 "ResourceRequirements")));
  mkOp 1 "ImagePullPolicy" One Str;
  mkOp 1 "SecurityContext" Opt (Msg (Ext (corev1 "SecurityContext")));
  mkOp 1 "Env" Rep (Msg (Ext (corev1 "EnvVar")));
  mkOp 1 "EnvFrom" Rep (Msg (Ext (corev1 "EnvFromSource")))].
Definition DriftReload_Size : msg Z := Prog "DriftReload" [
  mkOp 2 "Enabled" Opt Bool].
Definition RateLimit_Size : msg Z := Prog "RateLimit" [
  mkOp 1 "MaxInFlight" Opt Int].
Definition Scale_Size : msg Z := Prog "Scale" [
  mkOp 2 "Disabled" One Bool;
  mkOp 1 "Min" Opt Int;
  mkOp 1 "Max" Opt Int;
  mkOp 1 "TargetSaturationPercentage" Opt Int;
  mkOp 1 "ScaleUpCooldownSeconds" Opt Int;
  mkOp 1 "ScaleDownCooldownSeconds" Opt Int;
  mkOp 1 "ReplicasPerScaleUp" Opt Int;
  mkOp 1 "ReplicasPerScaleDown" Opt Int].
Definition RollingUpdateStrategy_Size : msg Z := Prog "RollingUpdateStrategy" [
  mkOp 1 "MaxUnavailable" Opt (Msg (Ext (intstr "IntOrString")))].
Definition UpdateStrategy_Size : msg Z := Prog "UpdateStrategy" [
  mkOp 1 "Type" One Str;
  mkOp 1 "RollingUpdate" Opt (Msg RollingUpdateStrategy_Size)].
Definition AbstractAgentDeploy_Size : msg Z := Prog "AbstractAgentDeploy" [
  mkOp 1 "Name" One Str;
  mkOp 1 "AbstractPodTemplate" One (Msg AbstractPodTemplate_Size);
  mkOp 1 "Container" Opt (Msg Container_Size);
  mkOp 1 "InitContainer" Opt (Msg ContainerTemplate_Size);
  mkOp 1 "BrokerContainer" Opt (Msg ContainerTemplate_Size);
  mkOp 1 "Volumes" Rep (Msg (Ext (corev1 "Volume")));
  mkOp 1 "Scale" One (Msg Scale_Size);
  mkOp 1 "RateLimit" Opt (Msg RateLimit_Size);
  mkOp 1 "InitContainers" Rep (Msg (Ext (corev1 "Container")));
  mkOp 1 "Sidecars" Rep (Msg (Ext (corev1 "Container")));
  mkOp 1 "UpdateStrategy" One (Msg UpdateStrategy_Size);
  mkOp 1 "PublicBaseURL" One Str;
  mkOp 1 "DriftReload" Opt (Msg DriftReload_Size)].
Definition Peer_Size : msg Z := Prog "Peer" [
  mkOp 1 "Name" One Str;
  mkOp 1 "Kind" One Str;
  mkOp 1 "URL" One Str].
Definition Topology_Size : msg Z := Prog "Topology" [
  mkOp 1 "Pattern" One Str;
  mkOp 2 "IsEntry" One Bool;
  mkOp 1 "Peers" Rep (Msg Peer_Size)].
Definition AgentDeploySpec_Size : msg Z := Prog "AgentDeploySpec" [
  mkOp 1 "AbstractAgentDeploy" One (Msg AbstractAgentDeploy_Size);
  mkOp 1 "AgentSetName" One Str;
  mkOp 1 "Replicas" Opt Int;
  mkOp 1 "Topology" One (Msg Topology_Size)].
Definition Status_Size : msg Z := Prog "Status" [
  mkOp 1 "Conditions" Rep (Msg (Ext (metav1 "Condition")))].
Definition AgentDeployStatus_Size : msg Z := Prog "AgentDeployStatus" [
  mkOp 1 "Status" One (Msg Status_Size);
  mkOp 1 "Phase" One Str;
  mkOp 1 "Replicas" One Int;
  mkOp 1 "DesiredReplicas" One Int;
  mkOp 1 "Selector" One Str;
  mkOp 1 "Reason" One Str;
  mkOp 1 "Message" One Str;
  mkOp 1 "LastScaledAt" One (Msg (Ext (metav1 "Time")));
  mkOp 1 "ObservedGeneration" One Int;
  mkOp 1 "ReadyReplicas" One Int;
  mkOp 1 "UpdatedReplicas" One Int;
  mkOp 1 "UpdatedReadyReplicas" One Int;
  mkOp 1 "CurrentHash" One Str;
  mkOp 1 "UpdateHash" One Str].
Definition AgentDeploy_Size : msg Z := Prog "AgentDeploy" [
  mkOp 1 "ObjectMeta" One (Msg (Ext (metav1 "ObjectMeta")));
  mkOp 1 "Spec" One (Msg AgentDeploySpec_Size);
  mkOp 1 "Status" One (Msg AgentDeployStatus_Size)].
Definition AgentDeployList_Size : msg Z := Prog "AgentDeployList" [
  mkOp 1 "ListMeta" One (Msg (Ext (metav1 "ListMeta")));
  mkOp 1 "Items" Rep (Msg AgentDeploy_Size)].
Definition AgentDeployTemplate_Size : msg Z := Prog "AgentDeployTemplate" [
  mkOp 1 "AbstractPodTemplate" One (Msg AbstractPodTemplate_Size);
  mkOp 1 "InitContainer" Opt (Msg ContainerTemplate_Size);
  mkOp 1 "BrokerContainer" Opt (Msg ContainerTemplate_Size)].
Definition ExternalAgentRef_Size : msg Z := Prog "ExternalAgentRef" [
  mkOp 1 "Name" One Str;
  mkOp 1 "URL" One Str].
Definition DaemonTemplate_Size : msg Z := Prog "DaemonTemplate" [
  mkOp 1 "AbstractPodTemplate" One (Msg AbstractPodTemplate_Size);
  mkOp 1 "Container" Opt (Msg ContainerTemplate_Size)].
Definition Templates_Size : msg Z := Prog "Templates" [
  mkOp 1 "AgentDeployTemplate" Opt (Msg AgentDeployTemplate_Size);
  mkOp 1 "DaemonTemplate" Opt (Msg DaemonTemplate_Size)].
Definition AgentSetSpec_Size : msg Z := Prog "AgentSetSpec" [
  mkOp 1 "Pattern" One Str;
  mkOp 1 "Entry" One Str;
  mkOp 1 "Agents" Rep (Msg AbstractAgentDeploy_Size);
  mkOp 1 "Templates" Opt (Msg Templates_Size);
  mkOp 1 "ExternalAgents" Rep (Msg ExternalAgentRef_Size);
  mkOp 1 "DriftReload" Opt (Msg DriftReload_Size)].
Definition AgentSetStatus_Size : msg Z := Prog "AgentSetStatus" [
  mkOp 1 "Status" One (Msg Status_Size);
  mkOp 1 "Phase" One Str;
  mkOp 1 "Message" One Str;
  mkOp 1 "LastUpdated" One (Msg (Ext (metav1 "Time")));
  mkOp 1 "AgentCount" Opt Int;
  mkOp 1 "ExternalAgentCount" Opt Int;
  mkOp 1 "ObservedGeneration" One Int].
Definition AgentSet_Size : msg Z := Prog "AgentSet" [
  mkOp 1 "ObjectMeta" One (Msg (Ext (metav1 "ObjectMeta")));
  mkOp 1 "Spec" One (Msg AgentSetSpec_Size);
  mkOp 1 "Status" One (Msg AgentSetStatus_Size)].
Definition AgentSetList_Size : msg Z := Prog "AgentSetList" [
  mkOp 1 "ListMeta" One (Msg (Ext (metav1 "ListMeta")));
  mkOp 1 "Items" Rep (Msg AgentSet_Size)].

(** ** [Unmarshal] *)
Definition Metadata_Unmarshal : msg Case := Prog "Metadata" [
  mkOp (mkCase 1 2 IntT) "Annotations" Entries Entry;
  mkOp (mkCase 2 2 IntT) "Labels" Entries Entry].
Definition AbstractPodTemplate_Unmarshal : msg Case := Prog "AbstractPodTemplate" [
  mkOp (mkCase 1 2 IntT) "Metadata" Opt (Msg Metadata_Unmarshal);
  mkOp (mkCase 2 2 IntT) "NodeSelector" Entries Entry;
  mkOp (mkCase 3 2 IntT) "Tolerations" Rep (Msg (Ext (corev1 "Toleration")));
  mkOp (mkCase 4 2 IntT) "SecurityContext" Opt (Msg (Ext (corev1 "PodSecurityContext")));
  mkOp (mkCase 5 2 IntT) "ImagePullSecrets" Rep (Msg (Ext (corev1 "LocalObjectReference")));
  mkOp (mkCase 6 2 Uint64T) "PriorityClassName" One Str;
  mkOp (mkCase 7 0 Int32T) "Priority" Opt Int;
  mkOp (mkCase 8 2 IntT) "Affinity" Opt (Msg (Ext (corev1 "Affinity")));
  mkOp (mkCase 9 2 Uint64T) "ServiceAccountName" One Str;
  mkOp (mkCase 10 2 Uint64T) "RuntimeClassName" Opt Str;
  mkOp (mkCase 11 0 IntT) "AutomountServiceAccountToken" Opt Bool;
  mkOp (mkCase 12 2 Uint64T) "DNSPolicy" One Str;
  mkOp (mkCase 13 2 IntT) "DNSConfig" Opt (Msg (Ext (corev1 "PodDNSConfig")));
  mkOp (mkCase 14 2 IntT) "ResourceClaims" Rep (Msg (Ext (corev1 "PodResourceClaim")));
  mkOp (mkCase 15 0 Int64T) "TerminationGracePeriodSeconds" Opt Int].
Definition Probe_Unmarshal : msg Case := Prog "Probe" [
  mkOp (mkCase 1 0 Int32T) "InitialDelaySeconds" Opt Int;
  mkOp (mkCase 2 0 Int32T) "TimeoutSeconds" Opt Int;
  mkOp (mkCase 3 0 Int32T) "PeriodSeconds" Opt Int;
  mkOp (mkCase 4 0 Int32T) "SuccessThreshold" Opt Int;
  mkOp (mkCase 5 0 Int32T) "FailureThreshold" Opt Int].
Definition Container_Unmarshal : msg Case := Prog "Container" [
  mkOp (mkCase 1 2 Uint64T) "Image" One Str;
  mkOp (mkCase 2 2 Uint64T) "Command" Rep Str;
  mkOp (mkCase 3 2 Uint64T) "Args" Rep Str;
  mkOp (mkCase 4 2 IntT) "Env" Rep (Msg (Ext (corev1 "EnvVar")));
  mkOp (mkCase 5 2 IntT) "EnvFrom" Rep (Msg (Ext (corev1 "EnvFromSource")));
  mkOp (mkCase 6 2 IntT) "VolumeMounts" Rep (Msg (Ext (corev1 "VolumeMount")));
  mkOp (mkCase 7 2 IntT) "Resources" One (Msg (Ext (corev1 "ResourceRequirements")));
  mkOp (mkCase 8 2 IntT) "SecurityContext" Opt (Msg (Ext (corev1 "SecurityContext")));
  mkOp (mkCase 9 2 Uint64T) "ImagePullPolicy" Opt Str;
  mkOp (mkCase 10 2 IntT) "ReadinessProbe" Opt (Msg Probe_Unmarshal);
  mkOp (mkCase 11 2 IntT) "LivenessProbe" Opt (Msg Probe_Unmarshal);
  mkOp (mkCase 12 2 IntT) "StartupProbe" Opt (Msg Probe_Unmarshal);
  mkOp (mkCase 13 2 IntT) "Ports" Rep (Msg (Ext (corev1 "ContainerPort")))].
Definition ContainerTemplate_Unmarshal : msg Case := Prog "ContainerTemplate" [
  mkOp (mkCase 1 2 IntT) "Resources" One (Msg (Ext (corev1 "ResourceRequirements")));
  mkOp (mkCase 2 2 Uint64T) "ImagePullPolicy" One Str;
  mkOp (mkCase 3 2 IntT) "SecurityContext" Opt (Msg (Ext (corev1 "SecurityContext")));
  mkOp (mkCase 4 2 IntT) "Env" Rep (Msg (Ext (corev1 "EnvVar")));
  mkOp (mkCase 5 2 IntT) "EnvFrom" Rep (Msg (Ext (corev1 "EnvFromSource")))].
Definition DriftReload_Unmarshal : msg Case := Prog "DriftReload" [
  mkOp (mkCase 1 0 IntT) "Enabled" Opt Bool].
Definition RateLimit_Unmarshal : msg Case := Prog "RateLimit" [
  mkOp (mkCase 1 0 Int32T) "MaxInFlight" Opt Int].
Definition Scale_Unmarshal : msg Case := Prog "Scale" [
  mkOp (mkCase 1 0 IntT) "Disabled" One Bool;
  mkOp (mkCase 2 0 Int32T) "Min" Opt Int;
  mkOp (mkCase 3 0 Int32T) "Max" Opt Int;
  mkOp (mkCase 4 0 Uint32T) "TargetSaturationPercentage" Opt Int;
  mkOp (mkCase 5 0 Uint32T) "ScaleUpCooldownSeconds" Opt Int;
  mkOp (mkCase 6 0 Uint32T) "ScaleDownCooldownSeconds" Opt Int;
  mkOp (mkCase 7 0 Uint32T) "ReplicasPerScaleUp" Opt Int;
  mkOp (mkCase 8 0 Uint32T) "ReplicasPerScaleDown" Opt Int].
Definition RollingUpdateStrategy_Unmarshal : msg Case := Prog "RollingUpdateStrategy" [
  mkOp (mkCase 1 2 IntT) "MaxUnavailable" Opt (Msg (Ext (intstr "IntOrString")))].
Definition UpdateStrategy_Unmarshal : msg Case := Prog "UpdateStrategy" [
  mkOp (mkCase 1 2 Uint64T) "Type" One Str;
  mkOp (mkCase 2 2 IntT) "RollingUpdate" Opt (Msg RollingUpdateStrategy_Unmarshal)].
Definition AbstractAgentDeploy_Unmarshal : msg Case := Prog "AbstractAgentDeploy" [
  mkOp (mkCase 1 2 Uint64T) "Name" One Str;
  mkOp (mkCase 2 2 IntT) "AbstractPodTemplate" One (Msg AbstractPodTemplate_Unmarshal);
  mkOp (mkCase 3 2 IntT) "Container" Opt (Msg Container_Unmarshal);
  mkOp (mkCase 4 2 IntT) "InitContainer" Opt (Msg ContainerTemplate_Unmarshal);
  mkOp (mkCase 5 2 IntT) "BrokerContainer" Opt (Msg ContainerTemplate_Unmarshal);
  mkOp (mkCase 6 2 IntT) "Volumes" Rep (Msg (Ext (corev1 "Volume")));
  mkOp (mkCase 7 2 IntT) "Scale" One (Msg Scale_Unmarshal);
  mkOp (mkCase 8 2 IntT) "RateLimit" Opt (Msg RateLimit_Unmarshal);
  mkOp (mkCase 9 2 IntT) "InitContainers" Rep (Msg (Ext (corev1 "Container")));
  mkOp (mkCase 10 2 IntT) "Sidecars" Rep (Msg (Ext (corev1 "Container")));
  mkOp (mkCase 11 2 IntT) "UpdateStrategy" One (Msg UpdateStrategy_Unmarshal);
  mkOp (mkCase 12 2 Uint64T) "PublicBaseURL" One Str;
  mkOp (mkCase 13 2 IntT) "DriftReload" Opt (Msg DriftReload_Unmarshal)].
Definition Peer_Unmarshal : msg Case := Prog "Peer" [
  mkOp (mkCase 1 2 Uint64T) "Name" One Str;
  mkOp (mkCase 2 2 Uint64T) "Kind" One Str;
  mkOp (mkCase 3 2 Uint64T) "URL" One Str].
Definition Topology_Unmarshal : msg Case := Prog "Topology" [
  mkOp (mkCase 1 2 Uint64T) "Pattern" One Str;
  mkOp (mkCase 2 0 IntT) "IsEntry" One Bool;
  mkOp (mkCase 3 2 IntT) "Peers" Rep (Msg Peer_Unmarshal)].
Definition AgentDeploySpec_Unmarshal : msg Case := Prog "AgentDeploySpec" [
  mkOp (mkCase 1 2 IntT) "AbstractAgentDeploy" One (Msg AbstractAgentDeploy_Unmarshal);
  mkOp (mkCase 2 2 Uint64T) "AgentSetName" One Str;
  mkOp (mkCase 3 0 Int32T) "Replicas" Opt Int;
  mkOp (mkCase 4 2 IntT) "Topology" One (Msg Topology_Unmarshal)].
Definition Status_Unmarshal : msg Case := Prog "Status" [
  mkOp (mkCase 1 2 IntT) "Conditions" Rep (Msg (Ext (metav1 "Condition")))].
Definition AgentDeployStatus_Unmarshal : msg Case := Prog "AgentDeployStatus" [
  mkOp (mkCase 1 2 IntT) "Status" One (Msg Status_Unmarshal);
  mkOp (mkCase 2 2 Uint64T) "Phase" One Str;
  mkOp (mkCase 3 0 Uint32T) "Replicas" One Int;
  mkOp (mkCase 4 0 Uint32T) "DesiredReplicas" One Int;
  mkOp (mkCase 5 2 Uint64T) "Selector" One Str;
  mkOp (mkCase 6 2 Uint64T) "Reason" One Str;
  mkOp (mkCase 7 2 Uint64T) "Message" One Str;
  mkOp (mkCase 8 2 IntT) "LastScaledAt" One (Msg (Ext (metav1 "Time")));
  mkOp (mkCase 9 0 Int64T) "ObservedGeneration" One Int;
  mkOp (mkCase 10 0 Uint32T) "ReadyReplicas" One Int;
  mkOp (mkCase 11 0 Uint32T) "UpdatedReplicas" One Int;
  mkOp (mkCase 12 0 Uint32T) "UpdatedReadyReplicas" One Int;
  mkOp (mkCase 13 2 Uint64T) "CurrentHash" One Str;
  mkOp (mkCase 14 2 Uint64T) "UpdateHash" One Str].
Definition AgentDeploy_Unmarshal : msg Case := Prog "AgentDeploy" [
  mkOp (mkCase 1 2 IntT) "ObjectMeta" One (Msg (Ext (metav1 "ObjectMeta")));
  mkOp (mkCase 2 2 IntT) "Spec" One (Msg AgentDeploySpec_Unmarshal);
  mkOp (mkCase 3 2 IntT) "Status" One (Msg AgentDeployStatus_Unmarshal)].
Definition AgentDeployList_Unmarshal : msg Case := Prog "AgentDeployList" [
  mkOp (mkCase 1 2 IntT) "ListMeta" One (Msg (Ext (metav1 "ListMeta")));
  mkOp (mkCase 2 2 IntT) "Items" Rep (Msg AgentDeploy_Unmarshal)].
Definition AgentDeployTemplate_Unmarshal : msg Case := Prog "AgentDeployTemplate" [
  mkOp (mkCase 1 2 IntT) "AbstractPodTemplate" One (Msg AbstractPodTemplate_Unmarshal);
  mkOp (mkCase 2 2 IntT) "InitContainer" Opt (Msg ContainerTemplate_Unmarshal);
  mkOp (mkCase 3 2 IntT) "BrokerContainer" Opt (Msg ContainerTemplate_Unmarshal)].
Definition ExternalAgentRef_Unmarshal : msg Case := Prog "ExternalAgentRef" [
  mkOp (mkCase 1 2 Uint64T) "Name" One Str;
  mkOp (mkCase 2 2 Uint64T) "URL" One Str].
Definition DaemonTemplate_Unmarshal : msg Case := Prog "DaemonTemplate" [
  mkOp (mkCase 1 2 IntT) "AbstractPodTemplate" One (Msg AbstractPodTemplate_Unmarshal);
  mkOp (mkCase 2 2 IntT) "Container" Opt (Msg ContainerTemplate_Unmarshal)].
Definition Templates_Unmarshal : msg Case := Prog "Templates" [
  mkOp (mkCase 1 2 IntT) "AgentDeployTemplate" Opt (Msg AgentDeployTemplate_Unmarshal);
  mkOp (mkCase 2 2 IntT) "DaemonTemplate" Opt (Msg DaemonTemplate_Unmarshal)].
Definition AgentSetSpec_Unmarshal : msg Case := Prog "AgentSetSpec" [
  mkOp (mkCase 1 2 Uint64T) "Pattern" One Str;
  mkOp (mkCase 2 2 Uint64T) "Entry" One Str;
  mkOp (mkCase 3 2 IntT) "Agents" Rep (Msg AbstractAgentDeploy_Unmarshal);
  mkOp (mkCase 4 2 IntT) "Templates" Opt (Msg Templates_Unmarshal);
  mkOp (mkCase 5 2 IntT) "ExternalAgents" Rep (Msg ExternalAgentRef_Unmarshal);
  mkOp (mkCase 6 2 IntT) "DriftReload" Opt (Msg DriftReload_Unmarshal)].
Definition AgentSetStatus_Unmarshal : msg Case := Prog "AgentSetStatus" [
  mkOp (mkCase 1 2 IntT) "Status" One (Msg Status_Unmarshal);
  mkOp (mkCase 2 2 Uint64T) "Phase" One Str;
  mkOp (mkCase 3 2 Uint64T) "Message" One Str;
  mkOp (mkCase 4 2 IntT) "LastUpdated" One (Msg (Ext (metav1 "Time")));
  mkOp (mkCase 5 0 Uint32T) "AgentCount" Opt Int;
  mkOp (mkCase 6 0 Uint32T) "ExternalAgentCount" Opt Int;
  mkOp (mkCase 7 0 Int64T) "ObservedGeneration" One Int].
Definition AgentSet_Unmarshal : msg Case := Prog "AgentSet" [
  mkOp (mkCase 1 2 IntT) "ObjectMeta" One (Msg (Ext (metav1 "ObjectMeta")));
  mkOp (mkCase 2 2 IntT) "Spec" One (Msg AgentSetSpec_Unmarshal);
  mkOp (mkCase 3 2 IntT) "Status" One (Msg AgentSetStatus_Unmarshal)].
Definition AgentSetList_Unmarshal : msg Case := Prog "AgentSetList" [
  mkOp (mkCase 1 2 IntT) "ListMeta" One (Msg (Ext (metav1 "ListMeta")));
  mkOp (mkCase 2 2 IntT) "Items" Rep (Msg AgentSet_Unmarshal)].

(** ** The codecs of the API group *)
Record codec := mkCodec { c_proto : msg Fld; c_Size : msg Z; c_MarshalToSizedBuffer : msg Z; c_Unmarshal : msg Case }.
Definition codecs : list codec := [
  mkCodec Metadata_proto Metadata_Size Metadata_MarshalToSizedBuffer Metadata_Unmarshal;
  mkCodec AbstractPodTemplate_proto AbstractPodTemplate_Size AbstractPodTemplate_MarshalToSizedBuffer AbstractPodTemplate_Unmarshal;
  mkCodec Probe_proto Probe_Size Probe_MarshalToSizedBuffer Probe_Unmarshal;
  mkCodec Container_proto Container_Size Container_MarshalToSizedBuffer Container_Unmarshal;
  mkCodec ContainerTemplate_proto ContainerTemplate_Size ContainerTemplate_MarshalToSizedBuffer ContainerTemplate_Unmarshal;
  mkCodec DriftReload_proto DriftReload_Size DriftReload_MarshalToSizedBuffer DriftReload_Unmarshal;
  mkCodec RateLimit_proto RateLimit_Size RateLimit_MarshalToSizedBuffer RateLimit_Unmarshal;
  mkCodec Scale_proto Scale_Size Scale_MarshalToSizedBuffer Scale_Unmarshal;
  mkCodec RollingUpdateStrategy_proto RollingUpdateStrategy_Size RollingUpdateStrategy_MarshalToSizedBuffer RollingUpdateStrategy_Unmarshal;
  mkCodec UpdateStrategy_proto UpdateStrategy_Size UpdateStrategy_MarshalToSizedBuffer UpdateStrategy_Unmarshal;
  mkCodec AbstractAgentDeploy_proto AbstractAgentDeploy_Size AbstractAgentDeploy_MarshalToSizedBuffer AbstractAgentDeploy_Unmarshal;
  mkCodec Peer_proto Peer_Size Peer_MarshalToSizedBuffer Peer_Unmarshal;
  mkCodec Topology_proto Topology_Size Topology_MarshalToSizedBuffer Topology_Unmarshal;
  mkCodec AgentDeploySpec_proto AgentDeploySpec_Size AgentDeploySpec_MarshalToSizedBuffer AgentDeploySpec_Unmarshal;
  mkCodec Status_proto Status_Size Status_MarshalToSizedBuffer Status_Unmarshal;
  mkCodec AgentDeployStatus_proto AgentDeployStatus_Size AgentDeployStatus_MarshalToSizedBuffer AgentDeployStatus_Unmarshal;
  mkCodec AgentDeploy_proto AgentDeploy_Size AgentDeploy_MarshalToSizedBuffer AgentDeploy_Unmarshal;
  mkCodec AgentDeployList_proto AgentDeployList_Size AgentDeployList_MarshalToSizedBuffer AgentDeployList_Unmarshal;
  mkCodec AgentDeployTemplate_proto AgentDeployTemplate_Size AgentDeployTemplate_MarshalToSizedBuffer AgentDeployTemplate_Unmarshal;
  mkCodec ExternalAgentRef_proto ExternalAgentRef_Size ExternalAgentRef_MarshalToSizedBuffer ExternalAgentRef_Unmarshal;
  mkCodec DaemonTemplate_proto DaemonTemplate_Size DaemonTemplate_MarshalToSizedBuffer DaemonTemplate_Unmarshal;
  mkCodec Templates_proto Templates_Size Templates_MarshalToSizedBuffer Templates_Unmarshal;
  mkCodec AgentSetSpec_proto AgentSetSpec_Size AgentSetSpec_MarshalToSizedBuffer AgentSetSpec_Unmarshal;
  mkCodec AgentSetStatus_proto AgentSetStatus_Size AgentSetStatus_MarshalToSizedBuffer AgentSetStatus_Unmarshal;
  mkCodec AgentSet_proto AgentSet_Size AgentSet_MarshalToSizedBuffer AgentSet_Unmarshal;
  mkCodec AgentSetList_proto AgentSetList_Size AgentSetList_MarshalToSizedBuffer AgentSetList_Unmarshal].

Definition generated (c : codec) : Prop :=
  wf (c_proto c) = true ∧ c_Size c = gen_Size (c_proto c) ∧
  c_MarshalToSizedBuffer c = gen_MarshalToSizedBuffer (c_proto c) ∧ c_Unmarshal c = gen_Unmarshal (c_proto c).
Lemma codecs_generated c : c ∈ codecs → generated c.
Proof.
  revert c. apply Forall_forall. unfold generated. repeat (apply Forall_cons; split; [split_and!; vm_compute; reflexivity|]). apply Forall_nil_2.
Qed.

Section claims.
Context {X : Type} `{!External X} `{!GoRange} `{!GoSort}.

(** C15: for every type of the API group, [Marshal] of a value whose encoding
    fits an [int] succeeds and returns the bytes of its message, the same ones
    whatever the order maps are ranged over; and [Unmarshal] of these bytes
    into a fresh object gives the value back, with empty slices and maps nil
    and the fields outside the message zero. *)
Theorem proto_roundtrip c (v : val X) : c ∈ codecs → typed (c_proto c) v → len (enc (c_proto c) v) < 2 ^ 63 →
  Marshal (c_Size c) (c_MarshalToSizedBuffer c) v = Ok (enc (c_proto c) v) ∧
  Unmarshal (c_Unmarshal c) (zero_msg (c_proto c)) (enc (c_proto c) v) = Ok (canon (c_proto c) v).
Proof.
  intros (Hw & -> & -> & ->)%codecs_generated Hv Hl. split; [by apply Marshal_enc|by apply roundtrip].
Qed.

(** C16: for every type of the API group and any bytes, [Unmarshal] into a value
    of the type terminates and makes no access out of range, in the loops over
    digits, in the slices of strings, messages and map entries and in skipping
    unknown fields: it returns one of the errors of the code or a value of the
    type.  The input is shorter than 2^63 bytes, as any slice is, and a message
    of another package is read by a method that returns. *)
Theorem proto_Unmarshal_total c (v : val X) dAtA : c ∈ codecs → typed (c_proto c) v → len dAtA < 2 ^ 63 →
  match Unmarshal (c_Unmarshal c) v dAtA with
  | Ok v' => typed (c_proto c) v'
  | Err e => fault e = false
  end.
Proof.
  intros (Hw & _ & _ & ->)%codecs_generated Hv Hl. destruct (Unmarshal_spec (c_proto c) Hw v dAtA Hv Hl) as [He Hok].
  destruct (Unmarshal _ _ _) as [v'|e]; [by apply Hok|done].
Qed.
End claims.

(** ** Concrete inputs *)
(** Other packages' messages as raw bytes. *)
#[refine] Instance raw_messages : External (list byte) := {|
  ext_of _ _ := True;
  ext_zero _ := [];
  ext_enc x := x;
  ext_Size x := len x;
  ext_MarshalToSizedBuffer x dAtA :=
    if (length x <=? length dAtA)%nat then Ok (placed dAtA (len dAtA - len x) x, len x) else Err Panic;
  ext_Unmarshal _ _ bs := Ok bs;
  ext_canon x := x
|}.
Proof.
  - done.
  - done.
  - intros x dAtA Hl. by rewrite (proj2 (Nat.leb_le _ _)) by done.
  - done.
  - done.
Defined.

Definition ex_peer (name kind url : string) : val (list byte) := VStruct [("Name", VStr name); ("Kind", VStr kind); ("URL", VStr url)].
Definition ex_topology : val (list byte) := VStruct
  [("Pattern", VStr "Supervisor"); ("IsEntry", VBool true); ("Peers", VSlice [ex_peer "b" "Internal" "https://b"; ex_peer "c" "" ""])].
Definition ex_metadata : val (list byte) := VStruct
  [("Annotations", VMap ∅); ("Labels", VMap (<["team" := "mesh"]> (<["app" := "b"]> ∅)))].
Definition topology_codec : codec := mkCodec Topology_proto Topology_Size Topology_MarshalToSizedBuffer Topology_Unmarshal.
Definition metadata_codec : codec := mkCodec Metadata_proto Metadata_Size Metadata_MarshalToSizedBuffer Metadata_Unmarshal.

Lemma ex_topology_typed : typed Topology_proto ex_topology.
Proof.
  apply typed_Prog. eexists. split_and!; [done|vm_compute; reflexivity|]. repeat (apply Forall_cons; split); [..|apply Forall_nil_2].
  - exists [VStr "Supervisor"]. split; [done|]. apply Forall_singleton. by eexists.
  - exists [VBool true]. split; [done|]. apply Forall_singleton. by eexists.
  - eexists. split; [done|]. repeat (apply Forall_cons; split); [..|apply Forall_nil_2].
    all: apply typed_Prog; eexists; split_and!; [done|vm_compute; reflexivity|].
    all: repeat (apply Forall_cons; split); [..|apply Forall_nil_2]; eexists; (split; [done|]); apply Forall_singleton; by eexists.
Qed.
Lemma ex_metadata_typed : typed Metadata_proto ex_metadata.
Proof.
  apply typed_Prog. eexists. split_and!; [done|vm_compute; reflexivity|]. repeat (apply Forall_cons; split); [..|apply Forall_nil_2].
  all: by apply field_typed_map.
Qed.

(** The labels come in the order of their keys, and the empty map is not
    written: it is read back as nil. *)
Lemma proto_roundtrip_witness :
  Marshal Metadata_Size Metadata_MarshalToSizedBuffer ex_metadata = Ok (enc Metadata_proto ex_metadata) ∧
  len (enc Metadata_proto ex_metadata) = 24 ∧
  Unmarshal Metadata_Unmarshal (zero_msg Metadata_proto) (enc Metadata_proto ex_metadata) =
    Ok (VStruct [("Annotations", VNil); ("Labels", VMap (<["team" := "mesh"]> (<["app" := "b"]> ∅)))]).
Proof.
  destruct (proto_roundtrip metadata_codec ex_metadata) as [H1 H2].
  - by apply (list_elem_of_lookup_2 _ 0%nat).
  - apply ex_metadata_typed.
  - vm_compute. reflexivity.
  - split_and!; [exact H1|vm_compute; reflexivity|]. etransitivity; [exact H2|]. vm_compute. reflexivity.
Defined.

(** A peer announced longer than the input is an error, after the fields before
    it were read; an unknown field is skipped. *)
Definition ex_unknown : list byte := [byte_of_Z 0x7a; byte_of_Z 2; byte_of_Z 1; byte_of_Z 2; byte_of_Z 0x10; byte_of_Z 1].
Lemma proto_Unmarshal_total_witness :
  match Unmarshal Topology_Unmarshal ex_topology (ex_unknown ++ [byte_of_Z 0x1a; byte_of_Z 9; byte_of_Z 0]) with
  | Ok v' => typed Topology_proto v'
  | Err e => fault e = false
  end ∧ Unmarshal Topology_Unmarshal ex_topology (ex_unknown ++ [byte_of_Z 0x1a; byte_of_Z 9; byte_of_Z 0]) = Err ErrUnexpectedEOF ∧
  is_Ok (Unmarshal Topology_Unmarshal ex_topology ex_unknown) = true.
Proof.
  split_and!; [|vm_compute; reflexivity|vm_compute; reflexivity].
  apply (proto_Unmarshal_total topology_codec); [by apply (list_elem_of_lookup_2 _ 12%nat)|apply ex_topology_typed|vm_compute; reflexivity].
Defined.
End ProtoTables.
