(* ===== verification/GoHeap.v ===== *)
(** * Go values in a heap, and what copying them means

    Elsewhere in this library a Go object is an immutable value.  The source
    mutates objects in place, and relies on generated deep copies to keep what
    it mutates apart from what it read from a shared cache.  This file has the
    values that question is about: scalars, structs, and references (pointers,
    slices, maps) into a heap of cells.  A type says how to read a value as a
    finite tree, which is what the rest of the library works with, and through
    which locations.  Strings, numbers and booleans are data; maps are Go's
    [map[string]string], the only ones in the API types. *)
From S2P Require Import Prelude.
#[local] Open Scope Z_scope.

Module GoHeap.

Abbreviation loc := positive.

(** A struct is its fields one after the other. *)
Inductive val :=
  | VData (d : string)
  | VRef (l : option loc)
  | VEnd
  | VField (f : string) (v : val) (rest : val).

Inductive cell :=
  | CPtr (v : val)
  | CSlice (vs : list val)
  | CMap (m : gmap string string).

Abbreviation heap := (gmap loc cell).

Inductive GoType :=
  | TData
  | TPtr (T : GoType)
  | TSlice (T : GoType)
  | TMap
  | TEnd
  | TField (f : string) (T : GoType) (rest : GoType).

Definition TStruct (fs : list (string * GoType)) : GoType :=
  foldr (λ fT r, TField fT.1 fT.2 r) TEnd fs.

Fixpoint field_names (T : GoType) : list string :=
  match T with TField f _ r => f :: field_names r | _ => [] end.

(** Types without references: assignment copies them. *)
Fixpoint flat (T : GoType) : bool :=
  match T with
  | TData | TEnd => true
  | TField _ T r => flat T && flat r
  | _ => false
  end.

#[warnings="-register-all"]
Inductive tree :=
  | TrData (d : string)
  | TrNil
  | TrPtr (t : tree)
  | TrSlice (ts : list tree)
  | TrMap (m : gmap string string)
  | TrEnd
  | TrField (f : string) (t : tree) (rest : tree).

(** [reads h T v t L]: in heap [h] the value [v] of type [T] is the tree [t],
    reached through the locations [L]. *)
Fixpoint reads (h : heap) (T : GoType) (v : val) (t : tree) (L : list loc) : Prop :=
  match T with
  | TData => ∃ d, v = VData d ∧ t = TrData d ∧ L = []
  | TPtr T =>
      (v = VRef None ∧ t = TrNil ∧ L = []) ∨
      ∃ l v' t' L', v = VRef (Some l) ∧ h !! l = Some (CPtr v') ∧ reads h T v' t' L' ∧
        t = TrPtr t' ∧ L = l :: L'
  | TSlice T =>
      (v = VRef None ∧ t = TrNil ∧ L = []) ∨
      ∃ l vs ts Ls, v = VRef (Some l) ∧ h !! l = Some (CSlice vs) ∧
        length vs = length ts ∧
        Forall3 (reads h T) vs ts Ls ∧ t = TrSlice ts ∧ L = l :: concat Ls
  | TMap =>
      (v = VRef None ∧ t = TrNil ∧ L = []) ∨
      ∃ l m, v = VRef (Some l) ∧ h !! l = Some (CMap m) ∧ t = TrMap m ∧ L = [l]
  | TEnd => v = VEnd ∧ t = TrEnd ∧ L = []
  | TField f T r =>
      ∃ v1 v2 t1 t2 L1 L2, v = VField f v1 v2 ∧ t = TrField f t1 t2 ∧ L = L1 ++ L2 ∧
        reads h T v1 t1 L1 ∧ reads h r v2 t2 L2
  end.

(** ** Computations on a heap; [None] is a panic *)
Definition M (A : Type) : Type := heap → option (heap * A).
Definition ret {A} (a : A) : M A := λ h, Some (h, a).
Definition bind {A B} (m : M A) (k : A → M B) : M B :=
  λ h, match m h with Some (h', a) => k a h' | None => None end.
Definition lift {A} (o : option A) : M A := λ h, a ← o; Some (h, a).

Declare Scope heap_scope.
Delimit Scope heap_scope with heap.
Notation "'let*' x := m1 'in' m2" := (bind m1 (λ x, m2))
  (at level 10, x name, m1 at level 100, m2 at level 200) : heap_scope.
#[local] Open Scope heap_scope.

Definition load (l : loc) : M cell := λ h, c ← h !! l; Some (h, c).
Definition alloc (c : cell) : M loc := λ h, let l := fresh (dom h) in Some (<[l := c]> h, l).

#[global] Arguments alloc : simpl never.

(** Field selection and assignment of a struct value. *)
Fixpoint get (f : string) (v : val) : option val :=
  match v with
  | VField g x r => if bool_decide (f = g) then Some x else get f r
  | _ => None
  end.
Fixpoint put (f : string) (x : val) (v : val) : option val :=
  match v with
  | VField g y r => if bool_decide (f = g) then Some (VField g x r) else VField g y <$> put f x r
  | _ => None
  end.

Fixpoint mapM_ (c : val → M val) (vs : list val) : M (list val) :=
  match vs with
  | [] => ret []
  | v :: vs => let* v' := c v in let* vs' := mapM_ c vs in ret (v' :: vs')
  end.

(** ** The statements of a generated [DeepCopyInto]

    [out] starts as [*in]; then every reference field [F] is replaced by a copy
    of [in.F].  [copy_ptr c] is [new(T)] filled by [c], [copy_slice c] is
    [make([]T, len)] filled element by element, [copy_map] is a new map filled
    by a range; all three leave nil as it is.  A cell is allocated here once
    its contents have been copied, which changes the names of locations only.
    [assign] is Go's assignment, also of [**out = **in] and of [copy(out, in)]. *)
Definition assign : val → M val := ret.

Definition copy_ptr (c : val → M val) (x : val) : M val :=
  match x with
  | VRef None => ret (VRef None)
  | VRef (Some l) =>
      let* cl := load l in
      match cl with
      | CPtr v => let* v' := c v in let* l' := alloc (CPtr v') in ret (VRef (Some l'))
      | _ => lift None
      end
  | _ => lift None
  end.

Definition copy_slice (c : val → M val) (x : val) : M val :=
  match x with
  | VRef None => ret (VRef None)
  | VRef (Some l) =>
      let* cl := load l in
      match cl with
      | CSlice vs => let* vs' := mapM_ c vs in let* l' := alloc (CSlice vs') in ret (VRef (Some l'))
      | _ => lift None
      end
  | _ => lift None
  end.

Definition copy_map (x : val) : M val :=
  match x with
  | VRef None => ret (VRef None)
  | VRef (Some l) =>
      let* cl := load l in
      match cl with
      | CMap m => let* l' := alloc (CMap m) in ret (VRef (Some l'))
      | _ => lift None
      end
  | _ => lift None
  end.

Definition stmt : Type := string * (val → M val).

Fixpoint exec (ss : list stmt) (in_ out : val) : M val :=
  match ss with
  | [] => ret out
  | (f, c) :: ss =>
      let* x := lift (get f in_) in
      let* x' := c x in
      let* out := lift (put f x' out) in
      exec ss in_ out
  end.

Definition into (ss : list stmt) (in_ : val) : M val := exec ss in_ in_.

(** ** What a copy promises *)

(** Locations of a copy are its own: not in the heap before, used once. *)
Definition own (h : heap) (L : list loc) : Prop := NoDup L ∧ ∀ l, l ∈ L → h !! l = None.

(** A copier of type [T] returns, from any value of the type, the same tree in
    locations of its own, and changes no other cell. *)
Definition copies (T : GoType) (c : val → M val) : Prop :=
  ∀ h v t L, reads h T v t L →
  ∃ h' v' L', c v h = Some (h', v') ∧ h ⊆ h' ∧ reads h' T v' t L' ∧ own h L'.

(** ** Reading depends only on the locations it goes through *)
Definition agree (L : list loc) (h h' : heap) : Prop := ∀ l, l ∈ L → h' !! l = h !! l.

Lemma agree_app L1 L2 h h' : agree (L1 ++ L2) h h' ↔ agree L1 h h' ∧ agree L2 h h'.
Proof. unfold agree. setoid_rewrite elem_of_app. naive_solver. Qed.

Lemma reads_agree T : ∀ h h' v t L, reads h T v t L → agree L h h' → reads h' T v t L.
Proof.
  induction T as [|T IH|T IH| | |f T IHT r IHr]; cbn; intros h h' v t L Hr Ha; try done.
  - destruct Hr as [?|(l & v' & t' & L' & -> & Hl & Hv & -> & ->)]; [by left|right].
    exists l, v', t', L'. split; [done|]. split; [rewrite Ha; [done|by left]|].
    split; [|done]. apply (IH h); [done|]. intros l' ?. apply Ha. by right.
  - destruct Hr as [?|(l & vs & ts & Ls & -> & Hl & Hn & Hv & -> & ->)]; [by left|right].
    exists l, vs, ts, Ls. split; [done|]. split; [rewrite Ha; [done|by left]|]. split; [done|].
    split; [|done]. assert (agree (concat Ls) h h') as Hc by (intros l' ?; apply Ha; by right).
    clear Hl Hn Ha. induction Hv as [|v t L vs ts Ls Hv _ IHv]; [constructor|].
    cbn in Hc. apply agree_app in Hc as [??]. constructor; [by apply (IH h)|by apply IHv].
  - destruct Hr as [?|(l & m & -> & Hl & -> & ->)]; [by left|right].
    exists l, m. split; [done|]. split; [rewrite Ha; [done|by left]|done].
  - destruct Hr as (v1 & v2 & t1 & t2 & L1 & L2 & -> & -> & -> & H1 & H2). apply agree_app in Ha as [??].
    exists v1, v2, t1, t2, L1, L2. split_and!; try done; [by apply (IHT h)|by apply (IHr h)].
Qed.

Lemma reads_dom T : ∀ h v t L l, reads h T v t L → l ∈ L → is_Some (h !! l).
Proof.
  induction T as [|T IH|T IH| | |f T IHT r IHr]; cbn; intros h v t L l Hr Hin.
  - destruct Hr as (? & -> & -> & ->). by apply not_elem_of_nil in Hin.
  - destruct Hr as [(-> & -> & ->)|(l' & v' & t' & L' & -> & Hl & Hv & -> & ->)]; [by apply not_elem_of_nil in Hin|].
    apply elem_of_cons in Hin as [->|Hin]; [by eexists|by eapply IH].
  - destruct Hr as [(-> & -> & ->)|(l' & vs & ts & Ls & -> & Hl & Hn & Hv & -> & ->)]; [by apply not_elem_of_nil in Hin|].
    apply elem_of_cons in Hin as [->|Hin]; [by eexists|]. clear Hl Hn.
    induction Hv as [|v t L vs ts Ls Hv _ IHv]; [by apply not_elem_of_nil in Hin|].
    cbn in Hin. apply elem_of_app in Hin as [?|?]; [by eapply IH|by apply IHv].
  - destruct Hr as [(-> & -> & ->)|(l' & m & -> & Hl & -> & ->)]; [by apply not_elem_of_nil in Hin|].
    apply list_elem_of_singleton in Hin as ->. by eexists.
  - destruct Hr as (-> & -> & ->). by apply not_elem_of_nil in Hin.
  - destruct Hr as (v1 & v2 & t1 & t2 & L1 & L2 & -> & -> & -> & H1 & H2).
    apply elem_of_app in Hin as [?|?]; [by eapply IHT|by eapply IHr].
Qed.

Lemma reads_mono T h h' v t L : reads h T v t L → h ⊆ h' → reads h' T v t L.
Proof.
  intros Hr Hsub. eapply reads_agree; [done|]. intros l Hl.
  destruct (reads_dom _ _ _ _ _ _ Hr Hl) as [c Hc]. rewrite Hc. by eapply lookup_weaken.
Qed.

Lemma reads_flat T : ∀ h v t L, flat T = true → reads h T v t L → L = [] ∧ ∀ h', reads h' T v t [].
Proof.
  induction T as [|T IH|T IH| | |f T IHT r IHr]; cbn; intros h v t L Hf Hr; try done.
  - destruct Hr as (d & -> & -> & ->). split; [done|]. intros _. by exists d.
  - by destruct Hr as (-> & -> & ->).
  - apply andb_true_iff in Hf as [HT Hrest].
    destruct Hr as (v1 & v2 & t1 & t2 & L1 & L2 & -> & -> & -> & H1 & H2).
    destruct (IHT _ _ _ _ HT H1) as [-> H1']. destruct (IHr _ _ _ _ Hrest H2) as [-> H2'].
    split; [done|]. intros h'. by exists v1, v2, t1, t2, [], [].
Qed.

Lemma own_nil h : own h [].
Proof. split; [constructor|]. by intros l ?%not_elem_of_nil. Qed.

Definition live (h : heap) (L : list loc) : Prop := ∀ l, l ∈ L → is_Some (h !! l).

Lemma reads_live T h v t L : reads h T v t L → live h L.
Proof. intros Hr l Hl. by eapply reads_dom. Qed.

Lemma Forall3_reads_live T h vs ts Ls : Forall3 (reads h T) vs ts Ls → live h (concat Ls).
Proof.
  induction 1 as [|v t L vs ts Ls Hv _ IH]; intros l Hl; [by apply not_elem_of_nil in Hl|].
  cbn in Hl. apply elem_of_app in Hl as [?|?]; [by eapply reads_dom|by apply IH].
Qed.

(** Two copies made one after the other do not meet. *)
Lemma own_app h h1 L1 L2 :
  own h L1 → h ⊆ h1 → live h1 L1 → own h1 L2 → own h (L1 ++ L2).
Proof.
  intros [N1 F1] Hsub Hr [N2 F2]. split.
  - apply NoDup_app. split_and!; [done| |done]. intros l H1 H2.
    destruct (Hr l H1) as [c Hc]. by rewrite (F2 l H2) in Hc.
  - intros l [?|?]%elem_of_app; [by apply F1|]. eapply lookup_weaken_None; [by apply F2|done].
Qed.

Lemma alloc_spec h c : ∃ l, alloc c h = Some (<[l := c]> h, l) ∧ h !! l = None ∧ h ⊆ <[l := c]> h.
Proof.
  exists (fresh (dom h)). assert (h !! fresh (dom h) = None) as Hn by (apply not_elem_of_dom, is_fresh).
  split_and!; [done|done|by apply insert_subseteq].
Qed.

(** A cell allocated for what was copied before. *)
Lemma own_alloc h h1 L c :
  own h L → h ⊆ h1 → live h1 L →
  ∃ l, alloc c h1 = Some (<[l := c]> h1, l) ∧ own h (l :: L) ∧ h ⊆ <[l := c]> h1 ∧ h1 ⊆ <[l := c]> h1.
Proof.
  intros [HN HF] Hsub Hr. destruct (alloc_spec h1 c) as (l & -> & Hl & Hs). exists l. split; [done|].
  split; [|split; [by etrans|done]]. split.
  - constructor; [|done]. intros Hin. destruct (Hr l Hin) as [? Hc]. congruence.
  - intros l' [->|?]%elem_of_cons; [by eapply lookup_weaken_None|by apply HF].
Qed.

(** ** The statements copy *)
Lemma copies_assign T : flat T = true → copies T assign.
Proof.
  intros Hf h v t L Hr. exists h, v, []. split; [done|]. split; [done|].
  split; [|apply own_nil]. by eapply reads_flat.
Qed.

Lemma copies_ptr T c : copies T c → copies (TPtr T) (copy_ptr c).
Proof.
  intros Hc h v t L [(-> & -> & ->)|(l & v' & t' & L' & -> & Hl & Hv & -> & ->)].
  { exists h, (VRef None), []. split_and!; [done|done|by left|apply own_nil]. }
  destruct (Hc _ _ _ _ Hv) as (h1 & v1 & L1 & E & Hs & Hr & Ho).
  destruct (own_alloc h h1 L1 (CPtr v1) Ho Hs (reads_live _ _ _ _ _ Hr)) as (l1 & Ea & Ho1 & Hs1 & Hs2).
  eexists _, _, _. split; [unfold copy_ptr, bind, load; rewrite Hl; cbn; by rewrite E, Ea|].
  split; [done|]. split; [|done]. right. exists l1, v1, t', L1. split; [done|].
  split; [by rewrite lookup_insert_eq|]. split; [by eapply reads_mono|done].
Qed.

Lemma mapM_copies T c h vs ts Ls :
  copies T c → Forall3 (reads h T) vs ts Ls →
  ∃ h' vs' Ls', mapM_ c vs h = Some (h', vs') ∧ h ⊆ h' ∧ Forall3 (reads h' T) vs' ts Ls' ∧ own h (concat Ls').
Proof.
  intros Hc. revert h ts Ls. induction vs as [|v vs IH]; intros h ts Ls Hall.
  { inversion Hall; subst. exists h, [], []. split_and!; [done|done|constructor|apply own_nil]. }
  inversion Hall as [|? t L ? ts' Ls' Hv Hrest]; subst. clear Hall.
  destruct (Hc _ _ _ _ Hv) as (h1 & v1 & L1 & E & Hs & Hr & Ho).
  destruct (IH h1 ts' Ls') as (h2 & vs2 & Ls2 & E2 & Hs2 & Hr2 & Ho2).
  { eapply Forall3_impl; [done|]. intros. by eapply reads_mono. }
  exists h2, (v1 :: vs2), (L1 :: Ls2).
  split; [cbn; unfold bind; by rewrite E, E2|]. split; [by etrans|].
  split; [constructor; [by eapply reads_mono|done]|].
  cbn. eapply own_app; [done|done|by eapply reads_live|done].
Qed.

Lemma copies_slice T c : copies T c → copies (TSlice T) (copy_slice c).
Proof.
  intros Hc h v t L [(-> & -> & ->)|(l & vs & ts & Ls & -> & Hl & Hn & Hv & -> & ->)].
  { exists h, (VRef None), []. split_and!; [done|done|by left|apply own_nil]. }
  destruct (mapM_copies T c h vs ts Ls Hc Hv) as (h1 & vs1 & Ls1 & E & Hs & Hr & Ho).
  destruct (own_alloc h h1 (concat Ls1) (CSlice vs1) Ho Hs (Forall3_reads_live _ _ _ _ _ Hr))
    as (l1 & Ea & Ho1 & Hs1 & Hs2).
  eexists _, _, _. split; [unfold copy_slice, bind, load; rewrite Hl; cbn; by rewrite E, Ea|].
  split; [done|]. split; [|done]. right. exists l1, vs1, ts, Ls1. split; [done|].
  split; [by rewrite lookup_insert_eq|]. split; [by eapply Forall3_length_lm|].
  split; [|done]. eapply Forall3_impl; [done|]. intros. by eapply reads_mono.
Qed.

Lemma copies_map : copies TMap copy_map.
Proof.
  intros h v t L [(-> & -> & ->)|(l & m & -> & Hl & -> & ->)].
  { exists h, (VRef None), []. split_and!; [done|done|by left|apply own_nil]. }
  destruct (own_alloc h h [] (CMap m) (own_nil h)) as (l1 & Ea & Ho1 & Hs1 & _); [done|by intros ? ?%not_elem_of_nil|].
  eexists _, _, _. split; [unfold copy_map, bind, load; rewrite Hl; cbn; by rewrite Ea|].
  split; [done|]. split; [|done]. right. exists l1, m. by rewrite lookup_insert_eq.
Qed.

(** A generated body covers a struct when its statements follow the fields
    and skip only those without references. *)
Inductive covered : GoType → list stmt → Prop :=
  | covered_end : covered TEnd []
  | covered_flat f T r ss : flat T = true → covered r ss → covered (TField f T r) ss
  | covered_copy f T r c ss : copies T c → covered r ss → covered (TField f T r) ((f, c) :: ss).

Lemma covered_names T ss f : covered T ss → f ∈ ss.*1 → f ∈ field_names T.
Proof.
  induction 1 as [|g T r ss _ _ IH|g T r c ss _ _ IH]; cbn; [done|by right; auto|].
  intros [->|?]%elem_of_cons; [by left|by right; auto].
Qed.

(** Statements about other fields leave a field alone. *)
Lemma exec_skip ss f x y in_ out h :
  f ∉ ss.*1 →
  exec ss (VField f x in_) (VField f y out) h =
    (λ '(h', o), (h', VField f y o)) <$> exec ss in_ out h.
Proof.
  revert out h. induction ss as [|[g c] ss IH]; intros out h Hf; [done|].
  cbn in Hf. apply not_elem_of_cons in Hf as [Hne Hf]. cbn. unfold bind, lift.
  rewrite bool_decide_false by done. destruct (get g in_) as [x'|]; [|done]. cbn.
  destruct (c x' h) as [[h1 x1]|]; [|done]. destruct (put g x1 out) as [o1|]; [|done]. cbn.
  by rewrite IH.
Qed.

Lemma into_copies T ss : NoDup (field_names T) → covered T ss → copies T (into ss).
Proof.
  intros Hnd Hc. unfold into. induction Hc as [|f T r ss Hf Hc IH|f T r c ss HT Hc IH]; intros h v t L Hr.
  { destruct Hr as (-> & -> & ->). exists h, VEnd, []. split_and!; [done|done|done|apply own_nil]. }
  all: cbn in Hnd; apply NoDup_cons in Hnd as [Hni Hnd];
    assert (f ∉ ss.*1) as Hns by (intros ?; eapply Hni, covered_names; eauto);
    destruct Hr as (v1 & v2 & t1 & t2 & L1 & L2 & -> & -> & -> & H1 & H2).
  - destruct (IH Hnd h v2 t2 L2 H2) as (h' & v' & L' & E & Hs & Hr & Ho).
    exists h', (VField f v1 v'), L'. split; [rewrite exec_skip by done; by rewrite E|].
    split; [done|]. split; [|done]. destruct (reads_flat _ _ _ _ _ Hf H1) as [_ H1'].
    by exists v1, v', t1, t2, [], L'.
  - destruct (HT h v1 t1 L1 H1) as (h1 & w1 & L1' & E1 & Hs1 & Hr1 & Ho1).
    destruct (IH Hnd h1 v2 t2 L2) as (h2 & w2 & L2' & E2 & Hs2 & Hr2 & Ho2); [by eapply reads_mono|].
    exists h2, (VField f w1 w2), (L1' ++ L2'). split.
    { cbn. unfold bind, lift. rewrite bool_decide_true by done. cbn. rewrite E1. cbn.
      rewrite exec_skip by done. by rewrite E2. }
    split; [by etrans|]. split; [|by eapply own_app; [done|done|by eapply reads_live|done]].
    exists w1, w2, t1, t2, L1', L2'. split_and!; try done. by eapply reads_mono.
Qed.

(** ** Isolation *)

(** [h'] is [h] after writes to locations of [L]. *)
Definition written (L : list loc) (h h' : heap) : Prop := ∀ l, l ∉ L → h' !! l = h !! l.

(** The copy has the contents of the original; whatever is written through
    the copy, the original still reads the same, and the other way round. *)
Definition isolates (T : GoType) (c : val → M val) : Prop :=
  ∀ h v t L, reads h T v t L →
  ∃ h' v' L', c v h = Some (h', v') ∧ reads h' T v t L ∧ reads h' T v' t L' ∧
    (∀ h'', written L' h' h'' → reads h'' T v t L) ∧
    (∀ h'', written L h' h'' → reads h'' T v' t L').

Lemma copies_isolates T c : copies T c → isolates T c.
Proof.
  intros Hc h v t L Hr. destruct (Hc _ _ _ _ Hr) as (h' & v' & L' & E & Hs & Hr' & Ho).
  pose proof (reads_mono _ _ _ _ _ _ Hr Hs) as Hr1.
  assert (∀ l, l ∈ L → l ∈ L' → False) as Hd.
  { intros l H1 H2. destruct (reads_dom _ _ _ _ _ _ Hr H1) as [? Hl]. destruct Ho as [_ Ho].
    by rewrite Ho in Hl. }
  exists h', v', L'. split_and!; [done|done|done|..]; intros h'' Hw;
    eapply reads_agree; try done; intros l Hl; apply Hw; naive_solver.
Qed.

(** [(in *T) DeepCopy() *T], which returns nil for nil, and
    [DeepCopyObject], which returns that pointer as an interface: nil when
    there is none. *)
Definition DeepCopy (into : val → M val) (p : val) : M val :=
  match p with
  | VRef None => ret (VRef None)
  | VRef (Some l) =>
      let* cl := load l in
      match cl with
      | CPtr v => let* v' := into v in let* l' := alloc (CPtr v') in ret (VRef (Some l'))
      | _ => lift None
      end
  | _ => lift None
  end.
Definition DeepCopyObject (into : val → M val) (p : val) : M val :=
  let* c := DeepCopy into p in
  match c with VRef (Some l) => ret (VRef (Some l)) | _ => ret (VRef None) end.

Lemma copies_DeepCopy T c : copies T c → copies (TPtr T) (DeepCopy c).
Proof. exact (copies_ptr T c). Qed.

Lemma copies_DeepCopyObject T c : copies T c → copies (TPtr T) (DeepCopyObject c).
Proof.
  intros Hc h v t L Hr. destruct (copies_DeepCopy T c Hc h v t L Hr) as (h' & v' & L' & E & H).
  exists h', v', L'. split; [|done]. unfold DeepCopyObject, bind. rewrite E.
  destruct H as (_ & [(-> & _)|(l & ? & ? & ? & -> & _)] & _); done.
Qed.

End GoHeap.
