(* ===== verification/DeepCopies.v ===== *)
(** * Deep copies of the API types ([zz_generated.deepcopy.go])

    Controllers read objects from a cache they share, copy them and mutate the
    copy: [original.DeepCopy()] in both [Reconcile]s, [got.DeepCopy()] and
    [*agent.DeepCopy()] in [agentset/agentdeploys.go], the patch bases of
    [client.MergeFrom].  Per API type this file has the shape of the struct
    (from [*_types.go] and its siblings) and the statements of its
    [DeepCopyInto], and proves that every copy is isolated from its original:
    the rest of the library may take API objects for immutable values because
    of that.  The types of [k8s.io/api] and [k8s.io/apimachinery] are
    parameters, with what their packages document of them. *)
From S2P Require Import Prelude GoHeap.
#[local] Open Scope Z_scope.

Module DeepCopies.
Import GoHeap.

(** The types of other packages and their [DeepCopyInto]. *)
Class External := {
  ext : string → GoType;
  ext_copy : string → val → M val
}.

(** Those that hold no reference: strings and structs of strings and numbers. *)
Definition plain_types : list string :=
  ["corev1.ContainerPort"; "corev1.DNSPolicy"; "corev1.LocalObjectReference"; "corev1.PullPolicy";
   "intstr.IntOrString"; "metav1.TypeMeta"].

Class ExternalLaws `{External} := {
  ext_copies n : copies (ext n) (ext_copy n);
  ext_plain n : n ∈ plain_types → flat (ext n) = true
}.

Section types.
Context `{External}.

Definition Metadata_t : GoType := TStruct
  [("Annotations", TMap);
   ("Labels", TMap)].
Definition Metadata_DeepCopyInto : val → M val := into
  [("Annotations", copy_map);
   ("Labels", copy_map)].
Definition Metadata_DeepCopy : val → M val := DeepCopy Metadata_DeepCopyInto.

Definition AbstractPodTemplate_t : GoType := TStruct
  [("Metadata", TPtr Metadata_t);
   ("NodeSelector", TMap);
   ("Tolerations", TSlice (ext "corev1.Toleration"));
   ("SecurityContext", TPtr (ext "corev1.PodSecurityContext"));
   ("ImagePullSecrets", TSlice (ext "corev1.LocalObjectReference"));
   ("PriorityClassName", TData);
   ("Priority", TPtr TData);
   ("Affinity", TPtr (ext "corev1.Affinity"));
   ("ServiceAccountName", TData);
   ("RuntimeClassName", TPtr TData);
   ("AutomountServiceAccountToken", TPtr TData);
   ("DNSPolicy", ext "corev1.DNSPolicy");
   ("DNSConfig", TPtr (ext "corev1.PodDNSConfig"));
   ("ResourceClaims", TSlice (ext "corev1.PodResourceClaim"));
   ("TerminationGracePeriodSeconds", TPtr TData)].
Definition AbstractPodTemplate_DeepCopyInto : val → M val := into
  [("Metadata", copy_ptr Metadata_DeepCopyInto);
   ("NodeSelector", copy_map);
   ("Tolerations", copy_slice (ext_copy "corev1.Toleration"));
   ("SecurityContext", copy_ptr (ext_copy "corev1.PodSecurityContext"));
   ("ImagePullSecrets", copy_slice assign);
   ("Priority", copy_ptr assign);
   ("Affinity", copy_ptr (ext_copy "corev1.Affinity"));
   ("RuntimeClassName", copy_ptr assign);
   ("AutomountServiceAccountToken", copy_ptr assign);
   ("DNSConfig", copy_ptr (ext_copy "corev1.PodDNSConfig"));
   ("ResourceClaims", copy_slice (ext_copy "corev1.PodResourceClaim"));
   ("TerminationGracePeriodSeconds", copy_ptr assign)].
Definition AbstractPodTemplate_DeepCopy : val → M val := DeepCopy AbstractPodTemplate_DeepCopyInto.

Definition Probe_t : GoType := TStruct
  [("InitialDelaySeconds", TPtr TData);
   ("TimeoutSeconds", TPtr TData);
   ("PeriodSeconds", TPtr TData);
   ("SuccessThreshold", TPtr TData);
   ("FailureThreshold", TPtr TData)].
Definition Probe_DeepCopyInto : val → M val := into
  [("InitialDelaySeconds", copy_ptr assign);
   ("TimeoutSeconds", copy_ptr assign);
   ("PeriodSeconds", copy_ptr assign);
   ("SuccessThreshold", copy_ptr assign);
   ("FailureThreshold", copy_ptr assign)].
Definition Probe_DeepCopy : val → M val := DeepCopy Probe_DeepCopyInto.

Definition Container_t : GoType := TStruct
  [("Image", TData);
   ("Command", TSlice TData);
   ("Args", TSlice TData);
   ("Env", TSlice (ext "corev1.EnvVar"));
   ("EnvFrom", TSlice (ext "corev1.EnvFromSource"));
   ("VolumeMounts", TSlice (ext "corev1.VolumeMount"));
   ("Resources", ext "corev1.ResourceRequirements");
   ("SecurityContext", TPtr (ext "corev1.SecurityContext"));
   ("ImagePullPolicy", TPtr (ext "corev1.PullPolicy"));
   ("ReadinessProbe", TPtr Probe_t);
   ("LivenessProbe", TPtr Probe_t);
   ("StartupProbe", TPtr Probe_t);
   ("Ports", TSlice (ext "corev1.ContainerPort"))].
Definition Container_DeepCopyInto : val → M val := into
  [("Command", copy_slice assign);
   ("Args", copy_slice assign);
   ("Env", copy_slice (ext_copy "corev1.EnvVar"));
   ("EnvFrom", copy_slice (ext_copy "corev1.EnvFromSource"));
   ("VolumeMounts", copy_slice (ext_copy "corev1.VolumeMount"));
   ("Resources", ext_copy "corev1.ResourceRequirements");
   ("SecurityContext", copy_ptr (ext_copy "corev1.SecurityContext"));
   ("ImagePullPolicy", copy_ptr assign);
   ("ReadinessProbe", copy_ptr Probe_DeepCopyInto);
   ("LivenessProbe", copy_ptr Probe_DeepCopyInto);
   ("StartupProbe", copy_ptr Probe_DeepCopyInto);
   ("Ports", copy_slice assign)].
Definition Container_DeepCopy : val → M val := DeepCopy Container_DeepCopyInto.

Definition ContainerTemplate_t : GoType := TStruct
  [("Resources", ext "corev1.ResourceRequirements");
   ("ImagePullPolicy", ext "corev1.PullPolicy");
   ("SecurityContext", TPtr (ext "corev1.SecurityContext"));
   ("Env", TSlice (ext "corev1.EnvVar"));
   ("EnvFrom", TSlice (ext "corev1.EnvFromSource"))].
Definition ContainerTemplate_DeepCopyInto : val → M val := into
  [("Resources", ext_copy "corev1.ResourceRequirements");
   ("SecurityContext", copy_ptr (ext_copy "corev1.SecurityContext"));
   ("Env", copy_slice (ext_copy "corev1.EnvVar"));
   ("EnvFrom", copy_slice (ext_copy "corev1.EnvFromSource"))].
Definition ContainerTemplate_DeepCopy : val → M val := DeepCopy ContainerTemplate_DeepCopyInto.

Definition Scale_t : GoType := TStruct
  [("Disabled", TData);
   ("Min", TPtr TData);
   ("Max", TPtr TData);
   ("TargetSaturationPercentage", TPtr TData);
   ("ScaleUpCooldownSeconds", TPtr TData);
   ("ScaleDownCooldownSeconds", TPtr TData);
   ("ReplicasPerScaleUp", TPtr TData);
   ("ReplicasPerScaleDown", TPtr TData)].
Definition Scale_DeepCopyInto : val → M val := into
  [("Min", copy_ptr assign);
   ("Max", copy_ptr assign);
   ("TargetSaturationPercentage", copy_ptr assign);
   ("ScaleUpCooldownSeconds", copy_ptr assign);
   ("ScaleDownCooldownSeconds", copy_ptr assign);
   ("ReplicasPerScaleUp", copy_ptr assign);
   ("ReplicasPerScaleDown", copy_ptr assign)].
Definition Scale_DeepCopy : val → M val := DeepCopy Scale_DeepCopyInto.

Definition RateLimit_t : GoType := TStruct
  [("MaxInFlight", TPtr TData)].
Definition RateLimit_DeepCopyInto : val → M val := into
  [("MaxInFlight", copy_ptr assign)].
Definition RateLimit_DeepCopy : val → M val := DeepCopy RateLimit_DeepCopyInto.

Definition RollingUpdateStrategy_t : GoType := TStruct
  [("MaxUnavailable", TPtr (ext "intstr.IntOrString"))].
Definition RollingUpdateStrategy_DeepCopyInto : val → M val := into
  [("MaxUnavailable", copy_ptr assign)].
Definition RollingUpdateStrategy_DeepCopy : val → M val := DeepCopy RollingUpdateStrategy_DeepCopyInto.

Definition UpdateStrategy_t : GoType := TStruct
  [("Type", TData);
   ("RollingUpdate", TPtr RollingUpdateStrategy_t)].
Definition UpdateStrategy_DeepCopyInto : val → M val := into
  [("RollingUpdate", copy_ptr RollingUpdateStrategy_DeepCopyInto)].
Definition UpdateStrategy_DeepCopy : val → M val := DeepCopy UpdateStrategy_DeepCopyInto.

Definition DriftReload_t : GoType := TStruct
  [("Enabled", TPtr TData)].
Definition DriftReload_DeepCopyInto : val → M val := into
  [("Enabled", copy_ptr assign)].
Definition DriftReload_DeepCopy : val → M val := DeepCopy DriftReload_DeepCopyInto.

Definition AbstractAgentDeploy_t : GoType := TStruct
  [("Name", TData);
   ("AbstractPodTemplate", AbstractPodTemplate_t);
   ("Container", TPtr Container_t);
   ("InitContainer", TPtr ContainerTemplate_t);
   ("BrokerContainer", TPtr ContainerTemplate_t);
   ("Volumes", TSlice (ext "corev1.Volume"));
   ("Scale", Scale_t);
   ("RateLimit", TPtr RateLimit_t);
   ("InitContainers", TSlice (ext "corev1.Container"));
   ("Sidecars", TSlice (ext "corev1.Container"));
   ("UpdateStrategy", UpdateStrategy_t);
   ("PublicBaseURL", TData);
   ("DriftReload", TPtr DriftReload_t)].
Definition AbstractAgentDeploy_DeepCopyInto : val → M val := into
  [("AbstractPodTemplate", AbstractPodTemplate_DeepCopyInto);
   ("Container", copy_ptr Container_DeepCopyInto);
   ("InitContainer", copy_ptr ContainerTemplate_DeepCopyInto);
   ("BrokerContainer", copy_ptr ContainerTemplate_DeepCopyInto);
   ("Volumes", copy_slice (ext_copy "corev1.Volume"));
   ("Scale", Scale_DeepCopyInto);
   ("RateLimit", copy_ptr RateLimit_DeepCopyInto);
   ("InitContainers", copy_slice (ext_copy "corev1.Container"));
   ("Sidecars", copy_slice (ext_copy "corev1.Container"));
   ("UpdateStrategy", UpdateStrategy_DeepCopyInto);
   ("DriftReload", copy_ptr DriftReload_DeepCopyInto)].
Definition AbstractAgentDeploy_DeepCopy : val → M val := DeepCopy AbstractAgentDeploy_DeepCopyInto.

Definition Peer_t : GoType := TStruct
  [("Name", TData);
   ("Kind", TData);
   ("URL", TData)].
Definition Peer_DeepCopyInto : val → M val := into [].
Definition Peer_DeepCopy : val → M val := DeepCopy Peer_DeepCopyInto.

Definition Topology_t : GoType := TStruct
  [("Pattern", TData);
   ("IsEntry", TData);
   ("Peers", TSlice Peer_t)].
Definition Topology_DeepCopyInto : val → M val := into
  [("Peers", copy_slice assign)].
Definition Topology_DeepCopy : val → M val := DeepCopy Topology_DeepCopyInto.

Definition AgentDeploySpec_t : GoType := TStruct
  [("AbstractAgentDeploy", AbstractAgentDeploy_t);
   ("AgentSetName", TData);
   ("Replicas", TPtr TData);
   ("Topology", Topology_t)].
Definition AgentDeploySpec_DeepCopyInto : val → M val := into
  [("AbstractAgentDeploy", AbstractAgentDeploy_DeepCopyInto);
   ("Replicas", copy_ptr assign);
   ("Topology", Topology_DeepCopyInto)].
Definition AgentDeploySpec_DeepCopy : val → M val := DeepCopy AgentDeploySpec_DeepCopyInto.

Definition Status_t : GoType := TStruct
  [("Conditions", TSlice (ext "metav1.Condition"))].
Definition Status_DeepCopyInto : val → M val := into
  [("Conditions", copy_slice (ext_copy "metav1.Condition"))].
Definition Status_DeepCopy : val → M val := DeepCopy Status_DeepCopyInto.

Definition AgentDeployStatus_t : GoType := TStruct
  [("Status", Status_t);
   ("Phase", TData);
   ("Replicas", TData);
   ("DesiredReplicas", TData);
   ("Selector", TData);
   ("Reason", TData);
   ("Message", TData);
   ("LastScaledAt", ext "metav1.Time");
   ("ObservedGeneration", TData);
   ("ReadyReplicas", TData);
   ("UpdatedReplicas", TData);
   ("UpdatedReadyReplicas", TData);
   ("CurrentHash", TData);
   ("UpdateHash", TData)].
Definition AgentDeployStatus_DeepCopyInto : val → M val := into
  [("Status", Status_DeepCopyInto);
   ("LastScaledAt", ext_copy "metav1.Time")].
Definition AgentDeployStatus_DeepCopy : val → M val := DeepCopy AgentDeployStatus_DeepCopyInto.

Definition AgentDeploy_t : GoType := TStruct
  [("TypeMeta", ext "metav1.TypeMeta");
   ("ObjectMeta", ext "metav1.ObjectMeta");
   ("Spec", AgentDeploySpec_t);
   ("Status", AgentDeployStatus_t)].
Definition AgentDeploy_DeepCopyInto : val → M val := into
  [("TypeMeta", assign);
   ("ObjectMeta", ext_copy "metav1.ObjectMeta");
   ("Spec", AgentDeploySpec_DeepCopyInto);
   ("Status", AgentDeployStatus_DeepCopyInto)].
Definition AgentDeploy_DeepCopy : val → M val := DeepCopy AgentDeploy_DeepCopyInto.
Definition AgentDeploy_DeepCopyObject : val → M val := DeepCopyObject AgentDeploy_DeepCopyInto.

Definition AgentDeployList_t : GoType := TStruct
  [("TypeMeta", ext "metav1.TypeMeta");
   ("ListMeta", ext "metav1.ListMeta");
   ("Items", TSlice AgentDeploy_t)].
Definition AgentDeployList_DeepCopyInto : val → M val := into
  [("TypeMeta", assign);
   ("ListMeta", ext_copy "metav1.ListMeta");
   ("Items", copy_slice AgentDeploy_DeepCopyInto)].
Definition AgentDeployList_DeepCopy : val → M val := DeepCopy AgentDeployList_DeepCopyInto.
Definition AgentDeployList_DeepCopyObject : val → M val := DeepCopyObject AgentDeployList_DeepCopyInto.

Definition AgentDeployTemplate_t : GoType := TStruct
  [("AbstractPodTemplate", AbstractPodTemplate_t);
   ("InitContainer", TPtr ContainerTemplate_t);
   ("BrokerContainer", TPtr ContainerTemplate_t)].
Definition AgentDeployTemplate_DeepCopyInto : val → M val := into
  [("AbstractPodTemplate", AbstractPodTemplate_DeepCopyInto);
   ("InitContainer", copy_ptr ContainerTemplate_DeepCopyInto);
   ("BrokerContainer", copy_ptr ContainerTemplate_DeepCopyInto)].
Definition AgentDeployTemplate_DeepCopy : val → M val := DeepCopy AgentDeployTemplate_DeepCopyInto.

Definition DaemonTemplate_t : GoType := TStruct
  [("AbstractPodTemplate", AbstractPodTemplate_t);
   ("Container", TPtr ContainerTemplate_t)].
Definition DaemonTemplate_DeepCopyInto : val → M val := into
  [("AbstractPodTemplate", AbstractPodTemplate_DeepCopyInto);
   ("Container", copy_ptr ContainerTemplate_DeepCopyInto)].
Definition DaemonTemplate_DeepCopy : val → M val := DeepCopy DaemonTemplate_DeepCopyInto.

Definition Templates_t : GoType := TStruct
  [("AgentDeployTemplate", TPtr AgentDeployTemplate_t);
   ("DaemonTemplate", TPtr DaemonTemplate_t)].
Definition Templates_DeepCopyInto : val → M val := into
  [("AgentDeployTemplate", copy_ptr AgentDeployTemplate_DeepCopyInto);
   ("DaemonTemplate", copy_ptr DaemonTemplate_DeepCopyInto)].
Definition Templates_DeepCopy : val → M val := DeepCopy Templates_DeepCopyInto.

Definition ExternalAgentRef_t : GoType := TStruct
  [("Name", TData);
   ("URL", TData)].
Definition ExternalAgentRef_DeepCopyInto : val → M val := into [].
Definition ExternalAgentRef_DeepCopy : val → M val := DeepCopy ExternalAgentRef_DeepCopyInto.

Definition AgentSetSpec_t : GoType := TStruct
  [("Pattern", TData);
   ("Entry", TData);
   ("Agents", TSlice AbstractAgentDeploy_t);
   ("Templates", TPtr Templates_t);
   ("ExternalAgents", TSlice ExternalAgentRef_t);
   ("DriftReload", TPtr DriftReload_t)].
Definition AgentSetSpec_DeepCopyInto : val → M val := into
  [("Agents", copy_slice AbstractAgentDeploy_DeepCopyInto);
   ("Templates", copy_ptr Templates_DeepCopyInto);
   ("ExternalAgents", copy_slice assign);
   ("DriftReload", copy_ptr DriftReload_DeepCopyInto)].
Definition AgentSetSpec_DeepCopy : val → M val := DeepCopy AgentSetSpec_DeepCopyInto.

Definition AgentSetStatus_t : GoType := TStruct
  [("Status", Status_t);
   ("Phase", TData);
   ("Message", TData);
   ("LastUpdated", ext "metav1.Time");
   ("AgentCount", TPtr TData);
   ("ExternalAgentCount", TPtr TData);
   ("ObservedGeneration", TData)].
Definition AgentSetStatus_DeepCopyInto : val → M val := into
  [("Status", Status_DeepCopyInto);
   ("LastUpdated", ext_copy "metav1.Time");
   ("AgentCount", copy_ptr assign);
   ("ExternalAgentCount", copy_ptr assign)].
Definition AgentSetStatus_DeepCopy : val → M val := DeepCopy AgentSetStatus_DeepCopyInto.

Definition AgentSet_t : GoType := TStruct
  [("TypeMeta", ext "metav1.TypeMeta");
   ("ObjectMeta", ext "metav1.ObjectMeta");
   ("Spec", AgentSetSpec_t);
   ("Status", AgentSetStatus_t)].
Definition AgentSet_DeepCopyInto : val → M val := into
  [("TypeMeta", assign);
   ("ObjectMeta", ext_copy "metav1.ObjectMeta");
   ("Spec", AgentSetSpec_DeepCopyInto);
   ("Status", AgentSetStatus_DeepCopyInto)].
Definition AgentSet_DeepCopy : val → M val := DeepCopy AgentSet_DeepCopyInto.
Definition AgentSet_DeepCopyObject : val → M val := DeepCopyObject AgentSet_DeepCopyInto.

Definition AgentSetList_t : GoType := TStruct
  [("TypeMeta", ext "metav1.TypeMeta");
   ("ListMeta", ext "metav1.ListMeta");
   ("Items", TSlice AgentSet_t)].
Definition AgentSetList_DeepCopyInto : val → M val := into
  [("TypeMeta", assign);
   ("ListMeta", ext_copy "metav1.ListMeta");
   ("Items", copy_slice AgentSet_DeepCopyInto)].
Definition AgentSetList_DeepCopy : val → M val := DeepCopy AgentSetList_DeepCopyInto.
Definition AgentSetList_DeepCopyObject : val → M val := DeepCopyObject AgentSetList_DeepCopyInto.

(** Every type with its functions. *)
Definition api_types : list (string * GoType * (val → M val) * (val → M val)) :=
  [("Metadata", Metadata_t, Metadata_DeepCopyInto, Metadata_DeepCopy);
   ("AbstractPodTemplate", AbstractPodTemplate_t, AbstractPodTemplate_DeepCopyInto, AbstractPodTemplate_DeepCopy);
   ("Probe", Probe_t, Probe_DeepCopyInto, Probe_DeepCopy);
   ("Container", Container_t, Container_DeepCopyInto, Container_DeepCopy);
   ("ContainerTemplate", ContainerTemplate_t, ContainerTemplate_DeepCopyInto, ContainerTemplate_DeepCopy);
   ("Scale", Scale_t, Scale_DeepCopyInto, Scale_DeepCopy);
   ("RateLimit", RateLimit_t, RateLimit_DeepCopyInto, RateLimit_DeepCopy);
   ("RollingUpdateStrategy", RollingUpdateStrategy_t, RollingUpdateStrategy_DeepCopyInto, RollingUpdateStrategy_DeepCopy);
   ("UpdateStrategy", UpdateStrategy_t, UpdateStrategy_DeepCopyInto, UpdateStrategy_DeepCopy);
   ("DriftReload", DriftReload_t, DriftReload_DeepCopyInto, DriftReload_DeepCopy);
   ("AbstractAgentDeploy", AbstractAgentDeploy_t, AbstractAgentDeploy_DeepCopyInto, AbstractAgentDeploy_DeepCopy);
   ("Peer", Peer_t, Peer_DeepCopyInto, Peer_DeepCopy);
   ("Topology", Topology_t, Topology_DeepCopyInto, Topology_DeepCopy);
   ("AgentDeploySpec", AgentDeploySpec_t, AgentDeploySpec_DeepCopyInto, AgentDeploySpec_DeepCopy);
   ("Status", Status_t, Status_DeepCopyInto, Status_DeepCopy);
   ("AgentDeployStatus", AgentDeployStatus_t, AgentDeployStatus_DeepCopyInto, AgentDeployStatus_DeepCopy);
   ("AgentDeploy", AgentDeploy_t, AgentDeploy_DeepCopyInto, AgentDeploy_DeepCopy);
   ("AgentDeployList", AgentDeployList_t, AgentDeployList_DeepCopyInto, AgentDeployList_DeepCopy);
   ("AgentDeployTemplate", AgentDeployTemplate_t, AgentDeployTemplate_DeepCopyInto, AgentDeployTemplate_DeepCopy);
   ("DaemonTemplate", DaemonTemplate_t, DaemonTemplate_DeepCopyInto, DaemonTemplate_DeepCopy);
   ("Templates", Templates_t, Templates_DeepCopyInto, Templates_DeepCopy);
   ("ExternalAgentRef", ExternalAgentRef_t, ExternalAgentRef_DeepCopyInto, ExternalAgentRef_DeepCopy);
   ("AgentSetSpec", AgentSetSpec_t, AgentSetSpec_DeepCopyInto, AgentSetSpec_DeepCopy);
   ("AgentSetStatus", AgentSetStatus_t, AgentSetStatus_DeepCopyInto, AgentSetStatus_DeepCopy);
   ("AgentSet", AgentSet_t, AgentSet_DeepCopyInto, AgentSet_DeepCopy);
   ("AgentSetList", AgentSetList_t, AgentSetList_DeepCopyInto, AgentSetList_DeepCopy)].
Definition api_objects : list (GoType * (val → M val)) :=
  [(AgentDeploy_t, AgentDeploy_DeepCopyObject); (AgentDeployList_t, AgentDeployList_DeepCopyObject); (AgentSet_t, AgentSet_DeepCopyObject); (AgentSetList_t, AgentSetList_DeepCopyObject)].

End types.

(** ** Every copy is isolated *)
Create HintDb deepcopy discriminated.
#[export] Hint Constants Opaque : deepcopy.
#[export] Hint Resolve copies_ptr copies_slice copies_map copies_assign ext_copies : deepcopy.

(** A body covers its struct field by field. *)
Ltac deep_copy :=
  apply into_copies; [by apply (bool_decide_unpack _); vm_compute|];
  repeat first
    [ apply covered_end
    | apply covered_copy; [cbn [fst snd]; solve [eauto 6 with deepcopy]|]
    | apply covered_flat; [cbn [fst snd]; solve [eauto with deepcopy]|] ].

Section isolation.
Context `{ExternalLaws}.
#[local] Set Default Proof Using "Type*".

Lemma plain_elem n : bool_decide (n ∈ plain_types) = true → flat (ext n) = true.
Proof. intros Hn%bool_decide_eq_true. by apply ext_plain. Qed.
#[local] Hint Extern 2 (flat (ext _) = true) => (apply plain_elem; vm_compute; reflexivity) : deepcopy.
#[local] Hint Extern 1 (flat _ = true) => reflexivity : deepcopy.

Lemma Metadata_copies : copies Metadata_t Metadata_DeepCopyInto.
Proof. deep_copy. Qed.
#[local] Hint Resolve Metadata_copies : deepcopy.
Lemma AbstractPodTemplate_copies : copies AbstractPodTemplate_t AbstractPodTemplate_DeepCopyInto.
Proof. deep_copy. Qed.
#[local] Hint Resolve AbstractPodTemplate_copies : deepcopy.
Lemma Probe_copies : copies Probe_t Probe_DeepCopyInto.
Proof. deep_copy. Qed.
#[local] Hint Resolve Probe_copies : deepcopy.
Lemma Container_copies : copies Container_t Container_DeepCopyInto.
Proof. deep_copy. Qed.
#[local] Hint Resolve Container_copies : deepcopy.
Lemma ContainerTemplate_copies : copies ContainerTemplate_t ContainerTemplate_DeepCopyInto.
Proof. deep_copy. Qed.
#[local] Hint Resolve ContainerTemplate_copies : deepcopy.
Lemma Scale_copies : copies Scale_t Scale_DeepCopyInto.
Proof. deep_copy. Qed.
#[local] Hint Resolve Scale_copies : deepcopy.
Lemma RateLimit_copies : copies RateLimit_t RateLimit_DeepCopyInto.
Proof. deep_copy. Qed.
#[local] Hint Resolve RateLimit_copies : deepcopy.
Lemma RollingUpdateStrategy_copies : copies RollingUpdateStrategy_t RollingUpdateStrategy_DeepCopyInto.
Proof. deep_copy. Qed.
#[local] Hint Resolve RollingUpdateStrategy_copies : deepcopy.
Lemma UpdateStrategy_copies : copies UpdateStrategy_t UpdateStrategy_DeepCopyInto.
Proof. deep_copy. Qed.
#[local] Hint Resolve UpdateStrategy_copies : deepcopy.
Lemma DriftReload_copies : copies DriftReload_t DriftReload_DeepCopyInto.
Proof. deep_copy. Qed.
#[local] Hint Resolve DriftReload_copies : deepcopy.
Lemma AbstractAgentDeploy_copies : copies AbstractAgentDeploy_t AbstractAgentDeploy_DeepCopyInto.
Proof. deep_copy. Qed.
#[local] Hint Resolve AbstractAgentDeploy_copies : deepcopy.
Lemma Peer_copies : copies Peer_t Peer_DeepCopyInto.
Proof. deep_copy. Qed.
#[local] Hint Resolve Peer_copies : deepcopy.
Lemma Topology_copies : copies Topology_t Topology_DeepCopyInto.
Proof. deep_copy. Qed.
#[local] Hint Resolve Topology_copies : deepcopy.
Lemma AgentDeploySpec_copies : copies AgentDeploySpec_t AgentDeploySpec_DeepCopyInto.
Proof. deep_copy. Qed.
#[local] Hint Resolve AgentDeploySpec_copies : deepcopy.
Lemma Status_copies : copies Status_t Status_DeepCopyInto.
Proof. deep_copy. Qed.
#[local] Hint Resolve Status_copies : deepcopy.
Lemma AgentDeployStatus_copies : copies AgentDeployStatus_t AgentDeployStatus_DeepCopyInto.
Proof. deep_copy. Qed.
#[local] Hint Resolve AgentDeployStatus_copies : deepcopy.
Lemma AgentDeploy_copies : copies AgentDeploy_t AgentDeploy_DeepCopyInto.
Proof. deep_copy. Qed.
#[local] Hint Resolve AgentDeploy_copies : deepcopy.
Lemma AgentDeployList_copies : copies AgentDeployList_t AgentDeployList_DeepCopyInto.
Proof. deep_copy. Qed.
#[local] Hint Resolve AgentDeployList_copies : deepcopy.
Lemma AgentDeployTemplate_copies : copies AgentDeployTemplate_t AgentDeployTemplate_DeepCopyInto.
Proof. deep_copy. Qed.
#[local] Hint Resolve AgentDeployTemplate_copies : deepcopy.
Lemma DaemonTemplate_copies : copies DaemonTemplate_t DaemonTemplate_DeepCopyInto.
Proof. deep_copy. Qed.
#[local] Hint Resolve DaemonTemplate_copies : deepcopy.
Lemma Templates_copies : copies Templates_t Templates_DeepCopyInto.
Proof. deep_copy. Qed.
#[local] Hint Resolve Templates_copies : deepcopy.
Lemma ExternalAgentRef_copies : copies ExternalAgentRef_t ExternalAgentRef_DeepCopyInto.
Proof. deep_copy. Qed.
#[local] Hint Resolve ExternalAgentRef_copies : deepcopy.
Lemma AgentSetSpec_copies : copies AgentSetSpec_t AgentSetSpec_DeepCopyInto.
Proof. deep_copy. Qed.
#[local] Hint Resolve AgentSetSpec_copies : deepcopy.
Lemma AgentSetStatus_copies : copies AgentSetStatus_t AgentSetStatus_DeepCopyInto.
Proof. deep_copy. Qed.
#[local] Hint Resolve AgentSetStatus_copies : deepcopy.
Lemma AgentSet_copies : copies AgentSet_t AgentSet_DeepCopyInto.
Proof. deep_copy. Qed.
#[local] Hint Resolve AgentSet_copies : deepcopy.
Lemma AgentSetList_copies : copies AgentSetList_t AgentSetList_DeepCopyInto.
Proof. deep_copy. Qed.
#[local] Hint Resolve AgentSetList_copies : deepcopy.

Lemma all_copies : Forall (λ '(_, T, into, dc), copies T into ∧ dc = DeepCopy into) api_types.
Proof. repeat (apply List.Forall_cons; [split; [auto with deepcopy|done]|]). apply List.Forall_nil. Qed.

Lemma all_objects_copy : Forall (λ '(T, dco), ∃ into, copies T into ∧ dco = DeepCopyObject into) api_objects.
Proof.
  repeat (apply List.Forall_cons; [eexists; split; [|reflexivity]; auto with deepcopy|]). apply List.Forall_nil.
Qed.

(** C19: for every API type, [DeepCopyInto], [DeepCopy] and [DeepCopyObject]
    return on every value of the type, nil references included, a copy with
    the same contents whose locations are all new: nothing written through the
    copy shows in the original, and nothing written through the original shows
    in the copy. *)
Theorem deep_copies_isolate :
  Forall (λ '(_, T, into, dc), isolates T into ∧ isolates (TPtr T) dc) api_types ∧
  Forall (λ '(T, dco), isolates (TPtr T) dco) api_objects.
Proof.
  split.
  - eapply List.Forall_impl; [|exact all_copies]. intros [[[n T] into] dc] [Hc ->].
    split; apply copies_isolates; [done|by apply copies_DeepCopy].
  - eapply List.Forall_impl; [|exact all_objects_copy]. intros [T dco] (into & Hc & ->).
    by apply copies_isolates, copies_DeepCopyObject.
Qed.
End isolation.

(** ** Examples *)

(** A reading of the external types: plain ones are data, the others hold a
    pointer. *)
#[local] Instance ex_external : External := {
  ext n := if bool_decide (n ∈ plain_types) then TData else TPtr TData;
  ext_copy n := if bool_decide (n ∈ plain_types) then assign else copy_ptr assign
}.
#[local] Instance ex_external_laws : ExternalLaws.
Proof.
  split; intros n; cbn; [|by intros ?; case_bool_decide].
  case_bool_decide; [by apply copies_assign|by apply copies_ptr, copies_assign].
Qed.

Lemma deep_copies_isolate_witness :
  Forall (λ '(_, T, into, dc), isolates T into ∧ isolates (TPtr T) dc) (api_types (H := ex_external)) ∧
  Forall (λ '(T, dco), isolates (TPtr T) dco) (api_objects (H := ex_external)).
Proof. exact (deep_copies_isolate (H := ex_external) (H0 := ex_external_laws)). Defined.

(** A status with one condition: [conditions] is a slice cell. *)
Definition ex_heap : heap := {[ 1%positive := CSlice [VRef (Some 2%positive)]; 2%positive := CPtr (VData "Ready") ]}.
Definition ex_status : val := VField "Conditions" (VRef (Some 1%positive)) VEnd.
Definition ex_status_tree : tree := TrField "Conditions" (TrSlice [TrPtr (TrData "Ready")]) TrEnd.

Lemma ex_status_reads : reads ex_heap Status_t ex_status ex_status_tree [1%positive; 2%positive].
Proof.
  exists (VRef (Some 1%positive)), VEnd, (TrSlice [TrPtr (TrData "Ready")]), TrEnd, [1%positive; 2%positive], [].
  split_and!; try done. right. exists 1%positive, [VRef (Some 2%positive)], [TrPtr (TrData "Ready")], [[2%positive]].
  split_and!; try done. constructor; [|constructor]. right.
  exists 2%positive, (VData "Ready"), (TrData "Ready"), []. split_and!; try done. by exists "Ready".
Qed.

(** What reading that tree says about the two cells. *)
Lemma ex_status_cells h L :
  reads h Status_t ex_status ex_status_tree L →
  ∃ l, h !! 1%positive = Some (CSlice [VRef (Some l)]) ∧ h !! l = Some (CPtr (VData "Ready")) ∧ l ∈ L.
Proof.
  intros (v1 & v2 & t1 & t2 & L1 & L2 & Ev & Et & -> & H1 & _). injection Ev as <- <-. injection Et as <- <-.
  destruct H1 as [(? & _)|(l & vs & ts & Ls & El & Hl & _ & Hall & Ets & ->)]; [done|].
  injection El as <-. injection Ets as <-.
  inversion Hall as [|v t L vs' ts' Ls' Hv Hnil]; subst. inversion Hnil; subst.
  destruct Hv as [(? & ? & _)|(l & v' & t' & L' & -> & Hl' & (d & -> & -> & ->) & E & ->)]; [done|].
  injection E as <-. exists l. split_and!; [done|done|]. by right; left.
Qed.

(** The assignment [*out = *in] alone does not isolate: setting a condition in
    place through such a copy would change the original, and the comparison
    of the two statuses that decides whether to persist would see no change. *)
Theorem shallow_copy_is_shared : ¬ isolates Status_t assign.
Proof.
  intros Hi. destruct (Hi _ _ _ _ ex_status_reads) as (h & v & L & E & _ & Hv & Hw & _).
  injection E as <- <-. destruct (ex_status_cells _ _ Hv) as (l & H1 & Hl & HL).
  cbv in H1. injection H1 as <-.
  destruct (ex_status_cells (<[2%positive := CPtr (VData "Failed")]> ex_heap) [1%positive; 2%positive])
    as (l & H1 & H2 & _).
  - apply Hw. intros l Hne. rewrite lookup_insert_ne; [done|]. by intros <-.
  - cbv in H1. injection H1 as <-. by rewrite lookup_insert_eq in H2.
Qed.

End DeepCopies.
