(* ===== verification/Volumes.v ===== *)
(** * Shared utilities ([pkg/shared/util/volume.go], [string.go], [env.go])

    Volumes for the secrets and config maps an object refers to, found by
    walking the object with [reflect]; name clean-up; environment look-ups.
    An object is the tree of values [reflect] shows; the order a map is
    visited in is the order of its list. *)
From S2P Require Import Prelude GoStrings.
#[local] Open Scope string_scope.
#[local] Open Scope list_scope.

Module Volumes.
Import GoStrings.
#[local] Unset Default Proof Using.

(** ** Selectors and values *)
Record KeySelector : Set := mkSelector { sel_Name : string; sel_Key : string }.
#[export] Instance KeySelector_eq_dec : EqDecision KeySelector.
Proof. solve_decision. Defined.
(** [*SecretKeySelector] and [*ConfigMapKeySelector]. *)
Inductive SelectorType : Set := SecretKey | ConfigMapKey.
#[export] Instance SelectorType_eq_dec : EqDecision SelectorType.
Proof. solve_decision. Defined.

(** A value: a non-nil pointer to a selector, another pointer or interface
    (perhaps nil), a struct with its fields and whether they are exported, a
    slice, a map, or a value without parts. *)
Inductive value : Set :=
  | VSelector (t : SelectorType) (s : KeySelector)
  | VElem (v : option value)
  | VStruct (fields : list (bool * value))
  | VSlice (l : list value)
  | VMap (l : list value)
  | VLeaf.

Fixpoint findTypesRecursive (t : SelectorType) (obj : value) : list KeySelector :=
  match obj with
  | VSelector t' s => if bool_decide (t' = t) then [s] else []
  | VElem None => []
  | VElem (Some v) => findTypesRecursive t v
  | VStruct fields =>
      (fix go (l : list (bool * value)) : list KeySelector :=
         match l with
         | [] => []
         | (exported, v) :: l' => (if exported then findTypesRecursive t v else []) ++ go l'
         end) fields
  | VSlice l | VMap l =>
      (fix go (l : list value) : list KeySelector :=
         match l with [] => [] | v :: l' => findTypesRecursive t v ++ go l' end) l
  | VLeaf => []
  end.
Definition findTypeValues (obj : value) (t : SelectorType) : list KeySelector := findTypesRecursive t obj.

(** Where a selector can be reached through exported fields. *)
Inductive refers (t : SelectorType) (s : KeySelector) : value → Prop :=
  | ref_here : refers t s (VSelector t s)
  | ref_elem v : refers t s v → refers t s (VElem (Some v))
  | ref_field v l : (true, v) ∈ l → refers t s v → refers t s (VStruct l)
  | ref_slice v l : v ∈ l → refers t s v → refers t s (VSlice l)
  | ref_map v l : v ∈ l → refers t s v → refers t s (VMap l).

Lemma find_refers t s obj : refers t s obj → s ∈ findTypeValues obj t.
Proof.
  unfold findTypeValues. induction 1 as [|v _ IH|v l Hin _ IH|v l Hin _ IH|v l Hin _ IH]; cbn.
  - rewrite bool_decide_true by done. set_solver.
  - done.
  - induction l as [|[b x] l IHl]; [set_solver|]. apply elem_of_app.
    apply elem_of_cons in Hin as [[= <- <-]|Hin]; [by left|right; by apply IHl].
  - induction l as [|x l IHl]; [set_solver|]. apply elem_of_app.
    apply elem_of_cons in Hin as [<-|Hin]; [by left|right; by apply IHl].
  - induction l as [|x l IHl]; [set_solver|]. apply elem_of_app.
    apply elem_of_cons in Hin as [<-|Hin]; [by left|right; by apply IHl].
Qed.

(** ** Volumes *)
Inductive Source : Set := SecretSource (secretName : string) | ConfigMapSource (name : string).
Record Volume : Set := mkVolume { vol_Name : string; vol_Source : Source }.
Record VolumeMount : Set := mkMount { mnt_Name : string; mnt_ReadOnly : bool; mnt_Path : string }.

(** [strings.ReplaceAll(s, "_", "-")] *)
Fixpoint dashes (s : string) : string :=
  match s with
  | EmptyString => EmptyString
  | String c s' => String (if Ascii.eqb c "_" then "-" else c)%char (dashes s')
  end.

Definition generateSecretVolumeSpecs (s : KeySelector) : Volume * VolumeMount :=
  let volName := dashes ("secret-" +:+ sel_Name s) in
  (mkVolume volName (SecretSource (sel_Name s)), mkMount volName true ("/var/kyno/secrets/" +:+ sel_Name s)).
Definition generateConfigMapVolumeSpecs (s : KeySelector) : Volume * VolumeMount :=
  let volName := dashes ("cm-" +:+ sel_Name s) in
  (mkVolume volName (ConfigMapSource (sel_Name s)), mkMount volName true ("/var/kyno/config/" +:+ sel_Name s)).

(** [uniqueVolumes] and [uniqueVolumeMounts]: the first of each name. *)
Fixpoint unique {A} (name : A → string) (keys : gset string) (l : list A) : list A :=
  match l with
  | [] => []
  | x :: l' => if bool_decide (name x ∈ keys) then unique name keys l'
               else x :: unique name ({[name x]} ∪ keys) l'
  end.
Definition uniqueVolumes : list Volume → list Volume := unique vol_Name ∅.
Definition uniqueVolumeMounts : list VolumeMount → list VolumeMount := unique mnt_Name ∅.

Definition specs_of (t : SelectorType) : KeySelector → Volume * VolumeMount :=
  match t with SecretKey => generateSecretVolumeSpecs | ConfigMapKey => generateConfigMapVolumeSpecs end.
Definition volumesFromSecretsOrConfigMaps (obj : value) (t : SelectorType)
    : list Volume * list VolumeMount :=
  let specs := map (specs_of t) (findTypeValues obj t) in
  (uniqueVolumes (map fst specs), uniqueVolumeMounts (map snd specs)).
Definition VolumesFromSecretsAndConfigMaps (obj : value) : list Volume * list VolumeMount :=
  let '(vs, ms) := volumesFromSecretsOrConfigMaps obj SecretKey in
  let '(vc, mc) := volumesFromSecretsOrConfigMaps obj ConfigMapKey in
  (vs ++ vc, ms ++ mc).

(** The file a selector names. *)
Definition GetSecretVolumePath (s : option KeySelector) : result string string :=
  match s with
  | None => Err "secret key selector is nil"
  | Some s => Ok ("/var/kyno/secrets/" +:+ sel_Name s +:+ "/" +:+ sel_Key s)
  end.
Definition GetConfigMapVolumePath (s : option KeySelector) : result string string :=
  match s with
  | None => Err "configmap key selector is nil"
  | Some s => Ok ("/var/kyno/config/" +:+ sel_Name s +:+ "/" +:+ sel_Key s)
  end.
Definition newline : string := String (Ascii.ascii_of_nat 10) "".
Definition GetSecretFromVolume (ReadFile : string → result string string) (s : option KeySelector)
    : result string string :=
  result_bind (GetSecretVolumePath s) (λ p, result_bind (ReadFile p) (λ d, Ok (TrimSuffix d newline))).
Definition GetConfigMapFromVolume (ReadFile : string → result string string) (s : option KeySelector)
    : result string string :=
  result_bind (GetConfigMapVolumePath s) (λ p, result_bind (ReadFile p) (λ d, Ok (TrimSuffix d newline))).

(** ** Every selector is mounted *)
Lemma unique_spec {A} (name : A → string) keys (l : list A) :
  NoDup (map name (unique name keys l)) ∧
  (∀ n, n ∈ map name (unique name keys l) ↔ n ∈ map name l ∧ n ∉ keys) ∧
  (∀ x, x ∈ unique name keys l → x ∈ l).
Proof.
  revert keys. induction l as [|x l IH]; intros keys; cbn.
  { split_and!; [constructor|set_solver|done]. }
  case_bool_decide as Hk.
  - destruct (IH keys) as (H1 & H2 & H3). split_and!; [done| |set_solver].
    intros n. rewrite H2. set_solver.
  - destruct (IH ({[name x]} ∪ keys)) as (H1 & H2 & H3). cbn. split_and!.
    + constructor; [rewrite H2; set_solver|done].
    + intros n. rewrite !elem_of_cons, H2. destruct (decide (n = name x)); set_solver.
    + set_solver.
Qed.

Lemma dashes_id s : has_byte "_" s = false → dashes s = s.
Proof.
  induction s as [|c s IH]; [done|]. cbn. destruct (Ascii.eqb_spec c "_"); cbn; [|by intros H%IH; rewrite H].
  subst. done.
Qed.
Lemma dashes_app a b : dashes (a +:+ b) = dashes a +:+ dashes b.
Proof.
  induction a as [|c a IH]; [done|].
  change (String c a +:+ b) with (String c (a +:+ b)). cbn [dashes].
  change (String ?x ?y +:+ dashes b) with (String x (y +:+ dashes b)). by rewrite IH.
Qed.

(** Every secret and config map an object refers to is mounted where
    it is read.  For each selector that can be reached in the object, if no
    name of a referenced object contains an underscore, there is a volume
    with that secret (config map) and a mount of it, read-only, such that
    the file under the mount named by the key is the file
    [GetSecretFromVolume] ([GetConfigMapFromVolume]) opens; and no two
    volumes and no two mounts have one name. *)
Theorem selectors_are_mounted obj t s :
  refers t s obj →
  (∀ s', s' ∈ findTypeValues obj t → has_byte "_" (sel_Name s') = false) →
  let '(vols, mounts) := volumesFromSecretsOrConfigMaps obj t in
  NoDup (map vol_Name vols) ∧ NoDup (map mnt_Name mounts) ∧
  ∃ v m, v ∈ vols ∧ m ∈ mounts ∧ mnt_Name m = vol_Name v ∧ mnt_ReadOnly m = true ∧
    vol_Source v = match t with SecretKey => SecretSource (sel_Name s) | ConfigMapKey => ConfigMapSource (sel_Name s) end ∧
    Ok (mnt_Path m +:+ "/" +:+ sel_Key s) =
      match t with SecretKey => GetSecretVolumePath (Some s) | ConfigMapKey => GetConfigMapVolumePath (Some s) end.
Proof.
  intros Hr%find_refers Hn. unfold volumesFromSecretsOrConfigMaps.
  set (specs := map (specs_of t) (findTypeValues obj t)).
  destruct (unique_spec vol_Name ∅ (map fst specs)) as (V1 & V2 & V3).
  destruct (unique_spec mnt_Name ∅ (map snd specs)) as (M1 & M2 & M3).
  split_and!; [done|done|].
  assert (∀ s', s' ∈ findTypeValues obj t → vol_Name (specs_of t s').1 = vol_Name (specs_of t s).1 →
                sel_Name s' = sel_Name s) as Hinj.
  { intros s' Hs'. pose proof (Hn _ Hs') as E1. pose proof (Hn _ Hr) as E2.
    destruct t; cbn [specs_of generateSecretVolumeSpecs generateConfigMapVolumeSpecs fst vol_Name];
      rewrite !dashes_app, !(dashes_id (sel_Name _)) by done; apply (inj (String.app _)). }
  assert (vol_Name (specs_of t s).1 ∈ map vol_Name (unique vol_Name ∅ (map fst specs))) as Hv.
  { apply V2. split; [|set_solver]. unfold specs. rewrite !map_map.
    by apply (list_elem_of_fmap_2 (λ x, vol_Name (specs_of t x).1)). }
  assert (mnt_Name (specs_of t s).2 ∈ map mnt_Name (unique mnt_Name ∅ (map snd specs))) as Hm.
  { apply M2. split; [|set_solver]. unfold specs. rewrite !map_map.
    by apply (list_elem_of_fmap_2 (λ x, mnt_Name (specs_of t x).2)). }
  apply list_elem_of_fmap in Hv as (v & Ev & Hv). apply list_elem_of_fmap in Hm as (m & Em & Hm).
  pose proof (V3 _ Hv) as Hv'. pose proof (M3 _ Hm) as Hm'. unfold specs in Hv', Hm'.
  rewrite map_map in Hv', Hm'.
  apply list_elem_of_fmap in Hv' as (sv & -> & Hsv). apply list_elem_of_fmap in Hm' as (sm & -> & Hsm).
  exists (specs_of t sv).1, (specs_of t sm).2. split; [exact Hv|]. split; [exact Hm|].
  assert (sel_Name sv = sel_Name s) as E1 by (by apply Hinj).
  assert (sel_Name sm = sel_Name s) as E2 by (apply Hinj; [done|by destruct t]).
  destruct t; cbn; rewrite E1, E2, ?string_app_assoc; by split_and!.
Qed.

(** Names that differ only by an underscore collide: one mount is dropped. *)
Example underscore_names_collide :
  let obj := VStruct [(true, VSelector SecretKey (mkSelector "a_b" "k"));
                      (true, VSelector SecretKey (mkSelector "a-b" "k"))] in
  map mnt_Path (VolumesFromSecretsAndConfigMaps obj).2 = ["/var/kyno/secrets/a_b"].
Proof. reflexivity. Qed.

Definition ex_object : value :=
  VElem (Some (VStruct [(true, VSlice [VLeaf; VSelector SecretKey (mkSelector "db" "pw")]);
                        (false, VSelector SecretKey (mkSelector "hidden" "k"));
                        (true, VMap [VSelector ConfigMapKey (mkSelector "cfg" "x")])])).
Lemma selectors_are_mounted_witness :
  ∃ m, m ∈ (volumesFromSecretsOrConfigMaps ex_object SecretKey).2 ∧
       mnt_Path m +:+ "/" +:+ "pw" = "/var/kyno/secrets/db/pw".
Proof.
  destruct (selectors_are_mounted ex_object SecretKey (mkSelector "db" "pw"))
    as (_ & _ & v & m & _ & Hm & _ & _ & _ & Hp).
  - apply ref_elem. eapply ref_field; [apply list_elem_of_here|]. eapply ref_slice; [|apply ref_here].
    apply list_elem_of_further, list_elem_of_here.
  - intros s' Hs'. vm_compute in Hs'. by apply list_elem_of_singleton in Hs' as ->.
  - exists m. split; [exact Hm|]. injection Hp as Hp. exact Hp.
Defined.

(** ** Names ([string.go]) *)
Definition dns_byte (a : ascii) : bool :=
  let n := Ascii.N_of_ascii a in
  ((97 <=? n)%N && (n <=? 122)%N) || ((48 <=? n)%N && (n <=? 57)%N) || Ascii.eqb a "-".
(** [re.ReplaceAllString(s, "-")] for [[^a-z0-9-]+]; [in_run] says that the
    previous byte was replaced. *)
Fixpoint replace_runs (in_run : bool) (s : string) : string :=
  match s with
  | EmptyString => EmptyString
  | String c s' =>
      if dns_byte c then String c (replace_runs false s')
      else if in_run then replace_runs true s' else String "-" (replace_runs true s')
  end.
(** [DNS1035] of ASCII text. *)
Definition DNS1035 (str : string) : string :=
  replace_runs false (ToLower str).

(** [Hashcode]: on a 64-bit platform the checksum is never negative. *)
Definition Hashcode (ChecksumIEEE : string → Z) (str : string) : Z :=
  let i := wrap_s 64 (ChecksumIEEE str) in
  if (0 <=? i)%Z then i else if (0 <=? wrap_s 64 (- i))%Z then wrap_s 64 (- i) else 0%Z.

(** [RandomString] of the numbers drawn by [rand.Int], one per byte; [None] is
    an index out of range. *)
Definition seeds : string := "abcdefghijklmnopqrstuvwxyzABCDEFGHIJKLMNOPQRSTUVWXYZ0123456789".
Fixpoint RandomString (draws : list Z) : option string :=
  match draws with
  | [] => Some EmptyString
  | num :: draws =>
      c ← (if (num <? 0)%Z then None else String.get (Z.to_nat num) seeds);
      s ← RandomString draws;
      Some (String c s)
  end.
Definition RandomLowerCaseString (draws : list Z) : option string := ToLower <$> RandomString draws.

(** [MustHash]: SHA-256 in hexadecimal of bytes, of the bytes of a string, or
    of the JSON text of anything else. *)
Inductive hashable (V : Type) : Type := HashBytes (b : list byte) | HashString (s : string) | HashValue (v : V).
Arguments HashBytes {V}. Arguments HashString {V}. Arguments HashValue {V}.
Definition MustHash {V} (sha256_hex : list byte → string) (MustJSON : V → string) (v : hashable V) : string :=
  match v with
  | HashBytes data => sha256_hex data
  | HashString data => sha256_hex (String.list_byte_of_string data)
  | HashValue v => sha256_hex (String.list_byte_of_string (MustJSON v))
  end.

(** [K8sRestConfig]: the file named by [KUBECONFIG], else the one in the home
    directory unless it is known not to exist, else the pod's own account. *)
Inductive restSource : Set := FromKubeconfig (path : string) | InCluster.
Definition K8sRestConfig (kubeconfig home : string) (isNotExist : string → bool) : restSource :=
  let kubeconfig :=
    if String.eqb kubeconfig "" then
      let path := home +:+ "/.kube/config" in
      if isNotExist path then "" else path
    else kubeconfig in
  if String.eqb kubeconfig "" then InCluster else FromKubeconfig kubeconfig.

Lemma replace_runs_ok b s : all_bytes dns_byte (replace_runs b s) = true.
Proof.
  revert b. induction s as [|c s IH]; intros b; [done|]. cbn.
  destruct (dns_byte c) eqn:E; cbn; [by rewrite E, IH|]. destruct b; [apply IH|by cbn; rewrite IH].
Qed.
Lemma replace_runs_fix s b : all_bytes dns_byte s = true → replace_runs b s = s.
Proof.
  revert b. induction s as [|c s IH]; intros b; [done|]. cbn. intros [-> Hs]%andb_true_iff. by rewrite IH.
Qed.
Lemma lower_dns s : all_bytes dns_byte s = true → ToLower s = s.
Proof.
  induction s as [|c s IH]; [done|]. cbn. intros [Hc Hs]%andb_true_iff. rewrite IH by done. f_equal.
  by destruct c as [[] [] [] [] [] [] [] []].
Qed.

(** A cleaned name has only lower-case letters, digits and dashes; cleaning
    it again changes nothing; a hash code is never negative. *)
Theorem names_are_clean ChecksumIEEE s :
  all_bytes dns_byte (DNS1035 s) = true ∧ DNS1035 (DNS1035 s) = DNS1035 s ∧
  (0 <= Hashcode ChecksumIEEE s)%Z.
Proof.
  pose proof (replace_runs_ok false (ToLower s)) as Hok. fold (DNS1035 s) in Hok.
  split_and!; [exact Hok| |].
  - unfold DNS1035 at 1. by rewrite lower_dns, replace_runs_fix.
  - unfold Hashcode. destruct (Z.leb_spec 0 (wrap_s 64 (ChecksumIEEE s))); [done|].
    destruct (Z.leb_spec 0 (wrap_s 64 (- wrap_s 64 (ChecksumIEEE s)))); [done|lia].
Qed.

(** A random suffix has the length asked for and only bytes a DNS label may
    have, so it can end a pod's name. *)
Theorem random_suffix_is_clean (draws : list Z) :
  Forall (λ n, 0 <= n < 62)%Z draws →
  ∃ s, RandomLowerCaseString draws = Some s ∧ String.length s = length draws ∧ all_bytes dns_byte s = true.
Proof.
  unfold RandomLowerCaseString. induction 1 as [|n draws Hn _ (s & Es & Hl & Hs)]; [by exists EmptyString|].
  cbn -[String.get seeds]. destruct (Z.ltb_spec n 0); [lia|].
  assert (∃ c, String.get (Z.to_nat n) seeds = Some c ∧ dns_byte (lower_byte c) = true) as (c & -> & Hc).
  { assert (Forall (λ i, ∃ c, String.get i seeds = Some c ∧ dns_byte (lower_byte c) = true) (seq 0 62)) as Hall
      by (repeat constructor; eexists; split; reflexivity).
    rewrite Forall_forall in Hall. apply Hall. apply elem_of_seq. lia. }
  cbn. destruct (RandomString draws) as [r|]; cbn in Es; [|done]. injection Es as <-. eexists. split; [done|]. cbn.
  split; [by rewrite Hl|]. by rewrite Hc, Hs.
Qed.

(** The home directory's file is used only when it may exist. *)
Lemma rest_config_source k home ne :
  K8sRestConfig k home ne = InCluster ↔ k = "" ∧ ne (home +:+ "/.kube/config") = true.
Proof.
  unfold K8sRestConfig. destruct (String.eqb_spec k "") as [->|Hk].
  - destruct (ne _) eqn:E; [by rewrite String.eqb_refl; split|].
    destruct (String.eqb_spec (home +:+ "/.kube/config") "") as [Ee|_]; [|naive_solver].
    by destruct home.
  - destruct (String.eqb_spec k ""); [done|]. naive_solver.
Qed.

(** ** Environment ([env.go]); [None] is a panic *)
(** [LookupEnvStringOr]: an unset or empty variable gives the default. *)
Definition LookupEnvStringOr (env : gmap string string) (key defaultValue : string) : string :=
  match env !! key with
  | Some v => if String.eqb v "" then defaultValue else v
  | None => defaultValue
  end.
Definition LookupEnvIntOr (env : gmap string string) (key : string) (defaultValue : Z) : option Z :=
  match env !! key with
  | Some v => if String.eqb v "" then Some defaultValue else Atoi v
  | None => Some defaultValue
  end.
(** [strconv.ParseBool] *)
Definition ParseBool (s : string) : option bool :=
  if bool_decide (s ∈ ["1"; "t"; "T"; "TRUE"; "true"; "True"]) then Some true
  else if bool_decide (s ∈ ["0"; "f"; "F"; "FALSE"; "false"; "False"]) then Some false
  else None.
Definition LookupEnvBoolOr (env : gmap string string) (key : string) (defaultValue : bool) : option bool :=
  match env !! key with
  | Some v => if String.eqb v "" then Some defaultValue else ParseBool v
  | None => Some defaultValue
  end.

(** A look-up gives the default exactly when the variable is unset or empty,
    and panics exactly on a value it cannot read. *)
Theorem lookups_default env key d b :
  ((env !! key = None ∨ env !! key = Some "") →
   LookupEnvIntOr env key d = Some d ∧ LookupEnvBoolOr env key b = Some b) ∧
  (∀ v, env !! key = Some v → v ≠ "" →
   LookupEnvIntOr env key d = Atoi v ∧ LookupEnvBoolOr env key b = ParseBool v).
Proof.
  unfold LookupEnvIntOr, LookupEnvBoolOr. split.
  - by intros [-> | ->].
  - intros v -> Hv. by destruct (String.eqb_spec v "").
Qed.
End Volumes.
