(* ===== verification/Budgets.v ===== *)
(** * Pod termination: budgets and the preStop drain
    ([pkg/broker/cmd/budgets.go], [pkg/broker/cmd/drain.go])

    [deriveBudgets] splits the pod's grace period into the propagation wait,
    the drain window and the post-SIGTERM shutdown.  [Drain] polls the
    broker's in-flight gauge; what each poll returns and whether the budget
    or the ticker fires first is the environment's choice, given as a list of
    rounds.  A round carries the sum that [sumInflight] returns; the parser
    itself and [RunDrain] are in [MetricsText]. *)
From S2P Require Import Prelude Float64.
#[local] Open Scope Z_scope.

Module Budgets.

Record terminationBudgets : Set := mkBudgets {
  Propagation : Duration;
  Drain_ : Duration;
  Shutdown : Duration
}.

Definition clampDuration (v lo hi : Duration) : Duration :=
  if v <? lo then lo else if hi <? v then hi else v.

Definition margin : Duration := 2 * second.

Definition deriveBudgets (grace : Duration) : terminationBudgets :=
  let propagation := clampDuration (Z.quot grace 20) (2 * second) (10 * second) in
  let shutdown := clampDuration (Z.quot grace 10) (5 * second) (15 * second) in
  let drain := int64 (int64 (grace - shutdown) - margin) in
  let drain := if drain <? propagation then propagation else drain in
  mkBudgets propagation drain shutdown.

Definition DefaultTerminationGracePeriodSeconds : Z := 120.

(** [raw] is the value of the grace-seconds environment variable. *)
Definition resolveBudgets (raw : string) : terminationBudgets :=
  let grace := DefaultTerminationGracePeriodSeconds * second in
  let grace :=
    if bool_decide (raw = "") then grace
    else match ParseInt raw with
         | Some secs => if 0 <? secs then int64 (secs * second) else grace
         | None => grace
         end in
  deriveBudgets grace.

(** ** The drain loop *)
Record round : Set := mkRound {
  scraped : option float64;   (* [scrapeInflight]: the sum, or an error *)
  ctxErr : bool;              (* the budget had elapsed when the scrape failed *)
  ticked : bool               (* the ticker fired before the budget elapsed *)
}.

(** [None]: still waiting after all the given rounds. *)
Fixpoint drainLoop (rs : list round) : option bool :=
  match rs with
  | [] => None
  | r :: rs' =>
      match scraped r with
      | None => Some (negb (ctxErr r))
      | Some inflight =>
          if fle inflight fzero then Some true
          else if ticked r then drainLoop rs' else Some false
      end
  end.

(** [sleepCtx]: [fired] says the timer beat the cancellation. *)
Definition sleepCtx (d : Duration) (fired : bool) : bool :=
  if d <=? 0 then true else fired.

Definition Drain (propagation : Duration) (fired : bool) (rs : list round) : option bool :=
  if sleepCtx propagation fired then drainLoop rs else Some false.

(** For every grace period of at least nine seconds the two phases
    and the safety margin fill the grace period exactly, and the drain window
    contains the propagation wait; below nine seconds they cannot fit. *)
Theorem budgets_fit grace :
  in_s 64 grace → 0 < grace →
  let b := deriveBudgets grace in
  Propagation b <= Drain_ b ∧
  (9 * second <= grace → Drain_ b + Shutdown b + margin = grace) ∧
  (grace < 9 * second → grace < Drain_ b + Shutdown b + margin).
Proof.
  intros Hr Hg. unfold deriveBudgets, margin, clampDuration. cbn [Propagation Drain_ Shutdown].
  unfold in_s in Hr. cbn in Hr. unfold second in *.
  rewrite !Z.quot_div_nonneg by lia.
  set (p := if grace / 20 <? _ then _ else _). set (s := if grace / 10 <? _ then _ else _).
  assert (2000000000 <= p <= 10000000000 ∧ (p <= grace / 20 ∨ p = 2000000000)) as Hp.
  { subst p. repeat case_match; zbool; lia. }
  assert (5000000000 <= s <= 15000000000 ∧ (s <= grace / 10 ∨ s = 5000000000)) as Hs.
  { subst s. repeat case_match; zbool; lia. }
  clearbody p s.
  rewrite (wrap_s_small 64 (grace - s)) by in_range. rewrite wrap_s_small by in_range.
  pose proof (Z.mul_div_le grace 20 ltac:(lia)). pose proof (Z.mul_div_le grace 10 ltac:(lia)).
  case_match; zbool; lia.
Qed.

Lemma budgets_fit_witness :
  Drain_ (deriveBudgets (120 * second)) + Shutdown (deriveBudgets (120 * second)) + margin
    = 120 * second.
Proof.
  apply (budgets_fit (120 * second)); [unfold second; in_range|unfold second; lia|unfold second; lia].
Defined.

(** The drain reports success exactly when, after rounds that all saw
    requests in flight and were ended by the ticker, a scrape either reads a
    non-positive gauge or fails before the budget has elapsed; requests still
    in flight at the end of the budget are never reported as drained. *)
Theorem drain_success_iff propagation fired rs :
  Drain propagation fired rs = Some true ↔
  sleepCtx propagation fired = true ∧
  ∃ ws r rest, rs = ws ++ r :: rest ∧
    Forall (λ w, ∃ v, scraped w = Some v ∧ fle v fzero = false ∧ ticked w = true) ws ∧
    match scraped r with
    | None => ctxErr r = false
    | Some v => fle v fzero = true
    end.
Proof.
  unfold Drain. destruct (sleepCtx propagation fired); [|split; [done|by intros [? _]]].
  assert (drainLoop rs = Some true ↔ ∃ ws r rest, rs = ws ++ r :: rest ∧
    Forall (λ w, ∃ v, scraped w = Some v ∧ fle v fzero = false ∧ ticked w = true) ws ∧
    match scraped r with None => ctxErr r = false | Some v => fle v fzero = true end) as E;
    [|rewrite E; split; [done|by intros [_ ?]]].
  induction rs as [|r rs IH]; cbn [drainLoop].
  { split; [done|]. intros (ws & r & rest & H & _). by destruct ws. }
  split.
  - intros H. destruct (scraped r) as [v|] eqn:Er.
    + destruct (fle v fzero) eqn:Ev.
      { exists [], r, rs. split; [done|]. split; [constructor|]. by rewrite Er. }
      destruct (ticked r) eqn:Et; [|done]. apply IH in H as (ws & r' & rest & -> & HF & HC).
      exists (r :: ws), r', rest. split; [done|]. split; [|done]. constructor; [|done]. eauto.
    + exists [], r, rs. split; [done|]. split; [constructor|]. rewrite Er.
      by destruct (ctxErr r).
  - intros (ws & r' & rest & E & HF & HC). destruct ws as [|w ws]; simplify_eq/=.
    + destruct (scraped r') as [v|]; [by rewrite HC|by rewrite HC].
    + apply Forall_cons in HF as [(v & H1 & H2 & H3) HF']. rewrite H1, H2, H3. apply IH. eauto 10.
Qed.

End Budgets.
