(* ===== verification/Samples.v ===== *)
(** * Load samples ([pkg/reconciler/agentdeploy/scaling/history/sample.go]
    and [buffer.go])

    One [Sample] is an observation of a replica set.  [Sanitize] selects the
    samples the estimator may learn from; [buffer] is the in-memory window of
    records bounded by age and count. *)
From S2P Require Import Prelude Float64.
#[local] Open Scope Z_scope.

Module Samples.

Record Sample : Set := mkSample {
  Timestamp : Time;
  Replicas : Z;
  InflightPerRep : float64;
  RatePerRep : float64
}.

#[export] Instance Sample_eq_dec : EqDecision Sample.
Proof. solve_decision. Defined.

Definition warmupAfterScale : Duration := 60 * second.

Definition valid (s : Sample) : bool :=
  (0 <? Replicas s) && flt fzero (InflightPerRep s) && flt fzero (RatePerRep s) &&
  negb (isNaN (InflightPerRep s)) && negb (isNaN (RatePerRep s)).

Definition before (a b : Sample) : bool := Timestamp a <? Timestamp b.

(** [dedupByTimestamp]; [out] is the output slice, newest element first. *)
Fixpoint dedup_loop (out l : list Sample) : list Sample :=
  match l with
  | [] => rev out
  | s :: l' =>
      match out with
      | p :: out' =>
          if Timestamp s =? Timestamp p then dedup_loop (s :: out') l'
          else dedup_loop (s :: out) l'
      | [] => dedup_loop [s] l'
      end
  end.
Definition dedupByTimestamp (sorted : list Sample) : list Sample := dedup_loop [] sorted.

(** The loop of [Sanitize]: [first] is [i == 0]. *)
Fixpoint sanitize_loop (first : bool) (lastChange : Time) (prevReplicas : Z)
    (l : list Sample) : list Sample :=
  match l with
  | [] => []
  | s :: l' =>
      let lastChange :=
        if negb first && negb (Replicas s =? prevReplicas) then Timestamp s else lastChange in
      let rest := sanitize_loop false lastChange (Replicas s) l' in
      if negb (valid s) then rest
      else if negb (is_zero lastChange) &&
              (time_sub (Timestamp s) lastChange <? warmupAfterScale) then rest
      else s :: rest
  end.

Definition Sanitize `{GoSort} (history : list Sample) : list Sample :=
  match history with
  | [] => []
  | _ =>
      let sorted := dedupByTimestamp (sort_slice before history) in
      match sorted with
      | [] => []
      | s0 :: _ => sanitize_loop true zero_time (Replicas s0) sorted
      end
  end.

(** ** Records and the buffer *)
Record record : Set := mkRecord { sample : Sample; count : Z }.

Record buffer : Set := mkBuffer {
  records : list record;
  maxAge : Duration;
  maxRecords : Z
}.

Definition defaultMaxAge : Duration := 7 * 24 * hour.
Definition defaultMaxRecords : Z := 12000.
Definition newBuffer : buffer := mkBuffer [] defaultMaxAge defaultMaxRecords.

Definition rts (r : record) : Time := Timestamp (sample r).

(** [evictLocked]: drop what is older than [maxAge], then the oldest beyond
    [maxRecords].  The slice [b.records[over:]] panics when [over] exceeds the
    length, that is for a negative [maxRecords], which no caller outside the
    tests sets ([newBuffer] takes [defaultMaxRecords]); the model keeps to
    non-negative bounds, as the theorem on its window does. *)
Definition evictLocked (b : buffer) (now : Time) : buffer :=
  let cutoff := now - maxAge b in
  let rs := drop_while (λ r, rts r <? cutoff) (records b) in
  let over := Z.of_nat (length rs) - maxRecords b in
  let rs := if 0 <? over then drop (Z.to_nat over) rs else rs in
  mkBuffer rs (maxAge b) (maxRecords b).

Definition add (b : buffer) (s : Sample) : buffer :=
  evictLocked (mkBuffer (records b ++ [mkRecord s 1]) (maxAge b) (maxRecords b)) (Timestamp s).

Definition reset (b : buffer) : buffer := mkBuffer [] (maxAge b) (maxRecords b).

Definition samples (b : buffer) (now : Time) : buffer * list Sample :=
  let b' := evictLocked b now in (b', map sample (records b')).

Definition snapshot (b : buffer) : list record := records b.
Definition load (b : buffer) (rs : list record) : buffer :=
  mkBuffer rs (maxAge b) (maxRecords b).

(** ** Sanitize: order and membership *)

Definition ts_lt (a b : Sample) : Prop := Timestamp a < Timestamp b.
Definition ts_le (a b : Sample) : Prop := Timestamp a <= Timestamp b.

Lemma before_strict_weak : strict_weak before.
Proof.
  unfold strict_weak, before. split; [|split]; intros.
  - apply Z.ltb_irrefl.
  - zbool. apply Z.ltb_lt. lia.
  - zbool. apply Z.ltb_ge. lia.
Qed.

Lemma sort_before_sorted `{GoSort} l : StronglySorted ts_le (sort_slice before l).
Proof.
  pose proof (sort_slice_sorted before l before_strict_weak) as H0.
  induction H0 as [|x l' _ IH HF]; constructor; [done|].
  eapply Forall_impl; [exact HF|]. intros y Hy. unfold before in Hy. unfold ts_le. zbool. lia.
Qed.

Lemma dedup_loop_sorted out l :
  StronglySorted ts_lt (rev out) → StronglySorted ts_le l →
  Forall (λ p, Forall (ts_le p) l) out →
  StronglySorted ts_lt (dedup_loop out l).
Proof.
  revert out. induction l as [|s l IH]; intros out Ho Hl Hb; cbn [dedup_loop]; [done|].
  inversion Hl as [|? ? Hl' HF]; subst.
  destruct out as [|p out'].
  { apply IH; [repeat constructor|done|]. by constructor. }
  inversion Hb as [|? ? Hp Ho']; subst. inversion Hp as [|? ? Hps _]; subst.
  cbn [rev] in Ho. pose proof (StronglySorted_app_1_l _ _ _ Ho) as Hr.
  assert (Forall (λ y, ts_lt y p) (rev out')) as Hlt.
  { apply Forall_forall. intros y Hy.
    apply (StronglySorted_app_1_elem_of _ _ _ _ _ Ho Hy). set_solver. }
  destruct (Timestamp s =? Timestamp p) eqn:E; zbool.
  - apply IH; [| done |].
    + cbn. apply StronglySorted_snoc; [done|].
      eapply Forall_impl; [exact Hlt|]. unfold ts_lt. intros; lia.
    + constructor; [done|]. eapply Forall_impl; [exact Ho'|].
      intros x Hx. by inversion Hx.
  - apply IH; [| done |].
    + change (rev (s :: p :: out')) with (rev (p :: out') ++ [s]). cbn [rev].
      apply StronglySorted_snoc; [done|]. apply Forall_app.
      unfold ts_le, ts_lt in *. split; [|apply Forall_singleton; lia].
      eapply Forall_impl; [exact Hlt|]. cbn. intros; lia.
    + constructor; [done|]. constructor; [by inversion Hp|]. eapply Forall_impl; [exact Ho'|].
      intros x Hx. by inversion Hx.
Qed.

Lemma dedup_loop_elem out l x : x ∈ dedup_loop out l → x ∈ out ∨ x ∈ l.
Proof.
  revert out. induction l as [|s l IH]; intros out; cbn [dedup_loop].
  { intros H. left. by apply elem_of_rev. }
  destruct out as [|p out']; [|case_match]; intros Hx%IH; set_solver.
Qed.

(** Instants at which a scan of [l] sees the replica count change. *)
Fixpoint changes (prev : Z) (l : list Sample) : list Time :=
  match l with
  | [] => []
  | s :: l' =>
      (if Replicas s =? prev then [] else [Timestamp s]) ++ changes (Replicas s) l'
  end.
Definition change_times (l : list Sample) : list Time :=
  match l with [] => [] | s :: _ => changes (Replicas s) l end.

(** A sample taken at [t] is past the warm-up of the change at [c]. *)
Definition settled (t c : Time) : Prop := c <= t → warmupAfterScale <= t - c.

Lemma changes_in prev l c : c ∈ changes prev l → ∃ s, s ∈ l ∧ Timestamp s = c.
Proof.
  revert prev. induction l as [|s l IH]; intros prev; cbn [changes]; [set_solver|].
  rewrite elem_of_app. case_match; intros [H0|H0]; try set_solver;
    try (destruct (IH _ H0) as (s' & ? & ?); exists s'; set_solver).
Qed.

(** A reading at [t] is past the warm-up of the last change [lc], if any. *)
Definition warm (lc t : Time) : Prop := lc = zero_time ∨ warmupAfterScale <= t - lc.

Lemma warm_test lc t :
  negb (is_zero lc) && (time_sub t lc <? warmupAfterScale) = false ↔ warm lc t.
Proof.
  unfold is_zero, warm. destruct (Z.eqb_spec lc zero_time) as [Hz|Hz]; cbn [negb andb]; [tauto|].
  rewrite Z.ltb_ge, <- Z.nlt_ge, time_sub_lt, Z.nlt_ge; [tauto|].
  unfold min_duration, max_duration, warmupAfterScale, second. lia.
Qed.

(** The last change after reading [s]. *)
Definition change_at (lc : Time) (prev : Z) (s : Sample) : Time :=
  if Replicas s =? prev then lc else Timestamp s.

Lemma warm_change lc prev s t :
  Timestamp s ≠ zero_time → lc = zero_time ∨ lc <= Timestamp s → Timestamp s <= t →
  warm (change_at lc prev s) t ↔
  warm lc t ∧ Forall (settled t) (if Replicas s =? prev then [] else [Timestamp s]).
Proof.
  intros Hz Hlc Ht. unfold change_at, warm. case_match; rewrite ?Forall_nil, ?Forall_singleton; [tauto|].
  unfold settled. split; [|intros [_ ?]; right; lia].
  intros [?|?]; [done|]. split; [|done]. destruct Hlc; [by left|right; lia].
Qed.

(** Changes after a reading do not concern it. *)
Lemma settled_later prev s l :
  Forall (ts_lt s) l → Forall (settled (Timestamp s)) (changes prev l).
Proof.
  intros HF. apply Forall_forall. intros c (y & Hy & <-)%changes_in.
  eapply Forall_forall in HF; [|exact Hy]. unfold settled, ts_lt in *. lia.
Qed.

Lemma sanitize_loop_spec lc prev l x :
  StronglySorted ts_lt l → Forall (λ s, Timestamp s ≠ zero_time) l →
  (lc = zero_time ∨ Forall (λ s, lc <= Timestamp s) l) →
  x ∈ sanitize_loop false lc prev l ↔
  x ∈ l ∧ valid x = true ∧ warm lc (Timestamp x) ∧
  Forall (settled (Timestamp x)) (changes prev l).
Proof.
  intros Hs. revert lc prev. induction Hs as [|s l Hs IH HF]; intros lc prev Hz Hlc;
    cbn [sanitize_loop changes]; [set_solver|].
  apply Forall_cons in Hz as [Hzs Hzl].
  assert ((if negb false && negb (Replicas s =? prev) then Timestamp s else lc) = change_at lc prev s)
    as -> by (unfold change_at; by destruct (Replicas s =? prev)).
  assert (lc = zero_time ∨ lc <= Timestamp s) as Hls
    by (destruct Hlc as [?|Hlc]; [by left|right; by inversion Hlc]).
  assert (∀ y, y ∈ l → Timestamp s <= Timestamp y) as Hle.
  { intros y Hy. eapply Forall_forall in HF; [|exact Hy]. unfold ts_lt in HF. lia. }
  assert (change_at lc prev s = zero_time ∨ Forall (λ s', change_at lc prev s <= Timestamp s') l) as Hlc'.
  { unfold change_at. case_match; [destruct Hlc as [?|Hlc]; [by left|right; by inversion Hlc]|].
    right. by apply Forall_forall. }
  rewrite Forall_app, elem_of_cons.
  assert (∀ b : bool, b = false ↔ warm (change_at lc prev s) (Timestamp s) →
    x ∈ (if negb (valid s) then sanitize_loop false (change_at lc prev s) (Replicas s) l
         else if b then sanitize_loop false (change_at lc prev s) (Replicas s) l
         else s :: sanitize_loop false (change_at lc prev s) (Replicas s) l) ↔
    x ∈ sanitize_loop false (change_at lc prev s) (Replicas s) l ∨
    (x = s ∧ valid s = true ∧ warm (change_at lc prev s) (Timestamp s))) as Hcons.
  { intros b Hb. destruct (valid s); cbn [negb]; [|naive_solver].
    destruct b; [|rewrite elem_of_cons]; naive_solver. }
  rewrite (Hcons _ (warm_test _ _)), (IH _ (Replicas s) Hzl Hlc'). split.
  - intros [(Hx & Hv & Hw & Hc)|(-> & Hv & Hw)].
    + apply warm_change in Hw as [? ?]; [|by auto..]. tauto.
    + apply warm_change in Hw as [? ?]; [|done|done|lia]. pose proof (settled_later (Replicas s) s l HF).
      tauto.
  - intros ([->|Hx] & Hv & Hw & Hc1 & Hc2); [right|left]; do 2 (split; [done|]).
    + by apply warm_change.
    + split; [|done]. apply warm_change; auto.
Qed.

(** The first iteration never sees a change. *)
Lemma sanitize_loop_first lc s l :
  sanitize_loop true lc (Replicas s) (s :: l) = sanitize_loop false lc (Replicas s) (s :: l).
Proof. cbn [sanitize_loop]. by rewrite Z.eqb_refl. Qed.

Section SanitizeFacts.
Context `{GoSort}.

Definition cleaned (h : list Sample) : list Sample := dedupByTimestamp (sort_slice before h).

Lemma cleaned_sorted h : StronglySorted ts_lt (cleaned h).
Proof. apply dedup_loop_sorted; [constructor|apply sort_before_sorted|constructor]. Qed.

Lemma cleaned_sub h x : x ∈ cleaned h → x ∈ h.
Proof.
intros Hx. apply dedup_loop_elem in Hx as [Hx|Hx]; [set_solver|].
by rewrite sort_slice_perm in Hx.
Qed.

Lemma Sanitize_unfold h :
Sanitize h = match cleaned h with
             | [] => []
             | s0 :: l => sanitize_loop false zero_time (Replicas s0) (s0 :: l)
             end.
Proof.
unfold Sanitize. destruct h as [|s h].
- destruct (cleaned []) as [|x l] eqn:E; [done|].
  assert (x ∈ @nil Sample) as Hx; [|by apply not_elem_of_nil in Hx].
  apply cleaned_sub. rewrite E. by left.
- fold (cleaned (s :: h)). destruct (cleaned (s :: h)) as [|x l]; [done|].
  apply sanitize_loop_first.
Qed.

Lemma sanitize_loop_sublist first lc prev l : sanitize_loop first lc prev l `sublist_of` l.
Proof.
revert first lc prev. induction l as [|s l IH]; intros; cbn [sanitize_loop]; [constructor|].
repeat case_match; try (apply sublist_cons, IH); apply sublist_skip, IH.
Qed.

Lemma Sanitize_sorted h : StronglySorted ts_lt (Sanitize h).
Proof.
rewrite Sanitize_unfold. pose proof (cleaned_sorted h) as HS.
destruct (cleaned h) as [|s l]; [constructor|].
eapply StronglySorted_sublist; [apply sanitize_loop_sublist|done].
Qed.

Lemma Sanitize_sub h x : x ∈ Sanitize h → x ∈ h.
Proof.
rewrite Sanitize_unfold. intros Hx. apply cleaned_sub.
destruct (cleaned h) as [|s l]; [set_solver|].
eapply sublist_elem_of; [apply sanitize_loop_sublist|exact Hx].
Qed.

End SanitizeFacts.

(** [Sanitize] keeps exactly the usable, settled readings.  Over the
    time-sorted history with one reading per instant, a sample is returned if
    and only if it is valid and every replica-count change seen up to its
    instant lies at least the 60-second warm-up in the past; the result is
    strictly increasing in time and made of samples of the history. *)
Theorem Sanitize_exact `{GoSort} (h : list Sample) :
  Forall (λ s, Timestamp s ≠ zero_time) h →
  StronglySorted ts_lt (Sanitize h) ∧
  (∀ x, x ∈ Sanitize h → x ∈ h) ∧
  ∀ x, x ∈ Sanitize h ↔
    x ∈ cleaned h ∧ valid x = true ∧
    Forall (settled (Timestamp x)) (change_times (cleaned h)).
Proof.
  intros Hz. split; [apply Sanitize_sorted|]. split; [apply Sanitize_sub|]. intros x.
  rewrite Sanitize_unfold. pose proof (cleaned_sorted h) as HS.
  assert (Forall (λ s, Timestamp s ≠ zero_time) (cleaned h)) as Hz'.
  { apply Forall_forall. intros y Hy%cleaned_sub. by eapply Forall_forall in Hz. }
  destruct (cleaned h) as [|s l]; [set_solver|].
  rewrite sanitize_loop_spec by (done || by left). cbn [change_times].
  split; [tauto|]. intros (?&?&?). split_and!; try done. by left.
Qed.

Definition ex_history : list Sample :=
  [mkSample (45 * second) 2 fone fone; mkSample 0 2 fone fone;
   mkSample (50 * second) 3 fone fone; mkSample (120 * second) 3 fone fone].

Lemma Sanitize_exact_witness :
  mkSample (120 * second) 3 fone fone ∈ Sanitize ex_history ∧
  mkSample (50 * second) 3 fone fone ∉ Sanitize ex_history.
Proof.
  destruct (Sanitize_exact ex_history) as (_ & _ & H).
  { repeat constructor; vm_compute; congruence. }
  split; rewrite H.
  - split; [vm_compute; set_solver|]. split; [reflexivity|].
    replace (change_times (cleaned ex_history)) with [50 * second] by reflexivity.
    apply Forall_singleton. intros _. vm_compute. discriminate.
  - intros (_ & _ & HF).
    replace (change_times (cleaned ex_history)) with [50 * second] in HF by reflexivity.
    apply Forall_cons in HF as [HF _]. unfold settled, warmupAfterScale, second in HF. cbn [Timestamp] in HF. specialize (HF (Z.le_refl _)). lia.
Defined.

(** ** The buffer as a window over everything recorded *)

Definition older (cutoff : Time) (r : record) : bool := rts r <? cutoff.

Lemma evict_window b now :
  0 <= maxRecords b →
  records (evictLocked b now) =
    last_n (Z.to_nat (maxRecords b)) (drop_while (older (now - maxAge b)) (records b)).
Proof.
  intros Hm. unfold evictLocked. cbn [records]. fold (older (now - maxAge b)).
  set (rs := drop_while _ _). unfold last_n. case_match; zbool.
  - f_equal. lia.
  - by replace (length rs - _)%nat with 0%nat by lia.
Qed.

Definition rle (a b : record) : Prop := rts a <= rts b.

Lemma older_down_closed c rs : StronglySorted rle rs → down_closed (older c) rs.
Proof.
  unfold down_closed. induction 1 as [|r rs HS IH HF]; constructor; [done|].
  eapply Forall_impl; [exact HF|]. unfold rle, older. cbn. intros r' ? ?. zbool.
  apply Z.ltb_lt. lia.
Qed.

Definition addAll (b : buffer) (ss : list Sample) : buffer := fold_left add ss b.
Definition as_record (s : Sample) : record := mkRecord s 1.

Lemma sorted_records ss : StronglySorted ts_le ss → StronglySorted rle (map as_record ss).
Proof.
  induction 1 as [|s ss HS IH HF]; cbn [map]; constructor; [done|].
  apply Forall_map. eapply Forall_impl; [exact HF|]. done.
Qed.

Lemma addAll_bounds age M ss :
  maxAge (addAll (mkBuffer [] age M) ss) = age ∧ maxRecords (addAll (mkBuffer [] age M) ss) = M.
Proof.
  induction ss as [|s ss IH] using rev_ind; [done|].
  unfold addAll in *. rewrite fold_left_app. exact IH.
Qed.

(** The buffer after recording [ss ++ [s]]. *)
Lemma addAll_window age M ss s :
  0 <= M → StronglySorted ts_le (ss ++ [s]) →
  records (addAll (mkBuffer [] age M) (ss ++ [s])) =
    last_n (Z.to_nat M) (drop_while (older (Timestamp s - age)) (map as_record (ss ++ [s]))).
Proof.
  intros HM. revert s. induction ss as [|s' ss IH] using rev_ind; intros s HS.
  - cbn [app]. unfold addAll. cbn [fold_left]. unfold add. rewrite evict_window by done. done.
  - unfold addAll. rewrite fold_left_app. cbn [fold_left]. fold (addAll (mkBuffer [] age M) (ss ++ [s'])).
    destruct (addAll_bounds age M (ss ++ [s'])) as [Ha Hm].
    unfold add. rewrite evict_window by (cbn; lia). cbn [records maxAge maxRecords].
    rewrite Ha, Hm, IH by (by eapply StronglySorted_app_1_l).
    rewrite (map_app as_record (ss ++ [s']) [s]). apply window_snoc.
    + unfold older. intros r ?. zbool. apply Z.ltb_lt.
      assert (ts_le s' s) as Hle.
      { eapply (StronglySorted_app_1_elem_of _ _ _ _ _ HS); set_solver. }
      unfold ts_le in Hle. lia.
    + apply older_down_closed.
      pose proof (sorted_records _ HS) as HR. by rewrite map_app in HR.
Qed.

Lemma map_sample_record ss : map sample (map as_record ss) = ss.
Proof. induction ss; cbn; congruence. Qed.

Lemma map_last_n {A B} (f : A → B) n l : map f (last_n n l) = last_n n (map f l).
Proof. unfold last_n. by rewrite length_map, skipn_map. Qed.

Lemma drop_while_map {A B} (f : A → B) (p : B → bool) l :
  map f (drop_while (λ x, p (f x)) l) = drop_while p (map f l).
Proof. induction l as [|x l IH]; cbn; [done|]. by destruct (p (f x)). Qed.

(** C32: the buffer implements its abstract contract.  Recording samples
    in non-decreasing time order into a buffer bounded by age [age] and count
    [M], and then reading it at a time [now] no earlier than the last sample,
    returns exactly the newest [M] of the recorded samples that are at most
    [age] old, in order; nothing else is lost by the evictions on the way. *)
Theorem buffer_is_window age M ss now :
  0 <= M → StronglySorted ts_le ss → Forall (λ s, Timestamp s <= now) ss →
  (samples (addAll (mkBuffer [] age M) ss) now).2 =
    last_n (Z.to_nat M) (filter (λ s, now - age <= Timestamp s) ss).
Proof.
  intros HM HS Hnow. cbn [samples snd].
  destruct (addAll_bounds age M ss) as [Ha Hm].
  rewrite evict_window by lia. rewrite Ha, Hm.
  assert (last_n (Z.to_nat M) (drop_while (older (now - age)) (records (addAll (mkBuffer [] age M) ss)))
          = last_n (Z.to_nat M) (drop_while (older (now - age)) (map as_record ss))) as ->.
  { destruct ss as [|s ss _] using rev_ind; [done|].
    rewrite addAll_window by done.
    pose proof (older_down_closed (now - age) _ (sorted_records _ HS)) as HD.
    rewrite (drop_while_drop (older (Timestamp s - age))), last_n_drop.
    set (L := map as_record (ss ++ [s])) in *.
    set (j := (lead _ L `max` _)%nat).
    assert (j <= length L)%nat by (subst j; pose proof (lead_le (older (Timestamp s - age)) L); lia).
    rewrite !drop_while_drop, drop_drop, !last_n_drop.
    destruct (lead_drop (older (now - age)) L j HD) as [->|?]; [|lia]. subst j. f_equal.
    assert (lead (older (Timestamp s - age)) L <= lead (older (now - age)) (L ++ []))%nat as Hl.
    { apply lead_mono. intros r. unfold older. intros ?. zbool. apply Z.ltb_lt.
      apply Forall_app in Hnow as [_ Hn]. rewrite Forall_singleton in Hn. lia. }
    rewrite app_nil_r in Hl. lia. }
  rewrite map_last_n. f_equal.
  unfold older, rts. rewrite (drop_while_map sample (λ s, Timestamp s <? now - age)).
  rewrite map_sample_record, down_closed_filter.
  - apply list_filter_iff. intros x. rewrite Z.ltb_ge. done.
  - unfold down_closed. clear -HS. induction HS as [|s ss HS IH HF]; constructor; [done|].
    eapply Forall_impl; [exact HF|]. unfold ts_le. cbn. intros s' ? ?. zbool. apply Z.ltb_lt. lia.
Qed.

Lemma buffer_is_window_witness :
  (samples (addAll (mkBuffer [] (10 * second) 2)
     [mkSample 0 1 fone fone; mkSample (8 * second) 1 fone fone;
      mkSample (11 * second) 2 fone fone; mkSample (12 * second) 2 fone fone])
     (13 * second)).2
  = [mkSample (11 * second) 2 fone fone; mkSample (12 * second) 2 fone fone].
Proof.
  rewrite (buffer_is_window (10 * second) 2); [vm_compute; reflexivity|lia| |];
    split_list; unfold ts_le, second; cbn; lia.
Defined.

End Samples.
