(* ===== verification/Codec.v ===== *)
(** * History blob codec ([scaling/history/codec.go])

    Layout: version(1) | specHashLen(2) | specHash(N) | recordCount(4) |
    records, big-endian.  A read past the end of the slice panics, which the
    decoder's model makes visible as [None]. *)
From S2P Require Import Prelude Float64 Samples.
#[local] Open Scope Z_scope.

Module Codec.
Import Samples.

Definition codecVersion : byte := x02.
Definition recordSize : Z := 8 + 4 + 8 + 8 + 2.
Definition versionSize : Z := 1.
Definition hashLenSize : Z := 2.
Definition countSize : Z := 4.

(** [binary.BigEndian.PutUintN] and [UintN], [n] bytes wide. *)
Fixpoint be_bytes (n : nat) (z : Z) : list byte :=
  match n with
  | O => []
  | S k => byte_of_Z (z / 256 ^ Z.of_nat k) :: be_bytes k z
  end.
Definition be_value (l : list byte) : Z :=
  fold_left (λ acc b, acc * 256 + Z_of_byte b) l 0.

Definition encode_record (r : record) : list byte :=
  be_bytes 8 (uint64 (int64 (Timestamp (sample r)))) ++
  be_bytes 4 (uint32 (Replicas (sample r))) ++
  be_bytes 8 (Float64bits (InflightPerRep (sample r))) ++
  be_bytes 8 (Float64bits (RatePerRep (sample r))) ++
  be_bytes 2 (count r).

Definition encodeHistory (specHash : string) (rs : list record) : list byte :=
  [codecVersion] ++
  be_bytes 2 (uint16 (Z.of_nat (String.length specHash))) ++
  String.list_byte_of_string specHash ++
  be_bytes 4 (uint32 (Z.of_nat (length rs))) ++
  concat (map encode_record rs).

Inductive DecodeError : Set :=
  | UnknownVersion (v : byte)
  | TooShort (len : Z)
  | TruncatedHeader
  | LengthMismatch (len want n : Z).

(** Reading [n] bytes at [off]: [None] is an out-of-range panic. *)
Definition read_be (n off : nat) (b : list byte) : option Z :=
  if (off + n <=? length b)%nat then Some (be_value (take n (drop off b))) else None.

Fixpoint read_records (n off : nat) (b : list byte) : option (list record) :=
  match n with
  | O => Some []
  | S k =>
      ts ← read_be 8 off b;
      replicas ← read_be 4 (off + 8) b;
      inflight ← read_be 8 (off + 12) b;
      rate ← read_be 8 (off + 20) b;
      cnt ← read_be 2 (off + 28) b;
      rest ← read_records k (off + 30) b;
      Some (mkRecord (mkSample (int64 ts) (int32 replicas)
                        (Float64frombits inflight) (Float64frombits rate)) cnt :: rest)
  end.

Definition decodeHistory (b : list byte)
    : option (result DecodeError (string * list record)) :=
  let len := Z.of_nat (length b) in
  match b with
  | [] => Some (Ok (""%string, []))
  | v :: _ =>
      if negb (bool_decide (v = codecVersion)) then Some (Err (UnknownVersion v))
      else if len <? versionSize + hashLenSize then Some (Err (TooShort len))
      else
        hashLen ← read_be 2 1 b;
        if len <? 3 + hashLen + countSize then Some (Err TruncatedHeader)
        else
          let specHash := String.string_of_list_byte (take (Z.to_nat hashLen) (drop 3 b)) in
          let off := (3 + Z.to_nat hashLen)%nat in
          n ← read_be 4 off b;
          let off := (off + 4)%nat in
          let want := Z.of_nat off + n * recordSize in
          if negb (len =? want) then Some (Err (LengthMismatch len want n))
          else
            out ← read_records (Z.to_nat n) off b;
            Some (Ok (specHash, out))
  end.

(** ** Big-endian integers *)

Lemma length_be_bytes n z : length (be_bytes n z) = n.
Proof. induction n; cbn; congruence. Qed.

Lemma be_value_acc l acc :
  fold_left (λ acc b, acc * 256 + Z_of_byte b) l acc
    = acc * 256 ^ Z.of_nat (length l) + be_value l.
Proof.
  unfold be_value. revert acc. induction l as [|b l IH]; intros acc; cbn [fold_left length]; [lia|].
  rewrite IH, (IH (0 * 256 + _)), Nat2Z.inj_succ, Z.pow_succ_r by lia. ring.
Qed.

Lemma be_value_bytes n z : be_value (be_bytes n z) = z mod 256 ^ Z.of_nat n.
Proof.
  induction n as [|n IH]; [cbn; by rewrite Z.mod_1_r|].
  cbn [be_bytes]. unfold be_value. cbn [fold_left]. rewrite be_value_acc, length_be_bytes, IH.
  rewrite Z.mul_0_l, Z.add_0_l, Z_of_byte_of_Z, Nat2Z.inj_succ, Z.pow_succ_r by lia.
  assert (0 < 256 ^ Z.of_nat n) by (apply Z.pow_pos_nonneg; lia).
  rewrite (Z.mul_comm 256), Z.rem_mul_r by lia. ring.
Qed.

Lemma be_value_bytes_small n z :
  0 <= z < 256 ^ Z.of_nat n → be_value (be_bytes n z) = z.
Proof. intros H. rewrite be_value_bytes. by apply Z.mod_small. Qed.

Lemma be_value_range l : 0 <= be_value l < 256 ^ Z.of_nat (length l).
Proof.
  induction l as [|b l IH]; [cbn; lia|].
  unfold be_value. cbn [fold_left length]. rewrite be_value_acc.
  pose proof (Z_of_byte_range b). rewrite Nat2Z.inj_succ, Z.pow_succ_r by lia.
  assert (0 < 256 ^ Z.of_nat (length l)) by (apply Z.pow_pos_nonneg; lia). nia.
Qed.

(** Reading back a field of a concatenation. *)
Lemma read_be_at n pre mid post :
  length mid = n → read_be n (length pre) (pre ++ mid ++ post) = Some (be_value mid).
Proof.
  intros Hn. unfold read_be. rewrite !length_app.
  assert ((length pre + n <=? length pre + (length mid + length post))%nat = true) as ->
    by (apply Nat.leb_le; lia).
  rewrite drop_app_length, <- Hn, take_app_length. done.
Qed.

Lemma read_be_seg n off b pre mid post :
  off = length pre → length mid = n → b = pre ++ mid ++ post →
  read_be n off b = Some (be_value mid).
Proof. intros -> Hn ->. by apply read_be_at. Qed.

(** [read_seg off pre mid]: the field read at [off] is [mid], which follows [pre]. *)
Ltac read_seg off pre mid :=
  erewrite (read_be_seg _ off _ pre mid);
  [cbn [mbind option_bind]
  | rewrite ?length_app; cbn [length]; lia | assumption | rewrite <- ?app_assoc; reflexivity].

Lemma read_be_total n off b : (off + n <= length b)%nat → is_Some (read_be n off b).
Proof. intros H. unfold read_be. apply Nat.leb_le in H. rewrite H. eauto. Qed.

(** ** Records *)

(** A record whose fields fit the Go types that carry them. *)
Definition record_wf (r : record) : Prop :=
  in_s 64 (Timestamp (sample r)) ∧ in_s 32 (Replicas (sample r)) ∧
  fvalid (InflightPerRep (sample r)) = true ∧ fvalid (RatePerRep (sample r)) = true ∧
  in_u 16 (count r).

Lemma length_encode_record r : length (encode_record r) = 30%nat.
Proof. unfold encode_record. by rewrite !length_app, !length_be_bytes. Qed.

Lemma length_records rs : length (concat (map encode_record rs)) = (30 * length rs)%nat.
Proof.
  induction rs as [|r rs IH]; [done|]. cbn [map concat length].
  rewrite length_app, length_encode_record, IH. lia.
Qed.

Lemma read_records_encode rs pre :
  Forall record_wf rs →
  read_records (length rs) (length pre) (pre ++ concat (map encode_record rs)) = Some rs.
Proof.
  intros HF. revert pre. induction HF as [|r rs (H1&H2&H3&H4&H5) HF IH]; intros pre; [done|].
  cbn [length read_records map concat].
  pose proof (wrap_u_in 64 (int64 (Timestamp (sample r))) ltac:(lia)) as Hu1.
  pose proof (wrap_u_in 32 (Replicas (sample r)) ltac:(lia)) as Hu2.
  pose proof (Float64bits_range _ H3) as Hu3. pose proof (Float64bits_range _ H4) as Hu4.
  set (tl := concat _). unfold encode_record. rewrite <- !app_assoc.
  set (f1 := be_bytes 8 (uint64 _)). set (f2 := be_bytes 4 _).
  set (f3 := be_bytes 8 (Float64bits (InflightPerRep _))).
  set (f4 := be_bytes 8 (Float64bits (RatePerRep _))). set (f5 := be_bytes 2 _).
  pose proof (length_be_bytes 8 _ : length f1 = _).
  pose proof (length_be_bytes 4 _ : length f2 = _).
  pose proof (length_be_bytes 8 _ : length f3 = _).
  pose proof (length_be_bytes 8 _ : length f4 = _).
  pose proof (length_be_bytes 2 _ : length f5 = _).
  read_seg (length pre) pre f1.
  read_seg (length pre + 8)%nat (pre ++ f1) f2.
  read_seg (length pre + 12)%nat (pre ++ f1 ++ f2) f3.
  read_seg (length pre + 20)%nat (pre ++ f1 ++ f2 ++ f3) f4.
  read_seg (length pre + 28)%nat (pre ++ f1 ++ f2 ++ f3 ++ f4) f5.
  specialize (IH (pre ++ f1 ++ f2 ++ f3 ++ f4 ++ f5)).
  rewrite !length_app in IH. subst f1 f2 f3 f4 f5. rewrite !length_be_bytes in IH.
  rewrite <- !app_assoc in IH. cbn [Nat.add] in IH. fold tl in IH. rewrite IH.
  cbn [mbind option_bind].
  rewrite !be_value_bytes_small by (assumption || in_range).
  rewrite wrap_s_u by (done || apply wrap_s_in; done). rewrite wrap_s_small by done.
  rewrite wrap_s_u by done. rewrite !frombits_bits by done.
  by destruct r as [[] ?].
Qed.

(** The encoder's input fits the widths of its length fields. *)
Definition blob_wf (specHash : string) (rs : list record) : Prop :=
  Z.of_nat (String.length specHash) < 2 ^ 16 ∧ Z.of_nat (length rs) < 2 ^ 32 ∧
  Forall record_wf rs.

Lemma length_encodeHistory h rs :
  length (encodeHistory h rs) = (7 + String.length h + 30 * length rs)%nat.
Proof.
  unfold encodeHistory. rewrite !length_app, !length_be_bytes, length_list_byte, length_records.
  cbn [length]. lia.
Qed.

(** What the decoder reads from a blob that starts like an encoding of [h]
    and a record count. *)
Lemma decode_header h m tl :
  Z.of_nat (String.length h) < 2 ^ 16 → 0 <= m < 2 ^ 32 →
  let off := (7 + String.length h)%nat in
  let b := [codecVersion] ++ be_bytes 2 (Z.of_nat (String.length h)) ++
           String.list_byte_of_string h ++ be_bytes 4 m ++ tl in
  decodeHistory b =
    let want := Z.of_nat off + m * recordSize in
    if negb (Z.of_nat (length b) =? want)
    then Some (Err (LengthMismatch (Z.of_nat (length b)) want m))
    else out ← read_records (Z.to_nat m) off b; Some (Ok (h, out)).
Proof.
  intros Hh Hm off b.
  set (f1 := be_bytes 2 (Z.of_nat (String.length h))) in *.
  set (f2 := String.list_byte_of_string h) in *. set (f3 := be_bytes 4 m) in *.
  pose proof (length_be_bytes 2 _ : length f1 = _).
  pose proof (length_be_bytes 4 _ : length f3 = _).
  pose proof (length_list_byte h : length f2 = _).
  assert (Z.of_nat (length b) = Z.of_nat off + Z.of_nat (length tl)) as Hlen.
  { subst b off. rewrite !length_app. cbn [length]. lia. }
  unfold decodeHistory. change b with (codecVersion :: f1 ++ f2 ++ f3 ++ tl) at 1.
  cbv beta iota. rewrite bool_decide_true by done. cbn [negb].
  unfold versionSize, hashLenSize, countSize. rewrite Hlen.
  rewrite (proj2 (Z.ltb_ge _ _)) by lia.
  read_seg 1%nat [codecVersion] f1. subst f1. rewrite be_value_bytes_small by (cbn in *; lia).
  rewrite Nat2Z.id, (proj2 (Z.ltb_ge _ _)) by lia.
  set (f1 := be_bytes 2 _) in *.
  read_seg (3 + String.length h)%nat ([codecVersion] ++ f1 ++ f2) f3.
  subst f3. rewrite be_value_bytes_small by (cbn in *; lia). set (f3 := be_bytes 4 m) in *.
  replace (take (String.length h) (drop 3 b)) with f2; [subst f2|].
  { rewrite String.string_of_list_byte_of_string.
    replace (3 + String.length h + 4)%nat with off by (subst off; lia). done. }
  change b with ([codecVersion] ++ f1 ++ f2 ++ f3 ++ tl).
  rewrite (app_assoc [codecVersion]), drop_app_length' by (rewrite length_app; cbn [length]; lia).
  by rewrite take_app_length'.
Qed.

Lemma encodeHistory_shape h rs :
  blob_wf h rs →
  encodeHistory h rs = [codecVersion] ++ be_bytes 2 (Z.of_nat (String.length h)) ++
    String.list_byte_of_string h ++ be_bytes 4 (Z.of_nat (length rs)) ++
    concat (map encode_record rs).
Proof.
  intros (Hh & Hn & _). unfold encodeHistory. by rewrite !wrap_u_small by (split; lia).
Qed.

Lemma decode_of_encode h rs :
  blob_wf h rs → decodeHistory (encodeHistory h rs) = Some (Ok (h, rs)).
Proof.
  intros Hwf. pose proof (length_encodeHistory h rs) as HL. revert HL.
  rewrite (encodeHistory_shape _ _ Hwf). destruct Hwf as (Hh & Hn & HF).
  rewrite decode_header by lia. intros ->. unfold recordSize.
  rewrite (proj2 (Z.eqb_eq _ _)) by lia. cbn [negb]. rewrite Nat2Z.id.
  rewrite !app_assoc. set (pre := (((_ ++ _) ++ _) ++ be_bytes 4 _)).
  replace (7 + String.length h)%nat with (length pre).
  { by rewrite read_records_encode. }
  subst pre. rewrite !length_app, !length_be_bytes, length_list_byte. cbn [length]. lia.
Qed.

Lemma read_records_total n off b :
  (off + 30 * n <= length b)%nat → is_Some (read_records n off b).
Proof.
  revert off. induction n as [|n IH]; intros off H; cbn [read_records]; [eauto|].
  destruct (read_be_total 8 off b) as [? ->]; [lia|].
  destruct (read_be_total 4 (off + 8) b) as [? ->]; [lia|].
  destruct (read_be_total 8 (off + 12) b) as [? ->]; [lia|].
  destruct (read_be_total 8 (off + 20) b) as [? ->]; [lia|].
  destruct (read_be_total 2 (off + 28) b) as [? ->]; [lia|].
  destruct (IH (off + 30)%nat) as [? ->]; [lia|]. cbn. eauto.
Qed.

Lemma read_be_range n off b v :
  read_be n off b = Some v → 0 <= v < 256 ^ Z.of_nat n ∧ (off + n <= length b)%nat.
Proof.
  unfold read_be. case_match eqn:E; [|done]. intros [= <-]. apply Nat.leb_le in E.
  split; [|done]. pose proof (be_value_range (take n (drop off b))) as HR.
  rewrite length_take, length_drop, Nat.min_l in HR by lia. done.
Qed.

Lemma decode_total b : is_Some (decodeHistory b).
Proof.
  unfold decodeHistory, versionSize, hashLenSize, countSize, recordSize.
  destruct b as [|v b']; [eauto|]. set (b := v :: b').
  case_match; [eauto|]. case_match eqn:E1; [eauto|]. zbool.
  destruct (read_be_total 2 1 b) as [hl Hhl]; [lia|]. rewrite Hhl. cbn [mbind option_bind].
  apply read_be_range in Hhl as [Hhl _].
  case_match eqn:E2; [eauto|]. zbool.
  destruct (read_be_total 4 (3 + Z.to_nat hl) b) as [n Hn]; [lia|]. rewrite Hn.
  cbn [mbind option_bind]. apply read_be_range in Hn as [Hn _].
  case_match eqn:E3; [eauto|]. zbool.
  destruct (read_records_total (Z.to_nat n) (3 + Z.to_nat hl + 4) b) as [out Hout]; [lia|].
  rewrite Hout. cbn. eauto.
Qed.

(** A successful decode of a non-empty blob fixes the blob's length. *)
Lemma decode_ok_length b h rs :
  b ≠ [] → decodeHistory b = Some (Ok (h, rs)) →
  ∃ hl n, read_be 2 1 b = Some hl ∧ read_be 4 (3 + Z.to_nat hl) b = Some n ∧
    Z.of_nat (length b) = 7 + hl + 30 * n.
Proof.
  unfold decodeHistory, versionSize, hashLenSize, countSize, recordSize.
  destruct b as [|v b']; [done|]. set (b := v :: b'). intros _ H.
  case_match; [done|]. case_match; [done|].
  destruct (read_be 2 1 b) as [hl|] eqn:Hhl; [|done]. cbn [mbind option_bind] in H.
  case_match; [done|].
  destruct (read_be 4 _ b) as [n|] eqn:Hn; [|done]. cbn [mbind option_bind] in H.
  case_match; [done|]. exists hl, n. split_and!; [done..|]. zbool.
  apply read_be_range in Hhl. lia.
Qed.

Lemma read_be_prefix n off b c v :
  read_be n off b = Some v → read_be n off (b ++ c) = Some v.
Proof.
  intros H. pose proof (read_be_range _ _ _ _ H) as [_ Hl]. unfold read_be in *.
  rewrite length_app. apply Nat.leb_le in Hl. rewrite Hl in H. apply Nat.leb_le in Hl.
  rewrite (proj2 (Nat.leb_le _ _)) by lia. rewrite drop_app_le by lia.
  rewrite take_app_le by (rewrite length_drop; lia). done.
Qed.

(** Of the extensions of a non-empty blob that decodes, only the blob
    itself decodes. *)
Lemma decode_unextendable b c h rs h' rs' :
  b ≠ [] → decodeHistory b = Some (Ok (h, rs)) →
  decodeHistory (b ++ c) = Some (Ok (h', rs')) → c = [].
Proof.
  intros Hb H1 H2.
  destruct (decode_ok_length _ _ _ Hb H1) as (hl & n & Hhl & Hn & HL).
  destruct (decode_ok_length (b ++ c) h' rs') as (hl' & n' & Hhl' & Hn' & HL');
    [by destruct b|done|].
  apply (read_be_prefix _ _ _ c) in Hhl. rewrite Hhl in Hhl'. simplify_eq.
  apply (read_be_prefix _ _ _ c) in Hn. rewrite Hn in Hn'. simplify_eq.
  rewrite length_app in HL'. destruct c; [done|]. cbn [length] in HL'. lia.
Qed.

Lemma read_records_wf n off b rs :
  read_records n off b = Some rs → length rs = n ∧ Forall record_wf rs.
Proof.
  revert off rs. induction n as [|n IH]; intros off rs; cbn [read_records];
    [intros [= <-]; by split|].
  destruct (read_be 8 off b) as [ts|]; [|done].
  destruct (read_be 4 (off + 8) b) as [k|]; [|done].
  destruct (read_be 8 (off + 12) b) as [x|] eqn:Ex; [|done].
  destruct (read_be 8 (off + 20) b) as [y|] eqn:Ey; [|done].
  destruct (read_be 2 (off + 28) b) as [c|] eqn:Ec; [|done].
  destruct (read_records n (off + 30) b) as [rest|] eqn:Er; [|done].
  intros [= <-]. destruct (IH _ _ Er) as [<- HF]. split; [done|]. constructor; [|done].
  apply read_be_range in Ex as [Ex _]. apply read_be_range in Ey as [Ey _].
  apply read_be_range in Ec as [Ec _].
  split_and!; cbn; try (apply wrap_s_in; done); try (apply frombits_valid; done). done.
Qed.

(** What a successful decode returns is again something to encode, and
    accounts for every byte of the blob. *)
Lemma decode_ok_wf b h rs :
  decodeHistory b = Some (Ok (h, rs)) →
  blob_wf h rs ∧ (b ≠ [] → length b = (7 + String.length h + 30 * length rs)%nat).
Proof.
  unfold decodeHistory, versionSize, hashLenSize, countSize, recordSize.
  destruct b as [|v b']; [intros [= <- <-]; split; [split_and!; [cbn; lia..|constructor]|done]|].
  set (b := v :: b'). intros H.
  case_match; [done|]. case_match; [done|].
  destruct (read_be 2 1 b) as [hl|] eqn:Hhl; [|done]. cbn [mbind option_bind] in H.
  case_match; [done|].
  destruct (read_be 4 _ b) as [n|] eqn:Hn; [|done]. cbn [mbind option_bind] in H.
  case_match; [done|]. destruct (read_records _ _ b) as [out|] eqn:Ho; [|done]. zbool.
  cbn [mbind option_bind] in H. injection H as <- <-.
  apply read_be_range in Hhl as [Hhl _]. apply read_be_range in Hn as [Hn _].
  apply read_records_wf in Ho as [Hlen HF].
  assert (String.length (String.string_of_list_byte (take (Z.to_nat hl) (drop 3 b))) = Z.to_nat hl)
    as Hs.
  { rewrite <- length_list_byte, String.list_byte_of_string_of_list_byte, length_take, length_drop.
    lia. }
  change (drop 2 b') with (drop 3 b). unfold blob_wf. rewrite Hs, Hlen. cbn in Hhl, Hn. split; [split_and!; [lia..|done]|lia].
Qed.

(** C30: the history codec is exact.  On any bytes at all the decoder returns,
    a history or an error, and never reads past the end.  What it accepts is
    within the encoder's range (a hash shorter than 64KiB, fewer than 2^32
    records, each field a value of its Go type) and accounts for every byte
    of a non-empty blob.  And for a history in that range, of all non-empty
    blobs that are a beginning of its encoding or start with it, the encoding
    itself decodes, to exactly that hash and those records (a NaN may lose
    its payload); a truncated or extended one is an error, never a shorter
    history. *)
Theorem history_codec_exact b :
  is_Some (decodeHistory b) ∧
  (∀ h rs, decodeHistory b = Some (Ok (h, rs)) →
     blob_wf h rs ∧ (b ≠ [] → length b = (7 + String.length h + 30 * length rs)%nat)) ∧
  (∀ h rs, blob_wf h rs → b ≠ [] →
     b `prefix_of` encodeHistory h rs ∨ encodeHistory h rs `prefix_of` b →
     if decide (b = encodeHistory h rs) then decodeHistory b = Some (Ok (h, rs))
     else ∃ e, decodeHistory b = Some (Err e)).
Proof.
  split; [apply decode_total|]. split; [apply decode_ok_wf|]. intros h rs Hwf Hb Hp.
  destruct (decide _) as [->|N]; [by apply decode_of_encode|].
  destruct (decode_total b) as [[[h' rs']|e] Hd]; [|eauto]. destruct N.
  pose proof (decode_of_encode h rs Hwf) as He.
  assert (encodeHistory h rs ≠ []) as Hn by (unfold encodeHistory; done).
  destruct Hp as [[c Hc]|[c Hc]].
  - rewrite Hc in He. rewrite (decode_unextendable b c h' rs' h rs Hb Hd He) in Hc.
    by rewrite app_nil_r in Hc.
  - rewrite Hc in Hd. rewrite (decode_unextendable _ c h rs h' rs' Hn He Hd) in Hc.
    by rewrite app_nil_r in Hc.
Qed.

(** A stored history that lost its last bytes. *)
Lemma history_codec_exact_witness :
  let rs := [mkRecord (mkSample 1700000000000000000 3 fone fzero) 2] in
  ∃ e, decodeHistory (take 20 (encodeHistory "5f3c" rs)) = Some (Err e).
Proof.
  intros rs. apply (proj2 (proj2 (history_codec_exact (take 20 (encodeHistory "5f3c" rs)))) "5f3c"%string rs).
  - split_and!; [cbn; lia|cbn; lia|].
    repeat constructor; unfold record_wf, in_s, in_u; cbn; lia.
  - discriminate.
  - left. exists (drop 20 (encodeHistory "5f3c" rs)). vm_compute. reflexivity.
Defined.

End Codec.
