(* ===== verification/K8s.v ===== *)
(** * Kubernetes objects ([k8s.io/api/core/v1] and [apimachinery])

    The records the controllers read and write, with the fields the source
    names.  A value of a type the code only copies ([Affinity],
    [Toleration], ...) is kept as its serialised text.  A nil and an empty
    map, and a nil and an empty slice, are the same value: every test of the
    source is on the length. *)
From S2P Require Import Prelude.
#[local] Open Scope Z_scope.

(** Serialised text of a value the code copies without looking inside. *)
Abbreviation Opaque := string (only parsing).

Record NamespacedName : Set := mkKey { nn_namespace : string; nn_name : string }.
#[export] Instance NamespacedName_eq_dec : EqDecision NamespacedName.
Proof. solve_decision. Defined.
#[export, refine] Instance NamespacedName_countable : Countable NamespacedName :=
  inj_countable' (λ k, (nn_namespace k, nn_name k)) (λ p, mkKey p.1 p.2) _.
Proof. by intros []. Defined.

Record OwnerReference : Set := mkOwnerReference {
  or_APIVersion : string;
  or_Kind : string;
  or_Name : string;
  or_UID : string;
  or_Controller : option bool;
  or_BlockOwnerDeletion : option bool
}.
#[export] Instance OwnerReference_eq_dec : EqDecision OwnerReference.
Proof. solve_decision. Defined.

Record ObjectMeta : Set := mkObjectMeta {
  om_Namespace : string;
  om_Name : string;
  om_UID : string;
  om_ResourceVersion : string;
  om_Generation : Z;
  om_Labels : gmap string string;
  om_Annotations : gmap string string;
  om_OwnerReferences : list OwnerReference;
  om_DeletionTimestamp : option Time
}.
#[export] Instance ObjectMeta_eq_dec : EqDecision ObjectMeta.
Proof. solve_decision. Defined.

Definition om_key (m : ObjectMeta) : NamespacedName := mkKey (om_Namespace m) (om_Name m).

(** The metadata literal [ObjectMeta{Namespace, Name, Labels, Annotations,
    OwnerReferences}] of a new object. *)
Definition new_meta (ns name : string) (labels annotations : gmap string string)
    (owners : list OwnerReference) : ObjectMeta :=
  mkObjectMeta ns name "" "" 0 labels annotations owners None.

Definition with_annotation (k v : string) (m : ObjectMeta) : ObjectMeta :=
  mkObjectMeta (om_Namespace m) (om_Name m) (om_UID m) (om_ResourceVersion m) (om_Generation m)
    (om_Labels m) (<[k := v]> (om_Annotations m)) (om_OwnerReferences m) (om_DeletionTimestamp m).

(** [m[k]] of a Go map of strings: the zero value when the key is absent. *)
Definition str_at (m : gmap string string) (k : string) : string := default ""%string (m !! k).

(** [metav1.NewControllerRef(owner, gvk)] *)
Definition NewControllerRef (owner : ObjectMeta) (apiVersion kind : string) : OwnerReference :=
  mkOwnerReference apiVersion kind (om_Name owner) (om_UID owner) (Some true) (Some true).

(** ** Containers *)
Inductive EnvVarSource : Set :=
  | FieldRef (path : string)
  | OtherEnvVarSource (v : Opaque).
#[export] Instance EnvVarSource_eq_dec : EqDecision EnvVarSource.
Proof. solve_decision. Defined.
Record EnvVar : Set := mkEnvVar {
  ev_Name : string;
  ev_Value : string;
  ev_ValueFrom : option EnvVarSource
}.
#[export] Instance EnvVar_eq_dec : EqDecision EnvVar.
Proof. solve_decision. Defined.

(** The literal [EnvVar{Name, Value}]. *)
Definition env_value (n v : string) : EnvVar := mkEnvVar n v None.

Record VolumeMount : Set := mkVolumeMount {
  vm_Name : string;
  vm_MountPath : string;
  vm_rest : Opaque
}.
Record ResourceClaim : Set := mkResourceClaim { rc_Name : string; rc_Request : string }.
Abbreviation ResourceList := (gmap string Opaque) (only parsing).
Record ResourceRequirements : Set := mkResourceRequirements {
  rr_Limits : ResourceList;
  rr_Requests : ResourceList;
  rr_Claims : list ResourceClaim
}.
Definition no_resources : ResourceRequirements := mkResourceRequirements ∅ ∅ [].

Record ContainerPort : Set := mkContainerPort {
  cp_Name : string;
  cp_ContainerPort : Z;
  cp_Protocol : string;
  cp_rest : Opaque
}.

Inductive ProbeHandler : Set :=
  | ExecAction (command : list string)
  | HTTPGetAction (path port scheme : string)
  | OtherHandler (v : Opaque).
Record CoreProbe : Set := mkCoreProbe {
  pr_Handler : ProbeHandler;
  pr_InitialDelaySeconds : Z;
  pr_PeriodSeconds : Z;
  pr_TimeoutSeconds : Z;
  pr_FailureThreshold : Z;
  pr_SuccessThreshold : Z
}.
Record Lifecycle : Set := mkLifecycle { lc_PreStop : option ProbeHandler; lc_rest : Opaque }.

Record CoreContainer : Set := mkCoreContainer {
  c_Name : string;
  c_Image : string;
  c_Command : list string;
  c_Args : list string;
  c_Env : list EnvVar;
  c_EnvFrom : list Opaque;
  c_VolumeMounts : list VolumeMount;
  c_Resources : ResourceRequirements;
  c_SecurityContext : option Opaque;
  c_ImagePullPolicy : string;
  c_Ports : list ContainerPort;
  c_ReadinessProbe : option CoreProbe;
  c_LivenessProbe : option CoreProbe;
  c_StartupProbe : option CoreProbe;
  c_Lifecycle : option Lifecycle;
  c_RestartPolicy : option string;
  c_rest : Opaque
}.

Definition c_with_env (env : list EnvVar) (c : CoreContainer) : CoreContainer :=
  mkCoreContainer (c_Name c) (c_Image c) (c_Command c) (c_Args c) env (c_EnvFrom c)
    (c_VolumeMounts c) (c_Resources c) (c_SecurityContext c) (c_ImagePullPolicy c) (c_Ports c)
    (c_ReadinessProbe c) (c_LivenessProbe c) (c_StartupProbe c) (c_Lifecycle c)
    (c_RestartPolicy c) (c_rest c).
Definition c_with_mounts (vm : list VolumeMount) (c : CoreContainer) : CoreContainer :=
  mkCoreContainer (c_Name c) (c_Image c) (c_Command c) (c_Args c) (c_Env c) (c_EnvFrom c)
    vm (c_Resources c) (c_SecurityContext c) (c_ImagePullPolicy c) (c_Ports c)
    (c_ReadinessProbe c) (c_LivenessProbe c) (c_StartupProbe c) (c_Lifecycle c)
    (c_RestartPolicy c) (c_rest c).
Definition c_with_resources (r : ResourceRequirements) (c : CoreContainer) : CoreContainer :=
  mkCoreContainer (c_Name c) (c_Image c) (c_Command c) (c_Args c) (c_Env c) (c_EnvFrom c)
    (c_VolumeMounts c) r (c_SecurityContext c) (c_ImagePullPolicy c) (c_Ports c)
    (c_ReadinessProbe c) (c_LivenessProbe c) (c_StartupProbe c) (c_Lifecycle c)
    (c_RestartPolicy c) (c_rest c).

(** ** Pods *)
Inductive VolumeSource : Set :=
  | EmptyDir (medium : string)
  | OtherVolumeSource (v : Opaque).
Record Volume : Set := mkVolume { v_Name : string; v_Source : VolumeSource }.

Record PodSpec : Set := mkPodSpec {
  ps_Containers : list CoreContainer;
  ps_InitContainers : list CoreContainer;
  ps_Volumes : list Volume;
  ps_Hostname : string;
  ps_Subdomain : string;
  ps_NodeSelector : gmap string string;
  ps_Tolerations : list Opaque;
  ps_SecurityContext : option Opaque;
  ps_ImagePullSecrets : list Opaque;
  ps_PriorityClassName : string;
  ps_Priority : option Z;
  ps_Affinity : option Opaque;
  ps_ServiceAccountName : string;
  ps_RuntimeClassName : option string;
  ps_AutomountServiceAccountToken : option bool;
  ps_DNSPolicy : string;
  ps_DNSConfig : option Opaque;
  ps_ResourceClaims : list Opaque;
  ps_TerminationGracePeriodSeconds : option Z
}.

Definition ps_with_containers (cs ics : list CoreContainer) (grace : option Z) (ps : PodSpec)
    : PodSpec :=
  mkPodSpec cs ics (ps_Volumes ps) (ps_Hostname ps) (ps_Subdomain ps) (ps_NodeSelector ps)
    (ps_Tolerations ps) (ps_SecurityContext ps) (ps_ImagePullSecrets ps)
    (ps_PriorityClassName ps) (ps_Priority ps) (ps_Affinity ps) (ps_ServiceAccountName ps)
    (ps_RuntimeClassName ps) (ps_AutomountServiceAccountToken ps) (ps_DNSPolicy ps)
    (ps_DNSConfig ps) (ps_ResourceClaims ps) grace.
Definition ps_with_host (hostname subdomain : string) (ps : PodSpec) : PodSpec :=
  mkPodSpec (ps_Containers ps) (ps_InitContainers ps) (ps_Volumes ps) hostname subdomain
    (ps_NodeSelector ps)
    (ps_Tolerations ps) (ps_SecurityContext ps) (ps_ImagePullSecrets ps)
    (ps_PriorityClassName ps) (ps_Priority ps) (ps_Affinity ps) (ps_ServiceAccountName ps)
    (ps_RuntimeClassName ps) (ps_AutomountServiceAccountToken ps) (ps_DNSPolicy ps)
    (ps_DNSConfig ps) (ps_ResourceClaims ps) (ps_TerminationGracePeriodSeconds ps).

Record PodCondition : Set := mkPodCondition { pc_Type : string; pc_Status : string }.
Record Pod : Set := mkPod {
  pod_meta : ObjectMeta;
  pod_Spec : PodSpec;
  pod_Conditions : list PodCondition
}.

(** ** Services, Deployments, ConfigMaps *)
Record ServicePort : Set := mkServicePort {
  sp_Name : string;
  sp_Port : Z;
  sp_TargetPort : string;
  sp_Protocol : string
}.
Record ServiceSpec : Set := mkServiceSpec {
  svc_Type : string;
  svc_ClusterIP : string;
  svc_Selector : gmap string string;
  svc_Ports : list ServicePort;
  svc_PublishNotReadyAddresses : bool
}.
Record Service : Set := mkService { svc_meta : ObjectMeta; svc_Spec : ServiceSpec }.

Record PodTemplateSpec : Set := mkPodTemplateSpec {
  pts_Labels : gmap string string;
  pts_Annotations : gmap string string;
  pts_Spec : PodSpec
}.
Record DeploymentSpec : Set := mkDeploymentSpec {
  dep_Replicas : option Z;
  dep_Strategy : string;
  dep_Selector : gmap string string;
  dep_Template : PodTemplateSpec
}.
Record Deployment : Set := mkDeployment { dep_meta : ObjectMeta; dep_Spec : DeploymentSpec }.

Record ConfigMap : Set := mkConfigMap {
  cm_meta : ObjectMeta;
  cm_BinaryData : gmap string (list byte)
}.

Record Condition : Set := mkCondition {
  cond_Type : string;
  cond_Status : string;
  cond_Reason : string;
  cond_Message : string;
  cond_LastTransitionTime : Time;
  cond_ObservedGeneration : Z
}.
#[export] Instance Condition_eq_dec : EqDecision Condition.
Proof. solve_decision. Defined.

(** ** The API client

    One [Client] per kind of object [O], over a cluster state [W] that other
    clients may change at any call.  [objs w] is what the server holds;
    [serves] relates the object a client submitted to the one the server
    stores for it (the server fills in identity and versions). *)
Class HasMeta (O : Type) := obj_meta : O → ObjectMeta.
#[export] Instance Pod_HasMeta : HasMeta Pod := pod_meta.
#[export] Instance Service_HasMeta : HasMeta Service := svc_meta.
#[export] Instance Deployment_HasMeta : HasMeta Deployment := dep_meta.
#[export] Instance ConfigMap_HasMeta : HasMeta ConfigMap := cm_meta.

Definition key_of {O} `{HasMeta O} (o : O) : NamespacedName := om_key (obj_meta o).

Class Client (W O : Type) `{HasMeta O} := {
  objs : W → gmap NamespacedName O;
  Get : NamespacedName → W → W * result ApiError O;
  Create : O → W → W * option ApiError;
  Update : O → W → W * option ApiError;
  Delete : O → W → W * option ApiError
}.

(** What the API documents about these calls. *)
Class ClientLaws (W O : Type) `{Client W O} (serves : O → O → Prop) := {
  get_key k w w' o : Get k w = (w', Ok o) → key_of o = k;
  get_ok k w w' o : Get k w = (w', Ok o) → objs w' !! k = Some o;
  get_notfound k w w' : Get k w = (w', Err NotFound) → objs w' !! k = None;
  create_ok o w w' :
    Create o w = (w', None) → ∃ o', objs w' !! key_of o = Some o' ∧ serves o o';
  update_ok o w w' :
    Update o w = (w', None) → ∃ o', objs w' !! key_of o = Some o' ∧ serves o o'
}.

Lemma ClientLaws_weaken {W O} `{Client W O} (R R' : O → O → Prop) :
  (∀ o o', R o o' → R' o o') → ClientLaws W O R → ClientLaws W O R'.
Proof.
  intros HR [? ? ? Hc Hu]. split; try done.
  - intros o w w' (o' & ? & ?)%Hc. eauto.
  - intros o w w' (o' & ? & ?)%Hu. eauto.
Qed.

(** No other client writes objects of this kind: a read changes nothing, and
    a create that follows a read that found nothing meets no object. *)
Definition sole_writer (W O : Type) `{Client W O} : Prop :=
  (∀ k w w' r, Get k w = (w', r) → objs w' = objs w) ∧
  (∀ o w w' w'', Get (key_of o) w = (w', Err NotFound) → Create o w' ≠ (w'', Some AlreadyExists)).

(** An in-memory server that never fails: the interface can be met. *)
Section memory.
Context {O : Type} `{HasMeta O}.
Abbreviation W := (gmap NamespacedName O).

Definition well_keyed (w : W) : W := filter (λ p, key_of p.2 = p.1) w.

#[export] Instance memory_client : Client W O := {|
  objs := well_keyed;
  Get k w := (w, match well_keyed w !! k with Some o => Ok o | None => Err NotFound end);
  Create o w :=
    match well_keyed w !! key_of o with
    | Some _ => (w, Some AlreadyExists)
    | None => (<[key_of o := o]> w, None)
    end;
  Update o w :=
    match well_keyed w !! key_of o with
    | Some _ => (<[key_of o := o]> w, None)
    | None => (w, Some NotFound)
    end;
  Delete o w :=
    match well_keyed w !! key_of o with
    | Some _ => (delete (key_of o) w, None)
    | None => (w, Some NotFound)
    end
|}.

Lemma well_keyed_insert o w : well_keyed (<[key_of o := o]> w) !! key_of o = Some o.
Proof. apply map_lookup_filter_Some. split; [apply lookup_insert_eq|done]. Qed.
#[local] Hint Resolve well_keyed_insert : kyno.

#[export] Instance memory_laws : ClientLaws W O eq.
Proof.
  split; cbn; intros; case_match_all; try done; eauto with kyno.
  by match goal with Hl : _ = Some _ |- _ => apply map_lookup_filter_Some in Hl as [_ ?] end.
Qed.

Lemma memory_sole_writer : sole_writer W O.
Proof.
  split; [by intros k w w' r [= ->]|]. intros o w w' w''. cbn.
  case_match; intros ?; simplify_eq. by case_match.
Qed.
End memory.
#[export] Hint Resolve well_keyed_insert : kyno.

(** A client of one part of a larger cluster state. *)
Definition part_client {W V O : Type} `{Client V O} (part : W → V) (put : V → W → W) : Client W O :=
  {| objs w := objs (part w);
     Get k w := let '(v, r) := Get k (part w) in (put v w, r);
     Create o w := let '(v, r) := Create o (part w) in (put v w, r);
     Update o w := let '(v, r) := Update o (part w) in (put v w, r);
     Delete o w := let '(v, r) := Delete o (part w) in (put v w, r) |}.

Lemma part_laws {W V O : Type} `{Client V O} (part : W → V) (put : V → W → W) (R : O → O → Prop) :
  (∀ v w, part (put v w) = v) → ClientLaws V O R → @ClientLaws W O _ (part_client part put) R.
Proof.
  intros Hp [Hk Hg Hn Hc Hu]. split; cbn; intros.
  - destruct (Get k (part w)) eqn:E. simplify_eq. eauto.
  - destruct (Get k (part w)) eqn:E. simplify_eq. rewrite Hp. eauto.
  - destruct (Get k (part w)) eqn:E. simplify_eq. rewrite Hp. eauto.
  - destruct (Create o (part w)) eqn:E. simplify_eq. rewrite Hp. eauto.
  - destruct (Update o (part w)) eqn:E. simplify_eq. rewrite Hp. eauto.
Qed.

(** An in-memory cluster with every kind of object and a clock. *)
Record MemCluster : Type := mkCluster {
  mem_pods : gmap NamespacedName Pod;
  mem_svcs : gmap NamespacedName Service;
  mem_deps : gmap NamespacedName Deployment;
  mem_cms : gmap NamespacedName ConfigMap;
  mem_clock : Time
}.
#[export] Instance mem_pod_client : Client MemCluster Pod :=
  part_client mem_pods (λ v w, mkCluster v (mem_svcs w) (mem_deps w) (mem_cms w) (mem_clock w)).
#[export] Instance mem_svc_client : Client MemCluster Service :=
  part_client mem_svcs (λ v w, mkCluster (mem_pods w) v (mem_deps w) (mem_cms w) (mem_clock w)).
#[export] Instance mem_dep_client : Client MemCluster Deployment :=
  part_client mem_deps (λ v w, mkCluster (mem_pods w) (mem_svcs w) v (mem_cms w) (mem_clock w)).
Definition mem_now (w : MemCluster) : MemCluster * Time :=
  (mkCluster (mem_pods w) (mem_svcs w) (mem_deps w) (mem_cms w) (mem_clock w + 1), mem_clock w).
