(* ===== verification/Types.v ===== *)
(** * API types ([pkg/apis/kynomesh/v1alpha1])

    Constants ([const.go]), the AgentDeploy and AgentSet objects, and the
    small accessors defined on them. *)
From S2P Require Import Prelude K8s.
#[local] Open Scope Z_scope.
#[local] Open Scope string_scope.

(** ** Constants *)
Definition Project := "kynomesh".
Definition KeyComponent := "app.kubernetes.io/component".
Definition KeyPartOf := "app.kubernetes.io/part-of".
Definition KeyManagedBy := "app.kubernetes.io/managed-by".
Definition KeyAppName := "app.kubernetes.io/name".
Definition KeyHash := "kynomesh.kyno.sh/hash".
Definition KeyAgentSetName := "kynomesh.kyno.sh/agentset-name".
Definition KeyAgentDeployName := "kynomesh.kyno.sh/agentdeploy-name".
Definition KeyReplica := "kynomesh.kyno.sh/replica".
Definition KeyServing := "kynomesh.kyno.sh/serving".
Definition KeyEntry := "kynomesh.kyno.sh/entry".
Definition KeyServiceKind := "kynomesh.kyno.sh/service-kind".
Definition KeyDefaultContainer := "kubectl.kubernetes.io/default-container".

Definition EnvNamespace := "NAMESPACE".
Definition EnvPodName := "POD_NAME".
Definition EnvAgentSetName := "KYNOMESH_AGENTSET_NAME".
Definition EnvAgentDeployName := "KYNOMESH_AGENTDEPLOY_NAME".
Definition EnvAgentDeployObject := "KYNOMESH_AGENTDEPLOY_OBJECT".
Definition EnvAgentSetObject := "KYNOMESH_AGENTSET_OBJECT".
Definition EnvTerminationGraceSeconds := "KYNOMESH_TERMINATION_GRACE_SECONDS".

Definition ContainerNameAgent := "agent".
Definition ContainerNameAgentBroker := "broker".
Definition ContainerNameDaemon := "daemon".
Definition ContainerNameInitRuntime := "init-runtime".

Definition ComponentAgent := "agent".
Definition ComponentDaemon := "daemon".
Definition ServiceKindHeadless := "headless".
Definition ServiceKindClusterIP := "clusterip".
Definition ControllerAgentDeploy := "agentdeploy-controller".
Definition ControllerAgentSet := "agentset-controller".

Definition AgentBrokerPort : Z := 8490.
Definition AgentBrokerIntrospectionPort : Z := 8491.
Definition DefaultTerminationGracePeriodSeconds : Z := 120.
Definition DaemonAPIPort : Z := 9432.
Definition DaemonMetricsPort : Z := 9433.

Definition VolumeNameKynomeshRun := "kynomesh-run".
Definition KynomeshRunPath := "/var/run/kynomesh".
Definition BrokerGRPCSocketPath := (KynomeshRunPath +:+ "/broker-grpc.sock")%string.
Definition ProbeBinaryPath := (KynomeshRunPath +:+ "/bin/kynoprobe")%string.
Definition KynomeshBinaryPath := "/bin/kynomesh".

Definition DefaultAgentReadinessInitialDelaySec : Z := 1.
Definition DefaultAgentReadinessPeriodSec : Z := 10.
Definition DefaultAgentReadinessTimeoutSec : Z := 2.
Definition DefaultAgentReadinessFailureThreshold : Z := 3.
Definition DefaultAgentReadinessSuccessThreshold : Z := 1.
Definition DefaultAgentLivenessInitialDelaySec : Z := 30.
Definition DefaultAgentLivenessPeriodSec : Z := 15.
Definition DefaultAgentLivenessTimeoutSec : Z := 3.
Definition DefaultAgentLivenessFailureThreshold : Z := 6.
Definition DefaultAgentLivenessSuccessThreshold : Z := 1.
Definition DefaultAgentStartupInitialDelaySec : Z := 1.
Definition DefaultAgentStartupPeriodSec : Z := 5.
Definition DefaultAgentStartupTimeoutSec : Z := 2.
Definition DefaultAgentStartupFailureThreshold : Z := 30.
Definition DefaultAgentStartupSuccessThreshold : Z := 1.
Definition DefaultBrokerReadinessInitialDelaySec : Z := 1.
Definition DefaultBrokerReadinessPeriodSec : Z := 10.
Definition DefaultBrokerReadinessTimeoutSec : Z := 2.
Definition DefaultBrokerReadinessFailureThreshold : Z := 3.
Definition DefaultBrokerReadinessSuccessThreshold : Z := 1.
Definition DefaultBrokerLivenessInitialDelaySec : Z := 30.
Definition DefaultBrokerLivenessPeriodSec : Z := 15.
Definition DefaultBrokerLivenessTimeoutSec : Z := 3.
Definition DefaultBrokerLivenessFailureThreshold : Z := 6.
Definition DefaultBrokerLivenessSuccessThreshold : Z := 1.

Definition DefaultMinReplicas : Z := 1.
Definition DefaultMaxReplicas : Z := 50.
Definition DefaultScaleUpCooldownSeconds : Z := 90.
Definition DefaultScaleDownCooldownSeconds : Z := 90.
Definition DefaultReplicasPerScaleUp : Z := 2.
Definition DefaultReplicasPerScaleDown : Z := 2.
Definition DefaultTargetSaturationPercentage : Z := 80.

(** ** Probes, scaling, rate limit *)
Record Probe : Set := mkProbe {
  InitialDelaySeconds : option Z;
  TimeoutSeconds : option Z;
  PeriodSeconds : option Z;
  SuccessThreshold : option Z;
  FailureThreshold : option Z
}.
Definition GetProbeInitialDelaySecondsOr (p : option Probe) (d : Z) : Z :=
  default d (p ≫= InitialDelaySeconds).
Definition GetProbeTimeoutSecondsOr (p : option Probe) (d : Z) : Z :=
  default d (p ≫= TimeoutSeconds).
Definition GetProbePeriodSecondsOr (p : option Probe) (d : Z) : Z :=
  default d (p ≫= PeriodSeconds).
Definition GetProbeSuccessThresholdOr (p : option Probe) (d : Z) : Z :=
  default d (p ≫= SuccessThreshold).
Definition GetProbeFailureThresholdOr (p : option Probe) (d : Z) : Z :=
  default d (p ≫= FailureThreshold).

(** Pointer fields are options; [int32] and [uint32] values are [Z]s in range. *)
Record Scale : Set := mkScale {
  Disabled : bool;
  Min : option Z;
  Max : option Z;
  TargetSaturationPercentage : option Z;
  ScaleUpCooldownSeconds : option Z;
  ScaleDownCooldownSeconds : option Z;
  ReplicasPerScaleUp : option Z;
  ReplicasPerScaleDown : option Z
}.
Definition zero_scale : Scale := mkScale false None None None None None None None.

Record RateLimitSpec : Set := mkRateLimitSpec { MaxInFlight : option Z }.

Record DriftReload : Set := mkDriftReload { Enabled : option bool }.
Definition IsEnabled (d : option DriftReload) : bool :=
  match d with Some (mkDriftReload (Some b)) => b | _ => false end.

(** ** Update strategy *)
Inductive IntOrString : Set := FromInt (n : Z) | FromString (s : string).
Record RollingUpdateStrategy : Set := mkRollingUpdateStrategy {
  MaxUnavailable : option IntOrString
}.
Record UpdateStrategy : Set := mkUpdateStrategy {
  us_Type : string;
  us_RollingUpdate : option RollingUpdateStrategy
}.
Definition RollingUpdateStrategyType := "RollingUpdate".
Definition zero_update_strategy : UpdateStrategy := mkUpdateStrategy "" None.
Definition GetUpdateStrategyType (us : UpdateStrategy) : string :=
  if String.eqb (us_Type us) RollingUpdateStrategyType then us_Type us
  else RollingUpdateStrategyType.
Definition GetRollingUpdateStrategy (us : UpdateStrategy) : RollingUpdateStrategy :=
  default (mkRollingUpdateStrategy None) (us_RollingUpdate us).
Definition GetMaxUnavailable (rus : RollingUpdateStrategy) : IntOrString :=
  default (FromString "25%") (MaxUnavailable rus).

(** ** Templates *)
Record Metadata : Set := mkMetadata {
  md_Annotations : gmap string string;
  md_Labels : gmap string string
}.

Record AbstractPodTemplate : Set := mkAbstractPodTemplate {
  apt_Metadata : option Metadata;
  apt_NodeSelector : gmap string string;
  apt_Tolerations : list Opaque;
  apt_SecurityContext : option Opaque;
  apt_ImagePullSecrets : list Opaque;
  apt_PriorityClassName : string;
  apt_Priority : option Z;
  apt_Affinity : option Opaque;
  apt_ServiceAccountName : string;
  apt_RuntimeClassName : option string;
  apt_AutomountServiceAccountToken : option bool;
  apt_DNSPolicy : string;
  apt_DNSConfig : option Opaque;
  apt_ResourceClaims : list Opaque;
  apt_TerminationGracePeriodSeconds : option Z
}.
Definition zero_pod_template : AbstractPodTemplate :=
  mkAbstractPodTemplate None ∅ [] None [] "" None None "" None None "" None [] None.

Record ContainerTemplate : Set := mkContainerTemplate {
  ct_Resources : ResourceRequirements;
  ct_ImagePullPolicy : string;
  ct_SecurityContext : option Opaque;
  ct_Env : list EnvVar;
  ct_EnvFrom : list Opaque
}.
Definition zero_container_template : ContainerTemplate :=
  mkContainerTemplate no_resources "" None [] [].

(** The user's agent container ([user_defined_container.go]). *)
Record Container : Set := mkContainer {
  uc_Image : string;
  uc_Command : list string;
  uc_Args : list string;
  uc_Env : list EnvVar;
  uc_EnvFrom : list Opaque;
  uc_VolumeMounts : list VolumeMount;
  uc_Resources : ResourceRequirements;
  uc_SecurityContext : option Opaque;
  uc_ImagePullPolicy : option string;
  uc_ReadinessProbe : option Probe;
  uc_LivenessProbe : option Probe;
  uc_StartupProbe : option Probe;
  uc_Ports : list ContainerPort
}.

(** ** Topology *)
Inductive PeerKind : Set := PeerKindManaged | PeerKindExternal.
#[export] Instance PeerKind_eq_dec : EqDecision PeerKind.
Proof. solve_decision. Defined.
Record Peer : Set := mkPeer { peer_Name : string; peer_Kind : PeerKind; peer_URL : string }.
#[export] Instance Peer_eq_dec : EqDecision Peer.
Proof. solve_decision. Defined.

(** [AgentPattern] is a string type; any other text than the three patterns
    is an unsupported one. *)
Abbreviation AgentPattern := string (only parsing).
Definition AgentPatternSupervisor : AgentPattern := "Supervisor".
Definition AgentPatternHandoff : AgentPattern := "Handoff".
Definition AgentPatternSequential : AgentPattern := "Sequential".

Record Topology : Set := mkTopology {
  tp_Pattern : AgentPattern;
  tp_IsEntry : bool;
  tp_Peers : list Peer
}.
Definition zero_topology : Topology := mkTopology "" false [].

(** ** AgentDeploy *)
Record AbstractAgentDeploy : Set := mkAbstractAgentDeploy {
  ag_Name : string;
  ag_PodTemplate : AbstractPodTemplate;
  ag_Container : option Container;
  ag_InitContainer : option ContainerTemplate;
  ag_BrokerContainer : option ContainerTemplate;
  ag_Volumes : list Volume;
  ag_Scale : Scale;
  ag_RateLimit : option RateLimitSpec;
  ag_InitContainers : list CoreContainer;
  ag_Sidecars : list CoreContainer;
  ag_UpdateStrategy : UpdateStrategy;
  ag_PublicBaseURL : string;
  ag_DriftReload : option DriftReload
}.
(** The literal [AbstractAgentDeploy{Name: name}]. *)
Definition named_agent (name : string) : AbstractAgentDeploy :=
  mkAbstractAgentDeploy name zero_pod_template None None None [] zero_scale None [] []
    zero_update_strategy "" None.

Record AgentDeploySpec : Set := mkAgentDeploySpec {
  spec_Agent : AbstractAgentDeploy;
  spec_AgentSetName : string;
  spec_Replicas : option Z;
  spec_Topology : Topology
}.

Inductive AgentDeployPhase : Set :=
  AgentDeployPhaseUnknown | AgentDeployPhaseRunning | AgentDeployPhaseFailed.
#[export] Instance AgentDeployPhase_eq_dec : EqDecision AgentDeployPhase.
Proof. solve_decision. Defined.

Record AgentDeployStatus : Set := mkAgentDeployStatus {
  st_Conditions : list Condition;
  st_Phase : AgentDeployPhase;
  st_Replicas : Z;
  st_DesiredReplicas : Z;
  st_Selector : string;
  st_Reason : string;
  st_Message : string;
  st_LastScaledAt : Time;
  st_ObservedGeneration : Z;
  st_ReadyReplicas : Z;
  st_UpdatedReplicas : Z;
  st_UpdatedReadyReplicas : Z;
  st_CurrentHash : string;
  st_UpdateHash : string
}.
#[export] Instance AgentDeployStatus_eq_dec : EqDecision AgentDeployStatus.
Proof. solve_decision. Defined.
Definition zero_status : AgentDeployStatus :=
  mkAgentDeployStatus [] AgentDeployPhaseUnknown 0 0 "" "" "" zero_time 0 0 0 0 "" "".

Record AgentDeploy : Set := mkAgentDeploy {
  ad_meta : ObjectMeta;
  ad_Spec : AgentDeploySpec;
  ad_Status : AgentDeployStatus
}.

Definition ad_Name (ad : AgentDeploy) : string := om_Name (ad_meta ad).
Definition ad_Namespace (ad : AgentDeploy) : string := om_Namespace (ad_meta ad).
Definition ad_key (ad : AgentDeploy) : NamespacedName := om_key (ad_meta ad).
Definition ad_Scale (ad : AgentDeploy) : Scale := ag_Scale (spec_Agent (ad_Spec ad)).
Definition ad_with_status (s : AgentDeployStatus) (ad : AgentDeploy) : AgentDeploy :=
  mkAgentDeploy (ad_meta ad) (ad_Spec ad) s.

#[export] Instance AgentDeploy_HasMeta : HasMeta AgentDeploy := ad_meta.

Definition AgentDeployControllerRef (ad : AgentDeploy) : OwnerReference :=
  NewControllerRef (ad_meta ad) "kynomesh.kyno.sh/v1alpha1" "AgentDeploy".

Definition HeadlessServiceName (ad : AgentDeploy) : string := ad_Name ad +:+ "-headless".
Definition ServiceName (ad : AgentDeploy) : string := ad_Name ad.

(** [SimpleCopy] keeps what the broker and the init container need. *)
Definition SimpleCopy (ad : AgentDeploy) : AgentDeploy :=
  let a := spec_Agent (ad_Spec ad) in
  mkAgentDeploy
    (new_meta (ad_Namespace ad) (ad_Name ad) ∅ ∅ [])
    (mkAgentDeploySpec
       (mkAbstractAgentDeploy (ag_Name a) (ag_PodTemplate a) (ag_Container a)
          (ag_InitContainer a) (ag_BrokerContainer a) [] zero_scale (ag_RateLimit a) [] []
          zero_update_strategy (ag_PublicBaseURL a) None)
       (spec_AgentSetName (ad_Spec ad)) None (spec_Topology (ad_Spec ad)))
    zero_status.

(** ** AgentSet *)
Record ExternalAgentRef : Set := mkExternalAgentRef { ext_Name : string; ext_URL : string }.

Record AgentDeployTemplate : Set := mkAgentDeployTemplate {
  adt_PodTemplate : AbstractPodTemplate;
  adt_InitContainer : option ContainerTemplate;
  adt_BrokerContainer : option ContainerTemplate
}.
Record DaemonTemplate : Set := mkDaemonTemplate {
  dt_PodTemplate : AbstractPodTemplate;
  dt_Container : option ContainerTemplate
}.
Record Templates : Set := mkTemplates {
  t_AgentDeployTemplate : option AgentDeployTemplate;
  t_DaemonTemplate : option DaemonTemplate
}.

Record AgentSetSpec : Set := mkAgentSetSpec {
  as_Pattern : AgentPattern;
  as_Entry : string;
  as_Agents : list AbstractAgentDeploy;
  as_Templates : option Templates;
  as_ExternalAgents : list ExternalAgentRef;
  as_DriftReload : option DriftReload
}.

Inductive AgentSetPhase : Set :=
  AgentSetPhaseUnknown | AgentSetPhaseRunning | AgentSetPhaseFailed | AgentSetPhaseDeleting.
#[export] Instance AgentSetPhase_eq_dec : EqDecision AgentSetPhase.
Proof. solve_decision. Defined.

Record AgentSetStatus : Set := mkAgentSetStatus {
  ass_Conditions : list Condition;
  ass_Phase : AgentSetPhase;
  ass_Message : string;
  ass_LastUpdated : Time;
  ass_AgentCount : option Z;
  ass_ExternalAgentCount : option Z;
  ass_ObservedGeneration : Z
}.
#[export] Instance AgentSetStatus_eq_dec : EqDecision AgentSetStatus.
Proof. solve_decision. Defined.

Record AgentSet : Set := mkAgentSet {
  as_meta : ObjectMeta;
  as_Spec : AgentSetSpec;
  as_Status : AgentSetStatus
}.
#[export] Instance AgentSet_HasMeta : HasMeta AgentSet := as_meta.
Definition zero_set_status : AgentSetStatus :=
  mkAgentSetStatus [] AgentSetPhaseUnknown "" zero_time None None 0.

Definition EntryServiceSuffix := "ingress".
Definition DaemonSuffix := "daemon".
Definition as_Name (s : AgentSet) : string := om_Name (as_meta s).
Definition as_Namespace (s : AgentSet) : string := om_Namespace (as_meta s).
Definition EntryServiceName (s : AgentSet) : string := as_Name s +:+ "-" +:+ EntryServiceSuffix.
Definition DaemonName (s : AgentSet) : string := as_Name s +:+ "-" +:+ DaemonSuffix.
Definition ChildAgentDeployName (s : AgentSet) (agentName : string) : string :=
  as_Name s +:+ "-" +:+ agentName.

Definition AgentSetControllerRef (s : AgentSet) : OwnerReference :=
  NewControllerRef (as_meta s) "kynomesh.kyno.sh/v1alpha1" "AgentSet".

Definition SetSimpleCopy (s : AgentSet) : AgentSet :=
  mkAgentSet
    (new_meta (as_Namespace s) (as_Name s) ∅ ∅ [])
    (mkAgentSetSpec (as_Pattern (as_Spec s)) (as_Entry (as_Spec s))
       (map (λ a, named_agent (ag_Name a)) (as_Agents (as_Spec s)))
       None (as_ExternalAgents (as_Spec s)) None)
    zero_set_status.
