(* ===== verification/Encoding.v ===== *)
(** * Objects carried in environment variables
    ([agentdeploy_encoding.go], [agentset_encoding.go], [pkg/shared/util/json.go])

    The controllers hand an AgentDeploy or an AgentSet to the processes in a
    pod as base64 of JSON.  Base64 ([encoding/base64], standard alphabet with
    padding) is modelled bit by bit; [json.Marshal] and [json.Unmarshal] are
    parameters, and the round trip assumes only that unmarshalling what was
    marshalled gives the object back. *)
From S2P Require Import Prelude K8s Types.
#[local] Open Scope Z_scope.

Module Encoding.

(** ** Base64 *)
Definition alphabet : string := "ABCDEFGHIJKLMNOPQRSTUVWXYZabcdefghijklmnopqrstuvwxyz0123456789+/".

Definition enc_char (z : Z) : ascii := default "A"%char (String.get (Z.to_nat z) alphabet).

(** The decode map: the sextet of a character of the alphabet. *)
Definition dec_char (c : ascii) : option Z :=
  let n := Z.of_N (Ascii.N_of_ascii c) in
  if (65 <=? n) && (n <=? 90) then Some (n - 65)
  else if (97 <=? n) && (n <=? 122) then Some (n - 71)
  else if (48 <=? n) && (n <=? 57) then Some (n + 4)
  else if n =? 43 then Some 62
  else if n =? 47 then Some 63
  else None.

Definition sextet (val shift : Z) : Z := Z.land (Z.shiftr val shift) 63.
Definition padChar : ascii := "="%char.

(** [EncodeToString]: three bytes to four characters, then the padding. *)
Fixpoint EncodeToString (src : list byte) : string :=
  match src with
  | b0 :: b1 :: b2 :: rest =>
      let val := Z.lor (Z.lor (Z.shiftl (Z_of_byte b0) 16) (Z.shiftl (Z_of_byte b1) 8)) (Z_of_byte b2) in
      String (enc_char (sextet val 18)) (String (enc_char (sextet val 12))
        (String (enc_char (sextet val 6)) (String (enc_char (sextet val 0)) (EncodeToString rest))))
  | [b0; b1] =>
      let val := Z.lor (Z.shiftl (Z_of_byte b0) 16) (Z.shiftl (Z_of_byte b1) 8) in
      String (enc_char (sextet val 18)) (String (enc_char (sextet val 12))
        (String (enc_char (sextet val 6)) (String padChar "")))
  | [b0] =>
      let val := Z.shiftl (Z_of_byte b0) 16 in
      String (enc_char (sextet val 18)) (String (enc_char (sextet val 12))
        (String padChar (String padChar "")))
  | [] => ""
  end.

(** The decoder skips carriage returns and line feeds wherever they are. *)
Fixpoint skip_newlines (s : string) : string :=
  match s with
  | EmptyString => EmptyString
  | String c s' =>
      let n := Ascii.N_of_ascii c in
      if (n =? 10)%N || (n =? 13)%N then skip_newlines s' else String c (skip_newlines s')
  end.

(** Quanta of four characters; padding only closes the text, and then the
    spare bits are not looked at. *)
Fixpoint decode_quanta (s : string) : option (list byte) :=
  match s with
  | EmptyString => Some []
  | String c0 (String c1 (String c2 (String c3 rest))) =>
      d0 ← dec_char c0;
      d1 ← dec_char c1;
      match dec_char c2, dec_char c3 with
      | Some d2, Some d3 =>
          let val := Z.lor (Z.lor (Z.lor (Z.shiftl d0 18) (Z.shiftl d1 12)) (Z.shiftl d2 6)) d3 in
          l ← decode_quanta rest;
          Some (byte_of_Z (Z.shiftr val 16) :: byte_of_Z (Z.shiftr val 8) :: byte_of_Z val :: l)
      | Some d2, None =>
          if Ascii.eqb c3 padChar && String.eqb rest "" then
            let val := Z.lor (Z.lor (Z.shiftl d0 18) (Z.shiftl d1 12)) (Z.shiftl d2 6) in
            Some [byte_of_Z (Z.shiftr val 16); byte_of_Z (Z.shiftr val 8)]
          else None
      | None, _ =>
          if Ascii.eqb c2 padChar && Ascii.eqb c3 padChar && String.eqb rest "" then
            let val := Z.lor (Z.shiftl d0 18) (Z.shiftl d1 12) in
            Some [byte_of_Z (Z.shiftr val 16)]
          else None
      end
  | _ => None
  end.

Definition DecodeString (s : string) : option (list byte) := decode_quanta (skip_newlines s).

Example base64_ex :
  EncodeToString (String.list_byte_of_string "kyno") = "a3lubw==" ∧
  DecodeString ("a3lu" +:+ String "010"%char "bw==") = Some (String.list_byte_of_string "kyno") ∧
  DecodeString "a3lubw=" = None ∧ DecodeString "a3lubw==x" = None.
Proof. repeat split. Qed.

(** ** Base64 round trip *)

(** Disjoint bit fields add up. *)
Lemma lor_mul a b n : 0 <= n → 0 <= b < 2 ^ n → Z.lor (a * 2 ^ n) b = a * 2 ^ n + b.
Proof.
  intros Hn Hb. rewrite <- Z.shiftl_mul_pow2 by done.
  enough (Z.land (Z.shiftl a n) b = 0) as E by (pose proof (Z.add_lor_land (Z.shiftl a n) b); lia).
  apply Z.bits_inj'. intros i Hi. rewrite Z.land_spec, Z.bits_0.
  destruct (decide (i < n)) as [L|L]; [by rewrite Z.shiftl_spec_low|].
  assert (Z.testbit b i = false) as ->; [|apply andb_false_r].
  apply Z.testbit_false; [done|]. rewrite Z.div_small; [done|].
  split; [lia|]. apply Z.lt_le_trans with (2 ^ n); [lia|]. apply Z.pow_le_mono_r; lia.
Qed.

Lemma pack3 x y z :
  0 <= x < 256 → 0 <= y < 256 → 0 <= z < 256 →
  Z.lor (Z.lor (Z.shiftl x 16) (Z.shiftl y 8)) z = x * 65536 + y * 256 + z.
Proof.
  intros Hx Hy Hz. rewrite !Z.shiftl_mul_pow2 by lia.
  rewrite (lor_mul x (y * 2 ^ 8) 16) by lia.
  replace (x * 2 ^ 16 + y * 2 ^ 8) with ((x * 256 + y) * 2 ^ 8) by lia.
  rewrite lor_mul by lia. lia.
Qed.

Lemma pack4 a b c d :
  0 <= a < 64 → 0 <= b < 64 → 0 <= c < 64 → 0 <= d < 64 →
  Z.lor (Z.lor (Z.lor (Z.shiftl a 18) (Z.shiftl b 12)) (Z.shiftl c 6)) d =
  a * 262144 + b * 4096 + c * 64 + d.
Proof.
  intros Ha Hb Hc Hd. rewrite !Z.shiftl_mul_pow2 by lia.
  rewrite (lor_mul a (b * 2 ^ 12) 18) by lia.
  replace (a * 2 ^ 18 + b * 2 ^ 12) with ((a * 64 + b) * 2 ^ 12) by lia.
  rewrite (lor_mul _ (c * 2 ^ 6) 12) by lia.
  replace ((a * 64 + b) * 2 ^ 12 + c * 2 ^ 6) with (((a * 64 + b) * 64 + c) * 2 ^ 6) by lia.
  rewrite lor_mul by lia. lia.
Qed.

Lemma sextet_div val n : 0 <= n → sextet val n = (val / 2 ^ n) mod 64.
Proof.
  intros Hn. unfold sextet. rewrite Z.shiftr_div_pow2 by done.
  change 63 with (Z.ones 6). by rewrite Z.land_ones.
Qed.

Lemma dec_enc_char z : 0 <= z < 64 → dec_char (enc_char z) = Some z.
Proof.
  intros Hz.
  assert (Forall (λ z, dec_char (enc_char z) = Some z) (seqZ 0 64)) as HF.
  { apply (bool_decide_unpack _). by vm_compute. }
  rewrite Forall_forall in HF. apply HF. apply elem_of_seqZ. lia.
Qed.

Lemma dec_enc_sextet val n : 0 <= n → dec_char (enc_char (sextet val n)) = Some (sextet val n).
Proof. intros Hn. apply dec_enc_char. rewrite sextet_div by done. apply Z.mod_pos_bound. lia. Qed.

Lemma byte_of_Z_of_byte b : byte_of_Z (Z_of_byte b) = b.
Proof. by destruct b. Qed.

Lemma byte_of_Z_mod z b : z mod 256 = Z_of_byte b → byte_of_Z z = b.
Proof.
  intros H. rewrite <- (byte_of_Z_of_byte b), <- H. unfold byte_of_Z. by rewrite Z.mod_mod.
Qed.

Lemma enc_char_not_newline z :
  0 <= z < 64 → let n := Ascii.N_of_ascii (enc_char z) in (n =? 10)%N || (n =? 13)%N = false.
Proof.
  intros Hz.
  assert (Forall (λ z, ((Ascii.N_of_ascii (enc_char z) =? 10)%N || (Ascii.N_of_ascii (enc_char z) =? 13)%N) = false)
            (seqZ 0 64)) as HF.
  { apply (bool_decide_unpack _). by vm_compute. }
  rewrite Forall_forall in HF. apply HF. apply elem_of_seqZ. lia.
Qed.

Lemma skip_sextet val n s :
  0 <= n → skip_newlines (String (enc_char (sextet val n)) s) = String (enc_char (sextet val n)) (skip_newlines s).
Proof.
  intros Hn. cbn [skip_newlines]. rewrite enc_char_not_newline; [done|].
  rewrite sextet_div by done. apply Z.mod_pos_bound. lia.
Qed.

(** The four sextets of a 24-bit value put it back together. *)
Lemma sextets_val v :
  0 <= v < 2 ^ 24 →
  sextet v 18 * 262144 + sextet v 12 * 4096 + sextet v 6 * 64 + sextet v 0 = v.
Proof.
  intros Hv. rewrite !sextet_div by lia. change (2 ^ 24) with 16777216 in Hv.
  change (2 ^ 18) with 262144. change (2 ^ 12) with 4096. change (2 ^ 6) with 64. change (2 ^ 0) with 1.
  Z.div_mod_to_equations. lia.
Qed.

Lemma sextet_range v n : 0 <= n → 0 <= sextet v n < 64.
Proof. intros Hn. rewrite sextet_div by done. apply Z.mod_pos_bound. lia. Qed.

Lemma bytes_of_val x y z v :
  v = Z_of_byte x * 65536 + Z_of_byte y * 256 + z → 0 <= z < 256 →
  byte_of_Z (Z.shiftr v 16) = x ∧ byte_of_Z (Z.shiftr v 8) = y.
Proof.
  intros -> Hz. pose proof (Z_of_byte_range x). pose proof (Z_of_byte_range y).
  rewrite !Z.shiftr_div_pow2 by lia. change (2 ^ 16) with 65536. change (2 ^ 8) with 256.
  split; apply byte_of_Z_mod; Z.div_mod_to_equations; lia.
Qed.

Lemma list_ind3 {A} (P : list A → Prop) :
  P [] → (∀ x, P [x]) → (∀ x y, P [x; y]) → (∀ x y z l, P l → P (x :: y :: z :: l)) → ∀ l, P l.
Proof.
  intros H0 H1 H2 H3. fix IH 1. intros [|x [|y [|z l]]]; [apply H0|apply H1|apply H2|apply H3, IH].
Qed.

Lemma shl16 x : Z.shiftl x 16 = x * 65536.
Proof. by rewrite Z.shiftl_mul_pow2. Qed.

Lemma pack2 a b : 0 <= a < 64 → 0 <= b < 64 → Z.lor (Z.shiftl a 18) (Z.shiftl b 12) = a * 262144 + b * 4096.
Proof.
  intros Ha Hb. pose proof (pack4 a b 0 0 Ha Hb ltac:(lia) ltac:(lia)) as H.
  rewrite Z.shiftl_0_l, !Z.lor_0_r in H. lia.
Qed.

Lemma pack3' a b c :
  0 <= a < 64 → 0 <= b < 64 → 0 <= c < 64 →
  Z.lor (Z.lor (Z.shiftl a 18) (Z.shiftl b 12)) (Z.shiftl c 6) = a * 262144 + b * 4096 + c * 64.
Proof.
  intros Ha Hb Hc. pose proof (pack4 a b c 0 Ha Hb Hc ltac:(lia)) as H. rewrite Z.lor_0_r in H. lia.
Qed.

(** Sextets below the low end of a multiple are zero. *)
Lemma sextet_low v k n : 0 <= n → v = k * 2 ^ (n + 6) → sextet v n = 0.
Proof.
  intros Hn ->. rewrite sextet_div, Z.pow_add_r by lia. change (2 ^ 6) with 64.
  rewrite (Z.mul_comm (2 ^ n) 64), Z.mul_assoc, Z.div_mul by (apply Z.pow_nonzero; lia).
  apply Z.mod_mul. lia.
Qed.

Lemma decode_encode_bytes l : DecodeString (EncodeToString l) = Some l.
Proof.
  unfold DecodeString. induction l as [|x|x y|x y z l IH] using list_ind3; [done|..].
  - pose proof (Z_of_byte_range x). cbn [EncodeToString]. rewrite shl16.
    set (v := Z_of_byte x * 65536). pose proof (sextets_val v ltac:(lia)) as Hv.
    rewrite (sextet_low v (Z_of_byte x * 16) 6), (sextet_low v (Z_of_byte x * 1024) 0) in Hv by lia.
    rewrite !skip_sextet by lia. cbn [skip_newlines decode_quanta].
    rewrite !dec_enc_sextet by lia. cbn -[sextet Z.shiftr byte_of_Z].
    rewrite pack2 by (apply sextet_range; lia).
    destruct (bytes_of_val x x00 0 (sextet v 18 * 262144 + sextet v 12 * 4096)) as [-> _];
      [cbn; lia|lia|done].
  - pose proof (Z_of_byte_range x). pose proof (Z_of_byte_range y). cbn [EncodeToString].
    assert (Z.lor (Z.shiftl (Z_of_byte x) 16) (Z.shiftl (Z_of_byte y) 8) =
            Z_of_byte x * 65536 + Z_of_byte y * 256) as ->.
    { pose proof (pack3 (Z_of_byte x) (Z_of_byte y) 0 ltac:(lia) ltac:(lia) ltac:(lia)) as E.
      rewrite Z.lor_0_r in E. lia. }
    set (v := _ + _). pose proof (sextets_val v ltac:(lia)) as Hv.
    rewrite (sextet_low v (Z_of_byte x * 1024 + Z_of_byte y * 4) 0) in Hv by lia.
    rewrite !skip_sextet by lia. cbn [skip_newlines decode_quanta].
    rewrite !dec_enc_sextet by lia. cbn -[sextet Z.shiftr byte_of_Z].
    rewrite pack3' by (apply sextet_range; lia).
    destruct (bytes_of_val x y 0 (sextet v 18 * 262144 + sextet v 12 * 4096 + sextet v 6 * 64)) as [-> ->];
      [lia|lia|done].
  - pose proof (Z_of_byte_range x). pose proof (Z_of_byte_range y). pose proof (Z_of_byte_range z).
    cbn [EncodeToString]. rewrite pack3 by done.
    set (v := _ + _). pose proof (sextets_val v ltac:(lia)) as Hv.
    rewrite !skip_sextet by lia. cbn [decode_quanta].
    rewrite !dec_enc_sextet by lia. cbn [mbind option_bind]. rewrite IH. cbn [mbind option_bind].
    rewrite pack4 by (apply sextet_range; lia). rewrite Hv.
    destruct (bytes_of_val x y (Z_of_byte z) v) as [-> ->]; [done|done|].
    rewrite (byte_of_Z_mod v z); [done|]. subst v. Z.div_mod_to_equations. lia.
Qed.

(** ** The objects *)
Section objects.
Context {A : Type} (envName : string).
Context (json_Marshal : A → result string string) (json_Unmarshal : list byte → result string A).

(** [MustJSON] panics on a marshalling error. *)
Definition MustJSON (x : A) : option string :=
  match json_Marshal x with Ok s => Some s | Err _ => None end.

(** [MustUnJSON] of a string *)
Definition MustUnJSON (s : string) : option A :=
  match json_Unmarshal (String.list_byte_of_string s) with Ok x => Some x | Err _ => None end.

(** [EncodeAgentDeploy] and [EncodeAgentSet], with their [SimpleCopy]. *)
Definition EncodeObject (simple : A → A) (x : A) : option string :=
  s ← MustJSON (simple x); Some (EncodeToString (String.list_byte_of_string s)).

Inductive decodeErr : Set :=
  | EmptyPayload (env : string)
  | Base64Err (env : string)
  | JSONErr (env e : string).

(** [DecodeAgentDeploy] and [DecodeAgentSet]. *)
Definition DecodeObject (encoded : string) : result decodeErr A :=
  if String.eqb encoded "" then Err (EmptyPayload envName)
  else match DecodeString encoded with
       | None => Err (Base64Err envName)
       | Some raw =>
           match json_Unmarshal raw with
           | Err e => Err (JSONErr envName e)
           | Ok x => Ok x
           end
       end.

Lemma EncodeToString_nonempty l : l ≠ [] → String.eqb (EncodeToString l) "" = false.
Proof. by destruct l as [|x [|y [|z l]]]. Qed.

(** Whatever object is put into an environment variable, the process in the
    pod reads back its [SimpleCopy], as long as JSON itself round-trips. *)
Lemma decode_encode_object simple x s :
  MustJSON (simple x) = Some s → s ≠ "" →
  json_Unmarshal (String.list_byte_of_string s) = Ok (simple x) →
  ∃ enc, EncodeObject simple x = Some enc ∧ DecodeObject enc = Ok (simple x).
Proof.
  intros Hm Hs Hu. unfold EncodeObject, DecodeObject. rewrite Hm. cbn. eexists. split; [done|].
  rewrite EncodeToString_nonempty; [|by destruct s]. by rewrite decode_encode_bytes, Hu.
Qed.
End objects.

Definition EncodeAgentDeploy json_Marshal (ad : AgentDeploy) : option string :=
  EncodeObject json_Marshal SimpleCopy ad.
Definition DecodeAgentDeploy json_Unmarshal (encoded : string) : result decodeErr AgentDeploy :=
  DecodeObject EnvAgentDeployObject json_Unmarshal encoded.
Definition EncodeAgentSet json_Marshal (s : AgentSet) : option string :=
  EncodeObject json_Marshal SetSimpleCopy s.
Definition DecodeAgentSet json_Unmarshal (encoded : string) : result decodeErr AgentSet :=
  DecodeObject EnvAgentSetObject json_Unmarshal encoded.

(** An AgentDeploy survives the trip through the environment of its pods:
    what the process in the pod decodes is the [SimpleCopy] the controller
    encoded, with the name, the namespace, the owning AgentSet, the rate
    limit, the public URL and the topology of the original; base64 adds no
    failure of its own, and an unset variable is an error, not an object. *)
Theorem injected_agentdeploy_roundtrip json_Marshal json_Unmarshal ad s :
  json_Marshal (SimpleCopy ad) = Ok s → s ≠ "" →
  json_Unmarshal (String.list_byte_of_string s) = Ok (SimpleCopy ad) →
  ∃ enc out, EncodeAgentDeploy json_Marshal ad = Some enc ∧
    DecodeAgentDeploy json_Unmarshal enc = Ok out ∧
    ad_Name out = ad_Name ad ∧ ad_Namespace out = ad_Namespace ad ∧
    spec_AgentSetName (ad_Spec out) = spec_AgentSetName (ad_Spec ad) ∧
    spec_Topology (ad_Spec out) = spec_Topology (ad_Spec ad) ∧
    ag_RateLimit (spec_Agent (ad_Spec out)) = ag_RateLimit (spec_Agent (ad_Spec ad)) ∧
    ag_PublicBaseURL (spec_Agent (ad_Spec out)) = ag_PublicBaseURL (spec_Agent (ad_Spec ad)) ∧
    DecodeAgentDeploy json_Unmarshal "" = Err (EmptyPayload EnvAgentDeployObject).
Proof.
  intros Hm Hs Hu.
  destruct (decode_encode_object EnvAgentDeployObject json_Marshal json_Unmarshal SimpleCopy ad s)
    as (enc & He & Hd); [by unfold MustJSON; rewrite Hm|done|done|].
  exists enc, (SimpleCopy ad). by split_and!.
Qed.

Definition ex_object : AgentDeploy :=
  mkAgentDeploy (new_meta "ns" "set-a" ∅ ∅ [])
    (mkAgentDeploySpec (named_agent "a") "set" (Some 3) zero_topology) zero_status.

Lemma injected_agentdeploy_roundtrip_witness :
  ∃ enc out, EncodeAgentDeploy (λ _, Ok "{}") ex_object = Some enc ∧ enc = "e30=" ∧
             ad_Name out = "set-a".
Proof.
  destruct (injected_agentdeploy_roundtrip (λ _, Ok "{}") (λ _, Ok (SimpleCopy ex_object)) ex_object "{}"
              eq_refl ltac:(discriminate) eq_refl) as (enc & out & He & _ & Hn & _).
  exists enc, out. split; [exact He|]. split; [|exact Hn]. vm_compute in He. injection He as <-. reflexivity.
Defined.

End Encoding.
