(* ===== verification/Store.v ===== *)
(** * History store ([scaling/history/store.go] and [registry.go])

    A [ConfigMapStore] is the buffer of one AgentDeploy plus the hash of the
    pod spec it was collected under, persisted as one ConfigMap.  The
    [Registry] holds the stores by AgentDeploy key.  The hash is guarded by one
    mutex and the buffer by another, so [Record] and [Flush] are not atomic:
    their critical sections are definitions of their own ([record_hash],
    [record_reset], [record_add]; [flush_read], [flush_write]), and the
    operations run them one after the other, as they do when nothing else uses
    the store meanwhile; [overlapping_flush_mixes_specs] is what happens
    otherwise.  The API calls thread the cluster state [W]. *)
From S2P Require Import Prelude Float64 Samples Codec K8s Types.
#[local] Open Scope Z_scope.

Module Store.
Import Samples Codec.

Definition HistoryKey : string := "history".
Definition HistoryConfigMapName (adName : string) : string := adName +:+ "-scaling".

Record ConfigMapStore : Set := mkStore {
  namespace : string;
  name : string;
  ownerRef : OwnerReference;
  labels : gmap string string;
  buf : buffer;
  lastFlush : Time;
  specHash : string
}.

(** [buf0] is the buffer [newBuffer(opts...)] builds. *)
Definition NewConfigMapStore (ad : AgentDeploy) (buf0 : buffer) : ConfigMapStore :=
  mkStore (ad_Namespace ad) (HistoryConfigMapName (ad_Name ad)) (AgentDeployControllerRef ad)
    (<[KeyManagedBy := ControllerAgentDeploy]>
     (<[KeyAgentSetName := spec_AgentSetName (ad_Spec ad)]>
      (<[KeyAgentDeployName := ag_Name (spec_Agent (ad_Spec ad))]>
       (<[KeyComponent := ComponentAgent]> ∅))))
    buf0 zero_time "".

Definition with_buf (s : ConfigMapStore) (b : buffer) (h : string) : ConfigMapStore :=
  mkStore (namespace s) (name s) (ownerRef s) (labels s) b (lastFlush s) h.
Definition with_lastFlush (s : ConfigMapStore) (t : Time) : ConfigMapStore :=
  mkStore (namespace s) (name s) (ownerRef s) (labels s) (buf s) t (specHash s).

Definition store_key (s : ConfigMapStore) : NamespacedName := mkKey (namespace s) (name s).

(** The critical sections of [Record]: the hash, then the buffer twice. *)
Definition record_hash (s : ConfigMapStore) (h : string) : ConfigMapStore * bool :=
  (with_buf s (buf s) h, negb (String.eqb (specHash s) "") && negb (String.eqb (specHash s) h)).
Definition record_reset (s : ConfigMapStore) (changed : bool) : ConfigMapStore :=
  with_buf s (if changed then reset (buf s) else buf s) (specHash s).
Definition record_add (s : ConfigMapStore) (x : Sample) : ConfigMapStore :=
  with_buf s (add (buf s) x) (specHash s).
Definition Record_ (s : ConfigMapStore) (x : Sample) (h : string) : ConfigMapStore :=
  let '(s, changed) := record_hash s h in
  record_add (record_reset s changed) x.

Definition History (s : ConfigMapStore) (now : Time) : ConfigMapStore * list Sample :=
  let '(b, out) := samples (buf s) now in (with_buf s b (specHash s), out).

Inductive StoreError : Set :=
  | GetFailed (e : ApiError)
  | DecodeFailed (e : DecodeError)
  | CreateFailed (e : ApiError)
  | UpdateFailed (e : ApiError).

Section api.
Context {W : Type} `{!Client W ConfigMap}.

(** The blob under the history key; a missing key reads as the nil slice. *)
Definition blob_of (cm : ConfigMap) : list byte := default [] (cm_BinaryData cm !! HistoryKey).

(** [Load]; the inner [None] is a panic of the decoder. *)
Definition Load (s : ConfigMapStore) (w : W)
    : option (W * ConfigMapStore * option StoreError) :=
  match Get (store_key s) w with
  | (w', Err e) =>
      if IsNotFound e then Some (w', s, None) else Some (w', s, Some (GetFailed e))
  | (w', Ok cm) =>
      r ← decodeHistory (blob_of cm);
      match r with
      | Err e => Some (w', s, Some (DecodeFailed e))
      | Ok (h, rs) => Some (w', with_buf s (load (buf s) rs) h, None)
      end
  end.

Definition new_configmap (s : ConfigMapStore) (blob : list byte) : ConfigMap :=
  mkConfigMap (new_meta (namespace s) (name s) (labels s) ∅ [ownerRef s])
    (<[HistoryKey := blob]> ∅).

(** One round of [upsert]; [conflict] is what a write conflict leads to. *)
Definition upsert_round (s : ConfigMapStore) (blob : list byte)
    (conflict : W → W * option StoreError) (w : W) : W * option StoreError :=
  match Get (store_key s) w with
  | (w', Err e) =>
      if IsNotFound e then
        match Create (new_configmap s blob) w' with
        | (w'', Some ce) =>
            if negb (IsAlreadyExists ce) then (w'', Some (CreateFailed ce)) else (w'', None)
        | (w'', None) => (w'', None)
        end
      else (w', Some (GetFailed e))
  | (w', Ok cm) =>
      match Update (mkConfigMap (cm_meta cm) (<[HistoryKey := blob]> (cm_BinaryData cm))) w' with
      | (w'', None) => (w'', None)
      | (w'', Some ue) =>
          if IsConflict ue then conflict w'' else (w'', Some (UpdateFailed ue))
      end
  end.

(** [upsert]: the recursive call on a conflict passes [retry = false]. *)
Definition upsert (s : ConfigMapStore) (blob : list byte) (retry : bool) (w : W)
    : W * option StoreError :=
  let failed w := (w, Some (UpdateFailed Conflict)) in
  upsert_round s blob (if retry then upsert_round s blob failed else failed) w.

(** The critical sections of [Flush]: the hash, then the buffer. *)
Definition flush_read (s : ConfigMapStore) : string := specHash s.
Definition flush_write (h : string) (s : ConfigMapStore) (w : W) : W * option StoreError :=
  upsert s (encodeHistory h (snapshot (buf s))) true w.
Definition Flush (s : ConfigMapStore) (w : W) : W * option StoreError :=
  let h := flush_read s in flush_write h s w.

Definition FlushIfDue (s : ConfigMapStore) (now : Time) (interval : Duration) (w : W)
    : W * ConfigMapStore * option StoreError :=
  let due := interval <=? time_sub now (lastFlush s) in
  if negb due then (w, s, None)
  else match Flush s w with
       | (w', Some e) => (w', s, Some e)
       | (w', None) => (w', with_lastFlush s now, None)
       end.

(** ** The registry *)
Record Registry : Set := mkRegistry { reg_buf0 : buffer; stores : gmap NamespacedName ConfigMapStore }.

Definition NewRegistry (buf0 : buffer) : Registry := mkRegistry buf0 ∅.

Definition put_store (r : Registry) (k : NamespacedName) (s : ConfigMapStore) : Registry :=
  mkRegistry (reg_buf0 r) (<[k := s]> (stores r)).

(** [StoreFor]: the store is in the map before it is hydrated, and stays
    there when hydration fails. *)
Definition StoreFor (r : Registry) (ad : AgentDeploy) (w : W)
    : option (W * Registry * ConfigMapStore * option StoreError) :=
  let k := ad_key ad in
  match stores r !! k with
  | Some s => Some (w, r, s, None)
  | None =>
      let s := NewConfigMapStore ad (reg_buf0 r) in
      '(w', s', e) ← Load s w;
      Some (w', put_store r k s', s', e)
  end.

Definition Get_ (r : Registry) (k : NamespacedName) : option ConfigMapStore := stores r !! k.
Definition Forget (r : Registry) (k : NamespacedName) : Registry :=
  mkRegistry (reg_buf0 r) (delete k (stores r)).
Definition Keys (r : Registry) : list NamespacedName := (map_to_list (stores r)).*1.
End api.

(** ** Spec-hash resets *)

Definition recordAll (s : ConfigMapStore) (l : list (Sample * string)) : ConfigMapStore :=
  fold_left (λ s p, Record_ s p.1 p.2) l s.

(** The trailing samples of [l] recorded under hash [h]. *)
Definition last_run (h : string) (l : list (Sample * string)) : list Sample :=
  map fst (last_n (lead (λ p, String.eqb p.2 h) (rev l)) l).

Lemma last_run_snoc h l x :
  last_run h (l ++ [(x, h)]) = last_run h l ++ [x].
Proof.
  unfold last_run. rewrite rev_app_distr. cbn [rev app lead].
  rewrite String.eqb_refl. set (k := lead _ (rev l)).
  assert (k <= length l)%nat as Hk.
  { unfold k. rewrite <- (length_rev l). apply lead_le. }
  unfold last_n. rewrite length_app. cbn [length].
  replace (length l + 1 - S k)%nat with (length l - k)%nat by lia.
  rewrite drop_app_le by lia. by rewrite map_app.
Qed.

Lemma last_run_other h h' l y : h' ≠ h → last_run h (l ++ [(y, h')]) = [].
Proof.
  intros Hne. unfold last_run. rewrite rev_app_distr. cbn [rev app lead].
  rewrite (proj2 (String.eqb_neq _ _)) by done. unfold last_n.
  rewrite Nat.sub_0_r, drop_all. done.
Qed.

Lemma reset_add b x : reset (add b x) = reset b.
Proof. done. Qed.

Lemma recordAll_snoc s l x h : recordAll s (l ++ [(x, h)]) = Record_ (recordAll s l) x h.
Proof. unfold recordAll. by rewrite fold_left_app. Qed.

Lemma recordAll_reset s l : reset (buf (recordAll s l)) = reset (buf s).
Proof.
  induction l as [|[x h] l IH] using rev_ind; [done|]. rewrite recordAll_snoc.
  unfold Record_, record_hash, record_add, record_reset, with_buf. cbn [buf]. rewrite reset_add. by case_match.
Qed.

(** A store's buffer never mixes deployments: whatever samples were
    recorded, under whatever (non-empty) pod-spec hashes, the buffer holds
    what adding just the trailing run of samples of the latest hash to an
    empty buffer gives. *)
Theorem record_keeps_latest_spec s l x h :
  records (buf s) = [] → specHash s = ""%string → Forall (λ p, p.2 ≠ ""%string) l →
  let s' := recordAll s (l ++ [(x, h)]) in
  buf s' = addAll (buf s) (last_run h (l ++ [(x, h)])) ∧ specHash s' = h.
Proof.
  intros Hb Hh. assert (reset (buf s) = buf s) as Hr.
  { unfold reset. rewrite <- Hb. by destruct (buf s). }
  revert x h. induction l as [|[y h'] l IH] using rev_ind; intros x h HF.
  { split; [|done]. rewrite recordAll_snoc, last_run_snoc. unfold Record_, record_hash. cbn [recordAll fold_left]. by rewrite Hh. }
  apply Forall_app in HF as [HF Hy]. rewrite Forall_singleton in Hy. cbn in Hy.
  destruct (IH y h' HF) as [IHb IHh]. split; [|by rewrite recordAll_snoc].
  rewrite recordAll_snoc, last_run_snoc. unfold Record_, record_hash, record_add, record_reset, with_buf.
  cbn [buf specHash]. rewrite IHh.
  rewrite (proj2 (String.eqb_neq _ _)) by done. cbn [negb andb].
  unfold addAll. rewrite fold_left_app. cbn [fold_left]. f_equal.
  destruct (String.eqb_spec h' h) as [->|Hne]; cbn [negb]; [done|].
  by rewrite last_run_other, recordAll_reset, Hr.
Qed.

(** ** Flush and load *)
Definition same_data (o o' : ConfigMap) : Prop := cm_BinaryData o' = cm_BinaryData o.

Section persistence.
Context {W : Type} `{!Client W ConfigMap} `{!ClientLaws W ConfigMap same_data}.
#[local] Set Default Proof Using "Type*".

(** The history blob the server holds for a store. *)
Definition stored_blob (s : ConfigMapStore) (w : W) : option (list byte) :=
  cm ← objs w !! store_key s; cm_BinaryData cm !! HistoryKey.

(** The create of a flush met an object that had appeared since the read: the
    code takes that for success, and nothing is written. *)
Definition create_refused (s : ConfigMapStore) (blob : list byte) (w' : W) : Prop :=
  ∃ w1 w2, Get (O := ConfigMap) (store_key s) w1 = (w2, Err NotFound) ∧
    Create (new_configmap s blob) w2 = (w', Some AlreadyExists).

Lemma upsert_round_writes s blob conflict w w' :
  (∀ w1, conflict w1 = (w', None) → stored_blob s w' = Some blob ∨ create_refused s blob w') →
  upsert_round s blob conflict w = (w', None) → stored_blob s w' = Some blob ∨ create_refused s blob w'.
Proof.
  intros Hconf. unfold upsert_round.
  destruct (Get (store_key s) w) as [w1 [cm|e]] eqn:Hg.
  - pose proof (get_key _ _ _ _ Hg) as Hk.
    destruct (Update _ w1) as [w2 [ue|]] eqn:Hu.
    + case_match; [apply Hconf|done].
    + intros [= ->]. left. apply update_ok in Hu as (o' & Ho' & Hs).
      change (objs w' !! key_of cm = Some o') in Ho'. rewrite Hk in Ho'.
      unfold stored_blob. rewrite Ho'. cbn. rewrite Hs. apply lookup_insert_eq.
  - destruct (IsNotFound e) eqn:He; [|done]. unfold IsNotFound in He. zbool. subst e.
    destruct (Create (new_configmap s blob) w1) as [w2 [ce|]] eqn:Hc.
    + destruct (IsAlreadyExists ce) eqn:Hae; [|done]. unfold IsAlreadyExists in Hae. zbool.
      subst ce. intros [= ->]. right. by exists w, w1.
    + intros [= ->]. left. apply create_ok in Hc as (o' & Ho' & Hs).
      change (objs w' !! store_key s = Some o') in Ho'.
      unfold stored_blob. rewrite Ho'. cbn. rewrite Hs. apply lookup_insert_eq.
Qed.

Lemma Flush_writes s w w' : Flush s w = (w', None) →
  let blob := encodeHistory (specHash s) (snapshot (buf s)) in
  stored_blob s w' = Some blob ∨ create_refused s blob w'.
Proof.
  unfold Flush, flush_read, flush_write, upsert. apply upsert_round_writes. intros w1.
  by apply upsert_round_writes.
Qed.

Lemma Load_stored s0 w w2 cm blob :
  Get (store_key s0) w = (w2, Ok cm) → stored_blob s0 w2 = Some blob →
  Load s0 w = (r ← decodeHistory blob;
    match r with
    | Err e => Some (w2, s0, Some (DecodeFailed e))
    | Ok (h, rs) => Some (w2, with_buf s0 (load (buf s0) rs) h, None)
    end).
Proof.
  intros Hg Hb. unfold Load. rewrite Hg. unfold stored_blob in Hb. rewrite (get_ok _ _ _ _ Hg) in Hb.
  cbn [mbind option_bind] in Hb. by assert (blob_of cm = blob) as -> by (unfold blob_of; by rewrite Hb).
Qed.

(** C27: what a store flushed is what a restarted controller loads.  Let the
    history fit the format (a hash below [2^16] bytes, below [2^32] records,
    fields in the ranges of their Go types: [blob_wf]), and let nothing record
    into the store while it flushes.  A [Flush] without error has then stored
    the encoded history, or its create was refused because the ConfigMap had
    just appeared, which the code counts as success although nothing was
    written ([create_refused]).  In the first case, as long as the ConfigMap
    still holds what was flushed, a fresh store of the same AgentDeploy that
    can read it loads without error and has exactly the records and the spec
    hash. *)
Theorem flush_load_roundtrip s w w' :
  blob_wf (specHash s) (records (buf s)) → Flush s w = (w', None) →
  let blob := encodeHistory (specHash s) (records (buf s)) in
  create_refused s blob w' ∨
  (stored_blob s w' = Some blob ∧
   ∀ s0 w1 w2 cm, store_key s0 = store_key s →
     Get (O := ConfigMap) (store_key s0) w1 = (w2, Ok cm) → stored_blob s0 w2 = stored_blob s w' →
     ∃ s2, Load s0 w1 = Some (w2, s2, None) ∧
       records (buf s2) = records (buf s) ∧ specHash s2 = specHash s).
Proof.
  intros Hwf [Hb|Hr]%Flush_writes; [right|by left]. split; [done|]. intros s0 w1 w2 cm Hk Hg Hs.
  rewrite Hb in Hs. rewrite (Load_stored _ _ _ _ _ Hg Hs), decode_of_encode by done. by eexists.
Qed.

(** [FlushIfDue] calls the API only when the interval has elapsed;
    a failed flush leaves the store untouched, so it is retried at the next
    call; a flush that succeeds moves only the time of the last flush. *)
Theorem flush_if_due_spec s now interval w :
  let '(w', s', e) := FlushIfDue s now interval w in
  if time_sub now (lastFlush s) <? interval then w' = w ∧ s' = s ∧ e = None
  else Flush s w = (w', e) ∧
       s' = match e with None => with_lastFlush s now | Some _ => s end.
Proof.
  unfold FlushIfDue. rewrite Z.leb_antisym, negb_involutive.
  destruct (time_sub now (lastFlush s) <? interval); [done|].
  by destruct (Flush s w) as [w' [e|]].
Qed.
End persistence.

(** ** Witnesses on the in-memory server *)
Definition ex_ad : AgentDeploy :=
  mkAgentDeploy (new_meta "ns" "set-a" ∅ ∅ [])
    (mkAgentDeploySpec (named_agent "a") "set" None zero_topology) zero_status.
Definition ex_sample (t : Time) : Sample := mkSample t 2 fone fone.
Definition ex_store : ConfigMapStore :=
  recordAll (NewConfigMapStore ex_ad newBuffer)
    [(ex_sample 1000, "h1"%string); (ex_sample 2000, "h2"%string); (ex_sample 3000, "h2"%string)].

Lemma record_keeps_latest_spec_witness :
  buf ex_store = addAll newBuffer [ex_sample 2000; ex_sample 3000] ∧ specHash ex_store = "h2"%string.
Proof.
  refine (record_keeps_latest_spec (NewConfigMapStore ex_ad newBuffer)
            [(ex_sample 1000, "h1"%string); (ex_sample 2000, "h2"%string)]
            (ex_sample 3000) "h2" _ _ _); [done|done|by repeat constructor].
Defined.

Definition ex_laws : ClientLaws (gmap NamespacedName ConfigMap) ConfigMap same_data.
Proof. apply (ClientLaws_weaken eq same_data); [by intros ?? ->|apply memory_laws]. Defined.

Definition ex_flushed : gmap NamespacedName ConfigMap := (Flush ex_store ∅).1.
Definition ex_cm : ConfigMap := new_configmap ex_store (encodeHistory "h2" (records (buf ex_store))).

Lemma flush_load_roundtrip_witness :
  Flush ex_store ∅ = (ex_flushed, None) ∧
  ∃ s2, Load (NewConfigMapStore ex_ad newBuffer) ex_flushed = Some (ex_flushed, s2, None) ∧
  records (buf s2) = records (buf ex_store) ∧ specHash s2 = specHash ex_store.
Proof.
  assert (Flush ex_store ∅ = (ex_flushed, None)) as Hf
    by (vm_cast_no_check (eq_refl (ex_flushed, @None StoreError))).
  split; [exact Hf|].
  assert (Get (store_key (NewConfigMapStore ex_ad newBuffer)) ex_flushed = (ex_flushed, Ok ex_cm)) as Hg
    by (vm_cast_no_check (eq_refl (ex_flushed, @Ok ApiError ConfigMap ex_cm))).
  destruct (@flush_load_roundtrip _ _ ex_laws ex_store ∅ ex_flushed) as [(w1 & w2 & Hn & Hc)|[_ H]]; [|exact Hf| |].
  - split_and!; [vm_compute; reflexivity|vm_compute; reflexivity|].
    repeat constructor; unfold record_wf, in_s, in_u; cbn; lia.
  - exfalso. exact (proj2 memory_sole_writer ex_cm w1 w2 ex_flushed Hn Hc).
  - exact (H (NewConfigMapStore ex_ad newBuffer) ex_flushed ex_flushed ex_cm eq_refl Hg eq_refl).
Defined.

(** A [Flush] that read the hash before a [Record] under a new pod spec and the
    buffer after it stores the new spec's sample under the old hash. *)
Example overlapping_flush_mixes_specs :
  let s1 := recordAll (NewConfigMapStore ex_ad newBuffer) [(ex_sample 1000, "h1"%string)] in
  let h := flush_read s1 in
  let s2 := Record_ s1 (ex_sample 2000) "h2" in
  let w := (flush_write (W := gmap NamespacedName ConfigMap) h s2 ∅).1 in
  ∃ r, decodeHistory (default [] (stored_blob s2 w)) = Some (Ok ("h1"%string, [r])) ∧ sample r = ex_sample 2000.
Proof. eexists. split; [vm_compute; reflexivity|reflexivity]. Qed.

(** ** The registry *)
Section registry.
Context {W : Type} `{!Client W ConfigMap}.

(** [StoreFor] hydrates a store once: when an entry exists the call
    returns it unchanged without reading the cluster; otherwise the entry it
    registers is exactly the store it returns, whether or not loading
    succeeded, and no other entry changes.  It never panics. *)
Theorem store_for_spec (r : Registry) (ad : AgentDeploy) (w : W) :
  ∃ w' r' s e, StoreFor r ad w = Some (w', r', s, e) ∧
    Get_ r' (ad_key ad) = Some s ∧
    (∀ k, k ≠ ad_key ad → Get_ r' k = Get_ r k) ∧
    (is_Some (Get_ r (ad_key ad)) → w' = w ∧ r' = r ∧ e = None) ∧
    StoreFor r' ad w' = Some (w', r', s, None).
Proof.
  unfold StoreFor, Get_.
  destruct (stores r !! ad_key ad) as [s|] eqn:Hs.
  { exists w, r, s, None. rewrite Hs. split_and!; done. }
  assert (∃ w' s' e, Load (NewConfigMapStore ad (reg_buf0 r)) w = Some (w', s', e))
    as (w' & s' & e & ->).
  { unfold Load. destruct (Get _ w) as [w1 [cm|e]].
    - destruct (decode_total (blob_of cm)) as [[[h rs]|e] ->]; cbn; eauto.
    - case_match; eauto. }
  cbn [mbind option_bind]. exists w', (put_store r (ad_key ad) s'), s', e.
  cbn [stores put_store]. rewrite lookup_insert_eq.
  split_and!; [done|done| |by intros [? ?]|done].
  intros k Hk. by rewrite lookup_insert_ne.
Qed.
End registry.
End Store.
