(* ===== verification/Estimator.v ===== *)
(** * Capacity estimator ([scaling/decision/estimator.go])

    The saturation knee of one replica, learned from the throughput against
    concurrency curve.  [math.Exp] and the platform's float-to-int conversion
    of unrepresentable values ([oob]) are parameters; a slice index out of
    range panics, which is [None]. *)
From S2P Require Import Prelude Float64 Samples.
#[local] Open Scope Z_scope.

Module Estimator.
Import Samples.

Record Estimate : Set := mkEstimate {
  KneePerReplica : float64;
  IsLowerBound : bool;
  Confidence : float64
}.
Definition zero_estimate : Estimate := mkEstimate fzero false fzero.

Definition decayHalfLife : Duration := 6 * hour.
Definition minSamplesToLearn : Z := 8.
Definition fullConfidenceWindow : Duration := 10 * minute.
Definition numBuckets : Z := 10.
Definition plateauFraction : float64 := f_ratio 1 5.
Definition lowerBoundPenalty : float64 := f_ratio 2 5.
(** [math.Ln2] rounded to a [float64]. *)
Definition Ln2 : float64 := S754_finite false 6243314768165359 (-53).

Definition clampF (v lo hi : float64) : float64 := fmax lo (fmin hi v).

(** [s[len(s)-1]] *)
Definition last_of {A} (l : list A) : option A := last l.

Section estimator.
Context `{GoSort} (Exp : float64 → float64) (oob : float64 → Z).

Definition recencyWeight (age : Duration) : float64 :=
  if age <? 0 then fone
  else
    let tau := fdiv (f_of_Z decayHalfLife) Ln2 in
    Exp (fdiv (fneg (f_of_Z age)) tau).

Record bucket : Set := mkBucket { inflight : float64; rate : float64; weight : float64 }.
Record acc : Set := mkAcc { wInflight : float64; wRate : float64; w : float64 }.

(** Index of a sample's concurrency band: [int(x)] on a 64-bit platform,
    capped at the last band. *)
Definition band (minI span : float64) (s : Sample) : Z :=
  let idx := f_to_int 64 oob
    (fmul (fdiv (fsub (InflightPerRep s) minI) span) (f_of_Z numBuckets)) in
  if numBuckets <=? idx then numBuckets - 1 else idx.

Definition add_sample (minI span : float64) (now : Time) (accs : list acc) (s : Sample)
    : option (list acc) :=
  let idx := band minI span s in
  let wt := recencyWeight (time_sub now (Timestamp s)) in
  if idx <? 0 then None
  else
    a ← accs !! Z.to_nat idx;
    Some (<[Z.to_nat idx := mkAcc (fadd (wInflight a) (fmul (InflightPerRep s) wt))
                                  (fadd (wRate a) (fmul (RatePerRep s) wt))
                                  (fadd (w a) wt)]> accs).

Fixpoint add_samples (minI span : float64) (now : Time) (accs : list acc) (l : list Sample)
    : option (list acc) :=
  match l with
  | [] => Some accs
  | s :: l' => accs' ← add_sample minI span now accs s; add_samples minI span now accs' l'
  end.

Definition collapse (accs : list acc) : list bucket :=
  omap (λ a, if fle (w a) fzero then None
             else Some (mkBucket (fdiv (wInflight a) (w a)) (fdiv (wRate a) (w a)) (w a))) accs.

Definition by_inflight (a b : bucket) : bool := flt (inflight a) (inflight b).

Definition bucketize (clean : list Sample) (now : Time) : option (list bucket) :=
  c0 ← head clean;
  let minI := fold_left (λ m s, fmin m (InflightPerRep s)) clean (InflightPerRep c0) in
  let maxI := fold_left (λ m s, fmax m (InflightPerRep s)) clean (InflightPerRep c0) in
  if fle maxI minI then Some [mkBucket maxI fzero fone]
  else
    let span := fsub maxI minI in
    accs ← add_samples minI span now
             (replicate (Z.to_nat numBuckets) (mkAcc fzero fzero fzero)) clean;
    Some (sort_slice by_inflight (collapse accs)).

(** The loop of [findKnee], from bucket [prev] on. *)
Fixpoint knee_loop (ref : float64) (prev : bucket) (l : list bucket) : float64 * bool :=
  match l with
  | [] => (inflight prev, true)
  | b :: l' =>
      let dIn := fsub (inflight b) (inflight prev) in
      if fle dIn fzero then knee_loop ref b l'
      else
        let marginal := fdiv (fsub (rate b) (rate prev)) dIn in
        if flt marginal (fmul plateauFraction ref) then (inflight prev, false)
        else knee_loop ref b l'
  end.

Definition findKnee (buckets : list bucket) : option (float64 * bool) :=
  match buckets with
  | [] => None
  | b0 :: rest =>
      let ref := fdiv (rate b0) (inflight b0) in
      if fle ref fzero then (λ b, (inflight b, true)) <$> last_of buckets
      else Some (knee_loop ref b0 rest)
  end.

Definition timeSpanFactor (clean : list Sample) : float64 :=
  match clean with
  | c0 :: _ :: _ =>
      let span := time_sub (Timestamp (default c0 (last_of clean))) (Timestamp c0) in
      clampF (fdiv (f_of_Z span) (f_of_Z fullConfidenceWindow)) fzero fone
  | _ => fzero
  end.

Definition coverageFactor (buckets : list bucket) : option float64 :=
  lo ← inflight <$> head buckets;
  hi ← inflight <$> last_of buckets;
  Some (if fle hi fzero then fzero else clampF (fdiv (fsub hi lo) hi) fzero fone).

Definition confidence (clean : list Sample) (buckets : list bucket) (isLowerBound : bool)
    : option float64 :=
  cov ← coverageFactor buckets;
  let c := fmul (timeSpanFactor clean) cov in
  let c := if isLowerBound then fmul c lowerBoundPenalty else c in
  Some (clampF c fzero fone).

Definition EstimateKnee (hist : list Sample) (now : Time) : option Estimate :=
  let clean := Sanitize hist in
  if Z.of_nat (length clean) <? minSamplesToLearn then Some zero_estimate
  else
    buckets ← bucketize clean now;
    if (length buckets <? 2)%nat then
      b ← last_of buckets;
      Some (mkEstimate (inflight b) true (fmul lowerBoundPenalty (timeSpanFactor clean)))
    else
      '(knee, isLowerBound) ← findKnee buckets;
      conf ← confidence clean buckets isLowerBound;
      Some (mkEstimate knee isLowerBound conf).
End estimator.

(** ** The knee is the first plateau *)

(** Going from band [p] to band [b], throughput has stopped rising. *)
Definition plateau (ref : float64) (p b : bucket) : bool :=
  let dIn := fsub (inflight b) (inflight p) in
  negb (fle dIn fzero) &&
  flt (fdiv (fsub (rate b) (rate p)) dIn) (fmul plateauFraction ref).

(** No two consecutive bands of [l] are a plateau. *)
Definition rising (ref : float64) (l : list bucket) : Prop :=
  ∀ pre p b post, l = pre ++ p :: b :: post → plateau ref p b = false.

Lemma rising_single ref p : rising ref [p].
Proof. intros pre q b post E. destruct pre as [|? [|]]; cbn in E; discriminate. Qed.

Lemma rising_cons ref p b l :
  plateau ref p b = false → rising ref (b :: l) → rising ref (p :: b :: l).
Proof.
  intros Hp Hr pre q c post E. destruct pre as [|x pre]; cbn in E; simplify_eq; [done|].
  by eapply (Hr pre q c post).
Qed.

Lemma knee_loop_spec ref p l k lb :
  knee_loop ref p l = (k, lb) →
  if lb then rising ref (p :: l) ∧ ∃ b, last (p :: l) = Some b ∧ inflight b = k
  else ∃ pre q b post, p :: l = pre ++ q :: b :: post ∧ inflight q = k ∧
         plateau ref q b = true ∧ rising ref (pre ++ [q]).
Proof.
  revert p. induction l as [|b l IH]; intros p; cbn [knee_loop].
  { intros [= <- <-]. split; [apply rising_single|]. by exists p. }
  destruct (plateau ref p b) eqn:Hp; unfold plateau in Hp; cbn in Hp.
  - apply andb_true_iff in Hp as [Hd Hm]. apply negb_true_iff in Hd. rewrite Hd, Hm.
    intros [= <- <-]. exists [], p, b, l. split_and!; try done; [|apply rising_single].
    unfold plateau. cbn. by rewrite Hd, Hm.
  - intros HK. assert (knee_loop ref b l = (k, lb)) as HK'.
    { revert HK. destruct (fle _ fzero); [done|]. cbn [negb andb] in Hp. by rewrite Hp. }
    apply IH in HK'. destruct lb.
    + destruct HK' as (Hr & b' & Hl & Hk). split; [by apply rising_cons|]. by exists b'.
    + destruct HK' as (pre & q & c & post & E & Hk & Hq & Hr).
      exists (p :: pre), q, c, post. split_and!; try done; [by rewrite E|].
      destruct pre as [|x pre]; cbn in E |- *; simplify_eq; by apply rising_cons.
Qed.

(** On bands with a positive low-load slope, [findKnee] returns the
    concurrency of the last band before the first plateau and reports it as
    saturated; when no plateau exists it returns the highest band and flags
    the knee as a lower bound.  The result is always an observed band. *)
Theorem find_knee_first_plateau b0 rest :
  let bs := b0 :: rest in
  let ref := fdiv (rate b0) (inflight b0) in
  fle ref fzero = false →
  ∃ k lb, findKnee bs = Some (k, lb) ∧
    if lb then rising ref bs ∧ ∃ b, last bs = Some b ∧ inflight b = k
    else ∃ pre p b post, bs = pre ++ p :: b :: post ∧ inflight p = k ∧
           plateau ref p b = true ∧ rising ref (pre ++ [p]).
Proof.
  intros bs ref Href. unfold findKnee, bs. cbv zeta. fold ref. rewrite Href.
  destruct (knee_loop ref b0 rest) as [k lb] eqn:E. exists k, lb. split; [done|].
  by apply knee_loop_spec.
Qed.

Definition ex_band (i r : Z) : bucket := mkBucket (f_of_Z i) (f_of_Z r) fone.

Lemma find_knee_first_plateau_witness :
  findKnee [ex_band 1 10; ex_band 2 20; ex_band 4 38; ex_band 8 39] = Some (f_of_Z 4, false) ∧
  ∃ k lb, findKnee [ex_band 1 10; ex_band 2 20; ex_band 4 38; ex_band 8 39] = Some (k, lb) ∧
    if lb then rising (f_of_Z 10) [ex_band 1 10; ex_band 2 20; ex_band 4 38; ex_band 8 39] ∧
               ∃ b, last [ex_band 1 10; ex_band 2 20; ex_band 4 38; ex_band 8 39] = Some b ∧
                    inflight b = k
    else ∃ pre p b post,
           [ex_band 1 10; ex_band 2 20; ex_band 4 38; ex_band 8 39] = pre ++ p :: b :: post ∧
           inflight p = k ∧ plateau (f_of_Z 10) p b = true ∧ rising (f_of_Z 10) (pre ++ [p]).
Proof.
  split; [vm_compute; reflexivity|].
  exact (find_knee_first_plateau (ex_band 1 10) [ex_band 2 20; ex_band 4 38; ex_band 8 39]
           ltac:(vm_compute; reflexivity)).
Defined.

End Estimator.
