(* ===== verification/Decision.v ===== *)
(** * Scaling decision ([scaling/decision/decision.go])

    [Decide] turns the learned capacity and the live load into the next
    replica count.  [int32] arithmetic wraps; a panic of the estimator is
    [None]. *)
From S2P Require Import Prelude Float64 Samples Estimator K8s Types.
#[local] Open Scope Z_scope.

Module Decision.
Import Samples Estimator.

Inductive Reason : Set :=
  | ReasonMinEqualsMax
  | ReasonCooldownUp
  | ReasonCooldownDown
  | ReasonManualOutRange
  | ReasonScaleUp
  | ReasonScaleDown
  | ReasonSurge
  | ReasonNoChange
  | ReasonDriftToMin
  | ReasonRateLimited.
#[export] Instance Reason_eq_dec : EqDecision Reason.
Proof. solve_decision. Defined.

Record Inputs : Set := mkInputs {
  CurrentReplicas : Z;
  ReadyReplicas : Z;
  InHistory : list Sample;
  Current : Sample;
  Spec : Scale;
  MaxInFlight : Z;
  Now : Time;
  LastScaledAt : Time
}.

Record DecisionT : Set := mkDecision {
  DesiredReplicas : Z;
  DecReason : Reason;
  Skip : bool;
  DecEstimate : Estimate
}.

Definition defaultKneePerReplica : float64 := f_of_Z 20.
Definition confFloor : float64 := f_ratio 3 5.
(** The constant expression [1-confFloor]. *)
Definition confRest : float64 := f_ratio 2 5.
Definition surgeRatio : float64 := f_ratio 3 2.

Definition GetOr (p : option Z) (fallback : Z) : Z := default fallback p.

Definition clamp (v lo hi : Z) : Z := if v <? lo then lo else if hi <? v then hi else v.

Definition lerp (a b t : float64) : float64 :=
  fadd a (fmul (fsub b a) (clampF t fzero fone)).

Definition minMax (s : Scale) : Z * Z :=
  let minR := match Min s with
              | Some m => if DefaultMinReplicas <? m then m else DefaultMinReplicas
              | None => DefaultMinReplicas
              end in
  let maxR := default DefaultMaxReplicas (Max s) in
  (minR, if maxR <? minR then minR else maxR).

Definition targetSaturation (s : Scale) : float64 :=
  let pct := GetOr (TargetSaturationPercentage s) DefaultTargetSaturationPercentage in
  let pct := if pct =? 0 then DefaultTargetSaturationPercentage else pct in
  let pct := if 100 <? pct then 100 else pct in
  fdiv (f_of_Z pct) (f_of_Z 100).

Definition inflightBasis (i : Inputs) : Z :=
  if 0 <? Replicas (Current i) then Replicas (Current i)
  else if 0 <? ReadyReplicas i then ReadyReplicas i
  else CurrentReplicas i.

Definition isSurge (i : Inputs) (target totalInflight : float64) : bool :=
  let capacity := fmul (f_of_Z (CurrentReplicas i)) target in
  flt fzero capacity && fle surgeRatio (fdiv totalInflight capacity).

Definition scalingTarget (i : Inputs) (est : Estimate) : float64 :=
  let knee := lerp defaultKneePerReplica (KneePerReplica est) (Confidence est) in
  let s := targetSaturation (Spec i) in
  let effectiveS :=
    fmul s (fadd confFloor (fmul confRest (clampF (Confidence est) fzero fone))) in
  fmax (fmul knee effectiveS) (f_ratio 1 1000000000).

Definition scaleUp (i : Inputs) (est : Estimate) (desired : Z) (target totalInflight : float64)
    (stepUp : Z) (cooldown sinceLast : Duration) : DecisionT :=
  if (0 <? MaxInFlight i) && fle (f_of_Z (MaxInFlight i)) totalInflight then
    mkDecision (CurrentReplicas i) ReasonRateLimited true est
  else if sinceLast <? cooldown then
    mkDecision (CurrentReplicas i) ReasonCooldownUp true est
  else
    let reason := if isSurge i target totalInflight then ReasonSurge else ReasonScaleUp in
    let diff := Z.min (int32 (desired - CurrentReplicas i)) stepUp in
    mkDecision (int32 (CurrentReplicas i + diff)) reason false est.

Definition scaleDown (i : Inputs) (est : Estimate) (desired stepDown : Z)
    (cooldown sinceLast : Duration) : DecisionT :=
  if sinceLast <? cooldown then
    mkDecision (CurrentReplicas i) ReasonCooldownDown true est
  else
    let diff := Z.min (int32 (CurrentReplicas i - desired)) stepDown in
    mkDecision (int32 (CurrentReplicas i - diff)) ReasonScaleDown false est.

Definition scaleUpCooldown (s : Scale) : Duration :=
  int64 (GetOr (ScaleUpCooldownSeconds s) DefaultScaleUpCooldownSeconds * second).
Definition scaleDownCooldown (s : Scale) : Duration :=
  int64 (GetOr (ScaleDownCooldownSeconds s) DefaultScaleDownCooldownSeconds * second).
Definition stepUp (s : Scale) : Z := int32 (GetOr (ReplicasPerScaleUp s) DefaultReplicasPerScaleUp).
Definition stepDown (s : Scale) : Z :=
  int32 (GetOr (ReplicasPerScaleDown s) DefaultReplicasPerScaleDown).
Definition sinceLast (i : Inputs) : Duration := time_sub (Now i) (LastScaledAt i).
Definition totalInflight (i : Inputs) : float64 :=
  fmul (InflightPerRep (Current i)) (f_of_Z (inflightBasis i)).

Section decide.
Context `{GoSort} (Exp : float64 → float64) (oob : float64 → Z).

Definition Decide (i : Inputs) : option DecisionT :=
  let '(minR, maxR) := minMax (Spec i) in
  if minR =? maxR then
    Some (mkDecision minR ReasonMinEqualsMax (CurrentReplicas i =? minR) zero_estimate)
  else if (CurrentReplicas i <? minR) || (maxR <? CurrentReplicas i) then
    Some (mkDecision (clamp (CurrentReplicas i) minR maxR) ReasonManualOutRange false zero_estimate)
  else if fle (totalInflight i) fzero then
    if CurrentReplicas i <=? minR then
      Some (mkDecision (CurrentReplicas i) ReasonNoChange true zero_estimate)
    else if sinceLast i <? scaleDownCooldown (Spec i) then
      Some (mkDecision (CurrentReplicas i) ReasonCooldownDown true zero_estimate)
    else
      Some (mkDecision (Z.max (int32 (CurrentReplicas i - stepDown (Spec i))) minR)
              ReasonDriftToMin false zero_estimate)
  else
    est ← EstimateKnee Exp oob (InHistory i) (Now i);
    let target := scalingTarget i est in
    let desired :=
      clamp (f_to_int 32 oob (fceil (fdiv (totalInflight i) target))) minR maxR in
    if desired =? CurrentReplicas i then
      Some (mkDecision desired ReasonNoChange true est)
    else if CurrentReplicas i <? desired then
      Some (scaleUp i est desired target (totalInflight i) (stepUp (Spec i))
              (scaleUpCooldown (Spec i)) (sinceLast i))
    else
      Some (scaleDown i est desired (stepDown (Spec i)) (scaleDownCooldown (Spec i)) (sinceLast i)).
End decide.

(** ** Bounds *)

(** Inputs as the API server admits them: [int32]/[uint32] fields hold values
    of their type, and the per-step caps are representable as [int32]. *)
Definition scale_wf (s : Scale) : Prop :=
  (∀ m, Min s = Some m → in_s 32 m) ∧ (∀ m, Max s = Some m → in_s 32 m) ∧
  (∀ n, ReplicasPerScaleUp s = Some n → 0 <= n < 2 ^ 31) ∧
  (∀ n, ReplicasPerScaleDown s = Some n → 0 <= n < 2 ^ 31).

Lemma minMax_spec s lo hi : scale_wf s → minMax s = (lo, hi) → 1 <= lo <= hi ∧ hi < 2 ^ 31.
Proof.
  intros (Hmin & Hmax & _). unfold minMax, DefaultMinReplicas, DefaultMaxReplicas.
  destruct (Min s) as [m|]; [specialize (Hmin m eq_refl)|];
    (destruct (Max s) as [x|]; [specialize (Hmax x eq_refl)|]); unfold in_s in *; cbn in *;
    intros [= <- <-]; repeat case_match; zbool; lia.
Qed.

Lemma step_range s : scale_wf s → 0 <= stepUp s < 2 ^ 31 ∧ 0 <= stepDown s < 2 ^ 31.
Proof.
  intros (_ & _ & Hu & Hd). unfold stepUp, stepDown, GetOr.
  split; [destruct (ReplicasPerScaleUp s) as [n|]; [specialize (Hu n eq_refl)|]|
          destruct (ReplicasPerScaleDown s) as [n|]; [specialize (Hd n eq_refl)|]];
    cbn [default from_option]; unfold id; rewrite ?wrap_s_small; try in_range; vm_compute; done.
Qed.

Lemma clamp_range v lo hi : lo <= hi → lo <= clamp v lo hi <= hi.
Proof. intros. unfold clamp. repeat case_match; zbool; lia. Qed.

(** What every decision taken from inside the range satisfies. *)
Definition rate_limited (i : Inputs) : bool :=
  (0 <? MaxInFlight i) && fle (f_of_Z (MaxInFlight i)) (totalInflight i).

Record bounded_move (i : Inputs) (lo hi : Z) (d : DecisionT) : Prop := {
  bm_range : lo <= DesiredReplicas d <= hi;
  bm_step : CurrentReplicas i - stepDown (Spec i) <= DesiredReplicas d
              <= CurrentReplicas i + stepUp (Spec i);
  bm_up : CurrentReplicas i < DesiredReplicas d →
            scaleUpCooldown (Spec i) <= sinceLast i ∧ rate_limited i = false;
  bm_down : DesiredReplicas d < CurrentReplicas i → scaleDownCooldown (Spec i) <= sinceLast i;
  bm_skip : Skip d = true → DesiredReplicas d = CurrentReplicas i
}.

Section moves.
Context (i : Inputs) (lo hi : Z).
Context (Hlo : 1 <= lo) (Hhi : hi < 2 ^ 31) (Hcur : lo <= CurrentReplicas i <= hi).
Context (Hup : 0 <= stepUp (Spec i) < 2 ^ 31) (Hdown : 0 <= stepDown (Spec i) < 2 ^ 31).
#[local] Set Default Proof Using "All".

Lemma stay_bounded reason skip est :
  bounded_move i lo hi (mkDecision (CurrentReplicas i) reason skip est).
Proof. split; cbn; lia. Qed.

Lemma scaleUp_bounded est desired target :
  CurrentReplicas i < desired <= hi →
  bounded_move i lo hi (scaleUp i est desired target (totalInflight i) (stepUp (Spec i))
                          (scaleUpCooldown (Spec i)) (sinceLast i)).
Proof.
  intros Hd. unfold scaleUp. fold (rate_limited i).
  destruct (rate_limited i) eqn:Hr; [apply stay_bounded|].
  case_match; [apply stay_bounded|]. zbool.
  rewrite (wrap_s_small 32 (desired - _)) by in_range.
  rewrite wrap_s_small by in_range. split; cbn [DesiredReplicas Skip]; try lia. done.
Qed.

Lemma scaleDown_bounded est desired :
  lo <= desired < CurrentReplicas i →
  bounded_move i lo hi (scaleDown i est desired (stepDown (Spec i))
                          (scaleDownCooldown (Spec i)) (sinceLast i)).
Proof.
  intros Hd. unfold scaleDown. case_match; [apply stay_bounded|]. zbool.
  rewrite (wrap_s_small 32 (_ - desired)) by in_range.
  rewrite wrap_s_small by in_range. split; cbn [DesiredReplicas Skip]; try lia; done.
Qed.

Lemma drift_bounded :
  scaleDownCooldown (Spec i) <= sinceLast i →
  bounded_move i lo hi
    (mkDecision (Z.max (int32 (CurrentReplicas i - stepDown (Spec i))) lo)
       ReasonDriftToMin false zero_estimate).
Proof.
  intros Hc. rewrite wrap_s_small by in_range.
  split; cbn [DesiredReplicas Skip]; try lia; done.
Qed.
End moves.

Section theorems.
Context `{GoSort} (Exp : float64 → float64) (oob : float64 → Z).

Lemma Decide_in_range i lo hi d :
  scale_wf (Spec i) → minMax (Spec i) = (lo, hi) → lo <> hi →
  lo <= CurrentReplicas i <= hi → Decide Exp oob i = Some d → bounded_move i lo hi d.
Proof.
  intros Hwf HM Hne Hcur. destruct (minMax_spec _ _ _ Hwf HM) as [Hlo Hhi].
  destruct (step_range _ Hwf) as [Hu Hd]. unfold Decide. rewrite HM.
  rewrite (proj2 (Z.eqb_neq _ _)) by done.
  rewrite (proj2 (Z.ltb_ge _ _)), (proj2 (Z.ltb_ge hi _)) by lia. cbn [orb].
  destruct (fle (totalInflight i) fzero).
  { case_match; [intros [= <-]; apply stay_bounded; lia|].
    case_match; [intros [= <-]; apply stay_bounded; lia|].
    intros [= <-]. zbool. apply drift_bounded; lia. }
  destruct (EstimateKnee Exp oob (InHistory i) (Now i)) as [est|]; [|done].
  cbn [mbind option_bind].
  set (v := f_to_int 32 oob _). pose proof (clamp_range v lo hi ltac:(lia)) as Hv.
  case_match eqn:E1; zbool.
  { intros [= <-]. rewrite E1. apply stay_bounded; lia. }
  case_match eqn:E2; zbool; intros [= <-];
    [apply scaleUp_bounded | apply scaleDown_bounded]; lia.
Qed.

Lemma Decide_bounds i d lo hi :
  scale_wf (Spec i) → minMax (Spec i) = (lo, hi) → Decide Exp oob i = Some d →
  lo <= DesiredReplicas d <= hi.
Proof.
  intros Hwf HM HD. destruct (minMax_spec _ _ _ Hwf HM) as [Hlo Hhi].
  destruct (decide (lo = hi)) as [Heq|Hne].
  { revert HD. unfold Decide. rewrite HM, (proj2 (Z.eqb_eq _ _)) by done.
    intros [= <-]. cbn. lia. }
  destruct (decide (lo <= CurrentReplicas i <= hi)) as [Hin|Hout].
  { by apply (Decide_in_range i lo hi d). }
  revert HD. unfold Decide. rewrite HM, (proj2 (Z.eqb_neq _ _)) by done.
  assert ((CurrentReplicas i <? lo) || (hi <? CurrentReplicas i) = true) as ->.
  { apply orb_true_iff. rewrite !Z.ltb_lt. lia. }
  intros [= <-]. cbn. apply clamp_range. lia.
Qed.

(** C6: the autoscaler never asks for a replica count outside the configured
    range: whatever the load, the history and the running count, every
    decision lies in [[min, max]].  The per-step caps replicasPerScaleUp and
    replicasPerScaleDown have to be below [2^31] ([scale_wf]; [min] and [max]
    are any [int32]): a larger cap becomes negative in the conversion to
    [int32], and the code then does leave the range
    ([huge_step_scales_below_min]). *)
Theorem decide_within_min_max i d lo hi :
  scale_wf (Spec i) → minMax (Spec i) = (lo, hi) → Decide Exp oob i = Some d →
  lo <= DesiredReplicas d <= hi.
Proof. apply Decide_bounds. Qed.

(** C8: with per-step caps below [2^31] ([scale_wf]) and a range of
    more than one count, from a running count inside the range one decision
    moves at most [replicasPerScaleUp] up or [replicasPerScaleDown] down; it
    moves up only after the scale-up cooldown and while the load is under the
    rate-limit cap, down only after the scale-down cooldown, and a skipped
    decision keeps the count.  (A range of one count, [min = max], is pinned
    without regard to steps and cooldowns.) *)
Theorem decide_step_and_cooldown i d lo hi :
  scale_wf (Spec i) → minMax (Spec i) = (lo, hi) → lo <> hi →
  lo <= CurrentReplicas i <= hi → Decide Exp oob i = Some d →
  CurrentReplicas i - stepDown (Spec i) <= DesiredReplicas d
    <= CurrentReplicas i + stepUp (Spec i) ∧
  (CurrentReplicas i < DesiredReplicas d →
     scaleUpCooldown (Spec i) <= sinceLast i ∧ rate_limited i = false) ∧
  (DesiredReplicas d < CurrentReplicas i → scaleDownCooldown (Spec i) <= sinceLast i) ∧
  (Skip d = true → DesiredReplicas d = CurrentReplicas i).
Proof.
  intros Hwf HM Hne Hcur HD.
  by destruct (Decide_in_range i lo hi d Hwf HM Hne Hcur HD) as [? ? ? ? ?].
Qed.
End theorems.

(** The per-replica load the controller aims for is never zero or
    negative, whatever the estimate (NaN included) and the saturation lever,
    so the division that sizes the fleet never changes sign. *)
Theorem scaling_target_positive i est : fle (scalingTarget i est) fzero = false.
Proof. unfold scalingTarget. apply fmax_pos. by vm_compute. Qed.

(** ** Idle fleets reach the minimum *)

(** The next tick: the count the last decision asked for is running. *)
Definition next_tick (i : Inputs) (d : DecisionT) (now last : Time) : Inputs :=
  mkInputs (DesiredReplicas d) (ReadyReplicas i) (InHistory i) (Current i) (Spec i)
    (MaxInFlight i) now last.
Definition at_time (i : Inputs) (now last : Time) : Inputs :=
  mkInputs (CurrentReplicas i) (ReadyReplicas i) (InHistory i) (Current i) (Spec i)
    (MaxInFlight i) now last.

Section idle.
Context `{GoSort} (Exp : float64 → float64) (oob : float64 → Z).

(** Decisions at the given (now, last scale) instants, one after another. *)
Fixpoint run_ticks (i : Inputs) (times : list (Time * Time)) : option Z :=
  match times with
  | [] => Some (CurrentReplicas i)
  | (now, last) :: times' =>
      d ← Decide Exp oob (at_time i now last);
      run_ticks (next_tick i d now last) times'
  end.

Lemma idle_decide i lo hi :
  scale_wf (Spec i) → minMax (Spec i) = (lo, hi) → lo <> hi →
  lo <= CurrentReplicas i <= hi → fle (totalInflight i) fzero = true →
  scaleDownCooldown (Spec i) <= sinceLast i →
  ∃ d, Decide Exp oob i = Some d ∧
       DesiredReplicas d = Z.max (CurrentReplicas i - stepDown (Spec i)) lo.
Proof.
  intros Hwf HM Hne Hcur Hidle Hc. destruct (minMax_spec _ _ _ Hwf HM) as [Hlo Hhi].
  destruct (step_range _ Hwf) as [_ Hd]. unfold Decide. rewrite HM.
  rewrite (proj2 (Z.eqb_neq _ _)) by done.
  rewrite (proj2 (Z.ltb_ge _ _)), (proj2 (Z.ltb_ge hi _)) by lia. cbn [orb].
  rewrite Hidle. rewrite (proj2 (Z.ltb_ge (sinceLast i) _)) by done.
  case_match; zbool; eexists; (split; [done|]); cbn [DesiredReplicas]; [lia|].
  by rewrite wrap_s_small by in_range.
Qed.

(** An idle fleet shrinks to the minimum and stays there: after [n]
    ticks that each fall past the scale-down cooldown, the count is exactly
    [max(min, current - n * replicasPerScaleDown)], and no tick panics. *)
Theorem idle_fleet_reaches_min i lo hi times :
  scale_wf (Spec i) → minMax (Spec i) = (lo, hi) → lo <> hi →
  lo <= CurrentReplicas i <= hi → 0 < Replicas (Current i) →
  fle (totalInflight i) fzero = true →
  Forall (λ t, scaleDownCooldown (Spec i) <= time_sub t.1 t.2) times →
  run_ticks i times =
    Some (Z.max (CurrentReplicas i - Z.of_nat (length times) * stepDown (Spec i)) lo).
Proof.
  intros Hwf HM Hne Hcur Hrep Hidle HF. destruct (step_range _ Hwf) as [_ Hd].
  revert i Hwf HM Hcur Hrep Hidle HF Hd. induction times as [|[now last] times IH];
    intros i Hwf HM Hcur Hrep Hidle HF Hd.
  { cbn. f_equal. lia. }
  inversion HF as [|? ? Ht HF']; subst.
  assert (∀ j, Current j = Current i → totalInflight j = totalInflight i) as Hti.
  { intros j Hj. unfold totalInflight, inflightBasis. rewrite Hj.
    by rewrite (proj2 (Z.ltb_lt _ _)). }
  destruct (idle_decide (at_time i now last) lo hi) as (d & HD & Hdes);
    [done..|by rewrite Hti|done|].
  cbn [run_ticks]. rewrite HD. cbn [mbind option_bind].
  cbn in Hdes. rewrite IH; try done.
  - cbn. rewrite Hdes. f_equal. cbn [length]. nia.
  - cbn. rewrite Hdes. lia.
  - by rewrite Hti.
Qed.
End idle.

(** ** Witnesses *)
Definition ex_spec : Scale :=
  mkScale false (Some 2) (Some 8) None None None (Some 3) (Some 2).
Definition ex_inputs (cur : Z) (load : float64) : Inputs :=
  mkInputs cur cur [] (mkSample 0 cur load fone) ex_spec 0 (1000 * second) 0.
Definition ex_exp (x : float64) : float64 := fone.
Definition ex_oob (x : float64) : Z := - 2 ^ 63.

Lemma ex_spec_wf : scale_wf ex_spec.
Proof. split_and!; cbn; intros ? [= <-]; in_range. Qed.

Lemma decide_within_min_max_witness :
  ∃ d, Decide ex_exp ex_oob (ex_inputs 3 (f_of_Z 30)) = Some d ∧ DesiredReplicas d = 6 ∧
       2 <= DesiredReplicas d <= 8.
Proof.
  eexists. split; [vm_compute; reflexivity|]. split; [reflexivity|].
  apply (decide_within_min_max ex_exp ex_oob (ex_inputs 3 (f_of_Z 30)) _ 2 8);
    [exact ex_spec_wf|reflexivity|vm_compute; reflexivity].
Defined.

Lemma decide_step_and_cooldown_witness :
  ∃ d, Decide ex_exp ex_oob (ex_inputs 3 (f_of_Z 30)) = Some d ∧
    3 - 2 <= DesiredReplicas d <= 3 + 3 ∧
    (3 < DesiredReplicas d →
       90 * second <= 1000 * second ∧ rate_limited (ex_inputs 3 (f_of_Z 30)) = false) ∧
    (DesiredReplicas d < 3 → 90 * second <= 1000 * second) ∧
    (Skip d = true → DesiredReplicas d = 3).
Proof.
  eexists. split; [vm_compute; reflexivity|].
  refine (decide_step_and_cooldown ex_exp ex_oob (ex_inputs 3 (f_of_Z 30)) _ 2 8
            ex_spec_wf _ _ _ _); [reflexivity|lia|cbn; lia|vm_compute; reflexivity].
Defined.

Lemma idle_fleet_reaches_min_witness :
  run_ticks ex_exp ex_oob (ex_inputs 7 fzero)
    [(100 * second, 0); (200 * second, 100 * second); (300 * second, 200 * second)] = Some 2.
Proof.
  refine (idle_fleet_reaches_min ex_exp ex_oob (ex_inputs 7 fzero) 2 8 _ ex_spec_wf _ _ _ _ _ _);
    [reflexivity|lia|cbn; lia|cbn; lia|vm_compute; reflexivity|].
  repeat constructor; vm_compute; discriminate.
Defined.

(** A [replicasPerScaleUp] of 2^31 or more, which its [uint32] type admits,
    becomes a negative step: under load the decision leaves the range. *)
Example huge_step_scales_below_min :
  DesiredReplicas <$> Decide ex_exp ex_oob
    (mkInputs 5 5 [] (mkSample 0 5 (f_of_Z 100) fone)
       (mkScale false (Some 2) (Some 50) None None None (Some 3000000000) None) 0 (1000 * second) 0)
  = Some (-1294967291).
Proof. vm_compute. reflexivity. Qed.

End Decision.
