(* ===== verification/Conditions.v ===== *)
(** * Status conditions ([pkg/apis/kynomesh/v1alpha1/status_types.go])

    The list of conditions of a status is a map from condition type to its
    latest observation, kept sorted by type. *)
From S2P Require Import Prelude K8s Types.
#[local] Open Scope Z_scope.

Module Conditions.

Definition ConditionTrue : string := "True".
Definition ConditionFalse : string := "False".
Definition ConditionUnknown : string := "Unknown".

Definition cond_with_time (c : Condition) (t : Time) : Condition :=
  mkCondition (cond_Type c) (cond_Status c) (cond_Reason c) (cond_Message c) t
    (cond_ObservedGeneration c).

(** The loop of [setCondition]: [None] is the early return (the same
    condition is already there); [condition] carries the transition time of
    the entry it replaces. *)
Fixpoint set_loop (condition : Condition) (acc l : list Condition) : option (list Condition) :=
  match l with
  | [] => Some (rev acc)
  | c :: l' =>
      if negb (String.eqb (cond_Type c) (cond_Type condition)) then
        set_loop condition (c :: acc) l'
      else
        let condition := cond_with_time condition (cond_LastTransitionTime c) in
        if bool_decide (condition = c) then None else set_loop condition acc l'
  end.

Definition by_type (a b : Condition) : bool := String.ltb (cond_Type a) (cond_Type b).

Definition setCondition `{GoSort} (now : Time) (cs : list Condition) (condition : Condition)
    : list Condition :=
  match set_loop condition [] cs with
  | None => cs
  | Some conditions => sort_slice by_type (conditions ++ [cond_with_time condition now])
  end.

Definition markTypeStatus `{GoSort} (now : Time) (cs : list Condition)
    (t status reason message : string) : list Condition :=
  setCondition now cs (mkCondition t status reason message zero_time 0).

Definition InitializeConditions `{GoSort} (now : Time) (cs : list Condition) (ts : list string)
    : list Condition :=
  fold_left (λ cs t, setCondition now cs (mkCondition t ConditionUnknown "Unknown" "" zero_time 0)) ts cs.

Definition MarkTrue `{GoSort} (now : Time) (cs : list Condition) (t : string) :=
  markTypeStatus now cs t ConditionTrue "Successful" "Successful".
Definition MarkTrueWithReason `{GoSort} (now : Time) (cs : list Condition) (t reason message : string) :=
  markTypeStatus now cs t ConditionTrue reason message.
Definition MarkFalse `{GoSort} (now : Time) (cs : list Condition) (t reason message : string) :=
  markTypeStatus now cs t ConditionFalse reason message.
Definition MarkUnknown `{GoSort} (now : Time) (cs : list Condition) (t reason message : string) :=
  markTypeStatus now cs t ConditionUnknown reason message.

Fixpoint GetCondition (cs : list Condition) (t : string) : option Condition :=
  match cs with
  | [] => None
  | c :: cs' => if String.eqb (cond_Type c) t then Some c else GetCondition cs' t
  end.

Fixpoint all_true (cs : list Condition) : bool :=
  match cs with
  | [] => true
  | c :: cs' => if negb (String.eqb (cond_Status c) ConditionTrue) then false else all_true cs'
  end.
Definition IsReady (cs : list Condition) : bool :=
  match cs with [] => false | _ => all_true cs end.

(** ** The list is a map *)

Definition unique (cs : list Condition) : Prop := NoDup (map cond_Type cs).

Lemma GetCondition_Some cs t c :
  unique cs → GetCondition cs t = Some c ↔ c ∈ cs ∧ cond_Type c = t.
Proof.
  unfold unique. induction cs as [|d cs IH]; cbn [map GetCondition].
  { intros _. split; [done|]. intros [Hc _]. set_solver. }
  rewrite NoDup_cons. intros [Hn Hu]. destruct (String.eqb_spec (cond_Type d) t) as [<-|Hne].
  - split; [intros [= ->]; set_solver|]. intros [Hc Ht]. apply elem_of_cons in Hc as [->|Hc]; [done|].
    exfalso. apply Hn. rewrite <- Ht. by apply list_elem_of_fmap_2.
  - rewrite IH by done. split; [set_solver|]. intros [Hc Ht].
    apply elem_of_cons in Hc as [->|Hc]; [done|]. done.
Qed.

Lemma GetCondition_in cs t c : GetCondition cs t = Some c → c ∈ cs ∧ cond_Type c = t.
Proof.
  induction cs as [|d cs IH]; cbn [GetCondition]; [done|].
  destruct (String.eqb_spec (cond_Type d) t) as [Ht|]; [intros [= ->]; set_solver|].
  intros [? ?]%IH. set_solver.
Qed.

Lemma GetCondition_None cs t : GetCondition cs t = None ↔ ∀ c, c ∈ cs → cond_Type c ≠ t.
Proof.
  induction cs as [|d cs IH]; cbn [GetCondition]; [set_solver|].
  destruct (String.eqb_spec (cond_Type d) t) as [<-|Hne]; [|set_solver].
  split; [done|]. intros Hc. exfalso. apply (Hc d); set_solver.
Qed.

(** Two lists with the same members read the same. *)
Lemma GetCondition_perm cs cs' t : unique cs → cs ≡ₚ cs' → GetCondition cs t = GetCondition cs' t.
Proof.
  intros Hu HP. assert (unique cs') as Hu' by (unfold unique in *; by rewrite <- HP).
  destruct (GetCondition cs t) as [c|] eqn:E.
  - apply GetCondition_Some in E as [Hc Ht]; [|done]. symmetry.
    apply GetCondition_Some; [done|]. by rewrite <- HP.
  - symmetry. apply GetCondition_None. intros c Hc. rewrite <- HP in Hc.
    by apply (proj1 (GetCondition_None cs t)).
Qed.

Lemma set_loop_Some cond acc l r :
  set_loop cond acc l = Some r →
  r = rev acc ++ filter (λ c, cond_Type c ≠ cond_Type cond) l.
Proof.
  revert cond acc. induction l as [|c l IH]; intros cond acc; cbn [set_loop].
  { intros [= <-]. by rewrite app_nil_r. }
  rewrite filter_cons. destruct (String.eqb_spec (cond_Type c) (cond_Type cond)) as [He|He]; cbn [negb].
  - rewrite decide_False by (intros Hn; by apply Hn). case_match; [done|]. exact (IH (cond_with_time cond _) acc).
  - rewrite decide_True by done. intros ->%IH. cbn [rev]. by rewrite <- app_assoc.
Qed.

Lemma set_loop_None cond acc l :
  unique l → set_loop cond acc l = None ↔ ∃ o, o ∈ l ∧ cond_with_time cond (cond_LastTransitionTime o) = o.
Proof.
  revert cond acc. unfold unique. induction l as [|c l IH]; intros cond acc; cbn [set_loop map].
  { intros _. split; [done|]. intros (o & Ho & _). set_solver. }
  rewrite NoDup_cons. intros [Hn Hu].
  destruct (String.eqb_spec (cond_Type c) (cond_Type cond)) as [He|He]; cbn [negb].
  - case_bool_decide as Hd.
    { split; [|done]. intros _. exists c. split; [set_solver|done]. }
    rewrite IH by done. split.
    + intros (o & Ho & E). exfalso. apply Hn. apply list_elem_of_fmap.
      exists o. split; [|exact Ho]. by rewrite He, <- E.
    + intros (o & [->|Ho]%elem_of_cons & E); [done|]. exfalso. apply Hn.
      apply list_elem_of_fmap. exists o. split; [|done]. by rewrite He, <- E.
  - rewrite IH by done. split; intros (o & Ho & E); exists o; split; try done; [set_solver|].
    apply elem_of_cons in Ho as [->|Ho]; [|done]. exfalso. apply He. by rewrite <- E.
Qed.

Lemma all_true_iff l : all_true l = true ↔ ∀ c, c ∈ l → cond_Status c = ConditionTrue.
Proof.
  induction l as [|c l IH]; cbn [all_true]; [set_solver|].
  destruct (String.eqb_spec (cond_Status c) ConditionTrue) as [E|E]; cbn [negb]; [set_solver|].
  split; [done|]. intros Hc. exfalso. apply E, Hc. set_solver.
Qed.

Section set.
Context `{GoSort} (now : Time).
#[local] Set Default Proof Using "Type*".

Lemma by_type_strict_weak : strict_weak by_type.
Proof. apply (strict_weak_on cond_Type). auto with kyno. Qed.

Lemma unique_filter_snoc cs c t :
  unique cs →
  unique (filter (λ d, cond_Type d ≠ cond_Type c) cs ++ [cond_with_time c t]).
Proof.
  intros Hu. unfold unique in *. rewrite map_app. apply NoDup_app. split_and!.
  - induction cs as [|d cs IH]; [constructor|]. cbn [map] in Hu.
    apply NoDup_cons in Hu as [Hn Hu]. rewrite filter_cons. case_decide; [|by apply IH].
    cbn [map]. apply NoDup_cons. split; [|by apply IH].
    intros (e & E & [_ He]%list_elem_of_filter)%list_elem_of_fmap. apply Hn. rewrite E.
    by apply list_elem_of_fmap_2.
  - intros ty (e & -> & [He _]%list_elem_of_filter)%list_elem_of_fmap.
    cbn. rewrite list_elem_of_singleton. done.
  - apply NoDup_singleton.
Qed.

Definition type_sorted (cs : list Condition) : Prop :=
  StronglySorted (λ a b, by_type b a = false) cs.

Lemma setCondition_sorted cs c : type_sorted cs → type_sorted (setCondition now cs c).
Proof.
  unfold setCondition. case_match; [|done]. intros _.
  apply sort_slice_sorted, by_type_strict_weak.
Qed.

(** The entry [setCondition] leaves for the condition it was given. *)
Definition entry_after (old : option Condition) (c : Condition) : Condition :=
  match old with
  | Some o => if bool_decide (cond_with_time c (cond_LastTransitionTime o) = o) then o
              else cond_with_time c now
  | None => cond_with_time c now
  end.

Lemma entry_after_changed cs c r :
  unique cs → set_loop c [] cs = Some r →
  entry_after (GetCondition cs (cond_Type c)) c = cond_with_time c now.
Proof.
  intros Hu Hl. unfold entry_after. destruct (GetCondition cs (cond_Type c)) as [o|] eqn:Ho; [|done].
  apply GetCondition_Some in Ho as [Ho _]; [|done]. rewrite bool_decide_eq_false_2; [done|].
  intros E. assert (set_loop c [] cs = None) as E' by (apply set_loop_None; eauto). congruence.
Qed.

Lemma setCondition_get cs c t :
  unique cs →
  unique (setCondition now cs c) ∧
  GetCondition (setCondition now cs c) t =
    if String.eqb (cond_Type c) t then Some (entry_after (GetCondition cs (cond_Type c)) c)
    else GetCondition cs t.
Proof.
  intros Hu. unfold setCondition. destruct (set_loop c [] cs) as [r|] eqn:Hl.
  - rewrite (entry_after_changed cs c r) by done. apply set_loop_Some in Hl as ->. cbn [rev app].
    set (l := filter _ cs ++ _).
    assert (unique l) as Hul by (by apply unique_filter_snoc).
    pose proof (sort_slice_perm by_type l) as HP.
    assert (unique (sort_slice by_type l)) as Hus by (unfold unique; by rewrite HP).
    split; [done|]. rewrite (GetCondition_perm _ _ t Hus HP). subst l.
    destruct (String.eqb_spec (cond_Type c) t) as [<-|Hne].
    + apply GetCondition_Some; [done|]. split; [set_solver|done].
    + destruct (GetCondition cs t) as [d|] eqn:Ed.
      * apply GetCondition_Some in Ed as [Hd Ht]; [|done]. apply GetCondition_Some; [done|].
        split; [|done]. apply elem_of_app. left. apply list_elem_of_filter. split; [|done]. congruence.
      * apply GetCondition_None. intros d [[_ Hd]%list_elem_of_filter|Hd]%elem_of_app.
        { by apply (proj1 (GetCondition_None cs t)). }
        apply list_elem_of_singleton in Hd as ->. done.
  - split; [done|]. destruct (String.eqb_spec (cond_Type c) t) as [<-|Hne]; [|done].
    apply set_loop_None in Hl as (o & Ho & E); [|done].
    assert (GetCondition cs (cond_Type c) = Some o) as Hg.
    { apply GetCondition_Some; [done|]. split; [done|]. by rewrite <- E. }
    rewrite Hg. cbn. by rewrite bool_decide_eq_true_2.
Qed.

(** The status under a type, as the marks change it. *)
Definition status_of (cs : list Condition) (t : string) : option string :=
  cond_Status <$> GetCondition cs t.

(** What a condition says: its status, reason and message. *)
Definition verdict : Type := string * string * string.
Definition says (c : Condition) : verdict := (cond_Status c, cond_Reason c, cond_Message c).
Definition said (cs : list Condition) (t : string) : option verdict := says <$> GetCondition cs t.

Lemma status_said cs t : status_of cs t = fst ∘ fst <$> said cs t.
Proof. unfold status_of, said. by destruct (GetCondition cs t). Qed.

Lemma setCondition_said cs c :
  unique cs →
  unique (setCondition now cs c) ∧
  ∀ t, said (setCondition now cs c) t = if String.eqb (cond_Type c) t then Some (says c) else said cs t.
Proof.
  intros Hu. split; [by apply (setCondition_get cs c "")|]. intros t.
  unfold said. rewrite (proj2 (setCondition_get cs c t Hu)).
  destruct (String.eqb (cond_Type c) t); [|done]. cbn. unfold entry_after.
  destruct (GetCondition cs (cond_Type c)) as [o|]; [|done].
  case_bool_decide as E; [|done]. by rewrite <- E.
Qed.

Lemma setCondition_status cs c :
  unique cs →
  unique (setCondition now cs c) ∧
  ∀ t, status_of (setCondition now cs c) t =
    if String.eqb (cond_Type c) t then Some (cond_Status c) else status_of cs t.
Proof.
  intros Hu. destruct (setCondition_said cs c Hu) as [Hu' Hs]. split; [done|]. intros t.
  rewrite !status_said, Hs. by destruct (String.eqb (cond_Type c) t).
Qed.

(** [setCondition] is an update of a map from condition type to
    observation: it keeps one entry per type, replaces the entry of its own
    type and no other, keeps the entry (with its transition time) when
    nothing but the time would change, stamps [now] otherwise, and keeps the
    list sorted by type. *)
Theorem set_condition_is_map_update cs c :
  unique cs →
  unique (setCondition now cs c) ∧
  (∀ t, t ≠ cond_Type c → GetCondition (setCondition now cs c) t = GetCondition cs t) ∧
  GetCondition (setCondition now cs c) (cond_Type c) =
    Some (entry_after (GetCondition cs (cond_Type c)) c) ∧
  (type_sorted cs → type_sorted (setCondition now cs c)).
Proof.
  intros Hu. split_and!; [| | |apply setCondition_sorted].
  - by apply (setCondition_get cs c "").
  - intros t Ht. rewrite (proj2 (setCondition_get cs c t Hu)).
    by rewrite (proj2 (String.eqb_neq _ _)).
  - rewrite (proj2 (setCondition_get cs c (cond_Type c) Hu)). by rewrite String.eqb_refl.
Qed.
End set.

(** A status whose conditions are all of the listed types is ready exactly
    when each of them reads True. *)
Lemma IsReady_status cs (ts : list string) :
  ts ≠ [] → unique cs → (∀ t, is_Some (GetCondition cs t) ↔ t ∈ ts) →
  IsReady cs = true ↔ ∀ t, t ∈ ts → status_of cs t = Some ConditionTrue.
Proof.
  intros Hts Hu Hdom. assert (cs ≠ []) as Hne.
  { intros ->. destruct ts as [|t ts]; [done|]. destruct (proj2 (Hdom t)) as [? [=]]. set_solver. }
  transitivity (∀ c, c ∈ cs → cond_Status c = ConditionTrue).
  { destruct cs as [|c cs]; [done|]. change (IsReady (c :: cs)) with (all_true (c :: cs)).
    apply all_true_iff. }
  split.
  - intros Hall t Ht. apply Hdom in Ht as [c Hc]. unfold status_of. rewrite Hc. cbn. f_equal.
    apply Hall. by apply GetCondition_Some in Hc as [? _].
  - intros Hall c Hc. assert (GetCondition cs (cond_Type c) = Some c) as Hg by (by apply GetCondition_Some).
    specialize (Hall (cond_Type c)). unfold status_of in Hall. rewrite Hg in Hall. cbn in Hall.
    assert (cond_Type c ∈ ts) as Ht by (apply Hdom; by rewrite Hg). by specialize (Hall Ht) as [= ->].
Qed.

Lemma set_condition_is_map_update_witness :
  let cs := [mkCondition "Deployed" "True" "r" "m" 5 0] in
  let c := mkCondition "Deployed" "False" "x" "y" zero_time 0 in
  unique (setCondition 9 cs c) ∧
  (∀ t, t ≠ "Deployed"%string → GetCondition (setCondition 9 cs c) t = GetCondition cs t) ∧
  GetCondition (setCondition 9 cs c) "Deployed" = Some (mkCondition "Deployed" "False" "x" "y" 9 0) ∧
  (type_sorted cs → type_sorted (setCondition 9 cs c)).
Proof.
  intros cs c. refine (set_condition_is_map_update 9 cs c _). apply NoDup_singleton.
Defined.

(** A status is ready exactly when it has conditions and every one
    of them is True. *)
Theorem is_ready_iff cs :
  IsReady cs = true ↔ cs ≠ [] ∧ ∀ c, c ∈ cs → cond_Status c = ConditionTrue.
Proof.
  destruct cs as [|c cs]; [cbn; split; [done|by intros []]|].
  change (IsReady (c :: cs)) with (all_true (c :: cs)). rewrite all_true_iff. naive_solver.
Qed.

(** Re-initialising a condition and then marking it True, which every
    reconcile pass does, always stamps a new transition time: even a condition
    that was True and stays True reads as having just changed. *)
Theorem initialize_then_mark_restamps `{GoSort} now1 now2 cs t :
  unique cs →
  GetCondition (MarkTrue now2 (InitializeConditions now1 cs [t]) t) t =
    Some (mkCondition t ConditionTrue "Successful" "Successful" now2 0).
Proof.
  intros Hu. unfold MarkTrue, markTypeStatus, InitializeConditions. cbn [fold_left].
  set (u := mkCondition t ConditionUnknown "Unknown" "" zero_time 0).
  set (m := mkCondition t ConditionTrue "Successful" "Successful" zero_time 0).
  destruct (setCondition_status now1 cs u Hu) as [Hu1 Hs1].
  rewrite (proj2 (setCondition_get now2 _ m t Hu1)). subst m. cbn [cond_Type].
  rewrite String.eqb_refl. f_equal. unfold entry_after. specialize (Hs1 t). cbn [cond_Type u] in Hs1.
  rewrite String.eqb_refl in Hs1. unfold status_of in Hs1.
  destruct (GetCondition _ t) as [o|]; [|done]. injection Hs1 as Hs1.
  case_bool_decide as E; [|done]. rewrite <- E in Hs1. discriminate.
Qed.

End Conditions.
