(* ===== verification/Topology.v ===== *)
(** * Routing topology ([pkg/apis/kynomesh/v1alpha1/topology.go])

    The peers an agent may discover, derived from the AgentSet's pattern. *)
From S2P Require Import Prelude K8s Types.
#[local] Open Scope Z_scope.

Module Topo.

Fixpoint managed_peers (agents : list AbstractAgentDeploy) (self : string) : list Peer :=
  match agents with
  | [] => []
  | a :: rest =>
      if String.eqb (ag_Name a) self then managed_peers rest self
      else mkPeer (ag_Name a) PeerKindManaged "" :: managed_peers rest self
  end.
Definition external_peer (e : ExternalAgentRef) : Peer :=
  mkPeer (ext_Name e) PeerKindExternal (ext_URL e).

(** The output slice is allocated with capacity [len(agents)-1+len(externals)]:
    a negative capacity panics ([None]). *)
Definition peersExcluding (agents : list AbstractAgentDeploy) (externalAgents : list ExternalAgentRef)
    (self : string) : option (list Peer) :=
  if Z.of_nat (length agents) - 1 + Z.of_nat (length externalAgents) <? 0 then None
  else Some (managed_peers agents self ++ map external_peer externalAgents).

Fixpoint nextAgent (agents : list AbstractAgentDeploy) (externalAgents : list ExternalAgentRef)
    (self : string) : option Peer :=
  match agents with
  | [] => None
  | a :: rest =>
      if negb (String.eqb (ag_Name a) self) then nextAgent rest externalAgents self
      else match rest with
           | b :: _ => Some (mkPeer (ag_Name b) PeerKindManaged "")
           | [] => match externalAgents with
                   | e :: _ => Some (external_peer e)
                   | [] => None
                   end
           end
  end.

Definition ComputeTopology (s : option AgentSet) (agentName : string) : option Topology :=
  match s with
  | None => Some zero_topology
  | Some s =>
      let spec := as_Spec s in
      let isEntry := String.eqb agentName (as_Entry spec) in
      let topo peers := mkTopology (as_Pattern spec) isEntry peers in
      if String.eqb (as_Pattern spec) AgentPatternHandoff then
        topo <$> peersExcluding (as_Agents spec) (as_ExternalAgents spec) agentName
      else if String.eqb (as_Pattern spec) AgentPatternSupervisor then
        if isEntry then topo <$> peersExcluding (as_Agents spec) (as_ExternalAgents spec) agentName
        else Some (topo [])
      else if String.eqb (as_Pattern spec) AgentPatternSequential then
        Some (topo (option_list (nextAgent (as_Agents spec) (as_ExternalAgents spec) agentName)))
      else Some (topo [])
  end.

(** ** Who sees whom *)

Lemma managed_peers_elem agents self p :
  p ∈ managed_peers agents self ↔
  peer_Kind p = PeerKindManaged ∧ peer_URL p = ""%string ∧ peer_Name p ≠ self ∧
  peer_Name p ∈ map ag_Name agents.
Proof.
  induction agents as [|a agents IH]; cbn [managed_peers map].
  { split; [set_solver|]. intros (_ & _ & _ & Hp). set_solver. }
  destruct (String.eqb_spec (ag_Name a) self) as [He|He].
  - rewrite IH, elem_of_cons. split; [naive_solver|]. intros (? & ? & Hne & [Hp|Hp]); [|done].
    rewrite He in Hp. done.
  - rewrite elem_of_cons, IH, elem_of_cons. split.
    + intros [->|?]; [cbn; naive_solver|naive_solver].
    + intros (Hk & Hu & Hne & [Hp|Hp]); [left|by right; naive_solver].
      destruct p; cbn in *; by subst.
Qed.

Lemma external_peer_elem es p :
  p ∈ map external_peer es ↔
  peer_Kind p = PeerKindExternal ∧ mkExternalAgentRef (peer_Name p) (peer_URL p) ∈ es.
Proof.
  rewrite list_elem_of_fmap. split.
  - intros (e & -> & He). cbn. split; [done|]. by destruct e.
  - intros (Hk & He). eexists. split; [|exact He]. destruct p; cbn in *; by subst.
Qed.

(** An agent sees every other managed agent and every external agent. *)
Definition sees_all (s : AgentSet) (self : string) (peers : list Peer) : Prop :=
  ∀ p, p ∈ peers ↔
    (peer_Kind p = PeerKindManaged ∧ peer_URL p = ""%string ∧ peer_Name p ≠ self ∧
       peer_Name p ∈ map ag_Name (as_Agents (as_Spec s))) ∨
    (peer_Kind p = PeerKindExternal ∧
       mkExternalAgentRef (peer_Name p) (peer_URL p) ∈ as_ExternalAgents (as_Spec s)).

Lemma peersExcluding_sees_all s self :
  as_Agents (as_Spec s) ≠ [] →
  ∃ peers, peersExcluding (as_Agents (as_Spec s)) (as_ExternalAgents (as_Spec s)) self = Some peers ∧
    sees_all s self peers.
Proof.
  intros Hne. unfold peersExcluding. rewrite (proj2 (Z.ltb_ge _ _)).
  - eexists. split; [done|]. intros p. rewrite elem_of_app, managed_peers_elem, external_peer_elem. done.
  - destruct (as_Agents (as_Spec s)); [done|]. cbn [length]. lia.
Qed.

Lemma ComputeTopology_total s a : as_Agents (as_Spec s) ≠ [] → is_Some (ComputeTopology (Some s) a).
Proof.
  intros Hne. unfold ComputeTopology. destruct (peersExcluding_sees_all s a Hne) as (peers & -> & _).
  repeat case_match; eauto.
Qed.

(** On an AgentSet with agents, the topology is always computed and
    wires the agents as the pattern documents: Handoff lets every agent see
    every other one, Supervisor only the entry, and no agent is its own
    managed peer; external agents are visible exactly to the agents that see
    the others. *)
Theorem topology_visibility s self :
  as_Agents (as_Spec s) ≠ [] →
  ∃ t, ComputeTopology (Some s) self = Some t ∧
    tp_Pattern t = as_Pattern (as_Spec s) ∧
    tp_IsEntry t = String.eqb self (as_Entry (as_Spec s)) ∧
    (as_Pattern (as_Spec s) = AgentPatternHandoff → sees_all s self (tp_Peers t)) ∧
    (as_Pattern (as_Spec s) = AgentPatternSupervisor →
       if tp_IsEntry t then sees_all s self (tp_Peers t) else tp_Peers t = []) ∧
    (as_Pattern (as_Spec s) = AgentPatternSequential → (length (tp_Peers t) <= 1)%nat).
Proof.
  intros Hne. destruct (peersExcluding_sees_all s self Hne) as (peers & HP & Hsees).
  unfold ComputeTopology. rewrite HP. cbn [fmap option_fmap option_map].
  destruct (String.eqb_spec (as_Pattern (as_Spec s)) AgentPatternHandoff) as [Eh|Eh].
  { eexists. split; [done|]. rewrite Eh. by split_and!. }
  destruct (String.eqb_spec (as_Pattern (as_Spec s)) AgentPatternSupervisor) as [Es|Es].
  { destruct (String.eqb self (as_Entry (as_Spec s))) eqn:Ee;
      eexists; (split; [done|]); cbn; rewrite Es; by split_and!. }
  destruct (String.eqb_spec (as_Pattern (as_Spec s)) AgentPatternSequential) as [Eq|Eq].
  { eexists. split; [done|]. cbn. split_and!; try done. intros _. destruct (nextAgent _ _ _); cbn; lia. }
  eexists. split; [done|]. by split_and!.
Qed.

Definition ex_set (pattern entry : string) (names : list string) (exts : list ExternalAgentRef)
    : AgentSet :=
  mkAgentSet (new_meta "ns" "set" ∅ ∅ [])
    (mkAgentSetSpec pattern entry (map named_agent names) None exts None) zero_set_status.

Lemma topology_visibility_witness :
  ∃ t, ComputeTopology (Some (ex_set "Handoff" "a" ["a"; "b"; "c"]%string [])) "b" = Some t ∧
       tp_Peers t = [mkPeer "a" PeerKindManaged ""; mkPeer "c" PeerKindManaged ""] ∧
       sees_all (ex_set "Handoff" "a" ["a"; "b"; "c"]%string []) "b" (tp_Peers t).
Proof.
  destruct (topology_visibility (ex_set "Handoff" "a" ["a"; "b"; "c"]%string []) "b")
    as (t & Ht & _ & _ & Hh & _); [done|].
  exists t. split; [exact Ht|]. split; [|by apply Hh].
  vm_compute in Ht. by injection Ht as <-.
Defined.

(** ** The sequential pattern is one chain *)

(** Follow the single peer of each agent, at most [fuel] hops. *)
Fixpoint follow (fuel : nat) (s : AgentSet) (self : string) : list string :=
  self :: match fuel with
          | O => []
          | S f =>
              match ComputeTopology (Some s) self with
              | Some t =>
                  match tp_Peers t with
                  | [p] => if bool_decide (peer_Kind p = PeerKindManaged)
                           then follow f s (peer_Name p) else [peer_Name p]
                  | _ => []
                  end
              | None => []
              end
          end.

Lemma nextAgent_skip pre a rest es :
  NoDup (map ag_Name (pre ++ a :: rest)) →
  nextAgent (pre ++ a :: rest) es (ag_Name a) =
    match rest with
    | b :: _ => Some (mkPeer (ag_Name b) PeerKindManaged "")
    | [] => external_peer <$> head es
    end.
Proof.
  induction pre as [|x pre IH]; cbn [app map nextAgent].
  { rewrite String.eqb_refl. cbn [negb]. by destruct rest, es. }
  rewrite NoDup_cons. intros [Hn Hu]. rewrite (proj2 (String.eqb_neq _ _)).
  - cbn [negb]. by apply IH.
  - intros E. apply Hn. rewrite E. apply list_elem_of_fmap_2. set_solver.
Qed.

Lemma follow_sequential f s pre a rest :
  as_Pattern (as_Spec s) = AgentPatternSequential →
  as_Agents (as_Spec s) = pre ++ a :: rest → NoDup (map ag_Name (pre ++ a :: rest)) →
  follow (S f) s (ag_Name a) =
    ag_Name a :: match rest with
                 | b :: _ => follow f s (ag_Name b)
                 | [] => option_list (ext_Name <$> head (as_ExternalAgents (as_Spec s)))
                 end.
Proof.
  intros Hp Ha Hu. change (follow (S f) s (ag_Name a)) with
    (ag_Name a :: match ComputeTopology (Some s) (ag_Name a) with
              | Some t =>
                  match tp_Peers t with
                  | [p] => if bool_decide (peer_Kind p = PeerKindManaged)
                           then follow f s (peer_Name p) else [peer_Name p]
                  | _ => []
                  end
              | None => []
              end).
  f_equal. unfold ComputeTopology. rewrite Hp, Ha.
  change (String.eqb AgentPatternSequential AgentPatternHandoff) with false.
  change (String.eqb AgentPatternSequential AgentPatternSupervisor) with false.
  rewrite String.eqb_refl, nextAgent_skip by done. destruct rest as [|b rest]; [|done].
  by destruct (head (as_ExternalAgents (as_Spec s))).
Qed.

Lemma follow_from s pre a rest :
  as_Pattern (as_Spec s) = AgentPatternSequential →
  as_Agents (as_Spec s) = pre ++ a :: rest → NoDup (map ag_Name (pre ++ a :: rest)) →
  follow (S (length rest)) s (ag_Name a) =
    map ag_Name (a :: rest) ++ option_list (ext_Name <$> head (as_ExternalAgents (as_Spec s))).
Proof.
  intros Hp. revert pre a. induction rest as [|b rest IH]; intros pre a Ha Hu;
    rewrite (follow_sequential _ s pre a _ Hp Ha Hu); [done|].
  cbn [map app]. f_equal. apply (IH (pre ++ [a])); rewrite <- app_assoc; done.
Qed.

(** In a Sequential AgentSet whose agents have distinct names and
    whose entry is the first one, following each agent's only peer from the
    entry visits every agent exactly once, in declaration order, and ends at
    the external agent when one is configured. *)
Theorem sequential_chain_visits_all s a0 rest :
  as_Pattern (as_Spec s) = AgentPatternSequential →
  as_Agents (as_Spec s) = a0 :: rest → as_Entry (as_Spec s) = ag_Name a0 →
  NoDup (map ag_Name (a0 :: rest)) →
  follow (length (as_Agents (as_Spec s))) s (as_Entry (as_Spec s)) =
    map ag_Name (as_Agents (as_Spec s)) ++
    option_list (ext_Name <$> head (as_ExternalAgents (as_Spec s))).
Proof. intros Hp Ha He Hu. rewrite He, Ha. by apply (follow_from s []). Qed.

Lemma sequential_chain_visits_all_witness :
  follow 3 (ex_set "Sequential" "a" ["a"; "b"; "c"]%string [mkExternalAgentRef "x" "http://x"]) "a"
  = ["a"; "b"; "c"; "x"]%string.
Proof.
  refine (sequential_chain_visits_all
    (ex_set "Sequential" "a" ["a"; "b"; "c"]%string [mkExternalAgentRef "x" "http://x"])
    (named_agent "a") [named_agent "b"; named_agent "c"] _ _ _ _); try reflexivity.
  apply (bool_decide_unpack _). vm_compute. exact I.
Defined.

End Topo.
