(* ===== verification/Validator.v ===== *)
(** * AgentSet validation ([pkg/reconciler/validator/agentset.go])

    [ValidateAgentSet] returns the first violation it meets.  The DNS-1035
    test of apimachinery and [url.Parse] (its scheme and host) are
    parameters. *)
From S2P Require Import Prelude K8s Types.
#[local] Open Scope Z_scope.

Module Validator.

Definition MaxChildAgentDeployNameLen : Z := 50.

(** The reserved agent names: the suffixes of the entry service and of the
    daemon. *)
Definition reservedAgentNames : gmap string string :=
  <[EntryServiceSuffix := "AgentSet entry service"%string]>
    (<[DaemonSuffix := "AgentSet daemon service"%string]> ∅).

Inductive ValidationError : Set :=
  | InvalidSetName (n : string)
  | NoAgents
  | EmptyAgentName
  | InvalidAgentName (n : string)
  | ReservedAgentName (n : string)
  | DuplicateAgentName (n : string)
  | NameTooLong (n : string)
  | BadSaturation (n : string) (pct : Z)
  | EmptyURL (n : string)
  | RelativeURL (n url : string)
  | EntryIsExternal (n : string)
  | UnknownEntry (n : string)
  | TooFewAgents (pattern : string) (n : Z)
  | EntryNotFirst (first entry : string)
  | TooManyExternal (n : Z)
  | UnsupportedPattern (p : string).

Section validator.
Context (IsDNS1035Label : string → bool) (url_Parse : string → option (string * string)).

Definition validate_agent (s : AgentSet) (seen : gset string) (a : AbstractAgentDeploy)
    : result ValidationError (gset string) :=
  let n := ag_Name a in
  if String.eqb n "" then Err EmptyAgentName
  else if negb (IsDNS1035Label n) then Err (InvalidAgentName n)
  else if bool_decide (is_Some (reservedAgentNames !! n)) then Err (ReservedAgentName n)
  else if bool_decide (n ∈ seen) then Err (DuplicateAgentName n)
  else if MaxChildAgentDeployNameLen <? Z.of_nat (String.length (ChildAgentDeployName s n)) then
    Err (NameTooLong (ChildAgentDeployName s n))
  else match TargetSaturationPercentage (ag_Scale a) with
       | Some p => if 100 <? p then Err (BadSaturation n p) else Ok ({[n]} ∪ seen)
       | None => Ok ({[n]} ∪ seen)
       end.

Definition absolute_url (u : string) : bool :=
  match url_Parse u with
  | Some (scheme, host) => negb (String.eqb scheme "") && negb (String.eqb host "")
  | None => false
  end.

Definition validate_external (seen : gset string) (e : ExternalAgentRef)
    : result ValidationError (gset string) :=
  let n := ext_Name e in
  if String.eqb n "" then Err EmptyAgentName
  else if negb (IsDNS1035Label n) then Err (InvalidAgentName n)
  else if bool_decide (is_Some (reservedAgentNames !! n)) then Err (ReservedAgentName n)
  else if bool_decide (n ∈ seen) then Err (DuplicateAgentName n)
  else if String.eqb (ext_URL e) "" then Err (EmptyURL n)
  else if negb (absolute_url (ext_URL e)) then Err (RelativeURL n (ext_URL e))
  else Ok ({[n]} ∪ seen).

(** A [for range] loop whose body may return an error. *)
Fixpoint each {A} (f : gset string → A → result ValidationError (gset string))
    (seen : gset string) (l : list A) : result ValidationError (gset string) :=
  match l with
  | [] => Ok seen
  | x :: l' => result_bind (f seen x) (λ seen', each f seen' l')
  end.

Definition validate_pattern (spec : AgentSetSpec) : result ValidationError unit :=
  let n := Z.of_nat (length (as_Agents spec)) in
  let p := as_Pattern spec in
  if String.eqb p AgentPatternSupervisor then Ok tt
  else if String.eqb p AgentPatternHandoff then
    if n <? 2 then Err (TooFewAgents p n) else Ok tt
  else if String.eqb p AgentPatternSequential then
    if n <? 2 then Err (TooFewAgents p n)
    else
      let first := match as_Agents spec with a :: _ => ag_Name a | [] => ""%string end in
      if negb (String.eqb (as_Entry spec) first) then Err (EntryNotFirst first (as_Entry spec))
      else if 1 <? Z.of_nat (length (as_ExternalAgents spec)) then
        Err (TooManyExternal (Z.of_nat (length (as_ExternalAgents spec))))
      else Ok tt
  else Err (UnsupportedPattern p).

Definition ValidateAgentSet (s : AgentSet) : result ValidationError unit :=
  let spec := as_Spec s in
  if negb (IsDNS1035Label (as_Name s)) then Err (InvalidSetName (as_Name s))
  else if bool_decide (as_Agents spec = []) then Err NoAgents
  else
    result_bind (each (validate_agent s) ∅ (as_Agents spec)) (λ seen,
    result_bind (each validate_external seen (as_ExternalAgents spec)) (λ seen,
    if existsb (λ e, String.eqb (ext_Name e) (as_Entry spec)) (as_ExternalAgents spec) then
      Err (EntryIsExternal (as_Entry spec))
    else if negb (bool_decide (as_Entry spec ∈ seen)) then Err (UnknownEntry (as_Entry spec))
    else validate_pattern spec)).

(** ** Declarative specification *)
Definition name_ok (n : string) : Prop :=
  n ≠ ""%string ∧ IsDNS1035Label n = true ∧ n ≠ EntryServiceSuffix ∧ n ≠ DaemonSuffix.
Definition agent_ok (s : AgentSet) (a : AbstractAgentDeploy) : Prop :=
  name_ok (ag_Name a) ∧
  Z.of_nat (String.length (ChildAgentDeployName s (ag_Name a))) <= MaxChildAgentDeployNameLen ∧
  (∀ p, TargetSaturationPercentage (ag_Scale a) = Some p → p <= 100).
Definition external_ok (e : ExternalAgentRef) : Prop :=
  name_ok (ext_Name e) ∧ ext_URL e ≠ ""%string ∧ absolute_url (ext_URL e) = true.
Definition pattern_ok (spec : AgentSetSpec) : Prop :=
  as_Pattern spec = AgentPatternSupervisor ∨
  (as_Pattern spec = AgentPatternHandoff ∧ (2 <= length (as_Agents spec))%nat) ∨
  (as_Pattern spec = AgentPatternSequential ∧ (2 <= length (as_Agents spec))%nat ∧
   head (map ag_Name (as_Agents spec)) = Some (as_Entry spec) ∧
   (length (as_ExternalAgents spec) <= 1)%nat).

(** A well-formed AgentSet. *)
Record well_formed (s : AgentSet) : Prop := {
  wf_name : IsDNS1035Label (as_Name s) = true;
  wf_agents : Forall (agent_ok s) (as_Agents (as_Spec s));
  wf_externals : Forall external_ok (as_ExternalAgents (as_Spec s));
  wf_nodup : NoDup (map ag_Name (as_Agents (as_Spec s)) ++
                    map ext_Name (as_ExternalAgents (as_Spec s)));
  wf_entry : as_Entry (as_Spec s) ∈ map ag_Name (as_Agents (as_Spec s));
  wf_pattern : pattern_ok (as_Spec s)
}.

#[local] Set Default Proof Using "All".
#[local] Instance child_name_inj s : Inj (=) (=) (ChildAgentDeployName s).
Proof. intros a b H. by do 2 apply (inj (String.append _)) in H. Qed.

Lemma reserved_iff n :
  is_Some (reservedAgentNames !! n) ↔ n = EntryServiceSuffix ∨ n = DaemonSuffix.
Proof.
  unfold reservedAgentNames. rewrite !lookup_insert_is_Some, lookup_empty. split.
  - intros [<-|[_ [<-|[_ [? E]]]]]; [by left|by right|done].
  - intros [->| ->]; [by left|]. right. split; [done|by left].
Qed.

(** The tests shared by both kinds of names. *)
Lemma name_checks {A} (n : string) (seen : gset string) (k r : result ValidationError A) :
  (if String.eqb n "" then Err EmptyAgentName
   else if negb (IsDNS1035Label n) then Err (InvalidAgentName n)
   else if bool_decide (is_Some (reservedAgentNames !! n)) then Err (ReservedAgentName n)
   else if bool_decide (n ∈ seen) then Err (DuplicateAgentName n)
   else k) = r → is_Ok r = true → name_ok n ∧ n ∉ seen ∧ k = r.
Proof.
  intros <-. destruct (String.eqb_spec n "") as [|He]; [done|].
  destruct (IsDNS1035Label n) eqn:Hd; [|done]. cbn [negb].
  case_bool_decide as Hr; [done|]. rewrite reserved_iff in Hr.
  case_bool_decide as Hs; [done|]. intros _. unfold name_ok. naive_solver.
Qed.

Lemma name_checks_pass {A} (n : string) (seen : gset string) (k : result ValidationError A) :
  name_ok n → n ∉ seen →
  (if String.eqb n "" then Err EmptyAgentName
   else if negb (IsDNS1035Label n) then Err (InvalidAgentName n)
   else if bool_decide (is_Some (reservedAgentNames !! n)) then Err (ReservedAgentName n)
   else if bool_decide (n ∈ seen) then Err (DuplicateAgentName n)
   else k) = k.
Proof.
  intros (He & Hd & Hr1 & Hr2) Hs. rewrite (proj2 (String.eqb_neq _ _)) by done. rewrite Hd.
  cbn [negb]. rewrite bool_decide_eq_false_2 by (rewrite reserved_iff; naive_solver).
  by rewrite bool_decide_eq_false_2.
Qed.

Lemma validate_agent_ok s seen a seen' :
  validate_agent s seen a = Ok seen' ↔
  agent_ok s a ∧ ag_Name a ∉ seen ∧ seen' = {[ag_Name a]} ∪ seen.
Proof.
  unfold validate_agent, agent_ok. split.
  - intros (Hn & Hs & Hk)%name_checks; [|done]. revert Hk.
    case_match eqn:El; [done|]. zbool.
    destruct (TargetSaturationPercentage (ag_Scale a)) as [p|].
    + case_match; [done|]. zbool. intros [= <-]. split_and!; try done. by intros ? [= <-].
    + intros [= <-]. split_and!; try done.
  - intros ((Hn & Hl & Hp) & Hs & ->). rewrite name_checks_pass by done.
    rewrite (proj2 (Z.ltb_ge _ _)) by done.
    destruct (TargetSaturationPercentage (ag_Scale a)) as [p|]; [|done].
    specialize (Hp p eq_refl). by rewrite (proj2 (Z.ltb_ge _ _)).
Qed.

Lemma validate_external_ok seen e seen' :
  validate_external seen e = Ok seen' ↔
  external_ok e ∧ ext_Name e ∉ seen ∧ seen' = {[ext_Name e]} ∪ seen.
Proof.
  unfold validate_external, external_ok. split.
  - intros (Hn & Hs & Hk)%name_checks; [|done]. revert Hk.
    destruct (String.eqb_spec (ext_URL e) ""); [done|].
    destruct (absolute_url (ext_URL e)) eqn:Ha; [|done]. cbn [negb]. by intros [= <-].
  - intros ((Hn & Hu & Ha) & Hs & ->). rewrite name_checks_pass by done.
    rewrite (proj2 (String.eqb_neq _ _)) by done. by rewrite Ha.
Qed.

Lemma each_ok {A} (f : gset string → A → result ValidationError (gset string))
    (P : A → Prop) (name : A → string) seen l seen' :
  (∀ sn x sn', f sn x = Ok sn' ↔ P x ∧ name x ∉ sn ∧ sn' = {[name x]} ∪ sn) →
  each f seen l = Ok seen' ↔
  Forall P l ∧ NoDup (map name l) ∧ (∀ n, n ∈ map name l → n ∉ seen) ∧
  seen' = list_to_set (map name l) ∪ seen.
Proof.
  intros Hf. revert seen. induction l as [|x l IH]; intros seen; cbn [each map].
  { split; [intros [= <-]; split_and!; [constructor|constructor|set_solver|set_solver]|].
    intros (_ & _ & _ & ->). f_equal. set_solver. }
  unfold result_bind. destruct (f seen x) as [sn|e] eqn:E.
  - apply Hf in E as (HP & Hn & ->). rewrite IH, Forall_cons, NoDup_cons. split.
    + intros (HF & HN & HD & ->). split_and!; try done.
      * intros Hx. apply (HD _ Hx). set_solver.
      * intros n [->|Hx]%elem_of_cons; [done|]. intros ?. apply (HD _ Hx). set_solver.
      * set_solver.
    + intros ((_ & HF) & (Hx & HN) & HD & ->). split_and!; try done; [|set_solver].
      intros n Hn'. rewrite elem_of_union, elem_of_singleton. intros [->|Hs]; [done|].
      apply (HD n); set_solver.
  - split; [done|]. rewrite Forall_cons. intros ((HP & _) & _ & HD & _).
    assert (f seen x = Ok ({[name x]} ∪ seen)) by (apply Hf; set_solver). congruence.
Qed.

Lemma existsb_external spec :
  existsb (λ e, String.eqb (ext_Name e) (as_Entry spec)) (as_ExternalAgents spec) = true ↔
  as_Entry spec ∈ map ext_Name (as_ExternalAgents spec).
Proof.
  rewrite existsb_exists, list_elem_of_fmap. split.
  - intros (e & He & Hn). apply String.eqb_eq in Hn. exists e. by rewrite list_elem_of_In.
  - intros (e & -> & He). exists e. rewrite <- list_elem_of_In. by rewrite String.eqb_refl.
Qed.

Lemma validate_pattern_ok spec :
  as_Agents spec ≠ [] → validate_pattern spec = Ok tt ↔ pattern_ok spec.
Proof.
  intros Hne. unfold validate_pattern, pattern_ok.
  destruct (String.eqb_spec (as_Pattern spec) AgentPatternSupervisor) as [->|H1]; [naive_solver|].
  destruct (String.eqb_spec (as_Pattern spec) AgentPatternHandoff) as [->|H2].
  { case_match; zbool; split; try done; [intros [?|[[_ ?]|[? _]]]; [done|lia|done]|].
    intros _. right. left. split; [done|lia]. }
  destruct (String.eqb_spec (as_Pattern spec) AgentPatternSequential) as [->|H3]; [|naive_solver].
  destruct (as_Agents spec) as [|a l]; [done|]. cbn [map head].
  case_match; zbool.
  { split; [done|]. intros [?|[[? _]|(_ & ? & _)]]; [done|done|lia]. }
  destruct (String.eqb_spec (as_Entry spec) (ag_Name a)) as [->|He]; cbn [negb].
  2:{ split; [done|]. intros [?|[[? _]|(_ & _ & E & _)]]; [done|done|congruence]. }
  case_match; zbool.
  { split; [done|]. intros [?|[[? _]|(_ & _ & _ & ?)]]; [done|done|lia]. }
  split; [|done]. intros _. right. right. split_and!; [done|lia|done|lia].
Qed.

Lemma validate_well_formed s :
  ValidateAgentSet s = Ok tt ↔ well_formed s ∧ as_Agents (as_Spec s) ≠ [].
Proof.
  unfold ValidateAgentSet. destruct (IsDNS1035Label (as_Name s)) eqn:Hname; cbn [negb].
  2:{ split; [done|]. intros [[? _ _ _ _ _] _]. congruence. }
  case_bool_decide as Hne; [naive_solver|].
  unfold result_bind at 1. destruct (each (validate_agent s) ∅ _) as [seen|e] eqn:E1.
  2:{ split; [done|]. intros [[_ HA _ HN _ _] _]. apply NoDup_app in HN as (HN & _).
      assert (each (validate_agent s) ∅ (as_Agents (as_Spec s)) =
              Ok (list_to_set (map ag_Name (as_Agents (as_Spec s))) ∪ ∅)) as E2; [|congruence].
      apply (each_ok _ (agent_ok s) ag_Name); [apply validate_agent_ok|]. set_solver. }
  apply (each_ok _ (agent_ok s) ag_Name) in E1; [|apply validate_agent_ok].
  destruct E1 as (HA & HN & _ & ->). rewrite union_empty_r_L.
  unfold result_bind. destruct (each validate_external _ _) as [seen|e] eqn:E2.
  2:{ split; [done|]. intros [[_ _ HE HN' _ _] _]. apply NoDup_app in HN' as (_ & HD & HNe).
      eassert (each validate_external (list_to_set (map ag_Name (as_Agents (as_Spec s))))
                 (as_ExternalAgents (as_Spec s)) = Ok _) as E3; [|rewrite E2 in E3; discriminate E3].
      apply (each_ok _ external_ok ext_Name); [apply validate_external_ok|].
      split_and!; [done|done| |reflexivity]. set_solver. }
  apply (each_ok _ external_ok ext_Name) in E2; [|apply validate_external_ok].
  destruct E2 as (HE & HNe & HD & ->).
  assert (NoDup (map ag_Name (as_Agents (as_Spec s)) ++
                 map ext_Name (as_ExternalAgents (as_Spec s)))) as Hall.
  { apply NoDup_app. split_and!; [done| |done]. set_solver. }
  destruct (existsb _ _) eqn:Hx.
  { apply existsb_external in Hx. split; [done|]. intros [[_ _ _ _ Hent _] _]. set_solver. }
  assert (as_Entry (as_Spec s) ∉ map ext_Name (as_ExternalAgents (as_Spec s))) as Hnx.
  { rewrite <- existsb_external. congruence. }
  case_bool_decide as Hent; cbn [negb].
  2:{ split; [done|]. intros [[_ _ _ _ Hent' _] _]. set_solver. }
  rewrite validate_pattern_ok by done. split; [|by intros [[] ?]].
  intros Hp. split; [|done]. split; try done. set_solver.
Qed.

(** C28: validation accepts exactly the well-formed AgentSets: legal,
    non-reserved names that are distinct across managed and external agents,
    child names within the length limit, saturation targets of at most 100,
    absolute URLs, an entry that is a managed agent, and a pattern with the
    agents it needs.  A saturation target of 0 is accepted (the code checks
    only the upper bound), although the message of that check and the
    operations guide give the range as 1 to 100. *)
Theorem validate_iff_well_formed s :
  ValidateAgentSet s = Ok tt ↔ well_formed s ∧ as_Agents (as_Spec s) ≠ [].
Proof. apply validate_well_formed. Qed.

(** Names of the objects an AgentSet reconcile creates in its namespace. *)
Definition child_object_names (s : AgentSet) : list string :=
  [EntryServiceName s; DaemonName s] ++
  map (λ a, ChildAgentDeployName s (ag_Name a)) (as_Agents (as_Spec s)).

(** In a validated AgentSet no two of the objects named after it
    collide: the entry service, the daemon and every child AgentDeploy (and
    the ClusterIP service that shares the child's name) have distinct names. *)
Theorem validated_names_distinct s :
  ValidateAgentSet s = Ok tt → NoDup (child_object_names s).
Proof.
  intros [[_ HA _ HN _ _] _]%validate_well_formed.
  apply NoDup_app in HN as (HN & _). unfold child_object_names.
  change (map (λ a, ChildAgentDeployName s (ag_Name a)) (as_Agents (as_Spec s)))
    with ((ChildAgentDeployName s ∘ ag_Name) <$> as_Agents (as_Spec s)).
  rewrite list_fmap_compose.
  change [EntryServiceName s; DaemonName s]
    with (ChildAgentDeployName s <$> [EntryServiceSuffix; DaemonSuffix]).
  rewrite <- fmap_app. apply NoDup_fmap; [apply _|].
  apply NoDup_app. split_and!; [|intros n Hn|done].
  - apply (bool_decide_unpack _). by vm_compute.
  - intros (a & -> & Ha)%list_elem_of_fmap. rewrite Forall_forall in HA.
    destruct (HA a Ha) as ((_ & _ & H1 & H2) & _). set_solver.
Qed.
End validator.

(** ** Concrete tests *)

(** The DNS-1035 label of the Kubernetes naming rules: a lower-case letter,
    then letters, digits and dashes, not ending in a dash, at most 63
    characters. *)
Definition is_lower (a : Ascii.ascii) : bool :=
  let n := Ascii.N_of_ascii a in (97 <=? n)%N && (n <=? 122)%N.
Definition is_alnum (a : Ascii.ascii) : bool :=
  let n := Ascii.N_of_ascii a in is_lower a || ((48 <=? n)%N && (n <=? 57)%N).
Fixpoint label_tail (s : string) : bool :=
  match s with
  | EmptyString => true
  | String a EmptyString => is_alnum a
  | String a s' => (is_alnum a || Ascii.eqb a "-"%char) && label_tail s'
  end.
Definition dns1035 (s : string) : bool :=
  match s with
  | EmptyString => false
  | String a s' => is_lower a && label_tail s' && (String.length s <=? 63)%nat
  end.
Definition any_url (u : string) : option (string * string) := Some ("http"%string, u).

Definition ex_agentset (names : list string) : AgentSet :=
  mkAgentSet (new_meta "ns" "set" ∅ ∅ [])
    (mkAgentSetSpec AgentPatternSupervisor "x" (map named_agent names) None [] None) zero_set_status.

Lemma validated_names_distinct_witness :
  NoDup (child_object_names (ex_agentset ["x"; "worker"]%string)).
Proof. apply (validated_names_distinct dns1035 any_url). vm_compute. reflexivity. Defined.

(** An AgentSet with agents [x] and [x-headless] is accepted, yet the
    headless service of the first has the name of the ClusterIP service of
    the second. *)
Definition child_of (s : AgentSet) (agent : string) : AgentDeploy :=
  mkAgentDeploy (new_meta (as_Namespace s) (ChildAgentDeployName s agent) ∅ ∅ [])
    (mkAgentDeploySpec (named_agent agent) (as_Name s) None zero_topology) zero_status.

Example headless_name_collision :
  let s := ex_agentset ["x"; "x-headless"]%string in
  ValidateAgentSet dns1035 any_url s = Ok tt ∧
  HeadlessServiceName (child_of s "x") = ServiceName (child_of s "x-headless").
Proof. split; vm_compute; reflexivity. Qed.

(** The check of [targetSaturationPercentage] has no lower bound: 0 is
    accepted, though its message and the operations guide say [1,100]. *)
Example zero_saturation_accepted :
  let zero := mkAbstractAgentDeploy "x" zero_pod_template None None None []
                (mkScale false None None (Some 0) None None None None) None [] [] zero_update_strategy "" None in
  let s := mkAgentSet (new_meta "ns" "set" ∅ ∅ [])
             (mkAgentSetSpec AgentPatternSupervisor "x" [zero] None [] None) zero_set_status in
  ValidateAgentSet dns1035 any_url s = Ok tt.
Proof. vm_compute. reflexivity. Qed.

End Validator.
