(* ===== verification/Template.v ===== *)
(** * Pod and container templates ([pod_template.go], [container_template.go])

    Layers of defaults: a template fills the fields its target leaves unset. *)
From S2P Require Import Prelude K8s Types.
#[local] Open Scope Z_scope.

Module Template.

(** ** Fill-if-unset, per kind of field *)
Definition fill_opt {A} (own other : option A) : option A :=
  match own with Some _ => own | None => other end.
Definition fill_str (own other : string) : string := if String.eqb own "" then other else own.
Definition fill_list {A} (own other : list A) : list A :=
  match own with [] => other | _ => own end.
Definition fill_map (own other : gmap string string) : gmap string string :=
  if bool_decide (own = ∅) then other else own.

(** ** Pod templates *)
Definition ApplyToPodSpec (apt : AbstractPodTemplate) (ps : PodSpec) : PodSpec :=
  mkPodSpec (ps_Containers ps) (ps_InitContainers ps) (ps_Volumes ps) (ps_Hostname ps)
    (ps_Subdomain ps)
    (fill_map (ps_NodeSelector ps) (apt_NodeSelector apt))
    (fill_list (ps_Tolerations ps) (apt_Tolerations apt))
    (fill_opt (ps_SecurityContext ps) (apt_SecurityContext apt))
    (fill_list (ps_ImagePullSecrets ps) (apt_ImagePullSecrets apt))
    (fill_str (ps_PriorityClassName ps) (apt_PriorityClassName apt))
    (fill_opt (ps_Priority ps) (apt_Priority apt))
    (fill_opt (ps_Affinity ps) (apt_Affinity apt))
    (fill_str (ps_ServiceAccountName ps) (apt_ServiceAccountName apt))
    (fill_opt (ps_RuntimeClassName ps) (apt_RuntimeClassName apt))
    (fill_opt (ps_AutomountServiceAccountToken ps) (apt_AutomountServiceAccountToken apt))
    (fill_str (ps_DNSPolicy ps) (apt_DNSPolicy apt))
    (fill_opt (ps_DNSConfig ps) (apt_DNSConfig apt))
    (fill_list (ps_ResourceClaims ps) (apt_ResourceClaims apt))
    (fill_opt (ps_TerminationGracePeriodSeconds ps) (apt_TerminationGracePeriodSeconds apt)).

(** [mergeStringMapDefaults]: the range loop adds every key [own] lacks; it
    runs over the keys of [defaults] in an unspecified order, which does not
    matter since each key is written at most once. *)
Definition mergeStringMapDefaults (own defaults : gmap string string) : gmap string string :=
  if bool_decide (defaults = ∅) then own else own ∪ defaults.

Definition mergeMetadataDefaults (own defaults : option Metadata) : option Metadata :=
  match defaults with
  | None => own
  | Some d =>
      let o := default (mkMetadata ∅ ∅) own in
      let labels := mergeStringMapDefaults (md_Labels o) (md_Labels d) in
      let annotations := mergeStringMapDefaults (md_Annotations o) (md_Annotations d) in
      if bool_decide (labels = ∅) && bool_decide (annotations = ∅) then None
      else Some (mkMetadata annotations labels)
  end.

Definition PodTemplate_ApplyDefaultsFrom (apt : AbstractPodTemplate)
    (other : option AbstractPodTemplate) : AbstractPodTemplate :=
  match other with
  | None => apt
  | Some o =>
      mkAbstractPodTemplate
        (mergeMetadataDefaults (apt_Metadata apt) (apt_Metadata o))
        (fill_map (apt_NodeSelector apt) (apt_NodeSelector o))
        (fill_list (apt_Tolerations apt) (apt_Tolerations o))
        (fill_opt (apt_SecurityContext apt) (apt_SecurityContext o))
        (fill_list (apt_ImagePullSecrets apt) (apt_ImagePullSecrets o))
        (fill_str (apt_PriorityClassName apt) (apt_PriorityClassName o))
        (fill_opt (apt_Priority apt) (apt_Priority o))
        (fill_opt (apt_Affinity apt) (apt_Affinity o))
        (fill_str (apt_ServiceAccountName apt) (apt_ServiceAccountName o))
        (fill_opt (apt_RuntimeClassName apt) (apt_RuntimeClassName o))
        (fill_opt (apt_AutomountServiceAccountToken apt) (apt_AutomountServiceAccountToken o))
        (fill_str (apt_DNSPolicy apt) (apt_DNSPolicy o))
        (fill_opt (apt_DNSConfig apt) (apt_DNSConfig o))
        (fill_list (apt_ResourceClaims apt) (apt_ResourceClaims o))
        (fill_opt (apt_TerminationGracePeriodSeconds apt) (apt_TerminationGracePeriodSeconds o))
  end.

Definition ApplyToPodTemplateSpec (apt : AbstractPodTemplate) (p : PodTemplateSpec)
    : PodTemplateSpec :=
  let md := default (mkMetadata ∅ ∅) (apt_Metadata apt) in
  mkPodTemplateSpec (pts_Labels p ∪ md_Labels md) (pts_Annotations p ∪ md_Annotations md)
    (ApplyToPodSpec apt (pts_Spec p)).

(** ** Container templates *)
Definition mergeResourceList (base override : ResourceList) : ResourceList :=
  if bool_decide (override = ∅) then base else override ∪ base.
Definition mergeResourceDefaults (own defaults : ResourceList) : ResourceList :=
  if bool_decide (defaults = ∅) then own else own ∪ defaults.

(** Append the entries of [other] whose name does not occur in [own]. *)
Definition append_new {A} (name : A → string) (own other : list A) : list A :=
  own ++ filter (λ x, name x ∉ map name own) other.
Definition mergeResourceClaims (own other : list ResourceClaim) : list ResourceClaim :=
  match other with [] => own | _ => append_new rc_Name own other end.
Definition mergeEnvDefaults (own defaults : list EnvVar) : list EnvVar :=
  match defaults with [] => own | _ => append_new ev_Name own defaults end.

Definition ApplyToContainer (ct : ContainerTemplate) (c : CoreContainer) : CoreContainer :=
  mkCoreContainer (c_Name c) (c_Image c) (c_Command c) (c_Args c)
    (c_Env c ++ ct_Env ct) (c_EnvFrom c ++ ct_EnvFrom ct) (c_VolumeMounts c)
    (mkResourceRequirements
       (mergeResourceList (rr_Limits (c_Resources c)) (rr_Limits (ct_Resources ct)))
       (mergeResourceList (rr_Requests (c_Resources c)) (rr_Requests (ct_Resources ct)))
       (mergeResourceClaims (rr_Claims (c_Resources c)) (rr_Claims (ct_Resources ct))))
    (ct_SecurityContext ct)
    (fill_str (c_ImagePullPolicy c) (ct_ImagePullPolicy ct))
    (c_Ports c) (c_ReadinessProbe c) (c_LivenessProbe c) (c_StartupProbe c) (c_Lifecycle c)
    (c_RestartPolicy c) (c_rest c).

Definition ApplyDefaultResourcesIfMissing (c : CoreContainer) (defaults : ResourceRequirements)
    : CoreContainer :=
  if negb (bool_decide (rr_Requests (c_Resources c) = ∅)) ||
     negb (bool_decide (rr_Limits (c_Resources c) = ∅)) then c
  else c_with_resources defaults c.

Definition ContainerTemplate_ApplyDefaultsFrom (ct : ContainerTemplate)
    (other : option ContainerTemplate) : ContainerTemplate :=
  match other with
  | None => ct
  | Some o =>
      mkContainerTemplate
        (mkResourceRequirements
           (mergeResourceDefaults (rr_Limits (ct_Resources ct)) (rr_Limits (ct_Resources o)))
           (mergeResourceDefaults (rr_Requests (ct_Resources ct)) (rr_Requests (ct_Resources o)))
           (mergeResourceClaims (rr_Claims (ct_Resources ct)) (rr_Claims (ct_Resources o))))
        (fill_str (ct_ImagePullPolicy ct) (ct_ImagePullPolicy o))
        (fill_opt (ct_SecurityContext ct) (ct_SecurityContext o))
        (mergeEnvDefaults (ct_Env ct) (ct_Env o))
        (fill_list (ct_EnvFrom ct) (ct_EnvFrom o))
  end.

(** ** Laws *)
Lemma fill_opt_assoc {A} (a b c : option A) : fill_opt (fill_opt a b) c = fill_opt a (fill_opt b c).
Proof. by destruct a. Qed.
Lemma fill_str_assoc a b c : fill_str (fill_str a b) c = fill_str a (fill_str b c).
Proof. unfold fill_str. destruct (String.eqb a "") eqn:E; [done|by rewrite E]. Qed.
Lemma fill_list_assoc {A} (a b c : list A) : fill_list (fill_list a b) c = fill_list a (fill_list b c).
Proof. by destruct a. Qed.
Lemma fill_map_assoc a b c : fill_map (fill_map a b) c = fill_map a (fill_map b c).
Proof. unfold fill_map. destruct (bool_decide (a = ∅)) eqn:E; [done|by rewrite E]. Qed.

(** Filling a pod from an agent's template merged with the AgentSet's
    template is the same as filling it from the agent's template first and
    from the AgentSet's template after: the layers of defaults compose, and
    the agent's own values win. *)
Theorem pod_template_layers_compose a t ps :
  ApplyToPodSpec (PodTemplate_ApplyDefaultsFrom a (Some t)) ps =
  ApplyToPodSpec t (ApplyToPodSpec a ps).
Proof.
  unfold ApplyToPodSpec. cbn.
  by rewrite !fill_opt_assoc, !fill_str_assoc, !fill_list_assoc, !fill_map_assoc.
Qed.

Lemma append_new_assoc {A} (name : A → string) a b c :
  append_new name (append_new name a b) c = append_new name a (append_new name b c).
Proof.
  unfold append_new. rewrite filter_app, <- !app_assoc. do 2 f_equal.
  rewrite list_filter_filter. apply list_filter_iff. intros x.
  rewrite map_app, not_elem_of_app. split.
  - intros [Ha Hb]. split; [done|]. intros Hx. apply Hb.
    apply list_elem_of_fmap in Hx as (y & Hy & Hin). apply list_elem_of_fmap. exists y.
    split; [done|]. apply list_elem_of_filter. split; [|done]. by rewrite <- Hy.
  - intros [Ha Hb]. split; [done|]. intros Hx. apply Hb.
    apply list_elem_of_fmap in Hx as (y & Hy & [_ Hin]%list_elem_of_filter).
    rewrite Hy. by apply list_elem_of_fmap_2.
Qed.

Lemma mergeResourceDefaults_union own defaults : mergeResourceDefaults own defaults = own ∪ defaults.
Proof.
  unfold mergeResourceDefaults. case_bool_decide as E; [|done]. by rewrite E, map_union_empty.
Qed.
Lemma mergeResourceClaims_new own other : mergeResourceClaims own other = append_new rc_Name own other.
Proof. destruct other; [|done]. unfold append_new. cbn. by rewrite app_nil_r. Qed.
Lemma mergeEnvDefaults_new own other : mergeEnvDefaults own other = append_new ev_Name own other.
Proof. destruct other; [|done]. unfold append_new. cbn. by rewrite app_nil_r. Qed.

(** Layers of container defaults compose: applying a second layer of
    defaults to an already defaulted template is applying the merged layers
    once; the receiver's environment is kept as a prefix and no variable of
    the defaults shadows one of its own. *)
Theorem container_defaults_compose a b c :
  ContainerTemplate_ApplyDefaultsFrom (ContainerTemplate_ApplyDefaultsFrom a (Some b)) (Some c) =
  ContainerTemplate_ApplyDefaultsFrom a (Some (ContainerTemplate_ApplyDefaultsFrom b (Some c))) ∧
  ∃ extra, ct_Env (ContainerTemplate_ApplyDefaultsFrom a (Some b)) = ct_Env a ++ extra ∧
    ∀ e, e ∈ extra ↔ e ∈ ct_Env b ∧ ev_Name e ∉ map ev_Name (ct_Env a).
Proof.
  split.
  - unfold ContainerTemplate_ApplyDefaultsFrom. cbn.
    rewrite !mergeResourceDefaults_union, !mergeResourceClaims_new, !mergeEnvDefaults_new,
      !append_new_assoc, fill_str_assoc, fill_opt_assoc, fill_list_assoc.
    by rewrite !(assoc_L (∪)).
  - cbn. rewrite mergeEnvDefaults_new. eexists. split; [done|]. intros e.
    rewrite list_elem_of_filter. naive_solver.
Qed.

End Template.
