(* ===== verification/PodSpecs.v ===== *)
(** * Pod rendering ([pkg/reconciler/agentdeploy/pod_spec.go])

    [buildPodSpec] composes the pod of an AgentDeploy.  The JSON and base64
    encoding of the object handed to the broker is a parameter applied to
    [SimpleCopy]. *)
From S2P Require Import Prelude K8s Types Template.
#[local] Open Scope Z_scope.
#[local] Open Scope string_scope.
#[local] Open Scope list_scope.

Module PodSpecs.
Import Template.

Definition ProtocolTCP := "TCP".
Definition ContainerRestartPolicyAlways := "Always".
Definition StorageMediumMemory := "Memory".
Definition URISchemeHTTPS := "HTTPS".

Definition kynomeshRunVolume : Volume :=
  mkVolume VolumeNameKynomeshRun (EmptyDir StorageMediumMemory).
Definition kynomeshRunMount : VolumeMount := mkVolumeMount VolumeNameKynomeshRun KynomeshRunPath "".

Fixpoint appendMountIfAbsent (mounts : list VolumeMount) (m : VolumeMount) : list VolumeMount :=
  match mounts with
  | [] => [m]
  | e :: rest =>
      if String.eqb (vm_Name e) (vm_Name m) then mounts else e :: appendMountIfAbsent rest m
  end.

Definition commonEnv (ad : AgentDeploy) : list EnvVar :=
  [ mkEnvVar EnvNamespace "" (Some (FieldRef "metadata.namespace"));
    mkEnvVar EnvPodName "" (Some (FieldRef "metadata.name"));
    env_value EnvAgentSetName (spec_AgentSetName (ad_Spec ad));
    env_value EnvAgentDeployName (ag_Name (spec_Agent (ad_Spec ad))) ].

(** [overrideByName[n]]: the last override of that name. *)
Definition override_of (overrides : list EnvVar) (n : string) : option EnvVar :=
  fold_left (λ r o, if String.eqb (ev_Name o) n then Some o else r) overrides None.

Definition mergeEnv (existing overrides : list EnvVar) : list EnvVar :=
  map (λ e, default e (override_of overrides (ev_Name e))) existing ++
  filter (λ o, ev_Name o ∉ map ev_Name existing) overrides.

Definition applyCommonEnv (ad : AgentDeploy) (cs : list CoreContainer) : list CoreContainer :=
  map (λ c, c_with_env (mergeEnv (c_Env c) (commonEnv ad)) c) cs.

Definition mount_run (c : CoreContainer) : CoreContainer :=
  c_with_mounts (appendMountIfAbsent (c_VolumeMounts c) kynomeshRunMount) c.
Definition applyRunVolMount (cs : list CoreContainer) : list CoreContainer := map mount_run cs.

(** [applyRunVolMount(cs[:1])] and [applyRunVolMount(cs[len(cs)-1:])] write
    through the slices into [cs]. *)
Definition mount_first (cs : list CoreContainer) : list CoreContainer :=
  applyRunVolMount (take 1 cs) ++ drop 1 cs.
Definition mount_last (cs : list CoreContainer) : list CoreContainer :=
  take (length cs - 1) cs ++ applyRunVolMount (drop (length cs - 1) cs).

Definition brokerDrainExec : list string := [KynomeshBinaryPath; "drain"].
Definition agentProbeExec : list string :=
  [ProbeBinaryPath; "--mode=grpc"; "--socket=" +:+ BrokerGRPCSocketPath].

Definition agentReadinessProbe (spec : option Probe) : CoreProbe :=
  mkCoreProbe (ExecAction agentProbeExec)
    (GetProbeInitialDelaySecondsOr spec DefaultAgentReadinessInitialDelaySec)
    (GetProbePeriodSecondsOr spec DefaultAgentReadinessPeriodSec)
    (GetProbeTimeoutSecondsOr spec DefaultAgentReadinessTimeoutSec)
    (GetProbeFailureThresholdOr spec DefaultAgentReadinessFailureThreshold)
    (GetProbeSuccessThresholdOr spec DefaultAgentReadinessSuccessThreshold).
Definition agentLivenessProbe (spec : option Probe) : CoreProbe :=
  mkCoreProbe (ExecAction agentProbeExec)
    (GetProbeInitialDelaySecondsOr spec DefaultAgentLivenessInitialDelaySec)
    (GetProbePeriodSecondsOr spec DefaultAgentLivenessPeriodSec)
    (GetProbeTimeoutSecondsOr spec DefaultAgentLivenessTimeoutSec)
    (GetProbeFailureThresholdOr spec DefaultAgentLivenessFailureThreshold)
    (GetProbeSuccessThresholdOr spec DefaultAgentLivenessSuccessThreshold).
Definition agentStartupProbe (spec : option Probe) : CoreProbe :=
  mkCoreProbe (ExecAction agentProbeExec)
    (GetProbeInitialDelaySecondsOr spec DefaultAgentStartupInitialDelaySec)
    (GetProbePeriodSecondsOr spec DefaultAgentStartupPeriodSec)
    (GetProbeTimeoutSecondsOr spec DefaultAgentStartupTimeoutSec)
    (GetProbeFailureThresholdOr spec DefaultAgentStartupFailureThreshold)
    (GetProbeSuccessThresholdOr spec DefaultAgentStartupSuccessThreshold).

Definition newAgentContainer (ad : AgentDeploy) : CoreContainer :=
  let src := ag_Container (spec_Agent (ad_Spec ad)) in
  match src with
  | Some u =>
      mkCoreContainer ContainerNameAgent (uc_Image u) (uc_Command u) (uc_Args u) (uc_Env u)
        (uc_EnvFrom u) (uc_VolumeMounts u) (uc_Resources u) (uc_SecurityContext u)
        (default "" (uc_ImagePullPolicy u)) (uc_Ports u)
        (Some (agentReadinessProbe (uc_ReadinessProbe u)))
        (Some (agentLivenessProbe (uc_LivenessProbe u)))
        (Some (agentStartupProbe (uc_StartupProbe u)))
        None (Some ContainerRestartPolicyAlways) ""
  | None =>
      mkCoreContainer ContainerNameAgent "" [] [] [] [] [] no_resources None "" []
        (Some (agentReadinessProbe None)) (Some (agentLivenessProbe None))
        (Some (agentStartupProbe None)) None (Some ContainerRestartPolicyAlways) ""
  end.

Definition brokerHTTPGet (path : string) : ProbeHandler :=
  HTTPGetAction path "introspect" URISchemeHTTPS.
Definition brokerReadinessProbe : CoreProbe :=
  mkCoreProbe (brokerHTTPGet "/readyz") DefaultBrokerReadinessInitialDelaySec
    DefaultBrokerReadinessPeriodSec DefaultBrokerReadinessTimeoutSec
    DefaultBrokerReadinessFailureThreshold DefaultBrokerReadinessSuccessThreshold.
Definition brokerLivenessProbe : CoreProbe :=
  mkCoreProbe (brokerHTTPGet "/healthz") DefaultBrokerLivenessInitialDelaySec
    DefaultBrokerLivenessPeriodSec DefaultBrokerLivenessTimeoutSec
    DefaultBrokerLivenessFailureThreshold DefaultBrokerLivenessSuccessThreshold.

(** [if tmpl != nil { tmpl.ApplyToContainer(&c) }] *)
Definition apply_tmpl (tmpl : option ContainerTemplate) (c : CoreContainer) : CoreContainer :=
  match tmpl with Some t => ApplyToContainer t c | None => c end.

Definition newBrokerContainer (image pullPolicy encodedAgentDeploy : string)
    (tmpl : option ContainerTemplate) (graceSeconds : Z) (defaultResources : ResourceRequirements)
    : CoreContainer :=
  let c := mkCoreContainer ContainerNameAgentBroker image [] ["broker"]
    [env_value EnvAgentDeployObject encodedAgentDeploy;
     env_value EnvTerminationGraceSeconds (Itoa graceSeconds)]
    [] [] no_resources None pullPolicy
    [mkContainerPort "broker" AgentBrokerPort ProtocolTCP "";
     mkContainerPort "introspect" AgentBrokerIntrospectionPort ProtocolTCP ""]
    (Some brokerReadinessProbe) (Some brokerLivenessProbe) None
    (Some (mkLifecycle (Some (ExecAction brokerDrainExec)) "")) None "" in
  ApplyDefaultResourcesIfMissing (apply_tmpl tmpl c) defaultResources.

Definition newInitRuntimeContainer (image pullPolicy encodedAgentDeploy : string)
    (tmpl : option ContainerTemplate) (defaultResources : ResourceRequirements) : CoreContainer :=
  let c := mkCoreContainer ContainerNameInitRuntime image [] ["init-runtime"]
    [env_value EnvAgentDeployObject encodedAgentDeploy]
    [] [] no_resources None pullPolicy [] None None None None None "" in
  ApplyDefaultResourcesIfMissing (apply_tmpl tmpl c) defaultResources.

Section build.
(** base64 of the JSON text of an object *)
Context (encode_object : AgentDeploy → string).

Definition EncodeAgentDeploy (ad : AgentDeploy) : string := encode_object (SimpleCopy ad).

Definition buildPodSpec (ad : AgentDeploy) (image imagePullPolicy : string)
    (defaultResources : ResourceRequirements) : PodSpec :=
  let a := spec_Agent (ad_Spec ad) in
  let encoded := EncodeAgentDeploy ad in
  let grace := default DefaultTerminationGracePeriodSeconds
                 (apt_TerminationGracePeriodSeconds (ag_PodTemplate a)) in
  let containers :=
    [newBrokerContainer image imagePullPolicy encoded (ag_BrokerContainer a) grace defaultResources]
      ++ ag_Sidecars a in
  let initContainers :=
    [newInitRuntimeContainer image imagePullPolicy encoded (ag_InitContainer a) defaultResources]
      ++ ag_InitContainers a ++ [newAgentContainer ad] in
  let ps := mkPodSpec containers initContainers (kynomeshRunVolume :: ag_Volumes a) ""
    (HeadlessServiceName ad) ∅ [] None [] "" None None "" None None "" None [] None in
  let ps := ApplyToPodSpec (ag_PodTemplate a) ps in
  let graceField := fill_opt (ps_TerminationGracePeriodSeconds ps) (Some grace) in
  ps_with_containers
    (mount_first (applyCommonEnv ad (ps_Containers ps)))
    (mount_last (mount_first (applyCommonEnv ad (ps_InitContainers ps))))
    graceField ps.
End build.

(** ** Environment *)

Lemma override_of_snoc overrides o n :
  override_of (overrides ++ [o]) n =
    if String.eqb (ev_Name o) n then Some o else override_of overrides n.
Proof. unfold override_of. by rewrite fold_left_app. Qed.

Lemma override_of_elem overrides n o :
  override_of overrides n = Some o → o ∈ overrides ∧ ev_Name o = n.
Proof.
  induction overrides as [|x l IH] using rev_ind; [done|]. rewrite override_of_snoc.
  destruct (String.eqb_spec (ev_Name x) n) as [He|He]; [intros [= <-]|intros ?%IH]; set_solver.
Qed.

Lemma override_of_unique overrides o :
  NoDup (map ev_Name overrides) → o ∈ overrides → override_of overrides (ev_Name o) = Some o.
Proof.
  induction overrides as [|x l IH] using rev_ind; [set_solver|].
  rewrite map_app, NoDup_app, override_of_snoc. intros (HN & HD & _) Ho.
  destruct (String.eqb_spec (ev_Name x) (ev_Name o)) as [He|He].
  - apply elem_of_app in Ho as [Ho|Ho]; [|set_solver]. exfalso.
    apply (HD (ev_Name o)); [by apply list_elem_of_fmap_2|]. cbn. set_solver.
  - apply IH; [done|]. apply elem_of_app in Ho as [Ho|Ho]; [done|]. set_solver.
Qed.

Lemma mergeEnv_overrides existing overrides o :
  NoDup (map ev_Name overrides) → o ∈ overrides →
  o ∈ mergeEnv existing overrides ∧
  (∀ e, e ∈ mergeEnv existing overrides → ev_Name e = ev_Name o → e = o).
Proof.
  intros HN Ho. pose proof (override_of_unique _ _ HN Ho) as Hov. unfold mergeEnv.
  assert (∀ x y, x ∈ overrides → y ∈ overrides → ev_Name x = ev_Name y → x = y) as Hinj.
  { intros x y Hx Hy E. pose proof (override_of_unique _ _ HN Hx) as H1.
    rewrite E, (override_of_unique _ _ HN Hy) in H1. congruence. }
  split.
  - destruct (decide (ev_Name o ∈ map ev_Name existing)) as [Hin|Hout]; apply elem_of_app.
    + left. apply list_elem_of_fmap in Hin as (e & He & Hin). apply list_elem_of_fmap.
      exists e. split; [|done]. by rewrite <- He, Hov.
    + right. by apply list_elem_of_filter.
  - intros e [He|He]%elem_of_app En; [|apply list_elem_of_filter in He as [_ He]; by apply Hinj].
    apply list_elem_of_fmap in He as (x & -> & Hx). cbn in En |- *.
    destruct (override_of overrides (ev_Name x)) as [y|] eqn:Ey; cbn in *.
    + apply override_of_elem in Ey as [Hy _]. by apply Hinj.
    + rewrite En, Hov in Ey. done.
Qed.

Lemma mount_first_env c cs : c ∈ mount_first cs → ∃ c0, c0 ∈ cs ∧ c_Env c = c_Env c0.
Proof.
  unfold mount_first, applyRunVolMount. destruct cs as [|x cs]; cbn; [set_solver|].
  intros [->|Hc]%elem_of_cons; [exists x; set_solver|]. rewrite drop_0 in Hc. exists c. set_solver.
Qed.

Lemma mount_last_env c cs : c ∈ mount_last cs → ∃ c0, c0 ∈ cs ∧ c_Env c = c_Env c0.
Proof.
  unfold mount_last, applyRunVolMount. intros [Hc|Hc]%elem_of_app.
  - exists c. split; [|done]. by apply (subseteq_take (length cs - 1) cs).
  - apply list_elem_of_fmap in Hc as (x & -> & Hx). exists x. split; [|done].
    by apply (subseteq_drop (length cs - 1) cs).
Qed.

(** Fields the environment and mount passes leave alone. *)
Lemma mount_map {A} (f : CoreContainer → A) cs :
  (∀ c, f (mount_run c) = f c) →
  map f (mount_first cs) = map f cs ∧ map f (mount_last cs) = map f cs.
Proof.
  intros Hf. assert (∀ l, map f (applyRunVolMount l) = map f l) as Hm.
  { intros l. unfold applyRunVolMount. rewrite map_map. by apply map_ext. }
  split; unfold mount_first, mount_last; rewrite map_app, Hm, <- map_app, take_drop; done.
Qed.

Lemma rendered_map {A} (f : CoreContainer → A) ad cs :
  (∀ c, f (mount_run c) = f c) → (∀ env c, f (c_with_env env c) = f c) →
  map f (mount_first (applyCommonEnv ad cs)) = map f cs ∧
  map f (mount_last (mount_first (applyCommonEnv ad cs))) = map f cs.
Proof.
  intros Hm He. rewrite (proj2 (mount_map f _ Hm)), (proj1 (mount_map f _ Hm)).
  unfold applyCommonEnv. rewrite map_map. split; apply map_ext; auto.
Qed.

Lemma built_in_name tmpl c dr :
  c_Name (ApplyDefaultResourcesIfMissing (apply_tmpl tmpl c) dr) = c_Name c.
Proof. unfold ApplyDefaultResourcesIfMissing. by destruct tmpl; case_match. Qed.

Section theorems.
Context (encode_object : AgentDeploy → string).
#[local] Set Default Proof Using "All".
Abbreviation build := (buildPodSpec encode_object).

(** Every container of a rendered pod. *)
Definition all_containers (ps : PodSpec) : list CoreContainer :=
  ps_Containers ps ++ ps_InitContainers ps.

Lemma rendered_env ad image pol dr c :
  c ∈ all_containers (build ad image pol dr) →
  ∃ env, c_Env c = mergeEnv env (commonEnv ad).
Proof.
  unfold all_containers. rewrite elem_of_app. unfold buildPodSpec. cbn [ps_Containers ps_InitContainers
    ps_with_containers]. intros [Hc|Hc].
  - apply mount_first_env in Hc as (c0 & Hc0 & ->). unfold applyCommonEnv in Hc0.
    apply list_elem_of_fmap in Hc0 as (c1 & -> & _). by exists (c_Env c1).
  - apply mount_last_env in Hc as (c0 & Hc0 & ->).
    apply mount_first_env in Hc0 as (c1 & Hc1 & ->). unfold applyCommonEnv in Hc1.
    apply list_elem_of_fmap in Hc1 as (c2 & -> & _). by exists (c_Env c2).
Qed.

(** The identity variables of the controller reach every container
    of the pod, user sidecars and init containers included, and cannot be
    shadowed: any entry of that name is the controller's. *)
Theorem common_env_not_shadowed ad image pol dr c e :
  c ∈ all_containers (build ad image pol dr) → e ∈ commonEnv ad →
  e ∈ c_Env c ∧ ∀ e', e' ∈ c_Env c → ev_Name e' = ev_Name e → e' = e.
Proof.
  intros (env & ->)%rendered_env He. apply mergeEnv_overrides; [|done].
  apply (bool_decide_unpack _). by vm_compute.
Qed.

(** The container order of a pod: the broker first, then the
    sidecars; [init-runtime] first among the init containers, the user's
    own in their order, and the agent last, as a restartable sidecar; the
    shared run volume is the first volume. *)
Theorem pod_container_order ad image pol dr :
  let ps := build ad image pol dr in
  let a := spec_Agent (ad_Spec ad) in
  map c_Name (ps_Containers ps) = ContainerNameAgentBroker :: map c_Name (ag_Sidecars a) ∧
  map c_Name (ps_InitContainers ps) =
    ContainerNameInitRuntime :: map c_Name (ag_InitContainers a) ++ [ContainerNameAgent] ∧
  (c_RestartPolicy <$> last (ps_InitContainers ps)) = Some (Some ContainerRestartPolicyAlways) ∧
  head (ps_Volumes ps) = Some kynomeshRunVolume ∧
  is_Some (ps_TerminationGracePeriodSeconds ps).
Proof.
  intros ps a. subst ps. unfold buildPodSpec. cbn [ps_Containers ps_InitContainers ps_Volumes
    ps_with_containers ps_TerminationGracePeriodSeconds ApplyToPodSpec].
  split_and!.
  - rewrite (proj1 (rendered_map c_Name ad _ (λ _, eq_refl) (λ _ _, eq_refl))).
    cbn [map app]. unfold newBrokerContainer. by rewrite built_in_name.
  - rewrite (proj2 (rendered_map c_Name ad _ (λ _, eq_refl) (λ _ _, eq_refl))).
    rewrite !map_app. cbn [map app]. unfold newInitRuntimeContainer.
    rewrite built_in_name. do 3 f_equal.
    unfold newAgentContainer. by destruct (ag_Container _).
  - rewrite <- fmap_last.
    rewrite (proj2 (rendered_map c_RestartPolicy ad _ (λ _, eq_refl) (λ _ _, eq_refl))
             : c_RestartPolicy <$> _ = _).
    rewrite app_assoc, map_app. cbn [map]. rewrite last_snoc. unfold newAgentContainer.
    by destruct (ag_Container _).
  - done.
  - unfold fill_opt. by destruct (apt_TerminationGracePeriodSeconds _).
Qed.

(** Two AgentDeploys that differ only in what scaling, rollout policy and
    the status record: replicas, scale settings, update strategy and drift
    reload, and any metadata but the name. *)
Definition same_workload (x y : AgentDeploy) : Prop :=
  ad_Name x = ad_Name y ∧ ad_Namespace x = ad_Namespace y ∧
  spec_AgentSetName (ad_Spec x) = spec_AgentSetName (ad_Spec y) ∧
  spec_Topology (ad_Spec x) = spec_Topology (ad_Spec y) ∧
  let a := spec_Agent (ad_Spec x) in
  let b := spec_Agent (ad_Spec y) in
  ag_Name a = ag_Name b ∧ ag_PodTemplate a = ag_PodTemplate b ∧ ag_Container a = ag_Container b ∧
  ag_InitContainer a = ag_InitContainer b ∧ ag_BrokerContainer a = ag_BrokerContainer b ∧
  ag_Volumes a = ag_Volumes b ∧ ag_RateLimit a = ag_RateLimit b ∧
  ag_InitContainers a = ag_InitContainers b ∧ ag_Sidecars a = ag_Sidecars b ∧
  ag_PublicBaseURL a = ag_PublicBaseURL b.

(** Scaling never rolls pods: the rendered pod spec, hence the hash
    that decides a rollout, does not depend on the replica count, the scale
    settings, the update strategy, the drift-reload setting, the status or
    the labels and annotations of the AgentDeploy. *)
Theorem scaling_never_changes_pod_spec x y image pol dr :
  same_workload x y → build x image pol dr = build y image pol dr.
Proof.
  intros (Hn & Hns & Has & Ht & H1 & H2 & H3 & H4 & H5 & H6 & H7 & H8 & H9 & H10).
  assert (SimpleCopy x = SimpleCopy y) as Hc.
  { unfold SimpleCopy. by rewrite Hn, Hns, Has, Ht, H1, H2, H3, H4, H5, H7, H10. }
  assert (commonEnv x = commonEnv y) as He by (unfold commonEnv; by rewrite Has, H1).
  unfold buildPodSpec, EncodeAgentDeploy, applyCommonEnv, newAgentContainer, HeadlessServiceName.
  by rewrite Hc, He, Hn, H2, H3, H4, H5, H6, H8, H9.
Qed.
End theorems.

Definition ex_pod_ad (replicas : option Z) : AgentDeploy :=
  mkAgentDeploy (new_meta "ns" "set-a" ∅ ∅ [])
    (mkAgentDeploySpec (named_agent "a") "set" replicas zero_topology) zero_status.

Lemma scaling_never_changes_pod_spec_witness :
  buildPodSpec ad_Name (ex_pod_ad None) "img" "Always" no_resources =
  buildPodSpec ad_Name (ex_pod_ad (Some 7)) "img" "Always" no_resources.
Proof. apply scaling_never_changes_pod_spec. by repeat split. Defined.

Lemma common_env_not_shadowed_witness :
  ∃ c, c ∈ all_containers (buildPodSpec ad_Name (ex_pod_ad None) "img" "Always" no_resources) ∧
    env_value EnvAgentSetName "set" ∈ c_Env c ∧
    ∀ e', e' ∈ c_Env c → ev_Name e' = EnvAgentSetName → e' = env_value EnvAgentSetName "set".
Proof.
  eexists. split; [apply list_elem_of_here|].
  refine (common_env_not_shadowed ad_Name (ex_pod_ad None) "img" "Always" no_resources _
            (env_value EnvAgentSetName "set") _ _); [apply list_elem_of_here|].
  cbn. do 2 apply list_elem_of_further. apply list_elem_of_here.
Defined.

End PodSpecs.
