(* ===== verification/Pods.v ===== *)
(** * Pod reconciliation ([pkg/reconciler/agentdeploy/pods.go])

    One pass over the pods of an AgentDeploy: scale down, prune duplicates,
    fill empty slots, replace outdated pods in batches.  API calls thread the
    cluster state [W] and are recorded in the order they are issued; the
    object hash, the percentage arithmetic of apimachinery and the random
    name suffix are parameters. *)
From S2P Require Import Prelude K8s Types Template PodSpecs.
#[local] Open Scope Z_scope.

Module Pods.
Import PodSpecs.

(** ** Replica counts *)
Definition atLeastOne (v : Z) : Z := if v <? 1 then 1 else v.
Definition clampInt (v lo hi : Z) : Z := if v <? lo then lo else if hi <? v then hi else v.

Definition scaleBounds (s : Scale) : Z * Z :=
  let lo := match Min s with
            | Some m => if DefaultMinReplicas <? m then m else DefaultMinReplicas
            | None => DefaultMinReplicas
            end in
  let hi := default DefaultMaxReplicas (Max s) in
  (lo, if hi <? lo then lo else hi).

Definition DesiredReplicas (ad : AgentDeploy) : Z :=
  if Disabled (ad_Scale ad) then
    match spec_Replicas (ad_Spec ad) with
    | None => 1
    | Some r => atLeastOne r
    end
  else
    let '(lo, hi) := scaleBounds (ad_Scale ad) in
    match spec_Replicas (ad_Spec ad) with
    | None => lo
    | Some r => clampInt r lo hi
    end.

(** ** Pods *)
Definition terminating (p : Pod) : bool :=
  match om_DeletionTimestamp (pod_meta p) with Some t => negb (is_zero t) | None => false end.
Definition pod_annotation (p : Pod) (k : string) : string := str_at (om_Annotations (pod_meta p)) k.
Definition pod_hash (p : Pod) : string := pod_annotation p KeyHash.

Fixpoint ready_condition (cs : list PodCondition) : bool :=
  match cs with
  | [] => false
  | c :: cs' =>
      if String.eqb (pc_Type c) "Ready" && String.eqb (pc_Status c) "True" then true
      else ready_condition cs'
  end.
Definition podReady (p : Pod) : bool := ready_condition (pod_Conditions p).

(** The bucket of a pod: its replica annotation, or -1. *)
Definition replica_of (p : Pod) : Z := default (-1) (Atoi (pod_annotation p KeyReplica)).

Definition groupPodsByReplica (pods : list Pod) : gmap Z (list Pod) :=
  fold_left (λ out p, <[replica_of p := default [] (out !! replica_of p) ++ [p]]> out) pods ∅.

Definition pod_labels (ad : AgentDeploy) (replica : Z) : gmap string string :=
  let base :=
    <[KeyAppName := ad_Name ad]>
    (<[KeyAgentSetName := spec_AgentSetName (ad_Spec ad)]>
    (<[KeyAgentDeployName := ag_Name (spec_Agent (ad_Spec ad))]>
    (<[KeyComponent := ComponentAgent]>
    (<[KeyPartOf := Project]>
    (<[KeyManagedBy := ControllerAgentDeploy]>
    (<[KeyReplica := Itoa replica]>
    (<[KeyServing := "true"%string]> ∅))))))) in
  if tp_IsEntry (spec_Topology (ad_Spec ad)) then <[KeyEntry := "true"%string]> base else base.

(** [newPod]; [suffix] is the random tail of the name. *)
Definition newPod (ad : AgentDeploy) (replica : Z) (podSpec : PodSpec) (hash suffix : string) : Pod :=
  let hostname := ad_Name ad +:+ "-" +:+ Itoa replica in
  mkPod
    (new_meta (ad_Namespace ad) (ad_Name ad +:+ "-" +:+ Itoa replica +:+ "-" +:+ suffix)
       (pod_labels ad replica)
       (<[KeyHash := hash]> (<[KeyReplica := Itoa replica]>
          (<[KeyDefaultContainer := ContainerNameAgent]> ∅)))
       [AgentDeployControllerRef ad])
    (ps_with_host hostname
       (if String.eqb (ps_Subdomain podSpec) "" then HeadlessServiceName ad else ps_Subdomain podSpec)
       podSpec)
    [].

(** ** Calls *)
Inductive PodCall : Set :=
  | DeleteCall (p : Pod) (reason : string)
  | CreateCall (replica : Z) (p : Pod).

Inductive PodsError : Set :=
  | ListFailed (e : ApiError)
  | CreatePodFailed (replica : Z) (e : ApiError)
  | DeletePodFailed (name : string) (e : ApiError).

(** Labels that select the pods of an AgentDeploy. *)
Definition owned_labels (ad : AgentDeploy) : gmap string string :=
  <[KeyAgentSetName := spec_AgentSetName (ad_Spec ad)]>
  (<[KeyAgentDeployName := ag_Name (spec_Agent (ad_Spec ad))]>
  (<[KeyManagedBy := ControllerAgentDeploy]> ∅)).

Definition set_desired (s : AgentDeployStatus) (desired : Z) (now : Time) : AgentDeployStatus :=
  let lastScaled := if negb (uint32 desired =? st_DesiredReplicas s) then now else st_LastScaledAt s in
  mkAgentDeployStatus (st_Conditions s) (st_Phase s) (st_Replicas s) (uint32 desired)
    (st_Selector s) (st_Reason s) (st_Message s) lastScaled (st_ObservedGeneration s)
    (st_ReadyReplicas s) (st_UpdatedReplicas s) (st_UpdatedReadyReplicas s)
    (st_CurrentHash s) (st_UpdateHash s).
Definition set_update_hash (s : AgentDeployStatus) (hash : string) : AgentDeployStatus :=
  if String.eqb (st_UpdateHash s) hash then s
  else mkAgentDeployStatus (st_Conditions s) (st_Phase s) (st_Replicas s) (st_DesiredReplicas s)
    (st_Selector s) (st_Reason s) (st_Message s) (st_LastScaledAt s) (st_ObservedGeneration s)
    (st_ReadyReplicas s) 0 0 (st_CurrentHash s) hash.
Definition set_current_hash (s : AgentDeployStatus) (hash : string) : AgentDeployStatus :=
  mkAgentDeployStatus (st_Conditions s) (st_Phase s) (st_Replicas s) (st_DesiredReplicas s)
    (st_Selector s) (st_Reason s) (st_Message s) (st_LastScaledAt s) (st_ObservedGeneration s)
    (st_ReadyReplicas s) (st_UpdatedReplicas s) (st_UpdatedReadyReplicas s) hash (st_UpdateHash s).

Section reconcile.
Context {W : Type} `{!Client W Pod} `{GoRange}.
Context (ListPods : string → gmap string string → W → W * result ApiError (list Pod)).
Context (RandomLowerCaseString : W → W * string).
Context (MustHash : PodSpec → string).
Context (GetScaledValueFromIntOrPercent : IntOrString → Z → bool → option Z).

Definition ResolveMaxUnavailable (ad : AgentDeploy) (desired : Z) : Z :=
  let mu := GetMaxUnavailable (GetRollingUpdateStrategy
              (ag_UpdateStrategy (spec_Agent (ad_Spec ad)))) in
  match GetScaledValueFromIntOrPercent mu desired true with
  | Some n => if n <? 1 then 1 else n
  | None => 1
  end.

(** The cluster and the calls issued so far. *)
Record St := mkSt { world : W; calls : list PodCall }.
Definition M (A : Type) : Type := St → St * result PodsError A.
Definition ret {A} (a : A) : M A := λ st, (st, Ok a).
Definition bind {A B} (m : M A) (k : A → M B) : M B := λ st,
  match m st with
  | (st', Ok a) => k a st'
  | (st', Err e) => (st', Err e)
  end.
Notation "'do!' x ':=' m 'in' k" := (bind m (λ x, k))
  (at level 10, x pattern, m at level 100, k at level 200).

Definition deletePod (p : Pod) (reason : string) : M unit := λ st,
  if terminating p then (st, Ok tt)
  else
    let '(w', e) := Delete p (world st) in
    let st' := mkSt w' (calls st ++ [DeleteCall p reason]) in
    match e with
    | Some e => if negb (IsNotFound e)
                then (st', Err (DeletePodFailed (om_Name (pod_meta p)) e)) else (st', Ok tt)
    | None => (st', Ok tt)
    end.

Definition createPodForReplica (ad : AgentDeploy) (podSpec : PodSpec) (hash : string) (replica : Z)
    : M unit := λ st,
  let '(w1, suffix) := RandomLowerCaseString (world st) in
  let pod := newPod ad replica podSpec hash suffix in
  let '(w', e) := Create pod w1 in
  let st' := mkSt w' (calls st ++ [CreateCall replica pod]) in
  match e with
  | Some e => if negb (IsAlreadyExists e)
              then (st', Err (CreatePodFailed replica e)) else (st', Ok tt)
  | None => (st', Ok tt)
  end.

Definition listOwnedPods (ad : AgentDeploy) : M (list Pod) := λ st,
  match ListPods (ad_Namespace ad) (owned_labels ad) (world st) with
  | (w', Ok pods) => (mkSt w' (calls st), Ok pods)
  | (w', Err e) => (mkSt w' (calls st), Err (ListFailed e))
  end.

(** A loop over a slice whose body may return an error. *)
Fixpoint for_each {A} (body : A → M unit) (l : list A) : M unit :=
  match l with
  | [] => ret tt
  | x :: l' => do! _ := body x in for_each body l'
  end.

(** (1) Scale-down. *)
Definition scale_down (desired : Z) (entry : Z * list Pod) : M unit :=
  if (0 <=? entry.1) && (entry.1 <? desired) then ret tt
  else for_each (λ p, deletePod p "outside replica window") entry.2.

(** The pods of one slot: the kept pod on the desired hash, and whether a
    live pod on another hash is there. *)
Fixpoint classify_pods (desiredHash : string) (kept : option Pod) (hasLiveOld : bool)
    (pods : list Pod) : M (option Pod * bool) :=
  match pods with
  | [] => ret (kept, hasLiveOld)
  | p :: pods' =>
      if terminating p then classify_pods desiredHash kept hasLiveOld pods'
      else if String.eqb (pod_hash p) desiredHash then
        match kept with
        | None => classify_pods desiredHash (Some p) hasLiveOld pods'
        | Some _ =>
            do! _ := deletePod p "duplicate" in
            classify_pods desiredHash kept hasLiveOld pods'
        end
      else classify_pods desiredHash kept true pods'
  end.

Record Slots := mkSlots {
  needsCreate : list Z;
  needsReplace : list Z;
  updatedOnDesired : Z;
  updatedReadyOnDesired : Z
}.

(** The slot's entry of [switch { kept / hasLiveOld / default }]. *)
Definition file_slot (s : Slots) (replica : Z) (kept : option Pod) (hasLiveOld : bool) : Slots :=
  match kept with
  | Some p => mkSlots (needsCreate s) (needsReplace s) (updatedOnDesired s + 1)
                (updatedReadyOnDesired s + if podReady p then 1 else 0)
  | None =>
      if hasLiveOld
      then mkSlots (needsCreate s) (needsReplace s ++ [replica]) (updatedOnDesired s)
             (updatedReadyOnDesired s)
      else mkSlots (needsCreate s ++ [replica]) (needsReplace s) (updatedOnDesired s)
             (updatedReadyOnDesired s)
  end.

Fixpoint classify (byReplica : gmap Z (list Pod)) (desiredHash : string) (s : Slots)
    (replicas : list Z) : M Slots :=
  match replicas with
  | [] => ret s
  | r :: rest =>
      do! (kept, hasLiveOld) :=
        classify_pods desiredHash None false (default [] (byReplica !! r)) in
      classify byReplica desiredHash (file_slot s r kept hasLiveOld) rest
  end.

(** One slot of the rolling replacement. *)
Definition replace_slot (ad : AgentDeploy) (byReplica : gmap Z (list Pod)) (podSpec : PodSpec)
    (desiredHash : string) (replica : Z) : M unit :=
  do! _ := for_each (λ p,
             if terminating p || String.eqb (pod_hash p) desiredHash then ret tt
             else deletePod p "rolling update")
             (default [] (byReplica !! replica)) in
  createPodForReplica ad podSpec desiredHash replica.

(** The pass after the status bookkeeping; its value says whether
    [CurrentHash] is promoted. *)
Definition pods_pass (ad : AgentDeploy) (desired : Z) (podSpec : PodSpec) (desiredHash : string)
    : M bool :=
  do! existing := listOwnedPods ad in
  let byReplica := groupPodsByReplica existing in
  do! _ := for_each (scale_down desired) (range_map byReplica) in
  do! s := classify byReplica desiredHash (mkSlots [] [] 0 0) (seqZ 0 desired) in
  do! _ := for_each (createPodForReplica ad podSpec desiredHash) (needsCreate s) in
  if bool_decide (needsReplace s = []) then
    ret (updatedOnDesired s + Z.of_nat (length (needsCreate s)) =? desired)
  else
    let maxUnavailable := ResolveMaxUnavailable ad desired in
    if (0 <? updatedOnDesired s) && (updatedReadyOnDesired s <? updatedOnDesired s) then ret false
    else
      let batch := Z.min maxUnavailable (Z.of_nat (length (needsReplace s))) in
      do! _ := for_each (replace_slot ad byReplica podSpec desiredHash)
                 (take (Z.to_nat batch) (needsReplace s)) in
      ret false.

(** [reconcilePods]: the status it leaves on the AgentDeploy and its error. *)
Definition reconcilePods (ad : AgentDeploy) (image imagePullPolicy : string)
    (defaultResources : ResourceRequirements) (encode_object : AgentDeploy → string)
    (now : Time) (st : St) : St * AgentDeployStatus * option PodsError :=
  let desired := DesiredReplicas ad in
  let status := set_desired (ad_Status ad) desired now in
  let podSpec := buildPodSpec encode_object ad image imagePullPolicy defaultResources in
  let desiredHash := MustHash podSpec in
  let status := set_update_hash status desiredHash in
  match pods_pass ad desired podSpec desiredHash st with
  | (st', Ok promote) =>
      (st', if (promote : bool) then set_current_hash status desiredHash else status, None)
  | (st', Err e) => (st', status, Some e)
  end.

(** [updatePodStatus]: fold the live pods into the status counters. *)
Definition count_pods (updateHash : string) (c : Z * Z * Z * Z) (p : Pod) : Z * Z * Z * Z :=
  let '(replicas, ready, updated, updatedReady) := c in
  if terminating p then c
  else
    let isReady := podReady p in
    let isUpdated := String.eqb (pod_hash p) updateHash in
    (uint32 (replicas + 1), if isReady then uint32 (ready + 1) else ready,
     if isUpdated then uint32 (updated + 1) else updated,
     if isUpdated && isReady then uint32 (updatedReady + 1) else updatedReady).

Definition selector_of (ad : AgentDeploy) : string :=
  KeyAgentSetName +:+ "=" +:+ spec_AgentSetName (ad_Spec ad) +:+ "," +:+
  KeyAgentDeployName +:+ "=" +:+ ag_Name (spec_Agent (ad_Spec ad)) +:+ "," +:+
  KeyManagedBy +:+ "=" +:+ ControllerAgentDeploy.

Definition updatePodStatus (ad : AgentDeploy) : M AgentDeployStatus :=
  do! pods := listOwnedPods ad in
  let s := ad_Status ad in
  let '(replicas, ready, updated, updatedReady) :=
    fold_left (count_pods (st_UpdateHash s)) pods (0, 0, 0, 0) in
  ret (mkAgentDeployStatus (st_Conditions s) (st_Phase s) replicas (st_DesiredReplicas s)
         (selector_of ad) (st_Reason s) (st_Message s) (st_LastScaledAt s)
         (st_ObservedGeneration s) ready updated updatedReady
         (st_CurrentHash s) (st_UpdateHash s)).

(** ** The pass as a plan

    What a pass does is fixed by the pods it lists: [intents] is the
    sequence of writes, [promote] whether the rollout is complete. *)
Inductive Intent : Set :=
  | Del (p : Pod) (reason : string)
  | New (replica : Z).

Definition in_window (desired r : Z) : bool := (0 <=? r) && (r <? desired).
Definition slot_pods (existing : list Pod) (r : Z) : list Pod :=
  filter (λ p, replica_of p = r) existing.
Definition live (l : list Pod) : list Pod := filter (λ p, terminating p = false) l.
Definition on_hash (h : string) (l : list Pod) : list Pod := filter (λ p, pod_hash p = h) (live l).
Definition off_hash (h : string) (l : list Pod) : list Pod := filter (λ p, pod_hash p ≠ h) (live l).

Section plan.
Context (ad : AgentDeploy) (desired : Z) (h : string) (existing : list Pod).

Definition out_dels : list Intent :=
  flat_map (λ e : Z * list Pod,
    if in_window desired e.1 then []
    else map (λ p, Del p "outside replica window") (live e.2))
    (range_map (groupPodsByReplica existing)).
Definition dup_dels : list Intent :=
  flat_map (λ r, map (λ p, Del p "duplicate") (tail (on_hash h (slot_pods existing r))))
    (seqZ 0 desired).
(** Slots with no live pod, and slots whose live pods are all outdated. *)
Definition empty_slots : list Z := filter (λ r, live (slot_pods existing r) = []) (seqZ 0 desired).
Definition stale_slots : list Z :=
  filter (λ r, live (slot_pods existing r) ≠ [] ∧ on_hash h (slot_pods existing r) = [])
    (seqZ 0 desired).
(** The pod kept in each slot that is on the desired hash. *)
Definition kept_pods : list Pod :=
  omap (λ r, head (on_hash h (slot_pods existing r))) (seqZ 0 desired).
(** A batch waits while a kept pod is not ready. *)
Definition waiting : bool := negb (forallb podReady kept_pods).
Definition batch_slots : list Z :=
  if waiting then []
  else take (Z.to_nat (Z.min (ResolveMaxUnavailable ad desired) (Z.of_nat (length stale_slots))))
         stale_slots.
Definition replace_intents (r : Z) : list Intent :=
  map (λ p, Del p "rolling update") (off_hash h (slot_pods existing r)) ++ [New r].
Definition intents : list Intent :=
  out_dels ++ dup_dels ++ map New empty_slots ++ flat_map replace_intents batch_slots.
Definition promote : bool :=
  bool_decide (stale_slots = []) &&
  (Z.of_nat (length kept_pods) + Z.of_nat (length empty_slots) =? desired).
End plan.

#[local] Unset Default Proof Using.

(** ** Programs up to pointwise equality *)
Definition Meq {A} : relation (M A) := pointwise_relation St eq.
#[local] Infix "≐" := Meq (at level 70).
#[local] Instance Meq_equiv {A} : Equivalence (@Meq A).
Proof. unfold Meq. apply _. Qed.
#[local] Instance bind_proper {A B} :
  Proper (Meq ==> pointwise_relation A Meq ==> Meq) (@bind A B).
Proof.
  intros m m' Hm k k' Hk st. unfold bind. rewrite (Hm st). destruct (m' st) as [st' [a|e]]; [|done].
  apply Hk.
Qed.

Lemma bind_ret_l {A B} (a : A) (k : A → M B) : bind (ret a) k ≐ k a.
Proof. done. Qed.
Lemma bind_assoc {A B C} (m : M A) (k : A → M B) (l : B → M C) :
  bind (bind m k) l ≐ bind m (λ x, bind (k x) l).
Proof. intros st. unfold bind. by destruct (m st) as [st' [a|e]]. Qed.
Lemma bind_ret_tt (m : M unit) : bind m (λ _, ret tt) ≐ m.
Proof. intros st. unfold bind. by destruct (m st) as [st' [[]|e]]. Qed.

Section exec.
Context (ad : AgentDeploy) (podSpec : PodSpec) (h : string).

Definition run_intent (i : Intent) : M unit :=
  match i with
  | Del p reason => deletePod p reason
  | New r => createPodForReplica ad podSpec h r
  end.
Definition exec : list Intent → M unit := for_each run_intent.

Lemma exec_app a b : exec (a ++ b) ≐ do! _ := exec a in exec b.
Proof.
  induction a as [|i a IH]; cbn; [done|]. rewrite bind_assoc. by setoid_rewrite IH.
Qed.

Lemma for_each_exec {A} (body : A → M unit) (g : A → list Intent) l :
  (∀ x, body x ≐ exec (g x)) → for_each body l ≐ exec (flat_map g l).
Proof.
  intros Hb. induction l as [|x l IH]; cbn [for_each flat_map]; [done|].
  rewrite exec_app, (Hb x). by setoid_rewrite IH.
Qed.

Lemma deletePod_live p reason :
  deletePod p reason ≐ exec (map (λ p, Del p reason) (live [p])).
Proof.
  unfold live. rewrite filter_cons, filter_nil. case_decide as Hl; cbn.
  - by rewrite bind_ret_tt.
  - intros st. unfold deletePod. by destruct (terminating p).
Qed.

Lemma live_cons p l : live (p :: l) = live [p] ++ live l.
Proof. unfold live. rewrite !filter_cons, filter_nil. by case_decide. Qed.

Lemma for_each_delete reason l :
  for_each (λ p, deletePod p reason) l ≐ exec (map (λ p, Del p reason) (live l)).
Proof.
  induction l as [|p l IH]; [done|]. cbn [for_each]. rewrite live_cons, map_app, exec_app.
  rewrite (deletePod_live p reason). by setoid_rewrite IH.
Qed.
End exec.

Lemma groupPodsByReplica_slot existing r :
  default [] (groupPodsByReplica existing !! r) = slot_pods existing r.
Proof.
  unfold groupPodsByReplica, slot_pods. induction existing as [|p l IH] using rev_ind; [done|].
  rewrite fold_left_app, filter_app. cbn [fold_left]. rewrite filter_cons, filter_nil.
  destruct (decide (replica_of p = r)) as [<-|Hne].
  - by rewrite lookup_insert_eq, <- IH.
  - rewrite lookup_insert_ne, app_nil_r by done. exact IH.
Qed.

Lemma groupPodsByReplica_lookup existing r l :
  groupPodsByReplica existing !! r = Some l → l = slot_pods existing r.
Proof. intros E. rewrite <- groupPodsByReplica_slot, E. done. Qed.

(** ** Classification *)
Lemma on_hash_cons h p l :
  on_hash h (p :: l) =
    if bool_decide (terminating p = false ∧ pod_hash p = h) then p :: on_hash h l else on_hash h l.
Proof.
  unfold on_hash, live. rewrite filter_cons. case_decide as Ht.
  - rewrite filter_cons. case_decide as Hp; case_bool_decide; naive_solver.
  - case_bool_decide; naive_solver.
Qed.
Lemma off_hash_cons h p l :
  off_hash h (p :: l) =
    if bool_decide (terminating p = false ∧ pod_hash p ≠ h) then p :: off_hash h l else off_hash h l.
Proof.
  unfold off_hash, live. rewrite filter_cons. case_decide as Ht.
  - rewrite filter_cons. case_decide as Hp; case_bool_decide; naive_solver.
  - case_bool_decide; naive_solver.
Qed.

Lemma live_nil h l : live l = [] ↔ on_hash h l = [] ∧ off_hash h l = [].
Proof.
  unfold on_hash, off_hash. generalize (live l) as k. intros k.
  destruct k as [|p k]; [done|]. rewrite !filter_cons. split; [done|].
  case_decide as E1; [by intros []|]. case_decide as E2; [by intros []|]. by destruct E2.
Qed.

Definition has_old (h : string) (l : list Pod) : bool := negb (bool_decide (off_hash h l = [])).

Lemma classify_pods_plan ad podSpec h kept old pods :
  classify_pods h kept old pods ≐
    do! _ := exec ad podSpec h (map (λ p, Del p "duplicate")
               match kept with Some _ => on_hash h pods | None => tail (on_hash h pods) end) in
    ret (match kept with Some p => Some p | None => head (on_hash h pods) end,
         old || has_old h pods).
Proof.
  revert kept old. induction pods as [|p pods IH]; intros kept old; cbn [classify_pods].
  { unfold has_old. rewrite bool_decide_true by done. cbn [negb]. rewrite orb_false_r.
    by destruct kept. }
  unfold has_old. rewrite on_hash_cons, off_hash_cons.
  destruct (terminating p) eqn:Ht.
  { rewrite !bool_decide_eq_false_2 by naive_solver. apply IH. }
  destruct (String.eqb_spec (pod_hash p) h) as [Hh|Hh].
  - rewrite bool_decide_eq_true_2 by done.
    rewrite (bool_decide_eq_false_2 (false = false ∧ pod_hash p ≠ h)) by naive_solver.
    destruct kept as [q|].
    + cbn [map]. change (exec ad podSpec h (?i :: ?l)) with
        (do! _ := run_intent ad podSpec h i in exec ad podSpec h l).
      rewrite bind_assoc. by setoid_rewrite IH.
    + apply IH.
  - rewrite (bool_decide_eq_false_2 (false = false ∧ pod_hash p = h)) by naive_solver.
    rewrite (bool_decide_eq_true_2 (false = false ∧ _)) by done.
    rewrite IH. by rewrite orb_true_l, orb_true_r.
Qed.

Lemma classify_plan ad podSpec h existing s rs :
  classify (groupPodsByReplica existing) h s rs ≐
    do! _ := exec ad podSpec h (flat_map (λ r, map (λ p, Del p "duplicate")
               (tail (on_hash h (slot_pods existing r)))) rs) in
    ret (fold_left (λ s r, file_slot s r (head (on_hash h (slot_pods existing r)))
                             (has_old h (slot_pods existing r))) rs s).
Proof.
  revert s. induction rs as [|r rs IH]; intros s; cbn [classify flat_map fold_left]; [done|].
  rewrite groupPodsByReplica_slot, (classify_pods_plan ad podSpec), exec_app, !bind_assoc.
  cbn [orb]. setoid_rewrite bind_ret_l. by setoid_rewrite IH.
Qed.

Lemma fold_slots h existing rs s :
  let s' := fold_left (λ s r, file_slot s r (head (on_hash h (slot_pods existing r)))
                                (has_old h (slot_pods existing r))) rs s in
  let kept := omap (λ r, head (on_hash h (slot_pods existing r))) rs in
  needsCreate s' = needsCreate s ++ filter (λ r, live (slot_pods existing r) = []) rs ∧
  needsReplace s' = needsReplace s ++
    filter (λ r, live (slot_pods existing r) ≠ [] ∧ on_hash h (slot_pods existing r) = []) rs ∧
  updatedOnDesired s' = updatedOnDesired s + Z.of_nat (length kept) ∧
  updatedReadyOnDesired s' =
    updatedReadyOnDesired s + Z.of_nat (length (filter (λ p, podReady p = true) kept)).
Proof.
  revert s. induction rs as [|r rs IH]; intros s; cbn [fold_left omap list_omap].
  { cbn. rewrite !app_nil_r. split_and!; (done || lia). }
  specialize (IH (file_slot s r (head (on_hash h (slot_pods existing r)))
                    (has_old h (slot_pods existing r)))).
  cbn zeta in IH |- *. destruct IH as (-> & -> & -> & ->).
  rewrite !filter_cons. unfold file_slot, has_old. pose proof (live_nil h (slot_pods existing r)) as Hl.
  destruct (on_hash h (slot_pods existing r)) as [|p k] eqn:E; cbn [head].
  - case_bool_decide as Ho; cbn [negb needsCreate needsReplace updatedOnDesired updatedReadyOnDesired].
    + rewrite (decide_True _ _ (proj2 Hl (conj eq_refl Ho))).
      rewrite decide_False by naive_solver. rewrite <- app_assoc. split_and!; done.
    + rewrite decide_False by naive_solver. rewrite decide_True by naive_solver.
      rewrite <- app_assoc. split_and!; done.
  - cbn [needsCreate needsReplace updatedOnDesired updatedReadyOnDesired].
    rewrite !decide_False by naive_solver. rewrite filter_cons.
    split_and!; [done|done|cbn [length]; lia|].
    destruct (podReady p); [rewrite decide_True by done|rewrite decide_False by done];
      cbn [length]; lia.
Qed.

(** ** The pass executes its plan *)
Lemma scale_down_plan ad podSpec h desired e :
  scale_down desired e ≐
    exec ad podSpec h (if in_window desired e.1 then []
                       else map (λ p, Del p "outside replica window") (live e.2)).
Proof. unfold scale_down, in_window. case_match; [done|]. apply for_each_delete. Qed.

Lemma delete_old_plan ad podSpec h l :
  for_each (λ p, if terminating p || String.eqb (pod_hash p) h then ret tt
                 else deletePod p "rolling update") l ≐
    exec ad podSpec h (map (λ p, Del p "rolling update") (off_hash h l)).
Proof.
  rewrite (for_each_exec ad podSpec h _
             (λ p, map (λ p, Del p "rolling update") (off_hash h [p]))).
  - apply reflexive_eq. f_equal. induction l as [|p l IH]; [done|].
    cbn [flat_map]. rewrite IH, !off_hash_cons. by case_bool_decide.
  - intros p. rewrite off_hash_cons. destruct (terminating p) eqn:Ht; cbn [orb].
    { by rewrite bool_decide_eq_false_2 by naive_solver. }
    destruct (String.eqb_spec (pod_hash p) h).
    { by rewrite bool_decide_eq_false_2 by naive_solver. }
    rewrite bool_decide_eq_true_2 by done. rewrite (deletePod_live ad podSpec h).
    unfold live. by rewrite filter_cons, filter_nil, decide_True.
Qed.

Lemma replace_slot_plan ad podSpec h existing r :
  replace_slot ad (groupPodsByReplica existing) podSpec h r ≐
    exec ad podSpec h (replace_intents h existing r).
Proof.
  unfold replace_slot, replace_intents. rewrite groupPodsByReplica_slot, exec_app.
  rewrite (delete_old_plan ad podSpec). apply bind_proper; [done|]. intros _.
  symmetry. apply bind_ret_tt.
Qed.

Lemma filter_all_length {A} (P : A → bool) l :
  (0 <? Z.of_nat (length l)) && (Z.of_nat (length (filter (λ x, P x = true) l)) <? Z.of_nat (length l))
  = negb (forallb P l).
Proof.
  pose proof (length_filter (λ x, P x = true) l) as Hle.
  enough (length (filter (λ x, P x = true) l) = length l ↔ forallb P l = true) as Hiff.
  { destruct (forallb P l) eqn:E; cbn [negb].
    - apply andb_false_iff. right. apply Z.ltb_ge. rewrite (proj2 Hiff eq_refl). lia.
    - apply andb_true_iff. rewrite !Z.ltb_lt.
      assert (length (filter (λ x, P x = true) l) ≠ length l) by naive_solver. lia. }
  clear Hle. induction l as [|x l IH]; [done|]. rewrite filter_cons. cbn [forallb length].
  pose proof (length_filter (λ x, P x = true) l).
  destruct (P x); cbn [andb]; [rewrite decide_True by done|rewrite decide_False by done];
    cbn [length]; [rewrite <- IH; lia|]. split; [lia|done].
Qed.

(** The pass after its pods are listed. *)
Definition pass_body (ad : AgentDeploy) (desired : Z) (podSpec : PodSpec) (h : string)
    (existing : list Pod) : M bool :=
  do! _ := exec ad podSpec h (intents ad desired h existing) in
  ret (promote desired h existing).

Lemma pods_pass_plan ad desired podSpec h :
  pods_pass ad desired podSpec h ≐
    do! existing := listOwnedPods ad in pass_body ad desired podSpec h existing.
Proof.
  unfold pods_pass. apply bind_proper; [done|]. intros existing. unfold pass_body, intents.
  rewrite exec_app, bind_assoc. apply bind_proper.
  { apply for_each_exec. intros e. apply scale_down_plan. }
  intros _. rewrite exec_app, bind_assoc, (classify_plan ad podSpec h), bind_assoc.
  apply bind_proper; [done|]. intros _. rewrite bind_ret_l.
  destruct (fold_slots h existing (seqZ 0 desired) (mkSlots [] [] 0 0)) as (Hc & Hr & Hu & Hrd).
  cbn zeta in Hc, Hr, Hu, Hrd. rewrite Hc, Hr, Hu, Hrd.
  cbn [needsCreate needsReplace updatedOnDesired updatedReadyOnDesired app].
  rewrite !Z.add_0_l. fold (kept_pods desired h existing).
  fold (empty_slots desired existing). fold (stale_slots desired h existing).
  rewrite filter_all_length. fold (waiting desired h existing).
  rewrite exec_app, bind_assoc. apply bind_proper.
  { assert (∀ l, flat_map (λ r, [New r]) l = map New l) as Hnew
      by (induction l as [|r l IH]; cbn; congruence).
    rewrite <- Hnew. apply for_each_exec. intros r. symmetry. apply bind_ret_tt. }
  intros _. unfold promote, batch_slots.
  case_bool_decide as Hs; cbn [andb].
  - rewrite Hs. cbn [length]. destruct (waiting desired h existing); [done|].
    by rewrite take_nil.
  - destruct (waiting desired h existing); [done|].
    rewrite (for_each_exec ad podSpec h _ (replace_intents h existing)); [done|].
    intros r. apply replace_slot_plan.
Qed.

(** C2: a reconcile pass is its plan: it lists the pods once and then
    issues exactly the writes [intents] derives from them, in that order,
    stopping at the first failure; the status it leaves is fixed by the
    plan, and [CurrentHash] moves only when every write succeeded and the
    plan completes the rollout. *)
Theorem reconcile_executes_plan ad image pol dr enc now st :
  let desired := DesiredReplicas ad in
  let podSpec := buildPodSpec enc ad image pol dr in
  let h := MustHash podSpec in
  let status := set_update_hash (set_desired (ad_Status ad) desired now) h in
  reconcilePods ad image pol dr enc now st =
    match listOwnedPods ad st with
    | (st1, Err e) => (st1, status, Some e)
    | (st1, Ok existing) =>
        match exec ad podSpec h (intents ad desired h existing) st1 with
        | (st2, Ok _) =>
            (st2, if promote desired h existing then set_current_hash status h else status, None)
        | (st2, Err e) => (st2, status, Some e)
        end
    end.
Proof.
  cbn zeta. unfold reconcilePods. rewrite (pods_pass_plan ad _ _ _ st). unfold bind.
  destruct (listOwnedPods ad st) as [st1 [existing|e]]; [|done].
  unfold pass_body, bind. by destruct (exec _ _ _ _ st1) as [st2 [u|e]].
Qed.

(** ** What a plan may do *)

Lemma live_elem p l : p ∈ live l ↔ terminating p = false ∧ p ∈ l.
Proof. unfold live. by rewrite list_elem_of_filter. Qed.
Lemma slot_elem p existing r : p ∈ slot_pods existing r ↔ replica_of p = r ∧ p ∈ existing.
Proof. unfold slot_pods. by rewrite list_elem_of_filter. Qed.
Lemma on_hash_elem p h l : p ∈ on_hash h l ↔ pod_hash p = h ∧ terminating p = false ∧ p ∈ l.
Proof. unfold on_hash. by rewrite list_elem_of_filter, live_elem. Qed.
Lemma off_hash_elem p h l : p ∈ off_hash h l ↔ pod_hash p ≠ h ∧ terminating p = false ∧ p ∈ l.
Proof. unfold off_hash. by rewrite list_elem_of_filter, live_elem. Qed.

(** Why a pod may be deleted. *)
Definition justified (ad : AgentDeploy) (desired : Z) (h : string) (existing : list Pod) (p : Pod)
    : Prop :=
  p ∈ existing ∧ terminating p = false ∧
  (in_window desired (replica_of p) = false ∨
   (in_window desired (replica_of p) = true ∧ pod_hash p = h ∧
      p ∈ tail (on_hash h (slot_pods existing (replica_of p)))) ∨
   (pod_hash p ≠ h ∧ replica_of p ∈ batch_slots ad desired h existing)).

Lemma flat_map_elem {A B} (f : A → list B) l y : y ∈ flat_map f l ↔ ∃ x, x ∈ l ∧ y ∈ f x.
Proof. rewrite list_elem_of_In, in_flat_map. by setoid_rewrite list_elem_of_In. Qed.

Lemma seqZ_window desired r : r ∈ seqZ 0 desired ↔ in_window desired r = true.
Proof. rewrite elem_of_seqZ. unfold in_window. rewrite andb_true_iff, Z.leb_le, Z.ltb_lt. lia. Qed.

Lemma intents_del ad desired h existing p reason :
  Del p reason ∈ intents ad desired h existing → justified ad desired h existing p.
Proof using Type.
  clear dependent W.
  unfold intents. rewrite !elem_of_app. intros [Hd|[Hd|[Hd|Hd]]].
  - unfold out_dels in Hd. apply flat_map_elem in Hd as ([r l] & Hr & Hd).
    apply range_map_elem, groupPodsByReplica_lookup in Hr as ->. cbn [fst snd] in Hd.
    destruct (in_window desired r) eqn:Hw; [set_solver|].
    apply list_elem_of_fmap in Hd as (q & [= <- _] & [Ht [Hq Hin]%slot_elem]%live_elem).
    split_and!; try done. left. by rewrite Hq.
  - unfold dup_dels in Hd. apply flat_map_elem in Hd as (r & Hr & Hd).
    apply list_elem_of_fmap in Hd as (q & [= <- _] & Hq).
    assert (p ∈ on_hash h (slot_pods existing r)) as Hin.
    { destruct (on_hash h (slot_pods existing r)); [done|]. set_solver. }
    apply on_hash_elem in Hin as (Hh & Ht & [<- Hin]%slot_elem).
    apply seqZ_window in Hr. split_and!; try done. right. left. done.
  - apply list_elem_of_fmap in Hd as (r & [=] & _).
  - apply flat_map_elem in Hd as (r & Hr & Hd). unfold replace_intents in Hd.
    apply elem_of_app in Hd as [Hd|Hd]; [|set_solver].
    apply list_elem_of_fmap in Hd as (q & [= <- _] & (Hh & Ht & [<- Hin]%slot_elem)%off_hash_elem).
    split_and!; try done. by right; right.
Qed.

(** The slots a plan creates pods for. *)
Definition created (l : list Intent) : list Z := omap (λ i, match i with New r => Some r | _ => None end) l.

Lemma created_app a b : created (a ++ b) = created a ++ created b.
Proof. apply omap_app. Qed.
Lemma created_del {A} (f : A → Pod) reason l : created (map (λ x, Del (f x) reason) l) = [].
Proof. by induction l. Qed.
Lemma created_flat {A} (g : A → list Intent) l :
  created (flat_map g l) = flat_map (λ x, created (g x)) l.
Proof. induction l as [|x l IH]; [done|]. cbn [flat_map]. by rewrite created_app, IH. Qed.

Lemma created_intents ad desired h existing :
  created (intents ad desired h existing) =
    empty_slots desired existing ++ batch_slots ad desired h existing.
Proof.
  unfold intents. rewrite !created_app. unfold out_dels, dup_dels. rewrite !created_flat.
  assert (∀ {A} (l : list A), flat_map (λ _, @nil Z) l = []) as Hnil by (intros A l; by induction l).
  assert (∀ {A} (f g : A → list Z) l, (∀ x, f x = g x) → flat_map f l = flat_map g l) as Hext.
  { intros A f g l Hfg. induction l as [|x l IH]; cbn; congruence. }
  rewrite (Hext _ _ (λ _, [])), Hnil.
  2:{ intros [r l]. case_match; [done|]. apply (created_del id). }
  rewrite (Hext _ _ (λ _, []) (seqZ 0 desired)), Hnil.
  2:{ intros r. apply (created_del id). }
  rewrite (Hext _ _ (λ r, [r]) (batch_slots ad desired h existing)).
  2:{ intros r. unfold replace_intents. rewrite created_app, (created_del id). done. }
  cbn [app]. f_equal.
  - generalize (empty_slots desired existing) as l. induction l as [|r l IH]; [done|].
    cbn. f_equal. exact IH.
  - generalize (batch_slots ad desired h existing) as l. induction l as [|r l IH]; cbn; congruence.
Qed.

Lemma batch_sublist ad desired h existing :
  ∀ r, r ∈ batch_slots ad desired h existing → r ∈ stale_slots desired h existing.
Proof.
  intros r. unfold batch_slots. case_match; [set_solver|]. apply subseteq_take.
Qed.

Lemma created_nodup ad desired h existing : NoDup (created (intents ad desired h existing)).
Proof.
  rewrite created_intents. apply NoDup_app. split_and!.
  - apply NoDup_filter, NoDup_seqZ.
  - intros r [He _]%list_elem_of_filter Hb%batch_sublist.
    apply list_elem_of_filter in Hb as [[Hs _] _]. done.
  - unfold batch_slots. case_match; [constructor|]. apply (sublist_NoDup _ (stale_slots desired h existing));
      [apply NoDup_filter, NoDup_seqZ|apply sublist_take].
Qed.

(** ** Calls on the wire *)
Section calls.
Context (ad : AgentDeploy) (podSpec : PodSpec) (h : string).

(** The API call an intent becomes. *)
Definition realizes (c : PodCall) (i : Intent) : Prop :=
  match c, i with
  | DeleteCall p reason, Del p' reason' => p = p' ∧ reason = reason'
  | CreateCall r pod, New r' => r = r' ∧ ∃ suffix, pod = newPod ad r podSpec h suffix
  | _, _ => False
  end.
Definition live_intent (i : Intent) : Prop :=
  match i with Del p _ => terminating p = false | New _ => True end.

Lemma run_intent_call i st :
  live_intent i → ∃ c st' r, run_intent ad podSpec h i st = (st', r) ∧
    calls st' = calls st ++ [c] ∧ realizes c i.
Proof.
  destruct i as [p reason|r]; cbn [live_intent run_intent].
  - intros Ht. unfold deletePod. rewrite Ht.
    destruct (Delete p (world st)) as [w' e]. exists (DeleteCall p reason).
    destruct e as [e|]; [destruct (IsNotFound e)|]; cbn; eauto 6.
  - intros _. unfold createPodForReplica.
    destruct (RandomLowerCaseString (world st)) as [w1 suffix].
    destruct (Create _ w1) as [w' e]. exists (CreateCall r (newPod ad r podSpec h suffix)).
    destruct e as [e|]; [destruct (IsAlreadyExists e)|]; cbn; eauto 8.
Qed.

Lemma exec_calls l st st' r :
  Forall live_intent l → exec ad podSpec h l st = (st', r) →
  ∃ cs k, calls st' = calls st ++ cs ∧ Forall2 realizes cs (take k l) ∧
    (is_Ok r = true → k = length l).
Proof.
  intros HF. revert st. induction HF as [|i l Hi HF IH]; intros st.
  { intros [= <- <-]. exists [], 0%nat. by rewrite app_nil_r. }
  unfold exec. cbn [for_each]. unfold bind at 1.
  destruct (run_intent_call i st Hi) as (c & st1 & r1 & -> & Hc & Hr).
  destruct r1 as [u|e].
  - intros (cs & k & Hcs & HF2 & Hk)%IH. exists (c :: cs), (S k).
    rewrite Hcs, Hc, <- app_assoc. split_and!; [done|by constructor|].
    intros Hok. cbn. by rewrite Hk.
  - intros [= <- <-]. exists [c], 1%nat. split_and!; [done| |done].
    cbn [take]. rewrite take_0. by repeat constructor.
Qed.
End calls.

Lemma intents_live ad desired h existing : Forall live_intent (intents ad desired h existing).
Proof.
  apply Forall_forall. intros [p reason|r] Hi; [|done]. by apply intents_del in Hi as (_ & Ht & _).
Qed.

Lemma listOwnedPods_calls ad st st1 r : listOwnedPods ad st = (st1, r) → calls st1 = calls st.
Proof. unfold listOwnedPods. destruct (ListPods _ _ _) as [w [pods|e]]; by intros [= <- <-]. Qed.

(** The slots a sequence of calls creates pods for. *)
Definition created_calls (cs : list PodCall) : list Z :=
  omap (λ c, match c with CreateCall r _ => Some r | _ => None end) cs.

Lemma realized_created ad podSpec h cs l :
  Forall2 (realizes ad podSpec h) cs l → created_calls cs = created l.
Proof.
  induction 1 as [|c i cs l Hc _ IH]; [done|].
  destruct c as [p reason|r pod], i as [p' reason'|r']; cbn in Hc; try done.
  destruct Hc as [-> _]. cbn. f_equal. exact IH.
Qed.

Lemma ResolveMaxUnavailable_pos ad desired : 1 <= ResolveMaxUnavailable ad desired.
Proof.
  unfold ResolveMaxUnavailable. destruct (GetScaledValueFromIntOrPercent _ _ _) as [n|]; [|lia].
  destruct (n <? 1) eqn:E; zbool; lia.
Qed.

(** C1: a pass is safe whatever the API answers.  It deletes only live
    pods it listed, each for a reason: the pod's slot is outside the desired
    window, another pod of its slot is already on the desired hash, or it is
    outdated and its slot belongs to this pass's batch.  The batch has at
    most [maxUnavailable] slots and is empty while a replaced pod is not
    ready.  It creates at most one pod per slot, inside the window, on the
    desired hash, and only in slots without a live pod or in the batch. *)
Theorem pods_pass_safe ad desired podSpec h st st1 st' existing r :
  listOwnedPods ad st = (st1, Ok existing) → pods_pass ad desired podSpec h st = (st', r) →
  ∃ cs, calls st' = calls st ++ cs ∧
    (∀ p reason, DeleteCall p reason ∈ cs → justified ad desired h existing p) ∧
    NoDup (created_calls cs) ∧
    (∀ k pod, CreateCall k pod ∈ cs →
       in_window desired k = true ∧
       (live (slot_pods existing k) = [] ∨ k ∈ batch_slots ad desired h existing) ∧
       ∃ suffix, pod = newPod ad k podSpec h suffix) ∧
    Z.of_nat (length (batch_slots ad desired h existing)) <= ResolveMaxUnavailable ad desired ∧
    (forallb podReady (kept_pods desired h existing) = false →
       batch_slots ad desired h existing = []).
Proof.
  intros Hl Hp. rewrite (pods_pass_plan ad desired podSpec h st) in Hp. unfold bind in Hp.
  rewrite Hl in Hp. unfold pass_body, bind in Hp.
  destruct (exec ad podSpec h (intents ad desired h existing) st1) as [st2 r2] eqn:He.
  assert (st' = st2) as -> by (destruct r2; by injection Hp).
  destruct (exec_calls _ _ _ _ _ _ _ (intents_live ad desired h existing) He) as (cs & k & Hc & HF & _).
  exists cs. rewrite <- (listOwnedPods_calls _ _ _ _ Hl). split_and!.
  - done.
  - intros p reason Hin. apply (intents_del ad desired h existing p reason).
    destruct (Forall2_elem_l _ _ _ _ HF Hin) as (i & Hi & Hr).
    destruct i; cbn in Hr; [|done]. destruct Hr as [-> ->].
    by apply (subseteq_take k).
  - rewrite (realized_created _ _ _ _ _ HF).
    apply (sublist_NoDup _ (created (intents ad desired h existing))); [apply created_nodup|].
    rewrite <- (take_drop k (intents ad desired h existing)) at 2. rewrite created_app.
    apply sublist_inserts_r. done.
  - intros j pod Hin. destruct (Forall2_elem_l _ _ _ _ HF Hin) as (i & Hi & Hr).
    destruct i as [|j']; cbn in Hr; [done|]. destruct Hr as [-> Hs].
    apply (subseteq_take k) in Hi.
    assert (j' ∈ created (intents ad desired h existing)) as Hj.
    { apply list_elem_of_omap. by exists (New j'). }
    rewrite created_intents in Hj. apply elem_of_app in Hj as [Hj|Hj].
    + apply list_elem_of_filter in Hj as [He' Hj]. apply seqZ_window in Hj. auto.
    + pose proof (batch_sublist _ _ _ _ _ Hj) as [_ Hw%seqZ_window]%list_elem_of_filter. auto.
  - pose proof (ResolveMaxUnavailable_pos ad desired).
    unfold batch_slots. destruct (waiting desired h existing); [cbn; lia|].
    rewrite length_take. lia.
  - intros Hr. unfold batch_slots, waiting. by rewrite Hr.
Qed.

(** ** Progress *)
Lemma slots_partition (desired : Z) h existing :
  0 <= desired →
  Z.of_nat (length (kept_pods desired h existing)) +
  Z.of_nat (length (empty_slots desired existing)) +
  Z.of_nat (length (stale_slots desired h existing)) = desired.
Proof.
  intros Hd. rewrite <- (Z2Nat.id desired Hd) at 4. rewrite <- (length_seqZ 0 desired).
  unfold kept_pods, empty_slots, stale_slots. generalize (seqZ 0 desired) as l.
  induction l as [|r l IH]; [done|]. rewrite !filter_cons. cbn [omap list_omap length].
  pose proof (live_nil h (slot_pods existing r)) as Hl.
  destruct (on_hash h (slot_pods existing r)) as [|p k] eqn:E; cbn [head].
  - destruct (decide (live (slot_pods existing r) = [])) as [El|El].
    + rewrite decide_False by naive_solver. cbn [length]. lia.
    + rewrite decide_True by done. cbn [length]. lia.
  - rewrite !decide_False by naive_solver. cbn [length]. lia.
Qed.

Lemma promote_iff desired h existing :
  0 <= desired → promote desired h existing = true ↔ stale_slots desired h existing = [].
Proof.
  intros Hd. pose proof (slots_partition desired h existing Hd) as HP. unfold promote.
  rewrite andb_true_iff, bool_decide_eq_true, Z.eqb_eq. split; [by intros [? _]|].
  intros E. split; [done|]. rewrite E in HP. cbn [length] in HP. lia.
Qed.

(** A pass whose calls all succeed makes progress: it fills every
    empty slot of the window and the whole batch; the batch is non-empty
    whenever outdated slots remain and the pods already replaced are ready;
    and it reports the rollout complete exactly when no slot of the window
    was outdated. *)
Theorem pods_pass_progress ad desired podSpec h st st1 st' existing b :
  0 <= desired → listOwnedPods ad st = (st1, Ok existing) →
  pods_pass ad desired podSpec h st = (st', Ok b) →
  (∃ cs, calls st' = calls st ++ cs ∧
     created_calls cs = empty_slots desired existing ++ batch_slots ad desired h existing) ∧
  (stale_slots desired h existing ≠ [] → forallb podReady (kept_pods desired h existing) = true →
     batch_slots ad desired h existing ≠ []) ∧
  (b = true ↔ stale_slots desired h existing = []).
Proof.
  intros Hd Hl Hp. rewrite (pods_pass_plan ad desired podSpec h st) in Hp. unfold bind in Hp.
  rewrite Hl in Hp. unfold pass_body, bind in Hp.
  destruct (exec ad podSpec h (intents ad desired h existing) st1) as [st2 [u|e]] eqn:He; [|done].
  injection Hp as <- <-.
  destruct (exec_calls _ _ _ _ _ _ _ (intents_live ad desired h existing) He) as (cs & k & Hc & HF & Hk).
  rewrite Hk, take_ge in HF by done. split_and!.
  - exists cs. rewrite <- (listOwnedPods_calls _ _ _ _ Hl). split; [done|].
    by rewrite (realized_created _ _ _ _ _ HF), created_intents.
  - intros Hs Hr. unfold batch_slots, waiting. rewrite Hr. cbn [negb].
    pose proof (ResolveMaxUnavailable_pos ad desired) as Hm.
    destruct (stale_slots desired h existing) as [|r l]; [done|]. cbn [length].
    intros E%(f_equal length). rewrite length_take in E. cbn [length] in E. lia.
  - by apply promote_iff.
Qed.

(** A fleet that is exactly as desired. *)
Definition settled (desired : Z) (h : string) (existing : list Pod) : Prop :=
  (∀ p, p ∈ existing → terminating p = false → in_window desired (replica_of p) = true) ∧
  (∀ r, in_window desired r = true →
     ∃ p, live (slot_pods existing r) = [p] ∧ pod_hash p = h).

(** On a settled fleet a pass issues no write at all and reports
    the rollout complete: the reconcile loop is idempotent. *)
Theorem settled_fleet_no_writes ad desired podSpec h st st1 existing :
  0 <= desired → settled desired h existing →
  listOwnedPods ad st = (st1, Ok existing) →
  pods_pass ad desired podSpec h st = (st1, Ok true).
Proof.
  intros Hd [Hout Hin] Hl.
  assert (∀ r, r ∈ seqZ 0 desired → ∃ p, live (slot_pods existing r) = [p] ∧
            on_hash h (slot_pods existing r) = [p]) as Hslot.
  { intros r Hr%seqZ_window. destruct (Hin r Hr) as (p & Hp & Hh). exists p. split; [done|].
    unfold on_hash. rewrite Hp. by rewrite filter_cons, filter_nil, decide_True. }
  assert (stale_slots desired h existing = []) as Hs.
  { unfold stale_slots. apply elem_of_nil_inv. intros r [[_ Ho] Hr]%list_elem_of_filter.
    destruct (Hslot r Hr) as (p & _ & Hp). congruence. }
  assert (empty_slots desired existing = []) as He.
  { unfold empty_slots. apply elem_of_nil_inv. intros r [Ho Hr]%list_elem_of_filter.
    destruct (Hslot r Hr) as (p & Hp & _). congruence. }
  assert (intents ad desired h existing = []) as HI.
  { unfold intents, batch_slots. rewrite Hs, He. cbn [length map app]. rewrite take_nil.
    assert (dup_dels desired h existing = []) as ->.
    { unfold dup_dels. apply elem_of_nil_inv. intros i (r & Hr & Hi)%flat_map_elem.
      destruct (Hslot r Hr) as (p & _ & Hp). rewrite Hp in Hi. set_solver. }
    assert (out_dels desired existing = []) as ->.
    { unfold out_dels. apply elem_of_nil_inv. intros i ([r l] & Hr & Hi)%flat_map_elem.
      apply range_map_elem, groupPodsByReplica_lookup in Hr as ->. cbn [fst snd] in Hi.
      destruct (in_window desired r) eqn:Hw; [set_solver|].
      apply list_elem_of_fmap in Hi as (p & _ & [Ht [<- Hp]%slot_elem]%live_elem).
      rewrite (Hout p Hp Ht) in Hw. done. }
    by destruct (waiting desired h existing). }
  rewrite (pods_pass_plan ad desired podSpec h st). unfold bind. rewrite Hl.
  unfold pass_body. rewrite HI, (proj2 (promote_iff desired h existing Hd) Hs). done.
Qed.

(** An outdated live pod that shares its slot with a pod on the desired
    hash is in no deletion of the plan: it survives every pass. *)
Theorem outdated_duplicate_survives ad desired h existing p q reason :
  p ∈ existing → in_window desired (replica_of p) = true → pod_hash p ≠ h →
  q ∈ existing → terminating q = false → replica_of q = replica_of p → pod_hash q = h →
  Del p reason ∉ intents ad desired h existing.
Proof.
  intros Hp Hw Hh Hq Htq Hr Hhq (_ & _ & [?|[(_ & ? & _)|[_ Hb]]])%intents_del; [congruence|done|].
  apply batch_sublist, list_elem_of_filter in Hb as [[_ Ho] _].
  assert (q ∈ on_hash h (slot_pods existing (replica_of p))) as Hin.
  { apply on_hash_elem. rewrite slot_elem. auto. }
  rewrite Ho in Hin. set_solver.
Qed.
End reconcile.

(** ** New pods *)

Lemma pod_labels_owned ad r : owned_labels ad ⊆ pod_labels ad r.
Proof.
  unfold owned_labels, pod_labels. apply map_subseteq_spec. intros k v Hk.
  assert (k ≠ KeyEntry) as Hne.
  { intros ->. rewrite !lookup_insert_ne in Hk by done. done. }
  assert (∀ m : gmap string string, m !! k = Some v →
            (if tp_IsEntry (spec_Topology (ad_Spec ad)) then <[KeyEntry:="true"%string]> m else m) !! k
            = Some v) as Hif.
  { intros m Hm. case_match; [by rewrite lookup_insert_ne|done]. }
  apply Hif. rewrite !lookup_insert_Some, lookup_empty in Hk.
  destruct Hk as [[<- <-]|[_ [[<- <-]|[_ [[<- <-]|[_ Hk]]]]]]; [| | |done];
    repeat (first [by rewrite lookup_insert_eq | rewrite lookup_insert_ne by done]).
Qed.

(** A created pod is found again where it was meant to go: whatever
    its random suffix, the next pass lists it (its labels satisfy the owner
    selector), files it under its own replica index and sees it on the hash
    it was rendered from. *)
Theorem new_pod_lands_in_slot ad r podSpec h suffix :
  0 <= r < 2 ^ 63 →
  let p := newPod ad r podSpec h suffix in
  replica_of p = r ∧ pod_hash p = h ∧ terminating p = false ∧
  om_Namespace (pod_meta p) = ad_Namespace ad ∧ owned_labels ad ⊆ om_Labels (pod_meta p).
Proof.
  intros Hr p. split_and!; [| | done|done|apply pod_labels_owned].
  - unfold replica_of, pod_annotation, str_at. cbn [pod_meta newPod p om_Annotations new_meta].
    rewrite lookup_insert_ne, lookup_insert_eq by done. change (default _ (Some ?x)) with x.
    rewrite Atoi_Itoa by (unfold in_s; cbn; lia). done.
  - unfold pod_hash, pod_annotation, str_at. cbn [pod_meta newPod p om_Annotations new_meta].
    by rewrite lookup_insert_eq.
Qed.

(** An AgentDeploy always renders at least one replica; with
    autoscaling on, the count lies within the resolved [[min, max]] and is the
    requested one whenever that is in range. *)
Theorem desired_replicas_bounds ad :
  1 <= DesiredReplicas ad ∧
  (Disabled (ad_Scale ad) = false →
   let '(lo, hi) := scaleBounds (ad_Scale ad) in
   1 <= lo <= hi ∧ lo <= DesiredReplicas ad <= hi ∧
   ∀ r, spec_Replicas (ad_Spec ad) = Some r → lo <= r <= hi → DesiredReplicas ad = r).
Proof.
  assert (∀ s, let '(lo, hi) := scaleBounds s in 1 <= lo <= hi) as Hb.
  { intros s. unfold scaleBounds, DefaultMinReplicas.
    destruct (Min s) as [m|]; repeat case_match; simplify_eq; zbool; lia. }
  specialize (Hb (ad_Scale ad)). unfold DesiredReplicas, atLeastOne.
  destruct (scaleBounds (ad_Scale ad)) as [lo hi].
  destruct (Disabled (ad_Scale ad)).
  { split; [|done]. destruct (spec_Replicas (ad_Spec ad)) as [r|]; [|lia].
    destruct (r <? 1) eqn:E; zbool; lia. }
  destruct (spec_Replicas (ad_Spec ad)) as [r|].
  - unfold clampInt. destruct (r <? lo) eqn:E1; destruct (hi <? r) eqn:E2; zbool;
      (split; [lia|]; intros _; split_and!; try lia; intros ? [= <-] ?; lia).
  - split; [lia|]. intros _. split_and!; try lia. done.
Qed.

(** ** Status counters *)
Definition count_of (P : Pod → bool) (l : list Pod) : Z := Z.of_nat (length (filter (λ p, P p = true) l)).

Lemma count_of_cons P p l : count_of P (p :: l) = (if P p then 1 else 0) + count_of P l.
Proof.
  unfold count_of. rewrite filter_cons.
  destruct (P p); [rewrite decide_True by done|rewrite decide_False by done]; cbn [length]; lia.
Qed.

Definition is_live (p : Pod) : bool := negb (terminating p).
Definition live_ready (p : Pod) : bool := is_live p && podReady p.
Definition live_on (h : string) (p : Pod) : bool := is_live p && String.eqb (pod_hash p) h.
Definition live_ready_on (h : string) (p : Pod) : bool :=
  is_live p && String.eqb (pod_hash p) h && podReady p.

Lemma count_pods_fold h l a b c d :
  0 <= a → 0 <= b → 0 <= c → 0 <= d →
  Z.max a (Z.max b (Z.max c d)) + Z.of_nat (length (live l)) < 2 ^ 32 →
  fold_left (count_pods h) l (a, b, c, d) =
    (a + count_of is_live l, b + count_of live_ready l, c + count_of (live_on h) l,
     d + count_of (live_ready_on h) l).
Proof.
  revert a b c d. induction l as [|p l IH]; intros a b c d Ha Hb Hc Hd Hl; cbn [fold_left].
  { unfold count_of. cbn. by rewrite !Z.add_0_r. }
  unfold live in Hl. rewrite filter_cons in Hl. fold (live l) in Hl. rewrite !count_of_cons.
  change (is_live p) with (negb (terminating p)).
  change (live_ready p) with (negb (terminating p) && podReady p).
  change (live_on h p) with (negb (terminating p) && String.eqb (pod_hash p) h).
  change (live_ready_on h p) with (negb (terminating p) && String.eqb (pod_hash p) h && podReady p).
  cbn [count_pods]. destruct (terminating p); cbn [negb andb].
  { rewrite decide_False in Hl by done. rewrite IH by lia. by rewrite !Z.add_0_l. }
  rewrite decide_True in Hl by done. cbn [length] in Hl.
  rewrite !wrap_u_small by (unfold in_u; lia).
  destruct (podReady p), (String.eqb (pod_hash p) h); cbn [andb];
    (rewrite IH by lia; by rewrite ?Z.add_0_l, ?Z.add_assoc).
Qed.

Section status.
Context {W : Type}.
Context (ListPods : string → gmap string string → W → W * result ApiError (list Pod)).

(** The status counters are counts of the listed pods: all live
    pods, the ready ones, those on the update hash, and the ready ones among
    these; everything else of the status but the selector is kept. *)
Theorem update_pod_status_counts ad (st st1 : @St W) pods :
  listOwnedPods ListPods ad st = (st1, Ok pods) → Z.of_nat (length (live pods)) < 2 ^ 32 →
  ∃ s, updatePodStatus ListPods ad st = (st1, Ok s) ∧
    let h := st_UpdateHash (ad_Status ad) in
    st_Replicas s = count_of is_live pods ∧
    st_ReadyReplicas s = count_of live_ready pods ∧
    st_UpdatedReplicas s = count_of (live_on h) pods ∧
    st_UpdatedReadyReplicas s = count_of (live_ready_on h) pods ∧
    st_DesiredReplicas s = st_DesiredReplicas (ad_Status ad) ∧
    st_CurrentHash s = st_CurrentHash (ad_Status ad) ∧ st_UpdateHash s = h.
Proof.
  intros Hl Hn. unfold updatePodStatus, bind. rewrite Hl.
  rewrite count_pods_fold by lia. eexists. split; [done|]. cbn. split_and!; lia || done.
Qed.
End status.

(** ** Witnesses on the in-memory server *)
Definition ex_list (ns : string) (labels : gmap string string) (w : gmap NamespacedName Pod)
    : gmap NamespacedName Pod * result ApiError (list Pod) :=
  (w, Ok (filter (λ p, om_Namespace (pod_meta p) = ns ∧
                       bool_decide (labels ⊆ om_Labels (pod_meta p)) = true) (map_to_list w).*2)).
Definition ex_random (w : gmap NamespacedName Pod) : gmap NamespacedName Pod * string :=
  (w, "abcde"%string).
(** Percentages rounded up or down, plain numbers as they are, as
    [intstr.GetScaledValueFromIntOrPercent] documents. *)
Definition ex_scaled (v : IntOrString) (total : Z) (roundUp : bool) : option Z :=
  match v with
  | FromInt n => Some n
  | FromString s =>
      match last (String.list_ascii_of_string s) with
      | Some "%"%char =>
          n ← Atoi (String.string_of_list_ascii (removelast (String.list_ascii_of_string s)));
          Some (if roundUp then (n * total + 99) / 100 else n * total / 100)
      | _ => None
      end
  end.

Definition ex_deploy : AgentDeploy := ex_pod_ad (Some 2).
Definition ex_pod (r : Z) (hash : string) : Pod :=
  let p := newPod ex_deploy r (buildPodSpec ad_Name ex_deploy "img" "Always" no_resources) hash hash in
  mkPod (pod_meta p) (pod_Spec p) [mkPodCondition "Ready" "True"].
Definition ex_cluster (pods : list Pod) : @St (gmap NamespacedName Pod) :=
  mkSt (list_to_map (map (λ p, (key_of p, p)) pods)) [].
Definition ex_spec : PodSpec := buildPodSpec ad_Name ex_deploy "img" "Always" no_resources.

(** Two outdated pods, and a third outside the window. *)
Definition ex_rollout : @St (gmap NamespacedName Pod) :=
  ex_cluster [ex_pod 0 "old"; ex_pod 1 "old"; ex_pod 5 "old"].
Definition ex_listed (st : @St (gmap NamespacedName Pod)) : list Pod :=
  match listOwnedPods ex_list ex_deploy st with (_, Ok l) => l | _ => [] end.
Definition ex_pass (st : @St (gmap NamespacedName Pod)) :=
  pods_pass ex_list ex_random ex_scaled ex_deploy 2 ex_spec "new" st.

Lemma ex_listing st :
  st = ex_rollout → listOwnedPods ex_list ex_deploy st = (st, Ok (ex_listed st)).
Proof. by intros ->. Defined.

Lemma pods_pass_safe_witness :
  length (ex_listed ex_rollout) = 3%nat ∧ length (calls (ex_pass ex_rollout).1) = 3%nat ∧
  ∃ cs, calls (ex_pass ex_rollout).1 = calls ex_rollout ++ cs ∧
    (∀ p reason, DeleteCall p reason ∈ cs →
       justified ex_scaled ex_deploy 2 "new" (ex_listed ex_rollout) p) ∧
    NoDup (created_calls cs) ∧
    (∀ k pod, CreateCall k pod ∈ cs →
       in_window 2 k = true ∧
       (live (slot_pods (ex_listed ex_rollout) k) = [] ∨
          k ∈ batch_slots ex_scaled ex_deploy 2 "new" (ex_listed ex_rollout)) ∧
       ∃ suffix, pod = newPod ex_deploy k ex_spec "new" suffix) ∧
    Z.of_nat (length (batch_slots ex_scaled ex_deploy 2 "new" (ex_listed ex_rollout)))
      <= ResolveMaxUnavailable ex_scaled ex_deploy 2 ∧
    (forallb podReady (kept_pods 2 "new" (ex_listed ex_rollout)) = false →
       batch_slots ex_scaled ex_deploy 2 "new" (ex_listed ex_rollout) = []).
Proof.
  split; [vm_compute; reflexivity|]. split; [vm_compute; reflexivity|].
  exact (pods_pass_safe ex_list ex_random (λ _, ""%string) ex_scaled ex_deploy 2 ex_spec "new"
           ex_rollout ex_rollout (ex_pass ex_rollout).1 (ex_listed ex_rollout)
           (ex_pass ex_rollout).2 (ex_listing _ eq_refl) (surjective_pairing _)).
Defined.

Lemma pods_pass_progress_witness :
  (∃ cs, calls (ex_pass ex_rollout).1 = calls ex_rollout ++ cs ∧
     created_calls cs = empty_slots 2 (ex_listed ex_rollout) ++
                        batch_slots ex_scaled ex_deploy 2 "new" (ex_listed ex_rollout)) ∧
  (stale_slots 2 "new" (ex_listed ex_rollout) ≠ [] →
   forallb podReady (kept_pods 2 "new" (ex_listed ex_rollout)) = true →
     batch_slots ex_scaled ex_deploy 2 "new" (ex_listed ex_rollout) ≠ []) ∧
  (false = true ↔ stale_slots 2 "new" (ex_listed ex_rollout) = []).
Proof.
  assert ((ex_pass ex_rollout).2 = Ok false) as Hok by (vm_compute; reflexivity).
  refine (pods_pass_progress ex_list ex_random (λ _, ""%string) ex_scaled ex_deploy 2 ex_spec "new"
            ex_rollout ex_rollout (ex_pass ex_rollout).1 (ex_listed ex_rollout) false
            _ (ex_listing _ eq_refl) _); [lia|].
  rewrite <- Hok. apply surjective_pairing.
Defined.

(** A fleet of two up-to-date pods. *)
Definition ex_settled : @St (gmap NamespacedName Pod) := ex_cluster [ex_pod 0 "new"; ex_pod 1 "new"].

Lemma settled_fleet_no_writes_witness : ex_pass ex_settled = (ex_settled, Ok true).
Proof.
  refine (settled_fleet_no_writes ex_list ex_random (λ _, ""%string) ex_scaled ex_deploy 2 ex_spec
            "new" ex_settled ex_settled [ex_pod 1 "new"; ex_pod 0 "new"] _ _ _);
    [lia| |vm_cast_no_check (eq_refl (ex_settled,
                               @Ok PodsError _ [ex_pod 1 "new"; ex_pod 0 "new"]))].
  split.
  - intros p Hp _. repeat (apply elem_of_cons in Hp as [->|Hp]; [vm_compute; reflexivity|]).
    by apply elem_of_nil in Hp.
  - intros r Hr. assert (r = 0 ∨ r = 1) as [-> | ->].
    { unfold in_window in Hr. zbool. lia. }
    + exists (ex_pod 0 "new"). split; [vm_cast_no_check (eq_refl [ex_pod 0 "new"])|by vm_compute].
    + exists (ex_pod 1 "new"). split; [vm_cast_no_check (eq_refl [ex_pod 1 "new"])|by vm_compute].
Defined.

Lemma new_pod_lands_in_slot_witness :
  let p := newPod ex_deploy 7 ex_spec "h" "xyzab" in
  replica_of p = 7 ∧ pod_hash p = "h"%string ∧ terminating p = false ∧
  om_Namespace (pod_meta p) = "ns"%string ∧ owned_labels ex_deploy ⊆ om_Labels (pod_meta p).
Proof. exact (new_pod_lands_in_slot ex_deploy 7 ex_spec "h" "xyzab" ltac:(lia)). Defined.

Lemma update_pod_status_counts_witness :
  ∃ s, updatePodStatus ex_list ex_deploy ex_rollout = (ex_rollout, Ok s) ∧
    st_Replicas s = count_of is_live (ex_listed ex_rollout) ∧
    st_ReadyReplicas s = count_of live_ready (ex_listed ex_rollout) ∧
    st_UpdatedReplicas s = count_of (live_on "") (ex_listed ex_rollout) ∧
    st_UpdatedReadyReplicas s = count_of (live_ready_on "") (ex_listed ex_rollout) ∧
    st_DesiredReplicas s = 0 ∧ st_CurrentHash s = ""%string ∧ st_UpdateHash s = ""%string.
Proof.
  exact (update_pod_status_counts ex_list ex_deploy ex_rollout ex_rollout (ex_listed ex_rollout)
           (ex_listing _ eq_refl) ltac:(vm_compute; reflexivity)).
Defined.

End Pods.
