(* ===== verification/Fleet.v ===== *)
(** * Rollouts converge ([pkg/reconciler/agentdeploy/pods.go], over many passes)

    [Pods] says what one pass does.  Here passes follow each other on a
    cluster that carries out what it is asked and lets pods become ready in
    between: from any fleet, whatever the duplicates, leftovers and outdated
    pods, the passes reach the fleet the AgentDeploy asks for, and then write
    nothing.  The one exception, a slot with live pods on the desired hash and
    on another one, is [Pods.outdated_duplicate_survives].  The cluster is an
    interface ([reliable]) which an in-memory cluster meets. *)
From S2P Require Import Prelude K8s Types Template PodSpecs Pods.
#[local] Open Scope Z_scope.

Module Fleet.
Import Pods.

(** ** Lists without repetition *)
Lemma NoDup_flat_map {A B} (f : A → list B) l :
  NoDup l → (∀ x, x ∈ l → NoDup (f x)) →
  (∀ x y z, x ∈ l → y ∈ l → z ∈ f x → z ∈ f y → x = y) → NoDup (flat_map f l).
Proof.
  induction 1 as [|x l Hx Hl IH]; cbn; intros Hf Hd; [constructor|].
  apply NoDup_app. split_and!.
  - apply Hf. by left.
  - intros z Hz (y & Hy & Hz')%flat_map_elem. apply Hx.
    rewrite (Hd x y z); [done|by left|by right|done|done].
  - apply IH; [intros y ?; apply Hf; by right|]. intros y y' z ? ?. apply Hd; by right.
Qed.

Lemma NoDup_unique {A} (l : list A) x : NoDup l → (∀ y, y ∈ l ↔ y = x) → l = [x].
Proof.
  intros Hnd Hl. destruct l as [|a l]; [exfalso; by apply not_elem_of_nil with x, Hl|].
  assert (a = x) as -> by (apply Hl; by left). f_equal.
  apply elem_of_nil_inv. intros y Hy. apply NoDup_cons in Hnd as [Hnd _].
  assert (y = x) as -> by (apply Hl; by right). done.
Qed.

Lemma NoDup_tail {A} (l : list A) : NoDup l → NoDup (tail l).
Proof. destruct l; [done|]. by intros [_ ?]%NoDup_cons. Qed.

Lemma filter_everything {A} (P : A → Prop) `{∀ x, Decision (P x)} (l : list A) : (∀ x, x ∈ l → P x) → filter P l = l.
Proof.
  induction l as [|x l IH]; [done|]. intros Hl. rewrite filter_cons, decide_True by (apply Hl; by left).
  f_equal. apply IH. intros y ?. apply Hl. by right.
Qed.
Lemma filter_nothing {A} (P : A → Prop) `{∀ x, Decision (P x)} (l : list A) : (∀ x, x ∈ l → ¬ P x) → filter P l = [].
Proof. intros Hl. apply elem_of_nil_inv. intros x [? ?]%list_elem_of_filter. by apply (Hl x). Qed.

Lemma filter_take_drop {A} `{EqDecision A} (l : list A) n : NoDup l → filter (λ x, x ∉ take n l) l = drop n l.
Proof.
  intros Hnd. rewrite <- (take_drop n l) in Hnd. apply NoDup_app in Hnd as (_ & Hd & _).
  trans (filter (λ x, x ∉ take n l) (take n l ++ drop n l)); [by rewrite take_drop|].
  rewrite filter_app, filter_nothing, filter_everything; [done| |].
  - intros x Hx Hx'. by apply (Hd x).
  - intros x ? Hn. by apply Hn.
Qed.

(** The pods a plan deletes. *)
Definition dels (l : list Intent) : list Pod := omap (λ i, match i with Del p _ => Some p | _ => None end) l.

Lemma dels_app a b : dels (a ++ b) = dels a ++ dels b.
Proof. apply omap_app. Qed.
Lemma dels_map reason l : dels (map (λ p, Del p reason) l) = l.
Proof. induction l as [|p l IH]; [done|]. cbn. by f_equal. Qed.
Lemma dels_new l : dels (map New l) = [].
Proof. by induction l. Qed.
Lemma dels_flat_map {A} (g : A → list Intent) l : dels (flat_map g l) = flat_map (λ x, dels (g x)) l.
Proof. induction l as [|x l IH]; [done|]. cbn. by rewrite dels_app, IH. Qed.
Lemma dels_elem p l : p ∈ dels l ↔ ∃ reason, Del p reason ∈ l.
Proof.
  unfold dels. rewrite list_elem_of_omap. split.
  - intros ([q reason|r] & Hin & [= <-]). by exists reason.
  - intros [reason Hin]. by exists (Del p reason).
Qed.

Section fleet.
Context {W : Type} `{!Client W Pod} `{GoRange}.
Context (ListPods : string → gmap string string → W → W * result ApiError (list Pod)).
Context (RandomLowerCaseString : W → W * string).
Context (MustHash : PodSpec → string).
Context (scaled : IntOrString → Z → bool → option Z).
Context (ad : AgentDeploy) (desired : Z) (podSpec : PodSpec) (h : string).
#[local] Unset Default Proof Using.

Abbreviation intents := (intents scaled ad desired h).
Abbreviation batch := (batch_slots scaled ad desired h).
Abbreviation stale := (stale_slots desired h).
Abbreviation empty := (empty_slots desired).

(** A cluster that does what it is asked.  [owned] are the live pods of the
    AgentDeploy by name: a list returns them, and possibly terminating ones;
    a delete takes one away, at once or by marking it; a create adds the pod,
    under a name that is free, and may fill in what it likes but for the
    annotations. *)
Record reliable (owned : W → gmap NamespacedName Pod) : Prop := {
  rel_keyed w k p : owned w !! k = Some p → key_of p = k ∧ terminating p = false;
  rel_list w : ∃ w' ps, ListPods (ad_Namespace ad) (owned_labels ad) w = (w', Ok ps) ∧
    owned w' = owned w ∧ live ps ≡ₚ (map_to_list (owned w)).*2;
  rel_delete w p : owned w !! key_of p = Some p →
    ∃ w', Delete p w = (w', None) ∧ owned w' = delete (key_of p) (owned w);
  rel_create w r : ∃ w1 s w', RandomLowerCaseString w = (w1, s) ∧
    let p := newPod ad r podSpec h s in
    ∃ q, Create p w1 = (w', None) ∧ owned w !! key_of p = None ∧ owned w' = <[key_of p := q]> (owned w) ∧
      om_Annotations (pod_meta q) = om_Annotations (pod_meta p)
}.

(** ** The deletions of a plan *)
Lemma dels_intents existing :
  dels (intents existing) =
    flat_map (λ e : Z * list Pod, if in_window desired e.1 then [] else live e.2)
      (range_map (groupPodsByReplica existing)) ++
    flat_map (λ r, tail (on_hash h (slot_pods existing r))) (seqZ 0 desired) ++
    flat_map (λ r, off_hash h (slot_pods existing r)) (batch existing).
Proof.
  unfold Pods.intents. rewrite !dels_app, dels_new. unfold out_dels, dup_dels. rewrite !dels_flat_map. cbn [app].
  assert (∀ {A} (f g : A → list Pod) l, (∀ x, f x = g x) → flat_map f l = flat_map g l) as Hext.
  { intros A f g l Hfg. induction l as [|x l IH]; cbn; congruence. }
  f_equal; [|f_equal]; apply Hext.
  - intros [r l]. cbn. destruct (in_window desired r); [done|]. apply dels_map.
  - intros r. apply dels_map.
  - intros r. unfold replace_intents. rewrite dels_app, dels_map. cbn. by rewrite app_nil_r.
Qed.

Lemma live_slot l r : live (slot_pods l r) = slot_pods (live l) r.
Proof.
  unfold live, slot_pods. induction l as [|p l IH]; [done|].
  rewrite !filter_cons. repeat case_decide; rewrite ?filter_cons, ?decide_True, ?decide_False by done; congruence.
Qed.
Lemma live_slot_NoDup l r : NoDup (live l) → NoDup (live (slot_pods l r)).
Proof. rewrite live_slot. apply NoDup_filter. Qed.

Lemma dels_NoDup existing : NoDup (live existing) → NoDup (dels (intents existing)).
Proof.
  intros Hnd. rewrite dels_intents.
  assert (∀ r, NoDup (on_hash h (slot_pods existing r)) ∧ NoDup (off_hash h (slot_pods existing r))) as Hs
    by (intros r; split; apply NoDup_filter, live_slot_NoDup; done).
  assert (∀ r p, p ∈ tail (on_hash h (slot_pods existing r)) → p ∈ on_hash h (slot_pods existing r)) as Htl
    by (intros r p; destruct (on_hash _ _); [done|by right]).
  apply NoDup_app. split_and!; [| |apply NoDup_app; split_and!].
  - apply NoDup_flat_map.
    + eapply NoDup_fmap_1 with (f := fst). rewrite range_map_perm. apply NoDup_fst_map_to_list.
    + intros [r l] Hr%range_map_elem%groupPodsByReplica_lookup. cbn. subst l.
      destruct (in_window desired r); [constructor|]. by apply live_slot_NoDup.
    + intros [r l] [r' l'] p Hr%range_map_elem Hr'%range_map_elem. cbn.
      pose proof (groupPodsByReplica_lookup _ _ _ Hr) as ->. pose proof (groupPodsByReplica_lookup _ _ _ Hr') as ->.
      destruct (in_window desired r), (in_window desired r'); try (intros ?%not_elem_of_nil; done).
      * intros _ ?%not_elem_of_nil. done.
      * intros [_ [<- _]%slot_elem]%live_elem [_ [<- _]%slot_elem]%live_elem. done.
  - intros p ([r l] & Hr%range_map_elem & Hp)%flat_map_elem. cbn in Hp.
    pose proof (groupPodsByReplica_lookup _ _ _ Hr) as ->.
    destruct (in_window desired r) eqn:Hw; [by apply not_elem_of_nil in Hp|].
    apply live_elem in Hp as [_ [Hpr _]%slot_elem]. intros [Hp|Hp]%elem_of_app.
    + apply flat_map_elem in Hp as (r' & Hr'%seqZ_window & Hp%Htl). apply on_hash_elem in Hp as (_ & _ & [? _]%slot_elem).
      congruence.
    + apply flat_map_elem in Hp as (r' & Hb%batch_sublist & Hp). apply off_hash_elem in Hp as (_ & _ & [? _]%slot_elem).
      apply list_elem_of_filter in Hb as [_ Hb%seqZ_window]. congruence.
  - apply NoDup_flat_map; [apply NoDup_seqZ|intros r _; apply NoDup_tail, Hs|].
    intros r r' p _ _ Hp%Htl Hp'%Htl.
    apply on_hash_elem in Hp as (_ & _ & [<- _]%slot_elem), Hp' as (_ & _ & [<- _]%slot_elem). done.
  - intros p (r & _ & Hp%Htl)%flat_map_elem (r' & _ & Hp')%flat_map_elem.
    apply on_hash_elem in Hp as [? _]. apply off_hash_elem in Hp' as [? _]. done.
  - apply NoDup_flat_map; [|intros r _; apply Hs|].
    + unfold batch_slots. destruct (waiting _ _ _); [constructor|].
      eapply sublist_NoDup; [|apply sublist_take]. apply NoDup_filter, NoDup_seqZ.
    + intros r r' p _ _ Hp Hp'.
      apply off_hash_elem in Hp as (_ & _ & [<- _]%slot_elem), Hp' as (_ & _ & [<- _]%slot_elem). done.
Qed.

(** ** A plan carried out *)
Section cluster.
Context (owned : W → gmap NamespacedName Pod) (Hrel : reliable owned).

Definition pods (w : W) : list Pod := (map_to_list (owned w)).*2.

Lemma pods_elem w p : p ∈ pods w ↔ owned w !! key_of p = Some p.
Proof.
  unfold pods. rewrite list_elem_of_fmap. split.
  - intros ([k q] & -> & Hk%elem_of_map_to_list). cbn. by destruct (rel_keyed _ Hrel _ _ _ Hk) as [-> _].
  - intros Hk. exists (key_of p, p). by rewrite elem_of_map_to_list.
Qed.

Lemma pods_live w : live (pods w) = pods w.
Proof.
  apply filter_everything. intros p Hp%pods_elem. by destruct (rel_keyed _ Hrel _ _ _ Hp).
Qed.

Lemma pods_NoDup w : NoDup (pods w).
Proof.
  unfold pods. pose proof (NoDup_map_to_list (owned w)) as Hnd.
  assert (∀ x, x ∈ map_to_list (owned w) → key_of x.2 = x.1) as Hk.
  { intros [k p] Hx%elem_of_map_to_list. by destruct (rel_keyed _ Hrel w k p Hx). }
  induction Hnd as [|x l Hx Hnd IH]; cbn; [constructor|]. constructor.
  - intros (y & Hxy & Hy)%list_elem_of_fmap. apply Hx.
    replace x with y; [done|]. destruct x as [k p], y as [k' p']. cbn in Hxy. subst p'.
    pose proof (Hk (k, p) (list_elem_of_here _ _)) as H1. pose proof (Hk (k', p) (list_elem_of_further _ _ _ Hy)) as H2.
    cbn in H1, H2. congruence.
  - apply IH. intros y Hy. apply Hk. by right.
Qed.

Abbreviation run := (run_intent RandomLowerCaseString ad podSpec h).
Abbreviation exec := (exec RandomLowerCaseString ad podSpec h).
Definition made (q : Pod) (r : Z) : Prop :=
  terminating q = false ∧
  ∃ s, om_Annotations (pod_meta q) = om_Annotations (pod_meta (newPod ad r podSpec h s)).

(** A view of the cluster that listing the fleet, taking away one of its pods
    and adding one keep. *)
Record fleet_calls_keep (R : relation W) : Prop := {
  fk_list w : R w (ListPods (ad_Namespace ad) (owned_labels ad) w).1;
  fk_delete w p : owned w !! key_of p = Some p → R w (Delete p w).1;
  fk_create w r : R w (Create (newPod ad r podSpec h (RandomLowerCaseString w).2) (RandomLowerCaseString w).1).1
}.
Lemma keep_nothing : fleet_calls_keep (λ _ _, True).
Proof. done. Qed.

(** The plan succeeds; what is left are the pods it did not delete and the
    ones it made, and whatever its calls keep is kept. *)
Lemma exec_reliable (R : relation W) `{!PreOrder R} (HR : fleet_calls_keep R) l : ∀ w cs,
  NoDup (dels l) → (∀ p, p ∈ dels l → p ∈ pods w) →
  ∃ w' cs' N, exec l (mkSt w cs) = (mkSt w' cs', Ok tt) ∧ R w w' ∧ Forall2 made N (created l) ∧
    ∀ p, p ∈ pods w' ↔ (p ∈ pods w ∧ p ∉ dels l) ∨ p ∈ N.
Proof.
  induction l as [|[p reason|r] l IH]; intros w cs Hnd Hd.
  - exists w, cs, []. split_and!; [done|done|constructor|]. intros q. split.
    + intros ?. left. split; [done|apply not_elem_of_nil].
    + by intros [[? _]|?%not_elem_of_nil].
  - cbn in Hnd. apply NoDup_cons in Hnd as [Hni Hnd].
    pose proof (Hd p (list_elem_of_here _ _)) as Hp. pose proof Hp as Hk%pods_elem.
    destruct (rel_keyed _ Hrel _ _ _ Hk) as [_ Ht].
    destruct (rel_delete _ Hrel w p Hk) as (w1 & Ew & Ho).
    assert (∀ q, q ∈ pods w1 ↔ q ∈ pods w ∧ q ≠ p) as H1.
    { intros q. rewrite !pods_elem, Ho, lookup_delete_Some. split; [|intros [? Hne]].
      - intros [Hne ?]. split; [done|]. by intros ->.
      - split; [|done]. intros E. apply Hne. rewrite E in Hk. congruence. }
    destruct (IH w1 (cs ++ [DeleteCall p reason]) Hnd) as (w' & cs' & N & E & HRw & HN & Hq).
    { intros q Hq. apply H1. split; [apply Hd; by right|]. by intros ->. }
    exists w', cs', N. split; [|split; [|split; [done|]]].
    + cbn. unfold bind. unfold deletePod. rewrite Ht. cbn. rewrite Ew. exact E.
    + etrans; [|exact HRw]. pose proof (fk_delete _ HR w p Hk) as Hd1. by rewrite Ew in Hd1.
    + intros q. rewrite Hq, H1. change (dels (Del p reason :: l)) with (p :: dels l).
      rewrite not_elem_of_cons. tauto.
  - destruct (rel_create _ Hrel w r) as (w1 & s & w2 & Es & q & Ec & Hfree & Ho & Ha).
    set (pod := newPod ad r podSpec h s) in *.
    assert (owned w2 !! key_of pod = Some q) as Hq2 by (by rewrite Ho, lookup_insert_eq).
    destruct (rel_keyed _ Hrel _ _ _ Hq2) as [Hqk Hqt].
    assert (∀ p, p ∈ pods w2 ↔ p ∈ pods w ∨ p = q) as H2.
    { intros p. rewrite !pods_elem, Ho, lookup_insert_Some. split.
      - intros [[? <-]|[? ?]]; auto.
      - intros [Hp| ->]; [|by left]. right. split; [|done]. intros Hk. rewrite <- Hk in Hp. congruence. }
    assert (q ∉ pods w) as Hq0 by (rewrite pods_elem, Hqk; congruence).
    destruct (IH w2 (cs ++ [CreateCall r pod]) Hnd) as (w' & cs' & N & E & HRw & HN & Hq).
    { intros p Hp. apply H2. left. by apply Hd. }
    exists w', cs', (q :: N). split; [|split; [|split]].
    + cbn. unfold bind, createPodForReplica. cbn. rewrite Es. fold pod. rewrite Ec. exact E.
    + etrans; [|exact HRw]. pose proof (fk_create _ HR w r) as Hc1. rewrite Es in Hc1. cbn [fst snd] in Hc1. fold pod in Hc1. by rewrite Ec in Hc1.
    + constructor; [split; [done|by exists s]|done].
    + intros p. rewrite Hq, H2, elem_of_cons. change (dels (New r :: l)) with (dels l).
      assert (q ∉ dels l) by (intros Hx; by apply Hq0, Hd). split; [|naive_solver].
      intros [[[?| ->] ?]|?]; naive_solver.
Qed.

(** ** The fleet before and after a pass *)
Definition passed (existing existing' : list Pod) : Prop :=
  NoDup (live existing) ∧ NoDup (live existing') ∧
  ∃ N, Forall2 made N (created (intents existing)) ∧
    ∀ p, p ∈ live existing' ↔ (p ∈ live existing ∧ p ∉ dels (intents existing)) ∨ p ∈ N.

Lemma pass_keeps (R : relation W) `{!PreOrder R} (HR : fleet_calls_keep R) w cs :
  ∃ w' cs' existing, pods_pass ListPods RandomLowerCaseString scaled ad desired podSpec h (mkSt w cs) =
      (mkSt w' cs', Ok (promote desired h existing)) ∧ R w w' ∧
    live existing ≡ₚ pods w ∧ passed existing (pods w').
Proof.
  destruct (rel_list _ Hrel w) as (w0 & existing & El & Ho & Hp). fold (pods w) in Hp.
  assert (NoDup (live existing)) as Hnd by (rewrite Hp; apply pods_NoDup).
  assert (pods w0 = pods w) as Hw0 by (unfold pods; by rewrite Ho).
  destruct (exec_reliable R HR (intents existing) w0 cs) as (w' & cs' & N & E & HRw & HN & Hq).
  { by apply dels_NoDup. }
  { intros p [reason (Hin & Ht & _)%intents_del]%dels_elem. rewrite Hw0, <- Hp. by apply live_elem. }
  exists w', cs', existing. split_and!; [| |done|].
  - rewrite (pods_pass_plan ListPods RandomLowerCaseString MustHash scaled ad desired podSpec h (mkSt w cs)).
    unfold bind, listOwnedPods. cbn [world]. rewrite El. cbn [calls].
    unfold pass_body, bind. by rewrite E.
  - etrans; [|exact HRw]. pose proof (fk_list _ HR w) as Hl. by rewrite El in Hl.
  - split_and!; [done|rewrite pods_live; apply pods_NoDup|]. exists N. split; [done|]. intros p.
    by rewrite pods_live, Hq, Hw0, <- Hp.
Qed.

Lemma pass_reliable w cs :
  ∃ w' cs' existing, pods_pass ListPods RandomLowerCaseString scaled ad desired podSpec h (mkSt w cs) =
      (mkSt w' cs', Ok (promote desired h existing)) ∧
    live existing ≡ₚ pods w ∧ passed existing (pods w').
Proof.
  assert (PreOrder (λ _ _ : W, True)) as Hpre by done.
  destruct (pass_keeps (λ _ _, True) keep_nothing w cs) as (w' & cs' & existing & ? & _ & ?). eauto.
Qed.
End cluster.

Section slots.
Context (Hdes : 0 <= desired <= 2 ^ 63) (existing existing' : list Pod) (Hpass : passed existing existing').

Lemma created_window r : r ∈ created (intents existing) → in_window desired r = true.
Proof.
  rewrite created_intents. intros [[_ Hr]%list_elem_of_filter|Hr%batch_sublist]%elem_of_app; [by apply seqZ_window|].
  apply list_elem_of_filter in Hr as [_ Hr]. by apply seqZ_window.
Qed.

Lemma made_slot q r : made q r → in_window desired r = true → replica_of q = r ∧ pod_hash q = h ∧ terminating q = false.
Proof.
  intros (Ht & s & Ha) Hw. apply seqZ_window, elem_of_seqZ in Hw.
  destruct (new_pod_lands_in_slot ad r podSpec h s) as (Hr & Hh & _); [lia|].
  split_and!; [|by unfold pod_hash, pod_annotation; rewrite Ha|done].
  rewrite <- Hr. unfold replica_of, pod_annotation. by rewrite Ha.
Qed.

(** A pod of the slot after the pass was there before and not deleted, or is
    the one made for the slot. *)
Lemma slot_live l r y : y ∈ live (slot_pods l r) ↔ replica_of y = r ∧ y ∈ live l.
Proof. by rewrite live_slot, slot_elem. Qed.

Lemma slot_after r y :
  y ∈ live (slot_pods existing' r) ↔
    (y ∈ live (slot_pods existing r) ∧ y ∉ dels (intents existing)) ∨
    (y ∈ live (slot_pods existing' r) ∧ made y r ∧ r ∈ created (intents existing)).
Proof.
  destruct Hpass as (_ & _ & N & HN & Hin). rewrite !slot_live. split; [|intros [[[Hy ?] Hd]|[Hy _]]; [|done]].
  - intros [Hr He]. pose proof He as [[Hl Hd]|HeN]%Hin; [by left|].
    right. destruct (Forall2_elem_l _ _ _ _ HN HeN) as (r' & Hr' & Hm).
    destruct (made_slot y r' Hm (created_window r' Hr')) as [? _]. by simplify_eq.
  - split; [done|]. apply Hin. by left.
Qed.

Lemma after_NoDup r : NoDup (live (slot_pods existing' r)).
Proof. destruct Hpass as (_ & Hnd & _). by apply live_slot_NoDup. Qed.

(** Slots outside the window are emptied. *)
Lemma passed_out r : in_window desired r = false → live (slot_pods existing' r) = [].
Proof.
  intros Hw. apply elem_of_nil_inv. intros y [[Hy Hd]|(_ & _ & Hc%created_window)]%slot_after; [|congruence].
  apply Hd. rewrite dels_intents. apply elem_of_app. left. apply flat_map_elem.
  exists (r, slot_pods existing r). cbn. rewrite Hw. split; [|done]. apply range_map_elem.
  pose proof (groupPodsByReplica_slot existing r) as Hg.
  destruct (groupPodsByReplica existing !! r) as [l|]; cbn in Hg; [by rewrite Hg|].
  rewrite <- Hg in Hy. by apply not_elem_of_nil in Hy.
Qed.

(** Slots the plan creates a pod for have that pod only. *)
Lemma passed_made r : r ∈ created (intents existing) →
  ∃ q, live (slot_pods existing' r) = [q] ∧ pod_hash q = h.
Proof.
  intros Hr. pose proof (created_window r Hr) as Hw.
  destruct Hpass as (Hnd & _ & N & HN & Hin).
  destruct (list_elem_of_lookup_1 _ _ Hr) as [i Hi]. destruct (Forall2_lookup_r _ _ _ _ _ HN Hi) as (q & Hq & Hm).
  destruct (made_slot q r Hm Hw) as (Hqr & Hqh & Hqt). exists q. split; [|done].
  apply NoDup_unique; [apply after_NoDup|]. intros y. split.
  - intros [Hyr He]%slot_live. apply Hin in He as [[He Hd]|He].
    + exfalso. assert (y ∈ live (slot_pods existing r)) as Hl by (by apply slot_live).
      apply live_elem in He as [Ht He].
      rewrite created_intents in Hr. apply elem_of_app in Hr as [[E _]%list_elem_of_filter|Hb].
      * rewrite E in Hl. by apply not_elem_of_nil in Hl.
      * apply Hd. rewrite dels_intents. apply elem_of_app. right. apply elem_of_app. right. apply flat_map_elem.
        exists r. split; [done|]. apply off_hash_elem. rewrite slot_elem. split_and!; [|done|done|done].
        intros Hh. apply batch_sublist, list_elem_of_filter in Hb as [[_ Ho] _].
        apply (not_elem_of_nil y). rewrite <- Ho. apply on_hash_elem. by rewrite slot_elem.
    + apply list_elem_of_lookup_1 in He as [j Hj]. destruct (Forall2_lookup_l _ _ _ _ _ HN Hj) as (r' & Hr' & Hm').
      destruct (made_slot y r' Hm') as (Hyr' & _ & _); [apply created_window; by eapply list_elem_of_lookup_2|].
      assert (r' = r) as -> by congruence.
      assert (j = i) as -> by (eapply NoDup_lookup; [apply created_nodup|done|done]). congruence.
  - intros ->. apply slot_live. split; [done|]. apply Hin. right.
    by eapply list_elem_of_lookup_2.
Qed.

Lemma not_deleted p r :
  in_window desired r = true → p ∈ live (slot_pods existing r) →
  (pod_hash p = h → p ∉ tail (on_hash h (slot_pods existing r))) →
  (pod_hash p ≠ h → r ∉ batch existing) → p ∉ dels (intents existing).
Proof.
  intros Hw [_ [Hr _]%slot_elem]%live_elem Ht Hb [reason (_ & _ & [?|[(_ & ? & ?)|[? ?]]])%intents_del]%dels_elem.
  - congruence.
  - rewrite Hr in *. by apply Ht.
  - rewrite Hr in *. by apply Hb.
Qed.

(** A slot on the desired hash keeps its first pod. *)
Lemma passed_kept r p l :
  in_window desired r = true → on_hash h (slot_pods existing r) = p :: l →
  off_hash h (slot_pods existing r) = [] → live (slot_pods existing' r) = [p].
Proof.
  intros Hw Hon Hoff. apply NoDup_unique; [apply after_NoDup|]. intros y.
  assert (∀ y, y ∈ live (slot_pods existing r) → y ∈ p :: l) as Hlive.
  { intros z [Ht Hz]%live_elem. rewrite <- Hon. apply on_hash_elem. split_and!; [|done|done].
    destruct (decide (pod_hash z = h)); [done|]. exfalso. apply (not_elem_of_nil z). rewrite <- Hoff.
    by apply off_hash_elem. }
  assert (p ∈ on_hash h (slot_pods existing r)) as Hp by (rewrite Hon; by left).
  apply on_hash_elem in Hp as (Hh & Ht & Hp).
  assert (NoDup (p :: l)) as Hnd.
  { rewrite <- Hon. apply NoDup_filter, live_slot_NoDup. by destruct Hpass. }
  rewrite slot_after. split.
  - intros [[Hy Hd]|(_ & _ & Hc)].
    + apply Hlive, elem_of_cons in Hy as [?|Hy]; [done|]. exfalso. apply Hd. rewrite dels_intents.
      apply elem_of_app. right. apply elem_of_app. left. apply flat_map_elem. exists r.
      rewrite Hon. split; [by apply seqZ_window|done].
    + exfalso. rewrite created_intents in Hc. apply elem_of_app in Hc as [[E _]%list_elem_of_filter|Hb].
      * apply (not_elem_of_nil p). rewrite <- E. by apply live_elem.
      * apply batch_sublist, list_elem_of_filter in Hb as [[_ E] _]. congruence.
  - intros ->. left. split; [by apply live_elem|]. apply (not_deleted p r Hw); [by apply live_elem| |done].
    intros _. rewrite Hon. cbn. by apply NoDup_cons in Hnd as [? _].
Qed.

(** An outdated slot outside the batch is left as it is. *)
Lemma passed_stale r y :
  r ∈ stale existing → r ∉ batch existing →
  y ∈ live (slot_pods existing' r) ↔ y ∈ live (slot_pods existing r).
Proof.
  intros [[Hl Ho] Hw%seqZ_window]%list_elem_of_filter Hb. rewrite slot_after. split.
  - intros [[? _]|(_ & _ & Hc)]; [done|]. exfalso. rewrite created_intents in Hc.
    by apply elem_of_app in Hc as [[E _]%list_elem_of_filter|?].
  - intros Hy. left. split; [done|]. apply (not_deleted y r Hw Hy); [|done]. by rewrite Ho; intros _ ?%not_elem_of_nil.
Qed.

(** ** Rollout state over passes *)
Definition unmixed (existing : list Pod) : Prop :=
  ∀ r, in_window desired r = true →
    on_hash h (slot_pods existing r) = [] ∨ off_hash h (slot_pods existing r) = [].

(** What a slot of the window is after a pass. *)
Lemma slot_cases r :
  unmixed existing → in_window desired r = true →
  (∃ q, live (slot_pods existing' r) = [q] ∧ pod_hash q = h ∧ ((r ∉ stale existing) ∨ r ∈ batch existing)) ∨
  (r ∈ stale existing ∧ (r ∉ batch existing) ∧
   ∀ y, y ∈ live (slot_pods existing' r) ↔ y ∈ live (slot_pods existing r)).
Proof.
  intros Hu Hw. destruct (decide (r ∈ created (intents existing))) as [Hc|Hc].
  { left. destruct (passed_made r Hc) as (q & Hq & Hh). exists q. split_and!; [done|done|].
    rewrite created_intents in Hc. apply elem_of_app in Hc as [[E _]%list_elem_of_filter|?]; [|by right].
    left. by intros [[? _] _]%list_elem_of_filter. }
  rewrite created_intents, not_elem_of_app in Hc. destruct Hc as [He Hb].
  destruct (on_hash h (slot_pods existing r)) as [|p l] eqn:Hon.
  - right. assert (r ∈ stale existing) as Hs.
    { apply list_elem_of_filter. split; [|by apply seqZ_window]. split; [|done]. intros Hl. apply He.
      apply list_elem_of_filter. split; [done|by apply seqZ_window]. }
    split_and!; [done|done|]. intros y. by apply passed_stale.
  - left. destruct (Hu r Hw) as [?|Hoff]; [congruence|]. exists p. split; [by eapply passed_kept|].
    assert (p ∈ on_hash h (slot_pods existing r)) as Hp by (rewrite Hon; by left).
    apply on_hash_elem in Hp as [Hh _]. split; [done|]. left. intros [[_ ?] _]%list_elem_of_filter. congruence.
Qed.

Lemma on_hash_of_live l q : live l = [q] → pod_hash q = h → on_hash h l = [q] ∧ off_hash h l = [].
Proof.
  intros Hl Hh. unfold on_hash, off_hash. rewrite Hl, !filter_cons, !filter_nil.
  rewrite decide_True by done. rewrite decide_False by (by intros ?). done.
Qed.

Lemma passed_unmixed : unmixed existing → unmixed existing'.
Proof.
  intros Hu r Hw. destruct (slot_cases r Hu Hw) as [(q & Hq & Hh & _)|(Hs & _ & Hy)].
  - right. by destruct (on_hash_of_live _ _ Hq Hh).
  - left. apply elem_of_nil_inv. intros y (Hh & Ht & Hl)%on_hash_elem.
    assert (y ∈ live (slot_pods existing r)) as Hl' by (apply Hy; by apply live_elem).
    apply live_elem in Hl' as [_ Hl']. apply list_elem_of_filter in Hs as [[_ Ho] _].
    apply (not_elem_of_nil y). rewrite <- Ho. by apply on_hash_elem.
Qed.

(** A pass replaces exactly its batch. *)
Lemma passed_stale_slots : unmixed existing → stale existing' = filter (λ r, r ∉ batch existing) (stale existing).
Proof.
  intros Hu.
  assert (∀ r, r ∈ seqZ 0 desired → (live (slot_pods existing' r) ≠ [] ∧ on_hash h (slot_pods existing' r) = []) ↔
    (r ∉ batch existing) ∧ (live (slot_pods existing r) ≠ [] ∧ on_hash h (slot_pods existing r) = [])) as Hiff.
  { intros r Hr. pose proof Hr as Hw%seqZ_window.
    destruct (slot_cases r Hu Hw) as [(q & Hq & Hh & Hsb)|(Hs & Hb & Hy)].
    - destruct (on_hash_of_live _ _ Hq Hh) as [-> _]. split; [by intros [_ ?]|]. intros [Hb Hst].
      destruct Hsb as [Hns|?]; [|done]. exfalso. apply Hns. by apply list_elem_of_filter.
    - apply list_elem_of_filter in Hs as [[Hl Ho] _]. split; [done|]. intros _. split.
      + destruct (live (slot_pods existing r)) as [|p l] eqn:E; [done|]. intros E'.
        apply (not_elem_of_nil p). rewrite <- E'. apply Hy. by left.
      + apply elem_of_nil_inv. intros y (Hh & Ht & Hl')%on_hash_elem. apply (not_elem_of_nil y). rewrite <- Ho.
        apply on_hash_elem. split_and!; [done|done|].
        assert (y ∈ live (slot_pods existing r)) as Hx by (apply Hy; by apply live_elem). by apply live_elem in Hx as [_ ?]. }
  unfold stale_slots at 1 2. induction (seqZ 0 desired) as [|r l IH]; [done|].
  rewrite !filter_cons. destruct (Hiff r (list_elem_of_here _ _)) as [H1 H2].
  rewrite IH by (intros r' Hr'; apply Hiff; by right).
  destruct (decide (live (slot_pods existing' r) ≠ [] ∧ on_hash h (slot_pods existing' r) = [])) as [Hs|Hs].
  - destruct (H1 Hs) as [Hb Ho]. rewrite (decide_True _ _ Ho), filter_cons. by rewrite decide_True.
  - case_decide as Ho; [|done]. rewrite filter_cons. rewrite decide_False; [done|]. intros Hb. by apply Hs, H2.
Qed.

(** When nothing is outdated any more the fleet is settled. *)
Lemma passed_settled : unmixed existing → stale existing' = [] → settled desired h existing'.
Proof.
  intros Hu Hs. split.
  - intros p Hp Ht. destruct (in_window desired (replica_of p)) eqn:Hw; [done|]. exfalso.
    apply (not_elem_of_nil p). rewrite <- (passed_out _ Hw). apply live_elem. by rewrite slot_elem.
  - intros r Hw. destruct (slot_cases r Hu Hw) as [(q & Hq & Hh & _)|(Hst & Hb & _)]; [by exists q|].
    exfalso. apply (not_elem_of_nil r). rewrite <- Hs, passed_stale_slots by done. by apply list_elem_of_filter.
Qed.
End slots.

(** ** Fleets up to what the passes look at

    Two fleets are the same when each slot has live pods on the same hashes. *)
Definition hashes (l : list Pod) (r : Z) : list string := pod_hash <$> live (slot_pods l r).
Definition same_fleet : relation (list Pod) := λ a b, ∀ r, hashes a r ≡ₚ hashes b r.

#[export] Instance same_fleet_equiv : Equivalence same_fleet.
Proof.
  split; [by intros a r|by intros a b E r|]. intros a b c E1 E2 r. by rewrite (E1 r).
Qed.

Lemma live_same a b : live a ≡ₚ live b → same_fleet a b.
Proof. intros E r. unfold hashes. rewrite !live_slot. unfold slot_pods. by rewrite E. Qed.

Lemma live_hashes l r : live (slot_pods l r) = [] ↔ hashes l r = [].
Proof. unfold hashes. by destruct (live (slot_pods l r)). Qed.
Lemma on_hashes l r : on_hash h (slot_pods l r) = [] ↔ h ∉ hashes l r.
Proof.
  unfold hashes. split.
  - intros E (p & -> & Hp)%list_elem_of_fmap. apply (not_elem_of_nil p). rewrite <- E. by apply list_elem_of_filter.
  - intros E. apply elem_of_nil_inv. intros p [<- Hp]%list_elem_of_filter. apply E. by apply list_elem_of_fmap_2.
Qed.
Lemma off_hashes l r : off_hash h (slot_pods l r) = [] ↔ ∀ x, x ∈ hashes l r → x = h.
Proof.
  unfold hashes. split.
  - intros E x (p & -> & Hp)%list_elem_of_fmap. destruct (decide (pod_hash p = h)) as [|Hn]; [done|]. exfalso.
    apply (not_elem_of_nil p). rewrite <- E. by apply list_elem_of_filter.
  - intros E. apply elem_of_nil_inv. intros p [Hn Hp]%list_elem_of_filter. apply Hn, E. by apply list_elem_of_fmap_2.
Qed.

#[export] Instance stale_proper : Proper (same_fleet ==> eq) stale.
Proof using Type.
  clear -desired h.
  intros a b E. apply list_filter_iff. intros r. rewrite !live_hashes, !on_hashes. pose proof (E r) as Er.
  assert (h ∈ hashes a r ↔ h ∈ hashes b r) as Hh by (by rewrite Er).
  rewrite <- !Permutation_nil_r. setoid_rewrite Er. tauto.
Qed.
#[export] Instance unmixed_proper : Proper (same_fleet ==> iff) unmixed.
Proof using Type.
  clear -desired h.
  intros a b E. unfold unmixed. setoid_rewrite on_hashes. setoid_rewrite off_hashes.
  split; intros Hu r Hw; specialize (Hu r Hw); pose proof (E r) as Er; setoid_rewrite Er || setoid_rewrite <- Er; done.
Qed.

Lemma settled_hashes l :
  settled desired h l ↔ ∀ r, hashes l r = if in_window desired r then [h] else [].
Proof.
  split.
  - intros [Hout Hin] r. unfold hashes. destruct (in_window desired r) eqn:Hw.
    + destruct (Hin r Hw) as (p & -> & <-). done.
    + apply live_hashes, elem_of_nil_inv. intros p [Hr [Ht Hp]%live_elem]%slot_live.
      specialize (Hout p Hp Ht). congruence.
  - intros Hs. split.
    + intros p Hp Ht. specialize (Hs (replica_of p)). destruct (in_window desired (replica_of p)); [done|].
      apply live_hashes in Hs. exfalso. apply (not_elem_of_nil p). rewrite <- Hs. apply slot_live.
      split; [done|by apply live_elem].
    + intros r Hw. specialize (Hs r). rewrite Hw in Hs. unfold hashes in Hs.
      destruct (live (slot_pods l r)) as [|p [|q k]]; simplify_eq/=. by exists p.
Qed.
#[export] Instance settled_proper : Proper (same_fleet ==> iff) (settled desired h).
Proof using Type.
  clear -desired h.
  intros a b E. rewrite !settled_hashes. apply forall_proper. intros r. pose proof (E r) as Er.
  destruct (in_window desired r).
  - by rewrite <- !Permutation_singleton_r, Er.
  - by rewrite <- !Permutation_nil_r, Er.
Qed.

(** Between passes the pods of the fleet become ready. *)
Definition readied (a b : list Pod) : Prop :=
  same_fleet a b ∧ ∀ p, p ∈ live b → podReady p = true.

Abbreviation mu := (ResolveMaxUnavailable scaled ad desired).

Lemma ready_batch existing :
  (∀ p, p ∈ live existing → podReady p = true) → batch existing = take (Z.to_nat mu) (stale existing).
Proof.
  intros Hr. unfold batch_slots. assert (waiting desired h existing = false) as ->.
  { apply negb_false_iff, forallb_forall. intros p Hp%list_elem_of_In. apply Hr.
    apply list_elem_of_omap in Hp as (r & _ & Hp%head_Some_elem_of). by apply list_elem_of_filter in Hp as [_ [_ ?]%slot_live]. }
  pose proof (ResolveMaxUnavailable_pos scaled ad desired).
  destruct (Z.le_ge_cases mu (Z.of_nat (length (stale existing)))).
  - by rewrite Z.min_l.
  - rewrite Z.min_r, Nat2Z.id by done. rewrite !take_ge; [done|lia|lia].
Qed.

(** A pass over a ready fleet takes [mu] slots off the outdated ones. *)
Lemma ready_pass existing existing' :
  0 <= desired <= 2 ^ 63 → passed existing existing' → unmixed existing →
  (∀ p, p ∈ live existing → podReady p = true) →
  unmixed existing' ∧ stale existing' = drop (Z.to_nat mu) (stale existing).
Proof.
  intros Hdes Hp Hu Hr. split; [by eapply passed_unmixed|].
  rewrite (passed_stale_slots Hdes _ _ Hp Hu), (ready_batch _ Hr).
  apply filter_take_drop, NoDup_filter, NoDup_seqZ.
Qed.
(** No slot of the window is left empty. *)
Lemma passed_filled existing existing' r :
  0 <= desired <= 2 ^ 63 → passed existing existing' → unmixed existing →
  in_window desired r = true → live (slot_pods existing' r) ≠ [].
Proof.
  intros Hdes Hp Hu Hw. destruct (slot_cases Hdes _ _ Hp r Hu Hw) as [(q & -> & _)|([[Hl _] _]%list_elem_of_filter & _ & Hy)]; [done|].
  destruct (live (slot_pods existing r)) as [|p l]; [done|]. intros E.
  apply (not_elem_of_nil p). rewrite <- E. apply Hy. by left.
Qed.

(** A slot with a ready pod. *)
Definition serves (l : list Pod) (r : Z) : bool := existsb podReady (live (slot_pods l r)).
Definition unserved (l : list Pod) : list Z := filter (λ r, serves l r = false) (seqZ 0 desired).

(** A pass over a ready fleet interrupts the slots of its batch only. *)
Lemma ready_pass_serves existing existing' :
  0 <= desired <= 2 ^ 63 → passed existing existing' → unmixed existing →
  (∀ p, p ∈ live existing → podReady p = true) → empty existing = [] →
  Z.of_nat (length (unserved existing')) <= mu.
Proof.
  intros Hdes Hp Hu Hr He. pose proof (ResolveMaxUnavailable_pos scaled ad desired).
  enough (length (unserved existing') ≤ length (batch existing))%nat as Hle.
  { rewrite (ready_batch _ Hr), length_take in Hle. lia. }
  apply submseteq_length, NoDup_submseteq; [apply NoDup_filter, NoDup_seqZ|].
  intros r [Hs Hw%seqZ_window]%list_elem_of_filter.
  destruct (decide (r ∈ batch existing)) as [|Hb]; [done|]. exfalso.
  assert (∃ p, p ∈ live (slot_pods existing' r) ∧ p ∈ live existing) as (p & Hp' & Hpe).
  { assert (live (slot_pods existing' r) ≠ []) as Hn by (by eapply passed_filled).
    destruct (live (slot_pods existing' r)) as [|p l] eqn:E; [done|]. exists p. split; [by left|].
    assert (p ∈ live (slot_pods existing' r)) as Hin by (rewrite E; by left).
    apply (slot_after Hdes _ _ Hp) in Hin as [[[_ ?]%slot_live _]|(_ & _ & Hc)]; [done|].
    rewrite created_intents, He in Hc. done. }
  enough (serves existing' r = true) by congruence.
  apply existsb_exists. exists p. rewrite <- list_elem_of_In. split; [done|by apply Hr].
Qed.

(** ** Rounds *)
Section rounds.
Context (owned : W → gmap NamespacedName Pod) (Hrel : reliable owned) (Hdes : 0 <= desired <= 2 ^ 63).
Abbreviation pods := (pods owned).
Abbreviation pass := (pods_pass ListPods RandomLowerCaseString scaled ad desired podSpec h).

(** The pods become ready, whatever else the cluster does, and a pass runs. *)
Definition round (w w' : W) : Prop :=
  ∃ w1 cs cs' b, readied (pods w) (pods w1) ∧ pass (mkSt w1 cs) = (mkSt w' cs', Ok b).

Lemma round_passed w w' :
  round w w' → ∃ existing, same_fleet (pods w) existing ∧ passed existing (pods w') ∧
    ∀ p, p ∈ live existing → podReady p = true.
Proof.
  intros (w1 & cs & cs' & b & [Hs Hr] & E). destruct (pass_reliable owned Hrel w1 cs) as (w2 & cs2 & existing & E' & Hp & Hps).
  rewrite E in E'. simplify_eq. assert (live existing ≡ₚ live (pods w1)) as Hl by (by rewrite Hp, (pods_live _ Hrel)).
  exists existing. split_and!; [|done|].
  - rewrite Hs. symmetry. by apply live_same.
  - intros p Hin. apply Hr. by rewrite <- Hl.
Qed.

Lemma round_step w w' :
  round w w' → unmixed (pods w) →
  unmixed (pods w') ∧ stale (pods w') = drop (Z.to_nat mu) (stale (pods w)) ∧ empty (pods w') = [] ∧
  (stale (pods w') = [] → settled desired h (pods w')) ∧
  (empty (pods w) = [] → Z.of_nat (length (unserved (pods w'))) <= mu).
Proof.
  intros (existing & Hs & Hp & Hr)%round_passed Hu. pose proof Hu as Hu'. rewrite Hs in Hu'.
  destruct (ready_pass _ _ Hdes Hp Hu' Hr) as [Hu1 Hst]. rewrite <- Hs in Hst. split_and!; [done|done| | |].
  - apply elem_of_nil_inv. intros r [Hl Hw%seqZ_window]%list_elem_of_filter. by eapply passed_filled.
  - by apply (passed_settled Hdes _ _ Hp).
  - intros He. apply (ready_pass_serves existing); try done. apply elem_of_nil_inv.
    intros r [Hl Hw]%list_elem_of_filter. apply (not_elem_of_nil r). rewrite <- He.
    apply list_elem_of_filter. split; [|done]. apply live_hashes. apply live_hashes in Hl.
    pose proof (Hs r) as Er. rewrite Hl in Er. by apply Permutation_nil_r.
Qed.

Lemma rounds_stale n w w' :
  nsteps round n w w' → unmixed (pods w) →
  unmixed (pods w') ∧ stale (pods w') = drop (n * Z.to_nat mu) (stale (pods w)).
Proof.
  induction 1 as [w|n w w1 w' H1 _ IH]; intros Hu; [by rewrite drop_0|].
  destruct (round_step _ _ H1 Hu) as (Hu1 & Hs1 & _). destruct (IH Hu1) as [Hu' Hs']. split; [done|].
  rewrite Hs', Hs1, drop_drop. done.
Qed.
End rounds.

(** C3: a rollout converges.  On a cluster that carries out what it is asked
    and brings pods up between passes, no pass fails, and from a fleet with
    any leftovers, duplicates, gaps and outdated pods, but no slot that mixes
    the desired hash with another one, the fleet is exactly as desired after
    as many passes as batches of [maxUnavailable] are needed (and one at
    least).  From then on a pass writes nothing and reports the rollout
    complete; and from the second pass on at most [maxUnavailable] slots of
    the window are without a ready pod. *)
Theorem rollout_converges owned w :
  reliable owned → 0 <= desired <= 2 ^ 63 → unmixed (pods owned w) →
  let pass := pods_pass ListPods RandomLowerCaseString scaled ad desired podSpec h in
  (∀ w1 cs, ∃ w' cs' b, pass (mkSt w1 cs) = (mkSt w' cs', Ok b)) ∧
  (∀ n w', nsteps (round owned) n w w' → (0 < n)%nat →
     Z.of_nat (length (stale (pods owned w))) <= Z.of_nat n * mu →
     settled desired h (pods owned w') ∧
     ∀ w1 cs, same_fleet (pods owned w') (pods owned w1) →
       ∃ w2, pass (mkSt w1 cs) = (mkSt w2 cs, Ok true) ∧ owned w2 = owned w1) ∧
  (∀ n w', nsteps (round owned) n w w' → (1 < n)%nat →
     Z.of_nat (length (unserved (pods owned w'))) <= mu).
Proof.
  intros Hrel Hdes Hu pass. split_and!.
  - intros w1 cs. destruct (pass_reliable owned Hrel w1 cs) as (w' & cs' & existing & E & _). by eexists _, _, _.
  - intros n w' Hn Hpos Hle. destruct n as [|n]; [lia|].
    assert (stale (pods owned w') = []) as Hst.
    { destruct (rounds_stale owned Hrel Hdes _ _ _ Hn Hu) as [_ ->]. apply drop_ge. lia. }
    assert (settled desired h (pods owned w')) as Hset.
    { apply nsteps_inv_r in Hn as (w0 & Hn & Hlast). destruct (rounds_stale owned Hrel Hdes _ _ _ Hn Hu) as [Hu0 _].
      destruct (round_step owned Hrel Hdes _ _ Hlast Hu0) as (_ & _ & _ & Hs & _). by apply Hs. }
    split; [done|]. intros w1 cs Hsame.
    destruct (rel_list _ Hrel w1) as (w2 & existing & El & Ho & Hp). exists w2. split; [|done].
    apply (settled_fleet_no_writes ListPods RandomLowerCaseString MustHash scaled ad desired podSpec h
             (mkSt w1 cs) (mkSt w2 cs) existing); [lia| |].
    + assert (same_fleet (pods owned w') existing) as Hse.
      { rewrite Hsame. apply live_same. by rewrite (pods_live owned Hrel), Hp. }
      by rewrite <- Hse.
    + unfold listOwnedPods. cbn [world]. by rewrite El.
  - intros n w' Hn Hpos. destruct n as [|[|n]]; [lia|lia|].
    apply nsteps_inv_r in Hn as (w1 & Hn & Hlast). pose proof Hn as (w0 & Hn0 & H0)%nsteps_inv_r.
    destruct (rounds_stale owned Hrel Hdes _ _ _ Hn0 Hu) as [Hu0 _].
    destruct (round_step owned Hrel Hdes _ _ H0 Hu0) as (Hu1 & _ & He & _).
    destruct (round_step owned Hrel Hdes _ _ Hlast Hu1) as (_ & _ & _ & _ & Hav). by apply Hav.
Qed.
End fleet.
(** ** A cluster in memory *)
Definition mine (ns : string) (labels : gmap string string) (kp : NamespacedName * Pod) : Prop :=
  key_of kp.2 = kp.1 ∧ om_Namespace (pod_meta kp.2) = ns ∧ labels ⊆ om_Labels (pod_meta kp.2).
#[local] Instance mine_dec ns labels kp : Decision (mine ns labels kp).
Proof. unfold mine. apply _. Defined.

Definition mem_list (ns : string) (labels : gmap string string) (w : gmap NamespacedName Pod)
    : gmap NamespacedName Pod * result ApiError (list Pod) :=
  (w, Ok (map_to_list (filter (mine ns labels) w)).*2).
Definition mem_owned (ad : AgentDeploy) (w : gmap NamespacedName Pod) : gmap NamespacedName Pod :=
  filter (λ kp, terminating kp.2 = false) (filter (mine (ad_Namespace ad) (owned_labels ad)) w).
(** A suffix longer than every name in use. *)
Definition mem_suffix (w : gmap NamespacedName Pod) : gmap NamespacedName Pod * string :=
  (w, foldr (λ kp s, nn_name kp.1 +:+ s) "a"%string (map_to_list w)).

Lemma string_length_app (a b : string) : String.length (a +:+ b) = (String.length a + String.length b)%nat.
Proof. induction a as [|c a IH]; [done|]. exact (f_equal S IH). Qed.

Lemma mem_suffix_longer w k p : w !! k = Some p → (String.length (nn_name k) < String.length (mem_suffix w).2)%nat.
Proof.
  intros Hk%elem_of_map_to_list. unfold mem_suffix. cbn.
  induction (map_to_list w) as [|x l IH]; [by apply not_elem_of_nil in Hk|]. cbn. rewrite string_length_app.
  assert (0 < String.length (foldr (λ kp s, nn_name kp.1 +:+ s) "a"%string l))%nat.
  { clear. induction l as [|y l IH]; [cbn; lia|]. cbn. rewrite string_length_app. lia. }
  apply elem_of_cons in Hk as [<-|Hk]; [cbn; lia|]. specialize (IH Hk). lia.
Qed.

Lemma mem_fresh ad r podSpec h w : w !! key_of (newPod ad r podSpec h (mem_suffix w).2) = None.
Proof.
  destruct (w !! key_of _) as [q|] eqn:E; [|done]. exfalso. apply mem_suffix_longer in E. revert E.
  generalize (mem_suffix w).2 as s. intros s. unfold key_of, om_key. cbn [nn_name obj_meta pod_meta newPod om_Name new_meta Pod_HasMeta]. rewrite !string_length_app. lia.
Qed.

Lemma live_values (m : gmap NamespacedName Pod) :
  live (map_to_list m).*2 ≡ₚ (map_to_list (filter (λ kp, terminating kp.2 = false) m)).*2.
Proof.
  assert (∀ l : list (NamespacedName * Pod), live l.*2 = (filter (λ kp, terminating kp.2 = false) l).*2) as ->.
  { unfold live. induction l as [|x l IH]; [done|]. rewrite fmap_cons, !filter_cons. case_decide; cbn; congruence. }
  rewrite map_filter_alt, map_to_list_to_map; [done|].
  eapply sublist_NoDup; [apply (NoDup_fst_map_to_list m)|]. apply fmap_sublist, sublist_filter.
Qed.

Lemma memory_reliable `{GoRange} ad podSpec h :
  reliable mem_list mem_suffix ad podSpec h (mem_owned ad).
Proof.
  split.
  - intros w k p. unfold mem_owned. rewrite !map_lookup_filter_Some. by intros [[_ [? _]] ?].
  - intros w. eexists _, _. split_and!; [done|done|]. apply live_values.
  - intros w p Hp. exists (delete (key_of p) w). split; [|unfold mem_owned; by rewrite !map_filter_delete].
    unfold mem_owned in Hp. rewrite !map_lookup_filter_Some in Hp. destruct Hp as [[Hw [Hk _]] _].
    cbn. unfold well_keyed. case_match eqn:E; [done|]. rewrite map_lookup_filter_None in E.
    destruct E as [E|E]; [congruence|]. by destruct (E p Hw).
  - intros w r. set (s := (mem_suffix w).2). set (p := newPod ad r podSpec h s).
    pose proof (mem_fresh ad r podSpec h w : w !! key_of p = None) as Hf.
    exists w, s, (<[key_of p := p]> w). split; [done|]. exists p. split_and!; [| | |done].
    + cbn. unfold well_keyed. by rewrite (proj2 (map_lookup_filter_None _ _ _)) by (by left).
    + unfold mem_owned. apply map_lookup_filter_None. left. apply map_lookup_filter_None. by left.
    + unfold mem_owned. rewrite map_filter_insert_True, map_filter_insert_True; [done| |].
      * done.
      * split; [done|]. split; [done|]. apply pod_labels_owned.
Qed.

Lemma reliable_ext {W : Type} `{!Client W Pod} list suffix ad podSpec h (o o' : W → gmap NamespacedName Pod) :
  (∀ w, o w = o' w) → reliable list suffix ad podSpec h o → reliable list suffix ad podSpec h o'.
Proof.
  intros Ho [Hk Hl Hd Hc]. split; intros w; rewrite <- ?Ho.
  - apply Hk.
  - destruct (Hl w) as (w' & ps & ? & Hw & ?). exists w', ps. by rewrite <- Ho.
  - intros p Hp. destruct (Hd w p Hp) as (w' & ? & Hw). exists w'. by rewrite <- Ho.
  - intros r. destruct (Hc w r) as (w1 & s & w' & ? & q & ? & ? & Hw & ?). exists w1, s, w'. split; [done|]. exists q. by rewrite <- Ho.
Qed.

(** The same on a part of a larger cluster. *)
Lemma part_reliable {W V : Type} `{!Client V Pod} (part : W → V) (put : V → W → W)
    (list : string → gmap string string → V → V * result ApiError (list Pod)) (suffix : V → V * string) ad podSpec h owned :
  (∀ v w, part (put v w) = v) → reliable list suffix ad podSpec h owned →
  @reliable W (part_client part put)
    (λ ns labels w, let '(v, r) := list ns labels (part w) in (put v w, r))
    (λ w, let '(v, s) := suffix (part w) in (put v w, s)) ad podSpec h (λ w, owned (part w)).
Proof.
  intros Hp [Hk Hl Hd Hc]. split.
  - intros w. apply Hk.
  - intros w. destruct (Hl (part w)) as (v & ps & E & Ho & Hps). exists (put v w), ps. rewrite E, Hp. done.
  - intros w p Hw. destruct (Hd (part w) p Hw) as (v & E & Ho). exists (put v w). cbn. rewrite E, Hp. done.
  - intros w r. destruct (Hc (part w) r) as (v1 & s & v2 & Es & q & E & Hf & Ho & Ha). exists (put v1 w), s, (put v2 (put v1 w)).
    rewrite Es. split; [done|]. exists q. cbn. rewrite Hp, E, Hp. done.
Qed.

(** Every pod up. *)
Definition pod_up (p : Pod) : Pod := mkPod (pod_meta p) (pod_Spec p) [mkPodCondition "Ready" "True"].

Lemma mem_owned_up ad w : mem_owned ad (pod_up <$> w) = pod_up <$> mem_owned ad w.
Proof.
  apply map_eq. intros k. apply option_eq. intros p. unfold mem_owned.
  rewrite lookup_fmap_Some. setoid_rewrite map_lookup_filter_Some. setoid_rewrite map_lookup_filter_Some.
  rewrite lookup_fmap_Some. split.
  - intros [[(q & <- & Hq) Hm] Ht]. exists q. done.
  - intros (q & <- & [[Hq Hm] Ht]). split; [|done]. split; [by exists q|done].
Qed.

Lemma up_hashes l r : hashes (pod_up <$> l) r = hashes l r.
Proof.
  unfold hashes, live, slot_pods. induction l as [|p l IH]; [done|]. rewrite fmap_cons, !filter_cons.
  change (replica_of (pod_up p)) with (replica_of p). case_decide; [|done].
  rewrite !filter_cons. change (terminating (pod_up p)) with (terminating p). case_decide; [|done].
  rewrite !fmap_cons. f_equal. exact IH.
Qed.

Lemma mem_readied ad w : readied (pods (mem_owned ad) w) (pods (mem_owned ad) (pod_up <$> w)).
Proof.
  unfold pods. rewrite mem_owned_up.
  assert ((map_to_list (pod_up <$> mem_owned ad w)).*2 = pod_up <$> (map_to_list (mem_owned ad w)).*2) as ->.
  { rewrite map_to_list_fmap, <- !list_fmap_compose. apply list_fmap_ext. by intros ? []. }
  split; [intros r; by rewrite up_hashes|].
  intros p [_ (q & -> & _)%list_elem_of_fmap]%live_elem. done.
Qed.

(** Rounds go on for ever on the cluster in memory. *)
Lemma mem_rounds `{GoRange} scaled ad desired podSpec h n : 0 <= desired <= 2 ^ 63 → ∀ w,
  ∃ w', nsteps (round mem_list mem_suffix scaled ad desired podSpec h (mem_owned ad)) n w w'.
Proof.
  intros Hdes. induction n as [|n IH]; intros w; [exists w; constructor|].
  destruct (pass_reliable mem_list mem_suffix (λ _, ""%string) scaled ad desired podSpec h _
              (memory_reliable ad podSpec h) (pod_up <$> w) []) as (w1 & cs & existing & E & _).
  destruct (IH w1) as [w' Hn]. exists w'. eapply nsteps_l; [|exact Hn].
  exists (pod_up <$> w), [], cs, (promote desired h existing). split; [apply mem_readied|exact E].
Qed.

(** Two outdated pods and one outside the window are rolled over in two
    passes. *)
Lemma rollout_converges_witness :
  ∃ w', nsteps (round mem_list mem_suffix ex_scaled ex_deploy 2 ex_spec "new" (mem_owned ex_deploy)) 2
          (world ex_rollout) w' ∧ settled 2 "new" (pods (mem_owned ex_deploy) w').
Proof.
  destruct (mem_rounds ex_scaled ex_deploy 2 ex_spec "new" 2 ltac:(lia) (world ex_rollout)) as [w' Hn].
  exists w'. split; [exact Hn|].
  refine (proj1 (proj1 (proj2 (rollout_converges mem_list mem_suffix (λ _, ""%string) ex_scaled ex_deploy 2 ex_spec
            "new" (mem_owned ex_deploy) (world ex_rollout) _ _ _)) 2%nat w' Hn _ _)).
  - apply memory_reliable.
  - lia.
  - intros r Hr. left. assert (r = 0 ∨ r = 1) as [-> | ->] by (unfold in_window in Hr; zbool; lia);
      vm_compute; reflexivity.
  - lia.
  - by vm_compute.
Defined.
End Fleet.
