(* ===== verification/Services.v ===== *)
(** * Per-deploy services ([pkg/reconciler/agentdeploy/services.go])

    [upsert_by_hash] is the protocol every controller-owned object follows:
    create if absent, leave alone if the hash annotation matches, otherwise
    delete and recreate.  [upsertService] is that protocol on services. *)
From S2P Require Import Prelude K8s Types.
#[local] Open Scope Z_scope.
#[local] Open Scope string_scope.
#[local] Open Scope list_scope.

Module Services.

Inductive UpsertError : Set :=
  | UpsertGetFailed (e : ApiError)
  | UpsertCreateFailed (e : ApiError)
  | UpsertDeleteFailed (e : ApiError)
  | UpsertRecreateFailed (e : ApiError).

(** The text of the wrapped errors ([what] names the object); [api_text] is
    the API server's own text. *)
Definition upsert_text (api_text : ApiError → string) (what : string) (e : UpsertError) : string :=
  match e with
  | UpsertGetFailed e => "failed to get " +:+ what +:+ ": " +:+ api_text e
  | UpsertCreateFailed e => "failed to create " +:+ what +:+ ": " +:+ api_text e
  | UpsertDeleteFailed e => "failed to delete stale " +:+ what +:+ ": " +:+ api_text e
  | UpsertRecreateFailed e => "failed to recreate " +:+ what +:+ ": " +:+ api_text e
  end.

Definition hash_of {O} `{HasMeta O} (o : O) : string := str_at (om_Annotations (obj_meta o)) KeyHash.

Section upsert.
Context {W O : Type} `{HasMeta O} `{!Client W O}.

Definition upsert_by_hash (desired : O) (w : W) : W * option UpsertError :=
  match Get (key_of desired) w with
  | (w1, Err e) =>
      if IsNotFound e then
        match Create desired w1 with
        | (w2, Some ce) =>
            if negb (IsAlreadyExists ce) then (w2, Some (UpsertCreateFailed ce)) else (w2, None)
        | (w2, None) => (w2, None)
        end
      else (w1, Some (UpsertGetFailed e))
  | (w1, Ok existing) =>
      if String.eqb (hash_of existing) (hash_of desired) then (w1, None)
      else
        let '(w2, de) := Delete existing w1 in
        match de with
        | Some e => if negb (IsNotFound e) then (w2, Some (UpsertDeleteFailed e))
                    else match Create desired w2 with
                         | (w3, Some ce) =>
                             if negb (IsAlreadyExists ce)
                             then (w3, Some (UpsertRecreateFailed ce)) else (w3, None)
                         | (w3, None) => (w3, None)
                         end
        | None => match Create desired w2 with
                  | (w3, Some ce) =>
                      if negb (IsAlreadyExists ce)
                      then (w3, Some (UpsertRecreateFailed ce)) else (w3, None)
                  | (w3, None) => (w3, None)
                  end
        end
  end.

(** Deletion frees the name: a create right after a delete that succeeded
    (or found nothing) does not meet the old object. *)
Definition prompt_delete : Prop :=
  ∀ (o o' : O) (w w' w'' : W) e, key_of o = key_of o' → Delete o w = (w', e) →
    e = None ∨ e = Some NotFound → Create o' w' ≠ (w'', Some AlreadyExists).

(** The server keeps the annotations a client submits. *)
Definition keeps_hash (o o' : O) : Prop := hash_of o' = hash_of o.

Context `{!ClientLaws W O keeps_hash}.
#[local] Set Default Proof Using "All".

Lemma create_serves desired (w w' : W) :
  Create desired w = (w', None) →
  ∃ o, objs w' !! key_of desired = Some o ∧ hash_of o = hash_of desired.
Proof. intros Hc. destruct (create_ok _ _ _ Hc) as (o & Ho & Hs). by exists o. Qed.

Lemma upsert_converges desired (w w' : W) :
  sole_writer W O → prompt_delete → upsert_by_hash desired w = (w', None) →
  ∃ o, objs w' !! key_of desired = Some o ∧ hash_of o = hash_of desired.
Proof.
  intros Hsole Hprompt. unfold upsert_by_hash.
  destruct (Get (key_of desired) w) as [w1 [existing|e]] eqn:Hg.
  - destruct (String.eqb_spec (hash_of existing) (hash_of desired)) as [Hh|Hh].
    { intros [= <-]. exists existing. split; [by eapply get_ok|done]. }
    pose proof (get_key _ _ _ _ Hg) as Hk.
    destruct (Delete existing w1) as [w2 de] eqn:Hd.
    assert (de = None ∨ de = Some NotFound →
            match Create desired w2 with
            | (w3, Some ce) => if negb (IsAlreadyExists ce)
                               then (w3, Some (UpsertRecreateFailed ce)) else (w3, None)
            | (w3, None) => (w3, None)
            end = (w', None) →
            ∃ o, objs w' !! key_of desired = Some o ∧ hash_of o = hash_of desired) as Hrec.
    { intros Hde. destruct (Create desired w2) as [w3 [ce|]] eqn:Hc.
      - destruct (IsAlreadyExists ce) eqn:Ha; [|done]. unfold IsAlreadyExists in Ha. zbool. subst ce.
        exfalso. by apply (Hprompt existing desired w1 w2 w3 de).
      - intros [= <-]. by apply create_serves in Hc. }
    destruct de as [e|]; [|apply Hrec; by left].
    destruct (IsNotFound e) eqn:He; [|done]. unfold IsNotFound in He. zbool. subst e.
    apply Hrec. by right.
  - destruct (IsNotFound e) eqn:He; [|done]. unfold IsNotFound in He. zbool. subst e.
    destruct (Create desired w1) as [w2 [ce|]] eqn:Hc.
    + destruct (IsAlreadyExists ce) eqn:Ha; [|done]. unfold IsAlreadyExists in Ha. zbool. subst ce.
      exfalso. by apply (proj2 Hsole desired w w1 w2) in Hg.
    + intros [= <-]. by apply create_serves in Hc.
Qed.

(** A matching object is left alone: the call only reads. *)
Lemma upsert_noop desired (w : W) o :
  sole_writer W O → objs w !! key_of desired = Some o → hash_of o = hash_of desired →
  is_Ok (Get (key_of desired) w).2 = true →
  upsert_by_hash desired w = ((Get (key_of desired) w).1, None).
Proof.
  intros Hsole Ho Hh Hok. unfold upsert_by_hash.
  destruct (Get (key_of desired) w) as [w1 [existing|e]] eqn:Hg; [|done].
  pose proof (get_ok _ _ _ _ Hg) as Hg'. rewrite (proj1 Hsole _ _ _ _ Hg), Ho in Hg'.
  injection Hg' as <-. by rewrite Hh, String.eqb_refl.
Qed.
End upsert.

Lemma memory_prompt_delete {O} `{HasMeta O} : prompt_delete (W := gmap NamespacedName O) (O := O).
Proof.
  intros o o' w w' w'' e Hk. cbn. intros Hd He Hc. revert Hc.
  assert (well_keyed w' !! key_of o' = None) as ->; [|done].
  rewrite <- Hk. revert Hd. destruct (well_keyed w !! key_of o) eqn:E; intros [= <- <-]; [|done].
  apply map_lookup_filter_None. left. apply lookup_delete_eq.
Qed.

(** ** The services of an AgentDeploy *)
Definition svc_labels (ad : AgentDeploy) (kind : string) : gmap string string :=
  <[KeyAppName := ad_Name ad]>
  (<[KeyAgentSetName := spec_AgentSetName (ad_Spec ad)]>
  (<[KeyAgentDeployName := ag_Name (spec_Agent (ad_Spec ad))]>
  (<[KeyComponent := ComponentAgent]>
  (<[KeyPartOf := Project]>
  (<[KeyManagedBy := ControllerAgentDeploy]>
  (<[KeyServiceKind := kind]> ∅)))))).

Definition owner_selector (ad : AgentDeploy) : gmap string string :=
  <[KeyAgentSetName := spec_AgentSetName (ad_Spec ad)]>
  (<[KeyAgentDeployName := ag_Name (spec_Agent (ad_Spec ad))]>
  (<[KeyManagedBy := ControllerAgentDeploy]> ∅)).

Definition newHeadlessService (ad : AgentDeploy) : Service :=
  mkService
    (new_meta (ad_Namespace ad) (HeadlessServiceName ad) (svc_labels ad ServiceKindHeadless) ∅
       [AgentDeployControllerRef ad])
    (mkServiceSpec "" "None" (owner_selector ad)
       [mkServicePort "introspect" AgentBrokerIntrospectionPort "introspect" "TCP"] true).

Definition newClusterIPService (ad : AgentDeploy) : Service :=
  mkService
    (new_meta (ad_Namespace ad) (ServiceName ad) (svc_labels ad ServiceKindClusterIP) ∅
       [AgentDeployControllerRef ad])
    (mkServiceSpec "ClusterIP" "" (<[KeyServing := "true"]> (owner_selector ad))
       [mkServicePort "broker" AgentBrokerPort "broker" "TCP"] false).

Section services.
Context {W : Type} `{!Client W Service}.
Context (MustHashService : ServiceSpec → string).

(** [desired.Annotations[KeyHash] = desiredHash] *)
Definition stamp (desired : Service) : Service :=
  mkService (with_annotation KeyHash (MustHashService (svc_Spec desired)) (svc_meta desired))
    (svc_Spec desired).

Definition upsertService (desired : Service) (w : W) : W * option UpsertError :=
  upsert_by_hash (stamp desired) w.

(** [reconcileServices]: the kind of service that failed, and how. *)
Definition reconcileServices (ad : AgentDeploy) (w : W) : W * option (string * UpsertError) :=
  match upsertService (newHeadlessService ad) w with
  | (w1, Some e) => (w1, Some ("headless", e))
  | (w1, None) =>
      match upsertService (newClusterIPService ad) w1 with
      | (w2, Some e) => (w2, Some ("ClusterIP", e))
      | (w2, None) => (w2, None)
      end
  end.

Lemma stamp_hash s : hash_of (stamp s) = MustHashService (svc_Spec s).
Proof. unfold hash_of, str_at. cbn. by rewrite lookup_insert_eq. Qed.

Context `{!ClientLaws W Service keeps_hash}.
#[local] Set Default Proof Using "All".

(** A successful [upsertService] leaves a service of the desired
    name whose hash annotation is the hash of the desired spec, whether it
    was absent, current or stale before; and from then on a further upsert
    of the same service only reads. *)
Theorem upsert_service_converges desired (w w' : W) :
  sole_writer W Service → prompt_delete (W := W) (O := Service) →
  upsertService desired w = (w', None) →
  (∃ o, objs w' !! key_of desired = Some o ∧ hash_of o = MustHashService (svc_Spec desired)) ∧
  (is_Ok (Get (key_of desired) w').2 = true →
     upsertService desired w' = ((Get (key_of desired) w').1, None)).
Proof.
  intros Hsole Hprompt Hu. destruct (upsert_converges _ _ _ Hsole Hprompt Hu) as (o & Ho & Hh).
  split; [exists o; by rewrite <- stamp_hash|]. intros Hok.
  exact (upsert_noop (stamp desired) w' o Hsole Ho Hh Hok).
Qed.
End services.

Definition ex_hash (s : ServiceSpec) : string := svc_Type s +:+ "#" +:+ svc_ClusterIP s.
Definition ex_svc_ad : AgentDeploy :=
  mkAgentDeploy (new_meta "ns" "set-a" ∅ ∅ [])
    (mkAgentDeploySpec (named_agent "a") "set" None zero_topology) zero_status.
(** A stale headless service is already there. *)
Definition ex_stale : gmap NamespacedName Service :=
  let s := newHeadlessService ex_svc_ad in
  {[ key_of s := mkService (with_annotation KeyHash "stale" (svc_meta s)) (svc_Spec s) ]}.
Definition ex_upserted : gmap NamespacedName Service :=
  (upsertService ex_hash (newHeadlessService ex_svc_ad) ex_stale).1.

Definition ex_service_laws : ClientLaws (gmap NamespacedName Service) Service keeps_hash.
Proof. apply (ClientLaws_weaken eq keeps_hash); [by intros ?? ->|apply memory_laws]. Defined.

Lemma upsert_service_converges_witness :
  (∃ o, objs ex_upserted !! key_of (newHeadlessService ex_svc_ad) = Some o ∧ hash_of o = "#None") ∧
  (is_Ok (Get (key_of (newHeadlessService ex_svc_ad)) ex_upserted).2 = true →
   upsertService ex_hash (newHeadlessService ex_svc_ad) ex_upserted =
     ((Get (key_of (newHeadlessService ex_svc_ad)) ex_upserted).1, None)).
Proof.
  refine (@upsert_service_converges _ _ ex_hash ex_service_laws (newHeadlessService ex_svc_ad)
            ex_stale ex_upserted memory_sole_writer memory_prompt_delete _).
  vm_cast_no_check (eq_refl (ex_upserted, @None UpsertError)).
Defined.

End Services.
