(* ===== verification/Broker.v ===== *)
(** * The broker process ([pkg/broker/broker.go], [agentcard_proxy.go],
    [uds.go], [serverinfo/], [cmd/start.go])

    How a broker starts (which transports it enables, what it advertises,
    which limiter it builds), how it routes a request on its shared port, and
    how it shuts down.  The agent card is fetched twice by different code:
    once at start-up, to build the proxies, and on every card request, to be
    rewritten; the theorems relate the two.

    The A2A library (card resolver), [url.Parse], TLS, the gRPC dialer and
    the network listener are parameters: their outcomes are fields of
    [environment]. *)
From S2P Require Import Prelude K8s Types GoStrings Template PodSpecs Pods Services RateLimit Sse Budgets Proxies Encoding.
#[local] Open Scope Z_scope.

Module Broker.
Import GoStrings Template PodSpecs Services.

(** ** Addresses ([broker.go]) *)
Inductive TransportProtocol : Set :=
  | JSONRPC
  | HTTPJSON
  | GRPC
  | OtherProtocol (name : string).
#[export] Instance TransportProtocol_eq_dec : EqDecision TransportProtocol.
Proof. solve_decision. Defined.

#[export, refine] Instance TransportProtocol_countable : Countable TransportProtocol :=
  inj_countable'
    (λ t, match t with
          | JSONRPC => inl 0%nat | HTTPJSON => inl 1%nat | GRPC => inl 2%nat
          | OtherProtocol n => inr n
          end)
    (λ c, match c with
          | inl 0%nat => JSONRPC | inl 1%nat => HTTPJSON | inl _ => GRPC
          | inr n => OtherProtocol n
          end) _.
Proof. by intros []. Defined.

Definition JSONRPCEndpoint : string := "/a2a/jsonrpc".
Definition RESTEndpoint : string := "/a2a/rest".

Definition JSONRPCAddr (host : string) (port : Z) : string :=
  "https://" +:+ host +:+ ":" +:+ Itoa port +:+ JSONRPCEndpoint.
Definition RESTAddr (host : string) (port : Z) : string :=
  "https://" +:+ host +:+ ":" +:+ Itoa port +:+ RESTEndpoint.
Definition GRPCAddr (host : string) (port : Z) : string := host +:+ ":" +:+ Itoa port.

Record URL : Set := mkURL { u_Scheme : string; u_Host : string }.

Section addresses.
(** [url.Parse]; the scheme it returns is in lower case. *)
Context (url_Parse : string → option URL).

Definition grpcAddrFromBaseURL (baseURL : string) : string :=
  if negb (Contains baseURL "://") then baseURL
  else match url_Parse baseURL with
       | None => baseURL
       | Some u =>
           if String.eqb (u_Host u) "" then baseURL
           else match SplitHostPort (u_Host u) with
                | Some _ => u_Host u
                | None =>
                    if String.eqb (u_Scheme u) "https" then u_Host u +:+ ":443"
                    else if String.eqb (u_Scheme u) "http" then u_Host u +:+ ":80"
                    else u_Host u
                end
       end.

Definition AdvertisedURL (publicBaseURL host : string) (port : Z) (transport : TransportProtocol)
    : string :=
  if String.eqb publicBaseURL "" then
    match transport with
    | JSONRPC => JSONRPCAddr host port
    | HTTPJSON => RESTAddr host port
    | GRPC => GRPCAddr host port
    | OtherProtocol _ => ""
    end
  else
    let trimmed := TrimRight publicBaseURL "/"%char in
    match transport with
    | JSONRPC => trimmed +:+ JSONRPCEndpoint
    | HTTPJSON => trimmed +:+ RESTEndpoint
    | GRPC => grpcAddrFromBaseURL trimmed
    | OtherProtocol _ => ""
    end.

(** ** The agent card ([agentcard_proxy.go]) *)
Record AgentInterface : Set := mkIface {
  ai_URL : string;
  ai_ProtocolBinding : TransportProtocol;
  ai_rest : Opaque
}.
Record AgentCard : Set := mkCard {
  card_Name : string;
  card_SupportedInterfaces : list AgentInterface;
  card_rest : Opaque
}.

(** [enabled[t]] of a Go map: false when absent. *)
Definition is_enabled (enabled : gmap TransportProtocol bool) (t : TransportProtocol) : bool :=
  default false (enabled !! t).

Fixpoint rewriteAgentCardInterfaces (ins : list AgentInterface) (publicBaseURL advertiseHost : string)
    (port : Z) (enabled : gmap TransportProtocol bool) : list AgentInterface :=
  match ins with
  | [] => []
  | iface :: rest =>
      let out := rewriteAgentCardInterfaces rest publicBaseURL advertiseHost port enabled in
      if negb (is_enabled enabled (ai_ProtocolBinding iface)) then out
      else mkIface (AdvertisedURL publicBaseURL advertiseHost port (ai_ProtocolBinding iface))
             (ai_ProtocolBinding iface) (ai_rest iface) :: out
  end.

Record agentCardProxy : Set := mkCardProxy {
  acp_publicBaseURL : string;
  acp_advertiseHost : string;
  acp_port : Z;
  acp_enabled : gmap TransportProtocol bool
}.

(** What a card request is answered: the status and, on success, the card. *)
Inductive cardReply : Set :=
  | CardError (status : Z) (body : string)
  | CardOK (card : AgentCard).

(** [agentCardProxy.ServeHTTP]; [resolved] is the agent's current card. *)
Definition ServeCard (p : agentCardProxy) (resolved : result string AgentCard) : cardReply :=
  match resolved with
  | Err e => CardError 502 ("failed to fetch agent card: " +:+ e)
  | Ok card =>
      CardOK (mkCard (card_Name card)
                (rewriteAgentCardInterfaces (card_SupportedInterfaces card) (acp_publicBaseURL p)
                   (acp_advertiseHost p) (acp_port p) (acp_enabled p))
                (card_rest card))
  end.
End addresses.

(** ** The agent's sockets ([uds.go], [start.go]) *)
Definition AgentBackendHost : string := "kynomesh-agent".
Definition BrokerHTTPSocketPath : string := KynomeshRunPath +:+ "/broker-http.sock".
Definition DefaultLocalAgentHTTPAddr : string := "127.0.0.1:8088".
Definition DefaultLocalAgentGRPCAddr : string := "127.0.0.1:8089".
Definition AdvertiseHostDefault : string := "127.0.0.1".

Record agentTarget : Set := mkTarget { udsPath : string; tcpAddr : string }.
Definition isUDS (t : agentTarget) : bool := negb (String.eqb (udsPath t) "").
Definition target (t : agentTarget) : string := if isUDS t then udsPath t else tcpAddr t.

Record agentDial : Set := mkDial { d_http : agentTarget; d_grpc : agentTarget }.

(** The network and address every dial of a transport is pinned to, whatever
    host the request names. *)
Record pinned : Set := mkPinned { pin_network : string; pin_address : string }.
Definition NewUDSHTTPTransport (socketPath : string) : pinned := mkPinned "unix" socketPath.
Definition NewTCPHTTPTransport (addr : string) : pinned := mkPinned "tcp" addr.
Definition newAgentHTTPClient (d : agentDial) : pinned :=
  if isUDS (d_http d) then NewUDSHTTPTransport (udsPath (d_http d))
  else NewTCPHTTPTransport (tcpAddr (d_http d)).
(** The target [dialAgentGRPCDefault] passes to [grpc.NewClient]. *)
Definition dialAgentGRPCDefault (d : agentDial) : string :=
  if isUDS (d_grpc d) then "unix://" +:+ udsPath (d_grpc d) else tcpAddr (d_grpc d).

Definition resolveAgentDial (inCluster : bool) : agentDial :=
  if inCluster
  then mkDial (mkTarget BrokerHTTPSocketPath "") (mkTarget BrokerGRPCSocketPath "")
  else mkDial (mkTarget "" DefaultLocalAgentHTTPAddr) (mkTarget "" DefaultLocalAgentGRPCAddr).

(** ** Start-up errors, one constructor per error site *)
Inductive startErr : Set :=
  | EDecodeAgentDeploy (e : Encoding.decodeErr)
  | ENoAgentDeploy                       (* in-cluster broker requires the object *)
  | EFetchCard (agent e : string)
  | EDialGRPC (agent e : string)
  | ECertificate (e : string)
  | EListen (e : string).

(** The outcome of the card resolver: its status error carries the code. *)
Inductive resolveErr : Set :=
  | ErrStatusNotOK (code : Z) (msg : string)
  | ErrResolve (msg : string).
Definition resolveErr_text (e : resolveErr) : string :=
  match e with ErrStatusNotOK _ m => m | ErrResolve m => m end.

Definition probeAgentCard (resolved : result resolveErr AgentCard) : result resolveErr (option AgentCard) :=
  match resolved with
  | Ok card => Ok (Some card)
  | Err e =>
      match e with
      | ErrStatusNotOK code _ => if code =? 404 then Ok None else Err e
      | ErrResolve _ => Err e
      end
  end.

(** [advertiseHostFor]: the ClusterIP service's name, or "" without object. *)
Definition advertiseHostFor (ad : option AgentDeploy) : string :=
  match ad with
  | None => ""
  | Some ad => ServiceName ad +:+ "." +:+ ad_Namespace ad +:+ ".svc"
  end.

Definition resolveAdvertiseHost (ad : option AgentDeploy) (dial : agentDial) : result startErr string :=
  if isUDS (d_http dial) then
    let host := advertiseHostFor ad in
    if String.eqb host "" then Err ENoAgentDeploy else Ok host
  else Ok AdvertiseHostDefault.

(** ** The limiter *)
Definition resolveMaxInFlight (ad : option AgentDeploy) : Z :=
  match ad with
  | None => 0
  | Some ad => match ag_RateLimit (spec_Agent (ad_Spec ad)) with
               | None => 0
               | Some rl => default 0 (MaxInFlight rl)
               end
  end.

(** Which service the fleet-aware limiter counts. *)
Record fleet : Set := mkFleet { f_agentSet : string; f_agentDeploy : string; f_namespace : string }.
Inductive limiter : Set :=
  | Local (l : RateLimit.unlimited + RateLimit.semaphore)
  | Fleet (l : RateLimit.dnsCountLimiter) (counts : fleet).

Definition buildLimiter (ad : option AgentDeploy) : limiter :=
  let maxInFlight := resolveMaxInFlight ad in
  if maxInFlight <=? 0 then Local (RateLimit.NewLimiter 0)
  else match ad with
       | None => Local (RateLimit.NewLimiter maxInFlight)
       | Some a =>
           if String.eqb (ad_Name a) "" || String.eqb (ad_Namespace a) ""
           then Local (RateLimit.NewLimiter maxInFlight)
           else Fleet (RateLimit.NewDNSCountLimiter maxInFlight)
                  (mkFleet (spec_AgentSetName (ad_Spec a)) (ag_Name (spec_Agent (ad_Spec a)))
                     (ad_Namespace a))
       end.

(** ** The runtime *)
Record brokerRuntime : Set := mkRuntime {
  rt_limiter : limiter;
  rt_enabled : gmap TransportProtocol bool;
  rt_httpProxies : gmap TransportProtocol Proxies.proxy;
  rt_passthrough : option Proxies.proxy;
  rt_grpcServer : option Proxies.proxy;
  rt_grpcConn : option string;        (* the connection closed at exit *)
  rt_dialled : list string            (* every connection opened, in order *)
}.

Definition enable (t : TransportProtocol) (p : option Proxies.proxy) (rt : brokerRuntime) : brokerRuntime :=
  mkRuntime (rt_limiter rt) (<[t := true]> (rt_enabled rt))
    (match p with Some p => <[t := p]> (rt_httpProxies rt) | None => rt_httpProxies rt end)
    (rt_passthrough rt) (rt_grpcServer rt) (rt_grpcConn rt) (rt_dialled rt).

Definition set_grpc (conn : string) (rt : brokerRuntime) : brokerRuntime :=
  mkRuntime (rt_limiter rt) (rt_enabled rt) (rt_httpProxies rt) (rt_passthrough rt)
    (Some Proxies.GRPCPassthroughOptions) (Some conn) (rt_dialled rt ++ [conn]).

Section runtime.
(** [dialAgentGRPC]: the connection, or an error. *)
Context (dialAgentGRPC : string → result string string).

Fixpoint wire_interfaces (dial : agentDial) (ifaces : list AgentInterface) (rt : brokerRuntime)
    : result startErr brokerRuntime :=
  match ifaces with
  | [] => Ok rt
  | iface :: rest =>
      match ai_ProtocolBinding iface with
      | JSONRPC => wire_interfaces dial rest (enable JSONRPC (Some Proxies.NewJSONRPCReverseProxy) rt)
      | HTTPJSON => wire_interfaces dial rest (enable HTTPJSON (Some Proxies.NewRESTReverseProxy) rt)
      | GRPC =>
          match dialAgentGRPC (dialAgentGRPCDefault dial) with
          | Err e => Err (EDialGRPC (target (d_grpc dial)) e)
          | Ok conn => wire_interfaces dial rest (enable GRPC None (set_grpc conn rt))
          end
      | OtherProtocol _ => wire_interfaces dial rest rt
      end
  end.

Definition buildRuntime (card : option AgentCard) (ad : option AgentDeploy) (dial : agentDial)
    : result startErr brokerRuntime :=
  let rt := mkRuntime (buildLimiter ad) ∅ ∅ (Some Proxies.NewPassthroughReverseProxy) None None [] in
  match card with
  | None => Ok rt
  | Some c => wire_interfaces dial (card_SupportedInterfaces c) rt
  end.
End runtime.

(** ** The shared port ([newMultiplexedServer]) *)
Definition grpcContentType : string := "application/grpc".

(** A request as the dispatcher sees it.  [r_path] is the escaped path; the
    A2A endpoints contain no escapes, so they are compared as they are. *)
Record httpRequest : Set := mkRequest {
  r_ProtoMajor : Z;
  r_ContentType : string;
  r_path : string
}.

Definition isGRPCRequest (r : httpRequest) : bool :=
  if negb (r_ProtoMajor r =? 2) then false else HasPrefix (r_ContentType r) grpcContentType.

Inductive endpoint : Set :=
  | CardEndpoint (p : agentCardProxy)
  | ProxyEndpoint (p : Proxies.proxy).

Section server.
(** [a2asrv.WellKnownAgentCardPath] *)
Context (WellKnownAgentCardPath : string).

Definition muxPatterns (rt : brokerRuntime) (card : option agentCardProxy) : list (string * endpoint) :=
  match card with Some c => [(WellKnownAgentCardPath, CardEndpoint c)] | None => [] end ++
  match rt_httpProxies rt !! JSONRPC with Some h => [(JSONRPCEndpoint, ProxyEndpoint h)] | None => [] end ++
  match rt_httpProxies rt !! HTTPJSON with Some h => [(RESTEndpoint +:+ "/", ProxyEndpoint h)] | None => [] end ++
  match rt_passthrough rt with Some h => [("/", ProxyEndpoint h)] | None => [] end.

(** [dispatch] *)
Definition dispatch (rt : brokerRuntime) (card : option agentCardProxy) (r : httpRequest) : routed endpoint :=
  match isGRPCRequest r, rt_grpcServer rt with
  | true, Some g => Handler (ProxyEndpoint g)
  | _, _ => ServeMux (muxPatterns rt card) (r_path r)
  end.

(** ** The agent's server-info file ([serverinfo/], [publishAgentServerInfo]) *)
Record ServerInfo : Set := mkServerInfo {
  si_Protocol : string;
  si_Language : string;
  si_Version : string;
  si_Metadata : gmap string string
}.
Inductive fileRead : Set :=
  | FileAbsent
  | FileError (e : string)
  | FileContent (raw : string).

Section serverinfo.
(** [json.Unmarshal] into a [ServerInfo] *)
Context (unmarshalServerInfo : string → result string ServerInfo).

Definition Load (path : string) (f : fileRead) : result string (option ServerInfo) :=
  match f with
  | FileAbsent => Ok None
  | FileError e => Err ("read " +:+ path +:+ ": " +:+ e)
  | FileContent raw =>
      match unmarshalServerInfo raw with
      | Ok info => Ok (Some info)
      | Err e => Err ("decode " +:+ path +:+ ": " +:+ e)
      end
  end.

(** [RegisterMetric]: the label values of the one gauge it sets to 1. *)
Definition RegisterMetric (info : ServerInfo) : list string :=
  [si_Protocol info; si_Language info; si_Version info].

Definition ServerInfoFilePath : string := KynomeshRunPath +:+ "/server-info".

Definition publishAgentServerInfo (inCluster : bool) (f : fileRead) : option (list string) :=
  if negb inCluster then None
  else match Load ServerInfoFilePath f with
       | Err _ => None
       | Ok None => None
       | Ok (Some info) => Some (RegisterMetric info)
       end.
End serverinfo.

(** ** Assembling the broker *)
Record environment : Type := mkEnvironment {
  e_podName : string;                                    (* POD_NAME *)
  e_agentDeployObject : string;                          (* the injected object *)
  e_resolve : pinned → result resolveErr AgentCard;      (* the agent's card now *)
  e_serverInfo : fileRead;
  e_dialGRPC : string → result string string;
  e_certificate : result string unit;
  e_listen : Z → result string unit
}.

Record brokerStack : Type := mkStack {
  bs_rt : brokerRuntime;
  bs_card : option agentCardProxy;
  bs_port : Z;
  bs_introspectionPort : Z;
  bs_serverInfo : option (list string);
  bs_proxyServing : bool
}.

Section assemble.
Context (json_Unmarshal : list byte → result string AgentDeploy).
Context (unmarshalServerInfo : string → result string ServerInfo).

Definition inClusterFn (e : environment) : bool := negb (String.eqb (e_podName e) "").

Definition loadInjectedAgentDeploy (e : environment) : result Encoding.decodeErr (option AgentDeploy) :=
  if String.eqb (e_agentDeployObject e) "" then Ok None
  else match Encoding.DecodeAgentDeploy json_Unmarshal (e_agentDeployObject e) with
       | Ok ad => Ok (Some ad)
       | Err msg => Err msg
       end.

Definition assembleBroker (e : environment) (port introspectionPort : Z) : result startErr brokerStack :=
  match loadInjectedAgentDeploy e with
  | Err msg => Err (EDecodeAgentDeploy msg)
  | Ok injectedAD =>
      let dial := resolveAgentDial (inClusterFn e) in
      match resolveAdvertiseHost injectedAD dial with
      | Err err => Err err
      | Ok advertiseHost =>
          match probeAgentCard (e_resolve e (newAgentHTTPClient dial)) with
          | Err err => Err (EFetchCard (target (d_http dial)) (resolveErr_text err))
          | Ok agentCard =>
              let info := publishAgentServerInfo unmarshalServerInfo (inClusterFn e) (e_serverInfo e) in
              match buildRuntime (e_dialGRPC e) agentCard injectedAD dial with
              | Err err => Err err
              | Ok rt =>
                  let cardProxy :=
                    match agentCard with
                    | None => None
                    | Some _ =>
                        let publicBaseURL :=
                          match injectedAD with
                          | Some ad => ag_PublicBaseURL (spec_Agent (ad_Spec ad))
                          | None => ""
                          end in
                        Some (mkCardProxy publicBaseURL advertiseHost port (rt_enabled rt))
                    end in
                  match e_certificate e with
                  | Err msg => Err (ECertificate msg)
                  | Ok _ =>
                      match e_listen e port with
                      | Err msg => Err (EListen msg)
                      | Ok _ => Ok (mkStack rt cardProxy port introspectionPort info false)
                      end
                  end
              end
          end
      end
  end.
End assemble.
End server.

(** [ready] of the introspection server: the readiness probe. *)
Definition ready (st : brokerStack) : result string unit :=
  if bs_proxyServing st then Ok tt else Err "broker A2A listener not accepting yet".

(** ** Serving and shutting down ([runServeLoop], [stopGRPCWithin])

    What the select saw first, and how long each graceful stop would need. *)
Inductive wakeup : Set :=
  | Signalled
  | MainExit (err : option string)
  | IntrospectionExit (err : option string).

Record stopTimes : Set := mkStop {
  t_proxy : Duration;            (* until the A2A server's requests end *)
  t_introspection : Duration;
  t_grpc : Duration;             (* until [GracefulStop] returns *)
  t_mainErr : option string;     (* what the serve goroutines then report *)
  t_introErr : option string
}.

(** Elapsed time of a [Shutdown] that needs [need] under a context with
    [left] of its deadline remaining. *)
Definition bounded (need left : Duration) : Duration := Z.max 0 (Z.min need left).

(** [stopGRPCWithin]: the elapsed time, and whether [Stop] was forced. *)
Definition stopGRPCWithin (need budget : Duration) : Duration * bool :=
  if need <=? budget then (Z.max 0 need, false) else (budget, true).

Record served : Set := mkServed {
  sv_err : option string;
  sv_elapsed : Duration;          (* of the shutdown phase *)
  sv_forcedGRPC : bool;
  sv_shutdownRan : bool;
  sv_closed : list string         (* gRPC connections closed on return *)
}.

Definition runServeLoop (graceEnv : string) (st : brokerStack) (w : wakeup) (s : stopTimes) : served :=
  let closed := match rt_grpcConn (bs_rt st) with Some c => [c] | None => [] end in
  match w with
  | MainExit err => mkServed err 0 false false closed
  | IntrospectionExit err => mkServed err 0 false false closed
  | Signalled =>
      let budget := Budgets.Shutdown (Budgets.resolveBudgets graceEnv) in
      let e1 := bounded (t_proxy s) budget in
      let e2 := bounded (t_introspection s) (budget - e1) in
      let '(e3, forced) := match rt_grpcServer (bs_rt st) with
                           | Some _ => stopGRPCWithin (t_grpc s) budget
                           | None => (0, false)
                           end in
      let err := match t_mainErr s with Some e => Some e | None => t_introErr s end in
      mkServed err (e1 + e2 + e3) forced true closed
  end.

(** ** The runtime is well formed

    A transport is enabled exactly when its proxy exists, and each proxy is
    the one of its transport. *)
Definition runtime_wf (rt : brokerRuntime) : Prop :=
  let on t := is_enabled (rt_enabled rt) t in
  rt_passthrough rt = Some Proxies.NewPassthroughReverseProxy ∧
  rt_httpProxies rt !! JSONRPC = (if on JSONRPC then Some Proxies.NewJSONRPCReverseProxy else None) ∧
  rt_httpProxies rt !! HTTPJSON = (if on HTTPJSON then Some Proxies.NewRESTReverseProxy else None) ∧
  rt_grpcServer rt = (if on GRPC then Some Proxies.GRPCPassthroughOptions else None) ∧
  rt_grpcConn rt = last (rt_dialled rt) ∧
  (∀ n, on (OtherProtocol n) = false).

Definition supported (t : TransportProtocol) : bool :=
  match t with OtherProtocol _ => false | _ => true end.

Lemma is_enabled_insert t t' m :
  is_enabled (<[t := true]> m) t' = bool_decide (t = t') || is_enabled m t'.
Proof.
  unfold is_enabled. case_bool_decide as E; [subst; by rewrite lookup_insert_eq|].
  by rewrite lookup_insert_ne.
Qed.

Lemma enable_wf t p rt :
  runtime_wf rt →
  (t = JSONRPC ∧ p = Some Proxies.NewJSONRPCReverseProxy ∨
   t = HTTPJSON ∧ p = Some Proxies.NewRESTReverseProxy) →
  runtime_wf (enable t p rt).
Proof.
  intros (H1 & H2 & H3 & H4 & H5 & H6) [[-> ->]|[-> ->]]; unfold runtime_wf, enable; cbn -[is_enabled];
    rewrite !is_enabled_insert; cbn -[is_enabled]; split_and!; auto;
    rewrite ?lookup_insert_eq, ?lookup_insert_ne by done; auto;
    intros n; rewrite is_enabled_insert; apply H6.
Qed.

Lemma set_grpc_wf conn rt : runtime_wf rt → runtime_wf (enable GRPC None (set_grpc conn rt)).
Proof.
  intros (H1 & H2 & H3 & H4 & H5 & H6). unfold runtime_wf, enable, set_grpc; cbn -[is_enabled].
  rewrite !is_enabled_insert; cbn -[is_enabled]; split_and!; auto.
  - by rewrite last_snoc.
  - intros n. rewrite is_enabled_insert. apply H6.
Qed.

Section wiring.
Context (dialAgentGRPC : string → result string string).

Lemma wire_interfaces_wf dial ifaces rt rt' :
  wire_interfaces dialAgentGRPC dial ifaces rt = Ok rt' → runtime_wf rt →
  runtime_wf rt' ∧ rt_limiter rt' = rt_limiter rt ∧
  ∀ t, is_enabled (rt_enabled rt') t =
       is_enabled (rt_enabled rt) t || (supported t && bool_decide (t ∈ map ai_ProtocolBinding ifaces)).
Proof.
  revert rt. induction ifaces as [|i l IH]; intros rt; cbn [wire_interfaces].
  { intros [= <-] Hw. split_and!; [done..|]. intros t. cbn. rewrite bool_decide_eq_false_2 by set_solver.
    by rewrite andb_false_r, orb_false_r. }
  assert (∀ t, bool_decide (t ∈ map ai_ProtocolBinding (i :: l)) =
               bool_decide (ai_ProtocolBinding i = t) || bool_decide (t ∈ map ai_ProtocolBinding l)) as Hb.
  { intros t. rewrite <- bool_decide_or. apply bool_decide_ext. cbn. rewrite elem_of_cons.
    split; intros [?|?]; auto. }
  destruct (ai_ProtocolBinding i) eqn:Ei; try destruct (dialAgentGRPC _) as [conn|e]; try done;
    intros Hr Hw; (destruct (IH _ Hr) as (W & L & E);
      [first [by apply enable_wf; auto|by apply set_grpc_wf|done]|]);
    (split_and!; [done|done|]); intros t; rewrite E, Hb; cbn [rt_enabled enable set_grpc];
    rewrite ?is_enabled_insert; by destruct t; cbn; rewrite ?orb_true_r, ?orb_false_r.
Qed.

Lemma runtime_shape card ad dial rt :
  buildRuntime dialAgentGRPC card ad dial = Ok rt →
  runtime_wf rt ∧ rt_limiter rt = buildLimiter ad ∧
  (∀ t, is_enabled (rt_enabled rt) t = true ↔
        supported t = true ∧ ∃ c i, card = Some c ∧ i ∈ card_SupportedInterfaces c ∧ ai_ProtocolBinding i = t).
Proof.
  unfold buildRuntime. destruct card as [c|].
  - intros Hw. destruct (wire_interfaces_wf _ _ _ _ Hw) as (W & L & E); [done|].
    split_and!; [done|done|]. intros t. rewrite E. cbn [rt_enabled].
    rewrite orb_false_l, andb_true_iff, bool_decide_eq_true, list_elem_of_fmap.
    split; [intros [? (i & -> & Hi)]; eauto 10|intros [? (? & i & [= <-] & Hi & <-)]; eauto].
  - intros [= <-]. split_and!; [done|done|]. intros t. split; [done|]. intros (_ & ? & ? & ? & _). done.
Qed.

(** The runtime [buildRuntime] returns is well formed: the passthrough
    proxy is always there; a transport is enabled exactly when the agent's
    card lists it and the broker supports it, and then, and only then, its
    own proxy (with its own metric label, behind the shared limiter) is
    installed; the connection closed at exit is the last one dialled; a
    broker without card is passthrough-only. *)
Theorem runtime_well_formed card ad dial rt :
  buildRuntime dialAgentGRPC card ad dial = Ok rt →
  runtime_wf rt ∧ rt_limiter rt = buildLimiter ad ∧
  (∀ t, is_enabled (rt_enabled rt) t = true ↔
        supported t = true ∧ ∃ c i, card = Some c ∧ i ∈ card_SupportedInterfaces c ∧ ai_ProtocolBinding i = t).
Proof. apply runtime_shape. Qed.
End wiring.

Lemma filter_ext_in {A} (P Q : A → Prop) `{!∀ x, Decision (P x), !∀ x, Decision (Q x)} (l : list A) :
  (∀ x, x ∈ l → P x ↔ Q x) → filter P l = filter Q l.
Proof.
  induction l as [|x l IH]; intros Hx; [done|]. rewrite !filter_cons, IH by set_solver.
  pose proof (Hx x (list_elem_of_here _ _)). repeat case_decide; naive_solver.
Qed.

Section assembly.
Context (url_Parse : string → option URL).
Context (json_Unmarshal : list byte → result string AgentDeploy).
Context (unmarshalServerInfo : string → result string ServerInfo).
Abbreviation assemble := (assembleBroker json_Unmarshal unmarshalServerInfo).

Lemma assembleBroker_inv e port ip st :
  assemble e port ip = Ok st →
  ∃ ad host card rt,
    loadInjectedAgentDeploy json_Unmarshal e = Ok ad ∧
    resolveAdvertiseHost ad (resolveAgentDial (inClusterFn e)) = Ok host ∧
    probeAgentCard (e_resolve e (newAgentHTTPClient (resolveAgentDial (inClusterFn e)))) = Ok card ∧
    buildRuntime (e_dialGRPC e) card ad (resolveAgentDial (inClusterFn e)) = Ok rt ∧
    bs_rt st = rt ∧ bs_port st = port ∧
    bs_card st = (_ ← card;
      Some (mkCardProxy (match ad with Some a => ag_PublicBaseURL (spec_Agent (ad_Spec a)) | None => "" end)
              host port (rt_enabled rt))).
Proof.
  unfold assembleBroker. destruct (loadInjectedAgentDeploy _ _) as [ad|]; [|done].
  destruct (resolveAdvertiseHost _ _) as [host|] eqn:Eh; [|done].
  destruct (probeAgentCard _) as [card|] eqn:Ec; [|done].
  destruct (buildRuntime _ _ _ _) as [rt|] eqn:Er; [|done].
  destruct (e_certificate e); [|done]. destruct (e_listen e port); [|done].
  intros [= <-]. exists ad, host, card, rt. by split_and!; destruct card.
Qed.

Lemma rewrite_elem ifaces pub host port en i :
  i ∈ rewriteAgentCardInterfaces url_Parse ifaces pub host port en →
  ∃ o, o ∈ ifaces ∧ is_enabled en (ai_ProtocolBinding o) = true ∧
    i = mkIface (AdvertisedURL url_Parse pub host port (ai_ProtocolBinding o)) (ai_ProtocolBinding o) (ai_rest o).
Proof.
  induction ifaces as [|o l IH]; cbn [rewriteAgentCardInterfaces]; [set_solver|].
  destruct (is_enabled en (ai_ProtocolBinding o)) eqn:E; cbn [negb].
  - intros [->|Hi]%elem_of_cons; [exists o; split; [apply list_elem_of_here|done]|].
    destruct (IH Hi) as (o' & Ho & Hr). exists o'. split; [by apply list_elem_of_further|done].
  - intros Hi. destruct (IH Hi) as (o' & Ho & Hr). exists o'. split; [by apply list_elem_of_further|done].
Qed.

Lemma rewrite_bindings ifaces pub host port en :
  map ai_ProtocolBinding (rewriteAgentCardInterfaces url_Parse ifaces pub host port en) =
  filter (λ t, is_enabled en t = true) (map ai_ProtocolBinding ifaces).
Proof.
  induction ifaces as [|o l IH]; [done|]. cbn [rewriteAgentCardInterfaces map]. rewrite filter_cons.
  destruct (is_enabled en (ai_ProtocolBinding o)) eqn:E; cbn [negb map];
    [rewrite decide_True by done|rewrite decide_False by congruence]; by rewrite IH.
Qed.

End assembly.

(** The address of a gRPC server behind a URL with that scheme and host: the
    host with its port, or with the port of the scheme. *)
Definition grpc_at (addr scheme host : string) : Prop :=
  (∀ h p, host = h +:+ ":" +:+ p → plain_part h → plain_part p → addr = host) ∧
  (host ≠ "" → plain_part host → scheme = "https" → addr = host +:+ ":443") ∧
  (host ≠ "" → plain_part host → scheme = "http" → addr = host +:+ ":80").

Lemma grpc_at_base url_Parse base scheme host path :
  base = scheme +:+ "://" +:+ host +:+ path → url_Parse base = Some (mkURL scheme host) →
  grpc_at (grpcAddrFromBaseURL url_Parse base) scheme host.
Proof.
  intros E Hu. assert (Contains base "://" = true) as Hc by (rewrite E; apply Contains_app).
  unfold grpcAddrFromBaseURL, grpc_at. rewrite Hc, Hu. cbn [negb u_Host u_Scheme]. split_and!.
  - intros h p -> Hh Hp. rewrite SplitHostPort_plain by done. by destruct h.
  - intros Hne%String.eqb_neq Hp ->. by rewrite Hne, SplitHostPort_no_port.
  - intros Hne%String.eqb_neq Hp ->. by rewrite Hne, SplitHostPort_no_port.
Qed.

(** ** Routing *)
Section routing.
Context (WK : string).
(** What the routing needs of the card's well-known path. *)
Context (WK_exact : is_subtree WK = false)
        (WK_long : (1 < String.length WK)%nat)
        (WK_jsonrpc : String.eqb WK JSONRPCEndpoint = false)
        (WK_rest : String.eqb WK RESTEndpoint = false)
        (WK_under_rest : HasPrefix WK (RESTEndpoint +:+ "/") = false).
#[local] Set Default Proof Using "All".

(** The declarative routing table of the shared port, for canonical paths. *)
Definition route_table (rt : brokerRuntime) (card : option agentCardProxy) (path : string) : routed endpoint :=
  let on t := is_enabled (rt_enabled rt) t in
  match card with
  | Some c => if String.eqb WK path then Handler (CardEndpoint c) else
      if on JSONRPC && String.eqb JSONRPCEndpoint path then Handler (ProxyEndpoint Proxies.NewJSONRPCReverseProxy)
      else if on HTTPJSON && HasPrefix path (RESTEndpoint +:+ "/") then Handler (ProxyEndpoint Proxies.NewRESTReverseProxy)
      else if on HTTPJSON && String.eqb path RESTEndpoint then Redirect (RESTEndpoint +:+ "/")
      else Handler (ProxyEndpoint Proxies.NewPassthroughReverseProxy)
  | None =>
      if on JSONRPC && String.eqb JSONRPCEndpoint path then Handler (ProxyEndpoint Proxies.NewJSONRPCReverseProxy)
      else if on HTTPJSON && HasPrefix path (RESTEndpoint +:+ "/") then Handler (ProxyEndpoint Proxies.NewRESTReverseProxy)
      else if on HTTPJSON && String.eqb path RESTEndpoint then Redirect (RESTEndpoint +:+ "/")
      else Handler (ProxyEndpoint Proxies.NewPassthroughReverseProxy)
  end.

Lemma mux_routes rt card path :
  runtime_wf rt → cleanPath path = path →
  ServeMux (muxPatterns WK rt card) path = route_table rt card path.
Proof.
  intros (Hp & Hj & Hh & _) Hc. pose proof (cleanPath_rooted path) as Hr. rewrite Hc in Hr.
  assert (pattern_matches WK path = String.eqb WK path) as M1 by (unfold pattern_matches; by rewrite WK_exact).
  assert (pattern_matches JSONRPCEndpoint path = String.eqb JSONRPCEndpoint path) as M2 by done.
  assert (pattern_matches (RESTEndpoint +:+ "/") path = HasPrefix path (RESTEndpoint +:+ "/")) as M3 by done.
  assert (pattern_matches "/" path = true) as M4 by exact Hr.
  assert (String.eqb WK (path +:+ "/") = false) as S1.
  { apply String.eqb_neq. intros E. rewrite E in WK_exact. unfold is_subtree in WK_exact.
    by rewrite last_byte_snoc in WK_exact. }
  assert (String.eqb JSONRPCEndpoint (path +:+ "/") = false) as S2.
  { apply String.eqb_neq. intros E. apply (f_equal last_byte) in E. by rewrite last_byte_snoc in E. }
  assert (String.eqb "/" (path +:+ "/") = false) as S4.
  { apply String.eqb_neq. intros E. destruct path as [|? []]; done. }
  assert (String.eqb (RESTEndpoint +:+ "/") (path +:+ "/") = String.eqb path RESTEndpoint) as S3.
  { destruct (String.eqb_spec path RESTEndpoint) as [->|N]; [done|]. apply String.eqb_neq.
    intros E. apply N. symmetry. by apply app_snoc_inj in E. }
  unfold ServeMux, muxPatterns, route_table. rewrite Hp, Hj, Hh, Hc, String.eqb_refl.
  destruct (is_enabled (rt_enabled rt) JSONRPC), (is_enabled (rt_enabled rt) HTTPJSON), card as [c|];
    cbn [app best_match existsb fst]; rewrite ?M1, ?M2, ?M3, ?M4, ?S1, ?S2, ?S3, ?S4.
  all: destruct (String.eqb_spec path RESTEndpoint) as [E5|E5]; [subst path; rewrite ?WK_rest; reflexivity|].
  all: cbn [orb]; rewrite ?andb_false_r, ?orb_false_r; cbn [negb andb].
  all: destruct (String.eqb_spec WK path) as [E1|E1];
    [subst path; rewrite ?WK_under_rest, ?(String.eqb_sym JSONRPCEndpoint WK), ?WK_jsonrpc|].
  all: try (rewrite (proj2 (Nat.ltb_ge (String.length WK) (String.length "/"))) by (cbn; lia); reflexivity).
  all: try (destruct (String.eqb_spec JSONRPCEndpoint path) as [E2|E2]; [subst path; reflexivity|]).
  all: try (destruct (HasPrefix path (RESTEndpoint +:+ "/")); reflexivity).
  all: try reflexivity.
Qed.

(** Every request on the shared port: gRPC to the gRPC proxy when there is
    one; otherwise a canonical path is routed by the table and any other
    path is redirected, never forwarded. *)
Lemma dispatch_routes rt card r :
  runtime_wf rt →
  dispatch WK rt card r =
    if isGRPCRequest r && is_enabled (rt_enabled rt) GRPC
    then Handler (ProxyEndpoint Proxies.GRPCPassthroughOptions)
    else if String.eqb (cleanPath (r_path r)) (r_path r) then route_table rt card (r_path r)
    else ServeMux (muxPatterns WK rt card) (r_path r).
Proof.
  intros Hw. unfold dispatch. pose proof Hw as (_ & _ & _ & Hg & _). rewrite Hg.
  assert (ServeMux (muxPatterns WK rt card) (r_path r) =
          if String.eqb (cleanPath (r_path r)) (r_path r) then route_table rt card (r_path r)
          else ServeMux (muxPatterns WK rt card) (r_path r)) as E.
  { destruct (String.eqb_spec (cleanPath (r_path r)) (r_path r)) as [E|E]; [|done].
    by apply mux_routes. }
  by destruct (isGRPCRequest r), (is_enabled (rt_enabled rt) GRPC).
Qed.

Section assembled.
Context (url_Parse : string → option URL).
Context (json_Unmarshal : list byte → result string AgentDeploy).
Context (unmarshalServerInfo : string → result string ServerInfo).
Abbreviation assemble := (assembleBroker json_Unmarshal unmarshalServerInfo).

(** C24: what the broker advertises, it serves.  Let the card's well-known path
    be none of the broker's endpoints.  Whatever card the agent returns later,
    each interface of the rewritten card has its URL at the broker: JSON-RPC
    and REST below the public base URL when one is set, else at the advertised
    host and port; gRPC at that host and port, or at the host and port of the
    public base URL, with the port of its scheme (443 or 80) when it names
    none.  A request to the JSON-RPC URL, a request below the REST URL and a
    gRPC request are dispatched to that transport's own rate-limited proxy;
    the REST URL itself is redirected to the tree below it.  When the agent
    still returns the card read at start-up, no supported interface is lost
    and the order is kept. *)
Theorem advertised_interfaces_are_served e port ip st cp card' out :
  assemble e port ip = Ok st → bs_card st = Some cp →
  ServeCard url_Parse cp (Ok card') = CardOK out →
  let base := if String.eqb (acp_publicBaseURL cp) ""
              then "https://" +:+ acp_advertiseHost cp +:+ ":" +:+ Itoa port
              else TrimRight (acp_publicBaseURL cp) "/"%char in
  let plain r := isGRPCRequest r = false in
  (∀ i, i ∈ card_SupportedInterfaces out →
     match ai_ProtocolBinding i with
     | JSONRPC => ai_URL i = base +:+ "/a2a/jsonrpc" ∧
         ∀ r, plain r → r_path r = "/a2a/jsonrpc" →
           dispatch WK (bs_rt st) (bs_card st) r = Handler (ProxyEndpoint Proxies.NewJSONRPCReverseProxy)
     | HTTPJSON => ai_URL i = base +:+ "/a2a/rest" ∧
         (∀ r sub, plain r → r_path r = "/a2a/rest/" +:+ sub → cleanPath (r_path r) = r_path r →
           dispatch WK (bs_rt st) (bs_card st) r = Handler (ProxyEndpoint Proxies.NewRESTReverseProxy)) ∧
         ∀ r, plain r → r_path r = "/a2a/rest" → dispatch WK (bs_rt st) (bs_card st) r = Redirect "/a2a/rest/"
     | GRPC =>
         (acp_publicBaseURL cp = "" → ai_URL i = acp_advertiseHost cp +:+ ":" +:+ Itoa port) ∧
         (acp_publicBaseURL cp ≠ "" → ∀ scheme host path, base = scheme +:+ "://" +:+ host +:+ path →
            url_Parse base = Some (mkURL scheme host) → grpc_at (ai_URL i) scheme host) ∧
         ∀ r, isGRPCRequest r = true →
           dispatch WK (bs_rt st) (bs_card st) r = Handler (ProxyEndpoint Proxies.GRPCPassthroughOptions)
     | OtherProtocol _ => False
     end) ∧
  (e_resolve e (newAgentHTTPClient (resolveAgentDial (inClusterFn e))) = Ok card' →
   map ai_ProtocolBinding (card_SupportedInterfaces out) =
     filter (λ t, supported t = true) (map ai_ProtocolBinding (card_SupportedInterfaces card'))).
Proof.
  intros Ha Hc Hs base plain.
  destruct (assembleBroker_inv _ _ _ _ _ _ Ha) as (ad & host & card & rt & _ & _ & Hcard & Hrt & Est & _ & Ec).
  destruct (runtime_shape _ _ _ _ _ Hrt) as (Hwf & _ & Hon). rewrite Hc in Ec.
  destruct card as [c0|]; [|done]. cbn in Ec. injection Ec as ->. cbn in Hs. injection Hs as <-.
  cbn [card_SupportedInterfaces]. subst rt. split.
  - intros i (o & Ho & Hen & ->)%rewrite_elem. cbn [ai_ProtocolBinding ai_URL].
    destruct (ai_ProtocolBinding o) eqn:Eo.
    + split; [unfold AdvertisedURL, base, JSONRPCAddr; cbn [acp_publicBaseURL acp_advertiseHost];
              destruct (String.eqb _ ""); by rewrite ?string_app_assoc|].
      intros r Hr Hp. rewrite (dispatch_routes _ _ _ Hwf), Hr, Hp. cbn [andb].
      change (String.eqb (cleanPath "/a2a/jsonrpc") "/a2a/jsonrpc") with true.
      change "/a2a/jsonrpc" with JSONRPCEndpoint. unfold route_table. by rewrite Hc, Hen, WK_jsonrpc.
    + split; [unfold AdvertisedURL, base, RESTAddr; cbn [acp_publicBaseURL acp_advertiseHost];
              destruct (String.eqb _ ""); by rewrite ?string_app_assoc|].
      split; [|intros r Hr Hp; rewrite (dispatch_routes _ _ _ Hwf), Hr, Hp; cbn [andb];
        change (String.eqb (cleanPath "/a2a/rest") "/a2a/rest") with true;
        unfold route_table; rewrite Hc, Hen, (WK_rest : String.eqb WK "/a2a/rest" = false), !andb_false_r; done].
      intros r sub Hr Hp Hcl. rewrite (dispatch_routes _ _ _ Hwf), Hr, Hcl, String.eqb_refl. cbn [andb].
      unfold route_table. rewrite Hc, Hen.
      assert (HasPrefix (r_path r) (RESTEndpoint +:+ "/") = true) as Hpre
        by (rewrite Hp; apply prefix_app).
      rewrite Hpre. destruct (String.eqb_spec WK (r_path r)) as [E|E]; [by rewrite E, Hpre in WK_under_rest|].
      destruct (String.eqb_spec JSONRPCEndpoint (r_path r)) as [E2|E2]; [by rewrite <- E2 in Hpre|].
      by rewrite andb_false_r.
    + cbn [acp_publicBaseURL acp_advertiseHost]. split_and!.
      * intros E. unfold AdvertisedURL. by rewrite E.
      * intros Hne scheme host' path Eb Hu. unfold AdvertisedURL. apply String.eqb_neq in Hne.
        subst base. cbn [acp_publicBaseURL] in Eb, Hu. rewrite Hne in Eb, Hu |- *.
        by apply (grpc_at_base url_Parse _ _ _ path).
      * intros r Hr. by rewrite (dispatch_routes _ _ _ Hwf), Hr, Hen.
    + by apply Hon in Hen as [? _].
  - intros Hres. rewrite rewrite_bindings. rewrite Hres in Hcard. cbn in Hcard. injection Hcard as ->.
    apply filter_ext_in. intros t Ht. rewrite Hon. split; [by intros [? _]|]. intros Hsup. split; [done|].
    apply list_elem_of_fmap in Ht as (i & -> & Hi). eauto.
Qed.
(** An agent without a card (404 at start-up) is served, not refused: the
    broker enables no A2A transport, and every canonical path, the card's own
    included, goes to the passthrough proxy, which no limiter gates. *)
Theorem no_card_is_passthrough_only e port ip st msg r :
  assemble e port ip = Ok st →
  e_resolve e (newAgentHTTPClient (resolveAgentDial (inClusterFn e))) = Err (ErrStatusNotOK 404 msg) →
  cleanPath (r_path r) = r_path r →
  dispatch WK (bs_rt st) (bs_card st) r = Handler (ProxyEndpoint Proxies.NewPassthroughReverseProxy) ∧
  Proxies.p_limited Proxies.NewPassthroughReverseProxy = false ∧ bs_card st = None.
Proof using All -(url_Parse).
  intros Ha Hres Hc.
  destruct (assembleBroker_inv _ _ _ _ _ _ Ha) as (ad & host & card & rt & _ & _ & Hcard & Hrt & Est & _ & Ec).
  destruct (runtime_shape _ _ _ _ _ Hrt) as (Hwf & _ & Hon).
  rewrite Hres in Hcard. cbn in Hcard. injection Hcard as <-. cbn in Ec. subst rt.
  assert (∀ t, is_enabled (rt_enabled (bs_rt st)) t = false) as Hoff.
  { intros t. apply not_true_is_false. rewrite Hon. by intros (_ & ? & ? & ? & _). }
  split; [|done]. rewrite (dispatch_routes _ _ _ Hwf), Hc, String.eqb_refl, Ec. unfold route_table.
  rewrite !Hoff, andb_false_r. done.
Qed.
End assembled.
End routing.

(** ** A broker in a rendered pod

    The value a process sees for a variable is that of its last entry: a
    literal, or a field of its pod.  What other sources (config maps, secrets)
    hold is [other]. *)
Definition env_entry (c : CoreContainer) (n : string) : option EnvVar :=
  last (filter (λ e, ev_Name e = n) (c_Env c)).

Definition process_env (other : string → string) (pod : ObjectMeta) (c : CoreContainer) (n : string) : string :=
  match env_entry c n with
  | None => ""
  | Some e =>
      match ev_ValueFrom e with
      | None => ev_Value e
      | Some (FieldRef path) =>
          if String.eqb path "metadata.name" then om_Name pod
          else if String.eqb path "metadata.namespace" then om_Namespace pod
          else other path
      | Some (OtherEnvVarSource v) => other v
      end
  end.

(** The user's broker template does not redefine the controller's variables. *)
Definition template_spares (a : AbstractAgentDeploy) (n : string) : Prop :=
  match ag_BrokerContainer a with Some t => n ∉ map ev_Name (ct_Env t) | None => True end.

Lemma filter_name_none (l : list EnvVar) n : n ∉ map ev_Name l → filter (λ e, ev_Name e = n) l = [].
Proof.
  induction l as [|x l IH]; [done|]. cbn [map]. intros [H1 H2]%not_elem_of_cons.
  rewrite filter_cons, decide_False by congruence. auto.
Qed.

(** [mergeEnv] leaves the entries alone that no override names. *)
Lemma filter_mergeEnv l ov n :
  n ∉ map ev_Name ov → filter (λ e, ev_Name e = n) (mergeEnv l ov) = filter (λ e, ev_Name e = n) l.
Proof.
  intros Hn. unfold mergeEnv. rewrite filter_app.
  rewrite (filter_name_none (filter _ ov)), app_nil_r.
  2: { intros (x & -> & Hx)%list_elem_of_fmap. apply list_elem_of_filter in Hx as [_ Hx].
       apply Hn. by apply list_elem_of_fmap_2. }
  induction l as [|x l IH]; [done|]. cbn [map].
  destruct (override_of ov (ev_Name x)) as [o|] eqn:Eo; cbn [from_option id];
    rewrite !filter_cons, IH; [|done].
  apply override_of_elem in Eo as [Ho En]. rewrite !decide_False; [done|..].
  - intros E. apply Hn. rewrite <- E. rewrite <- En. by apply list_elem_of_fmap_2.
  - intros E. apply Hn. rewrite <- E. by apply list_elem_of_fmap_2.
Qed.

Section rendered.
Context (encode_object : AgentDeploy → string).

Lemma broker_env ad image pol dr c n :
  head (ps_Containers (buildPodSpec encode_object ad image pol dr)) = Some c →
  template_spares (spec_Agent (ad_Spec ad)) n → n ∉ map ev_Name (commonEnv ad) →
  filter (λ e, ev_Name e = n) (c_Env c) =
  filter (λ e, ev_Name e = n)
    [env_value EnvAgentDeployObject (PodSpecs.EncodeAgentDeploy encode_object ad);
     env_value EnvTerminationGraceSeconds
       (Itoa (default DefaultTerminationGracePeriodSeconds
                (apt_TerminationGracePeriodSeconds (ag_PodTemplate (spec_Agent (ad_Spec ad))))))].
Proof.
  intros Hc Ht Hn. unfold buildPodSpec in Hc. cbn in Hc. injection Hc as <-. cbn [c_Env mount_run].
  unfold mount_run. cbn [c_with_mounts c_with_env c_Env]. rewrite filter_mergeEnv by done.
  unfold newBrokerContainer, ApplyDefaultResourcesIfMissing, template_spares in *.
  destruct (ag_BrokerContainer _) as [t|]; cbn [apply_tmpl]; case_match; cbn [c_Env ApplyToContainer c_with_resources];
    rewrite ?filter_app, ?(filter_name_none (ct_Env t)), ?app_nil_r by done; done.
Qed.

(** A variable all of whose entries are the same one has that entry. *)
Lemma env_entry_unique c e :
  e ∈ c_Env c → (∀ e', e' ∈ c_Env c → ev_Name e' = ev_Name e → e' = e) → env_entry c (ev_Name e) = Some e.
Proof.
  intros He Hu. unfold env_entry.
  assert (e ∈ filter (λ e0, ev_Name e0 = ev_Name e) (c_Env c)) as Hin by by apply list_elem_of_filter.
  destruct (last _) as [x|] eqn:El; [|by rewrite last_None in El; rewrite El in Hin; apply elem_of_nil in Hin].
  apply last_Some_elem_of, list_elem_of_filter in El as [Hn Hx]. by rewrite (Hu x Hx Hn).
Qed.

Lemma common_entry ad image pol dr c e :
  head (ps_Containers (buildPodSpec encode_object ad image pol dr)) = Some c → e ∈ commonEnv ad →
  env_entry c (ev_Name e) = Some e.
Proof.
  intros Hc He. assert (c ∈ all_containers (buildPodSpec encode_object ad image pol dr)) as Hin.
  { unfold all_containers. destruct (ps_Containers _); [done|]. injection Hc as ->. set_solver. }
  destruct (common_env_not_shadowed encode_object ad image pol dr c e Hin He). by apply env_entry_unique.
Qed.

Lemma last_singleton_filter (x : EnvVar) l n :
  filter (λ e, ev_Name e = n) l = [x] → last (filter (λ e, ev_Name e = n) l) = Some x.
Proof. by intros ->. Qed.
End rendered.

Section in_cluster.
Context (json : AgentDeploy → string) (json_Unmarshal : list byte → result string AgentDeploy).
Context (unmarshalServerInfo : string → result string ServerInfo).
Definition encode_json (ad : AgentDeploy) : string :=
  Encoding.EncodeToString (String.list_byte_of_string (json ad)).

(** The grace period a rendered pod runs with. *)
Definition graceSeconds (ad : AgentDeploy) : Z :=
  default DefaultTerminationGracePeriodSeconds
    (apt_TerminationGracePeriodSeconds (ag_PodTemplate (spec_Agent (ad_Spec ad)))).

(** The limiter an AgentDeploy asks for: none without a positive cap; else the
    cap is that of the whole fleet, counted behind the headless service. *)
Definition asks_limiter (ad : AgentDeploy) (l : limiter) : Prop :=
  let cap := ag_RateLimit (spec_Agent (ad_Spec ad)) ≫= MaxInFlight in
  ((∀ m, cap = Some m → m <= 0) → l = Local (inl RateLimit.Unlimited)) ∧
  (∀ m, cap = Some m → 0 < m → ∃ f,
     l = Fleet (RateLimit.NewDNSCountLimiter m) f ∧ f_namespace f = ad_Namespace ad ∧
     (ad_Name ad = spec_AgentSetName (ad_Spec ad) +:+ "-" +:+ ag_Name (spec_Agent (ad_Spec ad)) →
      f_agentSet f +:+ "-" +:+ f_agentDeploy f +:+ "-headless" = om_Name (svc_meta (newHeadlessService ad)))).

Lemma buildLimiter_asked ad :
  ad_Name ad ≠ "" → ad_Namespace ad ≠ "" → asks_limiter ad (buildLimiter (Some (SimpleCopy ad))).
Proof.
  intros Hn%String.eqb_neq Hns%String.eqb_neq. unfold asks_limiter, buildLimiter, resolveMaxInFlight.
  change (ag_RateLimit (spec_Agent (ad_Spec (SimpleCopy ad)))) with (ag_RateLimit (spec_Agent (ad_Spec ad))).
  change (ad_Name (SimpleCopy ad)) with (ad_Name ad). change (ad_Namespace (SimpleCopy ad)) with (ad_Namespace ad).
  rewrite Hn, Hns. destruct (ag_RateLimit (spec_Agent (ad_Spec ad))) as [[[m|]]|]; cbn -[Z.leb]; [|by split..].
  split.
  - intros Hm. rewrite (proj2 (Z.leb_le _ _)) by auto. done.
  - intros x [= <-] Hx. rewrite (proj2 (Z.leb_gt _ _)) by done. eexists. split_and!; [done|done|].
    intros E. cbn. unfold HeadlessServiceName. rewrite E, !string_app_assoc. done.
Qed.

(** The budgets of a process whose grace variable holds [n] seconds. *)
Lemma budgets_of_grace n : 9 <= n < 2 ^ 33 →
  let b := Budgets.resolveBudgets (Itoa n) in
  Budgets.Propagation b <= Budgets.Drain_ b ∧ Budgets.Drain_ b + Budgets.Shutdown b + Budgets.margin = n * second.
Proof.
  intros Hn. assert (Budgets.resolveBudgets (Itoa n) = Budgets.deriveBudgets (n * second)) as ->.
  { unfold Budgets.resolveBudgets. rewrite bool_decide_eq_false_2.
    2:{ intros E. pose proof (Atoi_Itoa n ltac:(in_range) ltac:(lia)) as H. by rewrite E in H. }
    rewrite (Atoi_Itoa n ltac:(in_range) ltac:(lia) : ParseInt (Itoa n) = Some n).
    rewrite (proj2 (Z.ltb_lt _ _)) by lia. by rewrite wrap_s_small by (unfold second; in_range). }
  destruct (Budgets.budgets_fit (n * second)) as (H1 & H2 & _); [unfold second; in_range|unfold second; lia|].
  split; [exact H1|]. apply H2. unfold second. lia.
Qed.

End in_cluster.

(** ** Shutting down *)
Lemma stopGRPCWithin_bounds need budget : 0 <= budget → 0 <= (stopGRPCWithin need budget).1 <= budget.
Proof. intros Hb. unfold stopGRPCWithin. case_match; zbool; cbn; lia. Qed.

Lemma deriveBudgets_shutdown grace :
  5 * second <= Budgets.Shutdown (Budgets.deriveBudgets grace) <= 15 * second.
Proof.
  unfold Budgets.deriveBudgets, Budgets.clampDuration. cbn [Budgets.Shutdown].
  repeat case_match; zbool; unfold second in *; lia.
Qed.

Lemma resolveBudgets_derives raw : ∃ grace, Budgets.resolveBudgets raw = Budgets.deriveBudgets grace.
Proof. unfold Budgets.resolveBudgets. by eexists. Qed.

(** On a signal the broker stops its servers and returns within twice the
    shutdown budget whatever requests are still running, forcing the gRPC
    server only when its graceful stop needs more than the budget; a listener
    that fails on its own is reported without any shutdown; in every case the
    gRPC connection of the runtime is closed. *)
Theorem serve_loop_stops graceEnv st w s :
  let budget := Budgets.Shutdown (Budgets.resolveBudgets graceEnv) in
  let r := runServeLoop graceEnv st w s in
  0 <= sv_elapsed r <= 2 * budget ∧
  (sv_forcedGRPC r = true ↔ w = Signalled ∧ rt_grpcServer (bs_rt st) ≠ None ∧ budget < t_grpc s) ∧
  sv_err r = match w with
             | Signalled => match t_mainErr s with Some e => Some e | None => t_introErr s end
             | MainExit e | IntrospectionExit e => e
             end ∧
  (∀ c, rt_grpcConn (bs_rt st) = Some c → c ∈ sv_closed r).
Proof.
  destruct (resolveBudgets_derives graceEnv) as (grace & Hg). cbv zeta. unfold runServeLoop. rewrite Hg.
  pose proof (deriveBudgets_shutdown grace) as Hb.
  generalize dependent (Budgets.Shutdown (Budgets.deriveBudgets grace)). intros budget Hb. unfold second in *.
  assert (∀ c, rt_grpcConn (bs_rt st) = Some c →
          c ∈ match rt_grpcConn (bs_rt st) with Some c => [c] | None => [] end) as Hcl.
  { intros c ->. apply list_elem_of_here. }
  destruct w as [|e|e]; cbn [sv_elapsed sv_forcedGRPC sv_err sv_closed].
  - destruct (rt_grpcServer (bs_rt st)) as [g|].
    + pose proof (stopGRPCWithin_bounds (t_grpc s) budget ltac:(lia)) as Hs.
      destruct (stopGRPCWithin (t_grpc s) budget) as [e3 forced] eqn:E. cbn in Hs |- *.
      split_and!; [unfold bounded; lia|unfold bounded; lia| |done|done].
      unfold stopGRPCWithin in E. destruct (t_grpc s <=? budget) eqn:E'; zbool; injection E as <- <-.
      * split; [done|]. intros (_ & _ & ?). lia.
      * split; [|done]. intros _. split_and!; [done|done|lia].
    + cbn. split_and!; [unfold bounded; lia|unfold bounded; lia| |done|done].
      split; [done|]. by intros (_ & ? & _).
  - split_and!; try lia; [split; [done|by intros [? _]]|done|done].
  - split_and!; try lia; [split; [done|by intros [? _]]|done|done].
Qed.

(** The bound is reached: with a gRPC stream that outlives both stops the
    shutdown phase takes twice its budget, and the drain, the shutdown and
    the margin no longer fit into the grace period they were carved from. *)
Theorem shutdown_can_overrun_grace graceEnv st grace s :
  9 * second <= grace → in_s 64 grace → rt_grpcServer (bs_rt st) ≠ None →
  Budgets.resolveBudgets graceEnv = Budgets.deriveBudgets grace →
  let b := Budgets.deriveBudgets grace in
  Budgets.Shutdown b <= t_proxy s → Budgets.Shutdown b < t_grpc s →
  sv_elapsed (runServeLoop graceEnv st Signalled s) = 2 * Budgets.Shutdown b ∧
  grace < Budgets.Drain_ b + sv_elapsed (runServeLoop graceEnv st Signalled s).
Proof.
  intros Hg Hr Hs Hb b Hp Ht.
  destruct (Budgets.budgets_fit grace Hr ltac:(unfold second in *; lia)) as (_ & Hfit & _).
  pose proof (deriveBudgets_shutdown grace) as Hsh. specialize (Hfit Hg). fold b in Hfit, Hsh.
  assert (sv_elapsed (runServeLoop graceEnv st Signalled s) = 2 * Budgets.Shutdown b) as ->.
  { unfold runServeLoop. rewrite Hb. fold b. destruct (rt_grpcServer (bs_rt st)); [|done].
    unfold stopGRPCWithin. destruct (t_grpc s <=? Budgets.Shutdown b) eqn:E; zbool; [lia|].
    cbn [sv_elapsed]. unfold bounded, second in *. lia. }
  unfold Budgets.margin, second in *. lia.
Qed.

(** ** A concrete broker *)
Definition ex_WK : string := "/.well-known/agent-card.json".
Definition ex_card : AgentCard :=
  mkCard "helper" [mkIface "http://x/rpc" JSONRPC ""; mkIface "x" (OtherProtocol "SOAP") "";
                   mkIface "x:1" GRPC ""; mkIface "http://x" HTTPJSON ""] "".
Definition ex_deploy : AgentDeploy :=
  mkAgentDeploy (new_meta "ns" "set-a" ∅ ∅ [])
    (mkAgentDeploySpec
       (mkAbstractAgentDeploy "a" zero_pod_template None None None [] zero_scale
          (Some (mkRateLimitSpec (Some 8))) [] [] zero_update_strategy "" None)
       "set" (Some 2) zero_topology) zero_status.
Definition ex_json (_ : AgentDeploy) : string := "{}".
Definition ex_unjson (_ : list byte) : result string AgentDeploy := Ok (SimpleCopy ex_deploy).
Definition ex_noinfo (_ : string) : result string ServerInfo := Err "no".
Definition ex_env (resolved : result resolveErr AgentCard) : environment :=
  mkEnvironment "set-a-0-xyz" (PodSpecs.EncodeAgentDeploy (encode_json ex_json) ex_deploy) (λ _, resolved)
    FileAbsent (λ t, Ok ("conn " +:+ t)) (Ok tt) (λ _, Ok tt).
Definition ex_stack (resolved : result resolveErr AgentCard) : brokerStack :=
  match assembleBroker ex_unjson ex_noinfo (ex_env resolved) AgentBrokerPort AgentBrokerIntrospectionPort with
  | Ok st => st
  | Err _ => mkStack (mkRuntime (Local (inl RateLimit.Unlimited)) ∅ ∅ None None None []) None 0 0 None false
  end.

Lemma runtime_well_formed_witness :
  ∃ rt, buildRuntime (λ t, Ok t) (Some ex_card) None (resolveAgentDial true) = Ok rt ∧ runtime_wf rt.
Proof.
  destruct (buildRuntime (λ t, Ok t) (Some ex_card) None (resolveAgentDial true)) as [rt|] eqn:E.
  - exists rt. split; [reflexivity|]. exact (proj1 (runtime_well_formed _ _ _ _ _ E)).
  - exfalso. vm_compute in E. discriminate.
Defined.

Lemma advertised_interfaces_are_served_witness :
  ∃ cp out, bs_card (ex_stack (Ok ex_card)) = Some cp ∧
    ServeCard (λ _, None) cp (Ok ex_card) = CardOK out ∧
    map ai_URL (card_SupportedInterfaces out) =
      ["https://set-a.ns.svc:8490/a2a/jsonrpc"; "set-a.ns.svc:8490"; "https://set-a.ns.svc:8490/a2a/rest"] ∧
    map ai_ProtocolBinding (card_SupportedInterfaces out) = [JSONRPC; GRPC; HTTPJSON].
Proof.
  eexists _, _. split; [vm_compute; reflexivity|]. split; [vm_compute; reflexivity|].
  split; [vm_compute; reflexivity|].
  refine (proj2 (advertised_interfaces_are_served ex_WK _ _ _ _ _ (λ _, None) ex_unjson ex_noinfo
            (ex_env (Ok ex_card)) AgentBrokerPort AgentBrokerIntrospectionPort (ex_stack (Ok ex_card))
            _ ex_card _ _ _ _) _); try (vm_compute; reflexivity).
  cbn; lia.
Defined.

Lemma no_card_is_passthrough_only_witness :
  dispatch ex_WK (bs_rt (ex_stack (Err (ErrStatusNotOK 404 "")))) None (mkRequest 1 "" "/a2a/jsonrpc") =
  Handler (ProxyEndpoint Proxies.NewPassthroughReverseProxy).
Proof.
  refine (proj1 (no_card_is_passthrough_only ex_WK _ _ _ _ _ ex_unjson ex_noinfo
            (ex_env (Err (ErrStatusNotOK 404 ""))) AgentBrokerPort AgentBrokerIntrospectionPort
            (ex_stack (Err (ErrStatusNotOK 404 ""))) "" (mkRequest 1 "" "/a2a/jsonrpc") _ _ _));
    try (vm_compute; reflexivity). cbn; lia.
Defined.


End Broker.
