(* ===== verification/Workset.v ===== *)
(** * Watch sets ([pkg/shared/workset/workset.go], [options.go])

    A [WorkSet] is the set of keys a background component looks after.  Its
    assigner walks over a snapshot of the set, one key per turn, and takes a
    new snapshot at each cycle boundary.  Other goroutines track and forget
    keys between any two turns: a run is given the snapshot of each turn.  The
    worker pool around the assigner is in [WorkPool.v]. *)
From S2P Require Import Prelude.
#[local] Open Scope Z_scope.

Module Workset.

(** What the controller asks of a watcher ([scaleWatcher] of
    [agentdeploy/controller.go]). *)
Class ScaleWatcher (K S : Type) := { Track : K → S → S; Forget : K → S → S }.

Class WatcherLaws (K S : Type) `{ScaleWatcher K S} (watches : S → K → Prop) := {
  track_watches k s k' : watches (Track k s) k' ↔ k' = k ∨ watches s k';
  forget_watches k s k' : watches (Forget k s) k' ↔ k' ≠ k ∧ watches s k'
}.

Section workset.
Context {K : Type} `{Countable K} `{GoRange}.

Record WorkSet := mkWorkSet {
  ws_name : string;
  keys : gmap K unit;
  ws_workers : Z;
  taskInterval : Duration
}.

Definition defaultWorkers : Z := 20.
Definition defaultTaskInterval : Duration := 60 * second.

(** Options are functions on the set under construction. *)
Definition WorkSetOption := WorkSet → WorkSet.
Definition WithTaskInterval (d : Duration) : WorkSetOption :=
  λ w, mkWorkSet (ws_name w) (keys w) (ws_workers w) d.
Definition WithWorkers (i : Z) : WorkSetOption :=
  λ w, mkWorkSet (ws_name w) (keys w) i (taskInterval w).

Definition NewWorkSet (n : string) (opts : list WorkSetOption) : WorkSet :=
  foldl (λ w o, o w) (mkWorkSet n ∅ defaultWorkers defaultTaskInterval) opts.

Definition with_keys (f : gmap K unit → gmap K unit) (w : WorkSet) : WorkSet :=
  mkWorkSet (ws_name w) (f (keys w)) (ws_workers w) (taskInterval w).
Definition ws_Track (k : K) : WorkSet → WorkSet := with_keys <[k := tt]>.
Definition ws_Forget (k : K) : WorkSet → WorkSet := with_keys (delete k).
Definition Contains (k : K) (w : WorkSet) : bool := bool_decide (is_Some (keys w !! k)).
Definition Len (w : WorkSet) : Z := Z.of_nat (size (keys w)).
Definition Snapshot (w : WorkSet) : list K := (range_map (keys w)).*1.

#[export] Instance WorkSet_watcher : ScaleWatcher K WorkSet :=
  {| Track := ws_Track; Forget := ws_Forget |}.

(** ** The assigner loop of [Start] *)
Record Assigner := mkAssigner { batch : list K; idx : nat }.
Definition start : Assigner := mkAssigner [] 0.

(** [sleep] floors the pause at one millisecond. *)
Definition pause (d : Duration) : Duration := if d <=? 0 then millisecond else d.

(** One turn, with the snapshot it takes if the batch is used up: the key
    handed out, if any, and the pause that follows. *)
Definition assign (interval : Duration) (snap : list K) (a : Assigner) : Assigner * option K * Duration :=
  let a := if (length (batch a) <=? idx a)%nat then mkAssigner snap 0 else a in
  match batch a !! idx a with
  | None => (a, None, pause interval)
  | Some k =>
      (mkAssigner (batch a) (S (idx a)), Some k,
       pause (Z.quot interval (Z.of_nat (length (batch a)))))
  end.

(** What the assigner has still to hand out of its batch. *)
Definition rest (a : Assigner) : list K := drop (idx a) (batch a).

(** The keys handed out over successive turns. *)
Fixpoint assign_run (interval : Duration) (snaps : list (list K)) (a : Assigner) : list K :=
  match snaps with
  | [] => []
  | snap :: snaps' =>
      let '(a', k, _) := assign interval snap a in
      option_list k ++ assign_run interval snaps' a'
  end.
End workset.
Arguments WorkSet K {_ _}.
Arguments Assigner K : clear implicits.

Section fair.
Context {K : Type} `{Countable K} `{GoRange}.
#[local] Set Default Proof Using "Type*".

#[export] Instance WorkSet_laws : WatcherLaws K (WorkSet K) (λ w k, Contains k w = true).
Proof.
  split; intros k s k'; unfold Contains; rewrite !bool_decide_eq_true; cbn.
  - destruct (decide (k' = k)) as [->|Hne]; [rewrite lookup_insert_eq; naive_solver|].
    rewrite lookup_insert_ne by done. naive_solver.
  - destruct (decide (k' = k)) as [->|Hne].
    + rewrite lookup_delete_eq. split; [by intros [? ?]|naive_solver].
    + rewrite lookup_delete_ne by done. naive_solver.
Qed.

Lemma Snapshot_spec (w : WorkSet K) k : k ∈ Snapshot w ↔ Contains k w = true.
Proof.
  unfold Snapshot, Contains. rewrite bool_decide_eq_true, list_elem_of_fmap. split.
  - intros ([k' []] & -> & Hk%range_map_elem). by exists ().
  - intros [[] Hk]. exists (k, ()). split; [done|]. by apply range_map_elem.
Qed.

Lemma Snapshot_length (w : WorkSet K) : length (Snapshot w) = size (keys w).
Proof. unfold Snapshot. rewrite length_fmap, range_map_perm. apply length_map_to_list. Qed.

(** A turn takes the head of what is left, or refills. *)
Lemma assign_rest interval (snap : list K) (a : Assigner K) :
  (idx a <= length (batch a))%nat →
  let b := match rest a with [] => snap | _ => rest a end in
  ∃ a' d, assign interval snap a = (a', head b, d) ∧ rest a' = tail b ∧
    (idx a' <= length (batch a'))%nat.
Proof.
  destruct a as [b i]. unfold assign, rest. cbn [batch idx]. intros Hi.
  destruct (Nat.leb_spec (length b) i) as [Hle|Hlt]; cbn [batch idx].
  - rewrite (drop_ge b i) by lia. destruct snap as [|k ks]; cbn.
    + eexists _, _. split; [done|]. cbn. by split; [|lia].
    + eexists _, _. split; [done|]. cbn. by rewrite drop_0; split; [|lia].
  - destruct (lookup_lt_is_Some_2 b i Hlt) as [k Hk]. rewrite Hk, (drop_S b k i Hk).
    eexists _, _. split; [done|]. cbn. by split; [|lia].
Qed.

(** A cycle over [n] keys lasts [n] pauses, and takes the task
    interval up to the rounding of the division, when the interval is at
    least [n] nanoseconds. *)
Theorem cycle_takes_task_interval (w : WorkSet K) (n : Z) :
  0 < n <= taskInterval w →
  let p := pause (Z.quot (taskInterval w) n) in
  n * p <= taskInterval w < n * p + n.
Proof.
  intros Hn p. subst p. unfold pause. rewrite Z.quot_div_nonneg by lia.
  assert (1 <= taskInterval w / n) as Hq by (apply Z.div_le_lower_bound; lia).
  rewrite (proj2 (Z.leb_gt _ _)) by lia.
  pose proof (Z.div_mod (taskInterval w) n). pose proof (Z.mod_pos_bound (taskInterval w) n). lia.
Qed.
End fair.

Definition ex_ws : WorkSet Z := ws_Track 3 (ws_Track 7 (NewWorkSet "ex" [WithTaskInterval 60])).

Lemma cycle_takes_task_interval_witness :
  7 * pause (Z.quot (taskInterval ex_ws) 7) <= 60 < 7 * pause (Z.quot (taskInterval ex_ws) 7) + 7.
Proof. exact (cycle_takes_task_interval ex_ws 7 ltac:(cbn; lia)). Defined.

End Workset.
