(* ===== verification/WorkPool.v ===== *)
(** * The worker pool of a watch set ([pkg/shared/workset/workset.go])

    [WorkSet.Start] runs an assigner and a fixed number of workers joined by an
    unbuffered channel.  Each goroutine is a program counter; a step of the
    pool is one move of one of them, or of the outside world, which tracks and
    forgets keys and cancels the context.  A [select] whose cases are both
    ready takes either.  What [process] does to the rest of the system is the
    client's: here it begins with [LHand] and ends with [LFinish].  The range
    over the key map may produce any order, at every snapshot anew. *)
From S2P Require Import Prelude Workset.
#[local] Open Scope Z_scope.

Module WorkPool.
Import Workset.

Section pool.
Context {K : Type} `{Countable K}.

(** Where the assigner is: at the top of its loop, in the [select] that sends
    a key (and the pause that will follow), in [sleep], returned. *)
Inductive AssignerPc := ATurn | ASend (k : K) (d : Duration) | ASleep (d : Duration) | AReturned.

(** Where a worker is: in its [select], in [process], returned. *)
Inductive WorkerPc := WWait | WProcess (k : K) | WReturned.

Record Pool := mkPool {
  p_set : WorkSet K;
  p_assigner : Assigner K;
  p_pc : AssignerPc;
  p_workers : list WorkerPc;
  p_done : bool
}.

(** [Start], up to its loop: workers 1 to [w.workers] are running. *)
Definition Start (w : WorkSet K) : Pool :=
  mkPool w start ATurn (replicate (Z.to_nat (ws_workers w)) WWait) false.

Definition with_set (f : WorkSet K → WorkSet K) (p : Pool) : Pool :=
  mkPool (f (p_set p)) (p_assigner p) (p_pc p) (p_workers p) (p_done p).
Definition with_pc (pc : AssignerPc) (p : Pool) : Pool :=
  mkPool (p_set p) (p_assigner p) pc (p_workers p) (p_done p).
Definition with_worker (i : nat) (w : WorkerPc) (p : Pool) : Pool :=
  mkPool (p_set p) (p_assigner p) (p_pc p) (<[i := w]> (p_workers p)) (p_done p).
Definition cancel (p : Pool) : Pool :=
  mkPool (p_set p) (p_assigner p) (p_pc p) (p_workers p) true.

(** The turn of the loop up to the [select] or the idle [sleep]. *)
Definition turn (snap : list K) (p : Pool) : Pool :=
  let '(a, k, d) := assign (taskInterval (p_set p)) snap (p_assigner p) in
  mkPool (p_set p) a
    (match k with Some k => ASend k d | None => ASleep d end) (p_workers p) (p_done p).

Inductive Label :=
  | LTrack (k : K) | LForget (k : K) | LCancel
  | LTurn (snap : list K) | LHand (i : nat) (k : K) | LWake (d : Duration) | LReturn
  | LFinish (i : nat) (k : K) | LQuit (i : nat).

Inductive step : Pool → Label → Pool → Prop :=
  | step_track p k : step p (LTrack k) (with_set (ws_Track k) p)
  | step_forget p k : step p (LForget k) (with_set (ws_Forget k) p)
  | step_cancel p : step p LCancel (cancel p)
  | step_turn p snap :
      p_pc p = ATurn → snap ≡ₚ (map_to_list (keys (p_set p))).*1 →
      step p (LTurn snap) (turn snap p)
  | step_hand p i k d :
      p_pc p = ASend k d → p_workers p !! i = Some WWait →
      step p (LHand i k) (with_worker i (WProcess k) (with_pc (ASleep d) p))
  | step_wake p d : p_pc p = ASleep d → step p (LWake d) (with_pc ATurn p)
  | step_return_send p k d :
      p_pc p = ASend k d → p_done p = true → step p LReturn (with_pc AReturned p)
  | step_return_sleep p d :
      p_pc p = ASleep d → p_done p = true → step p LReturn (with_pc AReturned p)
  | step_finish p i k :
      p_workers p !! i = Some (WProcess k) → step p (LFinish i k) (with_worker i WWait p)
  | step_quit p i :
      p_workers p !! i = Some WWait → p_done p = true → step p (LQuit i) (with_worker i WReturned p).

Inductive steps : Pool → list Label → Pool → Prop :=
  | steps_nil p : steps p [] p
  | steps_cons p l p' ls p'' : step p l p' → steps p' ls p'' → steps p (l :: ls) p''.

(** Moves of the outside world. *)
Definition external (l : Label) : bool :=
  match l with LTrack _ | LForget _ | LCancel => true | _ => false end.
Definition handed (ls : list Label) : list K :=
  omap (λ l, match l with LHand _ k => Some k | _ => None end) ls.
Definition snapshots (ls : list Label) : list (list K) :=
  omap (λ l, match l with LTurn s => Some s | _ => None end) ls.

(** The time the assigner slept. *)
Definition slept (ls : list Label) : Duration :=
  foldr Z.add 0 (omap (λ l, match l with LWake d => Some d | _ => None end) ls).

(** The key in the channel's hand, and all that is left before a new snapshot
    is taken. *)
Definition pending (p : Pool) : list K :=
  match p_pc p with ASend k _ => [k] | _ => [] end.
Definition backlog (p : Pool) : list K := pending p ++ rest (p_assigner p).

Definition processing (p : Pool) : list K :=
  omap (λ w, match w with WProcess k => Some k | _ => None end) (p_workers p).

Definition stopped (p : Pool) : Prop :=
  p_pc p = AReturned ∧ Forall (.= WReturned) (p_workers p).
End pool.
Arguments Pool K {_ _}.
Arguments Label K : clear implicits.
Arguments WorkerPc K : clear implicits.

#[export] Instance Label_eq_dec {K} `{EqDecision K} : EqDecision (Label K).
Proof. solve_decision. Defined.
#[export] Instance WorkerPc_eq_dec {K} `{EqDecision K} : EqDecision (WorkerPc K).
Proof. solve_decision. Defined.

Create HintDb pool.
#[export] Hint Constructors step steps : pool.

Section laws.
Context {K : Type} `{Countable K}.
#[local] Set Default Proof Using "Type*".
Implicit Types (p : Pool K) (ls : list (Label K)).

(** The assigner's index is always inside its batch or just past it. *)
Definition in_batch (p : Pool K) : Prop :=
  (idx (p_assigner p) <= length (batch (p_assigner p)))%nat.

Lemma step_in_batch p l p' : step p l p' → in_batch p → in_batch p'.
Proof.
  unfold in_batch. destruct 1 as [| | |p snap| | | | | |]; cbn; try done. intros Hi.
  destruct (assign_rest (taskInterval (p_set p)) snap (p_assigner p) Hi) as (a & d & E & _ & Ha).
  unfold turn. by rewrite E.
Qed.

Lemma turn_backlog p snap :
  p_pc p = ATurn → in_batch p →
  backlog (turn snap p) = match backlog p with [] => snap | b => b end.
Proof.
  intros Hpc Hi. assert (pending p = []) as Hp by (unfold pending; by rewrite Hpc).
  unfold backlog, turn. rewrite Hp.
  destruct (assign_rest (taskInterval (p_set p)) snap (p_assigner p) Hi) as (a & d & -> & Ha & _).
  cbn [p_pc p_assigner app]. unfold pending. cbn [p_pc]. rewrite Ha.
  destruct (rest (p_assigner p)) as [|k ks]; [by destruct snap|done].
Qed.

Lemma hand_backlog p i k p' : step p (LHand i k) p' → backlog p = k :: backlog p'.
Proof. inversion 1 as [| | | |??? d Hpc| | | | |]; subst. unfold backlog, pending. by rewrite Hpc. Qed.

(** Only a hand-out, a turn or the assigner's return changes the backlog, and
    only a hand-out or a return makes it shorter. *)
Lemma step_backlog p l p' :
  step p l p' →
  match l with LTurn _ | LHand _ _ | LReturn => True | _ => backlog p' = backlog p end.
Proof. destruct 1 as [| | | | |p d Hpc| | | |]; unfold backlog, pending; cbn; try done. by rewrite Hpc. Qed.

Lemma elem_of_keys (w : WorkSet K) k :
  k ∈ (map_to_list (keys w)).*1 ↔ Contains k w = true.
Proof.
  unfold Contains. rewrite bool_decide_eq_true, list_elem_of_fmap. split.
  - intros ([k' []] & -> & Hk%elem_of_map_to_list). by exists ().
  - intros [[] Hk]. exists (k, ()). by rewrite elem_of_map_to_list.
Qed.

Lemma step_contains p l p' k :
  step p l p' → l ≠ LForget k → Contains k (p_set p) = true → Contains k (p_set p') = true.
Proof.
  destruct 1 as [p k'|p k'| |p snap| | | | | |]; intros Hl Hk; try done; cbn [p_set with_set].
  - apply (track_watches (WatcherLaws := WorkSet_laws) k' (p_set p) k). by right.
  - apply (forget_watches (WatcherLaws := WorkSet_laws) k' (p_set p) k).
    split; [by intros ->|done].
  - unfold turn. by destruct (assign _ _ _) as [[??]?].
Qed.

(** ** Fairness *)

(** How many keys may be handed out before [k] is, when snapshots have at most
    [n] keys. *)
Definition wait_bound (n : nat) (k : K) (p : Pool K) : nat :=
  length (backlog p) + (if decide (k ∈ backlog p) then 0 else n).

Lemma wait_bound_hand n k i k' p p' :
  step p (LHand i k') p' → k ≠ k' → wait_bound n k p = S (wait_bound n k p').
Proof.
  intros Hs Hne. unfold wait_bound. rewrite (hand_backlog _ _ _ _ Hs). cbn [length].
  destruct (decide (k ∈ k' :: backlog p')) as [Hin|Hin], (decide (k ∈ backlog p')); try lia;
    rewrite elem_of_cons in Hin; naive_solver.
Qed.

Lemma wait_bound_turn n k p snap :
  p_pc p = ATurn → in_batch p → k ∈ snap → (length snap <= n)%nat →
  (wait_bound n k (turn snap p) <= wait_bound n k p)%nat.
Proof.
  intros Hpc Hi Hk Hn. unfold wait_bound. rewrite (turn_backlog p snap Hpc Hi).
  destruct (backlog p) as [|k' b]; [|done].
  by rewrite decide_True, decide_False by (done || by apply not_elem_of_nil); cbn; lia.
Qed.

(** C17: no tracked key is starved by the pool: in any interleaving of
    the assigner, the workers, other goroutines' [Track] and [Forget] and a
    cancellation, a key that stays tracked is handed to a worker before the
    assigner has handed out as many keys as were left in its batch plus one
    snapshot, unless the assigner returned. *)
Theorem pool_is_fair p ls p' k n :
  steps p ls p' → in_batch p → Contains k (p_set p) = true →
  LForget k ∉ ls → LReturn ∉ ls → (0 < n)%nat → Forall (λ s, length s <= n)%nat (snapshots ls) →
  (wait_bound n k p <= length (handed ls))%nat → k ∈ handed ls.
Proof.
  intros Hrun. induction Hrun as [p|p l p1 ls p2 Hs Hrun IH]; intros Hi Hk Hf Hr Hn0 Hn Hl.
  { unfold wait_bound in Hl. cbn in Hl. destruct (backlog p); [|cbn in Hl; lia].
    rewrite decide_False in Hl by apply not_elem_of_nil. cbn in Hl. lia. }
  apply not_elem_of_cons in Hf as [Hf Hf'], Hr as [Hr Hr'].
  pose proof (step_in_batch _ _ _ Hs Hi) as Hi1. pose proof (step_contains _ _ _ k Hs (not_eq_sym Hf) Hk) as Hk1.
  specialize (IH Hi1 Hk1 Hf' Hr' Hn0).
  pose proof (step_backlog _ _ _ Hs) as Hb.
  assert (wait_bound n k p1 <= wait_bound n k p → (wait_bound n k p <= length (handed ls)) →
    Forall (λ s, length s <= n) (snapshots ls) → k ∈ handed ls)%nat as Hstay
    by (intros; apply IH; [done|lia]).
  destruct l as [k'|k'| |snap|i k'|d| |i k'|i]; cbn in Hl, Hn |- *; try done;
    try (apply Hstay; [unfold wait_bound; by rewrite Hb|done|done]).
  - apply Forall_cons in Hn as [Hn Hn']. apply Hstay; [|done|done].
    inversion Hs as [| | |? ? Hpc Hp| | | | | |]; subst. apply wait_bound_turn; [done|done| |done].
    by rewrite Hp, elem_of_keys.
  - destruct (decide (k = k')) as [->|Hne]; [by left|]. right. apply IH; [done|].
    rewrite (wait_bound_hand n k i k' _ _ Hs Hne) in Hl. unfold handed. lia.
Qed.

(** ** Refinement of the sequential assigner *)
Lemma step_interval p l p' : step p l p' → taskInterval (p_set p') = taskInterval (p_set p).
Proof. destruct 1; try done. unfold turn. by destruct (assign _ _ _) as [[??]?]. Qed.

(** A goroutine that has returned takes no more steps. *)
Lemma returned_stays p l p' :
  step p l p' → p_pc p = AReturned → p_pc p' = AReturned ∧ handed [l] = [] ∧ snapshots [l] = [].
Proof. destruct 1; intros Hr; cbn in *; congruence || done. Qed.

Lemma handed_app ls1 ls2 : handed (ls1 ++ ls2) = handed ls1 ++ handed ls2.
Proof. apply omap_app. Qed.
Lemma snapshots_app ls1 ls2 : snapshots (ls1 ++ ls2) = snapshots ls1 ++ snapshots ls2.
Proof. apply omap_app. Qed.

Lemma returned_quiet p ls p' :
  steps p ls p' → p_pc p = AReturned → handed ls = [] ∧ snapshots ls = [].
Proof.
  induction 1 as [|p l p1 ls p2 Hs _ IH]; intros Hr; [done|].
  destruct (returned_stays _ _ _ Hs Hr) as (Hr1 & Hh & Hsn). destruct (IH Hr1) as [IHh IHs].
  change (l :: ls) with ([l] ++ ls). by rewrite handed_app, snapshots_app, Hh, Hsn, IHh, IHs.
Qed.

(** What the workers were handed, with at most one key that was still in the
    assigner's [select] when it returned or the run ends, is what the
    assigner alone hands out on the same snapshots. *)
Lemma steps_assign_run p ls p' :
  steps p ls p' → p_pc p ≠ AReturned →
  ∃ unsent, (length unsent <= 1)%nat ∧
    handed ls ++ unsent =
      pending p ++ assign_run (taskInterval (p_set p)) (snapshots ls) (p_assigner p).
Proof.
  induction 1 as [p|p l p1 ls p2 Hs Hrun IH]; intros Hr.
  { exists (pending p). rewrite app_nil_r. split; [unfold pending; by destruct (p_pc p); cbn; lia|done]. }
  rewrite <- (step_interval _ _ _ Hs).
  destruct (decide (l = LReturn)) as [->|Hne].
  { exists (pending p). split; [unfold pending; by destruct (p_pc p); cbn; lia|].
    destruct (returned_quiet _ _ _ Hrun) as [Hh Hsn]; [by inversion Hs|].
    cbn. unfold handed, snapshots in Hh, Hsn. rewrite Hh, Hsn. cbn. by rewrite app_nil_r. }
  destruct Hs as [p k|p k|p|p snap Hpc Hp|p i k d Hpc Hw|p d Hpc| | |p i k Hw|p i Hw Hd]; try done;
    try (destruct (IH Hr) as (u & Hu & E); by exists u);
    unfold turn, pending in *; cbn [p_pc p_assigner p_set with_worker with_pc] in *.
  - rewrite Hpc. change (snapshots (LTurn snap :: ls)) with (snap :: snapshots ls). cbn [app assign_run].
    destruct (assign _ snap _) as [[a k] d] eqn:E. cbn [p_pc p_assigner p_set] in *. rewrite E.
    by destruct k as [k|]; destruct IH as (u & Hu & Eu); try done; exists u.
  - destruct IH as (u & Hu & Eu); [done|]. exists u. split; [done|]. rewrite Hpc. cbn.
    cbn in Eu. unfold handed in Eu. by rewrite Eu.
  - destruct IH as (u & Hu & Eu); [done|]. exists u. split; [done|]. rewrite Hpc. exact Eu.
Qed.

(** The pool refines the sequential assigner: whatever the workers do, the
    keys they receive are, in order, the keys of the assigner's own run on the
    snapshots it took. *)
Theorem pool_refines_assigner (w : WorkSet K) ls p :
  steps (Start w) ls p →
  ∃ unsent, (length unsent <= 1)%nat ∧
    handed ls ++ unsent = assign_run (taskInterval w) (snapshots ls) start.
Proof. intros Hrun. by apply (steps_assign_run (Start w) ls p Hrun). Qed.

(** ** Invariants of a run *)
Record pool_inv (w : WorkSet K) (p : Pool K) : Prop := {
  inv_batch : in_batch p;
  inv_workers : length (p_workers p) = Z.to_nat (ws_workers w);
  inv_returned : p_pc p = AReturned → p_done p = true;
  inv_quit : WReturned ∈ p_workers p → p_done p = true
}.

Lemma pool_inv_start w : pool_inv w (Start w).
Proof.
  split; cbn; [unfold in_batch; cbn; lia|apply length_replicate|done|]. by intros [? _]%elem_of_replicate.
Qed.

Lemma elem_of_insert_worker (i : nat) (v x : WorkerPc K) (l : list (WorkerPc K)) :
  x ∈ <[i := v]> l → x = v ∨ x ∈ l.
Proof.
  intros [j Hj]%list_elem_of_lookup. destruct (decide (i = j)) as [->|Hne].
  - left. destruct (decide (j < length l)%nat).
    + rewrite list_lookup_insert_eq in Hj by done. congruence.
    + rewrite lookup_ge_None_2 in Hj by (rewrite length_insert; lia). done.
  - right. rewrite list_lookup_insert_ne in Hj by done. by apply list_elem_of_lookup_2 in Hj.
Qed.

Lemma pool_inv_step w p l p' : pool_inv w p → step p l p' → pool_inv w p'.
Proof.
  intros [Hb Hw Hr Hq] Hs. split; [by eapply step_in_batch| | |];
    destruct Hs as [p k|p k|p|p snap Hpc Hp|p i k d Hpc Hi|p d Hpc|p k d Hpc Hd|p d Hpc Hd|p i k Hi|p i Hi Hd];
    unfold turn in *; cbn; try destruct (assign _ _ _) as [[? [?|]] ?]; cbn;
    rewrite ?length_insert; try done;
    intros Hin; try done;
    apply elem_of_insert_worker in Hin as [?|?]; by auto.
Qed.

Lemma pool_inv_steps w p ls p' : steps p ls p' → pool_inv w p → pool_inv w p'.
Proof. induction 1; eauto using pool_inv_step. Qed.

Lemma reachable_inv w ls p : steps (Start w) ls p → pool_inv w p.
Proof. intros Hrun. apply (pool_inv_steps _ _ _ _ Hrun), pool_inv_start. Qed.

(** At most [w.workers] keys are in process at a time. *)
Theorem processing_bounded (w : WorkSet K) ls p :
  steps (Start w) ls p → (length (processing p) <= Z.to_nat (ws_workers w))%nat.
Proof.
  intros [_ <- _ _]%reachable_inv. unfold processing.
  induction (p_workers p) as [|[|k|] l IH]; cbn; lia.
Qed.

(** ** Progress and shutdown *)
Lemma worker_step p i v :
  p_workers p !! i = Some v → v ≠ WReturned → (v = WWait → p_done p = true) →
  ∃ l p', step p l p' ∧ external l = false.
Proof.
  intros Hi Hv Hd. destruct v as [|k|]; [|..|done].
  - exists (LQuit i). eexists. split; [by apply step_quit, Hd|done].
  - exists (LFinish i k). eexists. split; [by apply step_finish|done].
Qed.

(** With at least one worker the pool never deadlocks: a goroutine can always
    move by itself until all of them have returned, which only a
    cancellation brings about. *)
Theorem pool_never_stuck (w : WorkSet K) ls p :
  steps (Start w) ls p → 0 < ws_workers w →
  (stopped p ∧ p_done p = true) ∨ ∃ l p', step p l p' ∧ external l = false.
Proof.
  intros [_ Hw Hr Hq]%reachable_inv Hpos.
  destruct (p_pc p) as [|k d|d|] eqn:Hpc.
  - right. eexists (LTurn _), _. split; [by apply step_turn|done].
  - right. destruct (p_workers p) as [|v ws] eqn:Hws; [cbn in Hw; lia|].
    destruct v as [|k'|].
    + eexists (LHand 0 k), _. split; [eapply step_hand; [done|by rewrite Hws]|done].
    + eapply (worker_step p 0); [by rewrite Hws|done|done].
    + eexists LReturn, _. split; [eapply step_return_send; [done|apply Hq; by left]|done].
  - right. eexists (LWake d), _. split; [by apply step_wake|done].
  - destruct (decide (Forall (.= WReturned) (p_workers p))) as [Hall|Hex].
    + left. by split; [|auto].
    + right. apply not_Forall_Exists in Hex; [|apply _]. apply Exists_exists in Hex as (v & Hin & Hv).
      apply list_elem_of_lookup in Hin as [i Hi]. by apply (worker_step p i v); auto.
Qed.

(** A stopped pool stays stopped. *)
Lemma stopped_stays p l p' : stopped p → step p l p' → external l = true ∧ stopped p'.
Proof.
  intros [Hpc Hall] Hs. rewrite Forall_lookup in Hall.
  destruct Hs as [p k|p k|p|p snap Hpc' Hp|p i k d Hpc' Hi|p d Hpc'|p k d Hpc' Hd|p d Hpc' Hd|p i k Hi|p i Hi Hd];
    try congruence; try (by specialize (Hall _ _ Hi));
    (split; [done|]); (split; [done|]); by apply Forall_lookup.
Qed.

Lemma steps_app p ls1 p1 ls2 p2 : steps p ls1 p1 → steps p1 ls2 p2 → steps p (ls1 ++ ls2) p2.
Proof. induction 1; cbn; eauto with pool. Qed.

(** Runs of at most [n] moves of the pool's own goroutines that hand out no
    key. *)
Definition winds_down (n : nat) (p p' : Pool K) : Prop :=
  ∃ ls, steps p ls p' ∧ (length ls <= n)%nat ∧ Forall (λ l, external l = false) ls ∧ handed ls = [].

Lemma winds_down_refl n p : winds_down n p p.
Proof. exists []. repeat split; [constructor|cbn; lia|done]. Qed.

Lemma winds_down_step p l p' :
  step p l p' → external l = false → handed [l] = [] → winds_down 1 p p'.
Proof. intros Hs He Hh. exists [l]. repeat split; eauto with pool. Qed.

Lemma winds_down_trans n m p p1 p2 : winds_down n p p1 → winds_down m p1 p2 → winds_down (n + m) p p2.
Proof.
  intros (l1 & H1 & Hl1 & He1 & Hh1) (l2 & H2 & Hl2 & He2 & Hh2). exists (l1 ++ l2).
  rewrite length_app, handed_app, Hh1, Hh2. repeat split; [by eapply steps_app|lia|by apply Forall_app].
Qed.

Lemma assigner_winds_down p :
  p_done p = true →
  ∃ p', winds_down 2 p p' ∧ p_pc p' = AReturned ∧ p_workers p' = p_workers p ∧ p_done p' = true.
Proof.
  intros Hd.
  assert (∀ q, p_done q = true → p_pc q ≠ ATurn →
    ∃ p', winds_down 1 q p' ∧ p_pc p' = AReturned ∧ p_workers p' = p_workers q ∧ p_done p' = true) as Hret.
  { intros q Hq Hpc. destruct (p_pc q) as [|k d|d|] eqn:E; [done|..].
    - exists (with_pc AReturned q). split; [|done]. by eapply winds_down_step; [eapply step_return_send|..].
    - exists (with_pc AReturned q). split; [|done]. by eapply winds_down_step; [eapply step_return_sleep|..].
    - exists q. split; [apply winds_down_refl|done]. }
  destruct (p_pc p) eqn:Hpc.
  2-4: destruct (Hret p Hd) as (p' & Hw & Hp'); [congruence|]; exists p'; split; [|done];
       exact (winds_down_trans 1 1 p p' p' Hw (winds_down_refl 1 p')).
  set (q := turn (map_to_list (keys (p_set p))).*1 p).
  assert (winds_down 1 p q) as Hq by (eapply winds_down_step; [by apply step_turn|done|done]).
  destruct (Hret q) as (p' & Hw & Hp1 & Hp2 & Hp3).
  1, 2: subst q; unfold turn; by destruct (assign _ _ _) as [[? [?|]] ?].
  exists p'. split; [exact (winds_down_trans 1 1 p q p' Hq Hw)|].
  split; [done|]. split; [|done]. rewrite Hp2. subst q. unfold turn. by destruct (assign _ _ _) as [[? ?] ?].
Qed.

(** A waiting worker quits at once, a busy one after its [process]. *)
Lemma worker_winds_down p i :
  p_done p = true → (i < length (p_workers p))%nat → winds_down 2 p (with_worker i WReturned p).
Proof.
  intros Hd [v Hv]%lookup_lt_is_Some_2.
  assert (∀ q, p_done q = true → p_workers q !! i = Some WWait → winds_down 1 q (with_worker i WReturned q)) as Hq.
  { intros q Hq Hi. by eapply winds_down_step; [apply step_quit|..]. }
  destruct v as [|k|].
  - apply (winds_down_trans 1 1 p _ _ (Hq p Hd Hv)), winds_down_refl.
  - assert (winds_down 1 p (with_worker i WWait p)) as Hf by (by eapply winds_down_step; [eapply step_finish|..]).
    apply (winds_down_trans 1 1 _ _ _ Hf). pose proof (lookup_lt_Some _ _ _ Hv).
    replace (with_worker i WReturned p) with (with_worker i WReturned (with_worker i WWait p))
      by (unfold with_worker; cbn; by rewrite list_insert_insert_eq).
    apply Hq; [done|]. cbn. by apply list_lookup_insert_eq.
  - unfold with_worker. rewrite list_insert_id by done. destruct p. apply winds_down_refl.
Qed.

Lemma workers_wind_down p n :
  p_done p = true → (n <= length (p_workers p))%nat →
  winds_down (2 * n) p
    (mkPool (p_set p) (p_assigner p) (p_pc p) (replicate n WReturned ++ drop n (p_workers p)) true).
Proof.
  intros Hd. induction n as [|n IH]; intros Hn.
  { cbn. rewrite drop_0, <- Hd. destruct p. apply winds_down_refl. }
  replace (2 * S n)%nat with (2 * n + 2)%nat by lia. eapply winds_down_trans; [apply IH; lia|].
  destruct (lookup_lt_is_Some_2 (p_workers p) n) as [v Hv]; [lia|].
  match goal with |- winds_down _ ?q _ => pose proof (worker_winds_down q n) as Hw end.
  cbn [p_done p_workers] in Hw. unfold with_worker in Hw. cbn [p_set p_assigner p_pc p_workers p_done] in Hw.
  rewrite (drop_S _ v n Hv) in Hw |- *.
  rewrite insert_app_r_alt in Hw by (rewrite length_replicate; lia).
  rewrite length_replicate, Nat.sub_diag in Hw. cbn [insert list_insert] in Hw.
  rewrite replicate_S_end, <- (assoc_L (++)). apply Hw; [done|]. rewrite length_app, length_replicate. cbn. lia.
Qed.

(** Cancellation stops the pool: from any point, the goroutines can return
    without another key being handed out, each by its own moves, and as soon as
    every [process] in progress has returned. *)
Theorem cancelled_pool_stops (w : WorkSet K) ls p :
  steps (Start w) ls p → p_done p = true →
  ∃ p', winds_down (2 + 2 * Z.to_nat (ws_workers w)) p p' ∧ stopped p' ∧
    ∀ l p'', step p' l p'' → external l = true ∧ stopped p''.
Proof.
  intros [_ Hw _ _]%reachable_inv Hd.
  destruct (assigner_winds_down p Hd) as (p1 & H1 & Hpc & Hws & Hd1).
  pose proof (workers_wind_down p1 (length (p_workers p1)) Hd1 (le_n _)) as H2.
  rewrite drop_all, app_nil_r in H2. eexists. split; [|split].
  - rewrite <- Hw, <- Hws. exact (winds_down_trans _ _ _ _ _ H1 H2).
  - split; [done|]. by apply Forall_replicate.
  - intros l p''. apply stopped_stays. split; [done|]. by apply Forall_replicate.
Qed.

(** ** Two interleavings *)

(** [Start] does not wait for its workers: it may return while a worker is
    still processing a key, so what its caller does next runs beside it. *)
Theorem start_returns_while_processing (w : WorkSet K) k :
  Contains k w = true → 0 < ws_workers w →
  ∃ ls p, steps (Start w) ls p ∧ p_pc p = AReturned ∧ k ∈ processing p.
Proof.
  intros Hk%elem_of_keys Hw. apply elem_of_Permutation in Hk as [ks Hks].
  unfold Start. destruct (Z.to_nat (ws_workers w)) as [|n] eqn:E; [lia|].
  eexists [LTurn (k :: ks); LHand 0 k; LCancel; LReturn], _. split; [|split].
  - econstructor; [by apply step_turn|]. econstructor; [by eapply step_hand|].
    econstructor; [apply step_cancel|]. econstructor; [by eapply step_return_sleep|]. constructor.
  - done.
  - cbn. by left.
Qed.

(** A pool at the top of its loop, its first worker idle. *)
Definition at_turn (w : WorkSet K) (b : list K) (i : nat) (ws : list (WorkerPc K)) : Pool K :=
  mkPool w (mkAssigner b i) ATurn (WWait :: ws) false.
Abbreviation key_list w := ((map_to_list (keys w)).*1).
Abbreviation cycle_pause w b := (pause (Z.quot (taskInterval w) (Z.of_nat (length b)))).

Lemma slept_app ls1 ls2 : slept (ls1 ++ ls2) = slept ls1 + slept ls2.
Proof. unfold slept. rewrite omap_app. induction (omap _ ls1); cbn; lia. Qed.

Lemma hand_over (w : WorkSet K) b i ws k :
  b !! i = Some k →
  ∃ p, steps (at_turn w b i ws) ([LTurn (key_list w)] ++ [LHand 0 k]) p ∧
    steps p [LFinish 0 k; LWake (cycle_pause w b)] (at_turn w b (S i) ws).
Proof.
  intros Hk. pose proof (lookup_lt_Some _ _ _ Hk). eexists. split.
  - econstructor; [by apply step_turn|]. unfold turn, assign. cbn [at_turn p_set p_assigner batch idx].
    rewrite (proj2 (Nat.leb_gt _ _)) by (cbn; lia). cbn [batch idx]. rewrite Hk.
    econstructor; [by eapply step_hand|]. constructor.
  - econstructor; [by eapply step_finish|]. econstructor; [by eapply step_wake|]. constructor.
Qed.

Lemma hand_over_new (w : WorkSet K) b ws k ks :
  (k :: ks) ≡ₚ (key_list w) →
  ∃ p, steps (at_turn w b (length b) ws) ([LTurn (k :: ks)] ++ [LHand 0 k]) p ∧
    steps p [LFinish 0 k; LWake (cycle_pause w (k :: ks))] (at_turn w (k :: ks) 1 ws).
Proof.
  intros Hk. eexists. split.
  - econstructor; [by apply step_turn|]. unfold turn, assign. cbn [at_turn p_set p_assigner batch idx].
    rewrite (proj2 (Nat.leb_le _ _)) by done. cbn [batch idx lookup list_lookup].
    econstructor; [by eapply step_hand|]. constructor.
  - econstructor; [by eapply step_finish|]. econstructor; [by eapply step_wake|]. constructor.
Qed.

(** The first worker takes the keys of a batch one after the other. *)
Lemma serve_batch (w : WorkSet K) b i j ws :
  (i <= j <= length b)%nat →
  ∃ ls, steps (at_turn w b i ws) ls (at_turn w b j ws) ∧
    handed ls = take (j - i) (drop i b) ∧ slept ls = Z.of_nat (j - i) * cycle_pause w b.
Proof.
  intros [Hij Hj]. remember (j - i)%nat as n eqn:En. revert i Hij En.
  induction n as [|n IH]; intros i Hij En.
  { exists []. replace j with i by lia. split; [constructor|done]. }
  destruct (IH (S i)) as (ls & Hls & Hh & Hsl); [lia|lia|].
  destruct (lookup_lt_is_Some_2 b i) as [k Hk]; [lia|].
  destruct (hand_over w b i ws k Hk) as (p & Hp & Hp').
  eexists. split; [exact (steps_app _ _ _ _ _ Hp (steps_app _ _ _ _ _ Hp' Hls))|].
  rewrite !handed_app, !slept_app, Hh, Hsl, (drop_S b k i Hk). unfold slept. cbn. split; [done|lia].
Qed.

(** A new snapshot is served up to its last key. *)
Lemma serve_to_last (w : WorkSet K) b ws k ks :
  (ks ++ [k]) ≡ₚ (key_list w) →
  ∃ ls p, steps (at_turn w b (length b) ws) (ls ++ [LHand 0 k]) p ∧
    handed ls = ks ∧ slept ls = Z.of_nat (length ks) * cycle_pause w (ks ++ [k]).
Proof.
  intros Hp. destruct ks as [|k1 ks].
  { destruct (hand_over_new w b ws k [] Hp) as (p & Hp1 & _). by exists [LTurn [k]], p. }
  destruct (hand_over_new w b ws k1 (ks ++ [k]) Hp) as (p1 & Hp1 & Hp1').
  set (b2 := k1 :: ks ++ [k]) in *.
  assert (length b2 = S (S (length ks))) as Hlen by (subst b2; cbn; rewrite length_app; cbn; lia).
  destruct (serve_batch w b2 1 (S (length ks)) ws) as (l & Hl & Hh & Hs); [lia|].
  destruct (hand_over w b2 (S (length ks)) ws k) as (p2 & Hp2 & _).
  { subst b2. change (k1 :: ks ++ [k]) with ((k1 :: ks) ++ [k]). by apply list_lookup_middle. }
  pose proof (steps_app _ _ _ _ _ Hp1 (steps_app _ _ _ _ _ Hp1' (steps_app _ _ _ _ _ Hl Hp2))) as Hrun.
  rewrite !(assoc_L (++)) in Hrun. eexists _, p2. split; [exact Hrun|].
  rewrite !handed_app, !slept_app, Hh, Hs. subst b2. cbn [length app] in *. unfold slept. cbn -[Z.mul Z.of_nat].
  replace (length ks - 0)%nat with (length ks) by lia. rewrite drop_0, take_app_length, app_nil_r. split; [done|lia].
Qed.

(** The pause only paces whole cycles: a key that comes first in one snapshot
    and last in the next is revisited after [2n - 1] of the [n] pauses that
    make up a task interval. *)
Theorem revisit_takes_two_cycles (w : WorkSet K) k ks :
  (key_list w) ≡ₚ (k :: ks) → 0 < ws_workers w →
  ∃ ls1 ls2 p1 p2,
    steps (Start w) (ls1 ++ [LHand 0 k]) p1 ∧ steps p1 (ls2 ++ [LHand 0 k]) p2 ∧
    (k ∉ handed ls2) ∧
    slept ls2 = Z.of_nat (2 * size (keys w) - 1) * pause (Z.quot (taskInterval w) (Z.of_nat (size (keys w)))).
Proof.
  intros Hks Hw. assert ((k ∉ ks) ∧ size (keys w) = S (length ks)) as [Hnk Hsz].
  { pose proof (NoDup_fst_map_to_list (keys w)) as Hnd. rewrite Hks in Hnd. apply NoDup_cons in Hnd as [? _].
    split; [done|]. rewrite <- length_map_to_list, <- (length_fmap fst), Hks. done. }
  unfold Start. destruct (Z.to_nat (ws_workers w)) as [|n] eqn:E; [lia|]. cbn [replicate].
  set (ws := replicate n WWait). set (b1 := k :: ks). set (b2 := ks ++ [k]).
  assert (b1 ≡ₚ (key_list w) ∧ b2 ≡ₚ (key_list w)) as [P1 P2]
    by (split; rewrite Hks; [done|]; subst b2; by rewrite (comm (++))).
  destruct (hand_over_new w [] ws k ks P1) as (p1 & Hp1 & Hp1').
  destruct (serve_batch w b1 1 (length b1) ws) as (l1 & Hl1 & Hh1 & Hs1); [subst b1; cbn; lia|].
  destruct (serve_to_last w b1 ws k ks P2) as (l2 & p2 & Hp2 & Hh2 & Hs2).
  pose proof (steps_app _ _ _ _ _ Hp1' (steps_app _ _ _ _ _ Hl1 Hp2)) as Hrun. rewrite !(assoc_L (++)) in Hrun.
  eexists _, _, p1, p2. split; [exact Hp1|]. split; [exact Hrun|].
  rewrite !handed_app, !slept_app, Hh1, Hs1, Hh2, Hs2, Hsz. subst b1 b2. rewrite length_app.
  cbn [length drop]. rewrite Nat.add_1_r, Nat.sub_succ, Nat.sub_0_r, firstn_all. unfold slept.
  cbn -[Z.mul Z.of_nat]. rewrite elem_of_app. split; [naive_solver|].
  replace (length ks + S (length ks + 0))%nat with (length ks + length ks + 1)%nat by lia. lia.
Qed.

End laws.

(** ** Examples: two keys, one worker *)
Definition ex_ws : WorkSet Z :=
  ws_Track 3 (ws_Track 7 (NewWorkSet "ex" [WithWorkers 1; WithTaskInterval 60])).
Definition ex_turn : Pool Z := turn [3; 7] (Start ex_ws).
Definition ex_labels : list (Label Z) :=
  [LHand 0 3; LForget 3; LFinish 0 3; LWake 30; LTurn [7]; LHand 0 7].

Ltac pool_run :=
  repeat first [ apply steps_nil
               | eapply steps_cons; [by econstructor; vm_compute|cbn] ].

Lemma ex_keys : (map_to_list (keys ex_ws)).*1 ≡ₚ [3; 7].
Proof. vm_compute. by constructor. Qed.

(** In the middle of a batch; the set changes meanwhile. *)
Lemma pool_is_fair_witness : 7 ∈ handed ex_labels.
Proof.
  refine (pool_is_fair ex_turn ex_labels _ 7 2 _ _ _ _ _ _ _ _).
  - unfold ex_labels. pool_run.
  - vm_compute. lia.
  - by vm_compute.
  - unfold ex_labels. by repeat (apply not_elem_of_cons; split; [done|]); apply not_elem_of_nil.
  - unfold ex_labels. by repeat (apply not_elem_of_cons; split; [done|]); apply not_elem_of_nil.
  - lia.
  - vm_compute. repeat constructor.
  - vm_compute. lia.
Defined.

Lemma pool_refines_assigner_witness :
  ∃ unsent, (length unsent <= 1)%nat ∧
    handed (LTurn [3; 7] :: ex_labels) ++ unsent = assign_run 60 [[3; 7]; [7]] start.
Proof.
  refine (pool_refines_assigner ex_ws (LTurn [3; 7] :: ex_labels) _ _).
  unfold ex_labels. eapply steps_cons; [apply step_turn; [done|by rewrite ex_keys]|]. cbn. pool_run.
Defined.

Lemma processing_bounded_witness : ∃ p,
  steps (Start ex_ws) [LTurn [3; 7]; LHand 0 3] p ∧ (length (processing p) <= 1)%nat.
Proof.
  eexists. split; [|refine (processing_bounded ex_ws [LTurn [3; 7]; LHand 0 3] _ _)];
    (eapply steps_cons; [apply step_turn; [done|by rewrite ex_keys]|]); cbn; pool_run.
Defined.

Lemma pool_never_stuck_witness :
  (stopped (Start ex_ws) ∧ p_done (Start ex_ws) = true) ∨ ∃ l p', step (Start ex_ws) l p' ∧ external l = false.
Proof. exact (pool_never_stuck ex_ws [] (Start ex_ws) (steps_nil _) ltac:(by vm_compute)). Defined.

Lemma cancelled_pool_stops_witness :
  ∃ p', winds_down 4 (cancel (Start ex_ws)) p' ∧ stopped p' ∧
    ∀ l p'', step p' l p'' → external l = true ∧ stopped p''.
Proof.
  refine (cancelled_pool_stops ex_ws [LCancel] (cancel (Start ex_ws)) _ _); [|done].
  pool_run.
Defined.

Lemma start_returns_while_processing_witness :
  ∃ ls p, steps (Start ex_ws) ls p ∧ p_pc p = AReturned ∧ 7 ∈ processing p.
Proof. exact (start_returns_while_processing ex_ws 7 ltac:(by vm_compute) ltac:(by vm_compute)). Defined.

(** Two keys at a task interval of 60: one and a half intervals pass. *)
Lemma revisit_takes_two_cycles_witness :
  ∃ ls1 ls2 p1 p2,
    steps (Start ex_ws) (ls1 ++ [LHand 0 3]) p1 ∧ steps p1 (ls2 ++ [LHand 0 3]) p2 ∧
    (3 ∉ handed ls2) ∧ slept ls2 = 90.
Proof. exact (revisit_takes_two_cycles ex_ws 3 [7] ex_keys ltac:(by vm_compute)). Defined.

End WorkPool.
