(* ===== verification/Controller.v ===== *)
(** * The AgentDeploy controller ([pkg/reconciler/agentdeploy/controller.go])

    [Reconcile] keeps the watch sets in step with the object, reconciles the
    services and the pods, folds the outcome into the status and writes the
    status back.  The clock and the status patch of the API are parameters
    that thread the cluster state; events and logs are left out. *)
From S2P Require Import Prelude K8s Types Conditions PodSpecs Pods Services Workset.
#[local] Open Scope Z_scope.
#[local] Open Scope string_scope.
#[local] Open Scope list_scope.

Module Controller.
Import Conditions Pods Services Workset.

Definition AgentDeployConditionDeployed : string := "Deployed".
Definition AgentDeployConditionPodsHealthy : string := "PodsHealthy".

Inductive ReconcileError : Set :=
  | GetAgentDeployFailed (e : ApiError)
  | ServicesFailed (kind : string) (e : UpsertError)
  | PodsFailed (e : PodsError)
  | PodStatusFailed (e : PodsError)
  | PatchStatusFailed (e : ApiError).

Definition pods_text (api_text : ApiError → string) (e : PodsError) : string :=
  match e with
  | ListFailed e => api_text e
  | CreatePodFailed r e => "failed to create pod for replica " +:+ Itoa r +:+ ": " +:+ api_text e
  | DeletePodFailed n e => "failed to delete pod " +:+ n +:+ ": " +:+ api_text e
  end.

(** Field updates of the status. *)
Definition with_conditions (cs : list Condition) (s : AgentDeployStatus) : AgentDeployStatus :=
  mkAgentDeployStatus cs (st_Phase s) (st_Replicas s) (st_DesiredReplicas s) (st_Selector s)
    (st_Reason s) (st_Message s) (st_LastScaledAt s) (st_ObservedGeneration s) (st_ReadyReplicas s)
    (st_UpdatedReplicas s) (st_UpdatedReadyReplicas s) (st_CurrentHash s) (st_UpdateHash s).
Definition with_phase (p : AgentDeployPhase) (s : AgentDeployStatus) : AgentDeployStatus :=
  mkAgentDeployStatus (st_Conditions s) p (st_Replicas s) (st_DesiredReplicas s) (st_Selector s)
    (st_Reason s) (st_Message s) (st_LastScaledAt s) (st_ObservedGeneration s) (st_ReadyReplicas s)
    (st_UpdatedReplicas s) (st_UpdatedReadyReplicas s) (st_CurrentHash s) (st_UpdateHash s).
Definition with_reason (reason msg : string) (s : AgentDeployStatus) : AgentDeployStatus :=
  mkAgentDeployStatus (st_Conditions s) (st_Phase s) (st_Replicas s) (st_DesiredReplicas s)
    (st_Selector s) reason msg (st_LastScaledAt s) (st_ObservedGeneration s) (st_ReadyReplicas s)
    (st_UpdatedReplicas s) (st_UpdatedReadyReplicas s) (st_CurrentHash s) (st_UpdateHash s).
Definition with_generation (g : Z) (s : AgentDeployStatus) : AgentDeployStatus :=
  mkAgentDeployStatus (st_Conditions s) (st_Phase s) (st_Replicas s) (st_DesiredReplicas s)
    (st_Selector s) (st_Reason s) (st_Message s) (st_LastScaledAt s) g (st_ReadyReplicas s)
    (st_UpdatedReplicas s) (st_UpdatedReadyReplicas s) (st_CurrentHash s) (st_UpdateHash s).

(** The conditions say [d] and [p] for the two types of an AgentDeploy (status,
    reason and message), and as in [cs0] for any other. *)
Definition reports (cs0 : list Condition) (d p : Conditions.verdict) (s : AgentDeployStatus) : Prop :=
  unique (st_Conditions s) ∧
  ∀ t, said (st_Conditions s) t =
    if String.eqb AgentDeployConditionDeployed t then Some d
    else if String.eqb AgentDeployConditionPodsHealthy t then Some p else said cs0 t.
Definition Unknown_ : Conditions.verdict := (ConditionUnknown, "Unknown", "").
Definition Successful_ : Conditions.verdict := (ConditionTrue, "Successful", "Successful").

Lemma reports_same cs0 d p s s' :
  st_Conditions s' = st_Conditions s → reports cs0 d p s → reports cs0 d p s'.
Proof. unfold reports. by intros ->. Qed.

Lemma IsReady_reports cs0 d p s :
  (∀ c, c ∈ cs0 → cond_Type c ∈ [AgentDeployConditionDeployed; AgentDeployConditionPodsHealthy]) →
  reports cs0 d p s →
  IsReady (st_Conditions s) = true ↔ d.1.1 = ConditionTrue ∧ p.1.1 = ConditionTrue.
Proof.
  intros Htypes [Hu Hs].
  rewrite (IsReady_status _ [AgentDeployConditionDeployed; AgentDeployConditionPodsHealthy]); [|done..|].
  - split.
    + intros Hall. pose proof (Hall AgentDeployConditionDeployed ltac:(set_solver)) as Hd.
      pose proof (Hall AgentDeployConditionPodsHealthy ltac:(set_solver)) as Hp.
      rewrite status_said, Hs in Hd, Hp. cbn in Hd, Hp. naive_solver.
    + intros [Ed Ep] t Ht. rewrite status_said, Hs.
      repeat (apply elem_of_cons in Ht as [->|Ht]; [cbn; by rewrite ?Ed, ?Ep|]). by apply elem_of_nil in Ht.
  - intros t. specialize (Hs t). unfold said in Hs. rewrite <- (fmap_is_Some says), Hs. clear Hs.
    destruct (String.eqb_spec AgentDeployConditionDeployed t) as [E|Hd]; [rewrite <- E; split; [set_solver|done]|].
    destruct (String.eqb_spec AgentDeployConditionPodsHealthy t) as [E|Hp]; [rewrite <- E; split; [set_solver|done]|].
    split; [|set_solver]. rewrite fmap_is_Some. intros [c Hc]. exfalso.
    assert (c ∈ cs0 ∧ cond_Type c = t) as [Hin <-] by (by apply GetCondition_in).
    specialize (Htypes c Hin). set_solver.
Qed.

(** The global configuration and the images the reconciler was built with. *)
Record Env := mkEnv {
  image : string;
  imagePullPolicy : string;
  defaultResources : ResourceRequirements
}.

Section controller.
Context {W : Type} `{!Client W AgentDeploy} `{!Client W Service} `{!Client W Pod}.
Context `{GoSort} `{GoRange}.
Context {S1 S2 : Type} `{!ScaleWatcher NamespacedName S1} `{!ScaleWatcher NamespacedName S2}.
Context (ListPods : string → gmap string string → W → W * result ApiError (list Pod)).
Context (RandomLowerCaseString : W → W * string).
Context (Now : W → W * Time).
Context (PatchStatus : AgentDeploy → AgentDeployStatus → W → W * option ApiError).
Context (MustHash : PodSpec → string) (MustHashService : ServiceSpec → string).
Context (GetScaledValueFromIntOrPercent : IntOrString → Z → bool → option Z).
Context (encode_object : AgentDeploy → string) (api_text : ApiError → string) (env : Env).

(** A change of the conditions, stamped with the clock. *)
Definition stamped (f : Time → list Condition → list Condition) (s : AgentDeployStatus) (w : W)
    : W * AgentDeployStatus :=
  let '(w, now) := Now w in (w, with_conditions (f now (st_Conditions s)) s).

Definition initialize (s : AgentDeployStatus) (w : W) : W * AgentDeployStatus :=
  let '(w, s) := stamped (λ t cs, InitializeConditions t cs [AgentDeployConditionDeployed]) s w in
  stamped (λ t cs, InitializeConditions t cs [AgentDeployConditionPodsHealthy]) s w.

(** The status of a failed step. *)
Definition failed (reason msg : string) (s : AgentDeployStatus) (w : W) : W * AgentDeployStatus :=
  let '(w, s) := stamped (λ t cs, MarkFalse t cs AgentDeployConditionDeployed reason msg) s w in
  (w, with_reason reason msg (with_phase AgentDeployPhaseFailed s)).

(** The verdict on the pods. *)
Definition all_ready (s : AgentDeployStatus) : bool :=
  ((0 <? st_DesiredReplicas s) && (st_ReadyReplicas s =? st_DesiredReplicas s))%Z.
Definition verdict (s : AgentDeployStatus) (w : W) : W * AgentDeployStatus :=
  if all_ready s then
    stamped (λ t cs, MarkTrue t cs AgentDeployConditionPodsHealthy)
      (with_phase AgentDeployPhaseRunning s) w
  else
    stamped (λ t cs, MarkFalse t cs AgentDeployConditionPodsHealthy "NotAllReady"
               (Itoa (st_ReadyReplicas s) +:+ "/" +:+ Itoa (st_DesiredReplicas s)
                  +:+ " replicas ready"))
      (with_phase AgentDeployPhaseUnknown s) w.

(** [reconcile]: the status it leaves on its copy of the object, and its
    error. *)
Definition reconcile (ad : AgentDeploy) (st : @St W)
    : @St W * AgentDeployStatus * option ReconcileError :=
  let '(w, s) := initialize (ad_Status ad) (world st) in
  let s := with_generation (om_Generation (ad_meta ad)) s in
  match reconcileServices MustHashService (ad_with_status s ad) w with
  | (w, Some (kind, e)) =>
      let '(w, s) := failed "ServiceFailed" (upsert_text api_text (kind +:+ " service") e) s w in
      (mkSt w (calls st), s, Some (ServicesFailed kind e))
  | (w, None) =>
      let '(w, now) := Now w in
      match reconcilePods ListPods RandomLowerCaseString MustHash GetScaledValueFromIntOrPercent
              (ad_with_status s ad) (image env) (imagePullPolicy env) (defaultResources env)
              encode_object now (mkSt w (calls st)) with
      | (st, s, Some e) =>
          let '(w, s) := failed "PodsFailed" (pods_text api_text e) s (world st) in
          (mkSt w (calls st), s, Some (PodsFailed e))
      | (st, s, None) =>
          let '(w, s) := stamped (λ t cs, MarkTrue t cs AgentDeployConditionDeployed) s (world st) in
          let s := with_reason "" "" s in
          match updatePodStatus ListPods (ad_with_status s ad) (mkSt w (calls st)) with
          | (st, Err e) => (st, s, Some (PodStatusFailed e))
          | (st, Ok s) =>
              let '(w, s) := verdict s (world st) in
              (mkSt w (calls st), s, None)
          end
      end
  end.

Definition persist (original : AgentDeploy) (updated : AgentDeployStatus) (w : W)
    : W * option ReconcileError :=
  if bool_decide (ad_Status original = updated) then (w, None)
  else match PatchStatus original updated w with
       | (w, Some e) => (w, Some (PatchStatusFailed e))
       | (w, None) => (w, None)
       end.

(** [!original.DeletionTimestamp.IsZero()] *)
Definition being_deleted (ad : AgentDeploy) : bool :=
  match om_DeletionTimestamp (ad_meta ad) with Some t => negb (is_zero t) | None => false end.

Record CtlSt := mkCtl { ctl : @St W; scaler : S1; driftWatcher : S2 }.

Definition Reconcile (req : NamespacedName) (c : CtlSt) : CtlSt * option ReconcileError :=
  match Get (O := AgentDeploy) req (world (ctl c)) with
  | (w, Err e) =>
      let st := mkSt w (calls (ctl c)) in
      if IsNotFound e then
        (mkCtl st (Forget req (scaler c)) (Forget req (driftWatcher c)), None)
      else (mkCtl st (scaler c) (driftWatcher c), Some (GetAgentDeployFailed e))
  | (w, Ok original) =>
      let st := mkSt w (calls (ctl c)) in
      if being_deleted original then
        (mkCtl st (Forget req (scaler c)) (Forget req (driftWatcher c)), None)
      else
        let sc := Track req (scaler c) in
        let dw := if IsEnabled (ag_DriftReload (spec_Agent (ad_Spec original)))
                  then Track req (driftWatcher c) else Forget req (driftWatcher c) in
        let '(st, updated, reconcileErr) := reconcile original st in
        let '(w, persistErr) := persist original updated (world st) in
        let c' := mkCtl (mkSt w (calls st)) sc dw in
        match reconcileErr with
        | Some e => (c', Some e)
        | None => (c', persistErr)
        end
  end.

(** ** Watch sets *)
Definition watched_after {S : Type} (watches : S → NamespacedName → Prop) (s : S)
    (req : NamespacedName) (keep : option bool) (k : NamespacedName) : Prop :=
  match keep with
  | Some true => k = req ∨ watches s k
  | Some false => k ≠ req ∧ watches s k
  | None => watches s k
  end.

(** After [Reconcile] the watch sets agree with what the API said
    about the object: gone or being deleted, it is in neither; alive, the
    autoscaler watches it and the drift watcher does exactly when drift
    reload is enabled; when the read failed nothing changes.  No other
    object's membership changes. *)
Theorem watch_sets_follow_object (w1 : S1 → NamespacedName → Prop) (w2 : S2 → NamespacedName → Prop)
    req (c : CtlSt) :
  WatcherLaws NamespacedName S1 w1 → WatcherLaws NamespacedName S2 w2 →
  let keep (alive : AgentDeploy → bool) :=
    match (Get (O := AgentDeploy) req (world (ctl c))).2 with
    | Err e => if IsNotFound e then Some false else None
    | Ok ad => Some (negb (being_deleted ad) && alive ad)
    end in
  let c' := (Reconcile req c).1 in
  (∀ k, w1 (scaler c') k ↔ watched_after w1 (scaler c) req (keep (λ _, true)) k) ∧
  (∀ k, w2 (driftWatcher c') k ↔
     watched_after w2 (driftWatcher c) req
       (keep (λ ad, IsEnabled (ag_DriftReload (spec_Agent (ad_Spec ad))))) k).
Proof.
  intros L1 L2. cbv zeta. unfold Reconcile.
  destruct (Get req (world (ctl c))) as [w [ad|e]]; cbn [snd].
  - destruct (being_deleted ad); cbn [negb andb fst scaler driftWatcher watched_after].
    { split; intros k; apply forget_watches. }
    destruct (reconcile ad _) as [[st' s] e]. destruct (persist ad s _) as [w' pe].
    destruct e as [e|]; (cbn [fst scaler driftWatcher]; split; intros k; [apply track_watches|]);
      destruct (IsEnabled _); apply track_watches || apply forget_watches.
  - destruct (IsNotFound e); cbn [fst scaler driftWatcher watched_after].
    + split; intros k; apply forget_watches.
    + done.
Qed.

(** ** Status *)

Lemma stamped_spec f s w :
  ∃ now w', stamped f s w = (w', with_conditions (f now (st_Conditions s)) s).
Proof using. unfold stamped. destruct (Now w) as [w' now]. eauto. Qed.

Lemma reports_deployed cs0 d p s now st r m :
  reports cs0 d p s →
  reports cs0 (st, r, m) p (with_conditions (markTypeStatus now (st_Conditions s)
                      AgentDeployConditionDeployed st r m) s).
Proof using.
  intros [Hu Hs]. destruct (setCondition_said now _
    (mkCondition AgentDeployConditionDeployed st r m zero_time 0) Hu) as [Hu' Hs'].
  split; [done|]. intros t. cbn [with_conditions st_Conditions].
  unfold markTypeStatus. rewrite Hs'. cbn [cond_Type says cond_Status cond_Reason cond_Message].
  destruct (String.eqb AgentDeployConditionDeployed t) eqn:E; [done|]. by rewrite Hs, E.
Qed.

Lemma reports_healthy cs0 d p s now st r m :
  reports cs0 d p s →
  reports cs0 d (st, r, m) (with_conditions (markTypeStatus now (st_Conditions s)
                      AgentDeployConditionPodsHealthy st r m) s).
Proof using.
  intros [Hu Hs]. destruct (setCondition_said now _
    (mkCondition AgentDeployConditionPodsHealthy st r m zero_time 0) Hu) as [Hu' Hs'].
  split; [done|]. intros t. cbn [with_conditions st_Conditions].
  unfold markTypeStatus. rewrite Hs'. cbn [cond_Type says cond_Status cond_Reason cond_Message]. rewrite Hs.
  destruct (String.eqb_spec AgentDeployConditionDeployed t) as [<-|]; [done|].
  by destruct (String.eqb AgentDeployConditionPodsHealthy t).
Qed.

Lemma initialize_reports s w :
  unique (st_Conditions s) →
  ∃ w' cs, initialize s w = (w', with_conditions cs s) ∧
    reports (st_Conditions s) Unknown_ Unknown_ (with_conditions cs s).
Proof using.
  intros Hu. unfold initialize.
  destruct (stamped_spec (λ t cs, InitializeConditions t cs [AgentDeployConditionDeployed]) s w)
    as (n1 & w1 & ->).
  destruct (stamped_spec (λ t cs, InitializeConditions t cs [AgentDeployConditionPodsHealthy])
              (with_conditions (InitializeConditions n1 (st_Conditions s)
                 [AgentDeployConditionDeployed]) s) w1) as (n2 & w2 & ->).
  eexists _, _. split; [reflexivity|].
  cbn [InitializeConditions fold_left with_conditions st_Conditions].
  destruct (setCondition_said n1 (st_Conditions s) (mkCondition AgentDeployConditionDeployed
    ConditionUnknown "Unknown" "" zero_time 0) Hu) as [Hu1 Hs1].
  destruct (setCondition_said n2 _ (mkCondition AgentDeployConditionPodsHealthy
    ConditionUnknown "Unknown" "" zero_time 0) Hu1) as [Hu2 Hs2].
  split; [done|]. intros t. cbn [with_conditions st_Conditions]. rewrite Hs2, Hs1.
  cbn [cond_Type says cond_Status cond_Reason cond_Message].
  destruct (String.eqb_spec AgentDeployConditionDeployed t) as [<-|]; [done|].
  by destruct (String.eqb AgentDeployConditionPodsHealthy t).
Qed.

(** The fields the pod passes leave as they are. *)
Definition same_report (s s' : AgentDeployStatus) : Prop :=
  st_Conditions s' = st_Conditions s ∧ st_Phase s' = st_Phase s ∧ st_Reason s' = st_Reason s ∧
  st_Message s' = st_Message s ∧ st_ObservedGeneration s' = st_ObservedGeneration s.

Lemma reconcilePods_report hash scaled ad img ipp res enc now st st' s e :
  reconcilePods ListPods RandomLowerCaseString hash scaled ad img ipp res enc now st = (st', s, e) →
  same_report (ad_Status ad) s ∧ st_DesiredReplicas s = uint32 (DesiredReplicas ad).
Proof using.
  unfold reconcilePods. destruct (pods_pass _ _ _ _ _ _ _ _) as [st1 [[]|e1]]; intros [= <- <- <-];
    unfold same_report, set_current_hash, set_update_hash;
    destruct (String.eqb _ _); done.
Qed.

Lemma updatePodStatus_report ad st st' s :
  updatePodStatus ListPods ad st = (st', Ok s) →
  same_report (ad_Status ad) s ∧ st_DesiredReplicas s = st_DesiredReplicas (ad_Status ad).
Proof using.
  unfold updatePodStatus, bind. destruct (listOwnedPods _ _ _) as [st1 [pods|e1]]; [|done].
  destruct (fold_left _ _ _) as [[[a b] c] d]. by intros [= <- <-].
Qed.

Lemma failed_spec cs0 d p s reason msg w :
  reports cs0 d p s →
  ∃ w' s', failed reason msg s w = (w', s') ∧ reports cs0 (ConditionFalse, reason, msg) p s' ∧
    st_Phase s' = AgentDeployPhaseFailed ∧ st_Reason s' = reason ∧ st_Message s' = msg ∧
    st_ObservedGeneration s' = st_ObservedGeneration s.
Proof using.
  intros Hr. unfold failed.
  destruct (stamped_spec (λ t cs, MarkFalse t cs AgentDeployConditionDeployed reason msg) s w)
    as (now & w' & ->).
  eexists _, _. split; [reflexivity|]. split_and!; try done.
  eapply reports_same; [|by eapply (reports_deployed _ _ _ s now)]. done.
Qed.

(** What PodsHealthy says of the counts. *)
Definition health (s : AgentDeployStatus) : Conditions.verdict :=
  if all_ready s then Successful_
  else (ConditionFalse, "NotAllReady",
        Itoa (st_ReadyReplicas s) +:+ "/" +:+ Itoa (st_DesiredReplicas s) +:+ " replicas ready").

Lemma verdict_spec cs0 d p s w :
  reports cs0 d p s →
  ∃ w' s', verdict s w = (w', s') ∧
    reports cs0 d (health s) s' ∧
    st_Phase s' = (if all_ready s then AgentDeployPhaseRunning else AgentDeployPhaseUnknown) ∧
    st_Reason s' = st_Reason s ∧ st_Message s' = st_Message s ∧
    st_ObservedGeneration s' = st_ObservedGeneration s ∧ all_ready s' = all_ready s ∧ health s' = health s ∧
    st_DesiredReplicas s' = st_DesiredReplicas s.
Proof using.
  intros Hr. unfold verdict. pose proof (eq_refl (health s)) as Hh. unfold health in Hh at 2.
  destruct (all_ready s) eqn:E.
  - destruct (stamped_spec (λ t cs, MarkTrue t cs AgentDeployConditionPodsHealthy)
                (with_phase AgentDeployPhaseRunning s) w) as (now & w' & ->).
    eexists _, _. split; [reflexivity|]. split_and!; try done.
    rewrite Hh. by apply (reports_healthy cs0 d p (with_phase AgentDeployPhaseRunning s)).
  - match goal with |- context [stamped ?f ?s w] =>
      destruct (stamped_spec f s w) as (now & w' & ->) end.
    eexists _, _. split; [reflexivity|]. split_and!; try done.
    rewrite Hh. by apply (reports_healthy cs0 d p (with_phase AgentDeployPhaseUnknown s)).
Qed.

(** What [reconcile] reports for each outcome. *)
Definition outcome_reported (ad : AgentDeploy) (st st' : @St W) (s : AgentDeployStatus)
    (e : option ReconcileError) : Prop :=
  let cs0 := st_Conditions (ad_Status ad) in
  match e with
  | None =>
      reports cs0 Successful_ (health s) s ∧
      st_Phase s = (if all_ready s then AgentDeployPhaseRunning else AgentDeployPhaseUnknown) ∧
      st_Reason s = "" ∧ st_Message s = "" ∧ st_DesiredReplicas s = uint32 (DesiredReplicas ad)
  | Some (ServicesFailed kind e) =>
      let msg := upsert_text api_text (kind +:+ " service") e in
      reports cs0 (ConditionFalse, "ServiceFailed", msg) Unknown_ s ∧ st_Phase s = AgentDeployPhaseFailed ∧
      st_Reason s = "ServiceFailed" ∧ st_Message s = msg ∧ calls st' = calls st
  | Some (PodsFailed e) =>
      reports cs0 (ConditionFalse, "PodsFailed", pods_text api_text e) Unknown_ s ∧ st_Phase s = AgentDeployPhaseFailed ∧
      st_Reason s = "PodsFailed" ∧ st_Message s = pods_text api_text e
  | Some (PodStatusFailed _) =>
      reports cs0 Successful_ Unknown_ s ∧ st_Phase s = st_Phase (ad_Status ad) ∧
      st_Reason s = "" ∧ st_Message s = ""
  | _ => False
  end.

Lemma reconcile_pods_stage ad st1 s calls0 st' s' e :
  same_report (with_generation (om_Generation (ad_meta ad)) s) s →
  reports (st_Conditions (ad_Status ad)) Unknown_ Unknown_ s →
  st_Phase s = st_Phase (ad_Status ad) →
  st_DesiredReplicas s = uint32 (DesiredReplicas ad) →
  (let '(w, s) := stamped (λ t cs, MarkTrue t cs AgentDeployConditionDeployed) s (world st1) in
   let s := with_reason "" "" s in
   match updatePodStatus ListPods (ad_with_status s ad) (mkSt w (calls st1)) with
   | (st, Err e) => (st, s, Some (PodStatusFailed e))
   | (st, Ok s) => let '(w, s) := verdict s (world st) in (mkSt w (calls st), s, None)
   end) = (st', s', e) →
  st_ObservedGeneration s' = om_Generation (ad_meta ad) ∧ outcome_reported ad calls0 st' s' e.
Proof using.
  intros Hg Hr Hph Hd.
  destruct (stamped_spec (λ t cs, MarkTrue t cs AgentDeployConditionDeployed) s (world st1))
    as (now & w' & ->).
  apply (reports_deployed _ _ _ s now ConditionTrue "Successful" "Successful") in Hr.
  cbv beta iota zeta. match goal with |- context [updatePodStatus ?l ?a ?st] =>
    destruct (updatePodStatus l a st) as [st2 [s2|e2]] eqn:Hu end.
  - apply updatePodStatus_report in Hu as [(Hc & Hp & Hre & Hm & Ho) Hd2].
    eapply (reports_same _ _ _ _ s2) in Hr; [|exact Hc].
    destruct (verdict_spec _ _ _ s2 (world st2) Hr)
      as (w3 & s3 & -> & Hr3 & Hp3 & Hre3 & Hm3 & Ho3 & Ha3 & Hh3 & Hd3).
    intros [= <- <- <-]. split; [rewrite Ho3, Ho; by apply Hg|].
    unfold outcome_reported. cbv zeta. rewrite Ha3, Hh3. split_and!; [done|done|by rewrite Hre3, Hre|by rewrite Hm3, Hm|].
    rewrite Hd3, Hd2. exact Hd.
  - intros [= <- <- <-]. split; [by apply Hg|]. split; [|done].
    eapply reports_same; [|exact Hr]. done.
Qed.

Lemma reconcile_outcome ad (st st' : @St W) s e :
  unique (st_Conditions (ad_Status ad)) → reconcile ad st = (st', s, e) →
  st_ObservedGeneration s = om_Generation (ad_meta ad) ∧ outcome_reported ad st st' s e.
Proof using.
  intros Hu. unfold reconcile.
  destruct (initialize_reports (ad_Status ad) (world st) Hu) as (w1 & cs & -> & Hr).
  set (s1 := with_generation (om_Generation (ad_meta ad)) (with_conditions cs (ad_Status ad))).
  eapply (reports_same _ _ _ _ s1) in Hr; [|done].
  destruct (reconcileServices _ _ _) as [w2 [[kind ue]|]].
  { destruct (failed_spec _ _ _ s1 "ServiceFailed" (upsert_text api_text (kind +:+ " service") ue) w2 Hr)
      as (w3 & s3 & -> & Hr3 & Hp & Hre & Hm & Ho).
    intros [= <- <- <-]. by split. }
  destruct (Now w2) as [w3 now].
  destruct (reconcilePods _ _ _ _ _ _ _ _ _ _ _) as [[st2 s2] pe] eqn:Hpods.
  apply reconcilePods_report in Hpods as [(Hc & Hp & Hre & Hm & Ho) Hd].
  eapply (reports_same _ _ _ _ s2) in Hr; [|exact Hc].
  destruct pe as [pe|].
  - destruct (failed_spec _ _ _ s2 "PodsFailed" (pods_text api_text pe) (world st2) Hr)
      as (w4 & s4 & -> & Hr4 & Hp4 & Hre4 & Hm4 & Ho4).
    intros [= <- <- <-]. split; [by rewrite Ho4, Ho|by split].
  - apply reconcile_pods_stage; [|done..]. by split_and!.
Qed.

(** C25: [reconcile] observes the object's generation and reports each outcome
    as it is.  Let the status it starts from have at most one condition per type
    (a pass keeps that so, and a new object has none).  A failed step marks the
    condition Deployed False, with the failing component as its reason and the
    error's text as its message, the same reason and message on the status, and
    the phase Failed; no pod is touched when the services failed.  Success marks
    Deployed True and clears reason and message; PodsHealthy is True and the
    phase Running exactly when every desired replica is ready, and otherwise
    PodsHealthy is False with the reason NotAllReady and the counts as message.
    When only the final listing of the pods fails the phase is left as it was
    and PodsHealthy is Unknown.  No other condition changes. *)
Theorem reconcile_reports_outcome ad (st st' : @St W) s e :
  unique (st_Conditions (ad_Status ad)) → reconcile ad st = (st', s, e) →
  st_ObservedGeneration s = om_Generation (ad_meta ad) ∧ outcome_reported ad st st' s e.
Proof using. apply reconcile_outcome. Qed.

(** An AgentDeploy whose conditions are the controller's own is
    ready exactly when its pass succeeded and left it in phase Running. *)
Theorem ready_iff_running ad (st st' : @St W) s e :
  unique (st_Conditions (ad_Status ad)) →
  (∀ c, c ∈ st_Conditions (ad_Status ad) →
     cond_Type c ∈ [AgentDeployConditionDeployed; AgentDeployConditionPodsHealthy]) →
  reconcile ad st = (st', s, e) →
  IsReady (st_Conditions s) = true ↔ e = None ∧ st_Phase s = AgentDeployPhaseRunning.
Proof using.
  intros Hu Htypes Hrec. destruct (reconcile_outcome ad st st' s e Hu Hrec) as [_ Hout].
  assert (∀ d p, reports (st_Conditions (ad_Status ad)) d p s →
            IsReady (st_Conditions s) = true ↔ d.1.1 = ConditionTrue ∧ p.1.1 = ConditionTrue) as Hready.
  { intros d p Hrep. by apply (IsReady_reports (st_Conditions (ad_Status ad))). }
  unfold outcome_reported in Hout. destruct e as [[]|]; destruct_and? Hout; try done.
  - rewrite (Hready _ _ H1). split; [by intros [[=] _]|by intros [? _]].
  - rewrite (Hready _ _ H1). split; [by intros [[=] _]|by intros [? _]].
  - rewrite (Hready _ _ H1). split; [by intros [_ [=]]|by intros [? _]].
  - rewrite (Hready _ _ H1), H3. unfold health. destruct (all_ready s); split; try done; by intros [_ [=]].
Qed.
End controller.

(** ** Witnesses on the in-memory cluster *)
Section example.
Abbreviation AdW := (MemCluster * gmap NamespacedName AgentDeploy)%type (only parsing).
#[export] Instance ex_pod_client : Client AdW Pod := part_client fst (λ v w, (v, w.2)).
#[export] Instance ex_svc_client : Client AdW Service := part_client fst (λ v w, (v, w.2)).
#[export] Instance ex_ad_client : Client AdW AgentDeploy := part_client snd (λ v w, (w.1, v)).

Definition ex_ad_list (ns : string) (labels : gmap string string) (w : AdW)
    : AdW * result ApiError (list Pod) := (w, (ex_list ns labels (mem_pods w.1)).2).
Definition ex_ad_now (w : AdW) : AdW * Time := let '(v, t) := mem_now w.1 in ((v, w.2), t).
Definition ex_patch (ad : AgentDeploy) (s : AgentDeployStatus) (w : AdW) : AdW * option ApiError :=
  ((w.1, <[ad_key ad := ad_with_status s ad]> w.2), None).
Definition ex_text (e : ApiError) : string :=
  match e with OtherError m => m | _ => "api error" end.
Definition ex_env : Env := mkEnv "img" "Always" no_resources.

Definition ex_reconcile (ad : AgentDeploy) (st : @St AdW) :=
  reconcile ex_ad_list (λ w, (w, "abcde")) ex_ad_now (λ _, "new") ex_hash ex_scaled ad_Name ex_text
    ex_env ad st.
Definition ex_start : @St AdW :=
  mkSt (mkCluster (world ex_settled) ∅ ∅ ∅ 100, {[ad_key ex_deploy := ex_deploy]}) [].
Definition ex_outcome := ex_reconcile ex_deploy ex_start.

Lemma reconcile_reports_outcome_witness :
  st_ObservedGeneration ex_outcome.1.2 = 0%Z ∧
  outcome_reported ex_text ex_deploy ex_start ex_outcome.1.1 ex_outcome.1.2 None.
Proof.
  refine (reconcile_reports_outcome ex_ad_list (λ w, (w, "abcde")) ex_ad_now (λ _, "new") ex_hash
            ex_scaled ad_Name ex_text ex_env ex_deploy ex_start ex_outcome.1.1 ex_outcome.1.2 None _ _).
  - apply NoDup_nil_2.
  - change (ex_outcome = (ex_outcome.1.1, ex_outcome.1.2, None)).
    assert (ex_outcome.2 = None) as <- by (vm_compute; reflexivity).
    by destruct ex_outcome as [[? ?] ?].
Defined.

Lemma ready_iff_running_witness :
  IsReady (st_Conditions ex_outcome.1.2) = true ∧
  (IsReady (st_Conditions ex_outcome.1.2) = true ↔
     ex_outcome.2 = None ∧ st_Phase ex_outcome.1.2 = AgentDeployPhaseRunning).
Proof.
  split; [vm_compute; reflexivity|].
  refine (ready_iff_running ex_ad_list (λ w, (w, "abcde")) ex_ad_now (λ _, "new") ex_hash
            ex_scaled ad_Name ex_text ex_env ex_deploy ex_start ex_outcome.1.1 ex_outcome.1.2
            ex_outcome.2 _ _ _).
  - apply NoDup_nil_2.
  - intros c Hc. by apply elem_of_nil in Hc.
  - change (ex_outcome = (ex_outcome.1.1, ex_outcome.1.2, ex_outcome.2)).
    by destruct ex_outcome as [[? ?] ?].
Defined.

Definition ex_ctl : @CtlSt AdW (WorkSet NamespacedName) (WorkSet NamespacedName) :=
  mkCtl ex_start (NewWorkSet "ex" [WithTaskInterval 60]) (NewWorkSet "ex" [WithTaskInterval 60]).
Definition ex_Reconcile (k : NamespacedName) c :=
  Reconcile ex_ad_list (λ w, (w, "abcde")) ex_ad_now ex_patch (λ _, "new") ex_hash ex_scaled ad_Name
    ex_text ex_env k c.

Lemma watch_sets_follow_object_witness :
  let c' := (ex_Reconcile (ad_key ex_deploy) ex_ctl).1 in
  (∀ k, Contains k (scaler c') = true ↔ k = ad_key ex_deploy ∨ Contains k (scaler ex_ctl) = true) ∧
  (∀ k, Contains k (driftWatcher c') = true ↔
     k ≠ ad_key ex_deploy ∧ Contains k (driftWatcher ex_ctl) = true).
Proof.
  exact (watch_sets_follow_object ex_ad_list (λ w, (w, "abcde")) ex_ad_now ex_patch (λ _, "new")
           ex_hash ex_scaled ad_Name ex_text ex_env (λ w k, Contains k w = true)
           (λ w k, Contains k w = true) (ad_key ex_deploy) ex_ctl WorkSet_laws WorkSet_laws).
Defined.
End example.
End Controller.
