(* ===== verification/AgentDeploys.v ===== *)
(** * Children of an AgentSet ([pkg/reconciler/agentset/agentdeploys.go])

    The desired AgentDeploys are built from the AgentSet's spec and diffed
    with the live ones.  The owner reference helper of controller-runtime and
    the object hash are parameters; the calls issued are recorded in order. *)
From S2P Require Import Prelude K8s Types Conditions Template Topology.
#[local] Open Scope Z_scope.
#[local] Open Scope string_scope.
#[local] Open Scope list_scope.

Module AgentDeploys.
Import Conditions Template Topo.

(** ** Defaults *)
Definition applyDriftReloadDefault (agent setDefault : option DriftReload) : option DriftReload :=
  match agent with
  | None => setDefault
  | Some (mkDriftReload None) =>
      match setDefault with
      | Some d => Some (mkDriftReload (Enabled d))
      | None => agent
      end
  | Some (mkDriftReload (Some _)) => agent
  end.

(** [applyTemplate] on one container template of the agent. *)
Definition fill_container (own tmpl : option ContainerTemplate) : option ContainerTemplate :=
  match tmpl with
  | None => own
  | Some _ =>
      Some (ContainerTemplate_ApplyDefaultsFrom (default zero_container_template own) tmpl)
  end.

Definition applyTemplate (a : AbstractAgentDeploy) (tmpl : AgentDeployTemplate)
    : AbstractAgentDeploy :=
  mkAbstractAgentDeploy (ag_Name a)
    (PodTemplate_ApplyDefaultsFrom (ag_PodTemplate a) (Some (adt_PodTemplate tmpl)))
    (ag_Container a)
    (fill_container (ag_InitContainer a) (adt_InitContainer tmpl))
    (fill_container (ag_BrokerContainer a) (adt_BrokerContainer tmpl))
    (ag_Volumes a) (ag_Scale a) (ag_RateLimit a) (ag_InitContainers a) (ag_Sidecars a)
    (ag_UpdateStrategy a) (ag_PublicBaseURL a) (ag_DriftReload a).

Definition with_drift (d : option DriftReload) (a : AbstractAgentDeploy) : AbstractAgentDeploy :=
  mkAbstractAgentDeploy (ag_Name a) (ag_PodTemplate a) (ag_Container a) (ag_InitContainer a)
    (ag_BrokerContainer a) (ag_Volumes a) (ag_Scale a) (ag_RateLimit a) (ag_InitContainers a)
    (ag_Sidecars a) (ag_UpdateStrategy a) (ag_PublicBaseURL a) d.

(** The agent's spec with the set-level defaults filled in. *)
Definition effective_agent (s : AgentSet) (agent : AbstractAgentDeploy) : AbstractAgentDeploy :=
  let a := match as_Templates (as_Spec s) with
           | Some t => match t_AgentDeployTemplate t with
                       | Some tmpl => applyTemplate agent tmpl
                       | None => agent
                       end
           | None => agent
           end in
  with_drift (applyDriftReloadDefault (ag_DriftReload a) (as_DriftReload (as_Spec s))) a.

Definition child_labels (s : AgentSet) (agent : AbstractAgentDeploy) : gmap string string :=
  <[KeyAgentSetName := as_Name s]>
  (<[KeyComponent := ComponentAgent]>
  (<[KeyPartOf := Project]>
  (<[KeyManagedBy := ControllerAgentSet]>
  (<[KeyAppName := ag_Name agent]> ∅)))).

(** ** Comparison *)
Definition labelsEqual `{GoRange} (a b : gmap string string) : bool :=
  if negb (size a =? size b)%nat then false
  else forallb (λ p, String.eqb (str_at b p.1) p.2) (range_map a).

Definition ad_annotation (ad : AgentDeploy) (k : string) : string :=
  str_at (om_Annotations (ad_meta ad)) k.

Definition needsUpdate `{GoRange} (existing desired : AgentDeploy) : bool :=
  if negb (String.eqb (ad_annotation existing KeyHash) (ad_annotation desired KeyHash)) then true
  else if negb (bool_decide (om_OwnerReferences (ad_meta existing) =
                             om_OwnerReferences (ad_meta desired))) then true
  else if negb (labelsEqual (om_Labels (ad_meta existing)) (om_Labels (ad_meta desired))) then true
  else false.

(** [updated]: the live object with the desired metadata and spec. *)
Definition updated_child (got want : AgentDeploy) : AgentDeploy :=
  let m := ad_meta got in
  mkAgentDeploy
    (mkObjectMeta (om_Namespace m) (om_Name m) (om_UID m) (om_ResourceVersion m) (om_Generation m)
       (om_Labels (ad_meta want)) (om_Annotations (ad_meta want))
       (om_OwnerReferences (ad_meta want)) (om_DeletionTimestamp m))
    (ad_Spec want) (ad_Status got).

Inductive ChildCall : Set :=
  | CreateChild (ad : AgentDeploy)
  | UpdateChild (ad : AgentDeploy)
  | DeleteChild (ad : AgentDeploy).

Inductive ChildError : Set :=
  | CreateChildFailed (name : string) (e : ApiError)
  | UpdateChildFailed (name : string) (e : ApiError)
  | DeleteChildFailed (name : string) (e : ApiError).

Section children.
Context {W : Type} `{!Client W AgentDeploy} `{GoRange} `{GoSort}.
Context (ListAgentDeploys : string → gmap string string → W → W * result ApiError (list AgentDeploy)).
(** [r.scheme] and [ctrl.SetControllerReference]: absent without a scheme. *)
Context (SetControllerReference :
           option (AgentSet → ObjectMeta → result string (list OwnerReference))).
Context (MustHashSpec : AgentDeploySpec → string).

Definition owner_refs (s : AgentSet) (m : ObjectMeta) : result string (list OwnerReference) :=
  match SetControllerReference with
  | Some f => f s m
  | None => Ok [AgentSetControllerRef s]
  end.

(** [newAgentDeploy]; the outer [None] is a panic of [ComputeTopology]. *)
Definition newAgentDeploy (s : AgentSet) (agent : AbstractAgentDeploy)
    : option (result string AgentDeploy) :=
  t ← ComputeTopology (Some s) (ag_Name agent);
  let spec := mkAgentDeploySpec (effective_agent s agent) (as_Name s) None t in
  let name := ChildAgentDeployName s (ag_Name agent) in
  Some (match owner_refs s (new_meta (as_Namespace s) name (child_labels s agent) ∅ []) with
        | Err e => Err ("failed to set controller reference: " +:+ e)
        | Ok refs =>
            Ok (mkAgentDeploy
                  (new_meta (as_Namespace s) name (child_labels s agent)
                     (<[KeyHash := MustHashSpec spec]> ∅) refs)
                  spec zero_status)
        end).

Fixpoint build (s : AgentSet) (agents : list AbstractAgentDeploy) (out : gmap string AgentDeploy)
    : option (result string (gmap string AgentDeploy)) :=
  match agents with
  | [] => Some (Ok out)
  | a :: agents' =>
      r ← newAgentDeploy s a;
      match r with
      | Err e => Some (Err e)
      | Ok ad => build s agents' (<[ad_Name ad := ad]> out)
      end
  end.
Definition buildDesired (s : AgentSet) : option (result string (gmap string AgentDeploy)) :=
  build s (as_Agents (as_Spec s)) ∅.

Definition listOwnedAgentDeploys (s : AgentSet) (w : W)
    : W * result ApiError (gmap string AgentDeploy) :=
  match ListAgentDeploys (as_Namespace s) (<[KeyAgentSetName := as_Name s]> ∅) w with
  | (w, Err e) => (w, Err e)
  | (w, Ok items) => (w, Ok (fold_left (λ out ad, <[ad_Name ad := ad]> out) items ∅))
  end.

(** The cluster and the calls issued so far; a step stops at an error. *)
Record ChSt := mkChSt { ch_world : W; ch_calls : list ChildCall }.
Definition step := ChSt → ChSt * option ChildError.

Definition skip : step := λ st, (st, None).
Definition call (c : ChildCall) (run : W → W * option ApiError) (ignore : ApiError → bool)
    (err : ApiError → ChildError) : step := λ st,
  let '(w, e) := run (ch_world st) in
  let st' := mkChSt w (ch_calls st ++ [c]) in
  match e with
  | Some e => if ignore e then (st', None) else (st', Some (err e))
  | None => (st', None)
  end.
Fixpoint seq_steps (l : list step) : step := λ st,
  match l with
  | [] => (st, None)
  | x :: l' => match x st with
               | (st', Some e) => (st', Some e)
               | (st', None) => seq_steps l' st'
               end
  end.

Definition apply_one (existing : gmap string AgentDeploy) (p : string * AgentDeploy) : step :=
  let '(name, want) := p in
  match existing !! name with
  | None => call (CreateChild want) (Create want) IsAlreadyExists (CreateChildFailed name)
  | Some got =>
      if negb (needsUpdate got want) then skip
      else let u := updated_child got want in
           call (UpdateChild u) (Update u) (λ _, false) (UpdateChildFailed name)
  end.
Definition remove_orphan (desired : gmap string AgentDeploy) (p : string * AgentDeploy) : step :=
  let '(name, got) := p in
  match desired !! name with
  | Some _ => skip
  | None => call (DeleteChild got) (Delete got) IsNotFound (DeleteChildFailed name)
  end.

Definition applyDesiredState (existing desired : gmap string AgentDeploy) : step :=
  seq_steps (map (apply_one existing) (range_map desired) ++
             map (remove_orphan desired) (range_map existing)).

(** ** Health of the children *)
Definition sortedNames {A} (m : gmap string A) : list string :=
  sort_slice String.ltb (range_map m).*1.

Definition phase_text (p : AgentDeployPhase) : string :=
  match p with
  | AgentDeployPhaseUnknown => ""
  | AgentDeployPhaseRunning => "Running"
  | AgentDeployPhaseFailed => "Failed"
  end.

(** The loop over the desired names: ([failed], [starting]). *)
Definition child_health (existing : gmap string AgentDeploy) (acc : list string * list string)
    (name : string) : list string * list string :=
  let '(failed, starting) := acc in
  match existing !! name with
  | None => (failed, starting ++ [name +:+ ": starting"])
  | Some ad =>
      let s := ad_Status ad in
      if bool_decide (st_Phase s = AgentDeployPhaseFailed) then
        (failed ++ [name +:+ ": " +:+ phase_text (st_Phase s)], starting)
      else if negb (bool_decide (st_Phase s = AgentDeployPhaseRunning)) then
        (failed, starting ++ [name +:+ ": " +:+ Itoa (st_ReadyReplicas s) +:+ "/" +:+
                                Itoa (st_DesiredReplicas s) +:+ " ready"])
      else (failed, starting)
  end.

Definition join_names (l : list string) : string := String.concat ", " l.

Definition AgentSetConditionAgentsHealthy : string := "AgentsHealthy".

Definition set_health (s : AgentSetStatus) (cs : list Condition) (p : AgentSetPhase) (msg : string)
    : AgentSetStatus :=
  mkAgentSetStatus cs p msg (ass_LastUpdated s) (ass_AgentCount s) (ass_ExternalAgentCount s)
    (ass_ObservedGeneration s).

Definition aggregateChildHealth (now : Time) (s : AgentSetStatus)
    (desired existing : gmap string AgentDeploy) : AgentSetStatus :=
  let cs := ass_Conditions s in
  if (size desired =? 0)%nat then
    set_health s (MarkUnknown now cs AgentSetConditionAgentsHealthy "NoAgents" "No agents are defined")
      AgentSetPhaseUnknown (ass_Message s)
  else
    let '(failed, starting) := fold_left (child_health existing) (sortedNames desired) ([], []) in
    if (0 <? length failed)%nat then
      let msg := "unhealthy agents: [" +:+ join_names failed +:+ "]" in
      set_health s (MarkFalse now cs AgentSetConditionAgentsHealthy "AgentsUnhealthy" msg)
        AgentSetPhaseFailed msg
    else if (0 <? length starting)%nat then
      let msg := "waiting for agents: [" +:+ join_names starting +:+ "]" in
      set_health s (MarkUnknown now cs AgentSetConditionAgentsHealthy "AgentsStarting" msg)
        AgentSetPhaseUnknown msg
    else
      set_health s (MarkTrue now cs AgentSetConditionAgentsHealthy) AgentSetPhaseRunning "".

(** ** Diff and apply *)

(** The calls that turn [existing] into [desired]. *)
Inductive needed (existing desired : gmap string AgentDeploy) : ChildCall → Prop :=
  | needs_create name want :
      desired !! name = Some want → existing !! name = None →
      needed existing desired (CreateChild want)
  | needs_update name want got :
      desired !! name = Some want → existing !! name = Some got → needsUpdate got want = true →
      needed existing desired (UpdateChild (updated_child got want))
  | needs_delete name got :
      existing !! name = Some got → desired !! name = None →
      needed existing desired (DeleteChild got).

(** What one step does: nothing, or one call of the plan. *)
Definition performs (x : step) (c : option ChildCall) : Prop :=
  ∀ st, (c = None ∧ x st = (st, None)) ∨
        (∃ d, c = Some d ∧ ch_calls (x st).1 = ch_calls st ++ [d]).

Lemma call_performs c run ignore err : performs (call c run ignore err) (Some c).
Proof using.
  intros st. right. exists c. split; [done|]. unfold call.
  destruct (run (ch_world st)) as [w [e|]]; [destruct (ignore e)|]; done.
Qed.

Definition planned_apply (existing : gmap string AgentDeploy) (p : string * AgentDeploy)
    : option ChildCall :=
  match existing !! p.1 with
  | None => Some (CreateChild p.2)
  | Some got => if needsUpdate got p.2 then Some (UpdateChild (updated_child got p.2)) else None
  end.
Definition planned_remove (desired : gmap string AgentDeploy) (p : string * AgentDeploy)
    : option ChildCall :=
  match desired !! p.1 with Some _ => None | None => Some (DeleteChild p.2) end.

Lemma apply_one_performs existing p : performs (apply_one existing p) (planned_apply existing p).
Proof using.
  destruct p as [name want]. unfold apply_one, planned_apply. cbn [fst snd].
  destruct (existing !! name) as [got|]; [|apply call_performs].
  destruct (needsUpdate got want); [apply call_performs|]. by left.
Qed.
Lemma remove_orphan_performs desired p : performs (remove_orphan desired p) (planned_remove desired p).
Proof using.
  destruct p as [name got]. unfold remove_orphan, planned_remove. cbn [fst snd].
  destruct (desired !! name); [by left|apply call_performs].
Qed.

(** A sequence of steps issues a prefix of its plan, all of it on success,
    and changes nothing when the plan is empty. *)
Lemma seq_steps_performs l cs st st' e :
  Forall2 performs l cs → seq_steps l st = (st', e) →
  ∃ done rest, omap id cs = done ++ rest ∧ ch_calls st' = ch_calls st ++ done ∧
    (e = None → rest = []) ∧ (omap id cs = [] → st' = st ∧ e = None).
Proof using.
  intros HF. revert st. induction HF as [|x c l cs Hx _ IH]; intros st; cbn [seq_steps].
  { intros [= <- <-]. exists [], []. by rewrite !app_nil_r. }
  destruct (Hx st) as [[-> Hst]|(d & -> & Hd)].
  - rewrite Hst. apply IH.
  - destruct (x st) as [st1 [e1|]] eqn:Hst; cbn [fst] in Hd.
    + intros [= <- <-]. exists [d], (omap id cs). split_and!; done.
    + intros (done & rest & Hcs & Hcalls & Hr & _)%IH. exists (d :: done), rest. cbn.
      rewrite Hcs, Hcalls, Hd, <- app_assoc. by split_and!.
Qed.

Definition plan (existing desired : gmap string AgentDeploy) : list ChildCall :=
  omap id (map (planned_apply existing) (range_map desired) ++
           map (planned_remove desired) (range_map existing)).

Lemma plan_elem existing desired c : c ∈ plan existing desired ↔ needed existing desired c.
Proof using.
  unfold plan. rewrite list_elem_of_omap. setoid_rewrite elem_of_app.
  setoid_rewrite list_elem_of_fmap. unfold id. split.
  - intros (? & [([name want] & -> & Hin%range_map_elem)|([name got] & -> & Hin%range_map_elem)] & Hc).
    + unfold planned_apply in Hc. cbn [fst snd] in Hc.
      destruct (existing !! name) as [got|] eqn:He; [|injection Hc as <-; by eapply needs_create].
      destruct (needsUpdate got want) eqn:Hn; [|done]. injection Hc as <-. by eapply needs_update.
    + unfold planned_remove in Hc. cbn [fst snd] in Hc.
      destruct (desired !! name) eqn:Hd; [done|]. injection Hc as <-. by eapply needs_delete.
  - intros [name want Hd He|name want got Hd He Hn|name got He Hd]; eexists; (split; [|reflexivity]).
    + left. exists (name, want). split; [unfold planned_apply; cbn; by rewrite He|by apply range_map_elem].
    + left. exists (name, want). split; [unfold planned_apply; cbn; by rewrite He, Hn|by apply range_map_elem].
    + right. exists (name, got). split; [unfold planned_remove; cbn; by rewrite Hd|by apply range_map_elem].
Qed.

Lemma applyDesiredState_plan existing desired st st' e :
  applyDesiredState existing desired st = (st', e) →
  ∃ done rest, plan existing desired = done ++ rest ∧ ch_calls st' = ch_calls st ++ done ∧
    (e = None → rest = []) ∧ (plan existing desired = [] → st' = st ∧ e = None).
Proof using.
  apply seq_steps_performs. apply Forall2_app; apply Forall2_fmap, Forall_Forall2_diag, Forall_true.
  - apply apply_one_performs.
  - apply remove_orphan_performs.
Qed.

(** C9: [applyDesiredState] issues only calls that the difference
    between the live and the desired children needs (create what is missing,
    update what drifted, delete what is no longer desired), and when it
    returns no error it has issued all of them. *)
Theorem apply_desired_state_exact existing desired (st st' : ChSt) e :
  applyDesiredState existing desired st = (st', e) →
  ∃ done, ch_calls st' = ch_calls st ++ done ∧
    (∀ c, c ∈ done → needed existing desired c) ∧
    (e = None → ∀ c, needed existing desired c → c ∈ done).
Proof using.
  intros (done & rest & Hp & Hc & Hr & _)%applyDesiredState_plan. exists done. split; [done|].
  split.
  - intros c Hin. apply plan_elem. rewrite Hp. apply elem_of_app. by left.
  - intros He c Hn. apply plan_elem in Hn. rewrite Hp, (Hr He), app_nil_r in Hn. done.
Qed.

(** The children after a pass that wrote everything it planned. *)
Definition written (existing : gmap string AgentDeploy) (name : string) (want : AgentDeploy)
    : AgentDeploy :=
  match existing !! name with
  | None => want
  | Some got => if needsUpdate got want then updated_child got want else got
  end.
Definition settle (existing desired : gmap string AgentDeploy) : gmap string AgentDeploy :=
  map_imap (λ name want, Some (written existing name want)) desired.

Lemma labelsEqual_refl m : labelsEqual m m = true.
Proof using.
  unfold labelsEqual. rewrite Nat.eqb_refl. cbn [negb]. apply forallb_forall.
  intros [k v] Hin. apply list_elem_of_In, range_map_elem in Hin. cbn [fst snd]. unfold str_at.
  rewrite Hin. apply String.eqb_refl.
Qed.

Lemma needsUpdate_same got want :
  om_Annotations (ad_meta got) = om_Annotations (ad_meta want) →
  om_OwnerReferences (ad_meta got) = om_OwnerReferences (ad_meta want) →
  om_Labels (ad_meta got) = om_Labels (ad_meta want) → needsUpdate got want = false.
Proof using.
  intros Ha Ho Hl. unfold needsUpdate, ad_annotation.
  rewrite Ha, Ho, Hl, String.eqb_refl, bool_decide_eq_true_2, labelsEqual_refl by done. done.
Qed.

Lemma needsUpdate_written existing name want : needsUpdate (written existing name want) want = false.
Proof using.
  unfold written. destruct (existing !! name) as [got|]; [|by apply needsUpdate_same].
  destruct (needsUpdate got want) eqn:E; [by apply needsUpdate_same|done].
Qed.

(** The diff converges in one pass: over the children a complete
    pass leaves, the next pass issues no call. *)
Theorem second_pass_issues_nothing existing desired (st : ChSt) :
  applyDesiredState (settle existing desired) desired st = (st, None).
Proof using.
  destruct (applyDesiredState (settle existing desired) desired st) as [st' e] eqn:Ha.
  apply applyDesiredState_plan in Ha as (? & ? & _ & _ & _ & Hnil).
  destruct Hnil as [-> ->]; [|done].
  destruct (plan (settle existing desired) desired) as [|c l] eqn:Hp; [done|].
  assert (c ∈ plan (settle existing desired) desired) as Hc by (rewrite Hp; by left).
  unfold settle in Hc. apply plan_elem in Hc as [name want Hd He|name want got Hd He Hn|name got He Hd];
    rewrite map_lookup_imap, Hd in He; cbn in He; simplify_eq.
  by rewrite needsUpdate_written in Hn.
Qed.

(** ** The desired children *)
Lemma ChildAgentDeployName_inj s a b : ChildAgentDeployName s a = ChildAgentDeployName s b → a = b.
Proof using.
  unfold ChildAgentDeployName. intros E%(inj (String.app (as_Name s))).
  by apply (inj (String.app "-")) in E.
Qed.

(** With owner references that can always be set. *)
Definition refs_ok (s : AgentSet) : Prop := ∀ m, is_Ok (owner_refs s m) = true.

Lemma newAgentDeploy_ok s a :
  refs_ok s → as_Agents (as_Spec s) ≠ [] →
  ∃ ad, newAgentDeploy s a = Some (Ok ad) ∧ ad_Name ad = ChildAgentDeployName s (ag_Name a).
Proof using.
  intros Hrefs Hne. unfold newAgentDeploy.
  destruct (ComputeTopology_total s (ag_Name a) Hne) as [t ->]. cbn.
  match goal with |- context [owner_refs s ?m] => specialize (Hrefs m) end.
  destruct (owner_refs s _) as [refs|]; [|done]. by eexists.
Qed.

Lemma build_total s agents : refs_ok s → as_Agents (as_Spec s) ≠ [] → ∀ out, ∃ m, build s agents out = Some (Ok m).
Proof using.
  intros Hrefs Hne. induction agents as [|a agents IH]; intros out; cbn [build]; [by eexists|].
  destruct (newAgentDeploy_ok s a Hrefs Hne) as (ad & -> & _). apply IH.
Qed.

(** Where a desired child comes from, and what it carries. *)
Lemma newAgentDeploy_meta s a ad : newAgentDeploy s a = Some (Ok ad) →
  ad_Name ad = ChildAgentDeployName s (ag_Name a) ∧ ad_Namespace ad = as_Namespace s ∧
  om_DeletionTimestamp (ad_meta ad) = None ∧ ad_annotation ad KeyHash = MustHashSpec (ad_Spec ad) ∧
  ad_Status ad = zero_status ∧ spec_Replicas (ad_Spec ad) = None.
Proof using.
  unfold newAgentDeploy. destruct (ComputeTopology _ _) as [t|]; [|done]. cbn.
  destruct (owner_refs _ _) as [refs|]; [|done]. intros [= <-]. cbn. split_and!; try done.
Qed.

Lemma build_from s agents : ∀ out m, build s agents out = Some (Ok m) →
  ∀ n ad, m !! n = Some ad → out !! n = Some ad ∨
    ∃ a, a ∈ agents ∧ newAgentDeploy s a = Some (Ok ad) ∧ n = ad_Name ad.
Proof using.
  induction agents as [|a agents IH]; intros out m; cbn [build]; [intros [= <-]; auto|].
  destruct (newAgentDeploy s a) as [[ad|e]|] eqn:E; cbn; [|done|done].
  intros Hm n x Hx. destruct (IH _ _ Hm n x Hx) as [Ho|(b & Hb & Hnb & ->)].
  - apply lookup_insert_Some in Ho as [[<- <-]|[_ Ho]]; [|by left]. right. exists a. split_and!; [by left|done|done].
  - right. exists b. split_and!; [by right|done|done].
Qed.

Lemma build_each s agents : ∀ out m, build s agents out = Some (Ok m) → NoDup (map ag_Name agents) →
  (∀ a, a ∈ agents → out !! ChildAgentDeployName s (ag_Name a) = None) →
  size m = (size out + length agents)%nat ∧
  (∀ a, a ∈ agents → ∃ ad, newAgentDeploy s a = Some (Ok ad) ∧ m !! ChildAgentDeployName s (ag_Name a) = Some ad) ∧
  (∀ k, (∀ a, a ∈ agents → k ≠ ChildAgentDeployName s (ag_Name a)) → m !! k = out !! k).
Proof using.
  induction agents as [|a agents IH]; intros out m; cbn [build].
  { intros [= <-] _ _. split_and!; [cbn; lia|by intros ? ?%elem_of_nil|done]. }
  destruct (newAgentDeploy s a) as [[ad|e]|] eqn:Had; cbn; [|done|done].
  destruct (newAgentDeploy_meta s a ad Had) as [Hname _]. rewrite Hname. intros Hm HN Hout. apply NoDup_cons in HN as [Hna HN].
  assert (∀ b, b ∈ agents → ChildAgentDeployName s (ag_Name b) ≠ ChildAgentDeployName s (ag_Name a)) as Hdiff.
  { intros b Hb E%ChildAgentDeployName_inj. apply Hna. rewrite <- E. by apply list_elem_of_fmap_2. }
  destruct (IH _ m Hm HN) as (Hsz & Hin & Hoth).
  { intros b Hb. rewrite lookup_insert_ne by (apply not_eq_sym, Hdiff, Hb). apply Hout. by right. }
  assert (m !! ChildAgentDeployName s (ag_Name a) = Some ad) as Hma.
  { rewrite Hoth by (intros b Hb; apply not_eq_sym, Hdiff, Hb). apply lookup_insert_eq. }
  rewrite Hsz, map_size_insert_None by (apply Hout; by left). split_and!; [lia| |].
  - intros b [->|Hb]%elem_of_cons; [by exists ad|by apply Hin].
  - intros k Hk. rewrite Hoth by (intros b Hb; apply Hk; by right).
    apply lookup_insert_ne. apply not_eq_sym, Hk. by left.
Qed.

(** For distinct agent names the desired children are exactly one
    AgentDeploy per agent, under the name derived from the agent's: building
    them neither panics nor loses one to a name collision. *)
Theorem one_child_per_agent s :
  refs_ok s → as_Agents (as_Spec s) ≠ [] → NoDup (map ag_Name (as_Agents (as_Spec s))) →
  ∃ m, buildDesired s = Some (Ok m) ∧ size m = length (as_Agents (as_Spec s)) ∧
    ∀ a, a ∈ as_Agents (as_Spec s) →
      ∃ ad, newAgentDeploy s a = Some (Ok ad) ∧ m !! ChildAgentDeployName s (ag_Name a) = Some ad.
Proof using.
  intros Hrefs Hne HN. destruct (build_total s (as_Agents (as_Spec s)) Hrefs Hne ∅) as [m Hm].
  destruct (build_each s _ ∅ m Hm HN) as (Hsz & Hin & _); [intros a _; apply lookup_empty|].
  exists m. by rewrite map_size_empty in Hsz.
Qed.

(** ** Health *)
Definition child_phase (existing : gmap string AgentDeploy) (name : string) : option AgentDeployPhase :=
  (λ ad, st_Phase (ad_Status ad)) <$> existing !! name.

Lemma child_health_fold existing names f s f' s' :
  fold_left (child_health existing) names (f, s) = (f', s') →
  (f' = [] ↔ f = [] ∧ ∀ n, n ∈ names → child_phase existing n ≠ Some AgentDeployPhaseFailed) ∧
  (s' = [] ↔ s = [] ∧ ∀ n, n ∈ names → child_phase existing n = Some AgentDeployPhaseFailed ∨
                                        child_phase existing n = Some AgentDeployPhaseRunning).
Proof using.
  revert f s. induction names as [|n names IH]; intros f s; cbn [fold_left].
  { intros [= <- <-]. split; (split; [intros ->; split; [done|by intros ? ?%elem_of_nil]|by intros [-> _]]). }
  intros Hf. unfold child_health at 2 in Hf.
  assert (∀ (P : string → Prop), (∀ m, m ∈ n :: names → P m) ↔ P n ∧ ∀ m, m ∈ names → P m) as Hcons.
  { intros P. setoid_rewrite elem_of_cons. split; [auto|]. intros [Hn Hall] m [->|Hm]; auto. }
  rewrite !Hcons. unfold child_phase at 1 3 4.
  destruct (existing !! n) as [ad|]; cbn [fmap option_fmap option_map].
  2:{ apply IH in Hf as [-> ->]. split.
      - split; [by intros [-> ?]|by intros (-> & _ & ?)].
      - split; [intros [E _]; by destruct s|]. intros (_ & [?|?] & _); done. }
  case_bool_decide as E1.
  { rewrite E1 in *. apply IH in Hf as [-> ->]. split.
    - split; [intros [E _]; by destruct f|]. intros (_ & [] & _). done.
    - split; [intros [-> ?]; by auto|by intros (-> & _ & ?)]. }
  case_bool_decide as E2; cbn [negb] in Hf.
  { rewrite E2 in *. apply IH in Hf as [-> ->]. split.
    - split; [by intros [-> ?]|by intros (-> & _ & ?)].
    - split; [intros [-> ?]; by auto|by intros (-> & _ & ?)]. }
  apply IH in Hf as [-> ->]. split.
  - split; [intros [-> ?]; split_and!; [done|congruence|done]|by intros (-> & _ & ?)].
  - split; [intros [E _]; by destruct s|]. intros (_ & [[= ?]|[= ?]] & _); done.
Qed.

Lemma sortedNames_elem {A} (m : gmap string A) n : n ∈ sortedNames m ↔ is_Some (m !! n).
Proof using.
  unfold sortedNames. rewrite sort_slice_perm, list_elem_of_fmap. split.
  - intros ([n' a] & -> & Hin%range_map_elem). by exists a.
  - intros [a Ha]. exists (n, a). split; [done|]. by apply range_map_elem.
Qed.

(** The AgentSet is Failed exactly when one of its children has
    failed, Running exactly when it has children and every one of them is
    Running, and in no phase otherwise. *)
Theorem health_aggregates_children now (s : AgentSetStatus) desired existing :
  let p := ass_Phase (aggregateChildHealth now s desired existing) in
  (p = AgentSetPhaseFailed ↔
     ∃ n, is_Some (desired !! n) ∧ child_phase existing n = Some AgentDeployPhaseFailed) ∧
  (p = AgentSetPhaseRunning ↔
     desired ≠ ∅ ∧ ∀ n, is_Some (desired !! n) → child_phase existing n = Some AgentDeployPhaseRunning) ∧
  p ≠ AgentSetPhaseDeleting.
Proof using.
  cbv zeta. unfold aggregateChildHealth. destruct (Nat.eqb_spec (size desired) 0) as [Hz|Hz].
  { apply map_size_empty_inv in Hz as ->. cbn. setoid_rewrite lookup_empty. split_and!; [|naive_solver|done].
    split; [done|]. intros (n & [? ?] & _). done. }
  assert (desired ≠ ∅) as Hne by (intros ->; by rewrite map_size_empty in Hz).
  destruct (fold_left _ _ _) as [f st] eqn:Hf. apply child_health_fold in Hf as [Hf Hs].
  setoid_rewrite sortedNames_elem in Hf. setoid_rewrite sortedNames_elem in Hs.
  destruct f as [|x f]; cbn [length Nat.ltb Nat.leb].
  - destruct (proj1 Hf eq_refl) as [_ Hnf].
    assert (∀ P : Prop, P → ¬ (∃ n, is_Some (desired !! n) ∧
              child_phase existing n = Some AgentDeployPhaseFailed)) as Hno.
    { intros _ _ (n & Hn & E). by apply (Hnf n). }
    destruct st as [|y st]; cbn [length Nat.ltb Nat.leb set_health ass_Phase].
    + destruct (proj1 Hs eq_refl) as [_ Hall].
      split_and!; [split; [done|intros Hx; by apply (Hno True) in Hx]| |done].
      split; [|done]. intros _. split; [done|]. intros n Hn. destruct (Hall n Hn) as [E|E]; [|done].
      by apply Hnf in E.
    + split_and!; [split; [done|intros Hx; by apply (Hno True) in Hx]| |done].
      split; [done|]. intros [_ Hall]. assert (y :: st = []) as [=]. apply Hs. split; [done|].
      intros n Hn. right. by apply Hall.
  - assert (¬ ∀ n, is_Some (desired !! n) → child_phase existing n ≠ Some AgentDeployPhaseFailed) as Hex.
    { intros Hall. assert (x :: f = []) as [=]. by apply Hf. }
    destruct (decide (Exists (λ n, child_phase existing n = Some AgentDeployPhaseFailed)
                (map_to_list desired).*1)) as [HE|HE].
    + apply Exists_exists in HE as (n & ([k v] & -> & Hin)%list_elem_of_fmap & Hn).
      apply elem_of_map_to_list in Hin. cbn [fst] in Hn. cbn [set_health ass_Phase].
      split_and!; [|split; [done|]|done].
      * split; [|done]. intros _. exists k. split; [by exists v|done].
      * intros [_ Hall]. rewrite (Hall k) in Hn by (by exists v). done.
    + exfalso. apply Hex. intros n [v Hv] Hn. apply HE, Exists_exists. exists n. split; [|done].
      apply list_elem_of_fmap. exists (n, v). split; [done|]. by apply elem_of_map_to_list.
Qed.
End children.

(** ** Witnesses *)
Definition ex_child (name hash : string) : AgentDeploy :=
  mkAgentDeploy (new_meta "ns" name ∅ (<[KeyHash := hash]> ∅) [])
    (mkAgentDeploySpec (named_agent name) "set" None zero_topology) zero_status.
(** One child to create, one to update, one to delete. *)
Definition ex_existing : gmap string AgentDeploy :=
  <["b" := ex_child "b" "old"]> (<["c" := ex_child "c" "h"]> ∅).
Definition ex_desired : gmap string AgentDeploy :=
  <["a" := ex_child "a" "h"]> (<["b" := ex_child "b" "h"]> ∅).
Definition ex_children : @ChSt (gmap NamespacedName AgentDeploy) :=
  mkChSt (<[mkKey "ns" "b" := ex_child "b" "old"]> (<[mkKey "ns" "c" := ex_child "c" "h"]> ∅)) [].
Definition ex_applied := applyDesiredState ex_existing ex_desired ex_children.

Lemma apply_desired_state_exact_witness :
  length (ch_calls ex_applied.1) = 3%nat ∧
  ∃ done, ch_calls ex_applied.1 = ch_calls ex_children ++ done ∧
    (∀ c, c ∈ done → needed ex_existing ex_desired c) ∧
    (None = @None ChildError → ∀ c, needed ex_existing ex_desired c → c ∈ done).
Proof.
  split; [vm_compute; reflexivity|].
  assert (ex_applied.2 = None) as Hnone by (vm_compute; reflexivity).
  refine (apply_desired_state_exact ex_existing ex_desired ex_children ex_applied.1 None _).
  rewrite <- Hnone. apply surjective_pairing.
Defined.

Definition ex_pair : AgentSet :=
  mkAgentSet (new_meta "ns" "set" ∅ ∅ [])
    (mkAgentSetSpec AgentPatternHandoff "a" (map named_agent ["a"; "b"]) None [] None) zero_set_status.

Lemma one_child_per_agent_witness :
  ∃ m, buildDesired None (λ _, "h") ex_pair = Some (Ok m) ∧ size m = 2%nat ∧
    ∀ a, a ∈ as_Agents (as_Spec ex_pair) →
      ∃ ad, newAgentDeploy None (λ _, "h") ex_pair a = Some (Ok ad) ∧
            m !! ChildAgentDeployName ex_pair (ag_Name a) = Some ad.
Proof.
  refine (one_child_per_agent None (λ _, "h") ex_pair _ _ _); [done|done|].
  apply (bool_decide_eq_true _). vm_compute. reflexivity.
Defined.
End AgentDeploys.
