(* ===== verification/AgentSets.v ===== *)
(** * The AgentSet controller ([pkg/reconciler/agentset])

    The entry service ([entry_service.go]), the metrics daemon ([daemon.go])
    and the reconcile loop ([controller.go]). *)
From S2P Require Import Prelude K8s Types Conditions Template Topology Validator PodSpecs Pods.
From S2P Require Import Services AgentDeploys.
#[local] Open Scope Z_scope.
#[local] Open Scope string_scope.
#[local] Open Scope list_scope.

Module AgentSets.
Import Conditions Template Topo Validator Services AgentDeploys.

(** ** Entry service *)
Definition newEntryService (s : AgentSet) (refs : list OwnerReference) : Service :=
  mkService
    (new_meta (as_Namespace s) (EntryServiceName s)
       (<[KeyAppName := as_Name s]>
       (<[KeyAgentSetName := as_Name s]>
       (<[KeyComponent := ComponentAgent]>
       (<[KeyPartOf := Project]>
       (<[KeyManagedBy := ControllerAgentSet]> ∅))))) ∅ refs)
    (mkServiceSpec "ClusterIP" ""
       (<[KeyAgentSetName := as_Name s]>
       (<[KeyManagedBy := ControllerAgentDeploy]>
       (<[KeyEntry := "true"]>
       (<[KeyServing := "true"]> ∅))))
       [mkServicePort "broker" AgentBrokerPort "broker" "TCP"] false).

(** ** Metrics daemon *)
Definition daemonReplicas : Z := 1.
Definition daemonProbeInitialDelaySec : Z := 5.

Definition daemonLabels (s : AgentSet) : gmap string string :=
  <[KeyAppName := DaemonName s]>
  (<[KeyAgentSetName := as_Name s]>
  (<[KeyComponent := ComponentDaemon]>
  (<[KeyPartOf := Project]>
  (<[KeyManagedBy := ControllerAgentSet]> ∅)))).

Definition newDaemonContainer (encode_set : AgentSet → string) (image pullPolicy : string)
    (s : AgentSet) (tmpl : option ContainerTemplate) (defaultResources : ResourceRequirements)
    : CoreContainer :=
  let probe := mkCoreProbe (HTTPGetAction "/healthz" "metrics" "HTTPS")
                 daemonProbeInitialDelaySec 10 2 3 1 in
  let c := mkCoreContainer ContainerNameDaemon image [] ["daemon"]
             [mkEnvVar EnvNamespace "" (Some (FieldRef "metadata.namespace"));
              mkEnvVar EnvPodName "" (Some (FieldRef "metadata.name"));
              env_value EnvAgentSetName (as_Name s);
              env_value EnvAgentSetObject (encode_set s)]
             [] [] no_resources None pullPolicy
             [mkContainerPort "api" DaemonAPIPort "TCP" "";
              mkContainerPort "metrics" DaemonMetricsPort "TCP" ""]
             (Some probe) (Some probe) None None None "" in
  let c := match tmpl with Some t => ApplyToContainer t c | None => c end in
  ApplyDefaultResourcesIfMissing c defaultResources.

Definition bare_pod_spec (c : CoreContainer) : PodSpec :=
  mkPodSpec [c] [] [] "" "" ∅ [] None [] "" None None "" None None "" None [] None.

(** [newDaemonDeployment].  The selector and the pod template share one label
    map, so the labels a daemon template adds to the pods are added to the
    selector with them. *)
Definition newDaemonDeployment (encode_set : AgentSet → string) (image pullPolicy : string)
    (defaultResources : ResourceRequirements) (s : AgentSet) (refs : list OwnerReference)
    : Deployment :=
  let tmpl := as_Templates (as_Spec s) ≫= t_DaemonTemplate in
  let cTmpl := tmpl ≫= dt_Container in
  let pod := mkPodTemplateSpec (daemonLabels s) ∅
               (bare_pod_spec (newDaemonContainer encode_set image pullPolicy s cTmpl defaultResources)) in
  let pod := match tmpl with
             | Some t => ApplyToPodTemplateSpec (dt_PodTemplate t) pod
             | None => pod
             end in
  mkDeployment (new_meta (as_Namespace s) (DaemonName s) (daemonLabels s) ∅ refs)
    (mkDeploymentSpec (Some daemonReplicas) "Recreate" (pts_Labels pod) pod).

Definition newDaemonService (s : AgentSet) (refs : list OwnerReference) : Service :=
  mkService (new_meta (as_Namespace s) (DaemonName s) (daemonLabels s) ∅ refs)
    (mkServiceSpec "ClusterIP" "" (daemonLabels s)
       [mkServicePort "api" DaemonAPIPort "api" "TCP";
        mkServicePort "metrics" DaemonMetricsPort "metrics" "TCP"] false).

(** ** Errors *)
Inductive StepError : Set :=
  | BuildObjectFailed (msg : string)
  | UpsertStepFailed (e : UpsertError).

Inductive SetError : Set :=
  | GetAgentSetFailed (e : ApiError)
  | ListChildrenFailed (e : ApiError)
  | ApplyFailed (e : ChildError)
  | EntryServiceFailed (e : StepError)
  | DaemonDeploymentFailed (e : StepError)
  | DaemonServiceFailed (e : StepError)
  | PatchSetStatusFailed (e : ApiError).

Section text.
Context (api_text : ApiError → string).

Definition child_text (e : ChildError) : string :=
  match e with
  | CreateChildFailed n e => "failed to create AgentDeploy " +:+ n +:+ ": " +:+ api_text e
  | UpdateChildFailed n e => "failed to update AgentDeploy " +:+ n +:+ ": " +:+ api_text e
  | DeleteChildFailed n e => "failed to delete orphan AgentDeploy " +:+ n +:+ ": " +:+ api_text e
  end.
Definition entry_text (e : StepError) : string :=
  match e with
  | BuildObjectFailed m => "failed to build entry service: failed to set controller reference: " +:+ m
  | UpsertStepFailed e => upsert_text api_text "entry service" e
  end.
Definition daemon_text (what : string) (e : StepError) : string :=
  match e with
  | BuildObjectFailed m =>
      "build daemon " +:+ what +:+ ": set controller reference on daemon " +:+ what +:+ ": " +:+ m
  | UpsertStepFailed (UpsertGetFailed e) => "get daemon " +:+ what +:+ ": " +:+ api_text e
  | UpsertStepFailed (UpsertCreateFailed e) => "create daemon " +:+ what +:+ ": " +:+ api_text e
  | UpsertStepFailed (UpsertDeleteFailed e) => "delete stale daemon " +:+ what +:+ ": " +:+ api_text e
  | UpsertStepFailed (UpsertRecreateFailed e) => "recreate daemon " +:+ what +:+ ": " +:+ api_text e
  end.
End text.

(** ** Conditions and status *)
Definition AgentSetConditionConfigured : string := "Configured".
Definition AgentSetConditionDeployed : string := "Deployed".

Definition ss_with_conditions (cs : list Condition) (s : AgentSetStatus) : AgentSetStatus :=
  mkAgentSetStatus cs (ass_Phase s) (ass_Message s) (ass_LastUpdated s) (ass_AgentCount s)
    (ass_ExternalAgentCount s) (ass_ObservedGeneration s).
Definition ss_with_failure (msg : string) (s : AgentSetStatus) : AgentSetStatus :=
  mkAgentSetStatus (ass_Conditions s) AgentSetPhaseFailed msg (ass_LastUpdated s) (ass_AgentCount s)
    (ass_ExternalAgentCount s) (ass_ObservedGeneration s).
Definition ss_with_generation (g : Z) (s : AgentSetStatus) : AgentSetStatus :=
  mkAgentSetStatus (ass_Conditions s) (ass_Phase s) (ass_Message s) (ass_LastUpdated s)
    (ass_AgentCount s) (ass_ExternalAgentCount s) g.
Definition ss_with_counts (agents externals : Z) (now : Time) (s : AgentSetStatus) : AgentSetStatus :=
  mkAgentSetStatus (ass_Conditions s) (ass_Phase s) (ass_Message s) now (Some agents)
    (Some externals) (ass_ObservedGeneration s).

Section controller.
Context {W : Type} `{!Client W AgentSet} `{!Client W AgentDeploy} `{!Client W Service}.
Context `{!Client W Deployment} `{GoSort} `{GoRange}.
Context (ListAgentDeploys : string → gmap string string → W → W * result ApiError (list AgentDeploy)).
Context (SetControllerReference :
           option (AgentSet → ObjectMeta → result string (list OwnerReference))).
Context (Now : W → W * Time).
Context (PatchStatus : AgentSet → AgentSetStatus → W → W * option ApiError).
Context (MustHashSpec : AgentDeploySpec → string) (MustHashService : ServiceSpec → string).
Context (MustHashDeployment : DeploymentSpec → string).
Context (IsDNS1035Label : string → bool) (url_Parse : string → option (string * string)).
Context (encode_set : AgentSet → string) (api_text : ApiError → string).
Context (validation_text : ValidationError → string).
Context (image imagePullPolicy : string) (defaultResources : ResourceRequirements).

(** Build with an owner reference, stamp the hash, upsert. *)
Definition with_refs {O} (s : AgentSet) (mk : list OwnerReference → O) (meta : O → ObjectMeta)
    : result string O :=
  match owner_refs SetControllerReference s (meta (mk [])) with
  | Err e => Err e
  | Ok refs => Ok (mk refs)
  end.
Definition stamp_deployment (d : Deployment) : Deployment :=
  mkDeployment (with_annotation KeyHash (MustHashDeployment (dep_Spec d)) (dep_meta d)) (dep_Spec d).

Definition reconcileEntryService (s : AgentSet) (w : W) : W * option StepError :=
  match with_refs s (newEntryService s) svc_meta with
  | Err m => (w, Some (BuildObjectFailed m))
  | Ok desired =>
      let '(w, e) := upsert_by_hash (stamp MustHashService desired) w in
      (w, UpsertStepFailed <$> e)
  end.

Definition reconcileDaemonDeployment (s : AgentSet) (w : W) : W * option StepError :=
  match with_refs s (newDaemonDeployment encode_set image imagePullPolicy defaultResources s) dep_meta with
  | Err m => (w, Some (BuildObjectFailed m))
  | Ok desired =>
      let '(w, e) := upsert_by_hash (stamp_deployment desired) w in
      (w, UpsertStepFailed <$> e)
  end.

Definition reconcileDaemonService (s : AgentSet) (w : W) : W * option StepError :=
  match with_refs s (newDaemonService s) svc_meta with
  | Err m => (w, Some (BuildObjectFailed m))
  | Ok desired =>
      let '(w, e) := upsert_by_hash (stamp MustHashService desired) w in
      (w, UpsertStepFailed <$> e)
  end.

Definition reconcileDaemon (s : AgentSet) (w : W) : W * option SetError :=
  match reconcileDaemonDeployment s w with
  | (w, Some e) => (w, Some (DaemonDeploymentFailed e))
  | (w, None) =>
      match reconcileDaemonService s w with
      | (w, Some e) => (w, Some (DaemonServiceFailed e))
      | (w, None) => (w, None)
      end
  end.
Definition daemon_error_text (e : SetError) : string :=
  match e with
  | DaemonDeploymentFailed e => daemon_text api_text "Deployment" e
  | DaemonServiceFailed e => daemon_text api_text "Service" e
  | _ => ""
  end.

Definition stamped (f : Time → list Condition → list Condition) (s : AgentSetStatus) (w : W)
    : W * AgentSetStatus :=
  let '(w, now) := Now w in (w, ss_with_conditions (f now (ass_Conditions s)) s).

Definition initialize (s : AgentSetStatus) (w : W) : W * AgentSetStatus :=
  let '(w, s) := stamped (λ t cs, InitializeConditions t cs [AgentSetConditionConfigured]) s w in
  let '(w, s) := stamped (λ t cs, InitializeConditions t cs [AgentSetConditionDeployed]) s w in
  stamped (λ t cs, InitializeConditions t cs [AgentSetConditionAgentsHealthy]) s w.

Definition failed (cond reason msg : string) (s : AgentSetStatus) (w : W) : W * AgentSetStatus :=
  let '(w, s) := stamped (λ t cs, MarkFalse t cs cond reason msg) s w in
  (w, ss_with_failure msg s).

(** The part of [reconcile] after the children are listed and built. *)
Definition deploy (s : AgentSet) (ss : AgentSetStatus) (existing desired : gmap string AgentDeploy)
    (st : @ChSt W) : @ChSt W * AgentSetStatus * option SetError :=
  match applyDesiredState existing desired st with
  | (st, Some e) =>
      let '(w, ss) := failed AgentSetConditionDeployed "DeployFailed" (child_text api_text e)
                        ss (ch_world st) in
      (mkChSt w (ch_calls st), ss, Some (ApplyFailed e))
  | (st, None) =>
      match reconcileEntryService s (ch_world st) with
      | (w, Some e) =>
          let '(w, ss) := failed AgentSetConditionDeployed "EntryServiceFailed"
                            (entry_text api_text e) ss w in
          (mkChSt w (ch_calls st), ss, Some (EntryServiceFailed e))
      | (w, None) =>
          match reconcileDaemon s w with
          | (w, Some e) =>
              let '(w, ss) := failed AgentSetConditionDeployed "DaemonFailed"
                                (daemon_error_text e) ss w in
              (mkChSt w (ch_calls st), ss, Some e)
          | (w, None) =>
              let '(w, ss) := stamped (λ t cs, MarkTrue t cs AgentSetConditionDeployed) ss w in
              let '(w, now) := Now w in
              let ss := aggregateChildHealth now ss desired existing in
              let '(w, now) := Now w in
              (mkChSt w (ch_calls st),
               ss_with_counts (uint32 (Z.of_nat (size desired)))
                 (uint32 (Z.of_nat (length (as_ExternalAgents (as_Spec s))))) now ss, None)
          end
      end
  end.

(** [reconcile]; the outer [None] is a panic. *)
Definition reconcile (s : AgentSet) (st : @ChSt W)
    : option (@ChSt W * AgentSetStatus * option SetError) :=
  let '(w, ss) := initialize (as_Status s) (ch_world st) in
  let ss := ss_with_generation (om_Generation (as_meta s)) ss in
  match ValidateAgentSet IsDNS1035Label url_Parse s with
  | Err e =>
      let '(w, ss) := failed AgentSetConditionConfigured "InvalidSpec" (validation_text e) ss w in
      Some (mkChSt w (ch_calls st), ss, None)
  | Ok _ =>
      let '(w, ss) := stamped (λ t cs, MarkTrue t cs AgentSetConditionConfigured) ss w in
      match listOwnedAgentDeploys ListAgentDeploys s w with
      | (w, Err e) => Some (mkChSt w (ch_calls st), ss, Some (ListChildrenFailed e))
      | (w, Ok existing) =>
          r ← buildDesired SetControllerReference MustHashSpec s;
          match r with
          | Err m =>
              let '(w, ss) := failed AgentSetConditionConfigured "BuildFailed" m ss w in
              Some (mkChSt w (ch_calls st), ss, None)
          | Ok desired => Some (deploy s ss existing desired (mkChSt w (ch_calls st)))
          end
      end
  end.

Definition persist (original : AgentSet) (updated : AgentSetStatus) (w : W) : W * option SetError :=
  if bool_decide (as_Status original = updated) then (w, None)
  else match PatchStatus original updated w with
       | (w, Some e) => (w, Some (PatchSetStatusFailed e))
       | (w, None) => (w, None)
       end.

Definition set_being_deleted (s : AgentSet) : bool :=
  match om_DeletionTimestamp (as_meta s) with Some t => negb (is_zero t) | None => false end.

Definition Reconcile (req : NamespacedName) (st : @ChSt W) : option (@ChSt W * option SetError) :=
  match Get (O := AgentSet) req (ch_world st) with
  | (w, Err e) =>
      Some (mkChSt w (ch_calls st), if IsNotFound e then None else Some (GetAgentSetFailed e))
  | (w, Ok original) =>
      let st := mkChSt w (ch_calls st) in
      if set_being_deleted original then Some (st, None)
      else
        '(st, updated, reconcileErr) ← reconcile original st;
        let '(w, statusErr) := persist original updated (ch_world st) in
        Some (mkChSt w (ch_calls st),
              match reconcileErr with Some e => Some e | None => statusErr end)
  end.

(** ** Reconcile *)
Lemma buildDesired_total s : is_Some (buildDesired SetControllerReference MustHashSpec s).
Proof using.
  unfold buildDesired. destruct (decide (as_Agents (as_Spec s) = [])) as [->|Hne]; [by eexists|].
  generalize (∅ : gmap string AgentDeploy). generalize (as_Agents (as_Spec s)) at 1.
  induction l as [|a l IH]; intros out; cbn [build]; [by eexists|].
  unfold newAgentDeploy. destruct (ComputeTopology_total s (ag_Name a) Hne) as [t ->]. cbn.
  destruct (owner_refs _ _ _); [apply IH|by eexists].
Qed.

Lemma set_stamped_spec f s w :
  ∃ now, stamped f s w = ((Now w).1, ss_with_conditions (f now (ass_Conditions s)) s).
Proof using. unfold stamped. destruct (Now w) as [w' now]. by exists now. Qed.

(** No AgentSet makes the controller panic: [Reconcile] always
    returns, whatever the spec and whatever the API answers. *)
Theorem agentset_reconcile_returns req (st : @ChSt W) : is_Some (Reconcile req st).
Proof using.
  unfold Reconcile. destruct (Get req (ch_world st)) as [w [s|e]]; [|by eexists].
  destruct (set_being_deleted s); [by eexists|].
  assert (∀ st, is_Some (reconcile s st)) as Hrec.
  { intros st'. unfold reconcile. destruct (initialize _ _) as [w1 ss].
    destruct (ValidateAgentSet _ _ _) as [[]|e].
    - destruct (stamped _ _ _) as [w2 ss2].
      destruct (listOwnedAgentDeploys _ _ _) as [w3 [existing|e]]; [|by eexists].
      destruct (buildDesired_total s) as [[m|m] ->]; cbn.
      + by eexists.
      + destruct (failed _ _ _ _ _). by eexists.
    - destruct (failed _ _ _ _ _). by eexists. }
  destruct (Hrec (mkChSt w (ch_calls st))) as [[[st' ss] e] ->]. cbn.
  destruct (persist _ _ _). by eexists.
Qed.

(** The condition of type [t] as [MarkFalse] leaves it. *)
Lemma set_failed_spec cond reason msg s w :
  unique (ass_Conditions s) →
  ∃ s', failed cond reason msg s w = ((Now w).1, s') ∧ ass_Phase s' = AgentSetPhaseFailed ∧
    ass_Message s' = msg ∧ status_of (ass_Conditions s') cond = Some ConditionFalse ∧
    ass_ObservedGeneration s' = ass_ObservedGeneration s.
Proof using.
  intros Hu. unfold failed.
  destruct (set_stamped_spec (λ t cs, MarkFalse t cs cond reason msg) s w) as [now ->].
  eexists. split; [reflexivity|]. split_and!; try done.
  cbn [ss_with_failure ss_with_conditions ass_Conditions].
  destruct (setCondition_status now _ (mkCondition cond ConditionFalse reason msg zero_time 0) Hu) as [_ Hs].
  unfold MarkFalse, markTypeStatus. rewrite Hs. cbn. by rewrite String.eqb_refl.
Qed.

Lemma initialize_spec s w :
  unique (ass_Conditions s) →
  ∃ s', initialize s w = ((Now (Now (Now w).1).1).1, s') ∧ unique (ass_Conditions s').
Proof using.
  intros Hu. unfold initialize.
  assert (∀ c s w, unique (ass_Conditions s) →
    ∃ s', stamped (λ t cs, InitializeConditions t cs [c]) s w = ((Now w).1, s') ∧
          unique (ass_Conditions s')) as Hone.
  { intros c s0 w0 Hu0.
    destruct (set_stamped_spec (λ t cs, InitializeConditions t cs [c]) s0 w0) as [now ->].
    eexists. split; [reflexivity|]. cbn.
    apply (setCondition_status now _ (mkCondition c ConditionUnknown "Unknown" "" zero_time 0) Hu0). }
  destruct (Hone AgentSetConditionConfigured s w Hu) as (s1 & -> & Hu1).
  destruct (Hone AgentSetConditionDeployed s1 (Now w).1 Hu1) as (s2 & -> & Hu2).
  destruct (Hone AgentSetConditionAgentsHealthy s2 (Now (Now w).1).1 Hu2) as (s3 & -> & Hu3).
  by exists s3.
Qed.

(** An AgentSet that does not validate changes nothing in the
    cluster: the pass only reads the clock, reports phase Failed and
    Configured False with the validation error, and is not retried. *)
Theorem invalid_spec_changes_nothing s (st : @ChSt W) e :
  unique (ass_Conditions (as_Status s)) → (∀ w, (Now w).1 = w) →
  ValidateAgentSet IsDNS1035Label url_Parse s = Err e →
  ∃ ss, reconcile s st = Some (st, ss, None) ∧ ass_Phase ss = AgentSetPhaseFailed ∧
    ass_Message ss = validation_text e ∧ ass_ObservedGeneration ss = om_Generation (as_meta s) ∧
    status_of (ass_Conditions ss) AgentSetConditionConfigured = Some ConditionFalse.
Proof using.
  intros Hu Hnow He. unfold reconcile.
  destruct (initialize_spec (as_Status s) (ch_world st) Hu) as (s1 & -> & Hu1). rewrite He.
  destruct (set_failed_spec AgentSetConditionConfigured "InvalidSpec" (validation_text e)
              (ss_with_generation (om_Generation (as_meta s)) s1)
              (Now (Now (Now (ch_world st)).1).1).1 Hu1) as (s2 & -> & Hp & Hm & Hs & Hg).
  rewrite !Hnow. exists s2. split_and!; [by destruct st|done..].
Qed.
End controller.

(** ** Label selectors *)
Lemma insert_subseteq_iff (m m' : gmap string string) k v :
  m !! k = None → <[k := v]> m ⊆ m' ↔ m' !! k = Some v ∧ m ⊆ m'.
Proof.
  intros Hk. split.
  - intros Hs. split; [apply (lookup_weaken _ _ _ _ (lookup_insert_eq m k v) Hs)|].
    etrans; [apply (insert_subseteq m k v Hk)|done].
  - intros [Hv Hs]. by apply insert_subseteq_l.
Qed.

(** Look up a constant key in a map literal. *)
Ltac map_lookups :=
  repeat first [rewrite lookup_insert_eq | rewrite lookup_insert_ne by done].

(** A service selects the pods whose labels include its selector. *)
Definition selects (svc : Service) (labels : gmap string string) : Prop :=
  svc_Selector (svc_Spec svc) ⊆ labels.

Lemma effective_agent_name s a : ag_Name (effective_agent s a) = ag_Name a.
Proof. unfold effective_agent. by repeat case_match. Qed.

Lemma newAgentDeploy_inv scr hash s a ad :
  newAgentDeploy scr hash s a = Some (Ok ad) →
  spec_AgentSetName (ad_Spec ad) = as_Name s ∧ ag_Name (spec_Agent (ad_Spec ad)) = ag_Name a ∧
  spec_Replicas (ad_Spec ad) = None ∧
  tp_IsEntry (spec_Topology (ad_Spec ad)) = String.eqb (ag_Name a) (as_Entry (as_Spec s)).
Proof.
  unfold newAgentDeploy. destruct (ComputeTopology (Some s) (ag_Name a)) as [t|] eqn:Ht; [|done].
  cbn. destruct (owner_refs _ _ _); [|done]. intros [= <-]. cbn.
  split_and!; [done|apply effective_agent_name|done|].
  unfold ComputeTopology in Ht. repeat case_match; simplify_option_eq; done.
Qed.

Section labels.
Context (ad : AgentDeploy) (r : Z).

Lemma pod_labels_set : Pods.pod_labels ad r !! KeyAgentSetName = Some (spec_AgentSetName (ad_Spec ad)).
Proof. unfold Pods.pod_labels. destruct (tp_IsEntry _); by map_lookups. Qed.
Lemma pod_labels_deploy :
  Pods.pod_labels ad r !! KeyAgentDeployName = Some (ag_Name (spec_Agent (ad_Spec ad))).
Proof. unfold Pods.pod_labels. destruct (tp_IsEntry _); by map_lookups. Qed.
Lemma pod_labels_manager : Pods.pod_labels ad r !! KeyManagedBy = Some ControllerAgentDeploy.
Proof. unfold Pods.pod_labels. destruct (tp_IsEntry _); by map_lookups. Qed.
Lemma pod_labels_serving : Pods.pod_labels ad r !! KeyServing = Some "true".
Proof. unfold Pods.pod_labels. destruct (tp_IsEntry _); by map_lookups. Qed.
Lemma pod_labels_entry :
  Pods.pod_labels ad r !! KeyEntry =
    if tp_IsEntry (spec_Topology (ad_Spec ad)) then Some "true" else None.
Proof. unfold Pods.pod_labels. destruct (tp_IsEntry _); by map_lookups. Qed.
End labels.

(** C10: traffic reaches the pods it is meant for: of the pods of an
    AgentSet's children, the entry service selects exactly those of the entry
    agent, and the service of a child exactly those of that child. *)
Theorem services_route_to_their_pods scr hash s refs a b ada adb r :
  newAgentDeploy scr hash s a = Some (Ok ada) → newAgentDeploy scr hash s b = Some (Ok adb) →
  (selects (newEntryService s refs) (Pods.pod_labels ada r) ↔ ag_Name a = as_Entry (as_Spec s)) ∧
  (selects (newClusterIPService ada) (Pods.pod_labels adb r) ↔ ag_Name a = ag_Name b).
Proof.
  intros (Hsa & Hna & _ & Hea)%newAgentDeploy_inv (Hsb & Hnb & _ & _)%newAgentDeploy_inv.
  unfold selects. cbn [newEntryService newClusterIPService svc_Spec svc_Selector]. unfold owner_selector.
  rewrite !insert_subseteq_iff by by map_lookups.
  rewrite !pod_labels_set, !pod_labels_deploy, !pod_labels_manager, !pod_labels_serving, pod_labels_entry.
  rewrite Hsa, Hsb, Hna, Hnb, Hea. split.
  - destruct (String.eqb_spec (ag_Name a) (as_Entry (as_Spec s))) as [E|E].
    + split; [done|]. intros _. split_and!; try done. apply map_empty_subseteq.
    + split; [|done]. by intros (_ & _ & ? & _).
  - split; [by intros (_ & _ & [= ->] & _)|]. intros ->. split_and!; try done. apply map_empty_subseteq.
Qed.

Definition ex_child_of (a : AbstractAgentDeploy) : AgentDeploy :=
  match newAgentDeploy None (λ _, "h") ex_pair a with
  | Some (Ok ad) => ad
  | _ => ex_child "" ""
  end.

Lemma services_route_to_their_pods_witness :
  (selects (newEntryService ex_pair []) (Pods.pod_labels (ex_child_of (named_agent "a")) 0) ↔ "a" = "a") ∧
  (selects (newClusterIPService (ex_child_of (named_agent "a")))
     (Pods.pod_labels (ex_child_of (named_agent "b")) 0) ↔ "a" = "b").
Proof.
  exact (services_route_to_their_pods None (λ _, "h") ex_pair [] (named_agent "a") (named_agent "b")
           (ex_child_of (named_agent "a")) (ex_child_of (named_agent "b")) 0 eq_refl eq_refl).
Defined.

(** Whatever the daemon template says, the daemon's Deployment is
    consistent: one replica, a selector equal to the labels of its pods, and
    the daemon service selects those pods. *)
Theorem daemon_selectors_agree enc image policy res s refs refs' :
  let d := dep_Spec (newDaemonDeployment enc image policy res s refs) in
  dep_Replicas d = Some 1 ∧ dep_Selector d = pts_Labels (dep_Template d) ∧
  selects (newDaemonService s refs') (pts_Labels (dep_Template d)) ∧
  c_Name <$> ps_Containers (pts_Spec (dep_Template d)) = [ContainerNameDaemon].
Proof.
  cbn. split_and!; [done|done| |].
  - unfold selects. cbn. case_match; [|done]. apply map_union_subseteq_l.
  - assert (∀ tmpl, c_Name (newDaemonContainer enc image policy s tmpl res) = ContainerNameDaemon) as Hc.
    { intros tmpl. unfold newDaemonContainer, ApplyDefaultResourcesIfMissing. by repeat case_match. }
    case_match; cbn; by rewrite Hc.
Qed.

(** An AgentSet edit that changes a child's spec rebuilds it without
    [spec.replicas]: the replica count the autoscaler had chosen is lost and
    the fleet falls back to its minimum. *)
Theorem edit_drops_autoscaled_replicas scr hash s a want got :
  newAgentDeploy scr hash s a = Some (Ok want) → Disabled (ad_Scale want) = false →
  Pods.DesiredReplicas (updated_child got want) = (Pods.scaleBounds (ad_Scale want)).1.
Proof.
  intros (_ & _ & Hr & _)%newAgentDeploy_inv Hd. unfold Pods.DesiredReplicas.
  change (ad_Scale (updated_child got want)) with (ad_Scale want).
  change (ad_Spec (updated_child got want)) with (ad_Spec want). rewrite Hd, Hr.
  by destruct (Pods.scaleBounds (ad_Scale want)).
Qed.

(** An AgentSet with two agents of the same name. *)
Section example.
Abbreviation AsW := (MemCluster * gmap NamespacedName AgentDeploy)%type (only parsing).
#[local] Instance ex_as_svc : Client AsW Service := part_client fst (λ v w, (v, w.2)).
#[local] Instance ex_as_dep : Client AsW Deployment := part_client fst (λ v w, (v, w.2)).
#[local] Instance ex_as_ad : Client AsW AgentDeploy := part_client snd (λ v w, (w.1, v)).
Definition ex_as_list (ns : string) (labels : gmap string string) (w : AsW)
    : AsW * result ApiError (list AgentDeploy) := (w, Ok (map_to_list w.2).*2).
Definition ex_as_start : @ChSt AsW := mkChSt (mkCluster ∅ ∅ ∅ ∅ 7, ∅) [].
Definition ex_twins : AgentSet := ex_agentset ["x"; "x"].

Lemma invalid_spec_changes_nothing_witness :
  ∃ ss, reconcile ex_as_list None (λ w, (w, 5)) (λ _, "h") (λ _, "h") (λ _, "h") dns1035 any_url
          as_Name (λ _, "api") (λ _, "bad spec") "img" "Always" no_resources ex_twins ex_as_start =
        Some (ex_as_start, ss, None) ∧
    ass_Phase ss = AgentSetPhaseFailed ∧ ass_Message ss = "bad spec" ∧
    ass_ObservedGeneration ss = 0 ∧
    status_of (ass_Conditions ss) AgentSetConditionConfigured = Some ConditionFalse.
Proof.
  exact (invalid_spec_changes_nothing ex_as_list None (λ w, (w, 5)) (λ _, "h") (λ _, "h") (λ _, "h")
           dns1035 any_url as_Name (λ _, "api") (λ _, "bad spec") "img" "Always" no_resources ex_twins
           ex_as_start (DuplicateAgentName "x") (NoDup_nil_2) (λ w, eq_refl)
           ltac:(vm_compute; reflexivity)).
Defined.
End example.
End AgentSets.
