(* ===== verification/Sampler.v ===== *)
(** * Load sampling ([scaling/sampling/sampler.go] and [collector.go])

    The sampler scrapes the daemon of each tracked AgentDeploy's AgentSet and
    records per-replica load.  A daemon connection, its dialer and its answers
    are parameters; logs and Prometheus series are left out. *)
From S2P Require Import Prelude Float64 K8s Types Samples Codec Store Workset.
#[local] Open Scope Z_scope.

Module Sampler.
Import Samples Store Workset.

(** ** Options of the constructor *)
Module SamplerOptions.
Record Config : Set := mkConfig {
  workers : Z; taskInterval : Duration; flushInterval : Duration; scrapeTimeout : Duration; reapInterval : Duration
}.
Definition defaults : Config := mkConfig 16 (60 * second) (5 * minute) (10 * second) (10 * minute).
Definition SamplerOption := Config → Config.
Definition WithWorkers (n : Z) : SamplerOption := λ c,
  mkConfig n (taskInterval c) (flushInterval c) (scrapeTimeout c) (reapInterval c).
Definition WithTaskInterval (d : Duration) : SamplerOption := λ c,
  mkConfig (workers c) d (flushInterval c) (scrapeTimeout c) (reapInterval c).
Definition WithFlushInterval (d : Duration) : SamplerOption := λ c,
  mkConfig (workers c) (taskInterval c) d (scrapeTimeout c) (reapInterval c).
Definition WithScrapeTimeout (d : Duration) : SamplerOption := λ c,
  mkConfig (workers c) (taskInterval c) (flushInterval c) d (reapInterval c).
Definition WithReapInterval (d : Duration) : SamplerOption := λ c,
  mkConfig (workers c) (taskInterval c) (flushInterval c) (scrapeTimeout c) d.
(** The configuration and the watch set of the component. *)
Definition NewSampler (opts : list SamplerOption) : Config * WorkSet NamespacedName :=
  let c := foldl (λ c o, o c) defaults opts in
  (c, NewWorkSet "sampler" [Workset.WithWorkers (workers c); Workset.WithTaskInterval (taskInterval c)]).
End SamplerOptions.

(** ** Averaging window *)
Definition lookbackFactor : Z := 5.
Definition minAdaptiveLookback : Duration := 30 * second.
Definition maxAdaptiveLookback : Duration := 15 * minute.

Definition clampDuration (v lo hi : Duration) : Duration :=
  if v <? lo then lo else if hi <? v then hi else v.

(** The order of [sort.Float64s]: NaNs first. *)
Definition float_less (x y : float64) : bool := flt x y || (isNaN x && negb (isNaN y)).

(** [d.Seconds()] *)
Definition Seconds (d : Duration) : float64 :=
  fadd (f_of_Z (Z.quot d second)) (fdiv (f_of_Z (Z.rem d second)) (f_of_Z second)).

Definition usable (s : Sample) : bool := flt fzero (RatePerRep s) && flt fzero (InflightPerRep s).
Definition durations (history : list Sample) : list float64 :=
  map (λ s, fdiv (InflightPerRep s) (RatePerRep s)) (filter (λ s, usable s = true) history).

(** The middle of a sorted slice; the outer [None] is an index out of range. *)
Definition median (ds : list float64) : option float64 :=
  let mid := (length ds / 2)%nat in
  hi ← ds !! mid;
  if (length ds mod 2 =? 0)%nat then
    lo ← ds !! (mid - 1)%nat;
    Some (fdiv (fadd lo hi) (f_of_Z 2))
  else Some hi.

Section window.
Context `{GoSort} (oob : float64 → Z).

Definition medianRequestDuration (history : list Sample) : option Duration :=
  let ds := durations history in
  match ds with
  | [] => Some 0
  | _ =>
      med ← median (sort_slice float_less ds);
      Some (f_to_int 64 oob (fmul med (f_of_Z second)))
  end.

(** The window before it is truncated to whole seconds. *)
Definition adaptive_window (d scrapeInterval : Duration) : Duration :=
  Z.max (clampDuration (int64 (lookbackFactor * d)) minAdaptiveLookback maxAdaptiveLookback)
    scrapeInterval.

(** [lookbackSeconds]; reading the history evicts from the store. *)
Definition lookbackSeconds (store : ConfigMapStore) (now : Time) (scrapeInterval : Duration)
    : option (ConfigMapStore * Z) :=
  let '(store, hist) := History store now in
  d ← medianRequestDuration hist;
  Some (store,
        if d <=? 0 then 0
        else f_to_int 64 oob (Seconds (adaptive_window d scrapeInterval))).
End window.

(** ** Collector *)
Definition windowKey1m : string := "1m".
Definition windowKeyCustom : string := "custom".

(** What the daemon returns ([pb.AgentDeployMetrics]): per window, a value or
    a nil wrapper. *)
Record TransportMetrics : Set := mkTransport {
  tm_ProcessingRates : gmap string (option float64);
  tm_StreamMessageRates : gmap string (option float64);
  tm_Inflights : gmap string (option float64)
}.
Record AgentDeployMetrics : Set := mkMetrics {
  m_AgentSet : string;
  m_AgentDeploy : string;
  ProcessingRates : gmap string (option float64);
  StreamMessageRates : gmap string (option float64);
  Inflights : gmap string (option float64);
  ByTransport : gmap string TransportMetrics;
  CustomWindowEffectiveSeconds : option Z
}.
Inductive RpcError : Set := Unavailable | RpcNotFound | OtherRpc (msg : string).

Definition doubleVal (m : gmap string (option float64)) (window : string) : option float64 :=
  match m !! window with Some (Some v) => Some v | _ => None end.

(** [collectSample] on the daemon's answer: no usable sample is [Ok None]. *)
Definition collectSample (answer : result RpcError AgentDeployMetrics) (ad : AgentDeploy) (now : Time)
    (lookback : Z) : result RpcError (option Sample) :=
  match answer with
  | Err Unavailable | Err RpcNotFound => Ok None
  | Err e => Err e
  | Ok m =>
      let window := if 0 <? lookback then windowKeyCustom else windowKey1m in
      match doubleVal (Inflights m) window with
      | None => Ok None
      | Some totalInflight =>
          match doubleVal (ProcessingRates m) window with
          | None => Ok None
          | Some totalRate =>
              let ready := st_ReadyReplicas (ad_Status ad) in
              if ready =? 0 then Ok None
              else Ok (Some (mkSample now (int32 ready) (fdiv totalInflight (f_of_Z ready))
                               (fdiv totalRate (f_of_Z ready))))
          end
      end
  end.

(** ** Sampler *)
Inductive SampleError : Set :=
  | SampleGetFailed (e : ApiError)
  | DialFailed (msg : string)
  | CollectFailed (e : RpcError).

Section sampler.
Context {W Src : Type} `{!Client W AgentDeploy} `{!Client W ConfigMap} `{GoSort} `{GoRange}.
Context (oob : float64 → Z).
Context (dial : string → string → W → W * result string Src).
Context (GetAgentDeployMetrics : Src → string → Z → W → W * result RpcError AgentDeployMetrics).
Context (ListAllAgentDeploys : W → W * result ApiError (list AgentDeploy)).
Context (clock : W → W * Time) (close : Src → W → W).
Context (taskInterval flushInterval : Duration).

Record SamplerSt := mkSampler {
  watch : WorkSet NamespacedName;
  registry : Registry;
  sources : gmap string Src
}.

Definition forgetAll (k : NamespacedName) (s : SamplerSt) : SamplerSt :=
  mkSampler (ws_Forget k (watch s)) (Store.Forget (registry s) k) (sources s).
Definition sampler_Track (k : NamespacedName) (s : SamplerSt) : SamplerSt :=
  mkSampler (ws_Track k (watch s)) (registry s) (sources s).

Definition source_key (ad : AgentDeploy) : string :=
  ad_Namespace ad +:+ "/" +:+ spec_AgentSetName (ad_Spec ad).

Definition sourceFor (ad : AgentDeploy) (s : SamplerSt) (w : W) : W * SamplerSt * result string Src :=
  match sources s !! source_key ad with
  | Some src => (w, s, Ok src)
  | None =>
      match dial (ad_Namespace ad) (spec_AgentSetName (ad_Spec ad)) w with
      | (w, Err e) => (w, s, Err e)
      | (w, Ok src) =>
          (w, mkSampler (watch s) (registry s) (<[source_key ad := src]> (sources s)), Ok src)
      end
  end.

Definition put (s : SamplerSt) (r : Registry) : SamplerSt := mkSampler (watch s) r (sources s).

(** [sampleKey].  The store returned by [StoreFor] is the registry's own
    entry, so what is recorded in it is seen there; a failed hydration and a
    failed flush are only logged.  The outer [None] is a panic. *)
Definition sampleKey (k : NamespacedName) (s : SamplerSt) (w : W)
    : option (W * SamplerSt * option SampleError) :=
  match Get (O := AgentDeploy) k w with
  | (w, Err e) =>
      if IsNotFound e then Some (w, forgetAll k s, None)
      else Some (w, s, Some (SampleGetFailed e))
  | (w, Ok ad) =>
      match sourceFor ad s w with
      | (w, s, Err m) => Some (w, s, Some (DialFailed m))
      | (w, s, Ok src) =>
          '(w, r, store, _) ← StoreFor (registry s) ad w;
          let '(w, now) := clock w in
          '(store, lookback) ← lookbackSeconds oob store now taskInterval;
          let s := put s (put_store r (ad_key ad) store) in
          let '(w, now) := clock w in
          let '(w, answer) := GetAgentDeployMetrics src (ag_Name (spec_Agent (ad_Spec ad))) lookback w in
          match collectSample answer ad now lookback with
          | Err e => Some (w, s, Some (CollectFailed e))
          | Ok None => Some (w, s, None)
          | Ok (Some x) =>
              let store := Record_ store x (st_UpdateHash (ad_Status ad)) in
              let '(w, now) := clock w in
              let '(w, store, _) := FlushIfDue store now flushInterval w in
              Some (w, put s (put_store r (ad_key ad) store), None)
          end
      end
  end.

(** [reapSources]: close the connections of AgentSets no AgentDeploy
    refers to. *)
Definition reapSources (s : SamplerSt) (w : W) : W * SamplerSt :=
  match ListAllAgentDeploys w with
  | (w, Err _) => (w, s)
  | (w, Ok items) =>
      let live := list_to_set (map source_key items) : gset string in
      let dead := filter (λ p, p.1 ∉ live) (range_map (sources s)) in
      (fold_left (λ w p, close p.2 w) dead w,
       mkSampler (watch s) (registry s) (filter (λ p, p.1 ∈ live) (sources s)))
  end.

Definition closeAllSources (s : SamplerSt) (w : W) : W * SamplerSt :=
  (fold_left (λ w p, close p.2 w) (range_map (sources s)) w, mkSampler (watch s) (registry s) ∅).

(** [flushAll] on shutdown.  The flushes run concurrently, each on its own
    ConfigMap; here one after the other, in the order of the key listing. *)
Definition flushAll (s : SamplerSt) (w : W) : W :=
  fold_left (λ w p, (Flush p.2 w).1) (range_map (stores (registry s))) w.
End sampler.
Arguments SamplerSt Src : clear implicits.

(** ** The window *)
Lemma median_total ds : ds ≠ [] → is_Some (median ds).
Proof.
  intros Hne. assert (0 < length ds)%nat as Hlen by (destruct ds; cbn in *; [done|lia]).
  unfold median.
  destruct (lookup_lt_is_Some_2 ds (length ds / 2)) as [hi ->]; [apply Nat.div_lt; lia|]. cbn [mbind option_bind].
  case_match; [|by eexists].
  destruct (lookup_lt_is_Some_2 ds (length ds / 2 - 1)) as [lo ->]; [|by eexists].
  pose proof (Nat.div_lt (length ds) 2 ltac:(lia) ltac:(lia)). lia.
Qed.

Lemma medianRequestDuration_total `{GoSort} oob h : is_Some (medianRequestDuration oob h).
Proof.
  unfold medianRequestDuration. destruct (durations h) as [|d ds] eqn:E; [by eexists|].
  destruct (median_total (sort_slice float_less (d :: ds))) as [m ->]; [|by eexists].
  intros Hn. pose proof (sort_slice_perm float_less (d :: ds)) as HP. rewrite Hn in HP.
  by apply Permutation_nil_cons in HP.
Qed.

(** The averaging window is never shorter than the scrape interval
    (so consecutive windows leave no gap) nor than 30 seconds, never longer
    than 15 minutes unless the interval is, and it is five request durations
    whenever that lies between those limits. *)
Theorem adaptive_window_limits d i :
  let w := adaptive_window d i in
  i <= w ∧ minAdaptiveLookback <= w ∧ w <= Z.max maxAdaptiveLookback i ∧
  (minAdaptiveLookback <= 5 * d <= maxAdaptiveLookback → i <= 5 * d → w = 5 * d).
Proof.
  cbv zeta. unfold adaptive_window, clampDuration, lookbackFactor, minAdaptiveLookback, maxAdaptiveLookback.
  split_and!; try (repeat case_match; zbool; unfold minute, second in *; lia).
  intros Hd Hi. unfold minute, second in *. rewrite wrap_s_small by (unfold in_s; lia).
  repeat case_match; zbool; lia.
Qed.

(** ** Sampling one AgentDeploy *)
Section laws.
Context {W Src : Type} `{!Client W AgentDeploy} `{!Client W ConfigMap} `{GoSort} `{GoRange}.
Context (oob : float64 → Z).
Context (dial : string → string → W → W * result string Src).
Context (GetAgentDeployMetrics : Src → string → Z → W → W * result RpcError AgentDeployMetrics).
Context (clock : W → W * Time) (taskInterval flushInterval : Duration).
Context (R : AgentDeploy → AgentDeploy → Prop) `{!ClientLaws W AgentDeploy R}.
Abbreviation sampleKey := (sampleKey oob dial GetAgentDeployMetrics clock taskInterval flushInterval).

Lemma lookbackSeconds_total store now i :
  ∃ lb, lookbackSeconds oob store now i = Some ((History store now).1, lb).
Proof using.
  unfold lookbackSeconds. destruct (History store now) as [st h].
  destruct (medianRequestDuration_total oob h) as [d ->]. by eexists.
Qed.

Lemma Get_put r k st k' :
  Get_ (put_store r k st) k' = if decide (k = k') then Some st else Get_ r k'.
Proof using. unfold Get_, put_store. cbn. rewrite lookup_insert. by case_decide. Qed.

Lemma StoreFor_local r ad (w : W) :
  ∃ w' r' st e, StoreFor r ad w = Some (w', r', st, e) ∧
    ∀ k, k ≠ ad_key ad → Get_ r' k = Get_ r k.
Proof using.
  unfold StoreFor, Get_. destruct (stores r !! ad_key ad) as [st|]; [by eauto 10|].
  unfold Load. destruct (Get _ w) as [w' [cm|e]].
  - destruct (Codec.decode_total (blob_of cm)) as [[[h rs]|e] ->]; cbn;
      (do 4 eexists; split; [done|]; intros k Hk; cbn; by rewrite lookup_insert_ne).
  - destruct (IsNotFound e); cbn;
      (do 4 eexists; split; [done|]; intros k Hk; cbn; by rewrite lookup_insert_ne).
Qed.

(** C37: sampling an AgentDeploy always returns (no index, decode or
    division panics, whatever the daemon and the stored blob hold), and it
    changes no other AgentDeploy's history nor its membership of the watch
    set. *)
Theorem sample_key_returns_and_is_local k (s : SamplerSt Src) (w : W) :
  ∃ w' s' e, sampleKey k s w = Some (w', s', e) ∧
    ∀ k', k' ≠ k → Get_ (registry s') k' = Get_ (registry s) k' ∧
                   Contains k' (watch s') = Contains k' (watch s).
Proof using All.
  unfold sampleKey. destruct (Get k w) as [w1 [ad|e]] eqn:Hg.
  2:{ destruct (IsNotFound e); (do 3 eexists; split; [done|]); [|done]. intros k' Hk'. cbn.
      unfold Get_, Contains. cbn. by rewrite !lookup_delete_ne. }
  apply get_key in Hg. change (ad_key ad = k) in Hg.
  assert (∃ w2 s2 r2, sourceFor dial ad s w1 = (w2, s2, r2) ∧ watch s2 = watch s ∧
            registry s2 = registry s) as (w2 & s2 & r2 & -> & Hw & Hr).
  { unfold sourceFor. destruct (sources s !! _); [by eauto 10|].
    destruct (dial _ _ w1) as [w2 [src|m]]; by eauto 10. }
  destruct r2 as [src|m]; [|do 3 eexists; split; [done|]; by rewrite Hw, Hr].
  destruct (StoreFor_local (registry s2) ad w2) as (w3 & r3 & st & se & -> & Hloc). cbn [mbind option_bind].
  destruct (clock w3) as [w4 now]. destruct (lookbackSeconds_total st now taskInterval) as [lb ->]. cbn [mbind option_bind].
  destruct (clock w4) as [w5 now2].
  destruct (GetAgentDeployMetrics _ _ _ w5) as [w6 answer].
  rewrite Hg in *. rewrite Hr in Hloc.
  assert (∀ st' k', k' ≠ k → Get_ (put_store r3 k st') k' = Get_ (registry s) k' ∧
                             Contains k' (watch s2) = Contains k' (watch s)) as Hput.
  { intros st' k' Hk'. rewrite Hw, Get_put, decide_False by done. by rewrite Hloc. }
  destruct (collectSample answer ad now2 lb) as [[x|]|e]; try (do 3 eexists; split; [done|]; apply Hput).
  destruct (clock w6) as [w7 now3]. destruct (FlushIfDue _ _ _ _) as [[w8 st8] fe].
  do 3 eexists. split; [done|]. apply Hput.
Qed.

Lemma last_drop_while {A} (p : A → bool) l x :
  p x = false → last (drop_while p (l ++ [x])) = Some x.
Proof using.
  intros Hx. induction l as [|y l IH]; cbn; [by rewrite Hx|].
  destruct (p y); [done|]. change (y :: l ++ [x]) with ((y :: l) ++ [x]). apply last_snoc.
Qed.

(** A sample is never evicted by its own insertion. *)
Lemma add_last b x :
  0 <= maxAge b → 1 <= maxRecords b → last (records (add b x)) = Some (mkRecord x 1).
Proof using.
  intros Ha Hr. unfold add, evictLocked. cbn [records maxAge maxRecords].
  assert (last (drop_while (λ r, rts r <? Timestamp x - maxAge b) (records b ++ [mkRecord x 1])) =
          Some (mkRecord x 1)) as Hl.
  { apply last_drop_while. unfold rts. cbn [sample]. apply Z.ltb_ge. lia. }
  apply last_Some in Hl as [l ->]. case_match; zbool; [|apply last_snoc].
  rewrite length_app in *. cbn [length] in *. rewrite drop_app_le by lia. apply last_snoc.
Qed.

Lemma Record_last st x h :
  0 <= maxAge (buf st) → 1 <= maxRecords (buf st) →
  last (records (buf (Record_ st x h))) = Some (mkRecord x 1).
Proof using. intros Ha Hr. unfold Record_, record_hash, record_add, record_reset. cbn [buf with_buf]. apply add_last; by case_match. Qed.

Lemma FlushIfDue_same st now i (w : W) :
  ∃ w' t e, FlushIfDue st now i w = (w', with_lastFlush st t, e).
Proof using.
  unfold FlushIfDue. case_match; [exists w, (lastFlush st), None; by destruct st|].
  destruct (Flush st w) as [w' [e|]]; [exists w', (lastFlush st), (Some e); by destruct st|by eauto].
Qed.

(** A scrape that finds the AgentDeploy, its daemon's totals for
    the queried window and at least one ready replica ends with the totals
    divided by the ready replicas as the newest record of that AgentDeploy's
    history, under the current pod-spec hash. *)
Theorem scrape_is_recorded k (s : SamplerSt Src) (w w1 w2 w3 w4 : W) ad src st st1 t1 t2 lb m infl rate :
  Get (O := AgentDeploy) k w = (w1, Ok ad) → sources s !! source_key ad = Some src →
  Get_ (registry s) k = Some st → clock w1 = (w2, t1) → clock w2 = (w3, t2) →
  lookbackSeconds oob st t1 taskInterval = Some (st1, lb) →
  GetAgentDeployMetrics src (ag_Name (spec_Agent (ad_Spec ad))) lb w3 = (w4, Ok m) →
  doubleVal (Inflights m) (if 0 <? lb then windowKeyCustom else windowKey1m) = Some infl →
  doubleVal (ProcessingRates m) (if 0 <? lb then windowKeyCustom else windowKey1m) = Some rate →
  let ready := st_ReadyReplicas (ad_Status ad) in
  1 <= ready < 2 ^ 31 → 0 <= maxAge (buf st) → 1 <= maxRecords (buf st) →
  ∃ w' s' st', sampleKey k s w = Some (w', s', None) ∧ Get_ (registry s') k = Some st' ∧
    specHash st' = st_UpdateHash (ad_Status ad) ∧
    last (records (buf st')) =
      Some (mkRecord (mkSample t2 ready (fdiv infl (f_of_Z ready)) (fdiv rate (f_of_Z ready))) 1).
Proof using All.
  intros Hg Hsrc Hst Hc1 Hc2 Hlb Hm Hinfl Hrate ready Hready Hage Hrec.
  pose proof (get_key _ _ _ _ Hg) as Hk. change (ad_key ad = k) in Hk.
  unfold sampleKey, sourceFor, StoreFor. rewrite Hg, Hsrc, Hk. unfold Get_ in Hst. rewrite Hst.
  cbn [mbind option_bind]. rewrite Hc1, Hlb. cbn [mbind option_bind]. rewrite Hc2, Hm.
  unfold collectSample. rewrite Hinfl, Hrate. fold ready.
  rewrite (proj2 (Z.eqb_neq _ _)) by lia. rewrite wrap_s_small by (unfold in_s; lia).
  set (x := mkSample t2 ready _ _). destruct (clock w4) as [w5 t3].
  set (st2 := Record_ st1 x _).
  destruct (FlushIfDue_same st2 t3 flushInterval w5) as (w6 & t & e & ->).
  do 3 eexists. split; [done|]. cbn [put registry]. rewrite Get_put, decide_True by done.
  split; [done|]. split; [done|]. change (buf (with_lastFlush st2 t)) with (buf st2).
  destruct (lookbackSeconds_total st t1 taskInterval) as [lb' Hlb']. rewrite Hlb in Hlb'.
  injection Hlb' as -> _. by apply Record_last.
Qed.
End laws.

(** ** Examples on the in-memory server *)
Section example.
Abbreviation SW := (gmap NamespacedName AgentDeploy * gmap NamespacedName ConfigMap)%type (only parsing).
#[local] Instance ex_ad_client : Client SW AgentDeploy := part_client fst (λ v w, (v, w.2)).
#[local] Instance ex_cm_client : Client SW ConfigMap := part_client snd (λ v w, (w.1, v)).
#[local] Instance ex_ad_laws : ClientLaws SW AgentDeploy eq.
Proof.
  split; intros; cbn in *; repeat (case_match; simplify_eq; cbn in *); eauto with kyno;
    try done; by match goal with Hl : _ = Some _ |- _ => apply map_lookup_filter_Some in Hl as [_ ?] end.
Defined.

Definition ex_status : AgentDeployStatus :=
  mkAgentDeployStatus [] AgentDeployPhaseRunning 4 4 "" "" "" zero_time 0 4 4 4 "h" "h".
Definition ex_ad : AgentDeploy :=
  mkAgentDeploy (new_meta "ns" "set-a" ∅ ∅ [])
    (mkAgentDeploySpec (named_agent "a") "set" None zero_topology) ex_status.
Definition ex_key : NamespacedName := mkKey "ns" "set-a".
Definition ex_metrics : AgentDeployMetrics :=
  mkMetrics "set" "a" (<["1m"%string := Some (f_of_Z 12)]> ∅) ∅ (<["1m"%string := Some (f_of_Z 8)]> ∅)
    ∅ None.
Definition ex_sampler : SamplerSt unit :=
  mkSampler (NewWorkSet "ex" [WithTaskInterval 60]) (put_store (NewRegistry newBuffer) ex_key (NewConfigMapStore ex_ad newBuffer))
    (<["ns/set"%string := tt]> ∅).
Definition ex_dial (ns set : string) (w : SW) : SW * result string unit := (w, Ok tt).
Definition ex_answer (src : unit) (name : string) (lb : Z) (w : SW)
    : SW * result RpcError AgentDeployMetrics := (w, Ok ex_metrics).
Definition ex_clock (w : SW) : SW * Time := (w, 1000 * second).
Definition ex_world : SW := (<[ex_key := ex_ad]> ∅, ∅).

Lemma scrape_is_recorded_witness :
  ∃ w' s' st',
    sampleKey (λ _, 0) ex_dial ex_answer ex_clock (60 * second) (300 * second) ex_key ex_sampler
      ex_world = Some (w', s', None) ∧
    Get_ (registry s') ex_key = Some st' ∧ specHash st' = "h"%string ∧
    last (records (buf st')) =
      Some (mkRecord (mkSample (1000 * second) 4 (f_of_Z 2) (f_of_Z 3)) 1).
Proof.
  exact (scrape_is_recorded (λ _, 0) ex_dial ex_answer ex_clock (60 * second) (300 * second) eq ex_key
           ex_sampler ex_world ex_world ex_world ex_world ex_world ex_ad tt
           (NewConfigMapStore ex_ad newBuffer) (NewConfigMapStore ex_ad newBuffer)
           (1000 * second) (1000 * second) 0 ex_metrics (f_of_Z 8) (f_of_Z 12)
           eq_refl eq_refl eq_refl eq_refl eq_refl eq_refl eq_refl eq_refl eq_refl
           ltac:(split; by vm_compute) ltac:(by vm_compute) ltac:(by vm_compute)).
Defined.

Lemma sample_key_returns_and_is_local_witness :
  ∃ w' s' e,
    sampleKey (λ _, 0) ex_dial ex_answer ex_clock (60 * second) (300 * second) ex_key ex_sampler
      ex_world = Some (w', s', e) ∧
    ∀ k', k' ≠ ex_key → Get_ (registry s') k' = Get_ (registry ex_sampler) k' ∧
                        Contains k' (watch s') = Contains k' (watch ex_sampler).
Proof.
  exact (sample_key_returns_and_is_local (λ _, 0) ex_dial ex_answer ex_clock (60 * second)
           (300 * second) eq ex_key ex_sampler ex_world).
Defined.
End example.

(** ** A failed hydration loses the persisted history

    A server whose first read of a ConfigMap fails: the store is registered
    empty, the scrape is recorded in it, and the flush that is due at once
    replaces the stored history with that one sample. *)
Section lost.
Abbreviation LW := (gmap NamespacedName AgentDeploy * (bool * gmap NamespacedName ConfigMap))%type
  (only parsing).
#[local] Instance ex_ad_client' : Client LW AgentDeploy := part_client fst (λ v w, (v, w.2)).
#[local] Instance flaky : Client LW ConfigMap :=
  {| objs (w : LW) := objs (W := gmap NamespacedName ConfigMap) w.2.2;
     Get k w := if w.2.1 then ((w.1, (false, w.2.2)), Err (OtherError "timeout"))
                else (w, (Get (W := gmap NamespacedName ConfigMap) k w.2.2).2);
     Create o w := let '(v, r) := Create (W := gmap NamespacedName ConfigMap) o w.2.2 in ((w.1, (w.2.1, v)), r);
     Update o w := let '(v, r) := Update (W := gmap NamespacedName ConfigMap) o w.2.2 in ((w.1, (w.2.1, v)), r);
     Delete o w := let '(v, r) := Delete (W := gmap NamespacedName ConfigMap) o w.2.2 in ((w.1, (w.2.1, v)), r) |}.

Definition two_samples : list record :=
  [mkRecord (mkSample (100 * second) 4 fone fone) 1; mkRecord (mkSample (200 * second) 4 fone fone) 1].
Definition persisted : ConfigMap :=
  new_configmap (NewConfigMapStore ex_ad newBuffer) (Codec.encodeHistory "h" two_samples).
Definition lost_world : LW := (<[ex_key := ex_ad]> ∅, (true, <[key_of persisted := persisted]> ∅)).
Definition stored_records (w : LW) : option (list record) :=
  cm ← objs (O := ConfigMap) w !! key_of persisted;
  r ← Codec.decodeHistory (blob_of cm);
  match r with Ok (_, rs) => Some rs | Err _ => None end.
Definition after_scrape : option LW :=
  (λ r, r.1.1) <$> sampleKey (λ _, 0) (λ _ _ w, (w, Ok tt)) (λ _ _ _ w, (w, Ok ex_metrics))
    (λ w, (w, 1000 * second)) (60 * second) (300 * second) ex_key
    (mkSampler (NewWorkSet "ex" [WithTaskInterval 60]) (NewRegistry newBuffer) ∅) lost_world.

Theorem failed_load_loses_history :
  stored_records lost_world = Some two_samples ∧
  (after_scrape ≫= stored_records) =
    Some [mkRecord (mkSample (1000 * second) 4 (f_of_Z 2) (f_of_Z 3)) 1].
Proof. split; vm_compute; reflexivity. Qed.
End lost.
End Sampler.
