(* ===== verification/Autoscaler.v ===== *)
(** * Autoscaling loop ([scaling/autoscaler.go] and [tracker.go])

    [scaleKey] looks at one AgentDeploy, decides and patches [spec.replicas];
    the AgentDeploy controller realises the number.  The patch call and the
    clocks are parameters; logs and Prometheus series are left out. *)
From S2P Require Import Prelude Float64 K8s Types Samples Store Estimator Decision PodSpecs Pods.
From S2P Require Import Workset Sampler.
#[local] Open Scope Z_scope.

Module Autoscaler.
Import Samples Store Decision Workset.

Definition defaultMaxSampleAge : Duration := 2 * minute.

(** ** Options of the constructor *)
Module AutoscalerOptions.
Record Config : Set := mkConfig { workers : Z; taskInterval : Duration; maxSampleAge : Duration }.
Definition defaults : Config := mkConfig 16 (30 * second) defaultMaxSampleAge.
Definition AutoscalerOption := Config → Config.
Definition WithScaleWorkers (n : Z) : AutoscalerOption := λ c, mkConfig n (taskInterval c) (maxSampleAge c).
Definition WithScaleInterval (d : Duration) : AutoscalerOption := λ c, mkConfig (workers c) d (maxSampleAge c).
Definition WithMaxSampleAge (d : Duration) : AutoscalerOption := λ c, mkConfig (workers c) (taskInterval c) d.
(** The configuration and the watch set of the component. *)
Definition NewAutoscaler (opts : list AutoscalerOption) : Config * WorkSet NamespacedName :=
  let c := foldl (λ c o, o c) defaults opts in
  (c, NewWorkSet "autoscaler" [Workset.WithWorkers (workers c); Workset.WithTaskInterval (taskInterval c)]).
End AutoscalerOptions.

Definition currentReplicas (ad : AgentDeploy) : Z := int32 (st_Replicas (ad_Status ad)).
Definition maxInFlightOf (ad : AgentDeploy) : Z :=
  match ag_RateLimit (spec_Agent (ad_Spec ad)) with
  | Some rl => default 0 (Types.MaxInFlight rl)
  | None => 0
  end.

(** The AgentDeploy with [spec.replicas] set. *)
Definition with_replicas (n : Z) (ad : AgentDeploy) : AgentDeploy :=
  mkAgentDeploy (ad_meta ad)
    (mkAgentDeploySpec (spec_Agent (ad_Spec ad)) (spec_AgentSetName (ad_Spec ad)) (Some n)
       (spec_Topology (ad_Spec ad)))
    (ad_Status ad).

Definition deleting (ad : AgentDeploy) : bool :=
  match om_DeletionTimestamp (ad_meta ad) with Some t => negb (is_zero t) | None => false end.

Inductive ScaleError : Set :=
  | ScaleGetFailed (e : ApiError)
  | ScalePatchFailed (e : ApiError).

Section autoscaler.
Context {W : Type} `{!Client W AgentDeploy} `{GoSort} (Exp : float64 → float64) (oob : float64 → Z).
Context (Patch : AgentDeploy → AgentDeploy → W → W * option ApiError).
Context (time_Now clock : W → W * Time) (maxSampleAge : Duration).

Record ScalerSt := mkScaler {
  sc_watch : WorkSet NamespacedName;
  sc_registry : Registry;
  sc_world : W;
  patches : list AgentDeploy       (** the patched objects, in order *)
}.

Definition scaler_Forget (k : NamespacedName) (s : ScalerSt) : ScalerSt :=
  mkScaler (ws_Forget k (sc_watch s)) (Store.Forget (sc_registry s) k) (sc_world s) (patches s).
Definition on_world (w : W) (s : ScalerSt) : ScalerSt :=
  mkScaler (sc_watch s) (sc_registry s) w (patches s).
Definition on_registry (r : Registry) (s : ScalerSt) : ScalerSt :=
  mkScaler (sc_watch s) r (sc_world s) (patches s).

(** [applyReplicas]: a merge patch of [spec.replicas] alone. *)
Definition applyReplicas (ad : AgentDeploy) (desired : Z) (s : ScalerSt)
    : ScalerSt * option ApiError :=
  let '(w, e) := Patch ad (with_replicas desired ad) (sc_world s) in
  (mkScaler (sc_watch s) (sc_registry s) w (patches s ++ [with_replicas desired ad]), e).

(** The early returns on the object itself. *)
Definition eligible (ad : AgentDeploy) : bool :=
  let st := ad_Status ad in
  if Disabled (ad_Scale ad) then false
  else if negb (bool_decide (st_Phase st = AgentDeployPhaseRunning)) then false
  else if negb (String.eqb (st_UpdateHash st) (st_CurrentHash st)) &&
          negb (String.eqb (st_UpdateHash st) "") then false
  else if negb (st_Replicas st =? st_DesiredReplicas st) then false
  else if st_ReadyReplicas st =? 0 then false
  else true.

Definition in_cooldown (ad : AgentDeploy) (now : Time) : bool :=
  let secondsSinceLastScale := Sampler.Seconds (time_sub now (st_LastScaledAt (ad_Status ad))) in
  let down := f_of_Z (GetOr (ScaleDownCooldownSeconds (ad_Scale ad)) DefaultScaleDownCooldownSeconds) in
  let up := f_of_Z (GetOr (ScaleUpCooldownSeconds (ad_Scale ad)) DefaultScaleUpCooldownSeconds) in
  flt secondsSinceLastScale down && flt secondsSinceLastScale up.

Definition inputs_of (ad : AgentDeploy) (hist : list Sample) (latest : Sample) (now : Time) : Inputs :=
  mkInputs (currentReplicas ad) (int32 (st_ReadyReplicas (ad_Status ad))) hist latest (ad_Scale ad)
    (maxInFlightOf ad) now (st_LastScaledAt (ad_Status ad)).

(** [scaleKey]; the outer [None] is a panic of the decision. *)
Definition scaleKey (k : NamespacedName) (s : ScalerSt) : option (ScalerSt * option ScaleError) :=
  match Get (O := AgentDeploy) k (sc_world s) with
  | (w, Err e) =>
      let s := on_world w s in
      if IsNotFound e then Some (scaler_Forget k s, None) else Some (s, Some (ScaleGetFailed e))
  | (w, Ok ad) =>
      let s := on_world w s in
      if deleting ad then Some (scaler_Forget k s, None)
      else if negb (eligible ad) then Some (s, None)
      else
        let '(w, t) := time_Now (sc_world s) in
        let s := on_world w s in
        if in_cooldown ad t then Some (s, None)
        else
          match Get_ (sc_registry s) k with
          | None => Some (s, None)
          | Some store =>
              let '(w, now) := clock (sc_world s) in
              let s := on_world w s in
              let '(store, hist) := History store now in
              let s := on_registry (put_store (sc_registry s) k store) s in
              match last hist with
              | None => Some (s, None)
              | Some latest =>
                  if maxSampleAge <? time_sub now (Timestamp latest) then Some (s, None)
                  else
                    dec ← Decide Exp oob (inputs_of ad hist latest now);
                    if Skip dec || (DesiredReplicas dec =? currentReplicas ad) then Some (s, None)
                    else
                      let '(s, e) := applyReplicas ad (DesiredReplicas dec) s in
                      Some (s, ScalePatchFailed <$> e)
              end
          end
  end.

(** ** Realisation *)
Lemma scaleBounds_minMax (sc : Scale) : Pods.scaleBounds sc = minMax sc.
Proof using.
  unfold Pods.scaleBounds, minMax. destruct (Max sc) as [h|]; cbn [default];
    destruct (Min sc) as [m|]; reflexivity.
Qed.

Lemma realised ad n lo hi :
  minMax (ad_Scale ad) = (lo, hi) → Disabled (ad_Scale ad) = false → lo <= n <= hi →
  Pods.DesiredReplicas (with_replicas n ad) = n.
Proof using.
  intros HM HD Hn. unfold Pods.DesiredReplicas.
  change (ad_Scale (with_replicas n ad)) with (ad_Scale ad).
  rewrite HD, scaleBounds_minMax, HM. cbn. unfold Pods.clampInt.
  rewrite (proj2 (Z.ltb_ge n lo)), (proj2 (Z.ltb_ge hi n)) by lia. done.
Qed.

(** An early return leaves the patches as they were. *)
Ltac unchanged := intros [= <- <-]; by left.

(** When an AgentDeploy may be scaled: enabled, Running, not rolling out, not
    catching up with an earlier change, with a ready replica. *)
Definition scalable (ad : AgentDeploy) : Prop :=
  let st := ad_Status ad in
  Disabled (ad_Scale ad) = false ∧ st_Phase st = AgentDeployPhaseRunning ∧
  (st_UpdateHash st = st_CurrentHash st ∨ st_UpdateHash st = ""%string) ∧
  st_Replicas st = st_DesiredReplicas st ∧ st_ReadyReplicas st ≠ 0.

Lemma eligible_scalable ad : eligible ad = true → scalable ad.
Proof using.
  unfold eligible, scalable. destruct (Disabled (ad_Scale ad)); [done|].
  case_bool_decide as Hp; cbn [negb]; [|done].
  destruct (String.eqb_spec (st_UpdateHash (ad_Status ad)) (st_CurrentHash (ad_Status ad)));
    destruct (String.eqb_spec (st_UpdateHash (ad_Status ad)) ""); cbn [negb andb]; try done;
    (destruct (Z.eqb_spec (st_Replicas (ad_Status ad)) (st_DesiredReplicas (ad_Status ad)));
     cbn [negb]; [|done]);
    destruct (Z.eqb_spec (st_ReadyReplicas (ad_Status ad)) 0); [done| |done| |done|]; intros _;
    split_and!; auto.
Qed.

Definition acted (k : NamespacedName) (s : ScalerSt) (p : AgentDeploy) : Prop :=
  ∃ w1 ad store w2 w3 now latest dec,
    Get (O := AgentDeploy) k (sc_world s) = (w1, Ok ad) ∧ deleting ad = false ∧ scalable ad ∧
    Get_ (sc_registry s) k = Some store ∧ clock w2 = (w3, now) ∧
    last (History store now).2 = Some latest ∧
    time_sub now (Timestamp latest) <= maxSampleAge ∧
    Decide Exp oob (inputs_of ad (History store now).2 latest now) = Some dec ∧ Skip dec = false ∧
    let n := DesiredReplicas dec in
    p = with_replicas n ad ∧ n ≠ currentReplicas ad ∧
    (scale_wf (ad_Scale ad) →
       (minMax (ad_Scale ad)).1 <= n <= (minMax (ad_Scale ad)).2 ∧ Pods.DesiredReplicas p = n).

(** C7: the autoscaler writes at most one patch per AgentDeploy and
    turn, and only for a live, enabled, Running AgentDeploy that is neither
    rolling out nor catching up with an earlier change, that has a ready
    replica and a sample younger than the limit; the patch changes
    [spec.replicas] alone, to the number [Decide] gives for that history,
    never to the count there already is.  If the per-step caps are below
    [2^31] ([Decision.scale_wf]), that number is in the configured range and
    the AgentDeploy controller then renders it exactly; for a larger cap the
    range is not claimed (the conversion to [int32] makes the cap negative). *)
Theorem scale_key_patches_safely k (s s' : ScalerSt) e :
  scaleKey k s = Some (s', e) →
  patches s' = patches s ∨ ∃ p, patches s' = patches s ++ [p] ∧ acted k s p.
Proof using.
  unfold scaleKey, acted. destruct (Get k (sc_world s)) as [w1 [ad|ge]].
  2:{ destruct (IsNotFound ge); unchanged. }
  destruct (deleting ad) eqn:Hdel; [unchanged|].
  destruct (eligible ad) eqn:Hel; cbn [negb]; [|unchanged].
  destruct (time_Now _) as [w2 t]. destruct (in_cooldown ad t); [unchanged|].
  cbn [on_world sc_registry]. destruct (Get_ (sc_registry s) k) as [store|] eqn:Hst; [|unchanged].
  match goal with |- context [clock ?x] => destruct (clock x) as [w3 now] eqn:Hclk end.
  destruct (History store now) as [store' hist] eqn:Hh.
  destruct (last hist) as [latest|] eqn:Hl; [|unchanged].
  case_match eqn:Hage; zbool; [unchanged|].
  destruct (Decide Exp oob _) as [dec|] eqn:Hd; [|done]. cbn [mbind option_bind].
  case_match eqn:Hskip; [unchanged|]. apply orb_false_iff in Hskip as [Hsk Hne]. zbool.
  unfold applyReplicas. destruct (Patch _ _ _) as [w4 pe]. intros [= <- <-]. right.
  eexists. split; [reflexivity|]. eexists w1, ad, store, _, w3, now, latest, dec. rewrite Hh.
  do 2 (split; [done|]). split; [by apply eligible_scalable|]. do 6 (split; [done|]). cbv zeta. split; [done|]. split; [done|]. intros Hwf.
  destruct (minMax (ad_Scale ad)) as [lo hi] eqn:HM. cbn [fst snd].
  assert (lo <= DesiredReplicas dec <= hi) as Hb.
  { exact (Decide_bounds Exp oob (inputs_of ad hist latest now) dec lo hi Hwf HM Hd). }
  split; [done|]. apply (realised ad _ lo hi HM); [|done].
  unfold eligible in Hel. by destruct (Disabled (ad_Scale ad)).
Qed.
End autoscaler.

(** ** The tracker

    It keeps the sampler's and the autoscaler's watch sets in step; both
    share one registry. *)
Record Tracker := mkTracker {
  tr_sampler : WorkSet NamespacedName;
  tr_scaler : WorkSet NamespacedName;
  tr_registry : Registry
}.
Definition tracker_Track (k : NamespacedName) (t : Tracker) : Tracker :=
  mkTracker (ws_Track k (tr_sampler t)) (ws_Track k (tr_scaler t)) (tr_registry t).
Definition tracker_Forget (k : NamespacedName) (t : Tracker) : Tracker :=
  mkTracker (ws_Forget k (tr_sampler t)) (ws_Forget k (tr_scaler t))
    (Store.Forget (Store.Forget (tr_registry t) k) k).
#[export] Instance Tracker_watcher : ScaleWatcher NamespacedName Tracker :=
  {| Track := tracker_Track; Forget := tracker_Forget |}.

(** Both watch sets hold the key. *)
Definition tracks (t : Tracker) (k : NamespacedName) : Prop :=
  Contains k (tr_sampler t) = true ∧ Contains k (tr_scaler t) = true.
Definition in_step (t : Tracker) : Prop :=
  ∀ k, Contains k (tr_sampler t) = Contains k (tr_scaler t).

(** The tracker over the sampler and the autoscaler is a watcher in the
    controller's sense. *)
#[export] Instance Tracker_laws : WatcherLaws NamespacedName Tracker tracks.
Proof.
  pose proof (@WorkSet_laws NamespacedName _ _) as L.
  split; intros k t k'; unfold tracks; cbn.
  - pose proof (track_watches (watches := λ w k, Contains k w = true) k (tr_sampler t) k') as E1.
    pose proof (track_watches (watches := λ w k, Contains k w = true) k (tr_scaler t) k') as E2.
    cbn in E1, E2. rewrite E1, E2. naive_solver.
  - pose proof (forget_watches (watches := λ w k, Contains k w = true) k (tr_sampler t) k') as E1.
    pose proof (forget_watches (watches := λ w k, Contains k w = true) k (tr_scaler t) k') as E2.
    cbn in E1, E2. rewrite E1, E2. naive_solver.
Qed.

(** Any sequence of tracks and forgets keeps the sampler's and the
    autoscaler's watch sets equal, and forgets drop the history: a forgotten
    AgentDeploy has no store. *)
Theorem tracker_in_step (ops : list (bool * NamespacedName)) (t : Tracker) :
  in_step t →
  let run := fold_left (λ t (op : bool * NamespacedName),
               if op.1 then tracker_Track op.2 t else tracker_Forget op.2 t) ops t in
  in_step run ∧ ∀ k, (false, k) ∈ ops → Get_ (tr_registry run) k = None.
Proof.
  intros Ht. cbv zeta.
  assert (∀ op t, in_step t → in_step (if op.1 : bool then tracker_Track op.2 t else tracker_Forget op.2 t))
    as Hstep.
  { intros [b k] t0 H0 k'. unfold in_step in H0. specialize (H0 k'). unfold Contains in *.
    destruct b; cbn [fst snd tracker_Track tracker_Forget tr_sampler tr_scaler ws_Track ws_Forget with_keys keys].
    - destruct (decide (k = k')) as [->|Hne]; [by rewrite !lookup_insert_eq|by rewrite !lookup_insert_ne].
    - destruct (decide (k = k')) as [->|Hne]; [by rewrite !lookup_delete_eq|by rewrite !lookup_delete_ne]. }
  assert (∀ op t k, Get_ (tr_registry t) k = None →
            Get_ (tr_registry (if op.1 : bool then tracker_Track op.2 t else tracker_Forget op.2 t)) k = None)
    as Hnone.
  { intros [[] k0] t0 k H0; cbn; [done|]. unfold Get_ in *. cbn. by rewrite !lookup_delete_None; auto. }
  assert (∀ ops t k, Get_ (tr_registry t) k = None →
            Get_ (tr_registry (fold_left (λ t (op : bool * NamespacedName),
               if op.1 then tracker_Track op.2 t else tracker_Forget op.2 t) ops t)) k = None) as Hrun.
  { intros ops0. induction ops0 as [|op ops0 IH]; intros t0 k0 H0; cbn [fold_left]; [done|].
    apply IH. by apply (Hnone op). }
  revert t Ht. induction ops as [|op ops IH]; intros t Ht; cbn [fold_left].
  { split; [done|]. by intros k ?%elem_of_nil. }
  destruct (IH _ (Hstep op t Ht)) as [H1 H2]. split; [done|].
  intros k [<-|Hin]%elem_of_cons; [|by apply H2]. apply Hrun. cbn. unfold Get_. cbn.
  apply lookup_delete_eq.
Qed.

Lemma tracker_in_step_witness :
  let t := fold_left (λ t (op : bool * NamespacedName),
             if op.1 then tracker_Track op.2 t else tracker_Forget op.2 t)
             [(true, mkKey "ns" "a"); (true, mkKey "ns" "b"); (false, mkKey "ns" "a")]
             (mkTracker (NewWorkSet "ex" [WithTaskInterval 60]) (NewWorkSet "ex" [WithTaskInterval 30]) (NewRegistry newBuffer)) in
  in_step t ∧ ∀ k, (false, k) ∈ [(true, mkKey "ns" "a"); (true, mkKey "ns" "b"); (false, mkKey "ns" "a")] →
              Get_ (tr_registry t) k = None.
Proof.
  exact (tracker_in_step [(true, mkKey "ns" "a"); (true, mkKey "ns" "b"); (false, mkKey "ns" "a")]
           (mkTracker (NewWorkSet "ex" [WithTaskInterval 60]) (NewWorkSet "ex" [WithTaskInterval 30]) (NewRegistry newBuffer)) (λ k, eq_refl)).
Defined.

(** A fleet of three at a load of thirty per replica. *)
Definition ex_busy : AgentDeploy :=
  mkAgentDeploy (new_meta "ns" "set-a" ∅ ∅ [])
    (mkAgentDeploySpec
       (mkAbstractAgentDeploy "a" zero_pod_template None None None [] Decision.ex_spec None [] []
          zero_update_strategy "" None) "set" (Some 3) zero_topology)
    (mkAgentDeployStatus [] AgentDeployPhaseRunning 3 3 "" "" "" 0 0 3 3 3 "h" "h").
Definition ex_busy_key : NamespacedName := mkKey "ns" "set-a".
Definition ex_busy_store : ConfigMapStore :=
  Record_ (NewConfigMapStore ex_busy newBuffer) (mkSample (999 * second) 3 (f_of_Z 30) fone) "h".
Definition ex_busy_st : @ScalerSt (gmap NamespacedName AgentDeploy) :=
  mkScaler (NewWorkSet "ex" [WithTaskInterval 30]) (put_store (NewRegistry newBuffer) ex_busy_key ex_busy_store)
    (<[ex_busy_key := ex_busy]> ∅) [].
Definition ex_scale := scaleKey ex_exp ex_oob (λ _ ad w, (<[ad_key ad := ad]> w, None))
  (λ w, (w, 1000 * second)) (λ w, (w, 1000 * second)) defaultMaxSampleAge ex_busy_key ex_busy_st.
Definition ex_scaled_st : @ScalerSt (gmap NamespacedName AgentDeploy) :=
  match ex_scale with Some (s, _) => s | None => ex_busy_st end.

Lemma scale_key_patches_safely_witness :
  map (λ p, spec_Replicas (ad_Spec p)) (patches ex_scaled_st) = [Some 6] ∧
  (patches ex_scaled_st = patches ex_busy_st ∨
   ∃ p, patches ex_scaled_st = patches ex_busy_st ++ [p] ∧
        acted ex_exp ex_oob (λ w, (w, 1000 * second)) defaultMaxSampleAge ex_busy_key ex_busy_st p).
Proof.
  split; [vm_compute; reflexivity|].
  refine (scale_key_patches_safely ex_exp ex_oob (λ _ ad w, (<[ad_key ad := ad]> w, None))
            (λ w, (w, 1000 * second)) (λ w, (w, 1000 * second)) defaultMaxSampleAge ex_busy_key
            ex_busy_st ex_scaled_st None _).
  vm_cast_no_check (eq_refl (Some (ex_scaled_st, @None ScaleError))).
Defined.
End Autoscaler.
