(* ===== verification/ClosedLoop.v ===== *)
(** * The fleet follows the load

    The components in one loop: the autoscaler decides from its history and
    patches [spec.replicas] ([scaling/autoscaler.go]), the AgentDeploy
    controller reconciles ([controller.go]: services, pods, status), the
    cluster brings pods up, and the next decision starts from the status the
    controller wrote.  The cluster is [Fleet.reliable]; what the theorems need
    besides is that clock and services leave pods alone. *)
From S2P Require Import Prelude Float64 K8s Types Template PodSpecs Pods Fleet Services Conditions.
From S2P Require Import Samples Store Decision Workset Sampler Autoscaler Controller.
#[local] Open Scope Z_scope.

Module ClosedLoop.
Import Pods Fleet Autoscaler Controller.

(** ** The size of a settled fleet *)
Lemma length_by_class {A} (f : A → Z) (l : list A) rs :
  NoDup rs → (∀ x, x ∈ l → f x ∈ rs) →
  length l = sum_list_with (λ r, length (filter (λ x, f x = r) l)) rs.
Proof.
  intros Hnd. induction l as [|x l IH]; intros Hl; cbn [length].
  - clear. induction rs as [|r rs IHr]; [done|]. exact IHr.
  - rewrite (IH (λ y Hy, Hl y (list_elem_of_further _ _ _ Hy))).
    assert (f x ∈ rs) as Hx by (apply Hl; by left). clear IH Hl.
    induction Hnd as [|r rs Hr Hnd IHr]; [by apply not_elem_of_nil in Hx|]. cbn [sum_list_with].
    rewrite filter_cons. destruct (decide (f x = r)) as [Ex|Hne].
    + cbn [length]. rewrite <- Nat.add_succ_l. f_equal. clear IHr Hx.
      assert (f x ∉ rs) as Hn by (by rewrite Ex). clear Hr Ex.
      induction rs as [|r' rs IHr]; [done|]. apply not_elem_of_cons in Hn as [Hn1 Hn2]. cbn [sum_list_with].
      apply NoDup_cons in Hnd as [_ Hnd]. rewrite filter_cons, decide_False, IHr by done. done.
    + apply elem_of_cons in Hx as [?|Hx]; [done|]. rewrite <- IHr by done. lia.
Qed.

Lemma settled_length desired h l : 0 <= desired → settled desired h l → Z.of_nat (length (live l)) = desired.
Proof.
  intros Hd [Hout Hin]. rewrite (length_by_class replica_of (live l) (seqZ 0 desired)); [|apply NoDup_seqZ|].
  - assert (∀ r, r ∈ seqZ 0 desired → length (filter (λ x, replica_of x = r) (live l)) = 1%nat) as H1.
    { intros r Hr%seqZ_window. destruct (Hin r Hr) as (p & Hp & _). rewrite live_slot in Hp.
      unfold slot_pods in Hp. by rewrite Hp. }
    enough (sum_list_with (λ r, length (filter (λ x, replica_of x = r) (live l))) (seqZ 0 desired) =
            length (seqZ 0 desired)) as -> by (rewrite length_seqZ; lia).
    induction (seqZ 0 desired) as [|r rs IH]; [done|]. cbn [sum_list_with length]. rewrite H1 by (by left).
    rewrite IH; [done|]. intros r' Hr'. apply H1. by right.
  - intros p [Ht Hp]%live_elem. apply seqZ_window. by apply Hout.
Qed.

(** A settled fleet has nothing to replace at any other size. *)
Lemma settled_resize d d' h l : settled d h l → unmixed d' h l ∧ stale_slots d' h l = [].
Proof.
  intros Hs. rewrite settled_hashes in Hs. split.
  - intros r _. rewrite on_hashes, off_hashes, Hs. destruct (in_window d r); [right|left; by intros ?%not_elem_of_nil].
    by intros x ->%list_elem_of_singleton.
  - apply elem_of_nil_inv. intros r [[Hl Ho] _]%list_elem_of_filter. apply Hl, live_hashes.
    apply on_hashes in Ho. rewrite Hs in Ho |- *. destruct (in_window d r); [|done].
    exfalso. apply Ho. by left.
Qed.

Lemma count_live l : count_of is_live l = Z.of_nat (length (live l)).
Proof.
  induction l as [|p l IH]; [done|]. rewrite count_of_cons, IH. unfold live, is_live. rewrite filter_cons.
  destruct (terminating p); cbn [negb]; [by rewrite decide_False|]. rewrite decide_True by done. cbn [length]. lia.
Qed.

Lemma count_ready l : (∀ p, p ∈ live l → podReady p = true) → count_of live_ready l = count_of is_live l.
Proof.
  induction l as [|p l IH]; intros Hr; [done|]. rewrite !count_of_cons. rewrite IH.
  - unfold live_ready, is_live. destruct (terminating p) eqn:Ht; [done|].
    by rewrite (Hr p) by (apply live_elem; split; [done|by left]).
  - intros q [Ht Hq]%live_elem. apply Hr, live_elem. split; [done|by right].
Qed.

(** ** Reconciling a resized fleet *)
Section loop.
Context {W : Type} `{!Client W Service} `{!Client W Pod} `{GoSort} `{GoRange}.
Context (ListPods : string → gmap string string → W → W * result ApiError (list Pod)).
Context (RandomLowerCaseString : W → W * string) (Now : W → W * Time).
Context (MustHash : PodSpec → string) (MustHashService : ServiceSpec → string).
Context (scaled : IntOrString → Z → bool → option Z).
Context (encode_object : AgentDeploy → string) (api_text : ApiError → string) (env : Env).
Context (owned : W → gmap NamespacedName Pod).
#[local] Unset Default Proof Using.
Abbreviation pods := (pods owned).

Definition pod_spec (ad : AgentDeploy) : PodSpec :=
  PodSpecs.buildPodSpec encode_object ad (image env) (imagePullPolicy env) (defaultResources env).
Definition hash (ad : AgentDeploy) : string := MustHash (pod_spec ad).

(** The cluster as the AgentDeploy's controller sees it: [Fleet.reliable], and
    nothing but the passes changes its live pods while it is looking. *)
Record cluster (ad : AgentDeploy) : Prop := {
  cl_reliable : reliable ListPods RandomLowerCaseString ad (pod_spec ad) (hash ad) owned;
  cl_clock w w' t : Now w = (w', t) → owned w' = owned w;
  cl_services x w w' r : Services.reconcileServices MustHashService x w = (w', r) → owned w' = owned w
}.

(** The object with another replica count and status. *)
Definition resized (ad : AgentDeploy) (n : option Z) (s : AgentDeployStatus) : AgentDeploy :=
  mkAgentDeploy (ad_meta ad)
    (mkAgentDeploySpec (spec_Agent (ad_Spec ad)) (spec_AgentSetName (ad_Spec ad)) n (spec_Topology (ad_Spec ad))) s.

Lemma resized_status s ad : ad_with_status s ad = resized ad (spec_Replicas (ad_Spec ad)) s.
Proof. by destruct ad as [m [a n r t] s0]. Qed.
Lemma resized_self ad : resized ad (spec_Replicas (ad_Spec ad)) (ad_Status ad) = ad.
Proof. by destruct ad as [m [a n r t] s0]. Qed.

Lemma pod_spec_resized ad n s : pod_spec (resized ad n s) = pod_spec ad.
Proof. unfold pod_spec. apply PodSpecs.scaling_never_changes_pod_spec. by repeat split. Qed.

Lemma cluster_resized ad n s : cluster ad → cluster (resized ad n s).
Proof.
  intros [[Hk Hl Hd Hc] Hclk Hsvc]. unfold hash in Hc.
  split; [|done|done]. unfold hash. rewrite pod_spec_resized. split; [done|exact Hl|done|exact Hc].
Qed.

Abbreviation reconcile := (reconcile ListPods RandomLowerCaseString Now MustHash MustHashService scaled encode_object api_text env).
Abbreviation stale ad := (stale_slots (DesiredReplicas ad) (hash ad)).

Lemma stamped_owned ad f s w w' s' :
  cluster ad → stamped Now f s w = (w', s') → owned w' = owned w ∧ ∃ cs, s' = with_conditions cs s.
Proof.
  intros Hcl. unfold stamped. destruct (Now w) as [w1 t] eqn:E. intros [= <- <-].
  split; [by eapply cl_clock|by eexists].
Qed.

(** What a pass leaves, whatever it is called with: it is settled at the size
    asked for, and untouched if it already was. *)
Lemma pass_settles ad w cs : cluster ad → 0 <= DesiredReplicas ad <= 2 ^ 63 →
  unmixed (DesiredReplicas ad) (hash ad) (pods w) → stale ad (pods w) = [] →
  ∃ w' cs', pods_pass ListPods RandomLowerCaseString scaled ad (DesiredReplicas ad) (pod_spec ad) (hash ad) (mkSt w cs) =
    (mkSt w' cs', Ok true) ∧ settled (DesiredReplicas ad) (hash ad) (pods w') ∧
    (settled (DesiredReplicas ad) (hash ad) (pods w) → owned w' = owned w).
Proof.
  intros Hcl Hd Hu Hs. pose proof (cl_reliable _ Hcl) as Hrel.
  destruct (pass_reliable ListPods RandomLowerCaseString MustHash scaled ad (DesiredReplicas ad) (pod_spec ad) (hash ad)
              owned Hrel w cs) as (w' & cs' & existing & E & Hp & Hps).
  assert (same_fleet (pods w) existing) as Hse.
  { symmetry. apply live_same. by rewrite Hp, (pods_live _ _ _ _ _ _ Hrel). }
  pose proof Hu as Hu'. rewrite Hse in Hu'. pose proof Hs as Hs'. rewrite Hse in Hs'.
  exists w', cs'. split_and!.
  - rewrite E. f_equal. f_equal. apply (promote_iff ListPods); [lia|done].
  - apply (passed_settled scaled ad _ (pod_spec ad) _ Hd existing); [done|done|].
    rewrite (passed_stale_slots scaled ad _ (pod_spec ad) _ Hd existing (pods w') Hps Hu'), Hs'. done.
  - intros Hset. destruct (rel_list _ _ _ _ _ _ Hrel w) as (w2 & ps & El & Ho & Hpp).
    assert (settled (DesiredReplicas ad) (hash ad) ps) as Hset'.
    { assert (same_fleet (pods w) ps) as Hsp; [|by rewrite <- Hsp].
      symmetry. apply live_same. by rewrite Hpp, (pods_live _ _ _ _ _ _ Hrel). }
    rewrite (settled_fleet_no_writes ListPods RandomLowerCaseString MustHash scaled ad (DesiredReplicas ad) (pod_spec ad)
               (hash ad) (mkSt w cs) (mkSt w2 cs) ps) in E; [|lia|done|unfold listOwnedPods; cbn [world]; by rewrite El].
    by simplify_eq.
Qed.

(** One reconcile of an AgentDeploy whose fleet has nothing to replace. *)
Lemma reconcile_settles ad w cs st' s :
  cluster ad → 0 <= DesiredReplicas ad < 2 ^ 31 →
  unmixed (DesiredReplicas ad) (hash ad) (pods w) → stale ad (pods w) = [] →
  reconcile ad (mkSt w cs) = (st', s, None) →
  settled (DesiredReplicas ad) (hash ad) (pods (world st')) ∧
  st_Replicas s = DesiredReplicas ad ∧ st_DesiredReplicas s = DesiredReplicas ad ∧
  st_UpdateHash s = hash ad ∧ st_CurrentHash s = hash ad ∧
  (settled (DesiredReplicas ad) (hash ad) (pods w) → 0 < DesiredReplicas ad →
     (∀ p, p ∈ pods w → podReady p = true) →
     st_ReadyReplicas s = DesiredReplicas ad ∧ st_Phase s = AgentDeployPhaseRunning).
Proof.
  intros Hcl Hd Hu Hst. unfold Controller.reconcile. cbn [world calls].
  destruct (initialize Now (ad_Status ad) w) as [w0 s0] eqn:Ei.
  assert (owned w0 = owned w) as Hw0.
  { unfold initialize in Ei. destruct (stamped _ _ _ w) as [w1 s1] eqn:E1.
    destruct (stamped_owned ad _ _ _ _ _ Hcl E1) as [<- _]. by destruct (stamped_owned ad _ _ _ _ _ Hcl Ei) as [<- _]. }
  destruct (Services.reconcileServices _ _ w0) as [w1 [[kind e]|]] eqn:Esv; [by destruct (failed _ _ _ _ _)|].
  apply (cl_services _ Hcl) in Esv. destruct (Now w1) as [w2 now] eqn:En. apply (cl_clock _ Hcl) in En.
  set (s1 := with_generation _ s0). set (ad1 := ad_with_status s1 ad).
  assert (ad1 = resized ad (spec_Replicas (ad_Spec ad)) s1) as Ea by apply resized_status.
  assert (cluster ad1) as Hcl1 by (rewrite Ea; by apply cluster_resized).
  assert (hash ad1 = hash ad) as Eh by (unfold hash; by rewrite Ea, pod_spec_resized).
  change (DesiredReplicas ad) with (DesiredReplicas ad1) in *. rewrite <- Eh in *.
  assert (pods w2 = pods w) as Hw2 by (unfold Fleet.pods; by rewrite En, Esv, Hw0).
  destruct (pass_settles ad1 w2 cs Hcl1) as (w3 & cs3 & Ep & Hset & Hkeep); [lia|by rewrite Hw2|by rewrite Hw2|].
  unfold reconcilePods. change (PodSpecs.buildPodSpec _ ad1 _ _ _) with (pod_spec ad1).
  change (MustHash (pod_spec ad1)) with (hash ad1). rewrite Ep. cbn [world calls].
  destruct (stamped Now _ _ w3) as [w4 s4] eqn:E4. destruct (stamped_owned ad _ _ _ _ _ Hcl E4) as [H4 [cs4 ->]].
  destruct (rel_list _ _ _ _ _ _ (cl_reliable _ Hcl) w4) as (w5 & ps & El & H5 & Hps).
  assert (live ps ≡ₚ pods w3) as Hlive by (rewrite Hps; unfold Fleet.pods; by rewrite H4).
  assert (Z.of_nat (length (live ps)) = DesiredReplicas ad1) as Hlen.
  { rewrite Hlive, <- (pods_live _ _ _ _ _ _ (cl_reliable _ Hcl)). apply (settled_length _ (hash ad1)); [lia|done]. }
  match goal with |- context [updatePodStatus ListPods ?a ?st] =>
    destruct (update_pod_status_counts ListPods a st (mkSt w5 cs3) ps) as (s5 & Eu & Hr & Hrd & _ & _ & Hdes & Hcur & Hupd) end.
  { assert (listOwnedPods ListPods ad (mkSt w4 cs3) = (mkSt w5 cs3, Ok ps)) as Hlo; [|exact Hlo].
    unfold listOwnedPods. cbn [world calls]. by rewrite El. }
  { rewrite Hlen. lia. }
  rewrite Eu. cbn [world calls]. destruct (verdict Now s5 w5) as [w6 s6] eqn:Ev. intros [= <- <-]. cbn [world].
  assert (owned w6 = owned w5 ∧ ∃ cs6 ph, s6 = with_conditions cs6 (with_phase ph s5) ∧
            (all_ready s5 = true → ph = AgentDeployPhaseRunning)) as (H6 & cs6 & ph & -> & Hph).
  { unfold verdict in Ev. destruct (all_ready s5); destruct (stamped_owned ad _ _ _ _ _ Hcl Ev) as [? [c ->]];
      (split; [done|]); by eexists _, _. }
  assert (owned w6 = owned w3) as H36 by congruence.
  assert (pods w6 = pods w3) as Hp36 by (unfold Fleet.pods; by rewrite H36).
  assert (count_of is_live ps = DesiredReplicas ad1) as Hcount by (by rewrite count_live).
  assert (∀ s, st_DesiredReplicas (set_update_hash s (hash ad1)) = st_DesiredReplicas s ∧
               st_UpdateHash (set_update_hash s (hash ad1)) = hash ad1) as Hsu.
  { intros s. unfold set_update_hash. destruct (String.eqb_spec (st_UpdateHash s) (hash ad1)); done. }
  assert (st_DesiredReplicas s5 = DesiredReplicas ad1) as Hdes'.
  { rewrite Hdes. etrans; [apply Hsu|]. change (uint32 (DesiredReplicas ad1) = DesiredReplicas ad1).
    apply wrap_u_small. unfold in_u. lia. }
  cbn [with_conditions with_phase st_Replicas st_DesiredReplicas st_UpdateHash st_CurrentHash st_ReadyReplicas st_Phase].
  rewrite Hp36. split_and!; [done|congruence|done| |done|].
  - rewrite Hupd. apply (Hsu (set_desired (ad_Status ad1) (DesiredReplicas ad1) now)).
  - intros Hset0 Hpos Hready. rewrite Hw2 in Hkeep.
    assert (st_ReadyReplicas s5 = DesiredReplicas ad1) as Hrs.
    { rewrite Hrd, count_ready, Hcount; [done|]. intros p Hp. apply Hready. rewrite Hlive in Hp.
      unfold Fleet.pods in Hp. rewrite (Hkeep Hset0) in Hp. change (p ∈ pods w2) in Hp. by rewrite Hw2 in Hp. }
    split; [done|]. apply Hph. unfold all_ready. rewrite Hrs, Hdes'. apply andb_true_iff.
    by rewrite Z.ltb_lt, Z.eqb_eq.
Qed.

(** ** The loop *)

(** The pods come up and the controller reconciles; the next one reads the
    status this one wrote. *)
Definition reconciled (x y : AgentDeploy * W) : Prop :=
  ∃ w cs st s, readied (pods x.2) (pods w) ∧ reconcile x.1 (mkSt w cs) = (st, s, None) ∧
    y = (ad_with_status s x.1, world st).

(** Fleet and status are as the AgentDeploy asks for. *)
Definition in_step (x : AgentDeploy * W) : Prop :=
  let d := DesiredReplicas x.1 in let s := ad_Status x.1 in
  settled d (hash x.1) (pods x.2) ∧ st_Replicas s = d ∧ st_DesiredReplicas s = d ∧
  st_UpdateHash s = hash x.1 ∧ st_CurrentHash s = hash x.1 ∧ st_ReadyReplicas s = d ∧
  st_Phase s = AgentDeployPhaseRunning.

(** Two AgentDeploys that differ in replica count and status at most. *)
Definition alike (a b : AgentDeploy) : Prop := ∃ n s, b = resized a n s.

Lemma alike_hash a b : alike a b → hash b = hash a.
Proof. intros (n & s & ->). unfold hash. by rewrite pod_spec_resized. Qed.
Lemma alike_cluster a b : alike a b → cluster a → cluster b.
Proof. intros (n & s & ->). apply cluster_resized. Qed.
Lemma alike_scale a b : alike a b → ad_Scale b = ad_Scale a.
Proof. by intros (n & s & ->). Qed.
Lemma alike_trans a b c : alike a b → alike b c → alike a c.
Proof. intros (n & s & ->) (n' & s' & ->). by exists n', s'. Qed.
Lemma alike_status s a : alike a (ad_with_status s a).
Proof. rewrite resized_status. by eexists _, _. Qed.
Lemma alike_refl a : alike a a.
Proof. rewrite <- (resized_self a) at 2. by eexists _, _. Qed.

Lemma reconciled_step x y :
  cluster x.1 → 0 < DesiredReplicas x.1 < 2 ^ 31 → reconciled x y →
  unmixed (DesiredReplicas x.1) (hash x.1) (pods x.2) → stale x.1 (pods x.2) = [] →
  alike x.1 y.1 ∧ DesiredReplicas y.1 = DesiredReplicas x.1 ∧
  settled (DesiredReplicas x.1) (hash x.1) (pods y.2) ∧
  (settled (DesiredReplicas x.1) (hash x.1) (pods x.2) → in_step y).
Proof.
  intros Hcl Hd (w & cs & st & s & [Hsame Hready] & E & ->) Hu Hst. cbn [fst snd].
  pose proof (pods_live _ _ _ _ _ _ (cl_reliable _ Hcl) w) as Hlw. rewrite Hlw in Hready.
  rewrite Hsame in Hu, Hst.
  destruct (reconcile_settles x.1 w cs st s Hcl ltac:(lia) Hu Hst E) as (Hset & Hr & Hdes & Hup & Hcur & Hrd).
  split; [apply alike_status|]. split; [done|]. split; [done|]. intros Hset0. rewrite Hsame in Hset0.
  destruct (Hrd Hset0 ltac:(lia) Hready) as [Hrr Hph]. unfold in_step. cbn [fst snd].
  rewrite (alike_hash x.1 _ (alike_status s x.1)). change (DesiredReplicas (ad_with_status s x.1)) with (DesiredReplicas x.1).
  by split_and!.
Qed.

(** Two reconciles bring a resized fleet in step, and more keep it there. *)
Lemma reconciles_in_step n x y :
  nsteps reconciled n x y → (2 <= n)%nat → cluster x.1 → 0 < DesiredReplicas x.1 < 2 ^ 31 →
  unmixed (DesiredReplicas x.1) (hash x.1) (pods x.2) → stale x.1 (pods x.2) = [] →
  alike x.1 y.1 ∧ DesiredReplicas y.1 = DesiredReplicas x.1 ∧ in_step y.
Proof.
  intros Hn Hle Hcl Hd Hu Hst.
  enough (∀ n x, nsteps reconciled n x y → (1 <= n)%nat → cluster x.1 → 0 < DesiredReplicas x.1 < 2 ^ 31 →
    settled (DesiredReplicas x.1) (hash x.1) (pods x.2) →
    alike x.1 y.1 ∧ DesiredReplicas y.1 = DesiredReplicas x.1 ∧ in_step y) as Hgo.
  { destruct Hn as [x|n x z y Hxz Hn]; [lia|].
    destruct (reconciled_step x z Hcl Hd Hxz Hu Hst) as (Ha & Ed & Hset & _).
    destruct (Hgo n z Hn) as (Ha' & Ed' & Hin); [lia|by eapply alike_cluster|by rewrite Ed| |].
    - by rewrite Ed, (alike_hash _ _ Ha).
    - split; [by eapply alike_trans|]. split; [congruence|done]. }
  clear. intros n. induction n as [|n IH]; intros x Hn Hle Hcl Hd Hset; [lia|]. inversion Hn as [|? ? z ? Hxz Hn']; subst.
  destruct (settled_resize _ (DesiredReplicas x.1) _ _ Hset) as [Hu Hst].
  destruct (reconciled_step x z Hcl Hd Hxz Hu Hst) as (Ha & Ed & Hset' & Hin). specialize (Hin Hset).
  destruct n as [|n]; [inversion Hn'; subst; by split_and!|].
  destruct (IH z Hn') as (Ha' & Ed' & Hin'); [lia|by eapply alike_cluster|by rewrite Ed|by destruct Hin|].
  split; [by eapply alike_trans|]. split; [congruence|done].
Qed.

(** A reconcile carries out a pass of the rollout: of the outdated slots,
    [maxUnavailable] are replaced. *)
Lemma reconciled_rolls x y :
  cluster x.1 → 0 <= DesiredReplicas x.1 < 2 ^ 31 → reconciled x y →
  unmixed (DesiredReplicas x.1) (hash x.1) (pods x.2) →
  alike x.1 y.1 ∧ DesiredReplicas y.1 = DesiredReplicas x.1 ∧
  unmixed (DesiredReplicas x.1) (hash x.1) (pods y.2) ∧
  stale x.1 (pods y.2) = drop (Z.to_nat (ResolveMaxUnavailable scaled x.1 (DesiredReplicas x.1))) (stale x.1 (pods x.2)).
Proof.
  destruct x as [ad w0]. cbn [fst snd]. intros Hcl Hd (w & cs & st' & s & Hr & E & ->) Hu. cbn [fst snd] in *.
  split; [apply alike_status|]. split; [done|]. revert E. unfold Controller.reconcile. cbn [world calls].
  destruct (initialize Now (ad_Status ad) w) as [wi s0] eqn:Ei.
  assert (owned wi = owned w) as Hwi.
  { unfold initialize in Ei. destruct (stamped _ _ _ w) as [w1 s1] eqn:E1.
    destruct (stamped_owned ad _ _ _ _ _ Hcl E1) as [<- _]. by destruct (stamped_owned ad _ _ _ _ _ Hcl Ei) as [<- _]. }
  destruct (Services.reconcileServices _ _ wi) as [w1 [[kind e]|]] eqn:Esv; [by destruct (failed _ _ _ _ _)|].
  apply (cl_services _ Hcl) in Esv. destruct (Now w1) as [w2 now] eqn:En. apply (cl_clock _ Hcl) in En.
  unfold reconcilePods. set (ad1 := ad_with_status _ ad).
  assert (PodSpecs.buildPodSpec encode_object ad1 (image env) (imagePullPolicy env) (defaultResources env) = pod_spec ad) as ->.
  { unfold ad1. rewrite resized_status. apply pod_spec_resized. }
  change (MustHash (pod_spec ad)) with (hash ad). change (DesiredReplicas ad1) with (DesiredReplicas ad).
  change (pods_pass ListPods RandomLowerCaseString scaled ad1) with (pods_pass ListPods RandomLowerCaseString scaled ad).
  destruct (pods_pass _ _ _ ad _ _ _ _) as [[w3 cs3] [promote|e]] eqn:Ep; [|by destruct (failed _ _ _ _ _)]. cbn [world calls].
  destruct (stamped Now _ _ w3) as [w4 s4] eqn:E4. destruct (stamped_owned ad _ _ _ _ _ Hcl E4) as [H4 _].
  unfold updatePodStatus, bind. change (listOwnedPods ListPods (ad_with_status _ ad)) with (listOwnedPods ListPods ad).
  destruct (rel_list _ _ _ _ _ _ (cl_reliable _ Hcl) w4) as (w5 & ps & El & H5 & _).
  assert (listOwnedPods ListPods ad (mkSt w4 cs3) = (mkSt w5 cs3, Ok ps)) as -> by (unfold listOwnedPods; cbn [world calls]; by rewrite El).
  destruct (fold_left _ _ _) as [[[a b] c] d]. cbn [ret world calls].
  destruct (verdict Now _ w5) as [w6 s6] eqn:Ev. intros [= <- <-]. cbn [world].
  assert (owned w6 = owned w5) as H6.
  { unfold verdict in Ev. destruct (all_ready _); by destruct (stamped_owned ad _ _ _ _ _ Hcl Ev) as [? _]. }
  assert (pods w6 = pods w3) as -> by (unfold Fleet.pods; congruence).
  assert (round ListPods RandomLowerCaseString scaled ad (DesiredReplicas ad) (pod_spec ad) (hash ad) owned w0 w3) as Hround.
  { exists w2, cs, cs3, promote. split; [|exact Ep]. unfold Fleet.pods. by rewrite En, Esv, Hwi. }
  destruct (round_step ListPods RandomLowerCaseString MustHash scaled ad (DesiredReplicas ad) (pod_spec ad) (hash ad) owned
              (cl_reliable _ Hcl) ltac:(lia) w0 w3 Hround Hu) as (Hu' & Hst & _). done.
Qed.

(** A fleet with a rollout to do is in step after the passes the rollout
    takes, and two more. *)
Lemma reconciles_roll_in_step m : ∀ n x y,
  nsteps reconciled n x y → (m + 2 <= n)%nat → cluster x.1 → 0 < DesiredReplicas x.1 < 2 ^ 31 →
  unmixed (DesiredReplicas x.1) (hash x.1) (pods x.2) →
  Z.of_nat (length (stale x.1 (pods x.2))) <= Z.of_nat m * ResolveMaxUnavailable scaled x.1 (DesiredReplicas x.1) →
  alike x.1 y.1 ∧ DesiredReplicas y.1 = DesiredReplicas x.1 ∧ in_step y.
Proof.
  induction m as [|m IH]; intros n x y Hn Hle Hcl Hd Hu Hst.
  - apply (reconciles_in_step n); try done. apply length_zero_iff_nil. lia.
  - destruct Hn as [x|n x z y Hxz Hn]; [lia|].
    destruct (reconciled_rolls x z Hcl ltac:(lia) Hxz Hu) as (Ha & Ed & Hu' & Hst').
    assert (ResolveMaxUnavailable scaled z.1 (DesiredReplicas z.1) = ResolveMaxUnavailable scaled x.1 (DesiredReplicas x.1)) as Emu.
    { rewrite Ed. destruct Ha as (k & s & ->). done. }
    pose proof (ResolveMaxUnavailable_pos scaled x.1 (DesiredReplicas x.1)) as Hpos.
    destruct (IH n z y Hn) as (Ha' & Ed' & Hin); [lia|by eapply alike_cluster|by rewrite Ed| | |].
    + by rewrite Ed, (alike_hash _ _ Ha).
    + rewrite Emu, Ed, (alike_hash _ _ Ha), Hst', length_drop. lia.
    + split; [by eapply alike_trans|]. split; [congruence|done].
Qed.

(** What a turn of the autoscaler makes of an AgentDeploy, given the clock
    readings and the history it finds; see [scaleKey_scales_once]. *)
Context (Exp : float64 → float64) (oob : float64 → Z).
Definition scale_once (ad : AgentDeploy) (t now : Time) (hist : list Samples.Sample) (latest : Samples.Sample) : option AgentDeploy :=
  if negb (eligible ad) then Some ad
  else if in_cooldown ad t then Some ad
  else
    dec ← Decision.Decide Exp oob (inputs_of ad hist latest now);
    if Decision.Skip dec || (Decision.DesiredReplicas dec =? currentReplicas ad) then Some ad
    else Some (with_replicas (Decision.DesiredReplicas dec) ad).

(** A turn, and at least two reconciles. *)
Definition cycle (turn : AgentDeploy → Time → Time → list Samples.Sample → Samples.Sample → Prop) (x y : AgentDeploy * W) : Prop :=
  ∃ ad t now hist latest n, turn x.1 t now hist latest ∧ scale_once x.1 t now hist latest = Some ad ∧
    (2 <= n)%nat ∧ nsteps reconciled n (ad, x.2) y.

(** Turns at which the load is zero and the cooldowns are over. *)
Definition idle_turn (ad : AgentDeploy) (t now : Time) (hist : list Samples.Sample) (latest : Samples.Sample) : Prop :=
  in_cooldown ad t = false ∧
  fle (Decision.totalInflight (inputs_of ad hist latest now)) fzero = true ∧
  Decision.scaleDownCooldown (ad_Scale ad) <= time_sub now (st_LastScaledAt (ad_Status ad)).

Lemma in_step_eligible x : in_step x → 0 < DesiredReplicas x.1 → Disabled (ad_Scale x.1) = false → eligible x.1 = true.
Proof.
  intros (_ & Hr & Hd & Hu & Hc & Hrd & Hph) Hpos Hdis. unfold eligible.
  rewrite Hdis, Hph, Hu, Hc, Hr, Hd, Hrd, String.eqb_refl, Z.eqb_refl. cbn. by rewrite (proj2 (Z.eqb_neq _ _)) by lia.
Qed.

Section scaling.
Context (ad0 : AgentDeploy) (lo hi : Z).
Context (Hwf : Decision.scale_wf (ad_Scale ad0)) (HM : Decision.minMax (ad_Scale ad0) = (lo, hi)).
Context (Hne : lo ≠ hi) (Hen : Disabled (ad_Scale ad0) = false) (Hcl0 : cluster ad0).

(** Where the loop keeps the system. *)
Definition held (x : AgentDeploy * W) : Prop :=
  alike ad0 x.1 ∧ in_step x ∧ lo <= DesiredReplicas x.1 <= hi.

Lemma held_range x : held x → 1 <= lo ∧ 0 < DesiredReplicas x.1 < 2 ^ 31.
Proof.
  intros (_ & _ & Hd). destruct (Decision.minMax_spec _ _ _ Hwf HM). lia.
Qed.

(** A turn of the autoscaler on a system in step: a count within the range
    and the step, the minimum's way if there is no load. *)
Lemma turn_resizes x t now hist latest ad :
  held x → scale_once x.1 t now hist latest = Some ad →
  alike x.1 ad ∧ lo <= DesiredReplicas ad <= hi ∧
  DesiredReplicas x.1 - Decision.stepDown (ad_Scale ad0) <= DesiredReplicas ad
    <= DesiredReplicas x.1 + Decision.stepUp (ad_Scale ad0) ∧
  (idle_turn x.1 t now hist latest →
     DesiredReplicas ad = Z.max (DesiredReplicas x.1 - Decision.stepDown (ad_Scale ad0)) lo).
Proof.
  intros Hx E. pose proof (held_range x Hx) as [Hlo Hd]. destruct Hx as (Ha & Hin & Hr).
  pose proof (alike_scale _ _ Ha) as Es. destruct (Decision.step_range _ Hwf) as [Hup Hdown].
  assert (currentReplicas x.1 = DesiredReplicas x.1) as Hcur.
  { unfold currentReplicas. destruct Hin as (_ & -> & _). apply wrap_s_small; unfold in_s; lia. }
  unfold scale_once in E. rewrite (in_step_eligible x Hin) in E by (rewrite ?Es; (done || lia)). cbn [negb] in E.
  destruct (in_cooldown x.1 t) eqn:Hcool.
  { injection E as <-. split; [apply alike_refl|]. split; [done|]. split; [lia|]. intros [? _]. congruence. }
  set (i := inputs_of x.1 hist latest now) in *.
  destruct (Decision.Decide Exp oob i) as [dec|] eqn:Edec; [|done]. cbn in E.
  assert (Decision.CurrentReplicas i = DesiredReplicas x.1) as Hci by exact Hcur.
  assert (Decision.bounded_move i lo hi dec) as Hb.
  { apply (Decision.Decide_in_range Exp oob); [cbn; by rewrite Es|cbn; by rewrite Es|done|by rewrite Hci|done]. }
  assert (alike x.1 ad ∧ DesiredReplicas ad = Decision.DesiredReplicas dec) as [Hal Hdes].
  { destruct (Decision.Skip dec || (Decision.DesiredReplicas dec =? currentReplicas x.1)) eqn:Eskip; injection E as <-.
    - split; [apply alike_refl|]. apply orb_true_iff in Eskip as [Hs|He%Z.eqb_eq]; [|congruence].
      by rewrite (Decision.bm_skip _ _ _ _ Hb Hs).
    - split; [by eexists _, _|]. apply (realised x.1 _ lo hi); [by rewrite Es|by rewrite Es|]. apply (Decision.bm_range _ _ _ _ Hb). }
  pose proof (Decision.bm_range _ _ _ _ Hb) as Hrng. pose proof (Decision.bm_step _ _ _ _ Hb) as Hstep.
  rewrite Hci in Hstep. change (Decision.Spec i) with (ad_Scale x.1) in Hstep. rewrite Es in Hstep.
  split; [done|]. split; [lia|]. split; [lia|]. intros (_ & Hidle & Hc).
  destruct (Decision.idle_decide Exp oob i lo hi) as (dec' & Ed' & Hmax).
  - cbn. by rewrite Es.
  - cbn. by rewrite Es.
  - done.
  - by rewrite Hci.
  - done.
  - exact Hc.
  - rewrite Edec in Ed'. injection Ed' as <-. rewrite Hdes, Hmax, Hci.
    change (Decision.Spec i) with (ad_Scale x.1). by rewrite Es.
Qed.

Lemma cycle_held turn x y : held x → cycle turn x y →
  held y ∧
  DesiredReplicas x.1 - Decision.stepDown (ad_Scale ad0) <= DesiredReplicas y.1
    <= DesiredReplicas x.1 + Decision.stepUp (ad_Scale ad0) ∧
  ((∀ ad t now hist latest, turn ad t now hist latest → idle_turn ad t now hist latest) →
     DesiredReplicas y.1 = Z.max (DesiredReplicas x.1 - Decision.stepDown (ad_Scale ad0)) lo).
Proof.
  intros Hx (ad & t & now & hist & latest & n & Ht & Eo & Hn & Hrun).
  destruct (turn_resizes x t now hist latest ad Hx Eo) as (Hal & Hrng & Hstep & Hidle).
  pose proof (held_range x Hx) as [Hlo _]. destruct Hx as (Ha & Hin & Hr).
  assert (cluster ad) as Hcl by (eapply alike_cluster; [|exact Hcl0]; by eapply alike_trans).
  destruct (Decision.minMax_spec _ _ _ Hwf HM) as [_ Hhi].
  destruct Hin as [Hset _]. destruct (settled_resize _ (DesiredReplicas ad) _ _ Hset) as [Hu Hst].
  rewrite <- (alike_hash _ _ Hal) in Hu, Hst.
  destruct (reconciles_in_step n (ad, x.2) y Hrun Hn Hcl ltac:(cbn; lia) Hu Hst) as (Hal' & Ed & Hin).
  cbn [fst] in Ed, Hal'. unfold held. rewrite Ed. split.
  - split; [|done]. eapply alike_trans; [exact Ha|]. by eapply alike_trans.
  - split; [lia|]. intros Hall. by apply Hidle, Hall.
Qed.
End scaling.

(** C4: the fleet follows the autoscaler, and without load it shrinks to the
    minimum.  The AgentDeploy has autoscaling enabled, a range of more than
    one count ([min <> max]), per-step caps below [2^31] ([scale_wf]) and asks
    for a number of replicas in the range; the API server is a reliable one
    ([cluster]: it carries out the calls, and nobody else changes the pods
    while a pass looks), and every reconcile passes without error.  Start from
    a fleet and status that are in step and let turns of the autoscaler, on
    whatever samples and clocks, alternate with at least two such reconciles
    each, pods coming up in between.  Then at every turn the fleet is again
    exactly as asked for, live and ready and reported as such, its size within
    the configured range; and if at each turn the load is zero and the
    cooldowns have passed, after [n] turns it has
    [max(min, current - n * replicasPerScaleDown)] pods. *)
Theorem fleet_follows_autoscaler ad w lo hi :
  Decision.scale_wf (ad_Scale ad) → Decision.minMax (ad_Scale ad) = (lo, hi) → lo ≠ hi →
  Disabled (ad_Scale ad) = false → cluster ad → in_step (ad, w) → lo <= DesiredReplicas ad <= hi →
  (∀ n turn ad' w', nsteps (cycle turn) n (ad, w) (ad', w') →
     in_step (ad', w') ∧ lo <= DesiredReplicas ad' <= hi ∧
     Z.of_nat (length (pods w')) = DesiredReplicas ad') ∧
  (∀ n ad' w', nsteps (cycle idle_turn) n (ad, w) (ad', w') →
     Z.of_nat (length (pods w')) =
       Z.max (DesiredReplicas ad - Z.of_nat n * Decision.stepDown (ad_Scale ad)) lo).
Proof.
  intros Hwf HM Hne Hen Hcl Hin Hr. destruct (Decision.step_range _ Hwf) as [_ Hdown].
  assert (held ad lo hi (ad, w)) as Hheld by (split; [apply alike_refl|done]).
  assert (∀ x, held ad lo hi x → Z.of_nat (length (pods x.2)) = DesiredReplicas x.1) as Hlen.
  { intros x Hx. pose proof (held_range ad lo hi Hwf HM Hne x Hx) as [_ Hd]. destruct Hx as (Ha & [Hset _] & _).
    rewrite <- (pods_live _ _ _ _ _ _ (cl_reliable _ Hcl)). apply (settled_length _ (hash x.1)); [lia|done]. }
  split.
  - intros n turn ad' w' Hn. enough (held ad lo hi (ad', w')) as Hx.
    { pose proof Hx as (_ & Hi & Hrng). split; [exact Hi|]. split; [exact Hrng|]. exact (Hlen (ad', w') Hx). }
    revert Hn Hheld. generalize (ad, w) (ad', w'). clear -Hwf HM Hne Hen Hcl. intros x y Hn.
    induction Hn as [x|n x z y Hxz Hn IH]; [done|]. intros Hx. apply IH.
    by destruct (cycle_held ad lo hi Hwf HM Hne Hen Hcl turn x z).
  - intros n ad' w' Hn.
    enough (∀ n x y, nsteps (cycle idle_turn) n x y → held ad lo hi x →
      held ad lo hi y ∧ DesiredReplicas y.1 = Z.max (DesiredReplicas x.1 - Z.of_nat n * Decision.stepDown (ad_Scale ad)) lo) as Hgo.
    { destruct (Hgo n _ _ Hn Hheld) as [Hy Ed]. exact (eq_trans (Hlen _ Hy) Ed). }
    clear Hn. intros k. induction k as [|k IH]; intros x y Hk Hx.
    + inversion Hk; subst. split; [done|]. destruct Hx as (_ & _ & ?). lia.
    + inversion Hk as [|? ? z ? Hxz Hzy]; subst.
      destruct (cycle_held ad lo hi Hwf HM Hne Hen Hcl idle_turn x z Hx Hxz) as (Hz & _ & Ez). specialize (Ez ltac:(done)).
      destruct (IH z y Hzy Hz) as [Hy ->]. split; [done|]. rewrite Ez. lia.
Qed.
End loop.

(** ** A turn of the autoscaler is [scale_once] *)
Section turn.
Context {W : Type} `{!Client W AgentDeploy} `{GoSort} (Exp : float64 → float64) (oob : float64 → Z).
Context (Patch : AgentDeploy → AgentDeploy → W → W * option ApiError).
Context (time_Now clock : W → W * Time) (maxSampleAge : Duration).

Lemma scaleKey_scales_once k (s s' : ScalerSt) e w1 ad w2 t store w3 now latest :
  Get (O := AgentDeploy) k (sc_world s) = (w1, Ok ad) → deleting ad = false → time_Now w1 = (w2, t) →
  Store.Get_ (sc_registry s) k = Some store → clock w2 = (w3, now) →
  last (Store.History store now).2 = Some latest → time_sub now (Samples.Timestamp latest) <= maxSampleAge →
  scaleKey Exp oob Patch time_Now clock maxSampleAge k s = Some (s', e) →
  ∃ ad', scale_once Exp oob ad t now (Store.History store now).2 latest = Some ad' ∧
    ((patches s' = patches s ∧ ad' = ad) ∨ patches s' = patches s ++ [ad']).
Proof.
  intros Hg Hd Ht Hs Hc Hl Ha. unfold scaleKey, scale_once. rewrite Hg, Hd.
  destruct (eligible ad); cbn [negb]; [|intros [= <- <-]; by eauto].
  cbn [on_world sc_world sc_registry]. rewrite Ht.
  destruct (in_cooldown ad t); [intros [= <- <-]; by eauto|].
  cbn [on_world sc_world sc_registry]. rewrite Hs, Hc.
  destruct (Store.History store now) as [store' hist]. cbn [snd] in *. rewrite Hl.
  rewrite (proj2 (Z.ltb_ge _ _)) by done.
  destruct (Decision.Decide Exp oob _) as [dec|]; [|done]. cbn.
  destruct (Decision.Skip dec || _); [intros [= <- <-]; by eauto|].
  unfold applyReplicas. destruct (Patch _ _ _) as [w4 pe]. intros [= <- <-]. eauto.
Qed.
End turn.

(** ** The loop on the cluster in memory *)
Definition loop_list (ns : string) (labels : gmap string string) (w : MemCluster)
    : MemCluster * result ApiError (list Pod) := (w, (mem_list ns labels (mem_pods w)).2).
Definition loop_suffix (w : MemCluster) : MemCluster * string := (w, (mem_suffix (mem_pods w)).2).
Definition loop_owned (ad : AgentDeploy) (w : MemCluster) : gmap NamespacedName Pod := mem_owned ad (mem_pods w).

Lemma services_keep_pods hs x (w w' : MemCluster) r :
  Services.reconcileServices hs x w = (w', r) → mem_pods w' = mem_pods w.
Proof.
  assert (∀ d (w w' : MemCluster) r, Services.upsertService hs d w = (w', r) → mem_pods w' = mem_pods w) as Hup.
  { clear. intros d w w' r. unfold Services.upsertService, Services.upsert_by_hash. cbn.
    repeat (case_match; cbn; simplify_eq); intros; simplify_eq; done. }
  unfold Services.reconcileServices. destruct (Services.upsertService _ _ w) as [w1 [e|]] eqn:E1.
  - intros [= <- <-]. by eapply Hup.
  - destruct (Services.upsertService _ _ w1) as [w2 [e|]] eqn:E2; intros [= <- <-];
      by rewrite (Hup _ _ _ _ E2), (Hup _ _ _ _ E1).
Qed.

Lemma memory_cluster `{GoRange} hash hs env enc ad :
  cluster loop_list loop_suffix mem_now hash hs enc env (loop_owned ad) ad.
Proof.
  split; [|by intros w w' t [= <- <-]|intros x w w' r E; unfold loop_owned; by rewrite (services_keep_pods _ _ _ _ _ E)].
  destruct (memory_reliable ad (pod_spec enc env ad) (ClosedLoop.hash hash enc env ad)) as [Hk Hl Hd Hc].
  split.
  - intros w. apply Hk.
  - intros w. destruct (Hl (mem_pods w)) as (w' & ps & E & Ho & Hp). exists w, ps.
    unfold loop_list. rewrite E. by split_and!.
  - intros w p Hp. destruct (Hd (mem_pods w) p Hp) as (v & E & Ho).
    exists (mkCluster v (mem_svcs w) (mem_deps w) (mem_cms w) (mem_clock w)).
    change (Delete p w) with (let '(v, r) := Delete p (mem_pods w) in
      (mkCluster v (mem_svcs w) (mem_deps w) (mem_cms w) (mem_clock w), r)). by rewrite E.
  - intros w r. destruct (Hc (mem_pods w) r) as (w1 & s & v & Es & q & E & Hf & Ho & Ha). injection Es as <- Es.
    exists w, s, (mkCluster v (mem_svcs w) (mem_deps w) (mem_cms w) (mem_clock w)).
    split; [unfold loop_suffix; by rewrite <- Es|]. exists q. split_and!; [|done|done|done].
    match goal with |- Create ?p w = _ => change (Create p w) with (let '(v, r) := Create p (mem_pods w) in
      (mkCluster v (mem_svcs w) (mem_deps w) (mem_cms w) (mem_clock w), r)) end. by rewrite E.
Qed.

(** An AgentDeploy of three replicas on an empty cluster. *)
Definition loop_ad : AgentDeploy := PodSpecs.ex_pod_ad (Some 3).
Definition loop_empty : MemCluster := mkCluster ∅ ∅ ∅ ∅ 0.
Abbreviation loop_reconcile :=
  (Controller.reconcile loop_list loop_suffix mem_now (λ _, "new"%string) Services.ex_hash ex_scaled ad_Name ex_text ex_env).
Abbreviation loop_reconciled :=
  (reconciled loop_list loop_suffix mem_now (λ _, "new"%string) Services.ex_hash ex_scaled ad_Name ex_text ex_env (loop_owned loop_ad)).

(** The pods come up, and a reconcile. *)
Definition all_up (w : MemCluster) : MemCluster :=
  mkCluster (pod_up <$> mem_pods w) (mem_svcs w) (mem_deps w) (mem_cms w) (mem_clock w).
Definition loop_step (x : AgentDeploy * MemCluster) : AgentDeploy * MemCluster :=
  let '(st, s, _) := loop_reconcile x.1 (mkSt (all_up x.2) []) in (ad_with_status s x.1, world st).

Lemma loop_step_reconciled x :
  (loop_reconcile x.1 (mkSt (all_up x.2) [])).2 = None → loop_reconciled x (loop_step x).
Proof.
  intros E. exists (all_up x.2), []. unfold loop_step.
  destruct (loop_reconcile x.1 (mkSt (all_up x.2) [])) as [[st s] e]. cbn in E. subst e.
  exists st, s. split_and!; [|done|done]. unfold loop_owned, all_up, Fleet.pods. cbn [mem_pods].
  apply (mem_readied loop_ad (mem_pods x.2)).
Qed.

Definition loop_x : AgentDeploy * MemCluster := loop_step (loop_step (loop_ad, loop_empty)).
Definition loop_sample : Samples.Sample := Samples.mkSample (1000 * second) 3 fzero fone.
Definition loop_ad' : AgentDeploy :=
  default loop_ad (scale_once Decision.ex_exp Decision.ex_oob loop_x.1 (1000 * second) (1000 * second) [loop_sample] loop_sample).
Definition loop_y : AgentDeploy * MemCluster := loop_step (loop_step (loop_ad', loop_x.2)).

Lemma loop_in_step :
  alike loop_ad loop_x.1 ∧ DesiredReplicas loop_x.1 = 3 ∧
  in_step (λ _, "new"%string) ad_Name ex_env (loop_owned loop_ad) loop_x.
Proof.
  refine (reconciles_in_step loop_list loop_suffix mem_now (λ _, "new"%string) Services.ex_hash ex_scaled
    ad_Name ex_text ex_env (loop_owned loop_ad) 2 (loop_ad, loop_empty) loop_x _ _ _ _ _ _).
  - eapply nsteps_l; [|eapply nsteps_l; [|apply nsteps_O]]; apply loop_step_reconciled; vm_compute; reflexivity.
  - lia.
  - apply memory_cluster.
  - by vm_compute.
  - intros r _. left. by vm_compute.
  - vm_compute. reflexivity.
Qed.

Lemma loop_cycle :
  cycle loop_list loop_suffix mem_now (λ _, "new"%string) Services.ex_hash ex_scaled ad_Name ex_text ex_env
    (loop_owned loop_ad) Decision.ex_exp Decision.ex_oob idle_turn loop_x loop_y.
Proof.
  exists loop_ad', (1000 * second), (1000 * second), [loop_sample], loop_sample, 2%nat. split_and!.
  - split_and!; by vm_compute.
  - vm_compute. reflexivity.
  - done.
  - eapply nsteps_l; [|eapply nsteps_l; [|apply nsteps_O]]; apply loop_step_reconciled; vm_compute; reflexivity.
Qed.

(** Without load the three replicas become one. *)
Lemma fleet_follows_autoscaler_witness :
  Z.of_nat (length (Fleet.pods (loop_owned loop_ad) loop_y.2)) = Z.max (3 - 1 * 2) 1.
Proof.
  destruct loop_in_step as (Ha & Hd & Hin). pose proof loop_cycle as Hc. rewrite <- Hd. revert Ha Hd Hin Hc.
  generalize loop_x loop_y. intros [ad w] [ad' w'] Ha Hd Hin Hc. cbn [fst snd] in *.
  pose proof (alike_scale _ _ Ha) as Hs.
  assert (Decision.stepDown (ad_Scale ad) = 2) as <- by (rewrite Hs; by vm_compute).
  refine (proj2 (fleet_follows_autoscaler loop_list loop_suffix mem_now (λ _, "new"%string) Services.ex_hash ex_scaled
    ad_Name ex_text ex_env (loop_owned loop_ad) Decision.ex_exp Decision.ex_oob ad w 1 50 _ _ _ _ _ _ _)
    1%nat ad' w' _); rewrite ?Hs.
  - split_and!; intros ? E; by vm_compute in E.
  - by vm_compute.
  - done.
  - by vm_compute.
  - eapply alike_cluster; [exact Ha|apply memory_cluster].
  - exact Hin.
  - rewrite Hd. lia.
  - by eapply nsteps_once.
Defined.
End ClosedLoop.
