(* ===== verification/Mesh.v ===== *)
(** * An AgentSet comes up

    The controllers of both kinds on one cluster: passes of the AgentSet
    controller ([pkg/reconciler/agentset/controller.go]) and of the AgentDeploy
    controller ([pkg/reconciler/agentdeploy/controller.go]) interleave in any
    order, each on the objects the others left.  What a pass does not touch is
    shown first, for any view of the cluster that the single calls keep; then
    the passes are put together. *)
From S2P Require Import Prelude K8s Types Conditions Template PodSpecs Pods Fleet Services.
From S2P Require Import Samples Validator Workset Controller AgentDeploys AgentSets Autoscaler ClosedLoop.
#[local] Open Scope Z_scope.
#[local] Open Scope string_scope.
#[local] Open Scope list_scope.

Module Mesh.
Import Pods Fleet Services AgentDeploys ClosedLoop.

(** ** What a pass leaves alone *)
Section frames.
Context {W : Type} (R : relation W) `{!PreOrder R}.
#[local] Unset Default Proof Using.

(** The calls on one kind of object keep the view. *)
Record keeps (O : Type) `{Client W O} : Prop := {
  keeps_get k w : R w (Get k w).1;
  keeps_create o w : R w (Create o w).1;
  keeps_delete o w : R w (Delete o w).1
}.

Lemma upsert_keeps {O : Type} `{Client W O} (o : O) w : keeps O → R w (upsert_by_hash o w).1.
Proof using All.
  intros [Hg Hc Hd]. unfold upsert_by_hash.
  pose proof (Hg (key_of o) w) as H1. destruct (Get (key_of o) w) as [w1 [x|e]]; cbn [fst] in H1.
  - destruct (String.eqb _ _); [done|]. pose proof (Hd x w1) as H2. destruct (Delete x w1) as [w2 de]. cbn [fst] in H2.
    pose proof (Hc o w2) as H3. destruct (Create o w2) as [w3 [ce|]]; cbn [fst] in H3;
      destruct de as [e|]; repeat case_match; cbn [fst]; do 2 (etrans; [eassumption|]); done.
  - destruct (IsNotFound e); [|done]. pose proof (Hc o w1) as H2.
    destruct (Create o w1) as [w2 [ce|]]; cbn [fst] in H2; repeat case_match; cbn [fst]; by etrans.
Qed.

(** [upsertService] of one controller and the entry service and daemon of the
    other are upserts. *)
Lemma reconcileServices_keeps `{!Client W Service} hs ad w :
  keeps Service → R w (reconcileServices hs ad w).1.
Proof using All.
  intros Hk. unfold reconcileServices, upsertService.
  pose proof (upsert_keeps (stamp hs (newHeadlessService ad)) w Hk) as H1.
  destruct (upsert_by_hash _ w) as [w1 [e|]]; cbn [fst] in *; [done|].
  pose proof (upsert_keeps (stamp hs (newClusterIPService ad)) w1 Hk) as H2.
  destruct (upsert_by_hash _ w1) as [w2 [e|]]; cbn [fst] in *; by etrans.
Qed.

Section pods.
Context `{!Client W Service} `{!Client W Pod} `{GoSort} `{GoRange}.
Context (ListPods : string → gmap string string → W → W * result ApiError (list Pod)).
Context (RandomLowerCaseString : W → W * string) (Now : W → W * Time).
Context (MustHash : PodSpec → string) (MustHashService : ServiceSpec → string).
Context (scaled : IntOrString → Z → bool → option Z).
Context (encode_object : AgentDeploy → string) (api_text : ApiError → string) (env : Controller.Env).
Context (ad : AgentDeploy).

Context (owned : W → gmap NamespacedName Pod).
Abbreviation pod_spec := (pod_spec encode_object env ad).
Abbreviation hash := (hash MustHash encode_object env ad).
Context (Hrel : reliable ListPods RandomLowerCaseString ad pod_spec hash owned).

(** The calls of the AgentDeploy controller keep the view: of the pods it
    touches only those of its fleet. *)
Record pod_calls_keep : Prop := {
  pk_services : keeps Service;
  pk_now w : R w (Now w).1;
  pk_fleet : fleet_calls_keep ListPods RandomLowerCaseString ad pod_spec hash owned R
}.
Context (Hk : pod_calls_keep).

Lemma listOwnedPods_keeps st : R (world st) (world (listOwnedPods ListPods ad st).1).
Proof using All.
  unfold listOwnedPods. pose proof (fk_list _ _ _ _ _ _ _ (pk_fleet Hk) (world st)).
  by destruct (ListPods _ _ _) as [w [ps|e]].
Qed.

Lemma pods_pass_keeps desired st :
  R (world st) (world (pods_pass ListPods RandomLowerCaseString scaled ad desired pod_spec hash st).1).
Proof using All.
  destruct st as [w cs].
  destruct (pass_keeps ListPods RandomLowerCaseString MustHash scaled ad desired pod_spec hash owned Hrel R (pk_fleet Hk) w cs)
    as (w' & cs' & existing & -> & HR & _). done.
Qed.

Abbreviation reconcile := (Controller.reconcile ListPods RandomLowerCaseString Now MustHash MustHashService scaled encode_object api_text env).

Lemma stamped_keeps f s w : R w (Controller.stamped Now f s w).1.
Proof using All. unfold Controller.stamped. pose proof (pk_now Hk w). by destruct (Now w). Qed.
Lemma failed_keeps reason msg s w : R w (Controller.failed Now reason msg s w).1.
Proof using All.
  unfold Controller.failed. pose proof (stamped_keeps (λ t cs, Conditions.MarkFalse t cs Controller.AgentDeployConditionDeployed reason msg) s w).
  by destruct (Controller.stamped _ _ _ _).
Qed.
Lemma initialize_keeps s w : R w (Controller.initialize Now s w).1.
Proof using All.
  unfold Controller.initialize.
  pose proof (stamped_keeps (λ t cs, Conditions.InitializeConditions t cs [Controller.AgentDeployConditionDeployed]) s w) as H1.
  destruct (Controller.stamped _ _ s w) as [w1 s1]. cbn [fst] in H1. etrans; [exact H1|]. apply stamped_keeps.
Qed.
Lemma verdict_keeps s w : R w (Controller.verdict Now s w).1.
Proof using All. unfold Controller.verdict. destruct (Controller.all_ready s); apply stamped_keeps. Qed.

(** [reconcile] keeps whatever its calls keep. *)
Lemma reconcile_keeps st : R (world st) (world (reconcile ad st).1.1).
Proof using All.
  unfold Controller.reconcile.
  pose proof (initialize_keeps (ad_Status ad) (world st)) as K0.
  destruct (Controller.initialize _ _ _) as [w0 s0]. cbn [fst] in K0. etrans; [exact K0|].
  set (s1 := Controller.with_generation _ s0). set (ad1 := ad_with_status s1 ad).
  pose proof (reconcileServices_keeps MustHashService ad1 w0 (pk_services Hk)) as K1.
  destruct (reconcileServices _ ad1 w0) as [w1 [[kind e]|]]; cbn [fst] in K1; (etrans; [exact K1|]).
  { match goal with |- context [Controller.failed Now ?r ?m s1 w1] => pose proof (failed_keeps r m s1 w1) as K2 end.
    by destruct (Controller.failed _ _ _ _ _). }
  pose proof (pk_now Hk w1) as K2. destruct (Now w1) as [w2 now]. cbn [fst] in K2. etrans; [exact K2|].
  unfold reconcilePods.
  assert (PodSpecs.buildPodSpec encode_object ad1 (Controller.image env) (Controller.imagePullPolicy env)
            (Controller.defaultResources env) = pod_spec) as ->.
  { unfold ad1. rewrite resized_status. apply pod_spec_resized. }
  change (MustHash pod_spec) with hash.
  match goal with |- context [pods_pass _ _ _ ad1 ?d _ _ ?x] => pose proof (pods_pass_keeps d x) as K3 end.
  change (pods_pass ListPods RandomLowerCaseString scaled ad) with (pods_pass ListPods RandomLowerCaseString scaled ad1) in K3.
  destruct (pods_pass _ _ _ ad1 _ _ _ _) as [st3 [promote|e]]; cbn [fst] in K3; (etrans; [exact K3|]).
  - match goal with |- context [Controller.stamped Now ?f ?s (world st3)] => pose proof (stamped_keeps f s (world st3)) as K4 end.
    destruct (Controller.stamped _ _ _ (world st3)) as [w4 s4]. cbn [fst] in K4. etrans; [exact K4|].
    unfold updatePodStatus, bind. pose proof (listOwnedPods_keeps (mkSt w4 (calls st3))) as K5.
    change (listOwnedPods ListPods ad) with (listOwnedPods ListPods (ad_with_status (Controller.with_reason "" "" s4) ad)) in K5.
    destruct (listOwnedPods _ _ _) as [st5 [ps|e]]; [|done]. cbn [fst] in K5. etrans; [exact K5|].
    destruct (fold_left _ _ _) as [[[a b] c] d]. cbn [ret].
    match goal with |- context [Controller.verdict Now ?s ?w] => pose proof (verdict_keeps s w) as K6 end.
    by destruct (Controller.verdict _ _ _).
  - match goal with |- context [Controller.failed Now ?r ?m ?s ?w] => pose proof (failed_keeps r m s w) as K4 end.
    by destruct (Controller.failed _ _ _ _ _).
Qed.
End pods.
End frames.

(** ** The cluster *)

(** What the server keeps of an AgentDeploy it is sent: it may fill in
    identity and versions. *)
Definition accepted (sent got : AgentDeploy) : Prop :=
  ad_Spec got = ad_Spec sent ∧ ad_Status got = ad_Status sent ∧ ad_Name got = ad_Name sent ∧
  ad_Namespace got = ad_Namespace sent ∧ om_Labels (ad_meta got) = om_Labels (ad_meta sent) ∧
  om_Annotations (ad_meta got) = om_Annotations (ad_meta sent) ∧
  om_OwnerReferences (ad_meta got) = om_OwnerReferences (ad_meta sent) ∧
  om_DeletionTimestamp (ad_meta got) = om_DeletionTimestamp (ad_meta sent).

Definition as_with_status (ss : AgentSetStatus) (s : AgentSet) : AgentSet := mkAgentSet (as_meta s) (as_Spec s) ss.

(** ** Children by name *)
Lemma fold_by_name (m : gmap string AgentDeploy) items :
  items ≡ₚ (map_to_list m).*2 → (∀ n c, m !! n = Some c → ad_Name c = n) →
  fold_left (λ out ad, <[ad_Name ad := ad]> out) items ∅ = m.
Proof.
  intros Hp Hk.
  assert (∀ l (out : gmap string AgentDeploy), fold_left (λ out ad, <[ad_Name ad := ad]> out) l out =
                   list_to_map (reverse ((λ c, (ad_Name c, c)) <$> l)) ∪ out) as Hf.
  { intros l. induction l as [|c l IH] using rev_ind; intros out; [symmetry; apply (left_id_L ∅ (∪))|].
    rewrite fold_left_app. cbn. rewrite IH, fmap_app, reverse_app. cbn. by rewrite insert_union_l. }
  rewrite Hf, (right_id_L ∅ (∪)).
  assert ((λ c, (ad_Name c, c)) <$> items ≡ₚ map_to_list m) as Hl.
  { rewrite Hp, <- list_fmap_compose. rewrite <- (list_fmap_id (map_to_list m)) at 2.
    match goal with |- ?a ≡ₚ ?b => enough (a = b) as -> by done end. apply list_fmap_ext. intros i [n c] Hx%list_elem_of_lookup_2%elem_of_map_to_list. cbn. by rewrite (Hk n c Hx). }
  rewrite <- (list_to_map_to_list m). apply list_to_map_proper.
  - rewrite reverse_Permutation, Hl. apply NoDup_fst_map_to_list.
  - by rewrite reverse_Permutation.
Qed.

(** Passes of the controllers: of the AgentSet's, and of a child's. *)
Inductive event := SetPass | ChildPass (n : string).
#[export] Instance event_eq_dec : EqDecision event.
Proof. solve_decision. Defined.
Definition passes (n : string) (es : list event) : nat := length (filter (λ e, e = ChildPass n) es).

Section mesh.
Context {W : Type} `{!Client W AgentSet} `{!Client W AgentDeploy} `{!Client W Service} `{!Client W Deployment} `{!Client W Pod}.
Context `{GoSort} `{GoRange} {S1 S2 : Type} `{!Workset.ScaleWatcher NamespacedName S1} `{!Workset.ScaleWatcher NamespacedName S2}.
Context (ListAgentDeploys : string → gmap string string → W → W * result ApiError (list AgentDeploy)).
Context (ListPods : string → gmap string string → W → W * result ApiError (list Pod)).
Context (SetControllerReference : option (AgentSet → ObjectMeta → result string (list OwnerReference))).
Context (RandomLowerCaseString : W → W * string) (Now : W → W * Time).
Context (PatchSetStatus : AgentSet → AgentSetStatus → W → W * option ApiError).
Context (PatchChildStatus : AgentDeploy → AgentDeployStatus → W → W * option ApiError).
Context (MustHash : PodSpec → string) (MustHashSpec : AgentDeploySpec → string).
Context (MustHashService : ServiceSpec → string) (MustHashDeployment : DeploymentSpec → string).
Context (scaled : IntOrString → Z → bool → option Z).
Context (IsDNS1035Label : string → bool) (url_Parse : string → option (string * string)).
Context (encode_set : AgentSet → string) (encode_object : AgentDeploy → string).
Context (api_text : ApiError → string) (validation_text : Validator.ValidationError → string) (env : Controller.Env).
#[local] Unset Default Proof Using.

(** What the theorems see of the cluster: the AgentSet, its AgentDeploys by
    name, and the live pods of each of them. *)
Context (set_of : W → AgentSet) (children : W → gmap string AgentDeploy).
Context (owned : string → W → gmap NamespacedName Pod).

Definition same : relation W := λ w w', set_of w' = set_of w ∧ children w' = children w ∧ ∀ n, owned n w' = owned n w.
(** All but the fleet of one child. *)
Definition same_but (m : string) : relation W := λ w w',
  set_of w' = set_of w ∧ children w' = children w ∧ ∀ n, n ≠ m → owned n w' = owned n w.
#[export] Instance same_preorder : PreOrder same.
Proof. split; [by intros w|]. intros a b c (? & ? & Hn) (? & ? & Hn'). split_and!; [congruence..|]. intros n. by rewrite Hn', Hn. Qed.
#[export] Instance same_but_preorder m : PreOrder (same_but m).
Proof.
  split; [by intros w|]. intros a b c (? & ? & Hn) (? & ? & Hn'). split_and!; [congruence..|].
  intros n Hne. by rewrite Hn', Hn.
Qed.
Lemma same_same_but m w w' : same w w' → same_but m w w'.
Proof. intros (? & ? & ?). by split_and!. Qed.

Abbreviation pods n := (pods (owned n)).
Abbreviation set_reconcile := (AgentSets.Reconcile ListAgentDeploys SetControllerReference Now PatchSetStatus MustHashSpec
  MustHashService MustHashDeployment IsDNS1035Label url_Parse encode_set api_text validation_text
  (Controller.image env) (Controller.imagePullPolicy env) (Controller.defaultResources env)).
Abbreviation child_reconcile := (Controller.Reconcile ListPods RandomLowerCaseString Now PatchChildStatus MustHash MustHashService
  scaled encode_object api_text env).
Abbreviation desired_of := (buildDesired SetControllerReference MustHashSpec).

(** A server that does what it is asked, for the AgentSet [s0]: reads return
    what it holds, writes are carried out, and no call changes more than its
    object.  Services, Deployments, clock and random source are not watched. *)
Record apiserver (s0 : AgentSet) : Prop := {
  ap_service : keeps same Service;
  ap_deployment : keeps same Deployment;
  ap_now w : same w (Now w).1;
  ap_random w : same w (RandomLowerCaseString w).1;
  ap_refs s ss m : owner_refs SetControllerReference (as_with_status ss s) m = owner_refs SetControllerReference s m;
  ap_get_set w : as_meta (set_of w) = as_meta s0 → (Get (O := AgentSet) (om_key (as_meta s0)) w).2 = Ok (set_of w) ∧
    same w (Get (O := AgentSet) (om_key (as_meta s0)) w).1;
  ap_patch_set ss w w' : PatchSetStatus (set_of w) ss w = (w', None) →
    set_of w' = as_with_status ss (set_of w) ∧ children w' = children w ∧ ∀ n, owned n w' = owned n w;
  ap_list w : ∃ w' items, ListAgentDeploys (as_Namespace s0) (<[KeyAgentSetName := as_Name s0]> ∅) w = (w', Ok items) ∧
    same w w' ∧ items ≡ₚ (map_to_list (children w)).*2;
  ap_keyed w n c : children w !! n = Some c → ad_Name c = n ∧ ad_Namespace c = as_Namespace s0;
  ap_create ad w : children w !! ad_Name ad = None → ad_Namespace ad = as_Namespace s0 →
    ∃ w' got, Create ad w = (w', None) ∧ accepted ad got ∧ set_of w' = set_of w ∧
      children w' = <[ad_Name ad := got]> (children w) ∧ ∀ n, owned n w' = owned n w;
  ap_update ad w : is_Some (children w !! ad_Name ad) → ad_Namespace ad = as_Namespace s0 →
    ∃ w' got, Update ad w = (w', None) ∧ accepted ad got ∧ set_of w' = set_of w ∧
      children w' = <[ad_Name ad := got]> (children w) ∧ ∀ n, owned n w' = owned n w;
  ap_delete ad w : children w !! ad_Name ad = Some ad →
    ∃ w', Delete ad w = (w', None) ∧ set_of w' = set_of w ∧
      children w' = delete (ad_Name ad) (children w) ∧ ∀ n, owned n w' = owned n w;
  ap_get_child w n c : children w !! n = Some c →
    (Get (O := AgentDeploy) (mkKey (as_Namespace s0) n) w).2 = Ok c ∧ same w (Get (O := AgentDeploy) (mkKey (as_Namespace s0) n) w).1;
  ap_patch_child w n c st w' : children w !! n = Some c → PatchChildStatus c st w = (w', None) →
    set_of w' = set_of w ∧ children w' = <[n := ad_with_status st c]> (children w) ∧ ∀ m, owned m w' = owned m w;
  ap_pods n c : ad_Name c = n → ad_Namespace c = as_Namespace s0 → spec_AgentSetName (ad_Spec c) = as_Name s0 →
    ChildAgentDeployName s0 (ag_Name (spec_Agent (ad_Spec c))) = n →
    reliable ListPods RandomLowerCaseString c (pod_spec encode_object env c) (hash MustHash encode_object env c) (owned n) ∧
    pod_calls_keep (same_but n) ListPods RandomLowerCaseString Now MustHash encode_object env c (owned n)
}.

(** ** Steps of the mesh *)

(** A pass of the AgentSet controller that reports no error, with the calls
    on children it issued. *)
Definition set_pass (cs : list ChildCall) (w w' : W) : Prop :=
  ∃ st, set_reconcile (om_key (as_meta (set_of w))) (mkChSt w []) = Some (st, None) ∧ ch_calls st = cs ∧ w' = ch_world st.

(** The pods of one of the children become ready, those of others may change state too,
    and a pass of the AgentDeploy controller reports no error. *)
Definition child_pass (n : string) (w w' : W) : Prop :=
  is_Some (children w !! n) ∧ ∃ w1 (c c' : @Controller.CtlSt W S1 S2), set_of w1 = set_of w ∧ children w1 = children w ∧
    (∀ m, same_fleet (pods m w) (pods m w1)) ∧ (∀ p, p ∈ live (pods n w1) → podReady p = true) ∧
    world (Controller.ctl c) = w1 ∧
    child_reconcile (mkKey (as_Namespace (set_of w)) n) c = (c', None) ∧ w' = world (Controller.ctl c').

Definition mesh_step (e : event) (w w' : W) : Prop :=
  match e with SetPass => ∃ cs, set_pass cs w w' | ChildPass n => child_pass n w w' end.
Fixpoint mesh_run (es : list event) (w w' : W) : Prop :=
  match es with
  | [] => w = w'
  | e :: es => ∃ w1, mesh_step e w w1 ∧ mesh_run es w1 w'
  end.

(** ** The children after a pass of the AgentSet controller *)
Section converge.
Context (s0 : AgentSet) (Hap : apiserver s0).
Definition frame (w w' : W) : Prop := set_of w' = set_of w ∧ ∀ n, owned n w' = owned n w.

Lemma frame_trans w1 w2 w3 : frame w1 w2 → frame w2 w3 → frame w1 w3.
Proof. intros [? Hn] [? Hn']. split; [congruence|]. intros n. by rewrite Hn', Hn. Qed.

Lemma seq_steps_app (l1 l2 : list (@step W)) st :
  seq_steps (l1 ++ l2) st = match seq_steps l1 st with (st', Some e) => (st', Some e) | (st', None) => seq_steps l2 st' end.
Proof.
  revert st. induction l1 as [|x l1 IH]; intros st; [done|]. cbn. destruct (x st) as [st' [e|]]; [done|]. apply IH.
Qed.

(** A sequence of steps, each on a child of its own. *)
Lemma seq_steps_keyed (f : string * AgentDeploy → @step W) (old : gmap string AgentDeploy) (P : string → option AgentDeploy → Prop) l :
  NoDup l.*1 →
  (∀ p st, p ∈ l → children (ch_world st) !! p.1 = old !! p.1 →
     ∃ st', f p st = (st', None) ∧ frame (ch_world st) (ch_world st') ∧
       (∀ n, n ≠ p.1 → children (ch_world st') !! n = children (ch_world st) !! n) ∧
       P p.1 (children (ch_world st') !! p.1)) →
  ∀ st, (∀ n, n ∈ l.*1 → children (ch_world st) !! n = old !! n) →
  ∃ st', seq_steps (map f l) st = (st', None) ∧ frame (ch_world st) (ch_world st') ∧
    (∀ n, n ∉ l.*1 → children (ch_world st') !! n = children (ch_world st) !! n) ∧
    (∀ n, n ∈ l.*1 → P n (children (ch_world st') !! n)).
Proof.
  induction l as [|p l IH]; intros Hnd Hf st Hold.
  - exists st. split_and!; [done|done|done|]. by intros n ?%elem_of_nil.
  - apply NoDup_cons in Hnd as [Hp Hnd].
    destruct (Hf p st ltac:(by left) (Hold p.1 ltac:(by left))) as (st1 & E1 & Hfr1 & Hoth1 & HP1).
    destruct (IH Hnd (λ q st Hq, Hf q st (list_elem_of_further _ _ _ Hq)) st1) as (st2 & E2 & Hfr2 & Hoth2 & HP2).
    { intros n Hn. rewrite Hoth1; [|by intros ->]. apply Hold. by right. }
    exists st2. cbn [map seq_steps]. rewrite E1. split_and!; [done|by eapply frame_trans| |].
    + intros n [Hne Hn]%not_elem_of_cons. by rewrite Hoth2, Hoth1.
    + intros n [->|Hn]%elem_of_cons; [|by apply HP2]. by rewrite Hoth2.
Qed.

(** What a child becomes. *)
Definition applied (old desired : gmap string AgentDeploy) (n : string) (new : option AgentDeploy) : Prop :=
  match desired !! n with
  | None => new = None
  | Some want =>
      match old !! n with
      | None => ∃ got, new = Some got ∧ accepted want got
      | Some cur => if needsUpdate cur want then ∃ got, new = Some got ∧ accepted (updated_child cur want) got
                    else new = Some cur
      end
  end.

Lemma applyDesiredState_applied desired st :
  (∀ n want, desired !! n = Some want → ad_Name want = n ∧ ad_Namespace want = as_Namespace s0) →
  ∃ st', applyDesiredState (children (ch_world st)) desired st = (st', None) ∧ frame (ch_world st) (ch_world st') ∧
    ∀ n, applied (children (ch_world st)) desired n (children (ch_world st') !! n).
Proof.
  intros Hdes. set (old := children (ch_world st)). unfold applyDesiredState. rewrite seq_steps_app.
  assert (∀ m : gmap string AgentDeploy, NoDup (range_map m).*1) as Hnd.
  { intros m. rewrite range_map_perm. apply NoDup_fst_map_to_list. }
  assert (∀ (m : gmap string AgentDeploy) n, n ∈ (range_map m).*1 ↔ is_Some (m !! n)) as Hkeys.
  { intros m n. rewrite list_elem_of_fmap. split.
    - intros ([k v] & -> & Hx%range_map_elem). by exists v.
    - intros [v Hv]. exists (n, v). split; [done|]. by apply range_map_elem. }
  destruct (seq_steps_keyed (apply_one old) old (applied old desired) (range_map desired) (Hnd desired)) with (st := st)
    as (st1 & E1 & Hfr1 & Hoth1 & HP1).
  { intros [n want] x Hin%range_map_elem Hold. cbn [fst] in *. unfold applied. rewrite Hin.
    destruct (Hdes n want Hin) as [Hn Hns]. unfold apply_one. destruct (old !! n) as [cur|] eqn:Ho.
    - destruct (needsUpdate cur want); cbn [negb]; [|exists x; by split_and!].
      assert (ad_Name (updated_child cur want) = n) as Hcur by (by destruct (ap_keyed _ Hap _ _ _ Hold)).
      destruct (ap_update _ Hap (updated_child cur want) (ch_world x)) as (w' & got & Eu & Ha & Hs & Hc & Hw).
      { rewrite Hcur, Hold. by eexists. }
      { by destruct (ap_keyed _ Hap _ _ _ Hold). }
      unfold call. rewrite Eu. eexists. split; [done|]. cbn [ch_world]. rewrite Hc, Hcur. split_and!; [done| |].
      + intros m Hm. by rewrite lookup_insert_ne.
      + rewrite lookup_insert_eq. by eexists.
    - destruct (ap_create _ Hap want (ch_world x)) as (w' & got & Ec & Ha & Hs & Hc & Hw); [by rewrite Hn|done|].
      unfold call. rewrite Ec. eexists. split; [done|]. cbn [ch_world]. rewrite Hc, Hn. split_and!; [done| |].
      + intros m Hm. by rewrite lookup_insert_ne.
      + rewrite lookup_insert_eq. by eexists. }
  { done. }
  rewrite E1.
  assert (∀ n, desired !! n = None → children (ch_world st1) !! n = old !! n) as Hkept.
  { intros n Hn. apply Hoth1. rewrite Hkeys, Hn. by intros []. }
  destruct (seq_steps_keyed (remove_orphan desired) (children (ch_world st1)) (applied old desired) (range_map old) (Hnd old)) with (st := st1)
    as (st2 & E2 & Hfr2 & Hoth2 & HP2).
  { intros [n got] x Hin%range_map_elem Hold. cbn [fst] in *. unfold remove_orphan.
    destruct (desired !! n) as [want|] eqn:Hd.
    - exists x. split_and!; try done. rewrite Hold. apply HP1. by rewrite Hkeys, Hd.
    - rewrite (Hkept n Hd), Hin in Hold. destruct (ap_keyed _ Hap _ _ _ Hold) as [Hn _].
      destruct (ap_delete _ Hap got (ch_world x)) as (w' & Ed & Hs & Hc & Hw); [by rewrite Hn|].
      unfold call. rewrite Ed. eexists. split; [done|]. cbn [ch_world]. rewrite Hc, Hn. split_and!; [done| |].
      + intros m Hm. by rewrite lookup_delete_ne.
      + unfold applied. by rewrite Hd, lookup_delete_eq. }
  { done. }
  exists st2. split; [done|]. split; [by eapply frame_trans|]. intros n.
  destruct (decide (n ∈ (range_map old).*1)) as [Hin|Hin]; [by apply HP2|].
  rewrite Hoth2 by done. destruct (desired !! n) as [want|] eqn:Hd; [apply HP1; by rewrite Hkeys, Hd|].
  rewrite (Hkept n Hd). unfold applied. rewrite Hd. rewrite Hkeys in Hin. by destruct (old !! n); [destruct Hin|].
Qed.
(** The AgentSet with some status. *)
Definition of_set (w : W) : Prop := ∃ ss, set_of w = as_with_status ss s0.

Lemma desired_status ss : desired_of (as_with_status ss s0) = desired_of s0.
Proof.
  assert (∀ a, newAgentDeploy SetControllerReference MustHashSpec (as_with_status ss s0) a =
               newAgentDeploy SetControllerReference MustHashSpec s0 a) as Hnew.
  { intros a. unfold newAgentDeploy. rewrite (ap_refs _ Hap s0 ss). done. }
  unfold buildDesired. change (as_Agents (as_Spec (as_with_status ss s0))) with (as_Agents (as_Spec s0)).
  generalize (∅ : gmap string AgentDeploy). induction (as_Agents (as_Spec s0)) as [|a l IH]; intros out; [done|].
  cbn [build]. rewrite Hnew. destruct (newAgentDeploy _ _ s0 a) as [[ad|e]|]; cbn; [apply IH|done|done].
Qed.

Lemma list_children w : of_set w →
  ∃ w', listOwnedAgentDeploys ListAgentDeploys (set_of w) w = (w', Ok (children w)) ∧ same w w'.
Proof.
  intros [ss Es]. destruct (ap_list _ Hap w) as (w' & items & El & Hs & Hp). exists w'. split; [|done].
  unfold listOwnedAgentDeploys. rewrite Es. change (as_Namespace (as_with_status ss s0)) with (as_Namespace s0).
  change (as_Name (as_with_status ss s0)) with (as_Name s0). rewrite El, (fold_by_name (children w)); [done|done|].
  intros n c Hc. by destruct (ap_keyed _ Hap _ _ _ Hc).
Qed.

Lemma set_stamped_same f ss w : same w (AgentSets.stamped Now f ss w).1.
Proof. unfold AgentSets.stamped. pose proof (ap_now _ Hap w). by destruct (Now w). Qed.

Lemma set_initialize_same ss w : same w (AgentSets.initialize Now ss w).1.
Proof.
  unfold AgentSets.initialize.
  match goal with |- context [AgentSets.stamped Now ?f ss w] => pose proof (set_stamped_same f ss w) as K1 end.
  destruct (AgentSets.stamped _ _ ss w) as [w1 s1]. cbn [fst] in K1. etrans; [exact K1|].
  match goal with |- context [AgentSets.stamped Now ?f s1 w1] => pose proof (set_stamped_same f s1 w1) as K2 end.
  destruct (AgentSets.stamped _ _ s1 w1) as [w2 s2]. cbn [fst] in K2. etrans; [exact K2|]. apply set_stamped_same.
Qed.

Abbreviation set_entry := (AgentSets.reconcileEntryService SetControllerReference MustHashService).
Abbreviation set_daemon := (AgentSets.reconcileDaemon SetControllerReference MustHashService MustHashDeployment encode_set
  (Controller.image env) (Controller.imagePullPolicy env) (Controller.defaultResources env)).

Lemma set_entry_same s w : same w (set_entry s w).1.
Proof.
  unfold AgentSets.reconcileEntryService. destruct (AgentSets.with_refs _ _ _ _) as [o|e]; [|done].
  pose proof (upsert_keeps same (stamp MustHashService o) w (ap_service _ Hap)). by destruct (upsert_by_hash _ w).
Qed.
Lemma set_daemon_same s w : same w (set_daemon s w).1.
Proof.
  unfold AgentSets.reconcileDaemon, AgentSets.reconcileDaemonDeployment, AgentSets.reconcileDaemonService.
  destruct (AgentSets.with_refs _ _ _ dep_meta) as [d|e]; [|done].
  pose proof (upsert_keeps same (AgentSets.stamp_deployment MustHashDeployment d) w (ap_deployment _ Hap)) as K1.
  destruct (upsert_by_hash _ w) as [w1 [e|]]; cbn [fst fmap option_fmap option_map] in *; [done|].
  destruct (AgentSets.with_refs _ _ _ svc_meta) as [o|e]; [|done].
  pose proof (upsert_keeps same (stamp MustHashService o) w1 (ap_service _ Hap)) as K2.
  destruct (upsert_by_hash _ w1) as [w2 [e|]]; cbn in *; by etrans.
Qed.

(** A pass of the AgentSet controller without an error: the children are as
    applied, nothing else that is watched changes, and the status has the
    phase of the children it listed. *)
Lemma set_pass_spec cs w w' desired :
  of_set w → AgentSets.set_being_deleted s0 = false → Validator.ValidateAgentSet IsDNS1035Label url_Parse s0 = Ok tt →
  desired_of s0 = Some (Ok desired) → (∀ n want, desired !! n = Some want → ad_Name want = n ∧ ad_Namespace want = as_Namespace s0) →
  set_pass cs w w' →
  of_set w' ∧ (∀ n, owned n w' = owned n w) ∧ (∀ n, applied (children w) desired n (children w' !! n)) ∧
  (plan (children w) desired = [] → cs = []) ∧
  ass_AgentCount (as_Status (set_of w')) = Some (uint32 (Z.of_nat (size desired))) ∧
  ∃ now ss, ass_Phase (as_Status (set_of w')) = ass_Phase (aggregateChildHealth now ss desired (children w)).
Proof.
  intros Hof Hdel Hval Hdes Hkeyed (st & E & <- & ->). unfold AgentSets.Reconcile in E. cbn [ch_world ch_calls] in E.
  destruct Hof as [ss0 Es]. rewrite Es in E. change (om_key (as_meta (as_with_status ss0 s0))) with (om_key (as_meta s0)) in E.
  destruct (ap_get_set _ Hap w) as [Eg Hg]; [by rewrite Es|]. destruct (Get (om_key (as_meta s0)) w) as [w1 r]. cbn [fst snd] in *. subst r.
  rewrite Es in E. change (AgentSets.set_being_deleted (as_with_status ss0 s0)) with (AgentSets.set_being_deleted s0) in E.
  rewrite Hdel in E. unfold AgentSets.reconcile in E. cbn [ch_world ch_calls] in E.
  match type of E with context [AgentSets.initialize Now ?x w1] => pose proof (set_initialize_same x w1) as K1 end.
  destruct (AgentSets.initialize _ _ w1) as [w2 s2]. cbn [fst] in K1.
  change (Validator.ValidateAgentSet _ _ _) with (Validator.ValidateAgentSet IsDNS1035Label url_Parse s0) in E. rewrite Hval in E.
  match type of E with context [AgentSets.stamped Now ?f ?x w2] => pose proof (set_stamped_same f x w2) as K2 end.
  destruct (AgentSets.stamped _ _ _ w2) as [w3 s3]. cbn [fst] in K2.
  assert (same w w3) as K3 by (etrans; [exact Hg|]; by etrans).
  assert (set_of w3 = as_with_status ss0 s0) as Es3 by (destruct K3 as (-> & _); done).
  destruct (list_children w3 (ex_intro _ ss0 Es3)) as (w4 & El & K4). rewrite Es3 in El. rewrite El in E.
  rewrite desired_status, Hdes in E. cbn [mbind option_bind] in E. unfold AgentSets.deploy in E.
  assert (same w w4) as K5 by (by etrans). destruct K5 as (Hs4 & Hc4 & Ho4).
  assert (children w3 = children w) as Hc3 by apply K3. rewrite Hc3 in E.
  destruct (applyDesiredState_applied desired (mkChSt w4 [])) as (st5 & Ea & [Hs5 Ho5] & Happ); [exact Hkeyed|].
  cbn [ch_world] in *. rewrite Hc4 in Ea, Happ. rewrite Ea in E.
  assert (plan (children w) desired = [] → ch_calls st5 = []) as Hcalls.
  { intros Hp. apply applyDesiredState_plan in Ea as (? & ? & _ & _ & _ & Hnil). by destruct (Hnil Hp) as [-> _]. }
  pose proof (set_entry_same (as_with_status ss0 s0) (ch_world st5)) as K6.
  destruct (set_entry _ (ch_world st5)) as [w6 [e|]]; [by destruct (AgentSets.failed _ _ _ _ _ _); destruct (AgentSets.persist _ _ _ _)|].
  pose proof (set_daemon_same (as_with_status ss0 s0) w6) as K7.
  destruct (set_daemon _ w6) as [w7 [e|]]; [by destruct (AgentSets.failed _ _ _ _ _ _); destruct (AgentSets.persist _ _ _ _)|].
  match type of E with context [AgentSets.stamped Now ?f ?x w7] => pose proof (set_stamped_same f x w7) as K8 end.
  destruct (AgentSets.stamped _ _ _ w7) as [w8 s8]. pose proof (ap_now _ Hap w8) as K9. destruct (Now w8) as [w9 now].
  pose proof (ap_now _ Hap w9) as K10. destruct (Now w9) as [w10 now2]. cbn [fst] in *.
  assert (same (ch_world st5) w10) as K11 by (repeat (etrans; [eassumption|]); done).
  set (ss := AgentSets.ss_with_counts _ _ _ _) in E. cbn [ch_world ch_calls] in E.
  assert (∃ w11, AgentSets.persist PatchSetStatus (as_with_status ss0 s0) ss w10 = (w11, None) ∧ st = mkChSt w11 (ch_calls st5)) as (w11 & Ep & ->).
  { destruct (AgentSets.persist _ _ _ _) as [w11 [e|]]; [done|]. injection E as <-. by eexists. }
  assert (set_of w10 = as_with_status ss0 s0) as Es10 by (destruct K11 as (-> & _); congruence).
  assert (set_of w11 = as_with_status ss s0 ∧ children w11 = children w10 ∧ ∀ n, owned n w11 = owned n w10) as (Hs11 & Hc11 & Ho11).
  { unfold AgentSets.persist in Ep. case_bool_decide as Eq.
    - injection Ep as <-. rewrite Es10. cbn in Eq. by rewrite Eq.
    - destruct (PatchSetStatus _ _ _) as [w' [e|]] eqn:Epp; [done|]. injection Ep as <-. rewrite <- Es10 in Epp.
      destruct (ap_patch_set _ Hap _ _ _ Epp) as (-> & ? & ?). by rewrite Es10. }
  cbn [ch_world ch_calls]. destruct K11 as (_ & Hc10 & Ho10). split_and!.
  - by exists ss.
  - intros n. by rewrite Ho11, Ho10, Ho5, Ho4.
  - intros n. rewrite Hc11, Hc10. apply Happ.
  - done.
  - by rewrite Hs11.
  - eexists now, s8. by rewrite Hs11.
Qed.
(** ** Passes of the children's controller *)

(** A child made for this AgentSet, whatever its replica count and status,
    and not being deleted. *)
Definition base_spec (c : AgentDeploy) : AgentDeploySpec :=
  mkAgentDeploySpec (spec_Agent (ad_Spec c)) (spec_AgentSetName (ad_Spec c)) None (spec_Topology (ad_Spec c)).
Definition child_ok (n : string) (c : AgentDeploy) : Prop :=
  ad_Name c = n ∧ ad_Namespace c = as_Namespace s0 ∧ spec_AgentSetName (ad_Spec c) = as_Name s0 ∧
  ChildAgentDeployName s0 (ag_Name (spec_Agent (ad_Spec c))) = n ∧ om_DeletionTimestamp (ad_meta c) = None ∧
  ad_annotation c KeyHash = MustHashSpec (base_spec c).

Abbreviation cluster n := (cluster ListPods RandomLowerCaseString Now MustHash MustHashService encode_object env (owned n)).
Abbreviation reconciled n := (reconciled ListPods RandomLowerCaseString Now MustHash MustHashService scaled encode_object api_text env (owned n)).

Lemma child_cluster n c : child_ok n c → cluster n c.
Proof.
  intros (Hn & Hns & Hset & Hag & _). destruct (ap_pods _ Hap n c Hn Hns Hset Hag) as [Hrel Hk]. split; [done| |].
  - intros w w' t E. pose proof (ap_now _ Hap w) as (_ & _ & Ho). rewrite E in Ho. apply Ho.
  - intros x w w' r E. pose proof (reconcileServices_keeps same MustHashService x w (ap_service _ Hap)) as (_ & _ & Ho).
    rewrite E in Ho. apply Ho.
Qed.

Lemma child_pass_spec n c w w' :
  of_set w → children w !! n = Some c → child_ok n c → child_pass n w w' →
  set_of w' = set_of w ∧ (∀ m, m ≠ n → same_fleet (pods m w) (pods m w')) ∧
  ∃ s v, children w' = <[n := ad_with_status s c]> (children w) ∧ owned n w' = owned n v ∧
    ∀ v0, same_fleet (pods n v0) (pods n w) → reconciled n (c, v0) (ad_with_status s c, v).
Proof.
  intros [ss Es] Hc Hok (_ & w1 & k & k' & Hs1 & Hc1 & Hsf & Hready & Hw & E & ->).
  pose proof Hok as (Hn & Hns & Hset & Hag & Hdel & _). destruct (ap_pods _ Hap n c Hn Hns Hset Hag) as [Hrel Hk].
  rewrite Es in E. change (as_Namespace (as_with_status ss s0)) with (as_Namespace s0) in E.
  unfold Controller.Reconcile in E. rewrite Hw in E. rewrite <- Hc1 in Hc.
  destruct (ap_get_child _ Hap w1 n c Hc) as [Eg Hg]. destruct (Get (mkKey (as_Namespace s0) n) w1) as [w2 r].
  cbn [fst snd] in *. subst r. unfold Controller.being_deleted in E. rewrite Hdel in E.
  pose proof (reconcile_keeps (same_but n) ListPods RandomLowerCaseString Now MustHash MustHashService scaled encode_object
    api_text env c (owned n) Hrel Hk (mkSt w2 (calls (Controller.ctl k)))) as K3.
  destruct (Controller.reconcile _ _ _ _ _ _ _ _ _ c _) as [[st3 s3] e3] eqn:E3. cbn [fst world] in K3.
  destruct (Controller.persist PatchChildStatus c s3 (world st3)) as [w4 e4] eqn:E4.
  destruct e3 as [e|]; [done|]. injection E as <- ->. cbn [world Controller.ctl].
  assert (same_but n w1 (world st3)) as (Hs3 & Hc3 & Ho3) by (etrans; [by apply same_same_but|done]).
  assert (children (world st3) !! n = Some c) as Hcn by (by rewrite Hc3).
  assert (set_of w4 = set_of (world st3) ∧ children w4 = <[n := ad_with_status s3 c]> (children (world st3)) ∧
          ∀ m, owned m w4 = owned m (world st3)) as (Hs4 & Hc4 & Ho4).
  { unfold Controller.persist in E4. case_bool_decide as Eq.
    - injection E4 as <-. split_and!; [done| |done]. rewrite insert_id; [done|]. rewrite <- Eq, Hcn. by destruct c.
    - destruct (PatchChildStatus _ _ _) as [w' [e|]] eqn:Ep; [done|]. injection E4 as <-.
      by apply (ap_patch_child _ Hap _ n c s3 w' Hcn). }
  split_and!; [congruence| |].
  - intros m Hm. rewrite (Hsf m). unfold Fleet.pods. by rewrite Ho4, (Ho3 m Hm).
  - exists s3, (world st3). split_and!; [rewrite Hc4, Hc3; by rewrite Hc1|apply Ho4|].
    intros v0 Hv0. exists w2, (calls (Controller.ctl k)), st3, s3. split_and!; [|exact E3|done]. cbn [snd].
    destruct Hg as (_ & _ & Hog). assert (pods n w2 = pods n w1) as -> by (unfold Fleet.pods; by rewrite Hog).
    split; [|exact Hready]. rewrite Hv0. apply Hsf.
Qed.
(** ** The mesh in sync *)
Section sync.
Context (desired : gmap string AgentDeploy) (Hdes : desired_of s0 = Some (Ok desired)).
Context (Hdel : AgentSets.set_being_deleted s0 = false).
Context (Hval : Validator.ValidateAgentSet IsDNS1035Label url_Parse s0 = Ok tt).

(** The children are the desired ones. *)
Definition in_sync (w : W) : Prop := of_set w ∧ ∀ n,
  match desired !! n with
  | None => children w !! n = None
  | Some want => ∃ c, children w !! n = Some c ∧ needsUpdate c want = false ∧ child_ok n c
  end.

Lemma desired_made n want : desired !! n = Some want →
  ∃ a, a ∈ as_Agents (as_Spec s0) ∧ newAgentDeploy SetControllerReference MustHashSpec s0 a = Some (Ok want) ∧ n = ad_Name want.
Proof.
  intros Hn. destruct (build_from _ _ _ _ _ _ Hdes n want Hn) as [?|?]; [by rewrite lookup_empty in *|done].
Qed.
Lemma desired_ok n want : desired !! n = Some want → child_ok n want.
Proof.
  intros (a & _ & Ha & ->)%desired_made. pose proof (newAgentDeploy_meta _ _ _ _ _ Ha) as (Hn & Hns & Hd & Hh & _ & Hr).
  pose proof (AgentSets.newAgentDeploy_inv _ _ _ _ _ Ha) as (Hset & Hag & _ & _).
  split_and!; try done; [by rewrite Hag, Hn|]. rewrite Hh. f_equal. unfold base_spec. rewrite <- Hr. by destruct (ad_Spec want).
Qed.
Lemma desired_keyed n want : desired !! n = Some want → ad_Name want = n ∧ ad_Namespace want = as_Namespace s0.
Proof. intros (? & ? & _)%desired_ok. done. Qed.

Lemma accepted_ok n sent got : accepted sent got → child_ok n sent → child_ok n got.
Proof.
  intros (Hsp & _ & Hn & Hns & _ & Ha & _ & Hd) (? & ? & ? & ? & ? & ?). unfold child_ok, base_spec, ad_annotation in *.
  rewrite Hsp, Hn, Hns, Ha, Hd. done.
Qed.

(** One pass brings the children in sync; from then on a pass changes none of
    them and issues no call. *)
Lemma set_pass_in_sync cs w w' :
  of_set w → (∀ n c, children w !! n = Some c → child_ok n c) → set_pass cs w w' →
  in_sync w' ∧ ∀ n, owned n w' = owned n w.
Proof.
  intros Hof Hok Hp. destruct (set_pass_spec cs w w' desired Hof Hdel Hval Hdes desired_keyed Hp) as (Hof' & Ho & Happ & _).
  split; [|done]. split; [done|]. intros n. specialize (Happ n). unfold applied in Happ.
  destruct (desired !! n) as [want|] eqn:Hd; [|done]. pose proof (desired_ok n want Hd) as Hwant.
  destruct (children w !! n) as [cur|] eqn:Hcur.
  - pose proof (Hok n cur Hcur) as Hcok. destruct (needsUpdate cur want) eqn:Hup; [|by exists cur].
    destruct Happ as (got & Hg & Ha). exists got. split; [done|]. split.
    + destruct Ha as (_ & _ & _ & _ & Hl & Han & How & _). by apply needsUpdate_same.
    + apply (accepted_ok n _ _ Ha). destruct Hwant as (? & ? & ? & ? & ? & ?), Hcok as (? & ? & _ & _ & ? & _). by split_and!.
  - destruct Happ as (got & Hg & Ha). exists got. split; [done|]. split.
    + destruct Ha as (_ & _ & _ & _ & Hl & Han & How & _). by apply needsUpdate_same.
    + by apply (accepted_ok n want).
Qed.

Lemma sync_plan w : in_sync w → plan (children w) desired = [].
Proof.
  intros [_ Hs]. apply elem_of_nil_inv. intros c Hc. apply plan_elem in Hc as [n want Hd He|n want got Hd He Hn|n got He Hd];
    specialize (Hs n); rewrite Hd in Hs; [destruct Hs as (? & ? & _); congruence| |congruence].
  destruct Hs as (x & Hx & Hnu & _). congruence.
Qed.

Lemma set_pass_idle cs w w' :
  in_sync w → set_pass cs w w' →
  of_set w' ∧ children w' = children w ∧ (∀ n, owned n w' = owned n w) ∧ cs = [] ∧
  ass_AgentCount (as_Status (set_of w')) = Some (uint32 (Z.of_nat (size desired))) ∧
  ∃ now ss, ass_Phase (as_Status (set_of w')) = ass_Phase (aggregateChildHealth now ss desired (children w)).
Proof.
  intros Hs Hp. pose proof Hs as [Hof Hsn].
  destruct (set_pass_spec cs w w' desired Hof Hdel Hval Hdes desired_keyed Hp) as (Hof' & Ho & Happ & Hcs & Hcnt & Hph).
  split_and!; try done; [|by apply Hcs, sync_plan]. apply map_eq. intros n. specialize (Happ n). specialize (Hsn n). unfold applied in Happ.
  destruct (desired !! n) as [want|]; [|congruence]. destruct Hsn as (c & Hc & Hnu & _). rewrite Hc, Hnu in Happ. congruence.
Qed.

Lemma sync_child n c w : in_sync w → children w !! n = Some c → child_ok n c ∧ is_Some (desired !! n).
Proof.
  intros [_ Hs] Hc. specialize (Hs n). destruct (desired !! n) as [want|]; [|congruence].
  destruct Hs as (x & Hx & _ & Hok). split; [congruence|by eexists].
Qed.

Lemma step_in_sync e w w' : in_sync w → mesh_step e w w' →
  in_sync w' ∧ ∀ n c v0, children w !! n = Some c → same_fleet (pods n v0) (pods n w) →
    ∃ c' v, nsteps (reconciled n) (passes n [e]) (c, v0) (c', v) ∧ children w' !! n = Some c' ∧
      same_fleet (pods n v) (pods n w').
Proof.
  intros Hs. destruct e as [|m]; cbn [mesh_step].
  - intros [cs Hp]. destruct (set_pass_idle cs w w' Hs Hp) as (Hof & Hc & Ho & _). split.
    + split; [done|]. rewrite Hc. apply Hs.
    + intros n c v0 Hcn Hv0. exists c, v0. split; [constructor|]. rewrite Hc. split; [done|].
      unfold Fleet.pods at 2. by rewrite Ho.
  - intros Hp. pose proof Hp as ((cm & Hcm) & _). destruct (sync_child m cm w Hs Hcm) as [Hok _].
    destruct (child_pass_spec m cm w w' (proj1 Hs) Hcm Hok Hp) as (Hset & Hoth & s & v & Hc' & Hov & Hrec). split.
    + destruct Hs as [[ss Es] Hs]. split; [exists ss; congruence|]. intros n. specialize (Hs n). rewrite Hc'.
      destruct (decide (m = n)) as [->|Hne]; [|by rewrite lookup_insert_ne]. rewrite lookup_insert_eq.
      destruct (desired !! n) as [want|]; [|congruence]. destruct Hs as (c & Hc & Hnu & Hokc). exists (ad_with_status s cm).
      replace c with cm in * by congruence. done.
    + intros n c v0 Hcn Hv0. rewrite Hc'. unfold passes. rewrite filter_cons, filter_nil.
      destruct (decide (m = n)) as [->|Hne].
      * rewrite decide_True by done. replace c with cm in * by congruence. exists (ad_with_status s cm), v.
        split; [eapply nsteps_once; by apply Hrec|]. rewrite lookup_insert_eq. split; [done|]. unfold Fleet.pods. by rewrite Hov.
      * rewrite decide_False by congruence. exists c, v0. split; [constructor|]. rewrite lookup_insert_ne by done.
        split; [done|]. by rewrite Hv0, Hoth.
Qed.

(** A run, seen by one of the children: reconciles of its own, each on the
    fleet and status the one before left. *)
Lemma run_in_sync es w w' : in_sync w → mesh_run es w w' →
  in_sync w' ∧ ∀ n c v0, children w !! n = Some c → same_fleet (pods n v0) (pods n w) →
    ∃ c' v, nsteps (reconciled n) (passes n es) (c, v0) (c', v) ∧ children w' !! n = Some c' ∧
      same_fleet (pods n v) (pods n w').
Proof.
  revert w. induction es as [|e es IH]; intros w Hs; cbn [mesh_run].
  - intros <-. split; [done|]. intros n c v0 Hc Hv0. exists c, v0. split; [constructor|done].
  - intros (w1 & He & Hrun). destruct (step_in_sync e w w1 Hs He) as [Hs1 Hone]. destruct (IH w1 Hs1 Hrun) as [Hs' Hrest].
    split; [done|]. intros n c v0 Hc Hv0. destruct (Hone n c v0 Hc Hv0) as (c1 & v1 & Hn1 & Hc1 & Hv1).
    destruct (Hrest n c1 v1 Hc1 Hv1) as (c2 & v2 & Hn2 & Hc2 & Hv2). exists c2, v2. split_and!; [|done|done].
    assert (passes n (e :: es) = passes n [e] + passes n es)%nat as ->.
    { unfold passes. rewrite !filter_cons, filter_nil. by case_decide. }
    by eapply nsteps_trans.
Qed.
End sync.
End converge.
(** C5: an AgentSet comes up.  Take a valid AgentSet that is not being deleted,
    on a server that does what it is asked ([apiserver]), with passes that
    report no error.  Its children may be missing, outdated or left over from
    agents that are gone, but those there are were made for this AgentSet and
    are not being deleted ([child_ok]: its name, namespace and hash annotation
    are those the controller gives); their fleets may have leftovers, gaps and
    outdated pods, but no slot holds an outdated pod beside an up-to-date one
    ([unmixed]: such a duplicate is never deleted,
    [outdated_duplicate_survives]), and each asks for between 1 and [2^31 - 1]
    replicas.  Let its controller pass once, then passes of its controller and
    of the AgentDeploy controller interleave in any order, each child getting
    as many as its rollout has batches, and two more; pods come up in between.
    Then there is exactly one child per agent, its fleet is exactly as it asks
    for and it says so; if spec hashes do not collide, each child's spec is
    the one made for its agent from the AgentSet's spec as it is now; and the
    next pass of the AgentSet controller issues no call on children and
    reports Running with the number of agents. *)
Theorem mesh_comes_up s0 desired w0 w1 w2 w3 cs1 cs3 es :
  apiserver s0 → AgentSets.set_being_deleted s0 = false →
  Validator.ValidateAgentSet IsDNS1035Label url_Parse s0 = Ok tt →
  desired_of s0 = Some (Ok desired) →
  of_set s0 w0 → (∀ n c, children w0 !! n = Some c → child_ok s0 n c) →
  set_pass cs1 w0 w1 → mesh_run es w1 w2 → set_pass cs3 w2 w3 →
  (∀ n c, children w1 !! n = Some c →
     let d := DesiredReplicas c in let h := hash MustHash encode_object env c in
     0 < d < 2 ^ 31 ∧ unmixed d h (pods n w1) ∧
     ∃ m, Z.of_nat (length (stale_slots d h (pods n w1))) <= Z.of_nat m * ResolveMaxUnavailable scaled c d ∧
       (m + 2 <= passes n es)%nat) →
  (∀ a, a ∈ as_Agents (as_Spec s0) → ∃ want c,
     newAgentDeploy SetControllerReference MustHashSpec s0 a = Some (Ok want) ∧
     children w3 !! ChildAgentDeployName s0 (ag_Name a) = Some c ∧
     (Inj (=) (=) MustHashSpec → base_spec c = ad_Spec want) ∧
     in_step MustHash encode_object env (owned (ad_Name c)) (c, w3) ∧
     Z.of_nat (length (pods (ad_Name c) w3)) = DesiredReplicas c) ∧
  size (children w3) = length (as_Agents (as_Spec s0)) ∧
  cs3 = [] ∧ ass_Phase (as_Status (set_of w3)) = AgentSetPhaseRunning ∧
  ass_AgentCount (as_Status (set_of w3)) = Some (uint32 (Z.of_nat (length (as_Agents (as_Spec s0))))).
Proof.
  intros Hap Hdel Hval Hdes Hof Hok Hp1 Hrun Hp3 Hfleet.
  destruct (set_pass_in_sync s0 Hap desired Hdes Hdel Hval cs1 w0 w1 Hof Hok Hp1) as [Hs1 _].
  destruct (run_in_sync s0 Hap desired Hdes Hdel Hval es w1 w2 Hs1 Hrun) as [Hs2 Hchild].
  destruct (set_pass_idle s0 Hap desired Hdes Hdel Hval cs3 w2 w3 Hs2 Hp3) as (Hof3 & Hc3 & Ho3 & -> & Hcnt & now & ss & Hph).
  assert (∀ n c, children w2 !! n = Some c → child_ok s0 n c ∧
    in_step MustHash encode_object env (owned n) (c, w3) ∧ Z.of_nat (length (pods n w3)) = DesiredReplicas c) as Hin.
  { intros n c Hc. destruct (sync_child s0 desired n c w2 Hs2 Hc) as [Hokc [want Hw]]. split; [done|].
    pose proof (proj2 Hs1 n) as Hn1. rewrite Hw in Hn1. destruct Hn1 as (c1 & Hc1 & _ & Hok1).
    destruct (Hfleet n c1 Hc1) as (Hd & Hu & m & Hst & Hm).
    destruct (Hchild n c1 w1 Hc1 ltac:(done)) as (c2 & v & Hns & Hc2 & Hv). replace c2 with c in * by congruence.
    destruct (reconciles_roll_in_step ListPods RandomLowerCaseString Now MustHash MustHashService scaled encode_object api_text env
      (owned n) m _ _ _ Hns Hm (child_cluster s0 Hap n c1 Hok1) Hd Hu Hst) as (Ha & Ed & Hi). cbn [fst snd] in *.
    assert (same_fleet (pods n v) (pods n w3)) as Hv3 by (rewrite Hv; unfold Fleet.pods at 2; by rewrite Ho3).
    destruct Hi as [Hset Hrest]. cbn [fst snd] in *. rewrite Hv3 in Hset. split; [done|].
    rewrite <- (pods_live _ _ _ _ _ _ (cl_reliable _ _ _ _ _ _ _ _ _ (child_cluster s0 Hap n c Hokc)) w3).
    apply (settled_length _ (hash MustHash encode_object env c)); [lia|done]. }
  apply Validator.validate_well_formed in Hval as [Hwf Hne].
  assert (NoDup (map ag_Name (as_Agents (as_Spec s0)))) as Hnd.
  { by pose proof (Validator.wf_nodup _ _ _ Hwf) as [? _]%NoDup_app. }
  destruct (build_each SetControllerReference MustHashSpec s0 _ ∅ desired Hdes Hnd) as (Hsz & Heach & _); [intros a _; apply lookup_empty|].
  rewrite map_size_empty in Hsz. cbn in Hsz.
  assert (∀ n, is_Some (desired !! n) ↔ is_Some (children w2 !! n)) as Hdom.
  { intros n. pose proof (proj2 Hs2 n) as Hn. destruct (desired !! n) as [want|]; [|by rewrite Hn].
    destruct Hn as (c & -> & _). done. }
  rewrite Hc3. split_and!.
  - intros a Ha. destruct (Heach a Ha) as (want & Hnew & Hw). pose proof (proj2 Hs2 (ChildAgentDeployName s0 (ag_Name a))) as Hn.
    rewrite Hw in Hn. destruct Hn as (c & Hc & Hnu & _). exists want, c. destruct (Hin _ c Hc) as (Hokc & Hi & Hlen).
    pose proof Hokc as (Hname & _ & _ & _ & _ & Hh). rewrite Hname. split_and!; try done. intros Hinj. apply Hinj.
    rewrite <- Hh. destruct (newAgentDeploy_meta _ _ _ _ _ Hnew) as (_ & _ & _ & <- & _).
    unfold needsUpdate in Hnu. by destruct (String.eqb_spec (ad_annotation c KeyHash) (ad_annotation want KeyHash)).
  - rewrite <- Hsz. rewrite <- !size_dom. f_equal. apply set_eq. intros n. by rewrite !elem_of_dom, Hdom.
  - done.
  - rewrite Hph. apply health_aggregates_children. split.
    + intros ->. rewrite map_size_empty in Hsz. by destruct (as_Agents (as_Spec s0)).
    + intros n Hn. apply Hdom in Hn as [c Hc]. unfold child_phase. rewrite Hc. cbn.
      destruct (Hin n c Hc) as (_ & (_ & _ & _ & _ & _ & _ & Hrunning) & _). cbn [fst] in Hrunning. by rewrite Hrunning.
  - by rewrite Hcnt, Hsz.
Qed.
End mesh.
(** ** The mesh in memory *)
Record MeshMem := mkMeshMem { mm_mem : MemCluster; mm_ads : gmap string AgentDeploy; mm_set : AgentSet }.
Definition mm_put_mem (m : MemCluster) (w : MeshMem) : MeshMem := mkMeshMem m (mm_ads w) (mm_set w).
Definition mm_put_ads (m : gmap string AgentDeploy) (w : MeshMem) : MeshMem := mkMeshMem (mm_mem w) m (mm_set w).
Definition mm_pods (w : MeshMem) : gmap NamespacedName Pod := mem_pods (mm_mem w).
Definition mm_put_pods (v : gmap NamespacedName Pod) (w : MeshMem) : MeshMem :=
  let m := mm_mem w in mm_put_mem (mkCluster v (mem_svcs m) (mem_deps m) (mem_cms m) (mem_clock m)) w.

Section memory.
Context (s0 : AgentSet).
#[local] Unset Default Proof Using.

Definition mm_good (kc : string * AgentDeploy) : Prop := ad_Name kc.2 = kc.1 ∧ ad_Namespace kc.2 = as_Namespace s0.
#[local] Instance mm_good_dec kc : Decision (mm_good kc).
Proof. unfold mm_good. apply _. Defined.
Definition mm_children (w : MeshMem) : gmap string AgentDeploy := filter mm_good (mm_ads w).

(** The pods of the child of that name, by their labels. *)
Definition mine_of (n : string) (kp : NamespacedName * Pod) : Prop :=
  (key_of kp.2 = kp.1 ∧ om_Namespace (pod_meta kp.2) = as_Namespace s0 ∧
   om_Labels (pod_meta kp.2) !! KeyAgentSetName = Some (as_Name s0) ∧
   om_Labels (pod_meta kp.2) !! KeyManagedBy = Some ControllerAgentDeploy ∧
   ChildAgentDeployName s0 <$> om_Labels (pod_meta kp.2) !! KeyAgentDeployName = Some n) ∧ terminating kp.2 = false.
#[local] Instance mine_of_dec n kp : Decision (mine_of n kp).
Proof. unfold mine_of. apply _. Defined.
Definition mm_owned (n : string) (w : MeshMem) : gmap NamespacedName Pod := filter (mine_of n) (mm_pods w).

#[local] Instance mm_set_client : Client MeshMem AgentSet := {|
  objs w := {[ key_of (mm_set w) := mm_set w ]};
  Get k w := (w, if decide (k = key_of (mm_set w)) then Ok (mm_set w) else Err NotFound);
  Create s w := (w, Some AlreadyExists); Update s w := (mkMeshMem (mm_mem w) (mm_ads w) s, None); Delete s w := (w, Some NotFound)
|}.
#[local] Instance mm_ad_client : Client MeshMem AgentDeploy := {|
  objs w := kmap (mkKey (as_Namespace s0)) (mm_children w);
  Get k w := (w, match (if decide (nn_namespace k = as_Namespace s0) then mm_children w !! nn_name k else None) with
                 | Some c => Ok c | None => Err NotFound end);
  Create c w := match mm_children w !! ad_Name c with
                | Some _ => (w, Some AlreadyExists) | None => (mm_put_ads (<[ad_Name c := c]> (mm_ads w)) w, None) end;
  Update c w := match mm_children w !! ad_Name c with
                | Some _ => (mm_put_ads (<[ad_Name c := c]> (mm_ads w)) w, None) | None => (w, Some NotFound) end;
  Delete c w := match mm_children w !! ad_Name c with
                | Some _ => (mm_put_ads (delete (ad_Name c) (mm_ads w)) w, None) | None => (w, Some NotFound) end
|}.
#[local] Instance mm_svc_client : Client MeshMem Service := part_client mm_mem mm_put_mem.
#[local] Instance mm_dep_client : Client MeshMem Deployment := part_client mm_mem mm_put_mem.
#[local] Instance mm_pod_client : Client MeshMem Pod := part_client mm_pods mm_put_pods.

Definition mm_list_ads (ns : string) (labels : gmap string string) (w : MeshMem) : MeshMem * result ApiError (list AgentDeploy) :=
  (w, Ok (map_to_list (mm_children w)).*2).
Definition mm_list (ns : string) (labels : gmap string string) (w : MeshMem) : MeshMem * result ApiError (list Pod) :=
  let '(v, r) := mem_list ns labels (mm_pods w) in (mm_put_pods v w, r).
Definition mm_suffix (w : MeshMem) : MeshMem * string := let '(v, s) := mem_suffix (mm_pods w) in (mm_put_pods v w, s).
Definition mm_now (w : MeshMem) : MeshMem * Time := let '(m, t) := mem_now (mm_mem w) in (mm_put_mem m w, t).
Definition mm_patch_set (s : AgentSet) (ss : AgentSetStatus) (w : MeshMem) : MeshMem * option ApiError :=
  (mkMeshMem (mm_mem w) (mm_ads w) (as_with_status ss (mm_set w)), None).
Definition mm_patch_child (c : AgentDeploy) (st : AgentDeployStatus) (w : MeshMem) : MeshMem * option ApiError :=
  (mm_put_ads (<[ad_Name c := ad_with_status st c]> (mm_ads w)) w, None).

Lemma child_name_inj a b : ChildAgentDeployName s0 a = ChildAgentDeployName s0 b → a = b.
Proof. apply ChildAgentDeployName_inj. Qed.

Lemma mm_owned_of n c w : ad_Namespace c = as_Namespace s0 → spec_AgentSetName (ad_Spec c) = as_Name s0 →
  ChildAgentDeployName s0 (ag_Name (spec_Agent (ad_Spec c))) = n →
  mem_owned c (mm_pods w) = mm_owned n w.
Proof.
  intros Hns Hset Hag. unfold mem_owned, mm_owned. rewrite map_filter_filter. apply map_filter_ext. intros k p _.
  unfold mine_of, Fleet.mine. cbn [fst snd]. rewrite Hns. unfold owned_labels.
  rewrite !AgentSets.insert_subseteq_iff by by AgentSets.map_lookups. rewrite Hset.
  assert (om_Labels (pod_meta p) !! KeyAgentDeployName = Some (ag_Name (spec_Agent (ad_Spec c))) ↔
          ChildAgentDeployName s0 <$> om_Labels (pod_meta p) !! KeyAgentDeployName = Some n) as ->.
  { rewrite <- Hag. destruct (om_Labels (pod_meta p) !! KeyAgentDeployName); cbn; [|done].
    split; [by intros [= ->]|]. by intros [= ->%child_name_inj]. }
  pose proof (map_empty_subseteq (om_Labels (pod_meta p))). tauto.
Qed.

Abbreviation mm_same := (same mm_set mm_children mm_owned).

Lemma mm_put_pods_same_but n v w :
  (∀ m, m ≠ n → filter (mine_of m) v = filter (mine_of m) (mm_pods w)) → same_but mm_set mm_children mm_owned n w (mm_put_pods v w).
Proof. intros Hv. split_and!; [done|done|]. intros m Hm. apply Hv, Hm. Qed.

Lemma mine_of_other n m kp : mine_of n kp → m ≠ n → ¬ mine_of m kp.
Proof. intros [(_ & _ & _ & _ & E) _] Hm [(_ & _ & _ & _ & E') _]. congruence. Qed.

Lemma mm_fleet_keeps `{GoRange} n c spec h :
  ad_Namespace c = as_Namespace s0 → spec_AgentSetName (ad_Spec c) = as_Name s0 →
  ChildAgentDeployName s0 (ag_Name (spec_Agent (ad_Spec c))) = n →
  fleet_calls_keep mm_list mm_suffix c spec h (mm_owned n) (same_but mm_set mm_children mm_owned n).
Proof.
  intros Hns Hset Hag. split.
  - intros w. apply mm_put_pods_same_but. done.
  - intros w p Hp. unfold mm_owned in Hp. apply map_lookup_filter_Some in Hp as [Hp Hmine]. cbn.
    destruct (well_keyed (mm_pods w) !! key_of p); apply mm_put_pods_same_but; [|done]. intros m Hm. rewrite map_filter_delete. apply delete_id.
    apply map_lookup_filter_None. right. intros q Hq. replace q with p by congruence. by apply (mine_of_other n).
  - intros w r. etrans; [apply (mm_put_pods_same_but n (mm_pods w)); done|].
    change (mm_suffix w) with (mm_put_pods (mm_pods w) w, (mem_suffix (mm_pods w)).2). cbn [fst snd].
    set (q := newPod c r spec h _). set (w1 := mm_put_pods (mm_pods w) w).
    change (Create q w1) with (let '(v, e) := Create q (mm_pods w) in (mm_put_pods v w1, e)). cbn [Create memory_client].
    destruct (well_keyed _ !! key_of q); [by apply mm_put_pods_same_but|].
    apply mm_put_pods_same_but. intros m Hm. cbn [fst].
    assert (mm_pods w !! key_of q = None) as Hfresh by apply mem_fresh.
    rewrite map_filter_insert_not'; [done| |by intros y; rewrite Hfresh].
    apply (mine_of_other n); [|done].
    assert (owned_labels c ⊆ om_Labels (pod_meta q)) as Hl by apply pod_labels_owned.
    unfold owned_labels in Hl. rewrite !AgentSets.insert_subseteq_iff in Hl by by AgentSets.map_lookups.
    destruct Hl as (H1 & H2 & H3 & _). split; [|done]. cbn [fst snd]. rewrite H1, H2, H3, Hset. cbn. rewrite Hag.
    split_and!; done.
Qed.
Lemma mm_children_insert n c w : mm_good (n, c) → mm_children (mm_put_ads (<[n := c]> (mm_ads w)) w) = <[n := c]> (mm_children w).
Proof. intros Hg. apply map_filter_insert_True, Hg. Qed.

Lemma mm_keeps_mem O `{!HasMeta O} `{!Client MemCluster O} :
  (∀ k w, mem_pods (Get (O := O) k w).1 = mem_pods w) → (∀ o w, mem_pods (Create (O := O) o w).1 = mem_pods w) →
  (∀ o w, mem_pods (Delete (O := O) o w).1 = mem_pods w) → @keeps MeshMem mm_same O _ (part_client mm_mem mm_put_mem).
Proof.
  intros Hg Hc Hd.
  assert (∀ w m, mem_pods m = mm_pods w → mm_same w (mm_put_mem m w)) as Hput.
  { intros w m Hm. split_and!; [done|done|]. intros n. unfold mm_owned, mm_pods. cbn. by rewrite Hm. }
  split; intros x w; cbn.
  - specialize (Hg x (mm_mem w)). destruct (Get x (mm_mem w)). by apply Hput.
  - specialize (Hc x (mm_mem w)). destruct (Create x (mm_mem w)). by apply Hput.
  - specialize (Hd x (mm_mem w)). destruct (Delete x (mm_mem w)). by apply Hput.
Qed.

Lemma mm_service_keeps : keeps mm_same Service.
Proof. apply mm_keeps_mem; intros x w; cbn; by repeat case_match. Qed.
Lemma mm_deployment_keeps : keeps mm_same Deployment.
Proof. apply mm_keeps_mem; intros x w; cbn; by repeat case_match. Qed.

Lemma memory_apiserver `{GoRange} MustHash enc env :
  apiserver mm_list_ads mm_list None mm_suffix mm_now mm_patch_set mm_patch_child MustHash enc env
    mm_set mm_children mm_owned s0.
Proof.
  assert (∀ v w n, mm_owned n (mm_put_ads v w) = mm_owned n w) as Hads by done.
  split.
  - apply mm_service_keeps.
  - apply mm_deployment_keeps.
  - done.
  - done.
  - done.
  - intros w E. cbn. unfold key_of, obj_meta, AgentSet_HasMeta. by rewrite E, decide_True.
  - intros ss w w' [= <-]. done.
  - intros w. by eexists _, _.
  - intros w n c [_ Hc]%map_lookup_filter_Some. exact Hc.
  - intros c w Hn Hns. exists (mm_put_ads (<[ad_Name c := c]> (mm_ads w)) w), c. cbn. rewrite Hn.
    split_and!; try done. by apply mm_children_insert.
  - intros c w [c0 Hn] Hns. exists (mm_put_ads (<[ad_Name c := c]> (mm_ads w)) w), c. cbn. rewrite Hn.
    split_and!; try done. by apply mm_children_insert.
  - intros c w Hn. exists (mm_put_ads (delete (ad_Name c) (mm_ads w)) w). cbn. rewrite Hn.
    split_and!; try done. apply map_filter_delete.
  - intros w n c Hc. cbn. by rewrite decide_True, Hc.
  - intros w n c st w' Hc [= <-]. apply map_lookup_filter_Some in Hc as [_ [Hn Hns]]. cbn [fst snd] in *.
    split_and!; try done. rewrite Hn. by apply mm_children_insert.
  - intros n c Hn Hns Hset Hag. split.
    + apply (reliable_ext _ _ _ _ _ (λ w, mem_owned c (mm_pods w))); [intros w; by apply mm_owned_of|].
      apply (part_reliable mm_pods mm_put_pods mem_list mem_suffix); [done|]. apply memory_reliable.
    + split; [|done|by apply mm_fleet_keeps]. destruct mm_service_keeps as [Hg Hc Hd].
      split; intros; by apply same_same_but.
Qed.
End memory.
(** An AgentSet of two agents on an empty cluster. *)
Section example.
#[local] Existing Instances mm_set_client mm_svc_client mm_dep_client mm_pod_client.
#[local] Instance ex_ad_client : Client MeshMem AgentDeploy := mm_ad_client ex_pair.
#[local] Instance ex_watcher : Workset.ScaleWatcher NamespacedName unit := {| Workset.Track _ s := s; Workset.Forget _ s := s |}.

Definition ex_spec_hash (sp : AgentDeploySpec) : string := ag_Name (spec_Agent sp).
Abbreviation ex_set_reconcile := (AgentSets.Reconcile (mm_list_ads ex_pair) None mm_now mm_patch_set ex_spec_hash
  (λ _, "h") (λ _, "h") Validator.dns1035 Validator.any_url as_Name (λ _, "") (λ _, "")
  (Controller.image Controller.ex_env) (Controller.imagePullPolicy Controller.ex_env) (Controller.defaultResources Controller.ex_env)).
Abbreviation ex_child_reconcile := (Controller.Reconcile (S1 := unit) (S2 := unit) mm_list mm_suffix mm_now mm_patch_child (λ _, "new") (λ _, "h")
  ex_scaled ad_Name (λ _, "") Controller.ex_env).
Abbreviation ex_set_pass := (set_pass (mm_list_ads ex_pair) None mm_now mm_patch_set ex_spec_hash
  (λ _, "h") (λ _, "h") Validator.dns1035 Validator.any_url as_Name (λ _, "") (λ _, "") Controller.ex_env mm_set).
Abbreviation ex_child_pass := (child_pass (S1 := unit) (S2 := unit) mm_list mm_suffix mm_now mm_patch_child (λ _, "new") (λ _, "h")
  ex_scaled ad_Name (λ _, "") Controller.ex_env mm_set (mm_children ex_pair) (mm_owned ex_pair)).

(** The pods come up. *)
Definition mm_up (w : MeshMem) : MeshMem := mm_put_pods (pod_up <$> mm_pods w) w.
Definition ex_ctl (w : MeshMem) : @Controller.CtlSt MeshMem unit unit := Controller.mkCtl (mkSt (mm_up w) []) tt tt.
Definition ex_set_next (w : MeshMem) : MeshMem :=
  match ex_set_reconcile (mkKey "ns" "set") (mkChSt w []) with Some (st, _) => ch_world st | None => w end.
Definition ex_child_next (n : string) (w : MeshMem) : MeshMem :=
  world (Controller.ctl (ex_child_reconcile (mkKey "ns" n) (ex_ctl w)).1).

Lemma ex_set_next_pass w :
  om_key (as_meta (mm_set w)) = mkKey "ns" "set" →
  (match ex_set_reconcile (mkKey "ns" "set") (mkChSt w []) with Some (_, None) => true | _ => false end) = true →
  ex_set_pass (match ex_set_reconcile (mkKey "ns" "set") (mkChSt w []) with Some (st, _) => ch_calls st | None => [] end) w (ex_set_next w).
Proof.
  intros Hk Hok. unfold ex_set_next, set_pass. rewrite Hk.
  destruct (ex_set_reconcile (mkKey "ns" "set") (mkChSt w [])) as [[st [e|]]|]; [done| |done]. by exists st.
Qed.

Lemma ex_child_next_pass n w :
  as_Namespace (mm_set w) = "ns" → is_Some (mm_children ex_pair w !! n) →
  (ex_child_reconcile (mkKey "ns" n) (ex_ctl w)).2 = None → ex_child_pass n w (ex_child_next n w).
Proof.
  intros Hns Hc Hok. split; [done|]. exists (mm_up w), (ex_ctl w), (ex_child_reconcile (mkKey "ns" n) (ex_ctl w)).1.
  assert (∀ m, mm_owned ex_pair m (mm_up w) = pod_up <$> mm_owned ex_pair m w) as Hup.
  { intros m. unfold mm_owned, mm_up. change (mm_pods (mm_put_pods ?v w)) with v. apply map_eq. intros k. apply option_eq. intros p.
    rewrite lookup_fmap_Some. setoid_rewrite map_lookup_filter_Some. rewrite lookup_fmap_Some. split.
    - intros [(q & <- & Hq) Hm]. by exists q.
    - intros (q & <- & Hq & Hm). split; [by exists q|done]. }
  assert (∀ m, pods (mm_owned ex_pair m) (mm_up w) = pod_up <$> pods (mm_owned ex_pair m) w) as Hpods.
  { intros m. unfold pods. rewrite Hup, map_to_list_fmap, <- !list_fmap_compose. apply list_fmap_ext. by intros ? []. }
  split_and!; [done|done| | |done| |done].
  - intros m r. by rewrite Hpods, up_hashes.
  - intros p [_ Hp]%live_elem. rewrite Hpods in Hp. by apply list_elem_of_fmap in Hp as (q & -> & _).
  - rewrite Hns. rewrite <- Hok. apply surjective_pairing.
Qed.

Definition ex_mesh0 : MeshMem := mkMeshMem (mkCluster ∅ ∅ ∅ ∅ 7) ∅ ex_pair.
Definition ex_mesh1 : MeshMem := ex_set_next ex_mesh0.
Definition ex_events : list event :=
  [ChildPass "set-a"; ChildPass "set-b"; SetPass; ChildPass "set-b"; ChildPass "set-a"].
Definition ex_next (e : event) (w : MeshMem) : MeshMem :=
  match e with SetPass => ex_set_next w | ChildPass n => ex_child_next n w end.
Definition ex_mesh2 : MeshMem := foldl (flip ex_next) ex_mesh1 ex_events.
Definition ex_mesh3 : MeshMem := ex_set_next ex_mesh2.
Lemma ex_first_children n c : mm_children ex_pair ex_mesh1 !! n = Some c →
  (n = "set-a" ∨ n = "set-b") ∧ DesiredReplicas c = 1 ∧ pods (mm_owned ex_pair n) ex_mesh1 = [].
Proof.
  intros Hc%elem_of_map_to_list.
  assert (Forall (λ nc, (nc.1 = "set-a" ∨ nc.1 = "set-b") ∧ DesiredReplicas nc.2 = 1 ∧ pods (mm_owned ex_pair nc.1) ex_mesh1 = [])
            (map_to_list (mm_children ex_pair ex_mesh1))) as Hall.
  { apply (bool_decide_eq_true _). vm_compute. reflexivity. }
  by apply (proj1 (Forall_forall _ _) Hall (n, c)).
Qed.

Abbreviation ex_run := (mesh_run (S1 := unit) (S2 := unit) (mm_list_ads ex_pair) mm_list None mm_suffix mm_now mm_patch_set mm_patch_child
  (λ _, "new") ex_spec_hash (λ _, "h") (λ _, "h") ex_scaled Validator.dns1035 Validator.any_url as_Name ad_Name
  (λ _, "") (λ _, "") Controller.ex_env mm_set (mm_children ex_pair) (mm_owned ex_pair)).

Lemma ex_first_pass : ∃ cs, ex_set_pass cs ex_mesh0 ex_mesh1.
Proof. eexists. apply ex_set_next_pass; vm_compute; reflexivity. Qed.
Lemma ex_last_pass : ∃ cs, ex_set_pass cs ex_mesh2 ex_mesh3.
Proof. eexists. apply ex_set_next_pass; vm_compute; reflexivity. Qed.

(** Every event of the run goes through. *)
Definition ex_event_ok (e : event) (w : MeshMem) : bool :=
  match e with
  | SetPass => bool_decide (om_key (as_meta (mm_set w)) = mkKey "ns" "set") &&
               match ex_set_reconcile (mkKey "ns" "set") (mkChSt w []) with Some (_, None) => true | _ => false end
  | ChildPass n => bool_decide (as_Namespace (mm_set w) = "ns") && bool_decide (is_Some (mm_children ex_pair w !! n)) &&
                   match (ex_child_reconcile (mkKey "ns" n) (ex_ctl w)).2 with None => true | Some _ => false end
  end.
Fixpoint ex_run_ok (es : list event) (w : MeshMem) : bool :=
  match es with [] => true | e :: es => ex_event_ok e w && ex_run_ok es (ex_next e w) end.

Lemma ex_run_runs es : ∀ w, ex_run_ok es w = true → ex_run es w (foldl (flip ex_next) w es).
Proof.
  induction es as [|e es IH]; intros w Hok; [done|]. cbn [ex_run_ok] in Hok. apply andb_true_iff in Hok as [He Hes].
  exists (ex_next e w). split; [|by apply IH]. destruct e as [|n]; cbn [ex_event_ok] in He; rewrite ?andb_true_iff, ?bool_decide_eq_true in He.
  - destruct He as [Hk Hok]. eexists. by apply ex_set_next_pass.
  - destruct He as [[Hns Hc] Hok]. apply ex_child_next_pass; [done|done|]. by destruct (ex_child_reconcile _ _).2.
Qed.

Lemma ex_events_run : ex_run ex_events ex_mesh1 ex_mesh2.
Proof. apply ex_run_runs. vm_compute. reflexivity. Qed.

(** The two agents come up in two passes each. *)
Lemma mesh_comes_up_witness :
  ass_Phase (as_Status (mm_set ex_mesh3)) = AgentSetPhaseRunning ∧ size (mm_children ex_pair ex_mesh3) = 2%nat.
Proof.
  destruct ex_first_pass as [cs1 H1]. destruct ex_last_pass as [cs3 H3]. pose proof ex_events_run as H2. pose proof ex_first_children as H4.
  revert H1 H2 H3 H4. generalize ex_mesh1 ex_mesh2 ex_mesh3. intros w1 w2 w3 H1 H2 H3 H4.
  destruct (buildDesired None ex_spec_hash ex_pair) as [[desired|]|] eqn:Hd; [|by vm_compute in Hd..].
  pose proof (mesh_comes_up (S1 := unit) (S2 := unit) (mm_list_ads ex_pair) mm_list None mm_suffix mm_now mm_patch_set mm_patch_child
    (λ _, "new") ex_spec_hash (λ _, "h") (λ _, "h") ex_scaled Validator.dns1035 Validator.any_url as_Name ad_Name
    (λ _, "") (λ _, "") Controller.ex_env mm_set (mm_children ex_pair) (mm_owned ex_pair) ex_pair desired
    ex_mesh0 w1 w2 w3 cs1 cs3 ex_events (memory_apiserver ex_pair _ _ _) eq_refl
    ltac:(vm_compute; reflexivity) Hd (ex_intro _ zero_set_status eq_refl)) as Hmesh.
  destruct Hmesh as (_ & Hsz & _ & Hph & _); [| exact H1 | exact H2 | exact H3 | | split; [exact Hph|exact Hsz]].
  - intros n c Hc. apply map_lookup_filter_Some in Hc as [Hc _]. change (mm_ads ex_mesh0) with (∅ : gmap string AgentDeploy) in Hc. by rewrite lookup_empty in Hc.
  - intros n c Hc. destruct (H4 n c Hc) as (Hn & -> & ->). split_and!; [lia|lia|by intros r _; left|].
    exists 0%nat. split; [done|]. by destruct Hn as [-> | ->].
Defined.
End example.
End Mesh.
