(* ===== verification/Driftwatch.v ===== *)
(** * Drift watcher ([pkg/reconciler/agentdeploy/driftwatch/watcher.go])

    Deletes, at most [maxUnavailable] at a time, the pods that still serve an
    outdated AgentCard of a peer.  The daemon connection and its answers are
    parameters. *)
From S2P Require Import Prelude K8s Types PodSpecs Pods Workset Sampler.
#[local] Open Scope Z_scope.

Module Driftwatch.
Import Pods Workset.

(** ** Options of the constructor *)
Module WatcherOptions.
Record Config : Set := mkConfig {
  workers : Z; taskInterval : Duration; scrapeTimeout : Duration; reapInterval : Duration
}.
Definition defaults : Config := mkConfig 16 (60 * second) (10 * second) (10 * minute).
Definition WatcherOption := Config → Config.
Definition WithWorkers (n : Z) : WatcherOption := λ c, mkConfig n (taskInterval c) (scrapeTimeout c) (reapInterval c).
Definition WithTaskInterval (d : Duration) : WatcherOption := λ c, mkConfig (workers c) d (scrapeTimeout c) (reapInterval c).
Definition WithScrapeTimeout (d : Duration) : WatcherOption := λ c, mkConfig (workers c) (taskInterval c) d (reapInterval c).
Definition WithReapInterval (d : Duration) : WatcherOption := λ c, mkConfig (workers c) (taskInterval c) (scrapeTimeout c) d.
(** The configuration and the watch set of the component. *)
Definition NewWatcher (opts : list WatcherOption) : Config * WorkSet NamespacedName :=
  let c := foldl (λ c o, o c) defaults opts in
  (c, NewWorkSet "driftwatch" [Workset.WithWorkers (workers c); Workset.WithTaskInterval (taskInterval c)]).
End WatcherOptions.

(** [pb.PeerCardDrift]: the stable hash and the hash each pod reported, with
    the times they were observed at. *)
Record PbReportedHash : Set := mkPbReported { pb_Hash : string; pb_ObservedAt : option Time }.
Record PeerCardDrift : Set := mkPeerCardDrift {
  LatestHash : string;
  LatestHashObservedAt : option Time;
  ReportedHashes : gmap string PbReportedHash
}.

(** The inner loop of [stalePodNames] over one peer's reports. *)
Definition stale_reports `{GoRange} (latest : string) (reports : gmap string PbReportedHash)
    (stale : gset string) : gset string :=
  fold_left (λ stale (p : string * PbReportedHash),
    if negb (String.eqb (pb_Hash p.2) latest) then {[p.1]} ∪ stale else stale) (range_map reports) stale.

Definition stalePodNames `{GoRange} (drift : gmap string PeerCardDrift) : gset string :=
  fold_left (λ stale (p : string * PeerCardDrift),
    if String.eqb (LatestHash p.2) "" then stale
    else stale_reports (LatestHash p.2) (ReportedHashes p.2) stale) (range_map drift) ∅.

Inductive DriftError : Set :=
  | DriftGetFailed (e : ApiError)
  | DriftDialFailed (msg : string)
  | DriftScrapeFailed (msg : string)
  | DriftListFailed (e : ApiError)
  | DriftDeleteFailed (pod : string) (e : ApiError).

Definition pod_name (p : Pod) : string := om_Name (pod_meta p).
Definition by_name (a b : Pod) : bool := String.ltb (pod_name a) (pod_name b).

Definition drift_source_key (ad : AgentDeploy) : string :=
  ad_Namespace ad +:+ "/" +:+ spec_AgentSetName (ad_Spec ad).

Section watcher.
Context {W Src : Type} `{!Client W AgentDeploy} `{!Client W Pod} `{GoSort} `{GoRange}.
Context (dial : string → string → W → W * result string Src).
Context (GetPeerCardDrift : Src → string → W → W * result string (gmap string PeerCardDrift)).
Context (ListPods : string → gmap string string → W → W * result ApiError (list Pod)).
Context (ListAllAgentDeploys : W → W * result ApiError (list AgentDeploy)).
Context (GetScaledValueFromIntOrPercent : IntOrString → Z → bool → option Z).
Context (close : Src → W → W).

Record WatcherSt := mkWatcher {
  dw_watch : WorkSet NamespacedName;
  dw_sources : gmap string Src;
  dw_world : W;
  dw_deleted : list Pod            (** delete calls, in order *)
}.
Definition dw_on_world (w : W) (s : WatcherSt) : WatcherSt :=
  mkWatcher (dw_watch s) (dw_sources s) w (dw_deleted s).
Definition dw_Forget (k : NamespacedName) (s : WatcherSt) : WatcherSt :=
  mkWatcher (ws_Forget k (dw_watch s)) (dw_sources s) (dw_world s) (dw_deleted s).
Definition dw_Track (k : NamespacedName) (s : WatcherSt) : WatcherSt :=
  mkWatcher (ws_Track k (dw_watch s)) (dw_sources s) (dw_world s) (dw_deleted s).

Definition sourceFor (ad : AgentDeploy) (s : WatcherSt) : WatcherSt * result string Src :=
  match dw_sources s !! drift_source_key ad with
  | Some src => (s, Ok src)
  | None =>
      match dial (ad_Namespace ad) (spec_AgentSetName (ad_Spec ad)) (dw_world s) with
      | (w, Err e) => (dw_on_world w s, Err e)
      | (w, Ok src) =>
          (mkWatcher (dw_watch s) (<[drift_source_key ad := src]> (dw_sources s)) w (dw_deleted s),
           Ok src)
      end
  end.

Definition reapSources (s : WatcherSt) : WatcherSt :=
  match ListAllAgentDeploys (dw_world s) with
  | (w, Err _) => dw_on_world w s
  | (w, Ok items) =>
      let live := list_to_set (map drift_source_key items) : gset string in
      let dead := filter (λ p, p.1 ∉ live) (range_map (dw_sources s)) in
      mkWatcher (dw_watch s) (filter (λ p, p.1 ∈ live) (dw_sources s))
        (fold_left (λ w p, close p.2 w) dead w) (dw_deleted s)
  end.

Definition closeAllSources (s : WatcherSt) : WatcherSt :=
  mkWatcher (dw_watch s) ∅ (fold_left (λ w p, close p.2 w) (range_map (dw_sources s)) (dw_world s))
    (dw_deleted s).

(** The pods to delete in one pass. *)
Definition to_delete (stale : gset string) (pods : list Pod) (maxUnavailable : Z) : list Pod :=
  let l := sort_slice by_name
             (filter (λ p, terminating p = false ∧ pod_name p ∈ stale) pods) in
  if maxUnavailable <? Z.of_nat (length l) then take (Z.to_nat maxUnavailable) l else l.

Fixpoint delete_pods (l : list Pod) (s : WatcherSt) : WatcherSt * option DriftError :=
  match l with
  | [] => (s, None)
  | p :: l' =>
      let '(w, e) := Delete p (dw_world s) in
      let s := mkWatcher (dw_watch s) (dw_sources s) w (dw_deleted s ++ [p]) in
      match e with
      | Some e => if negb (IsNotFound e) then (s, Some (DriftDeleteFailed (pod_name p) e))
                  else delete_pods l' s
      | None => delete_pods l' s
      end
  end.

Definition rolling_out (ad : AgentDeploy) : bool :=
  negb (String.eqb (st_UpdateHash (ad_Status ad)) (st_CurrentHash (ad_Status ad))) &&
  negb (String.eqb (st_UpdateHash (ad_Status ad)) "").
Definition drift_deleting (ad : AgentDeploy) : bool :=
  match om_DeletionTimestamp (ad_meta ad) with Some t => negb (is_zero t) | None => false end.

Definition reconcileDrift (k : NamespacedName) (s : WatcherSt) : WatcherSt * option DriftError :=
  match Get (O := AgentDeploy) k (dw_world s) with
  | (w, Err e) =>
      let s := dw_on_world w s in
      if IsNotFound e then (dw_Forget k s, None) else (s, Some (DriftGetFailed e))
  | (w, Ok ad) =>
      let s := dw_on_world w s in
      if drift_deleting ad then (dw_Forget k s, None)
      else if negb (IsEnabled (ag_DriftReload (spec_Agent (ad_Spec ad)))) then (dw_Forget k s, None)
      else if rolling_out ad then (s, None)
      else
        match sourceFor ad s with
        | (s, Err m) => (s, Some (DriftDialFailed m))
        | (s, Ok src) =>
            match GetPeerCardDrift src (ag_Name (spec_Agent (ad_Spec ad))) (dw_world s) with
            | (w, Err m) => (dw_on_world w s, Some (DriftScrapeFailed m))
            | (w, Ok drift) =>
                let s := dw_on_world w s in
                let stale := stalePodNames drift in
                if bool_decide (stale = ∅) then (s, None)
                else
                  match ListPods (ad_Namespace ad) (owned_labels ad) (dw_world s) with
                  | (w, Err e) => (dw_on_world w s, Some (DriftListFailed e))
                  | (w, Ok pods) =>
                      let maxUnavailable :=
                        ResolveMaxUnavailable GetScaledValueFromIntOrPercent ad (Pods.DesiredReplicas ad) in
                      delete_pods (to_delete stale pods maxUnavailable) (dw_on_world w s)
                  end
            end
        end
  end.
End watcher.
Arguments WatcherSt W Src : clear implicits.

(** ** Stale pods *)
Section stale.
Context `{GoRange}.
#[local] Set Default Proof Using "Type*".

Lemma stale_reports_spec latest reports stale n :
  n ∈ stale_reports latest reports stale ↔
  n ∈ stale ∨ ∃ h, reports !! n = Some h ∧ pb_Hash h ≠ latest.
Proof.
  unfold stale_reports.
  assert (∀ l (stale : gset string), n ∈ fold_left (λ (stale : gset string) (p : string * PbReportedHash),
            if negb (String.eqb (pb_Hash p.2) latest) then {[p.1]} ∪ stale else stale) l stale ↔
            n ∈ stale ∨ ∃ h, (n, h) ∈ l ∧ pb_Hash h ≠ latest) as Hfold.
  { induction l as [|[m h] l IH]; intros st; cbn [fold_left fst snd].
    - split; [auto|]. intros [?|(h & Hin & _)]; [done|]. by apply elem_of_nil in Hin.
    - rewrite IH. setoid_rewrite elem_of_cons.
      destruct (String.eqb_spec (pb_Hash h) latest) as [E|Hne]; cbn [negb]; [naive_solver|].
      rewrite elem_of_union, elem_of_singleton. naive_solver. }
  rewrite Hfold. setoid_rewrite range_map_elem. done.
Qed.

(** A pod is stale when, for some peer with a stable hash, it reported
    another hash. *)
Definition reports_stale (drift : gmap string PeerCardDrift) (n : string) : Prop :=
  ∃ peer d h, drift !! peer = Some d ∧ LatestHash d ≠ ""%string ∧
              ReportedHashes d !! n = Some h ∧ pb_Hash h ≠ LatestHash d.

Lemma stalePodNames_spec drift n : n ∈ stalePodNames drift ↔ reports_stale drift n.
Proof.
  unfold stalePodNames, reports_stale.
  assert (∀ l (stale : gset string), n ∈ fold_left (λ (stale : gset string) (p : string * PeerCardDrift),
            if String.eqb (LatestHash p.2) "" then stale
            else stale_reports (LatestHash p.2) (ReportedHashes p.2) stale) l stale ↔
            n ∈ stale ∨ ∃ peer d h, (peer, d) ∈ l ∧ LatestHash d ≠ ""%string ∧
                                    ReportedHashes d !! n = Some h ∧ pb_Hash h ≠ LatestHash d) as Hfold.
  { induction l as [|[peer d] l IH]; intros st; cbn [fold_left fst snd].
    - split; [auto|]. intros [?|(? & ? & ? & Hin & _)]; [done|]. by apply elem_of_nil in Hin.
    - rewrite IH. setoid_rewrite elem_of_cons.
      destruct (String.eqb_spec (LatestHash d) "") as [He|Hne]; [naive_solver|].
      rewrite stale_reports_spec. naive_solver. }
  rewrite Hfold. setoid_rewrite range_map_elem. set_solver.
Qed.
End stale.

Section safety.
Context {W Src : Type} `{!Client W AgentDeploy} `{!Client W Pod} `{GoSort} `{GoRange}.
Context (dial : string → string → W → W * result string Src).
Context (GetPeerCardDrift : Src → string → W → W * result string (gmap string PeerCardDrift)).
Context (ListPods : string → gmap string string → W → W * result ApiError (list Pod)).
Context (scaled : IntOrString → Z → bool → option Z).
Abbreviation reconcileDrift := (reconcileDrift dial GetPeerCardDrift ListPods scaled).

Lemma delete_pods_prefix l (s s' : WatcherSt W Src) e :
  delete_pods l s = (s', e) →
  ∃ done rest, l = done ++ rest ∧ dw_deleted s' = dw_deleted s ++ done ∧ (e = None → rest = []).
Proof using.
  revert s. induction l as [|p l IH]; intros s; cbn [delete_pods].
  { intros [= <- <-]. exists [], []. by rewrite !app_nil_r. }
  destruct (Delete p (dw_world s)) as [w de].
  assert (∀ w, delete_pods l (mkWatcher (dw_watch s) (dw_sources s) w (dw_deleted s ++ [p])) = (s', e) →
     ∃ done rest, p :: l = done ++ rest ∧ dw_deleted s' = dw_deleted s ++ done ∧ (e = None → rest = []))
    as Hnext.
  { intros w0 (d & r & -> & Hd & Hr)%IH. exists (p :: d), r. cbn in *.
    by rewrite Hd, <- app_assoc. }
  destruct de as [de|]; [|apply Hnext]. destruct (IsNotFound de); [apply Hnext|].
  intros [= <- <-]. exists [p], l. by split_and!.
Qed.

Lemma to_delete_elem stale pods n p :
  p ∈ to_delete stale pods n → p ∈ pods ∧ terminating p = false ∧ pod_name p ∈ stale.
Proof using.
  unfold to_delete. intros Hp.
  assert (p ∈ sort_slice by_name (filter (λ p, terminating p = false ∧ pod_name p ∈ stale) pods)) as Hin.
  { case_match; [|done]. by apply (subseteq_take (Z.to_nat n)). }
  rewrite sort_slice_perm in Hin. apply list_elem_of_filter in Hin as [[? ?] ?]. done.
Qed.

Lemma to_delete_length stale pods n : 0 <= n → Z.of_nat (length (to_delete stale pods n)) <= n.
Proof using. intros Hn. unfold to_delete. case_match; zbool; [rewrite length_take|]; lia. Qed.

(** Each of the pods a pass deletes. *)
Definition drift_target (drift : gmap string PeerCardDrift) (pods : list Pod)
    (p : Pod) : Prop :=
  p ∈ pods ∧ terminating p = false ∧ reports_stale drift (pod_name p).

Lemma to_delete_complete stale pods n p :
  p ∈ pods → terminating p = false → pod_name p ∈ stale → 0 <= n →
  p ∈ to_delete stale pods n ∨ Z.of_nat (length (to_delete stale pods n)) = n.
Proof using.
  intros Hp Ht Hs Hn. unfold to_delete. case_match; zbool.
  - right. rewrite length_take. lia.
  - left. rewrite sort_slice_perm. by apply list_elem_of_filter.
Qed.

Lemma rolling_out_false ad :
  rolling_out ad = false →
  st_UpdateHash (ad_Status ad) = st_CurrentHash (ad_Status ad) ∨ st_UpdateHash (ad_Status ad) = ""%string.
Proof using.
  unfold rolling_out. intros [E|E]%andb_false_iff; apply negb_false_iff, String.eqb_eq in E; auto.
Qed.

(** The AgentDeploy wants its drifted pods replaced now. *)
Definition drift_eligible (ad : AgentDeploy) : Prop :=
  drift_deleting ad = false ∧ IsEnabled (ag_DriftReload (spec_Agent (ad_Spec ad))) = true ∧
  (st_UpdateHash (ad_Status ad) = st_CurrentHash (ad_Status ad) ∨
   st_UpdateHash (ad_Status ad) = ""%string).

Lemma drift_eligible_rolling ad : drift_eligible ad → rolling_out ad = false.
Proof using.
  unfold rolling_out. intros (_ & _ & [-> | ->]); rewrite String.eqb_refl; [done|].
  apply andb_false_r.
Qed.

(** What a pass that got as far as deleting saw and did. *)
Definition drift_pass (k : NamespacedName) (s : WatcherSt W Src) (done : list Pod) : Prop :=
  ∃ w ad src s1 drift w3 pods w4,
    Get (O := AgentDeploy) k (dw_world s) = (w, Ok ad) ∧
    sourceFor dial ad (dw_on_world w s) = (s1, Ok src) ∧
    GetPeerCardDrift src (ag_Name (spec_Agent (ad_Spec ad))) (dw_world s1) = (w3, Ok drift) ∧
    ListPods (ad_Namespace ad) (owned_labels ad) w3 = (w4, Ok pods) ∧
    drift_eligible ad ∧ (∀ p, p ∈ done → drift_target drift pods p) ∧
    Z.of_nat (length done) <= ResolveMaxUnavailable scaled ad (Pods.DesiredReplicas ad).

(** What a pass without error must have done for the AgentDeploy it read:
    the daemon answered, and no pod is reported stale, or the pods were listed
    and each target was deleted or the batch is full. *)
Definition drift_handled (ad : AgentDeploy) (s : WatcherSt W Src) (done : list Pod) : Prop :=
  ∃ src s1 drift w3,
    sourceFor dial ad s = (s1, Ok src) ∧
    GetPeerCardDrift src (ag_Name (spec_Agent (ad_Spec ad))) (dw_world s1) = (w3, Ok drift) ∧
    ((∀ n, ¬ reports_stale drift n) ∨
     ∃ w4 pods, ListPods (ad_Namespace ad) (owned_labels ad) w3 = (w4, Ok pods) ∧
       ∀ p, drift_target drift pods p →
         p ∈ done ∨
         Z.of_nat (length done) = ResolveMaxUnavailable scaled ad (Pods.DesiredReplicas ad)).

Lemma maxUnavailable_pos ad : 1 <= ResolveMaxUnavailable scaled ad (Pods.DesiredReplicas ad).
Proof using. unfold ResolveMaxUnavailable. repeat case_match; zbool; lia. Qed.

Lemma sourceFor_keeps ad (s s1 : WatcherSt W Src) r :
  sourceFor dial ad s = (s1, r) → dw_deleted s1 = dw_deleted s.
Proof using.
  unfold sourceFor. destruct (dw_sources _ !! _); [by intros [= <- <-]|].
  destruct (dial _ _ _) as [w1 [?|?]]; by intros [= <- <-].
Qed.

(** An early return deletes nothing, and is an error or not owed anything. *)
Ltac nothing_deleted :=
  intros [= <- <-]; exists []; rewrite app_nil_r; split; [auto|]; split; [auto|];
  try discriminate; intros _ ? ? [= <- <-] ?.

(** C33: the drift watcher deletes only live pods of an AgentDeploy that
    has drift reload enabled and is not rolling out, only those that reported
    an outdated card for some peer with a stable one, and at most
    [maxUnavailable] of them in a pass.  And it does delete them: a pass
    without error over such an AgentDeploy got the daemon's answer, and
    unless that reports no pod stale it listed the pods and has asked for the
    deletion of every live one reported stale, or of [maxUnavailable] of
    them. *)
Theorem drift_deletes_only_stale_pods k (s s' : WatcherSt W Src) e :
  reconcileDrift k s = (s', e) →
  ∃ done, dw_deleted s' = dw_deleted s ++ done ∧ (done = [] ∨ drift_pass k s done) ∧
    (e = None → ∀ w ad, Get (O := AgentDeploy) k (dw_world s) = (w, Ok ad) → drift_eligible ad →
       drift_handled ad (dw_on_world w s) done).
Proof using.
  unfold reconcileDrift. destruct (Get k (dw_world s)) as [w [ad|ge]] eqn:Hg.
  2:{ destruct (IsNotFound ge); intros [= <- <-]; exists []; rewrite app_nil_r; naive_solver. }
  destruct (drift_deleting ad) eqn:Hdel0;
    [nothing_deleted; by match goal with H : drift_eligible _ |- _ => destruct H; congruence end|].
  destruct (IsEnabled _) eqn:Hen; cbn [negb];
    [|nothing_deleted; match goal with H : drift_eligible _ |- _ => destruct H as (_ & ? & _); congruence end].
  destruct (rolling_out ad) eqn:Hroll;
    [nothing_deleted; match goal with H : drift_eligible _ |- _ =>
       apply drift_eligible_rolling in H; congruence end|].
  destruct (sourceFor dial ad (dw_on_world w s)) as [s1 r] eqn:Hsrc.
  pose proof (sourceFor_keeps _ _ _ _ Hsrc) as Hd1. cbn in Hd1.
  destruct r as [src|m]; [|nothing_deleted].
  destruct (GetPeerCardDrift src _ _) as [w2 [drift|m]] eqn:Hdr; [|nothing_deleted].
  case_bool_decide as Hnone.
  { nothing_deleted. exists src, s1, drift, w2. split; [done|]. split; [done|].
    left. intros n Hn%stalePodNames_spec. set_solver. }
  cbn [dw_on_world dw_world].
  destruct (ListPods _ _ _) as [w3 [pods|le]] eqn:Hlp; [|nothing_deleted].
  intros (done & rest & Hl & Hdel & Hr)%delete_pods_prefix. exists done.
  pose proof (maxUnavailable_pos ad) as Hmu.
  split; [by rewrite Hdel; cbn; rewrite Hd1|]. split.
  - right. exists w, ad, src, s1, drift, w2, pods, w3. do 4 (split; [done|]).
    split; [split_and!; [done..|by apply rolling_out_false]|]. split.
    + intros p Hp. assert (p ∈ done ++ rest) as Hin by (apply elem_of_app; by left).
      rewrite <- Hl in Hin. apply to_delete_elem in Hin as (? & ? & Hst).
      split_and!; [done|done|]. by apply stalePodNames_spec.
    + pose proof (to_delete_length (stalePodNames drift) pods
        (ResolveMaxUnavailable scaled ad (Pods.DesiredReplicas ad)) ltac:(lia)) as Hlen.
      rewrite Hl, length_app in Hlen. lia.
  - intros He ? ? [= <- <-] _. exists src, s1, drift, w2. split; [done|]. split; [done|].
    right. exists w3, pods. split; [done|].
    intros p (Hp & Ht & Hst). rewrite (Hr He), app_nil_r in Hl. rewrite <- Hl.
    apply to_delete_complete; [done|done|by apply stalePodNames_spec|lia].
Qed.
End safety.

(** ** Witness: two of three pods are stale, one may go at a time *)
Section example.
Abbreviation DW := (gmap NamespacedName AgentDeploy * gmap NamespacedName Pod)%type (only parsing).
#[local] Instance ex_dw_ad : Client DW AgentDeploy := part_client fst (λ v w, (v, w.2)).
#[local] Instance ex_dw_pod : Client DW Pod := part_client snd (λ v w, (w.1, v)).

Definition ex_drift_ad : AgentDeploy :=
  mkAgentDeploy (new_meta "ns" "set-a" ∅ ∅ [])
    (mkAgentDeploySpec
       (mkAbstractAgentDeploy "a" zero_pod_template None None None [] zero_scale None [] []
          (mkUpdateStrategy "RollingUpdate" (Some (mkRollingUpdateStrategy (Some (FromInt 1))))) ""
          (Some (mkDriftReload (Some true)))) "set" (Some 3) zero_topology) zero_status.
Definition ex_drift_pod (n : string) : Pod :=
  mkPod (new_meta "ns" n (owned_labels ex_drift_ad) ∅ []) ex_spec [].
Definition ex_drift : gmap string PeerCardDrift :=
  let rep (h : string) := mkPbReported h None in
  <["b"%string := mkPeerCardDrift "new" None (<["p1"%string := rep "old"%string]>
     (<["p2"%string := rep "new"%string]> (<["p3"%string := rep "old"%string]> ∅)))]>
  (<["c"%string := mkPeerCardDrift "" None (<["p2"%string := rep "x"%string]> ∅)]> ∅).
Definition ex_dw_pods : list Pod := map ex_drift_pod ["p3"; "p1"; "p2"]%string.
Definition ex_dw : WatcherSt DW unit :=
  mkWatcher (NewWorkSet "ex" [WithTaskInterval 60]) ∅
    (<[mkKey "ns" "set-a" := ex_drift_ad]> ∅,
     list_to_map (map (λ p, (key_of p, p)) ex_dw_pods)) [].
Definition ex_dw_run := reconcileDrift (λ _ _ w, (w, Ok tt)) (λ _ _ w, (w, Ok ex_drift))
  (λ ns labels w, (w, Ok ex_dw_pods)) ex_scaled (mkKey "ns" "set-a") ex_dw.

Lemma drift_deletes_only_stale_pods_witness :
  map pod_name (dw_deleted ex_dw_run.1) = ["p1"%string] ∧
  ∃ done, dw_deleted ex_dw_run.1 = dw_deleted ex_dw ++ done ∧
    drift_handled (λ _ _ w, (w, Ok tt)) (λ _ _ w, (w, Ok ex_drift))
      (λ ns labels w, (w, Ok ex_dw_pods)) ex_scaled ex_drift_ad ex_dw done.
Proof.
  split; [vm_compute; reflexivity|].
  destruct (drift_deletes_only_stale_pods (λ _ _ w, (w, Ok tt)) (λ _ _ w, (w, Ok ex_drift))
           (λ ns labels w, (w, Ok ex_dw_pods)) ex_scaled (mkKey "ns" "set-a") ex_dw ex_dw_run.1
           ex_dw_run.2 (surjective_pairing _)) as (done & Hd & _ & Hc).
  exists done. split; [exact Hd|].
  apply (Hc ltac:(vm_compute; reflexivity) (dw_world ex_dw)); [vm_compute; reflexivity|].
  split; [reflexivity|]. split; [reflexivity|]. left. reflexivity.
Defined.
End example.
End Driftwatch.
