(* ===== verification/Lifecycle.v ===== *)
(** * The life of the background components: [Start], reaper, connections

    The sampler ([scaling/sampling/sampler.go]) and the drift watcher
    ([driftwatch/watcher.go]) run the same way.  [Start] spawns a reaper, runs
    the worker pool until it is cancelled, and closes the cached daemon
    connections (the sampler flushes its histories first).  Workers take a
    connection from the cache or dial one while they process a key; the reaper
    lists the AgentDeploys and then, under the lock, evicts the connections of
    AgentSets none refers to.  What the components promise to this life cycle
    is the class [SourceCache]; the interleavings of the goroutines are a step
    relation, a method under the lock being one step. *)
From S2P Require Import Prelude K8s Types Workset WorkPool Samples Store Sampler Driftwatch.
#[local] Open Scope Z_scope.

Module Lifecycle.
Import K8s Types Workset WorkPool.

(** ** Connections *)
(** Connections are numbered in the order they are made; those closed so far
    are listed in order. *)
Record Conns : Set := mkConns { made : nat; closed : list nat }.

(** What the next call of the dialer returns. *)
Inductive Dial : Set := DialOk | DialErr (e : string).
Definition dial_with (d : Dial) (_ _ : string) (c : Conns) : Conns * result string nat :=
  match d with
  | DialOk => (mkConns (S (made c)) (closed c), Ok (made c))
  | DialErr e => (c, Err e)
  end.

Lemma range_filter `{GoRange} (P : string * nat → Prop) `{∀ x, Decision (P x)} (m : gmap string nat) :
  filter P (range_map m) ≡ₚ map_to_list (filter P m).
Proof. rewrite range_map_perm. apply NoDup_Permutation; [apply NoDup_filter, NoDup_map_to_list|apply NoDup_map_to_list|].
  intros [k x]. rewrite list_elem_of_filter, !elem_of_map_to_list, map_lookup_filter_Some. tauto.
Qed.

Section closer.
(** Whether a source is an [io.Closer]. *)
Context (closer : nat → bool).

(** [closeSource]; an error of [Close] is only logged. *)
Definition closeSource (src : nat) (c : Conns) : Conns :=
  if closer src then mkConns (made c) (closed c ++ [src]) else c.

Definition key_of_set (ad : AgentDeploy) : string := ad_Namespace ad +:+ "/" +:+ spec_AgentSetName (ad_Spec ad).
Definition live_keys (items : list AgentDeploy) : gset string := list_to_set (map key_of_set items).
Definition closable (l : list (string * nat)) : list nat := filter (λ x, closer x = true) l.*2.

(** What a component promises: its cache, and what its operations on it do.
    [at_stop] is what it does between the end of the pool and the closing. *)
Class SourceCache (S : Type) := {
  cache : S → gmap string nat;
  source_for : Dial → AgentDeploy → S → Conns → Conns * S * result string nat;
  reap : list AgentDeploy → S → Conns → Conns * S;
  close_all : S → Conns → Conns * S;
  at_stop : S → S;
  source_hit d ad s c x : cache s !! key_of_set ad = Some x → source_for d ad s c = (c, s, Ok x);
  source_dialled ad s c : cache s !! key_of_set ad = None →
    ∃ s', source_for DialOk ad s c = (mkConns (1 + made c) (closed c), s', Ok (made c)) ∧ cache s' = <[key_of_set ad := made c]> (cache s);
  source_failed e ad s c : cache s !! key_of_set ad = None → source_for (DialErr e) ad s c = (c, s, Err e);
  reap_law items s c c' s' : reap items s c = (c', s') →
    cache s' = filter (λ p, p.1 ∈ live_keys items) (cache s) ∧ made c' = made c ∧
    closed c' ≡ₚ closed c ++ closable (map_to_list (filter (λ p, p.1 ∉ live_keys items) (cache s)));
  close_all_law s c c' s' : close_all s c = (c', s') →
    cache s' = ∅ ∧ made c' = made c ∧ closed c' ≡ₚ closed c ++ closable (map_to_list (cache s));
  at_stop_law s : cache (at_stop s) = cache s
}.

Lemma close_fold (l : list (string * nat)) : ∀ c,
  fold_left (λ c p, closeSource p.2 c) l c = mkConns (made c) (closed c ++ closable l).
Proof.
  induction l as [|[k x] l IH]; intros [m cl]; cbn [fold_left]; [by rewrite app_nil_r|]. rewrite IH.
  unfold closeSource, closable. cbn [fmap list_fmap fst snd made closed]. rewrite filter_cons.
  destruct (closer x); cbn; [by rewrite <- app_assoc|done].
Qed.
Lemma closable_perm l l' : l ≡ₚ l' → closable l ≡ₚ closable l'.
Proof. intros Hp. unfold closable. by rewrite Hp. Qed.

(** ** The two components *)
Section components.
Context `{GoRange}.
#[local] Unset Default Proof Using.

#[export, refine] Instance sampler_cache {W} `{!Client W ConfigMap} : SourceCache (Sampler.SamplerSt nat * W) := {|
  cache s := Sampler.sources s.1;
  source_for d ad s c := let '(c, s1, r) := Sampler.sourceFor (dial_with d) ad s.1 c in (c, (s1, s.2), r);
  reap items s c := let '(c, s1) := Sampler.reapSources (λ c, (c, Ok items)) closeSource s.1 c in (c, (s1, s.2));
  close_all s c := let '(c, s1) := Sampler.closeAllSources closeSource s.1 c in (c, (s1, s.2));
  at_stop s := (s.1, Sampler.flushAll s.1 s.2)
|}.
Proof.
  - intros d ad [s w] c x E. unfold Sampler.sourceFor. change (Sampler.source_key ad) with (key_of_set ad). cbn in *. by rewrite E.
  - intros ad [s w] c E. unfold Sampler.sourceFor. change (Sampler.source_key ad) with (key_of_set ad). cbn in *. rewrite E. by eexists.
  - intros e ad [s w] c E. unfold Sampler.sourceFor. change (Sampler.source_key ad) with (key_of_set ad). cbn in *. by rewrite E.
  - intros items [s w] c c' s' E. unfold Sampler.reapSources in E. rewrite close_fold in E. injection E as <- <-. cbn. split_and!; try done.
    f_equiv. apply closable_perm, range_filter.
  - intros [s w] c c' s' E. unfold Sampler.closeAllSources in E. rewrite close_fold in E. injection E as <- <-. cbn. split_and!; try done.
    f_equiv. apply closable_perm, range_map_perm.
  - done.
Defined.

(** The watcher's world is the connections: the rest of its state is its own. *)
Definition with_conns {X} (c : Conns) (s : Driftwatch.WatcherSt X nat) : Driftwatch.WatcherSt Conns nat :=
  Driftwatch.mkWatcher (Driftwatch.dw_watch s) (Driftwatch.dw_sources s) c (Driftwatch.dw_deleted s).
Definition without_conns (s : Driftwatch.WatcherSt Conns nat) : Conns * Driftwatch.WatcherSt unit nat :=
  (Driftwatch.dw_world s,
   Driftwatch.mkWatcher (Driftwatch.dw_watch s) (Driftwatch.dw_sources s) tt (Driftwatch.dw_deleted s)).

#[export, refine] Instance watcher_cache : SourceCache (Driftwatch.WatcherSt unit nat) := {|
  cache s := Driftwatch.dw_sources s;
  source_for d ad s c := let '(s, r) := Driftwatch.sourceFor (dial_with d) ad (with_conns c s) in (without_conns s, r);
  reap items s c := without_conns (Driftwatch.reapSources (λ c, (c, Ok items)) closeSource (with_conns c s));
  close_all s c := without_conns (Driftwatch.closeAllSources closeSource (with_conns c s));
  at_stop s := s
|}.
Proof.
  - intros d ad [ws src [] del] c x E. unfold Driftwatch.sourceFor. change (Driftwatch.drift_source_key ad) with (key_of_set ad). cbn in *. by rewrite E.
  - intros ad [ws src [] del] c E. unfold Driftwatch.sourceFor. change (Driftwatch.drift_source_key ad) with (key_of_set ad). cbn in *. rewrite E. by eexists.
  - intros e ad [ws src [] del] c E. unfold Driftwatch.sourceFor. change (Driftwatch.drift_source_key ad) with (key_of_set ad). cbn in *. by rewrite E.
  - intros items [ws src [] del] c c' s' E. unfold Driftwatch.reapSources in E. cbn in E. rewrite close_fold in E. injection E as <- <-. cbn. split_and!; try done.
    f_equiv. apply closable_perm, range_filter.
  - intros [ws src [] del] c c' s' E. unfold Driftwatch.closeAllSources in E. cbn in E. rewrite close_fold in E. injection E as <- <-. cbn. split_and!; try done.
    f_equiv. apply closable_perm, range_map_perm.
  - done.
Defined.
End components.

(** ** The process *)
Section process.
Context {S : Type} `{!SourceCache S}.

(** The reaper: in its [select], between the listing and the lock, returned. *)
Inductive ReaperPc := RSelect | RListed (items : list AgentDeploy) | RReturned.
(** [Start]: in [watch.Start], about to close the connections, returned. *)
Inductive StartPc := SWatching | SStopping | SReturned.

Record Proc := mkProc {
  pr_pool : Pool NamespacedName;
  pr_state : S;
  pr_conns : Conns;
  pr_reaper : ReaperPc;
  pr_start : StartPc
}.
Definition Start (w : WorkSet NamespacedName) (s : S) : Proc :=
  mkProc (WorkPool.Start w) s (mkConns 0 []) RSelect SWatching.

(** One move of a goroutine or of the outside world.  [run_source] is the call
    of [sourceFor] by a worker in [process]; the rest of its work, and the
    controllers' calls, leave the cache alone.  A [select] of the reaper whose
    cases are both ready takes either. *)
Inductive pstep : Proc → Proc → Prop :=
  | run_pool q q' s c r st l : WorkPool.step q l q' → pstep (mkProc q s c r st) (mkProc q' s c r st)
  | run_source q i k d ad s c c' s' x r st :
      p_workers q !! i = Some (WProcess k) → source_for d ad s c = (c', s', x) →
      pstep (mkProc q s c r st) (mkProc q s' c' r st)
  | run_other q s s' c r st : cache s' = cache s → pstep (mkProc q s c r st) (mkProc q s' c r st)
  | runReaper_list q s c st items : pstep (mkProc q s c RSelect st) (mkProc q s c (RListed items) st)
  | runReaper_reap q s c c' s' st items : reap items s c = (c', s') →
      pstep (mkProc q s c (RListed items) st) (mkProc q s' c' RSelect st)
  | runReaper_done q s c st : p_done q = true → pstep (mkProc q s c RSelect st) (mkProc q s c RReturned st)
  | Start_stopping q s c r : p_pc q = AReturned →
      pstep (mkProc q s c r SWatching) (mkProc q (at_stop s) c r SStopping)
  | Start_close q s c c' s' r : close_all s c = (c', s') →
      pstep (mkProc q s c r SStopping) (mkProc q s' c' r SReturned).

Definition psteps : Proc → Proc → Prop := rtc pstep.

(** Every connection ever made is in the cache or closed, and once. *)
Definition accounted (p : Proc) : Prop :=
  closed (pr_conns p) ++ closable (map_to_list (cache (pr_state p))) ≡ₚ
  filter (λ x, closer x = true) (seq 0 (made (pr_conns p))).
Record proc_inv (p : Proc) : Prop := {
  inv_accounted : accounted p;
  inv_made : ∀ k x, cache (pr_state p) !! k = Some x → (x < made (pr_conns p))%nat;
  inv_stopping : pr_start p ≠ SWatching → p_pc (pr_pool p) = AReturned
}.

Lemma closable_app l l' : closable (l ++ l') = closable l ++ closable l'.
Proof. unfold closable. by rewrite fmap_app, filter_app. Qed.
Lemma closable_split (P : string * nat → Prop) `{∀ x, Decision (P x)} (m : gmap string nat) :
  closable (map_to_list m) ≡ₚ closable (map_to_list (filter (λ p, ¬ P p) m)) ++ closable (map_to_list (filter P m)).
Proof.
  rewrite <- closable_app. apply closable_perm. rewrite <- !(range_filter (H := range_in_key_order)). cbn [range_map range_in_key_order].
  rewrite (Permutation_app_comm (filter _ _)). by rewrite filter_app_complement.
Qed.

Lemma start_inv w s : cache s = ∅ → proc_inv (Start w s).
Proof.
  intros Hs. split; cbn; [|by rewrite Hs; intros k x; rewrite lookup_empty|done].
  unfold accounted. cbn. by rewrite Hs, map_to_list_empty.
Qed.
Lemma source_cases d ad s c c' s' x : source_for d ad s c = (c', s', x) →
  (c' = c ∧ cache s' = cache s) ∨
  (cache s !! key_of_set ad = None ∧ c' = mkConns (1 + made c) (closed c) ∧ cache s' = <[key_of_set ad := made c]> (cache s)).
Proof.
  destruct (cache s !! key_of_set ad) as [y|] eqn:E.
  - rewrite (source_hit d ad s c y E). intros [= <- <- <-]. by left.
  - destruct d as [|e].
    + destruct (source_dialled ad s c E) as (s1 & -> & Hs1). intros [= <- <- <-]. by right.
    + rewrite (source_failed e ad s c E). intros [= <- <- <-]. by left.
Qed.
Lemma pstep_inv p p' : proc_inv p → pstep p p' → proc_inv p'.
Proof.
  intros [Ha Hm Hs] Hst.
  destruct Hst as [q q' s c r st l Hq|q i k d ad s c c' s' x r st _ E|q s s' c r st E| |q s c c' s' st items E| |q s c r Hpc|q s c c' s' r E];
    unfold accounted in *; cbn in *.
  - split; unfold accounted; cbn; [done..|]. intros Hr. by destruct (returned_stays _ _ _ Hq (Hs Hr)).
  - destruct (source_cases d ad s c c' s' x E) as [[-> Hc]|(Hn & -> & Hc)]; split; unfold accounted;
      cbn [pr_conns pr_state pr_start pr_pool made closed]; rewrite ?Hc; try done.
    + rewrite (closable_perm _ _ (map_to_list_insert _ _ _ Hn)). change (1 + made c)%nat with (Datatypes.S (made c)). rewrite seq_S, filter_app, <- Ha.
      unfold closable at 1. cbn [fmap list_fmap fst snd Nat.add]. rewrite !filter_cons, filter_nil.
      fold (closable (map_to_list (cache s))). case_decide; [|by rewrite app_nil_r].
      by rewrite <- Permutation_middle, <- Permutation_cons_append.
    + intros k' y. rewrite lookup_insert_Some. intros [[_ <-]|[_ Hy]]; [lia|]. specialize (Hm k' y Hy). lia.
  - split; unfold accounted; cbn; rewrite ?E; done.
  - split; done.
  - destruct (reap_law items s c c' s' E) as (Hc & Hmade & Hcl). split; unfold accounted; cbn; [| |done].
    + rewrite Hmade, <- Ha, Hcl, Hc. rewrite <- app_assoc. f_equiv. symmetry. apply closable_split.
    + intros k x. rewrite Hc, map_lookup_filter_Some, Hmade. intros [Hx _]. by apply (Hm k).
  - split; done.
  - split; unfold accounted; cbn; rewrite ?at_stop_law; done.
  - destruct (close_all_law s c c' s' E) as (Hc & Hmade & Hcl). split; unfold accounted; cbn; [| |intros _; by apply Hs].
    + rewrite Hmade, <- Ha, Hcl, Hc, map_to_list_empty. cbn. by rewrite app_nil_r.
    + intros k x. by rewrite Hc, lookup_empty.
Qed.
Lemma psteps_inv p p' : proc_inv p → psteps p p' → proc_inv p'.
Proof. intros Hp Hst. induction Hst as [|p p1 p2 H1 _ IH]; [done|]. by eapply IH, pstep_inv. Qed.

(** Nothing is handed out or in work any more: a pool whose assigner returned
    and whose workers are idle stays so. *)
Definition quiet (p : Proc) : Prop := p_pc (pr_pool p) = AReturned ∧ processing (pr_pool p) = [].
Lemma quiet_worker q i k : processing q = [] → p_workers q !! i ≠ Some (WProcess (K := NamespacedName) k).
Proof.
  intros Hq Hi. assert (k ∈ processing q) as Hin; [|rewrite Hq in Hin; by apply not_elem_of_nil in Hin].
  apply list_elem_of_omap. exists (WProcess k). split; [by eapply list_elem_of_lookup_2|done].
Qed.
Lemma processing_other q (i : nat) w : (∀ k, w ≠ WProcess k) → processing q = [] →
  processing (with_worker (K := NamespacedName) i w q) = [].
Proof.
  intros Hw Hq. destruct (processing (with_worker i w q)) as [|k l] eqn:E; [done|]. exfalso.
  assert (k ∈ processing (with_worker i w q)) as Hin by (rewrite E; left).
  apply list_elem_of_omap in Hin as (y & Hy & Ey). destruct y as [|k'|]; try done.
  apply elem_of_insert_worker in Hy as [Hy|Hy]; [by apply (Hw k')|].
  apply list_elem_of_lookup in Hy as [j Hj]. by apply (quiet_worker q j k' Hq).
Qed.
Lemma quiet_stays p p' : pstep p p' → quiet p → quiet p'.
Proof.
  intros Hst [Hpc Hq]. destruct Hst as [q q' s c r st l Hq'| | | | | | |]; try done. cbn in *.
  unfold quiet. cbn. destruct (returned_stays _ _ _ Hq' Hpc) as (Hr & Hh & _). split; [done|].
  destruct Hq'; cbn in *; try congruence; try done; by apply processing_other.
Qed.

(** C18: every source of a component is closed once at most, and none is lost: the
    connections made are those cached and those closed, each once.  When no
    worker is in [process] as [Start] closes the cache, then none is open when
    it returns, nor later. *)
Theorem connections_are_closed w s p : cache s = ∅ → psteps (Start w s) p →
  NoDup (closed (pr_conns p)) ∧ accounted p ∧
  (∀ k x, cache (pr_state p) !! k = Some x → x ∉ closed (pr_conns p)) ∧
  (pr_start p = SStopping → processing (pr_pool p) = [] → ∀ p1 p2, pstep p p1 → pr_start p1 = SReturned → psteps p1 p2 →
     cache (pr_state p2) = ∅ ∧ closed (pr_conns p2) ≡ₚ filter (λ x, closer x = true) (seq 0 (made (pr_conns p2)))).
Proof.
  intros Hs Hst. pose proof (psteps_inv _ _ (start_inv w s Hs) Hst) as Hi.
  pose proof (inv_accounted p Hi) as Ha.
  assert (NoDup (closed (pr_conns p) ++ closable (map_to_list (cache (pr_state p))))) as Hnd.
  { unfold accounted in Ha. rewrite Ha. apply NoDup_filter, NoDup_seq. }
  apply NoDup_app in Hnd as (Hnd & Hdis & _). split_and!; [done|done| |].
  - intros k x Hx Hin. assert (closer x = true) as Hcx.
    { assert (x ∈ filter (λ x, closer x = true) (seq 0 (made (pr_conns p)))) as [? _]%list_elem_of_filter; [|done].
      unfold accounted in Ha. rewrite <- Ha. by apply elem_of_app; left. }
    apply (Hdis x Hin). unfold closable. apply list_elem_of_filter. split; [done|].
    apply list_elem_of_fmap. exists (k, x). split; [done|]. by apply elem_of_map_to_list.
  - intros Hstop Hq p1 p2 H1 Hr1 H2.
    assert (quiet p) as Hquiet by (split; [apply Hi; by rewrite Hstop|done]).
    assert (∀ p1 p2, psteps p1 p2 → proc_inv p1 → quiet p1 → pr_start p1 = SReturned → cache (pr_state p1) = ∅ →
      proc_inv p2 ∧ cache (pr_state p2) = ∅) as Hstay.
    { clear. intros p1 p2 H2. induction H2 as [|p1 p2 p3 H1 _ IH]; intros Hi Hq Hr Hc; [done|].
      apply IH; [by eapply pstep_inv|by eapply quiet_stays|by destruct H1|].
      destruct H1 as [|q i k d ad s c c' s' x r st Hw _|q s s' c r st E| |q s c c' s' st items E| | |]; cbn in *; try done.
      - by apply quiet_worker in Hw; [|apply Hq].
      - congruence.
      - destruct (reap_law _ _ _ _ _ E) as (-> & _). by rewrite Hc, map_filter_empty. }
    assert (cache (pr_state p1) = ∅) as Hc1.
    { destruct H1 as [| | | | | | |q s0 c c' s' r E]; cbn in *; try congruence. by destruct (close_all_law _ _ _ _ E). }
    destruct (Hstay p1 p2 H2) as [Hi2 Hc2]; [by eapply pstep_inv|by eapply quiet_stays|done|done|]. split; [done|].
    pose proof (inv_accounted p2 Hi2) as Ha2. unfold accounted in Ha2. by rewrite Hc2, map_to_list_empty, app_nil_r in Ha2.
Qed.

(** The reaper closes no connection of an AgentSet that had an AgentDeploy when
    it listed them, and leaves none of the others cached. *)
Theorem reaper_spares_the_live items s c c' s' : reap items s c = (c', s') →
  ∀ k x, cache s !! k = Some x → cache s' !! k = if decide (k ∈ live_keys items) then Some x else None.
Proof.
  intros E k x Hx. destruct (reap_law _ _ _ _ _ E) as (-> & _). case_decide as Hk.
  - apply map_lookup_filter_Some. split; done.
  - apply map_lookup_filter_None. right. intros y Hy. cbn. done.
Qed.

Lemma pool_run q ls q' s c r st : WorkPool.steps q ls q' → psteps (mkProc q s c r st) (mkProc q' s c r st).
Proof. induction 1 as [|q l q1 ls q2 H1 _ IH]; [constructor|]. by eapply rtc_l; [eapply run_pool|]. Qed.

(** [Start] does not wait for its workers: one that is still in [process] can
    dial after the cache was closed, and that connection is never closed. *)
Theorem late_dial_is_never_closed w s k ad :
  cache s = ∅ → Contains k w = true → 0 < ws_workers w → closer 0%nat = true →
  ∃ p, psteps (Start w s) p ∧ pr_start p = SReturned ∧ pr_reaper p = RReturned ∧
    cache (pr_state p) !! key_of_set ad = Some 0%nat ∧ ∀ p', psteps p p' → 0%nat ∉ closed (pr_conns p').
Proof.
  intros Hs Hk Hw Hcl. destruct (start_returns_while_processing w k Hk Hw) as (ls & q & Hq & Hpc & Hin).
  pose proof (WorkPool.reachable_inv w ls q Hq) as Hqi. pose proof (inv_returned _ _ Hqi Hpc) as Hdone.
  apply list_elem_of_omap in Hin as ([|k'|] & [i Hi]%list_elem_of_lookup & [= ->]); try done.
  destruct (close_all (at_stop s) (mkConns 0 [])) as [c1 s1] eqn:Ec.
  destruct (close_all_law _ _ _ _ Ec) as (Hc1 & Hm1 & Hcl1). rewrite at_stop_law, Hs, map_to_list_empty in Hcl1. cbn in Hcl1, Hm1.
  apply Permutation_nil_r in Hcl1. destruct c1 as [m1 cl1]. cbn in Hcl1, Hm1. subst.
  destruct (source_dialled ad s1 (mkConns 0 [])) as (s2 & E2 & Hc2); [by rewrite Hc1, lookup_empty|].
  exists (mkProc q s2 (mkConns 1 []) RReturned SReturned). split_and!; try done.
  - etrans; [by apply (pool_run _ ls q)|]. eapply rtc_l; [by apply Start_stopping|]. eapply rtc_l; [by apply Start_close|].
    eapply rtc_l; [by apply runReaper_done|]. eapply rtc_once. by eapply run_source.
  - cbn. by rewrite Hc2, lookup_insert_eq.
  - assert (∀ p p', psteps p p' → pr_start p = SReturned → pr_reaper p = RReturned → closed (pr_conns p') = closed (pr_conns p)) as Hkeep.
    { clear. intros p p' H2. induction H2 as [|p1 p2 p3 H1 _ IH]; intros Hs Hr; [done|].
      destruct H1 as [|q i k d ad s c c' s' x r st _ E| | | | | |]; cbn in *; try done; rewrite IH by done; [done| |done].
      cbn. by destruct (source_cases d ad s c c' s' x E) as [[-> _]|(_ & -> & _)]. }
    intros p' Hp'. rewrite (Hkeep _ _ Hp') by done. cbn. apply not_elem_of_nil.
Qed.
End process.
End closer.

(** ** Examples: a watcher with one key *)
Definition ex_set : WorkSet NamespacedName := ws_Track (mkKey "ns" "set-a") (NewWorkSet "driftwatch" [WithWorkers 1]).
Definition ex_state : Driftwatch.WatcherSt unit nat := Driftwatch.mkWatcher ex_set ∅ tt [].
#[local] Existing Instance watcher_cache.

Lemma late_dial_is_never_closed_witness :
  ∃ p, psteps (λ _, true) (Start ex_set ex_state) p ∧ pr_start p = SReturned ∧
    cache (λ _, true) (pr_state p) !! "ns/set" = Some 0%nat.
Proof.
  destruct (late_dial_is_never_closed (λ _, true) ex_set ex_state (mkKey "ns" "set-a") Driftwatch.ex_drift_ad)
    as (p & H1 & H2 & _ & H3 & _); [done|by vm_compute|by vm_compute|done|]. by exists p.
Defined.
(** The worker dials for its key, is done with it; then the watcher is stopped. *)
Definition ex_key : NamespacedName := mkKey "ns" "set-a".
Definition ex_pool (ws : list (WorkerPc NamespacedName)) (pc : AssignerPc) (done : bool) : Pool NamespacedName :=
  mkPool ex_set (mkAssigner [ex_key] 1) pc ws done.
Definition ex_dialled : Driftwatch.WatcherSt unit nat := Driftwatch.mkWatcher ex_set {[ "ns/set" := 0%nat ]} tt [].
Definition ex_stopping : Proc := mkProc (ex_pool [WWait] AReturned true) ex_dialled (mkConns 1 []) RSelect SStopping.
Lemma ex_stopping_reached : psteps (λ _, true) (Start ex_set ex_state) ex_stopping.
Proof.
  pose (d := pause (60 * second)).
  eapply (rtc_l _ _ (mkProc (ex_pool [WWait] (ASend ex_key d) false) ex_state (mkConns 0 []) RSelect SWatching)).
  { eapply (run_pool _ _ _ _ _ _ _ (LTurn [ex_key])). by apply (step_turn (WorkPool.Start ex_set)). }
  eapply (rtc_l _ _ (mkProc (ex_pool [WProcess ex_key] (ASleep d) false) ex_state (mkConns 0 []) RSelect SWatching)).
  { eapply (run_pool _ _ _ _ _ _ _ (LHand 0 ex_key)). by eapply (step_hand (ex_pool [WWait] (ASend ex_key d) false)). }
  eapply (rtc_l _ _ (mkProc (ex_pool [WProcess ex_key] (ASleep d) false) ex_dialled (mkConns 1 []) RSelect SWatching)).
  { by eapply (run_source _ _ 0%nat ex_key DialOk Driftwatch.ex_drift_ad). }
  eapply (rtc_l _ _ (mkProc (ex_pool [WWait] (ASleep d) false) ex_dialled (mkConns 1 []) RSelect SWatching)).
  { eapply (run_pool _ _ _ _ _ _ _ (LFinish 0 ex_key)). by apply (step_finish (ex_pool [WProcess ex_key] (ASleep d) false)). }
  eapply (rtc_l _ _ (mkProc (ex_pool [WWait] (ASleep d) true) ex_dialled (mkConns 1 []) RSelect SWatching)).
  { eapply (run_pool _ _ _ _ _ _ _ LCancel). apply (step_cancel (ex_pool [WWait] (ASleep d) false)). }
  eapply (rtc_l _ _ (mkProc (ex_pool [WWait] AReturned true) ex_dialled (mkConns 1 []) RSelect SWatching)).
  { eapply (run_pool _ _ _ _ _ _ _ LReturn). by eapply (step_return_sleep (ex_pool [WWait] (ASleep d) true)). }
  apply rtc_once. exact (Start_stopping (λ _, true) (ex_pool [WWait] AReturned true) ex_dialled (mkConns 1 []) RSelect eq_refl).
Qed.
Definition ex_returned : Proc := mkProc (ex_pool [WWait] AReturned true) ex_state (mkConns 1 [0%nat]) RSelect SReturned.
Lemma connections_are_closed_witness :
  cache (λ _, true) (pr_state ex_returned) = ∅ ∧ closed (pr_conns ex_returned) ≡ₚ filter (λ _, true = true) (seq 0 1).
Proof.
  destruct (connections_are_closed (λ _, true) ex_set ex_state ex_stopping) as (_ & _ & _ & H4); [done|apply ex_stopping_reached|].
  apply (H4 eq_refl eq_refl ex_returned ex_returned); [|reflexivity|constructor].
  exact (Start_close (λ _, true) (ex_pool [WWait] AReturned true) ex_dialled (mkConns 1 []) (mkConns 1 [0%nat]) ex_state RSelect eq_refl).
Defined.
End Lifecycle.
