(* ===== verification/Rater.v ===== *)
(** * Daemon rater: rates and averages ([pkg/daemon/server/rater])

    [pod_samples.go] keeps a bounded buffer of scrapes per pod, [helper.go]
    turns them into rates, [rater.go] answers the metrics query.  Sums over a
    Go map run in its iteration order. *)
From S2P Require Import Prelude Float64 Queue K8s Types Samples Decision Sampler.
#[local] Open Scope Z_scope.

Module Rater.
Import Queue.

Definition Retention : Duration := 30 * minute.
Definition MaxSamplesPerPod : Z := Z.quot Retention (5 * second) * 2.
Definition TransportTotal : string := "__total__".

(** Timestamps are unix seconds. *)
Record PodSample : Set := mkPodSample {
  ps_Timestamp : Z;
  RequestsByTransport : gmap string float64;
  StreamMessagesByTransport : gmap string float64;
  InflightByTransport : gmap string float64
}.

(** ** Buffers *)
Record AgentDeployBuffers : Type := mkBuffers { byPod : gmap string (OverflowQueue PodSample) }.
Definition NewAgentDeployBuffers : AgentDeployBuffers := mkBuffers ∅.

(** [Append]; a nil sample is ignored; the outer [None] is a panic of the
    queue. *)
Definition Append_ (b : AgentDeployBuffers) (pod : string) (s : option PodSample)
    : option AgentDeployBuffers :=
  match s with
  | None => Some b
  | Some s =>
      q ← Append (default (New MaxSamplesPerPod) (byPod b !! pod)) s;
      Some (mkBuffers (<[pod := q]> (byPod b)))
  end.

Definition Pods `{GoRange} (b : AgentDeployBuffers) : list string := (range_map (byPod b)).*1.
Definition Samples (b : AgentDeployBuffers) (pod : string) : list PodSample :=
  match byPod b !! pod with Some q => Items q | None => [] end.

(** ** Windows and values *)
Fixpoint samplesInWindow_from (cutoff : Z) (samples : list PodSample) : list PodSample :=
  match samples with
  | [] => []
  | s :: rest => if cutoff <=? ps_Timestamp s then samples else samplesInWindow_from cutoff rest
  end.
Definition samplesInWindow (samples : list PodSample) (nowUnix lookbackSeconds : Z) : list PodSample :=
  samplesInWindow_from (int64 (nowUnix - lookbackSeconds)) samples.

Definition value_of `{GoRange} (m : gmap string float64) (transport : string) : float64 :=
  if String.eqb transport TransportTotal then
    fold_left (λ v (p : string * float64), fadd v p.2) (range_map m) fzero
  else default fzero (m !! transport).

Definition counterValue `{GoRange} (s : PodSample) (transport : string)
    (read : PodSample → gmap string float64) : float64 := value_of (read s) transport.
Definition inflightValue `{GoRange} (s : PodSample) (transport : string) : float64 :=
  value_of (InflightByTransport s) transport.

(** ** Counter rates *)

(** The loop of [podRate] over the samples after the first:
    ([delta], [runStart], [prev]). *)
Definition rate_step (st : float64 * float64 * float64) (curr : float64) : float64 * float64 * float64 :=
  let '(delta, runStart, prev) := st in
  if flt curr prev then (fadd delta (fsub prev runStart), fzero, curr)
  else (delta, runStart, curr).
Definition rate_loop (first : float64) (rest : list float64) : float64 :=
  let '(delta, runStart, prev) := fold_left rate_step rest (fzero, first, first) in
  fadd delta (fsub prev runStart).

Definition last_ts (w : list PodSample) : Z := default 0 (ps_Timestamp <$> last w).

Definition podRate `{GoRange} (samples : list PodSample) (nowUnix lookbackSeconds : Z)
    (transport : string) (read : PodSample → gmap string float64) : option float64 :=
  match samplesInWindow samples nowUnix lookbackSeconds with
  | [] | [_] => None
  | s0 :: rest =>
      let timeDiff := int64 (last_ts (s0 :: rest) - ps_Timestamp s0) in
      if timeDiff <=? 0 then None
      else Some (fdiv (rate_loop (counterValue s0 transport read)
                         (map (λ s, counterValue s transport read) rest)) (f_of_Z timeDiff))
  end.

Definition sum_pods `{GoRange} (b : AgentDeployBuffers) (f : list PodSample → option float64) : float64 :=
  fold_left (λ total pod,
    match f (Samples b pod) with Some r => fadd total r | None => total end) (Pods b) fzero.

Definition calculateCounterRate `{GoRange} (b : AgentDeployBuffers) (nowUnix lookbackSeconds : Z)
    (transport : string) (read : PodSample → gmap string float64) : float64 :=
  sum_pods b (λ samples, podRate samples nowUnix lookbackSeconds transport read).
Definition CalculateRequestRate `{GoRange} b now lookback transport :=
  calculateCounterRate b now lookback transport RequestsByTransport.
Definition CalculateStreamMessageRate `{GoRange} b now lookback transport :=
  calculateCounterRate b now lookback transport StreamMessagesByTransport.

(** ** Gauge averages *)

(** The loop of [podInflightAvg]: ([weightedSum], [totalWeight]). *)
Fixpoint avg_loop `{GoRange} (transport : string) (acc : float64 * float64) (w : list PodSample)
    : float64 * float64 :=
  match w with
  | s :: (s' :: _) as rest =>
      let width := f_of_Z (int64 (ps_Timestamp s' - ps_Timestamp s)) in
      avg_loop transport (fadd acc.1 (fmul (inflightValue s transport) width), fadd acc.2 width) rest
  | _ => acc
  end.

Definition podInflightAvg `{GoRange} (samples : list PodSample) (nowUnix lookbackSeconds : Z)
    (transport : string) : option float64 :=
  match samplesInWindow samples nowUnix lookbackSeconds with
  | [] => None
  | [s] => Some (inflightValue s transport)
  | s0 :: rest =>
      let '(weightedSum, totalWeight) := avg_loop transport (fzero, fzero) (s0 :: rest) in
      if feq totalWeight fzero then Some (inflightValue (List.last rest s0) transport)
      else Some (fdiv weightedSum totalWeight)
  end.

Definition CalculateInflightAvg `{GoRange} (b : AgentDeployBuffers) (nowUnix lookbackSeconds : Z)
    (transport : string) : float64 :=
  sum_pods b (λ samples, podInflightAvg samples nowUnix lookbackSeconds transport).

Definition HasUsableHistory `{GoRange} (b : AgentDeployBuffers) : bool :=
  existsb (λ pod, (2 <=? length (Samples b pod))%nat) (Pods b).

Definition ObservedTransports `{GoRange} (b : AgentDeployBuffers) : gset string :=
  ⋃ (map (λ pod, ⋃ (map (λ s, dom (RequestsByTransport s) ∪ dom (StreamMessagesByTransport s) ∪
                               dom (InflightByTransport s)) (Samples b pod))) (Pods b)).

(** ** The query *)
Record PerWindowValues : Set := mkPerWindow {
  pw_ProcessingRates : gmap string float64;
  pw_StreamMessageRates : gmap string float64;
  pw_Inflights : gmap string float64
}.
Record WindowedResult : Type := mkWindowed {
  Total : PerWindowValues;
  PerTransport : gmap string PerWindowValues;
  CustomWindowEffectiveSec : Z
}.
Inductive RaterError : Set := ErrUnknownAgentDeploy | ErrNoData.

Definition windows (lookbackSeconds : Z) : list (string * Z) :=
  [("1m", 60); ("5m", 300); ("15m", 900)]%string ++
  (if 0 <? lookbackSeconds then [("custom"%string, Z.min lookbackSeconds 1800)] else []).

Definition per_window `{GoRange} (b : AgentDeployBuffers) (now : Z) (ws : list (string * Z))
    (t : string) : PerWindowValues :=
  let fill (f : Z → float64) : gmap string float64 :=
    fold_left (λ m (w : string * Z), <[w.1 := f w.2]> m) ws ∅ in
  mkPerWindow (fill (λ lb, CalculateRequestRate b now lb t))
              (fill (λ lb, CalculateStreamMessageRate b now lb t))
              (fill (λ lb, CalculateInflightAvg b now lb t)).

Definition GetMetrics `{GoRange} (buffers : gmap string AgentDeployBuffers) (name : string)
    (lookbackSeconds now : Z) : result RaterError WindowedResult :=
  match buffers !! name with
  | None => Err ErrUnknownAgentDeploy
  | Some b =>
      if negb (HasUsableHistory b) then Err ErrNoData
      else
        let ws := windows lookbackSeconds in
        Ok (mkWindowed (per_window b now ws TransportTotal)
              (set_to_map (λ t, (t, per_window b now ws t)) (ObservedTransports b))
              (if 0 <? lookbackSeconds then Z.min lookbackSeconds 1800 else 0))
  end.

(** ** One scrape tick

    The pods answer in any order: [completed] are the hosts with the answer of
    each and the unix time at which it came in. *)
Definition scrape_tick (b : AgentDeployBuffers) (completed : list (string * result string PodSample * Z))
    : option AgentDeployBuffers :=
  fold_left (λ b c,
    b ← b;
    match c with
    | (_, Err _, _) => Some b
    | (host, Ok s, t) =>
        Append_ b host (Some (mkPodSample t (RequestsByTransport s) (StreamMessagesByTransport s)
                                (InflightByTransport s)))
    end) completed (Some b).

(** ** The gRPC answer ([service.go]); [agentSet] is the daemon's environment *)
Definition mapFloatToDV (m : gmap string float64) : gmap string (option float64) := Some <$> m.
Definition optionalInt64 (v : Z) : option Z := if v =? 0 then None else Some v.
Definition GetAgentDeployMetrics `{GoRange} (agentSet : string) (buffers : gmap string AgentDeployBuffers)
    (name : string) (lookbackSeconds now : Z) : result Sampler.RpcError Sampler.AgentDeployMetrics :=
  match GetMetrics buffers name lookbackSeconds now with
  | Err ErrUnknownAgentDeploy => Err Sampler.RpcNotFound
  | Err ErrNoData => Err Sampler.Unavailable
  | Ok r =>
      Ok (Sampler.mkMetrics agentSet name
            (mapFloatToDV (pw_ProcessingRates (Total r)))
            (mapFloatToDV (pw_StreamMessageRates (Total r)))
            (mapFloatToDV (pw_Inflights (Total r)))
            ((λ v, Sampler.mkTransport (mapFloatToDV (pw_ProcessingRates v))
                     (mapFloatToDV (pw_StreamMessageRates v)) (mapFloatToDV (pw_Inflights v)))
               <$> PerTransport r)
            (optionalInt64 (CustomWindowEffectiveSec r)))
  end.

(** ** Runs between counter resets *)

(** The counter values split where a value drops below its predecessor. *)
Fixpoint split_runs (v : float64) (rest : list float64) : list (list float64) :=
  match rest with
  | [] => [[v]]
  | c :: rest' =>
      match split_runs c rest' with
      | r :: rs => if flt c v then [v] :: r :: rs else (v :: r) :: rs
      | [] => [[v]]
      end
  end.

(** A run never drops. *)
Fixpoint climbs (r : list float64) : Prop :=
  match r with
  | x :: (y :: _) as r' => flt y x = false ∧ climbs r'
  | _ => True
  end.
Definition peak (r : list float64) : float64 := List.last r fzero.
(** Each run but the last ends above the start of the next one. *)
Fixpoint resets_between (rs : list (list float64)) : Prop :=
  match rs with
  | r :: (r' :: _) as rs' => flt (List.hd fzero r') (peak r) = true ∧ resets_between rs'
  | _ => True
  end.

(** What the runs contribute: the first from its first value, the others
    from zero. *)
Definition contributions (start : float64) (rs : list (list float64)) : list float64 :=
  match rs with
  | r :: rs' => fsub (peak r) start :: map (λ r, fsub (peak r) fzero) rs'
  | [] => []
  end.

Lemma split_runs_cons v rest : ∃ r rs, split_runs v rest = (v :: r) :: rs.
Proof.
  revert v. induction rest as [|c rest IH]; intros v; cbn [split_runs]; [by eauto|].
  destruct (IH c) as (r & rs & ->). case_match; by eauto.
Qed.

Lemma rate_loop_runs rest delta start v :
  (let '(d, s, p) := fold_left rate_step rest (delta, start, v) in fadd d (fsub p s)) =
  fold_left fadd (contributions start (split_runs v rest)) delta.
Proof.
  revert delta start v. induction rest as [|c rest IH]; intros delta start v; cbn [fold_left]; [done|].
  cbn [split_runs]. destruct (split_runs_cons c rest) as (r & rs & E).
  unfold rate_step at 2. destruct (flt c v) eqn:Hlt.
  - rewrite IH, E. done.
  - rewrite IH, E. destruct r as [|x r]; done.
Qed.

Lemma split_runs_ok v rest :
  concat (split_runs v rest) = v :: rest ∧ Forall climbs (split_runs v rest) ∧
  resets_between (split_runs v rest).
Proof.
  revert v. induction rest as [|c rest IH]; intros v; cbn [split_runs].
  { split_and!; [done|by constructor|done]. }
  destruct (IH c) as (Hc & Hcl & Hr). destruct (split_runs_cons c rest) as (r & rs & E).
  rewrite E in *. destruct (flt c v) eqn:Hlt.
  - split_and!; [cbn; by rewrite <- Hc|by constructor|]. cbn [resets_between]. split; [done|done].
  - apply Forall_cons in Hcl as [Hcr Hcl]. split_and!.
    + cbn in *. by rewrite Hc.
    + constructor; [by cbn|done].
    + destruct rs as [|r' rs]; [done|]. cbn [resets_between] in *. destruct Hr as [Hp Hr].
      split; [|done]. unfold peak in *. by destruct r.
Qed.

(** C34: the one-pass delta of [podRate] is the sum over the runs between
    counter resets: the values split into non-dropping runs separated by
    drops, the first run contributes its peak minus its first value, and each
    later one its peak. *)
Theorem pod_rate_sums_runs v rest :
  let rs := split_runs v rest in
  concat rs = v :: rest ∧ Forall climbs rs ∧ resets_between rs ∧
  rate_loop v rest = fold_left fadd (contributions v rs) fzero.
Proof.
  cbv zeta. destruct (split_runs_ok v rest) as (Hc & Hcl & Hr). split_and!; [done..|].
  unfold rate_loop. apply rate_loop_runs.
Qed.

(** ** Buffers under scrapes *)
Definition buffers_ok (b : AgentDeployBuffers) : Prop :=
  ∀ pod q, byPod b !! pod = Some q → wf q ∧ maxSize q = MaxSamplesPerPod.

(** The successful answers of a host, stamped with their completion time. *)
Definition answers (host : string) (completed : list (string * result string PodSample * Z))
    : list PodSample :=
  omap (λ c, match c with
             | (h, Ok s, t) =>
                 if String.eqb h host
                 then Some (mkPodSample t (RequestsByTransport s) (StreamMessagesByTransport s)
                              (InflightByTransport s))
                 else None
             | _ => None
             end) completed.

Lemma Append_ok b pod s :
  buffers_ok b →
  ∃ b', Append_ b pod (Some s) = Some b' ∧ buffers_ok b' ∧
    ∀ host, Samples b' host =
      if String.eqb pod host then last_n (Z.to_nat MaxSamplesPerPod) (Samples b host ++ [s])
      else Samples b host.
Proof.
  intros Hb. unfold Append_.
  set (q0 := default (New MaxSamplesPerPod) (byPod b !! pod)).
  assert (wf q0 ∧ maxSize q0 = MaxSamplesPerPod ∧ elements q0 = Samples b pod) as (Hwf & Hm & Hel).
  { subst q0. unfold Samples, Items. destruct (byPod b !! pod) as [q|] eqn:E; cbn.
    - by destruct (Hb pod q E).
    - split_and!; [|done|done]. unfold wf, Length. by vm_compute. }
  destruct (Append_wf q0 s Hwf) as (q & -> & Hq & Hmq & Helq). cbn.
  eexists. split; [done|]. split.
  - intros p q' . cbn. destruct (decide (pod = p)) as [->|Hne].
    + rewrite lookup_insert_eq. intros [= <-]. split; [done|congruence].
    + rewrite lookup_insert_ne by done. apply Hb.
  - intros host. unfold Samples at 1. cbn [byPod].
    destruct (String.eqb_spec pod host) as [->|Hne].
    + rewrite lookup_insert_eq. unfold Items. by rewrite Helq, Hel, Hm.
    + by rewrite lookup_insert_ne.
Qed.

Lemma Samples_bounded b host :
  buffers_ok b → (length (Samples b host) <= Z.to_nat MaxSamplesPerPod)%nat.
Proof.
  intros Hb. unfold Samples. destruct (byPod b !! host) as [q|] eqn:E; [|cbn; lia].
  destruct (Hb host q E) as [[_ Hl] Hm]. unfold Length, Items in *. lia.
Qed.

(** In whatever order the pods answer, the scrapes of a tick never panic, each
    host's buffer then holds the last [MaxSamplesPerPod] of its earlier samples
    followed by its successful answers, and a failed scrape leaves its host's
    samples as they were. *)
Lemma scrape_tick_spec b completed :
  buffers_ok b →
  ∃ b', scrape_tick b completed = Some b' ∧ buffers_ok b' ∧
    ∀ host, Samples b' host =
      last_n (Z.to_nat MaxSamplesPerPod) (Samples b host ++ answers host completed).
Proof.
  unfold scrape_tick. revert b. induction completed as [|[[h r] t] completed IH]; intros b Hb;
    cbn [fold_left].
  { exists b. split_and!; [done|done|]. intros host. cbn. rewrite app_nil_r, last_n_all; [done|].
    by apply Samples_bounded. }
  destruct r as [s|e]; cbn [mbind option_bind].
  - set (s' := mkPodSample t _ _ _).
    destruct (Append_ok b h s' Hb) as (b1 & -> & Hb1 & Hs1).
    destruct (IH b1 Hb1) as (b2 & -> & Hb2 & Hs2). exists b2. split_and!; [done..|].
    intros host. rewrite Hs2, Hs1.
    assert (answers host ((h, Ok s, t) :: completed) =
            if String.eqb h host then s' :: answers host completed else answers host completed) as ->.
    { unfold answers. cbn [omap list_omap]. by destruct (String.eqb h host). }
    destruct (String.eqb h host); [|done]. rewrite last_n_app, <- app_assoc. done.
  - destruct (IH b Hb) as (b2 & -> & Hb2 & Hs2). exists b2. by split_and!.
Qed.

(** ** A scrape outage

    With no sample in the window the query does not leave the window out: it
    reports zero load. *)
Lemma samplesInWindow_none samples cutoff :
  Forall (λ s, ps_Timestamp s < cutoff) samples → samplesInWindow_from cutoff samples = [].
Proof.
  induction 1 as [|s l Hs _ IH]; cbn; [done|]. by rewrite (proj2 (Z.leb_gt _ _)).
Qed.

Lemma sum_pods_none `{GoRange} b f : (∀ pod, f (Samples b pod) = None) → sum_pods b f = fzero.
Proof.
  intros Hf. unfold sum_pods. generalize fzero. induction (Pods b) as [|p l IH]; intros z; cbn; [done|].
  by rewrite Hf, IH.
Qed.

Theorem outage_reads_as_zero_load `{GoRange} set buffers name b now :
  buffers !! name = Some b → HasUsableHistory b = true →
  (∀ pod, Forall (λ s, ps_Timestamp s < int64 (now - 60)) (Samples b pod)) →
  ∃ m, GetAgentDeployMetrics set buffers name 0 now = Ok m ∧
    Sampler.doubleVal (Sampler.Inflights m) "1m" = Some fzero ∧
    Sampler.doubleVal (Sampler.ProcessingRates m) "1m" = Some fzero.
Proof.
  intros Hb Hu Hold. unfold GetAgentDeployMetrics, GetMetrics. rewrite Hb, Hu. cbn [negb].
  eexists. split; [done|].
  assert (CalculateInflightAvg b now 60 TransportTotal = fzero) as Hi.
  { apply sum_pods_none. intros pod. unfold podInflightAvg, samplesInWindow.
    by rewrite samplesInWindow_none. }
  assert (CalculateRequestRate b now 60 TransportTotal = fzero) as Hr.
  { apply sum_pods_none. intros pod. unfold podRate, samplesInWindow.
    by rewrite samplesInWindow_none. }
  unfold Sampler.doubleVal, per_window, mapFloatToDV, windows.
  cbn [Sampler.Inflights Sampler.ProcessingRates Total pw_Inflights pw_ProcessingRates app fold_left fst snd Z.ltb Z.compare].
  rewrite !lookup_fmap, !(lookup_insert_ne _ "15m"%string), !(lookup_insert_ne _ "5m"%string), !lookup_insert_eq by done.
  cbn. by rewrite Hi, Hr.
Qed.

(** Five pods under load whose scrapes stopped two minutes ago: the sampler
    records a fresh sample with no load and the autoscaler removes replicas. *)
Definition outage_buffers : gmap string AgentDeployBuffers :=
  let q := mkQueue [mkPodSample 870 ∅ ∅ (<["rest"%string := f_of_Z 30]> ∅);
                    mkPodSample 880 ∅ ∅ (<["rest"%string := f_of_Z 30]> ∅)] MaxSamplesPerPod in
  <["a"%string := mkBuffers (<["p0"%string := q]> ∅)]> ∅.
Definition outage_sample : option Samples.Sample :=
  match Sampler.collectSample (GetAgentDeployMetrics "set" outage_buffers "a" 0 1000)
          (mkAgentDeploy (new_meta "ns" "set-a" ∅ ∅ [])
             (mkAgentDeploySpec (named_agent "a") "set" None zero_topology)
             (mkAgentDeployStatus [] AgentDeployPhaseRunning 5 5 "" "" "" 0 0 5 5 5 "h" "h"))
          (1000 * second) 0 with
  | Ok x => x
  | Err _ => None
  end.

Example scrape_outage_scales_down :
  (x ← outage_sample;
   Decision.DesiredReplicas <$>
     Decision.Decide Decision.ex_exp Decision.ex_oob
       (Decision.mkInputs 5 5 [x] x Decision.ex_spec 0 (1000 * second) 0)) = Some 3.
Proof. vm_compute. reflexivity. Qed.
End Rater.
