(* ===== verification/PeerCards.v ===== *)
(** * Peer AgentCard drift in the daemon
    ([rater/peer_agentcard_poll.go] and [rater/peer_card_drift.go])

    The stability gate that turns polls of a peer's card into its latest hash,
    the cache of the hashes each pod reports, and the query that puts both
    side by side. *)
From S2P Require Import Prelude K8s Types Topology Driftwatch.
#[local] Open Scope Z_scope.

Module PeerCards.
Import Topo.

(** ** Stability gate *)
Record gatedHash : Set := mkGate {
  accepted : string;
  acceptedObservedAt : Time;
  pending : string;
  pendingCount : Z
}.
Definition zero_gate : gatedHash := mkGate "" zero_time "" 0.

Definition observe (g : gatedHash) (hash : string) (now : Time) (stabilityWindow : Z) : gatedHash :=
  if String.eqb hash (accepted g) then mkGate (accepted g) (acceptedObservedAt g) "" 0
  else
    let g := if String.eqb hash (pending g)
             then mkGate (accepted g) (acceptedObservedAt g) (pending g) (int64 (pendingCount g + 1))
             else mkGate (accepted g) (acceptedObservedAt g) hash 1 in
    if stabilityWindow <=? pendingCount g then mkGate (pending g) now "" 0 else g.

Definition peerCardState : Type := gmap string gatedHash.
Definition state_observe (s : peerCardState) (peer hash : string) (now : Time) (window : Z)
    : peerCardState :=
  <[peer := observe (default zero_gate (s !! peer)) hash now window]> s.
Definition snapshot (s : peerCardState) (peer : string) : option (string * Time) :=
  match s !! peer with
  | Some g => if String.eqb (accepted g) "" then None else Some (accepted g, acceptedObservedAt g)
  | None => None
  end.

(** A sequence of polls of one peer. *)
Definition observe_all (g : gatedHash) (polls : list (string * Time)) (window : Z) : gatedHash :=
  fold_left (λ g p, observe g p.1 p.2 window) polls g.

(** ** Reported hashes *)
Record ReportedHash : Set := mkReported { rh_Hash : string; rh_ObservedAt : Time }.

Record peerHashCache : Set := mkCache {
  byPod : gmap string (gmap string ReportedHash);
  updated : gmap string Time;
  hostToPod : gmap string string
}.
Definition newPeerHashCache : peerHashCache := mkCache ∅ ∅ ∅.

Definition set (c : peerHashCache) (host pod : string) (hashes : gmap string ReportedHash) (now : Time)
    : peerHashCache :=
  let drop {A} (m : gmap string A) : gmap string A :=
    match hostToPod c !! host with
    | Some prev => if negb (String.eqb prev pod) then delete prev m else m
    | None => m
    end in
  mkCache (<[pod := hashes]> (drop (byPod c))) (<[pod := now]> (drop (updated c)))
    (<[host := pod]> (hostToPod c)).

(** [prune]: the range loop deletes from the map it runs over. *)
Definition prune_host (live : gset string) (c : peerHashCache) (p : string * string) : peerHashCache :=
  if bool_decide (p.1 ∈ live) then c
  else mkCache (delete p.2 (byPod c)) (delete p.2 (updated c)) (delete p.1 (hostToPod c)).
Definition prune `{GoRange} (c : peerHashCache) (liveHosts : list string) : peerHashCache :=
  fold_left (prune_host (list_to_set liveHosts)) (range_map (hostToPod c)) c.

Definition reportedByPeer (c : peerHashCache) (peer : string) : gmap string ReportedHash :=
  omap (λ peers : gmap string ReportedHash, peers !! peer) (byPod c).

(** ** One tick

    [completed] are the answers in the order they come in, with the time at
    which each is recorded. *)
Definition scrapePeerCardsOnce (s : peerCardState) (completed : list (string * result string string * Time))
    (window : Z) : peerCardState :=
  fold_left (λ s c,
    match c with
    | (peer, Ok hash, now) => state_observe s peer hash now window
    | (_, Err _, _) => s
    end) completed s.

(** One pod's answer; [ParseRFC3339] is the standard library's parser, and a
    timestamp that does not parse reads as the zero time. *)
Record IntrospectSample : Set := mkIntrospect {
  is_PodName : string;
  is_PeerHashes : gmap string (string * string)
}.
Definition scrapeIntrospectOnce `{GoRange} (ParseRFC3339 : string → option Time) (c : peerHashCache)
    (hosts : list string) (completed : list (string * result string IntrospectSample * Time))
    : peerHashCache :=
  fold_left (λ c r,
    match r with
    | (_, Err _, _) => c
    | (host, Ok s, now) =>
        set c host (if String.eqb (is_PodName s) "" then host else is_PodName s)
          ((λ ph : string * string, mkReported ph.1 (default zero_time (ParseRFC3339 ph.2))) <$>
             is_PeerHashes s) now
    end) completed (prune c hosts).

(** ** The query *)
Record PeerCardDriftR : Set := mkDriftR {
  dr_LatestHash : string;
  dr_LatestHashObservedAt : Time;
  dr_ReportedHashes : gmap string ReportedHash
}.

Record RaterPeers : Type := mkRaterPeers {
  rp_hashes : gmap string peerHashCache;
  rp_cards : gmap string peerCardState
}.

Definition drift_of (caches : option peerHashCache) (cards : option peerCardState) (peer : string)
    : PeerCardDriftR :=
  let '(h, t) := match cards with
                 | Some s => default (""%string, zero_time) (snapshot s peer)
                 | None => (""%string, zero_time)
                 end in
  mkDriftR h t (match caches with Some c => reportedByPeer c peer | None => ∅ end).

(** [GetPeerCardDrift] for an AgentDeploy the rater knows; the outer [None] is
    a panic of [ComputeTopology]. *)
Definition GetPeerCardDrift (r : RaterPeers) (agentSet : option AgentSet) (known : gset string)
    (name : string) : option (result unit (gmap string PeerCardDriftR)) :=
  if negb (bool_decide (name ∈ known)) then Some (Err tt)
  else
    topo ← ComputeTopology agentSet name;
    Some (Ok (fold_left (λ out p,
                if bool_decide (peer_Kind p = PeerKindManaged)
                then <[peer_Name p := drift_of (rp_hashes r !! name) (rp_cards r !! name) (peer_Name p)]> out
                else out) (tp_Peers topo) ∅)).

(** ** The gate is stable and converges *)
Section gate.
Context (window : Z) (Hwin : 1 <= window < 2 ^ 62).
#[local] Set Default Proof Using "Type*".

(** The last [pendingCount] polls were the pending hash. *)
Definition gate_ok (g : gatedHash) (seen : list string) : Prop :=
  0 <= pendingCount g < window ∧
  (0 < pendingCount g → ∃ pre, seen = pre ++ replicate (Z.to_nat (pendingCount g)) (pending g)) ∧
  (accepted g ≠ ""%string →
     ∃ pre post, seen = pre ++ replicate (Z.to_nat window) (accepted g) ++ post).

Lemma replicate_snoc {A} n (x : A) : replicate n x ++ [x] = replicate (S n) x.
Proof. rewrite replicate_S_end. done. Qed.

Lemma observe_ok g seen hash now :
  gate_ok g seen → gate_ok (observe g hash now window) (seen ++ [hash]).
Proof.
  intros (Hc & Hp & Ha). unfold observe.
  assert (accepted g ≠ ""%string →
     ∃ pre post, seen ++ [hash] = pre ++ replicate (Z.to_nat window) (accepted g) ++ post) as Ha'.
  { intros (pre & post & ->)%Ha. exists pre, (post ++ [hash]). by rewrite <- !app_assoc. }
  destruct (String.eqb_spec hash (accepted g)) as [->|Hna].
  { split_and!; cbn; [lia|lia|done|done]. }
  destruct (String.eqb_spec hash (pending g)) as [->|Hnp]; cbn [pendingCount pending accepted].
  - rewrite wrap_s_small by (unfold in_s; lia).
    assert (∃ pre, seen ++ [pending g] =
                   pre ++ replicate (Z.to_nat (pendingCount g + 1)) (pending g)) as (pre & Hpre).
    { destruct (decide (0 < pendingCount g)) as [Hpos|Hz].
      - destruct (Hp Hpos) as (pre & ->). exists pre. rewrite <- app_assoc, replicate_snoc.
        do 2 f_equal. lia.
      - replace (pendingCount g + 1) with 1 by lia. by exists seen. }
    case_match; zbool; (split_and!; cbn [pendingCount pending accepted]; [lia|lia| |]); try done.
    + intros _. exists pre, []. rewrite app_nil_r, Hpre. do 2 f_equal. lia.
    + intros _. by exists pre.
  - case_match; zbool; (split_and!; cbn [pendingCount pending accepted]; [lia|lia| |]); try done.
    + intros _. exists seen, []. rewrite app_nil_r. by replace (Z.to_nat window) with 1%nat by lia.
    + intros _. by exists seen.
Qed.

Lemma observe_all_ok g seen polls :
  gate_ok g seen → gate_ok (observe_all g polls window) (seen ++ map fst polls).
Proof.
  revert g seen. induction polls as [|[h t] polls IH]; intros g seen Hg; cbn [observe_all fold_left map].
  { by rewrite app_nil_r. }
  rewrite cons_middle, app_assoc. apply IH. by apply observe_ok.
Qed.

Lemma observe_same g h t : accepted g = h → accepted (observe g h t window) = h.
Proof. intros <-. unfold observe. by rewrite String.eqb_refl. Qed.

Lemma observe_count g h t :
  0 <= pendingCount g < window → 0 <= pendingCount (observe g h t window) < window.
Proof.
  intros Hg. unfold observe. destruct (String.eqb h (accepted g)); [cbn; lia|].
  destruct (String.eqb h (pending g)); cbn [pendingCount];
    [rewrite wrap_s_small by (unfold in_s; lia)|]; case_match; zbool; cbn; lia.
Qed.

(** After [n] polls of the same hash the gate has accepted it or counts
    them. *)
Lemma observe_run g h times :
  0 <= pendingCount g < window →
  let g' := observe_all g (map (λ t, (h, t)) times) window in
  accepted g' = h ∨
  (pending g' = h ∧ Z.of_nat (length times) <= pendingCount g' < window ∧ times ≠ []) ∨ times = [].
Proof.
  intros Hg. induction times as [|t times IH] using rev_ind; cbv zeta; [by right; right|].
  unfold observe_all in *. rewrite map_app, fold_left_app. cbn [map fold_left fst snd].
  set (g1 := fold_left _ _ g) in *. rewrite length_app. cbn [length].
  assert (0 <= pendingCount g1 < window) as Hg1.
  { subst g1. clear IH. revert g Hg. induction times as [|t' times IH]; intros g Hg; cbn; [done|].
    apply IH. by apply observe_count. }
  destruct IH as [Ha|[(Hp & Hn & _)|Hnil]].
  - left. by apply observe_same.
  - unfold observe. destruct (String.eqb_spec h (accepted g1)) as [E|Hna]; [left; by cbn|].
    rewrite Hp, String.eqb_refl. cbn [pendingCount pending accepted].
    rewrite wrap_s_small by (unfold in_s; lia). case_match; zbool; cbn; [by left|].
    right. left. split_and!; [done|lia|lia|]. by destruct times.
  - subst times. unfold observe. destruct (String.eqb_spec h (accepted g1)) as [E|Hna]; [left; by cbn|].
    destruct (String.eqb_spec h (pending g1)) as [E|Hnp]; cbn [pendingCount pending accepted].
    + rewrite wrap_s_small by (unfold in_s; lia). case_match; zbool; cbn; [by left|].
      right. left. split_and!; try done; lia.
    + case_match; zbool; cbn; [by left|]. right. left. split_and!; try done; lia.
Qed.

(** The gate accepts a card hash only after [window] consecutive
    polls returned it, and accepts any hash that [window] consecutive polls
    return; so a peer that alternates between two cards during a rollout
    never flips the accepted hash. *)
Theorem gate_needs_consecutive_polls polls h times :
  let g := observe_all zero_gate polls window in
  (accepted g ≠ ""%string →
     ∃ pre post, map fst polls = pre ++ replicate (Z.to_nat window) (accepted g) ++ post) ∧
  (window <= Z.of_nat (length times) →
     accepted (observe_all g (map (λ t, (h, t)) times) window) = h).
Proof.
  cbv zeta.
  assert (gate_ok (observe_all zero_gate polls window) ([] ++ map fst polls)) as (Hc & _ & Ha).
  { apply observe_all_ok. split_and!; cbn; [lia|lia|lia|done]. }
  split; [exact Ha|]. intros Hn.
  destruct (observe_run (observe_all zero_gate polls window) h times Hc) as [?|[(_ & ? & _)|E]];
    [done|lia|rewrite E in Hn; cbn in Hn; lia].
Qed.
End gate.

Lemma gate_needs_consecutive_polls_witness :
  let polls := [("x", 1); ("y", 2); ("x", 3); ("x", 4); ("x", 5); ("y", 6)]%string in
  let g := observe_all zero_gate polls 3 in
  accepted g = "x"%string ∧
  (accepted g ≠ ""%string →
     ∃ pre post, map fst polls = pre ++ replicate (Z.to_nat 3) (accepted g) ++ post) ∧
  (3 <= Z.of_nat (length [7; 8; 9]) →
     accepted (observe_all g (map (λ t, ("y"%string, t)) [7; 8; 9]) 3) = "y"%string).
Proof.
  intros polls g. split; [vm_compute; reflexivity|].
  exact (gate_needs_consecutive_polls 3 ltac:(lia) polls "y" [7; 8; 9]).
Defined.

(** ** The cache follows discovery *)
Section cache.
Context `{GoRange}.
#[local] Set Default Proof Using "Type*".

Inductive CacheOp : Set :=
  | SetOp (host pod : string) (hashes : gmap string ReportedHash) (now : Time)
  | PruneOp (liveHosts : list string).
Definition run_op (c : peerHashCache) (op : CacheOp) : peerHashCache :=
  match op with
  | SetOp host pod hashes now => set c host pod hashes now
  | PruneOp hosts => prune c hosts
  end.

(** Every cached pod is the last one scraped at some host. *)
Definition cache_ok (c : peerHashCache) : Prop :=
  ∀ pod hashes, byPod c !! pod = Some hashes → ∃ host, hostToPod c !! host = Some pod.

Lemma set_ok c host pod hashes now : cache_ok c → cache_ok (set c host pod hashes now).
Proof.
  intros Hc p hs. cbn [set byPod hostToPod]. destruct (decide (pod = p)) as [->|Hne].
  { intros _. exists host. apply lookup_insert_eq. }
  rewrite lookup_insert_ne by done. intros Hp.
  assert (byPod c !! p = Some hs ∧ hostToPod c !! host ≠ Some p) as [Hb Hh].
  { destruct (hostToPod c !! host) as [prev|]; [|done].
    destruct (String.eqb_spec prev pod) as [E|Hd]; cbn [negb] in Hp; [split; [done|congruence]|].
    apply lookup_delete_Some in Hp as [? ?]. split; [done|congruence]. }
  destruct (Hc p hs Hb) as [h Hp']. exists h. rewrite lookup_insert_ne; [done|]. intros ->. done.
Qed.

Section prune.
Context (live : gset string).

Lemma prune_byPod l c pod hs :
  byPod (fold_left (prune_host live) l c) !! pod = Some hs ↔
  byPod c !! pod = Some hs ∧ ∀ h, (h, pod) ∈ l → h ∈ live.
Proof.
  revert c. induction l as [|[h p] l IH]; intros c; cbn [fold_left].
  { split; [|by intros [? _]]. intros ?. split; [done|]. by intros ? ?%elem_of_nil. }
  rewrite IH. setoid_rewrite elem_of_cons. unfold prune_host. cbn [fst snd].
  case_bool_decide as Hl; [naive_solver|]. cbn [byPod]. rewrite lookup_delete_Some. naive_solver.
Qed.

Lemma prune_hostToPod l c h pod :
  hostToPod (fold_left (prune_host live) l c) !! h = Some pod ↔
  hostToPod c !! h = Some pod ∧ ∀ p, (h, p) ∈ l → h ∈ live.
Proof.
  revert c. induction l as [|[h' p] l IH]; intros c; cbn [fold_left].
  { split; [|by intros [? _]]. intros ?. split; [done|]. by intros ? ?%elem_of_nil. }
  rewrite IH. setoid_rewrite elem_of_cons. unfold prune_host. cbn [fst snd].
  case_bool_decide as Hl; [naive_solver|]. cbn [hostToPod]. rewrite lookup_delete_Some. naive_solver.
Qed.
End prune.

(** What is left after a prune: pods of live hosts, with what they had. *)
Lemma prune_spec c hosts pod hs :
  cache_ok c → byPod (prune c hosts) !! pod = Some hs →
  byPod c !! pod = Some hs ∧ ∃ host, host ∈ hosts ∧ hostToPod (prune c hosts) !! host = Some pod.
Proof.
  intros Hc. unfold prune. rewrite prune_byPod. intros [Hb Hl]. split; [done|].
  destruct (Hc pod hs Hb) as [host Hh].
  assert (host ∈ (list_to_set hosts : gset string)) as Hin by (apply Hl; by apply range_map_elem).
  exists host. split; [by apply elem_of_list_to_set in Hin|]. apply prune_hostToPod. split; [done|].
  intros _ _. done.
Qed.

Lemma prune_ok c hosts : cache_ok c → cache_ok (prune c hosts).
Proof. intros Hc pod hs Hp. destruct (prune_spec c hosts pod hs Hc Hp) as [_ (h & _ & ?)]. eauto. Qed.

Lemma run_ok ops c : cache_ok c → cache_ok (fold_left run_op ops c).
Proof.
  revert c. induction ops as [|op ops IH]; intros c Hc; cbn [fold_left]; [done|].
  apply IH. destruct op; [by apply set_ok|by apply prune_ok].
Qed.

(** After any sequence of scrapes and prunes, a prune leaves only
    hashes of pods last scraped at a host that is still discovered: a pod
    that is gone or was replaced is never reported as drifted.  What is kept
    is unchanged. *)
Theorem pruned_cache_reports_live_pods ops hosts peer pod rh :
  let c := fold_left run_op ops newPeerHashCache in
  reportedByPeer (prune c hosts) peer !! pod = Some rh →
  reportedByPeer c peer !! pod = Some rh ∧
  ∃ host, host ∈ hosts ∧ hostToPod (prune c hosts) !! host = Some pod.
Proof.
  cbv zeta. set (c := fold_left _ _ _). unfold reportedByPeer. rewrite !lookup_omap.
  destruct (byPod (prune c hosts) !! pod) as [hs|] eqn:Hp; [|done]. cbn. intros Hrh.
  apply prune_spec in Hp as [Hb Hh].
  - rewrite Hb. done.
  - apply run_ok. intros p hs' Hn. discriminate Hn.
Qed.
End cache.

Lemma pruned_cache_reports_live_pods_witness :
  let ops := [SetOp "h0" "pod-a" (<["peer"%string := mkReported "x" 1]> ∅) 1;
              SetOp "h1" "pod-b" (<["peer"%string := mkReported "y" 1]> ∅) 2;
              SetOp "h0" "pod-c" (<["peer"%string := mkReported "z" 3]> ∅) 3]%string in
  let c := fold_left run_op ops newPeerHashCache in
  reportedByPeer c "peer" !! "pod-c"%string = Some (mkReported "z" 3) ∧
  ∃ host, host ∈ ["h0"%string] ∧ hostToPod (prune c ["h0"%string]) !! host = Some "pod-c"%string.
Proof.
  intros ops c.
  refine (pruned_cache_reports_live_pods ops ["h0"%string] "peer" "pod-c" (mkReported "z" 3) _).
  vm_compute. reflexivity.
Defined.
End PeerCards.
