(* ===== verification/MetricsText.v ===== *)
(** * Reading the broker's metrics back
    ([pkg/broker/cmd/drain.go], [pkg/daemon/server/scraper/metrics_scraper.go])

    Two readers of the broker's [/metrics] page: the preStop drain scans the
    text line by line ([sumInflight]), the daemon uses the Prometheus parser
    and picks three families ([ScrapeMetrics]).  The text scan is modelled on
    bytes; [strconv.ParseFloat] and the Prometheus text parser are
    parameters. *)
From S2P Require Import Prelude Float64 Types Sse Budgets RateLimit Proxies Queue Rater.
#[local] Open Scope Z_scope.

Module MetricsText.

Abbreviation text := (list byte) (only parsing).
Definition of_string (s : string) : text := String.list_byte_of_string s.

(** ** Lines and fields *)

(** [bufio.Scanner] with [ScanLines]: lines end at LF; a last line without
    one counts, an empty rest does not. *)
Fixpoint scan_lines (cur : text) (s : text) : list text :=
  match s with
  | [] => match cur with [] => [] | _ => [rev cur] end
  | b :: s' => if bool_decide (b = Sse.LF) then rev cur :: scan_lines [] s' else scan_lines (b :: cur) s'
  end.
Definition lines (s : text) : list text := scan_lines [] s.

(** Lines the scanner's buffer cannot hold end the scan with an error. *)
Definition maxTokenSize : Z := 65536.

(** [strings.Fields]: maximal runs of bytes that are not white space. *)
Fixpoint fields_from (fuel : nat) (cur s : text) : list text :=
  let flush := match cur with [] => [] | _ => [rev cur] end in
  match fuel with
  | O => flush
  | S n =>
      match s with
      | [] => flush
      | b :: s' =>
          match Sse.strip_one Sse.spaces s with
          | Some rest => flush ++ fields_from n [] rest
          | None => fields_from n (b :: cur) s'
          end
      end
  end.
Definition Fields (s : text) : list text := fields_from (S (length s)) [] s.

Definition has_prefix (p s : text) : bool :=
  match Sse.strip_prefix p s with Some _ => true | None => false end.

(** ** The drain's scan *)
Definition inflightMetricName : text := of_string "broker_inflight_requests".

Section scan.
(** [strconv.ParseFloat(s, 64)] *)
Context (ParseFloat : text → option float64).

(** The loop of [sumInflight] over the scanned lines. *)
Fixpoint sum_lines (ls : list text) (total : float64) : result string float64 :=
  match ls with
  | [] => Ok total
  | l :: rest =>
      if maxTokenSize <=? Z.of_nat (length l) then Err "read metrics"
      else
        let line := Sse.TrimSpace l in
        if bool_decide (line = []) || has_prefix (of_string "#") line then sum_lines rest total
        else if negb (has_prefix inflightMetricName line) then sum_lines rest total
        else
          let fields := Fields line in
          if (length fields <? 2)%nat then sum_lines rest total
          else match ParseFloat (List.last fields []) with
               | None => Err "parse inflight value"
               | Some v => sum_lines rest (fadd total v)
               end
  end.

(** [readErr]: the reader failed after [body]. *)
Definition sumInflight (body : text) (readErr : bool) : result string float64 :=
  match sum_lines (lines body) fzero with
  | Err e => Err e
  | Ok total => if readErr then Err "read metrics" else Ok total
  end.

(** [scrapeInflight]: the outcome of the request, then the scan. *)
Inductive httpReply : Set :=
  | HTTPFailed (e : string)
  | HTTPReply (status : Z) (body : list byte) (readErr : bool).

Definition scrapeInflight (r : httpReply) : result string float64 :=
  match r with
  | HTTPFailed e => Err e
  | HTTPReply status body readErr =>
      if negb (status =? 200) then Err ("metrics returned status " +:+ Itoa status)
      else sumInflight body readErr
  end.

(** A round of the drain loop of [Budgets]: the page read this time, whether
    the budget had elapsed, and which of budget and ticker fired first. *)
Definition drain_round (p : httpReply * bool * bool) : Budgets.round :=
  Budgets.mkRound (match scrapeInflight p.1.1 with Ok v => Some v | Err _ => None end) p.1.2 p.2.

(** [RunDrain]: budgets from the environment, then the drain. *)
Definition RunDrain (graceEnv : string) (fired : bool) (pages : list (httpReply * bool * bool)) : option bool :=
  Budgets.Drain (Budgets.Propagation (Budgets.resolveBudgets graceEnv)) fired (map drain_round pages).
End scan.

(** ** The daemon's scraper *)
Definition MetricInflightName : string := "broker_inflight_requests".
Definition MetricRequestsName : string := "broker_requests_total".
Definition MetricStreamMessagesName : string := "broker_stream_messages_total".
Definition TransportLabelName : string := "transport".

(** A parsed metric: its labels and the value under the type it was declared
    with ([GetGauge]/[GetCounter] are nil for the other types). *)
Inductive metricValue : Set :=
  | GaugeValue (v : float64)
  | CounterValue (v : float64)
  | OtherValue.
Record dtoMetric : Set := mkMetric { m_labels : list (string * string); m_value : metricValue }.
Abbreviation families := (gmap string (list dtoMetric)) (only parsing).

Fixpoint labelValue (labels : list (string * string)) (name : string) : string :=
  match labels with
  | [] => ""
  | (n, v) :: rest => if String.eqb n name then v else labelValue rest name
  end.

Definition collect (get : metricValue → option float64) (dst : gmap string float64) (ms : list dtoMetric)
    : gmap string float64 :=
  fold_left (λ dst m,
    let transport := labelValue (m_labels m) TransportLabelName in
    if String.eqb transport "" then dst
    else match get (m_value m) with Some v => <[transport := v]> dst | None => dst end) ms dst.

Definition GetGauge (v : metricValue) : option float64 :=
  match v with GaugeValue x => Some x | _ => None end.
Definition GetCounter (v : metricValue) : option float64 :=
  match v with CounterValue x => Some x | _ => None end.

Definition collectCounterByTransport (dst : gmap string float64) (fams : gmap string (list dtoMetric))
    (metric : string) : gmap string float64 :=
  match fams !! metric with None => dst | Some ms => collect GetCounter dst ms end.

Definition metricsURL (host : string) : string :=
  "https://" +:+ host +:+ ":" +:+ Itoa AgentBrokerIntrospectionPort +:+ "/metrics".

Section scrape.
(** [expfmt]'s text parser over the reader of a body: the bytes it yields, and
    whether it then fails instead of ending. *)
Context (TextToMetricFamilies : text → bool → result string (gmap string (list dtoMetric))).
(** What a GET of the URL answers *)
Context (get : string → httpReply).

(** [ScrapeMetrics]; the caller stamps the time. *)
Definition ScrapeMetrics (host : string) : result string Rater.PodSample :=
  match get (metricsURL host) with
  | HTTPFailed e => Err ("scrape " +:+ host +:+ ": " +:+ e)
  | HTTPReply status body readErr =>
      if negb (status =? 200) then Err ("scrape " +:+ host +:+ ": status " +:+ Itoa status)
      else match TextToMetricFamilies body readErr with
           | Err e => Err ("parse metrics from " +:+ host +:+ ": " +:+ e)
           | Ok fams =>
               let inflight := match fams !! MetricInflightName with
                               | None => ∅
                               | Some ms => collect GetGauge ∅ ms
                               end in
               Ok (Rater.mkPodSample 0
                     (collectCounterByTransport ∅ fams MetricRequestsName)
                     (collectCounterByTransport ∅ fams MetricStreamMessagesName)
                     inflight)
           end
  end.
End scrape.

(** ** Lines and fields of a page *)
Definition graphic (b : byte) : bool := (33 <=? Z_of_byte b) && (Z_of_byte b <=? 126).

Lemma strip_graphic b l : graphic b = true → Sse.strip_one Sse.spaces (b :: l) = None.
Proof. destruct b; try (intros H; discriminate H); intros _; reflexivity. Qed.

Lemma strip_graphic_rev b l : graphic b = true → Sse.strip_one (map (@rev byte) Sse.spaces) (b :: l) = None.
Proof. destruct b; try (intros H; discriminate H); intros _; reflexivity. Qed.

(** White space at neither end: nothing to trim. *)
Lemma TrimSpace_graphic a m b :
  graphic a = true → graphic b = true → Sse.TrimSpace (a :: m ++ [b]) = a :: m ++ [b].
Proof.
  intros Ha Hb. unfold Sse.TrimSpace.
  assert (Sse.trim_left (length (a :: m ++ [b])) Sse.spaces (a :: m ++ [b]) = a :: m ++ [b]) as ->.
  { cbn [length Sse.trim_left]. by rewrite strip_graphic. }
  assert (rev (a :: m ++ [b]) = b :: rev m ++ [a]) as E.
  { cbn [rev]. by rewrite rev_app_distr. }
  rewrite E. cbn [length Sse.trim_left]. rewrite strip_graphic_rev by done.
  rewrite <- E. apply rev_involutive.
Qed.

Lemma fields_word w n cur s :
  Forall (λ b, graphic b = true) w →
  fields_from (length w + n) cur (w ++ s) = fields_from n (rev w ++ cur) s.
Proof.
  intros Hw. revert cur. induction Hw as [|b w Hb _ IH]; intros cur; [done|].
  cbn [length Nat.add fields_from app]. rewrite strip_graphic by done. rewrite IH.
  cbn [rev]. by rewrite <- app_assoc.
Qed.

Lemma Fields_two w v :
  Forall (λ b, graphic b = true) w →
  Forall (λ b, graphic b = true) v → w ≠ [] → v ≠ [] →
  Fields (w ++ x20 :: v) = [w; v].
Proof.
  intros Hw Hv Nw Nv. unfold Fields. rewrite length_app. cbn [length].
  replace (S (length w + S (length v)))%nat with (length w + S (length v + 1))%nat by lia.
  rewrite fields_word by done. cbn [fields_from].
  change (Sse.strip_one Sse.spaces (x20 :: v)) with (Some v).
  rewrite app_nil_r. pose proof (fields_word v 1 [] [] Hv) as E. rewrite app_nil_r in E. rewrite E.
  cbn [fields_from]. rewrite app_nil_r, !rev_involutive.
  destruct (rev w) eqn:Ew; [apply (f_equal (@rev byte)) in Ew; rewrite rev_involutive in Ew; done|].
  destruct (rev v) eqn:Ev; [apply (f_equal (@rev byte)) in Ev; rewrite rev_involutive in Ev; done|]. done.
Qed.

Lemma scan_line l s cur :
  Sse.LF ∉ l → scan_lines cur (l ++ Sse.LF :: s) = (rev cur ++ l) :: scan_lines [] s.
Proof.
  revert cur. induction l as [|b l IH]; intros cur Hl; cbn [app scan_lines].
  - by rewrite bool_decide_eq_true_2, app_nil_r.
  - apply not_elem_of_cons in Hl as [Hb Hl]. rewrite bool_decide_eq_false_2 by congruence.
    rewrite IH by done. cbn [rev]. by rewrite <- app_assoc.
Qed.

Definition unlines (ls : list text) : text := concat (map (λ l, l ++ [Sse.LF]) ls).

Lemma lines_unlines ls : Forall (λ l, Sse.LF ∉ l) ls → lines (unlines ls) = ls.
Proof.
  unfold lines, unlines. induction 1 as [|l ls Hl _ IH]; [done|]. cbn [map concat].
  rewrite <- app_assoc. cbn [app]. rewrite scan_line by done. by rewrite IH.
Qed.

(** ** A metrics page

    Lines of the in-flight gauge, with the text of their value, among other
    lines (comments, other series). *)
Inductive pageLine : Set :=
  | InflightLine (transport value : text)
  | OtherLine (l : text).

Definition render (p : pageLine) : text :=
  match p with
  | InflightLine t v => (inflightMetricName ++ of_string "{transport=" ++ [x22] ++ t ++ [x22; x7d]) ++ x20 :: v
  | OtherLine l => l
  end.

Section page.
Context (ParseFloat : text → option float64).

Definition line_ok (p : pageLine) : Prop :=
  Sse.LF ∉ render p ∧ Z.of_nat (length (render p)) < maxTokenSize ∧
  match p with
  | InflightLine t v =>
      Forall (λ b, graphic b = true) t ∧ Forall (λ b, graphic b = true) v ∧ v ≠ [] ∧ is_Some (ParseFloat v)
  | OtherLine l => has_prefix inflightMetricName (Sse.TrimSpace l) = false
  end.

Definition line_value (p : pageLine) : list float64 :=
  match p with InflightLine _ v => option_list (ParseFloat v) | OtherLine _ => [] end.

Lemma sum_page ps total :
  Forall line_ok ps →
  sum_lines ParseFloat (map render ps) total = Ok (fold_left fadd (concat (map line_value ps)) total).
Proof.
  intros HF. revert total. induction HF as [|p ps (_ & Hlen & Hp) _ IH]; intros total; [done|].
  cbn [map sum_lines]. rewrite (proj2 (Z.leb_gt _ _) Hlen). destruct p as [t v|l].
  - destruct Hp as (Ht & Hv & Nv & [x Hx]). cbn [line_value]. rewrite Hx. cbn [option_list concat app fold_left].
    set (w := inflightMetricName ++ of_string "{transport=" ++ [x22] ++ t ++ [x22; x7d]).
    assert (Forall (λ b, graphic b = true) w) as Hw.
    { unfold w. rewrite !Forall_app. split_and!; [| | |done|]; apply (bool_decide_unpack _); by vm_compute. }
    assert (Sse.TrimSpace (w ++ x20 :: v) = w ++ x20 :: v) as Etrim.
    { destruct (exists_last Nv) as (v' & b & Ev). subst v. apply Forall_app in Hv as [_ Hb].
      inversion Hb as [|? ? Hgb _]; subst.
      assert (∃ m, w = x62 :: m) as [m ->] by (eexists; reflexivity).
      replace ((x62 :: m) ++ x20 :: v' ++ [b]) with (x62 :: (m ++ x20 :: v') ++ [b])
        by (cbn [app]; by rewrite <- app_assoc).
      by apply TrimSpace_graphic. }
    change (render (InflightLine t v)) with (w ++ x20 :: v). rewrite Etrim.
    rewrite (bool_decide_eq_false_2 (w ++ x20 :: v = [])) by (by destruct w).
    change (has_prefix (of_string "#") (w ++ x20 :: v)) with false. cbn [orb].
    assert (has_prefix inflightMetricName (w ++ x20 :: v) = true) as -> by reflexivity. cbn [negb].
    rewrite Fields_two by (done || by destruct w). cbn [length Nat.ltb Nat.leb List.last]. rewrite Hx. apply IH.
  - cbn [render line_value concat app]. rewrite Hp. case_match; apply IH.
Qed.

(** The drain reads the broker's page as the broker wrote it: on any
    page made of the in-flight gauge's samples and other lines, in any order,
    [sumInflight] succeeds and is the sum of exactly those samples, each
    counted once; a page without the gauge reads zero. *)
Theorem sum_inflight_reads_page ps :
  Forall line_ok ps →
  sumInflight ParseFloat (unlines (map render ps)) false =
    Ok (fold_left fadd
          (concat (map (λ p, match p with
                             | InflightLine _ v => option_list (ParseFloat v)
                             | OtherLine _ => []
                             end) ps)) fzero) ∧
  (Forall (λ p, match p with InflightLine _ _ => False | OtherLine _ => True end) ps →
   sumInflight ParseFloat (unlines (map render ps)) false = Ok fzero).
Proof.
  intros HF. unfold sumInflight. rewrite lines_unlines.
  2: { apply Forall_fmap. eapply Forall_impl; [exact HF|]. by intros p (? & _). }
  rewrite sum_page by done. split; [done|]. intros HO. do 2 f_equal.
  clear HF. induction HO as [|p ps Hp _ IH]; [done|]. destruct p; [done|]. exact IH.
Qed.
End page.


(** The gauge and counter lines of a broker that proxies one JSON-RPC and two
    gRPC requests. *)
Definition ex_page : list pageLine :=
  [OtherLine (of_string "# TYPE broker_inflight_requests gauge");
   InflightLine (of_string "jsonrpc") (of_string "1");
   OtherLine [];
   InflightLine (of_string "grpc") (of_string "2");
   OtherLine (of_string "broker_requests_total{} 9")].
Definition ex_parse (t : text) : option float64 :=
  if bool_decide (t = of_string "1") then Some (f_of_Z 1)
  else if bool_decide (t = of_string "2") then Some (f_of_Z 2) else None.

Lemma sum_inflight_reads_page_witness :
  sumInflight ex_parse (unlines (map render ex_page)) false = Ok (f_of_Z 3).
Proof.
  assert (Forall (line_ok ex_parse) ex_page) as H.
  { unfold ex_page. split_list; unfold line_ok; split_and!;
      try (apply (bool_decide_unpack _); vm_compute; reflexivity); try (vm_compute; reflexivity).
    all: vm_compute; try discriminate; eauto. }
  destruct (sum_inflight_reads_page ex_parse ex_page H) as [E _]. rewrite E. vm_compute. reflexivity.
Defined.

(** ** What the daemon reads is what the broker counts *)
Definition series (kindOf : float64 → metricValue) (m : gmap string Z) : list dtoMetric :=
  map (λ tv, mkMetric [(TransportLabelName, tv.1)] (kindOf (f_of_Z tv.2))) (map_to_list m).

(** The exposition contract: the page of a broker parses into families that
    hold one sample per transport, in any order; a vector without series has
    no family. *)
Definition family_of (fams : gmap string (list dtoMetric)) (name : string) (kindOf : float64 → metricValue)
    (m : gmap string Z) : Prop :=
  match fams !! name with
  | None => m = ∅
  | Some ms => ms ≡ₚ series kindOf m
  end.

Lemma collect_lookup get kindOf (l : list (string * Z)) dst t :
  (∀ v, get (kindOf v) = Some v) → NoDup l.*1 → "" ∉ l.*1 →
  collect get dst (map (λ tv, mkMetric [(TransportLabelName, tv.1)] (kindOf (f_of_Z tv.2))) l) !! t =
  match (list_to_map l : gmap string Z) !! t with Some v => Some (f_of_Z v) | None => dst !! t end.
Proof.
  intros Hg. unfold collect. revert dst. induction l as [|[k v] l IH]; intros dst HN He; [done|].
  cbn [fmap list_fmap fst] in HN, He. apply NoDup_cons in HN as [Hk HN].
  apply not_elem_of_cons in He as [Hke He]. cbn [map fold_left m_labels m_value fst snd labelValue].
  change (String.eqb TransportLabelName TransportLabelName) with true. cbn iota.
  assert (String.eqb k "" = false) as -> by (apply String.eqb_neq; congruence). rewrite Hg.
  rewrite IH by done. cbn [list_to_map fst snd foldr]. destruct (decide (k = t)) as [->|N].
  - rewrite lookup_insert_eq. rewrite (not_elem_of_list_to_map_1 l t) by done. by rewrite lookup_insert_eq.
  - by rewrite !lookup_insert_ne.
Qed.

Lemma collect_perm get kindOf m ms :
  (∀ v, get (kindOf v) = Some v) → m !! "" = None → ms ≡ₚ series kindOf m →
  collect get ∅ ms = f_of_Z <$> m.
Proof.
  intros Hg He Hp. unfold series in Hp.
  apply Permutation_map_inv in Hp as (l & -> & Hl).
  assert (NoDup l.*1) as HN by (rewrite <- Hl; apply NoDup_fst_map_to_list).
  apply map_eq. intros t. rewrite collect_lookup; [|done|done|].
  - rewrite lookup_fmap. rewrite <- (list_to_map_to_list m).
    rewrite (list_to_map_proper (map_to_list m) l (NoDup_fst_map_to_list m) Hl).
    rewrite lookup_empty. by destruct ((list_to_map l : gmap string Z) !! t).
  - intros Hin. apply list_elem_of_fmap in Hin as ([k v] & E & Hin). cbn in E. subst k.
    rewrite <- Hl in Hin. apply elem_of_map_to_list in Hin. congruence.
Qed.

(** The sample of a page whose three families are the broker's vectors. *)
Lemma sample_of_families fams (m : Proxies.Metrics) :
  family_of fams "broker_inflight_requests" GaugeValue (Proxies.inflight m) →
  family_of fams "broker_requests_total" CounterValue (Proxies.requests m) →
  family_of fams "broker_stream_messages_total" CounterValue (Proxies.streamMessages m) →
  Proxies.inflight m !! "" = None → Proxies.requests m !! "" = None → Proxies.streamMessages m !! "" = None →
  collectCounterByTransport ∅ fams MetricRequestsName = f_of_Z <$> Proxies.requests m ∧
  collectCounterByTransport ∅ fams MetricStreamMessagesName = f_of_Z <$> Proxies.streamMessages m ∧
  match fams !! MetricInflightName with None => ∅ | Some ms => collect GetGauge ∅ ms end =
    f_of_Z <$> Proxies.inflight m.
Proof.
  intros H1 H2 H3 N1 N2 N3.
  assert (∀ mm name, mm !! "" = None → family_of fams name CounterValue mm →
            collectCounterByTransport ∅ fams name = f_of_Z <$> mm) as HC.
  { intros mm name Hn Hf. unfold collectCounterByTransport, family_of in *.
    destruct (fams !! name); [by apply (collect_perm GetCounter CounterValue)|].
    subst. by rewrite fmap_empty. }
  split_and!; [by apply HC..|].
  unfold family_of in H1. change "broker_inflight_requests" with MetricInflightName in H1.
  destruct (fams !! MetricInflightName); [by apply (collect_perm GetGauge GaugeValue)|].
  rewrite H1. by rewrite fmap_empty.
Qed.

(** C39: the sample the daemon stores is the broker's own counting.  With the
    Prometheus parser reporting a failed read (as it documents) and the page of
    a broker, no transport of which is unnamed, parsing into its metric
    vectors, [ScrapeMetrics] returns exactly the in-flight gauge, the request
    counter and the stream-message counter of every transport.  A request that
    fails, a status other than 200 whatever the page holds, a body that cannot
    be read to its end and a page that does not parse are errors, never a
    sample. *)
Theorem scrape_reads_broker_metrics TextToMetricFamilies get host (m : Proxies.Metrics) :
  (∀ body, ∃ e, TextToMetricFamilies body true = Err e) →
  Proxies.inflight m !! "" = None → Proxies.requests m !! "" = None → Proxies.streamMessages m !! "" = None →
  let scraped := ScrapeMetrics TextToMetricFamilies get host in
  match get (metricsURL host) with
  | HTTPFailed e => scraped = Err ("scrape " +:+ host +:+ ": " +:+ e)
  | HTTPReply status body readErr =>
      (status ≠ 200 → scraped = Err ("scrape " +:+ host +:+ ": status " +:+ Itoa status)) ∧
      (readErr = true → ∃ e, scraped = Err e) ∧
      (status = 200 → ∀ e, TextToMetricFamilies body readErr = Err e →
         scraped = Err ("parse metrics from " +:+ host +:+ ": " +:+ e)) ∧
      (status = 200 → ∀ fams, TextToMetricFamilies body readErr = Ok fams →
         family_of fams "broker_inflight_requests" GaugeValue (Proxies.inflight m) →
         family_of fams "broker_requests_total" CounterValue (Proxies.requests m) →
         family_of fams "broker_stream_messages_total" CounterValue (Proxies.streamMessages m) →
         scraped = Ok (Rater.mkPodSample 0 (f_of_Z <$> Proxies.requests m)
                         (f_of_Z <$> Proxies.streamMessages m) (f_of_Z <$> Proxies.inflight m)))
  end.
Proof.
  intros HT N1 N2 N3. cbv zeta. unfold ScrapeMetrics.
  destruct (get (metricsURL host)) as [e|status body readErr]; [done|].
  destruct (Z.eqb_spec status 200) as [->|Hs]; cbn [negb]; [|split_and!; by eauto].
  split_and!; [done|..].
  - intros ->. destruct (HT body) as [e ->]. eauto.
  - by intros _ e ->.
  - intros _ fams -> H1 H2 H3.
    destruct (sample_of_families fams m H1 H2 H3 N1 N2 N3) as (-> & -> & ->). done.
Qed.

Definition ex_metrics : Proxies.Metrics :=
  Proxies.incRequests "rest" (Proxies.incInflight "rest" 2 Proxies.NewMetrics).
Definition ex_families (body : text) (readErr : bool) : result string (gmap string (list dtoMetric)) :=
  if readErr then Err "unexpected EOF"
  else Ok {[ MetricInflightName := series GaugeValue (Proxies.inflight ex_metrics);
             MetricRequestsName := series CounterValue (Proxies.requests ex_metrics) ]}.
Lemma scrape_reads_broker_metrics_witness :
  ScrapeMetrics ex_families (λ _, HTTPReply 200 [] false) "pod" =
    Ok (Rater.mkPodSample 0 (f_of_Z <$> Proxies.requests ex_metrics)
          (f_of_Z <$> Proxies.streamMessages ex_metrics) (f_of_Z <$> Proxies.inflight ex_metrics)) ∧
  ∃ e, ScrapeMetrics ex_families (λ _, HTTPReply 200 [] true) "pod" = Err e.
Proof.
  assert (∀ body, ∃ e, ex_families body true = Err e) as HT by (intros; eexists; reflexivity).
  split.
  - refine (proj2 (proj2 (proj2 (scrape_reads_broker_metrics ex_families (λ _, HTTPReply 200 [] false) "pod"
              ex_metrics HT _ _ _))) eq_refl _ eq_refl _ _ _); vm_compute; reflexivity.
  - exact (proj1 (proj2 (scrape_reads_broker_metrics ex_families (λ _, HTTPReply 200 [] true) "pod"
              ex_metrics HT eq_refl eq_refl eq_refl)) eq_refl).
Defined.

End MetricsText.
