(* ===== verification/Introspect.v ===== *)
(** * The broker's introspection port and the daemon's reading of it
    ([pkg/broker/introspection.go],
    [pkg/daemon/server/scraper/introspect_scraper.go], [agentcard_scraper.go])

    The agent SDK writes the hashes of the peer cards it has seen into a
    file; the broker serves it at [/introspect] through a cache keyed by the
    file's modification time; the daemon decodes the answer into a sample.
    JSON, the card resolver, the canonicaliser and SHA-256 are parameters. *)
From S2P Require Import Prelude K8s Types GoStrings Queue Topology Driftwatch Rater PeerCards Budgets Proxies MetricsText.
#[local] Open Scope Z_scope.

Module Introspect.
Import GoStrings MetricsText.

Record PeerHashEntry : Set := mkEntry { pe_Hash : string; pe_ObservedAt : string }.
#[export] Instance PeerHashEntry_eq_dec : EqDecision PeerHashEntry.
Proof. solve_decision. Defined.
Abbreviation peerHashes := (gmap string PeerHashEntry) (only parsing).

Record introspectResponse : Set := mkResponse { ir_Host : string; ir_PeerHashes : peerHashes }.

(** ** The peer-hashes cache *)
Record peerHashesCache : Set := mkCache { pc_modTime : Time; pc_hashes : option peerHashes }.
Definition resetPeerHashesCache : peerHashesCache := mkCache zero_time None.

Inductive statResult : Set :=
  | StatAbsent
  | StatError (e : string)
  | StatOK (modTime : Time).
Inductive readResult : Set :=
  | ReadAbsent
  | ReadError (e : string)
  | ReadOK (raw : string).

Section cache.
Context (json_Unmarshal : string → result string peerHashes).

(** [readPeerHashes]; [st] is what [os.Stat] returns, [rd] what the later
    [os.ReadFile] returns. *)
Definition readPeerHashes (st : statResult) (rd : readResult) (c : peerHashesCache)
    : result string peerHashes * peerHashesCache :=
  match st with
  | StatAbsent => (Ok ∅, c)
  | StatError e => (Err e, c)
  | StatOK mtime =>
      let fresh :=
        match rd with
        | ReadAbsent => (Ok ∅, c)
        | ReadError e => (Err e, c)
        | ReadOK raw =>
            match json_Unmarshal raw with
            | Err e => (Err e, c)
            | Ok hashes => (Ok hashes, mkCache mtime (Some hashes))
            end
        end in
      match pc_hashes c with
      | Some h => if mtime =? pc_modTime c then (Ok h, c) else fresh
      | None => fresh
      end
  end.

(** ** The handler *)
Inductive reply : Set :=
  | Reply (status : Z) (contentType body : string).

Definition healthz : reply := Reply 200 "" "ok".
Definition readyz (ready : result string unit) : reply :=
  match ready with
  | Err e => Reply 503 "text/plain; charset=utf-8" e
  | Ok _ => Reply 200 "" "ready"
  end.

Context (json_Encode : introspectResponse → string).

(** [/introspect]; [podName] is the POD_NAME variable. *)
Definition introspect (podName : string) (st : statResult) (rd : readResult) (c : peerHashesCache)
    : reply * peerHashesCache :=
  match readPeerHashes st rd c with
  | (Err e, c') => (Reply 500 "text/plain; charset=utf-8" e, c')
  | (Ok hashes, c') => (Reply 200 "application/json" (json_Encode (mkResponse podName hashes)), c')
  end.

Inductive page : Set := Metrics | Healthz | Readyz | Introspect_ | Pprof (name : string).
(** The routes of [NewIntrospectionHandler]. *)
Definition NewIntrospectionHandler (pprofEnabled : bool) : list (string * page) :=
  [("/metrics", Metrics); ("/healthz", Healthz); ("/readyz", Readyz); ("/introspect", Introspect_)] ++
  (if pprofEnabled then
     [("/debug/pprof/", Pprof "index"); ("/debug/pprof/cmdline", Pprof "cmdline");
      ("/debug/pprof/profile", Pprof "profile"); ("/debug/pprof/symbol", Pprof "symbol");
      ("/debug/pprof/trace", Pprof "trace")]
   else []).
End cache.

(** ** The daemon's side *)
Definition introspectURL (host : string) : string :=
  "https://" +:+ host +:+ ":" +:+ Itoa AgentBrokerIntrospectionPort +:+ "/introspect".

Section scraper.
(** [json.NewDecoder(body).Decode] into the mirrored struct *)
Context (json_Decode : string → result string introspectResponse).

Inductive getReply : Set :=
  | GetFailed (e : string)
  | GetReply (r : reply).

Definition ScrapeIntrospect (host : string) (r : getReply) : result string PeerCards.IntrospectSample :=
  match r with
  | GetFailed e => Err ("scrape " +:+ host +:+ ": " +:+ e)
  | GetReply (Reply status _ body) =>
      if negb (status =? 200) then Err ("scrape " +:+ host +:+ ": status " +:+ Itoa status)
      else match json_Decode body with
           | Err e => Err ("decode introspect response from " +:+ host +:+ ": " +:+ e)
           | Ok d =>
               Ok (PeerCards.mkIntrospect (ir_Host d)
                     ((λ ph, (pe_Hash ph, pe_ObservedAt ph)) <$> ir_PeerHashes d))
           end
  end.
End scraper.

Section cards.
Context {Card : Type} (resolve : string → result string Card).
Context (json_Marshal : Card → result string string) (canonicalize : string → result string string).
Context (sha256_hex : string → string).

Definition hashAgentCard (card : Card) : result string string :=
  match json_Marshal card with
  | Err e => Err ("encode agent card: " +:+ e)
  | Ok data =>
      match canonicalize data with
      | Err e => Err ("canonicalize agent card: " +:+ e)
      | Ok canonical => Ok (sha256_hex canonical)
      end
  end.

Definition ScrapeAgentCard (baseURL : string) : result string string :=
  match resolve baseURL with
  | Err e => Err ("resolve AgentCard at " +:+ baseURL +:+ ": " +:+ e)
  | Ok card =>
      match hashAgentCard card with
      | Err e => Err ("hash AgentCard from " +:+ baseURL +:+ ": " +:+ e)
      | Ok h => Ok h
      end
  end.
End cards.

(** ** The file over time

    The SDK replaces the file; version [i] has modification time [mtime i]
    and content [content i].  A request stats the file at version [i] and, if
    it reads it, reads version [j]: other writes may come in between. *)
Section versions.
Context (json_Unmarshal : string → result string peerHashes).
Context (mtime : nat → Time) (content : nat → string).
#[local] Set Default Proof Using "Type".

(** Requests in order: (version at the stat, version at the read). *)
Definition serve (c : peerHashesCache) (req : nat * nat) : result string peerHashes * peerHashesCache :=
  readPeerHashes json_Unmarshal (StatOK (mtime req.1)) (ReadOK (content req.2)) c.

Fixpoint serve_all (c : peerHashesCache) (reqs : list (nat * nat)) : list (result string peerHashes) :=
  match reqs with
  | [] => []
  | q :: rest => let '(r, c') := serve c q in r :: serve_all c' rest
  end.

(** The cache holds a version that was current no earlier than its key. *)
Definition cache_ok (upto : nat) (c : peerHashesCache) : Prop :=
  ∀ h, pc_hashes c = Some h →
    ∃ i j, (i <= j <= upto)%nat ∧ pc_modTime c = mtime i ∧ json_Unmarshal (content j) = Ok h.

Lemma serve_fresh upto c i j :
  (∀ a b, mtime a = mtime b → a = b) → cache_ok upto c → (upto <= j)%nat → (i <= j)%nat →
  cache_ok j (serve c (i, j)).2 ∧
  ∃ k, (i <= k <= j)%nat ∧ (serve c (i, j)).1 = json_Unmarshal (content k).
Proof.
  intros Hinj Hc Hu Hij. unfold serve, readPeerHashes. cbn [fst snd].
  assert (cache_ok j c) as Hcj.
  { intros h Hh. destruct (Hc h Hh) as (a & b & ? & ? & ?). exists a, b. split; [lia|done]. }
  set (fresh := match json_Unmarshal (content j) with Ok _ => _ | Err _ => _ end).
  assert (cache_ok j fresh.2 ∧ ∃ k, (i <= k <= j)%nat ∧ fresh.1 = json_Unmarshal (content k)) as Hf.
  { unfold fresh. split; [|exists j; split; [lia|]; by destruct (json_Unmarshal (content j))].
    destruct (json_Unmarshal (content j)) as [h|e] eqn:E; [|done]. intros h' [= <-].
    exists i, j. split; [lia|]. by cbn. }
  destruct (pc_hashes c) as [h|] eqn:Eh; [|done]. destruct (mtime i =? pc_modTime c) eqn:Em; [|done].
  cbn [fst snd]. split; [done|]. destruct (Hcj h Eh) as (a & b & Hab & Hm & Hu').
  zbool. rewrite Hm in Em. apply Hinj in Em. subst a. exists b. split; [lia|]. by rewrite Hu'.
Qed.

(** The cache is transparent: when every write gives the file a new
    modification time, each request is answered from a version that was
    current at some moment between its start and its end, exactly as an
    uncached read could have been, however requests and writes interleave;
    in particular no request returns content older than the file was when it
    arrived, and a file that fails to parse is reported and never cached. *)
Theorem introspect_cache_transparent reqs :
  (∀ a b, mtime a = mtime b → a = b) →
  StronglySorted (λ p q, (p.2 <= q.2)%nat) reqs → Forall (λ q, (q.1 <= q.2)%nat) reqs →
  Forall2 (λ q r, ∃ k, (q.1 <= k <= q.2)%nat ∧ r = json_Unmarshal (content k))
    reqs (serve_all resetPeerHashesCache reqs).
Proof.
  intros Hinj HS HF.
  assert (∀ c upto, cache_ok upto c → Forall (λ q, (upto <= q.2)%nat) reqs →
    Forall2 (λ q r, ∃ k, (q.1 <= k <= q.2)%nat ∧ r = json_Unmarshal (content k)) reqs (serve_all c reqs)) as H.
  { clear -Hinj HS HF. induction HS as [|[i j] reqs HS IH Hle]; intros c upto Hc Hu; cbn [serve_all]; [constructor|].
    inversion HF as [|? ? Hij HF']; subst. inversion Hu as [|? ? Huj _]; subst. cbn in Hij, Huj.
    destruct (serve_fresh upto c i j Hinj Hc Huj Hij) as (Hc' & k & Hk & Hr).
    destruct (serve c (i, j)) as [r c']. cbn in Hr, Hc'. constructor; [exists k; split; [cbn; lia|done]|].
    by apply (IH HF' c' j). }
  apply (H resetPeerHashesCache 0%nat); [done|]. apply Forall_forall. intros. lia.
Qed.
End versions.

(** Two writes within one tick of the file system's clock break the cache's
    premise: the second content is never served until the file changes again. *)
Lemma same_mtime_serves_stale json_Unmarshal t raw1 raw2 h1 :
  json_Unmarshal raw1 = Ok h1 →
  let '(r1, c1) := readPeerHashes json_Unmarshal (StatOK t) (ReadOK raw1) resetPeerHashesCache in
  let '(r2, c2) := readPeerHashes json_Unmarshal (StatOK t) (ReadOK raw2) c1 in
  r1 = Ok h1 ∧ r2 = Ok h1 ∧ c2 = c1.
Proof. intros H1. unfold readPeerHashes. cbn. rewrite H1. cbn. by rewrite Z.eqb_refl. Qed.

Definition ex_entry (h : string) : peerHashes := {[ "peer" := mkEntry h "2026-01-01T00:00:00Z" ]}.
Lemma introspect_cache_transparent_witness :
  Forall2 (λ q r, ∃ k, (q.1 <= k <= q.2)%nat ∧ r = Ok (ex_entry (Itoa (Z.of_nat k))))
    [(0, 1); (1, 1); (2, 3)]%nat
    (serve_all (λ s, Ok (ex_entry s)) Z.of_nat (λ i, Itoa (Z.of_nat i)) resetPeerHashesCache
       [(0, 1); (1, 1); (2, 3)]%nat).
Proof.
  apply (introspect_cache_transparent (λ s, Ok (ex_entry s)) Z.of_nat (λ i, Itoa (Z.of_nat i))).
  - intros a b. apply Nat2Z.inj.
  - split_list; cbn; lia.
  - split_list; cbn; lia.
Defined.

(** What a broker serves at [/introspect] is what the daemon records: the
    sample carries the pod's name and, for every peer, the hash and the
    observation time of the file, verbatim; a broker that cannot read its
    file yields an error, and a missing file an empty report. *)
Theorem introspect_roundtrip json_Unmarshal json_Encode json_Decode podName host st rd c :
  (∀ hashes, (readPeerHashes json_Unmarshal st rd c).1 = Ok hashes →
     json_Decode (json_Encode (mkResponse podName hashes)) = Ok (mkResponse podName hashes)) →
  let answer := ScrapeIntrospect json_Decode host
                  (GetReply (introspect json_Unmarshal json_Encode podName st rd c).1) in
  match (readPeerHashes json_Unmarshal st rd c).1 with
  | Ok hashes =>
      ∃ s, answer = Ok s ∧ PeerCards.is_PodName s = podName ∧
        ∀ peer, PeerCards.is_PeerHashes s !! peer =
                match hashes !! peer with Some e => Some (pe_Hash e, pe_ObservedAt e) | None => None end
  | Err _ => answer = Err ("scrape " +:+ host +:+ ": status 500")
  end ∧
  (st = StatAbsent → answer = Ok (PeerCards.mkIntrospect podName ∅)).
Proof.
  intros Hrt answer. subst answer. unfold introspect, ScrapeIntrospect.
  split.
  - destruct (readPeerHashes json_Unmarshal st rd c) as [[hashes|e] c']; cbn [fst] in *; [|done].
    rewrite Hrt by done. cbn. eexists. split_and!; [done|done|]. intros peer. cbn. rewrite lookup_fmap.
    by destruct (hashes !! peer).
  - intros ->. cbn. rewrite Hrt by done. cbn. by rewrite fmap_empty.
Qed.

Lemma introspect_roundtrip_witness :
  ∃ s, ScrapeIntrospect (λ s, Ok (mkResponse s (ex_entry "h"))) "host"
         (GetReply (introspect (λ _, Ok (ex_entry "h")) ir_Host "pod-0" (StatOK 5) (ReadOK "")
                      resetPeerHashesCache).1) = Ok s ∧
       PeerCards.is_PodName s = "pod-0".
Proof.
  destruct (introspect_roundtrip (λ _, Ok (ex_entry "h")) ir_Host (λ s, Ok (mkResponse s (ex_entry "h")))
              "pod-0" "host" (StatOK 5) (ReadOK "") resetPeerHashesCache) as [(s & E & H & _) _].
  - intros hashes [= <-]. reflexivity.
  - exists s. split; [exact E|exact H].
Defined.

End Introspect.
