(* ===== verification/Scrapes.v ===== *)
(** * The daemon's scrape loop ([rater/rater.go]) and its drift answer

    One tick of one AgentDeploy polls its peers' cards, discovers its pods and
    scrapes them; a pass runs the ticks of all AgentDeploys concurrently.
    Discovery, the scrapers and the order in which goroutines finish are
    given per tick; the loop around the passes is in [RaterLoop]. *)
From S2P Require Import Prelude Float64 Queue K8s Types Topology Samples Sampler Driftwatch Rater PeerCards.
#[local] Open Scope Z_scope.

Module Scrapes.
Import Topo.

Definition DefaultStabilityWindow : Z := 3.

(** The options the ticks read; the scrapers are nil or not. *)
Record Options : Type := mkOptions {
  AgentSetObject : option AgentSet;
  IntrospectScraper : bool;
  AgentCardScraper : bool;
  StabilityWindow : Z
}.

Record RaterSt : Type := mkRater {
  opts : Options;
  buffers : gmap string Rater.AgentDeployBuffers;
  peerHashes : gmap string PeerCards.peerHashCache;
  peerCards : gmap string PeerCards.peerCardState;
  agentSet : string;
  agentDeploys : list string
}.

Definition NewRater (o : Options) : RaterSt :=
  let o := mkOptions (AgentSetObject o) (IntrospectScraper o) (AgentCardScraper o)
             (if StabilityWindow o =? 0 then DefaultStabilityWindow else StabilityWindow o) in
  let ads := match AgentSetObject o with Some s => map ag_Name (as_Agents (as_Spec s)) | None => [] end in
  let alloc {A} (x : A) : gmap string A := fold_left (λ m ad, <[ad := x]> m) ads ∅ in
  mkRater o (alloc Rater.NewAgentDeployBuffers) (alloc PeerCards.newPeerHashCache) (alloc ∅)
    (match AgentSetObject o with Some s => as_Name s | None => "" end) ads.

(** What the network answers during one tick of one AgentDeploy, with the time
    at which each answer is recorded; [sched] is the order in which the
    goroutines started for a list of names finish. *)
Record TickAnswers : Type := mkAnswers {
  ScrapeAgentCard : string → result string string * Time;
  Discover : result string (list string);
  ScrapeIntrospect : string → result string PeerCards.IntrospectSample * Time;
  ScrapeMetrics : string → result string Rater.PodSample * Z;
  sched : list string → list string
}.

Definition completed {A T : Type} (order : list string) (answer : string → result string A * T)
    : list (string * result string A * T) :=
  map (λ n, (n, (answer n).1, (answer n).2)) order.

Definition peerURL (set peer namespace : string) : string :=
  "https://" +:+ set +:+ "-" +:+ peer +:+ "." +:+ namespace +:+ ".svc:" +:+ Itoa AgentBrokerPort.

Definition managed_names (t : Topology) : list string :=
  map peer_Name (filter (λ p, peer_Kind p = PeerKindManaged) (tp_Peers t)).

Section tick.
Context `{GoRange} (ParseRFC3339 : string → option Time).

(** [scrapePeerCardsOnce] with its guards; [None] is a panic. *)
Definition poll_cards (ad : string) (a : TickAnswers) (r : RaterSt) : option RaterSt :=
  if negb (AgentCardScraper (opts r)) then Some r
  else match AgentSetObject (opts r) with
  | None => Some r
  | Some s =>
      match peerCards r !! ad with
      | None => Some r
      | Some st =>
          topology ← ComputeTopology (Some s) ad;
          let answer p := ScrapeAgentCard a (peerURL (agentSet r) p (as_Namespace s)) in
          let st' := PeerCards.scrapePeerCardsOnce st
                       (completed (sched a (managed_names topology)) answer)
                       (StabilityWindow (opts r)) in
          Some (mkRater (opts r) (buffers r) (peerHashes r) (<[ad := st']> (peerCards r))
                  (agentSet r) (agentDeploys r))
      end
  end.

(** [scrapeIntrospectOnce] with its guards. *)
Definition introspect (ad : string) (hosts : list string) (a : TickAnswers) (r : RaterSt) : RaterSt :=
  if negb (IntrospectScraper (opts r)) then r
  else match peerHashes r !! ad with
  | None => r
  | Some c =>
      let c' := PeerCards.scrapeIntrospectOnce ParseRFC3339 c hosts
                  (completed (sched a hosts) (ScrapeIntrospect a)) in
      mkRater (opts r) (buffers r) (<[ad := c']> (peerHashes r)) (peerCards r)
        (agentSet r) (agentDeploys r)
  end.

Definition scrapeOneAgentDeploy (ad : string) (a : TickAnswers) (r : RaterSt) : option RaterSt :=
  r ← poll_cards ad a r;
  match Discover a with
  | Err _ => Some r
  | Ok [] => Some r
  | Ok hosts =>
      let r := introspect ad hosts a r in
      match buffers r !! ad with
      | None => Some r
      | Some buf =>
          buf' ← Rater.scrape_tick buf (completed (sched a hosts) (ScrapeMetrics a));
          Some (mkRater (opts r) (<[ad := buf']> (buffers r)) (peerHashes r) (peerCards r)
                  (agentSet r) (agentDeploys r))
      end
  end.

(** [scrapeAllOnce]: [order] is the order in which the AgentDeploys' ticks
    take effect. *)
Definition scrapeAllOnce (order : list string) (a : string → TickAnswers) (r : RaterSt) : option RaterSt :=
  fold_left (λ r ad, r ← r; scrapeOneAgentDeploy ad (a ad) r) order (Some r).

(** [Rater.GetPeerCardDrift] and the answer of [service.go]. *)
Definition optionalTimestamp (t : Time) : option Time := if is_zero t then None else Some t.
Definition drift_message (d : PeerCards.PeerCardDriftR) : Driftwatch.PeerCardDrift :=
  Driftwatch.mkPeerCardDrift (PeerCards.dr_LatestHash d)
    (optionalTimestamp (PeerCards.dr_LatestHashObservedAt d))
    ((λ rh, Driftwatch.mkPbReported (PeerCards.rh_Hash rh) (optionalTimestamp (PeerCards.rh_ObservedAt rh)))
       <$> PeerCards.dr_ReportedHashes d).
Definition GetPeerCardDrift (r : RaterSt) (name : string)
    : option (result Sampler.RpcError (gmap string Driftwatch.PeerCardDrift)) :=
  match PeerCards.GetPeerCardDrift (PeerCards.mkRaterPeers (peerHashes r) (peerCards r))
          (AgentSetObject (opts r)) (dom (buffers r)) name with
  | None => None
  | Some (Err _) => Some (Err Sampler.RpcNotFound)
  | Some (Ok peers) => Some (Ok (drift_message <$> peers))
  end.
End tick.

Lemma alloc_lookup {A} (x : A) ads ad m :
  fold_left (λ (m : gmap string A) ad, <[ad := x]> m) ads m !! ad =
  if bool_decide (ad ∈ ads) then Some x else m !! ad.
Proof.
  revert m. induction ads as [|d ads IH]; intros m; cbn [fold_left].
  { rewrite bool_decide_eq_false_2; [done|]. apply not_elem_of_nil. }
  rewrite IH. destruct (decide (d = ad)) as [->|Hne].
  - rewrite lookup_insert_eq, (bool_decide_eq_true_2 (ad ∈ ad :: ads)) by set_solver. by case_match.
  - rewrite lookup_insert_ne by done. by rewrite (bool_decide_ext (ad ∈ ads) (ad ∈ d :: ads)) by set_solver.
Qed.

(** ** Ticks of different AgentDeploys do not interfere *)
Section independence.
Context `{GoRange} (ParseRFC3339 : string → option Time).
#[local] Set Default Proof Using "Type*".
Abbreviation scrapeOneAgentDeploy := (scrapeOneAgentDeploy ParseRFC3339).
Abbreviation scrapeAllOnce := (scrapeAllOnce ParseRFC3339).

(** The part of the state one AgentDeploy owns. *)
Definition Local : Type :=
  option Rater.AgentDeployBuffers * option PeerCards.peerHashCache * option PeerCards.peerCardState.
Definition view (ad : string) (r : RaterSt) : Local := (buffers r !! ad, peerHashes r !! ad, peerCards r !! ad).
Definition put (ad : string) (l : Local) (r : RaterSt) : RaterSt :=
  mkRater (opts r) (partial_alter (λ _, l.1.1) ad (buffers r)) (partial_alter (λ _, l.1.2) ad (peerHashes r))
    (partial_alter (λ _, l.2) ad (peerCards r)) (agentSet r) (agentDeploys r).

Lemma put_view ad r : put ad (view ad r) r = r.
Proof. destruct r. unfold put, view. cbn. by rewrite !partial_alter_self. Qed.

Lemma view_put ad l r : view ad (put ad l r) = l.
Proof. destruct l as [[b h] c]. unfold view, put. cbn. by rewrite !lookup_partial_alter_eq. Qed.

Lemma view_put_ne ad ad' l r : ad ≠ ad' → view ad (put ad' l r) = view ad r.
Proof. intros Hne. unfold view, put. cbn. by rewrite !lookup_partial_alter_ne. Qed.

Lemma put_put_ne ad ad' l l' r : ad ≠ ad' → put ad l (put ad' l' r) = put ad' l' (put ad l r).
Proof. intros Hne. unfold put. cbn. f_equal; by apply partial_alter_partial_alter_ne. Qed.

Lemma put_put ad l l' r : put ad l (put ad l' r) = put ad l r.
Proof. unfold put. cbn. f_equal; apply partial_alter_partial_alter_eq. Qed.

Lemma put_buffers ad b h c r :
  view ad r = (b, h, c) → ∀ b',
  mkRater (opts r) (<[ad := b']> (buffers r)) (peerHashes r) (peerCards r) (agentSet r) (agentDeploys r) =
  put ad (Some b', h, c) r.
Proof. intros [= <- <- <-] b'. unfold put. cbn. by rewrite !partial_alter_self. Qed.

Definition local_cards (o : Options) (set ad : string) (a : TickAnswers)
    (c : option PeerCards.peerCardState) : option (option PeerCards.peerCardState) :=
  match AgentCardScraper o, AgentSetObject o, c with
  | true, Some s, Some st =>
      topology ← ComputeTopology (Some s) ad;
      Some (Some (PeerCards.scrapePeerCardsOnce st
        (completed (sched a (managed_names topology))
           (λ p, ScrapeAgentCard a (peerURL set p (as_Namespace s)))) (StabilityWindow o)))
  | _, _, _ => Some c
  end.

(** A tick reads and writes its own part only. *)
Definition local_tick (o : Options) (set ad : string) (a : TickAnswers) (l : Local) : option Local :=
  let '(b, h, c) := l in
  c ← local_cards o set ad a c;
  match Discover a with
  | Err _ | Ok [] => Some (b, h, c)
  | Ok hosts =>
      let h := if IntrospectScraper o then
                 (λ k, PeerCards.scrapeIntrospectOnce ParseRFC3339 k hosts
                         (completed (sched a hosts) (ScrapeIntrospect a))) <$> h
               else h in
      match b with
      | None => Some (b, h, c)
      | Some buf =>
          buf ← Rater.scrape_tick buf (completed (sched a hosts) (ScrapeMetrics a));
          Some (Some buf, h, c)
      end
  end.

Lemma poll_cards_local ad a r :
  poll_cards ad a r =
  c ← local_cards (opts r) (agentSet r) ad a (peerCards r !! ad);
  Some (put ad (buffers r !! ad, peerHashes r !! ad, c) r).
Proof.
  unfold poll_cards, local_cards.
  assert (Some r = Some (put ad (buffers r !! ad, peerHashes r !! ad, peerCards r !! ad) r)) as Hid
    by (f_equal; symmetry; apply put_view).
  destruct (AgentCardScraper (opts r)); cbn [negb]; [|exact Hid].
  destruct (AgentSetObject (opts r)) as [s|]; [|exact Hid].
  destruct (peerCards r !! ad) as [st|] eqn:E; [|exact Hid].
  destruct (ComputeTopology (Some s) ad) as [topo|]; [|done]. cbn [mbind option_bind].
  unfold put. cbn. by rewrite !partial_alter_self.
Qed.

Lemma introspect_local ad hosts a r :
  introspect ParseRFC3339 ad hosts a r =
  put ad (buffers r !! ad,
          if IntrospectScraper (opts r) then
            (λ k, PeerCards.scrapeIntrospectOnce ParseRFC3339 k hosts
                    (completed (sched a hosts) (ScrapeIntrospect a))) <$> peerHashes r !! ad
          else peerHashes r !! ad, peerCards r !! ad) r.
Proof.
  unfold introspect. destruct (IntrospectScraper (opts r)); cbn [negb]; [|symmetry; apply put_view].
  destruct (peerHashes r !! ad) as [c|] eqn:E; cbn [fmap option_fmap option_map].
  - unfold put. cbn. by rewrite !partial_alter_self.
  - rewrite <- E. symmetry. apply put_view.
Qed.

Lemma tick_local ad a r :
  scrapeOneAgentDeploy ad a r =
  l ← local_tick (opts r) (agentSet r) ad a (view ad r); Some (put ad l r).
Proof.
  unfold scrapeOneAgentDeploy, local_tick, view. rewrite poll_cards_local.
  destruct (local_cards _ _ _ _ _) as [c|]; [|done]. cbn [mbind option_bind].
  destruct (Discover a) as [[|host hosts]|e]; [done| |done]. cbv zeta.
  set (r1 := put ad _ r). pose proof (view_put ad (buffers r !! ad, peerHashes r !! ad, c) r) as Hv1.
  fold r1 in Hv1. rewrite introspect_local.
  assert (buffers r1 !! ad = buffers r !! ad) as -> by exact (f_equal (λ l : Local, l.1.1) Hv1).
  assert (peerHashes r1 !! ad = peerHashes r !! ad) as -> by exact (f_equal (λ l : Local, l.1.2) Hv1).
  assert (peerCards r1 !! ad = c) as -> by exact (f_equal (λ l : Local, l.2) Hv1).
  subst r1. rewrite put_put. cbn [opts put]. set (h := if IntrospectScraper (opts r) then _ else _).
  pose proof (view_put ad (buffers r !! ad, h, c) r) as Hv2.
  assert (buffers (put ad (buffers r !! ad, h, c) r) !! ad = buffers r !! ad) as Hb
    by exact (f_equal (λ l : Local, l.1.1) Hv2).
  rewrite Hb. destruct (buffers r !! ad) as [b|]; [|done].
  destruct (Rater.scrape_tick b _) as [b'|]; [|done]. cbn [mbind option_bind]. f_equal.
  etransitivity; [exact (put_buffers ad (Some b) h c _ Hv2 b')|apply put_put].
Qed.

Lemma ticks_commute ad ad' a a' r :
  ad ≠ ad' →
  (r1 ← scrapeOneAgentDeploy ad a r; scrapeOneAgentDeploy ad' a' r1) =
  (r1 ← scrapeOneAgentDeploy ad' a' r; scrapeOneAgentDeploy ad a r1).
Proof.
  intros Hne. rewrite !tick_local.
  destruct (local_tick _ _ ad a (view ad r)) as [l|] eqn:E1;
    destruct (local_tick _ _ ad' a' (view ad' r)) as [l'|] eqn:E2; cbn [mbind option_bind];
    rewrite ?tick_local; cbn [opts agentSet put];
    rewrite ?(view_put_ne ad' ad), ?(view_put_ne ad ad') by done; rewrite ?E1, ?E2; try done.
  cbn. f_equal. by apply put_put_ne.
Qed.

Lemma scrapeAllOnce_cons ad order a r :
  scrapeAllOnce (ad :: order) a r = r1 ← scrapeOneAgentDeploy ad (a ad) r; scrapeAllOnce order a r1.
Proof.
  unfold scrapeAllOnce. cbn [fold_left mbind option_bind].
  destruct (scrapeOneAgentDeploy ad (a ad) r) as [r1|]; [done|]. cbn [mbind option_bind].
  induction order as [|x order IH]; [done|]. exact IH.
Qed.

Lemma scrapeAllOnce_perm order order' a r :
  order ≡ₚ order' → NoDup order → scrapeAllOnce order a r = scrapeAllOnce order' a r.
Proof.
  intros HP. revert r. induction HP as [|x l l' HP IH|x y l|l l' l'' H1 IH1 H2 IH2]; intros r Hn.
  - done.
  - rewrite !scrapeAllOnce_cons. apply NoDup_cons in Hn as [_ Hn].
    destruct (scrapeOneAgentDeploy x (a x) r); [by apply IH|done].
  - assert (y ≠ x) as Hne by (apply NoDup_cons in Hn as [Hn _]; set_solver).
    rewrite !scrapeAllOnce_cons. pose proof (ticks_commute y x (a y) (a x) r Hne) as Hc. revert Hc.
    destruct (scrapeOneAgentDeploy y (a y) r) as [ry|];
      destruct (scrapeOneAgentDeploy x (a x) r) as [rx|]; cbn [mbind option_bind];
      rewrite ?scrapeAllOnce_cons; try done; intros Hc; first [by rewrite Hc | by rewrite <- Hc].
  - rewrite (IH1 r Hn). apply IH2. by rewrite <- H1.
Qed.

(** ** What a pass stores *)

(** The samples a tick files for a host. *)
Definition filed (a : TickAnswers) (host : string) : list Rater.PodSample :=
  match Discover a with
  | Ok ((_ :: _) as hosts) => Rater.answers host (completed (sched a hosts) (ScrapeMetrics a))
  | _ => []
  end.
Definition kept (b b' : Rater.AgentDeployBuffers) (new : string → list Rater.PodSample) : Prop :=
  ∀ host, Rater.Samples b' host =
    last_n (Z.to_nat Rater.MaxSamplesPerPod) (Rater.Samples b host ++ new host).

(** Buffers are well formed, and a rater that tracks an AgentDeploy has an
    AgentSet with agents. *)
Definition rater_ok (r : RaterSt) : Prop :=
  (∀ ad b, buffers r !! ad = Some b → Rater.buffers_ok b) ∧
  (∀ s ad, AgentSetObject (opts r) = Some s → is_Some (peerCards r !! ad) → as_Agents (as_Spec s) ≠ []).

Lemma NewRater_ok o : rater_ok (NewRater o).
Proof using.
  unfold NewRater. split; cbn [buffers peerCards opts AgentSetObject].
  - intros ad b. rewrite alloc_lookup. case_bool_decide; [|done]. intros [= <-] pod q Hq. discriminate Hq.
  - intros s ad -> [c Hc]. rewrite alloc_lookup in Hc. case_bool_decide as Hin; [|done].
    intros E. rewrite E in Hin. by apply elem_of_nil in Hin.
Qed.

Lemma local_cards_total o set ad a c :
  (∀ s, AgentSetObject o = Some s → is_Some c → as_Agents (as_Spec s) ≠ []) →
  ∃ c', local_cards o set ad a c = Some c' ∧ (is_Some c' ↔ is_Some c).
Proof using.
  intros Hs. unfold local_cards. destruct (AgentCardScraper o); [|by eexists].
  destruct (AgentSetObject o) as [s|]; [|by eexists]. destruct c as [st|]; [|by eexists].
  destruct (ComputeTopology_total s ad) as [topo ->]; [by apply Hs|]. cbn. eexists. split; [done|].
  split; by eexists.
Qed.

Lemma tick_ok ad a r :
  rater_ok r →
  ∃ r', scrapeOneAgentDeploy ad a r = Some r' ∧ rater_ok r' ∧
    (∀ b, buffers r !! ad = Some b → ∃ b', buffers r' !! ad = Some b' ∧ kept b b' (filed a)) ∧
    (∀ ad', ad' ≠ ad → view ad' r' = view ad' r).
Proof.
  intros [Hb Hs]. rewrite tick_local. unfold local_tick, view at 1.
  destruct (local_cards_total (opts r) (agentSet r) ad a (peerCards r !! ad)) as (c & -> & Hc);
    [intros s; apply Hs|]. cbn [mbind option_bind].
  assert (∀ b h, (match b with Some b => Rater.buffers_ok b | None => True end) →
            (∀ b0, buffers r !! ad = Some b0 → ∃ b', b = Some b' ∧ kept b0 b' (filed a)) →
            ∃ r', Some (put ad (b, h, c) r) = Some r' ∧ rater_ok r' ∧
              (∀ b0, buffers r !! ad = Some b0 → ∃ b', buffers r' !! ad = Some b' ∧ kept b0 b' (filed a)) ∧
              (∀ ad', ad' ≠ ad → view ad' r' = view ad' r)) as Hput.
  { intros b h Hok Hk. eexists. split; [done|]. split; [split|split].
    - intros ad' b'. cbn. rewrite lookup_partial_alter. case_decide; [intros ->; done|apply Hb].
    - intros s ad' Es. cbn. rewrite lookup_partial_alter. case_decide; [subst; rewrite Hc|]; by apply Hs.
    - cbn. by rewrite lookup_partial_alter_eq.
    - intros ad' Hne. by apply view_put_ne. }
  assert (match buffers r !! ad with Some b => Rater.buffers_ok b | None => True end) as Hbr
    by (destruct (buffers r !! ad) eqn:E; [by eapply Hb|done]).
  assert (∀ b0, Rater.buffers_ok b0 → kept b0 b0 (λ _, [])) as Hsame.
  { intros b0 Hb0 host. rewrite app_nil_r, last_n_all; [done|]. by apply Rater.Samples_bounded. }
  unfold filed in *. destruct (Discover a) as [[|host hosts]|e]; [apply Hput; eauto| |apply Hput; eauto].
  destruct (buffers r !! ad) as [b|]; [|by apply Hput].
  destruct (Rater.scrape_tick_spec b (completed (sched a (host :: hosts)) (ScrapeMetrics a)) Hbr)
    as (b' & -> & Hb' & Hk). cbn [mbind option_bind]. apply Hput; [done|]. intros b0 [= <-]. eauto.
Qed.

Lemma scrapeAllOnce_ok order a r :
  rater_ok r → NoDup order →
  ∃ r', scrapeAllOnce order a r = Some r' ∧ rater_ok r' ∧
    (∀ ad b, ad ∈ order → buffers r !! ad = Some b →
       ∃ b', buffers r' !! ad = Some b' ∧ kept b b' (filed (a ad))) ∧
    (∀ ad, ad ∉ order → view ad r' = view ad r).
Proof.
  revert r. induction order as [|ad order IH]; intros r Hr Hn.
  { exists r. split_and!; try done. by intros ad b ?%elem_of_nil. }
  apply NoDup_cons in Hn as [Hna Hn].
  destruct (tick_ok ad (a ad) r Hr) as (r1 & E1 & Hr1 & Hb1 & Hv1).
  destruct (IH r1 Hr1 Hn) as (r' & E' & Hr' & Hb' & Hv').
  exists r'. rewrite scrapeAllOnce_cons, E1. split_and!; [done|done| |].
  - intros x b [->|Hx]%elem_of_cons Hb.
    + destruct (Hb1 b Hb) as (b1 & Hb1' & Hk). exists b1. split; [|done].
      pose proof (f_equal (λ l : Local, l.1.1) (Hv' ad Hna)) as E. cbn in E. by rewrite E.
    + assert (x ≠ ad) as Hne by (by intros ->).
      apply Hb'; [done|]. pose proof (f_equal (λ l : Local, l.1.1) (Hv1 x Hne)) as E. cbn in E. by rewrite E.
  - intros x Hx. rewrite not_elem_of_cons in Hx. destruct Hx as [Hne Hx].
    rewrite (Hv' x Hx). by apply Hv1.
Qed.

(** C35: a scrape pass over the AgentDeploys always returns, and its
    outcome does not depend on the order in which their concurrent ticks take
    effect: each AgentDeploy's buffers then hold, per host, the newest
    [MaxSamplesPerPod] of the earlier samples and this tick's successful
    answers, and the state of every other AgentDeploy is untouched. *)
Theorem scrape_pass_order_irrelevant order a r :
  rater_ok r → NoDup order →
  ∃ r', rater_ok r' ∧
    (∀ order', order ≡ₚ order' → scrapeAllOnce order' a r = Some r') ∧
    (∀ ad b, ad ∈ order → buffers r !! ad = Some b →
       ∃ b', buffers r' !! ad = Some b' ∧ kept b b' (filed (a ad))) ∧
    (∀ ad, ad ∉ order → view ad r' = view ad r).
Proof.
  intros Hr Hn. destruct (scrapeAllOnce_ok order a r Hr Hn) as (r' & E & Hr' & Hb & Hv).
  exists r'. split_and!; [done| |done|done].
  intros order' HP. by rewrite <- (scrapeAllOnce_perm order order').
Qed.
End independence.

(** ** What the drift answer rests on *)
Section grounded.
Context `{GoRange} (ParseRFC3339 : string → option Time).
#[local] Set Default Proof Using "Type".
Import PeerCards.

(** The hashes of the successful polls of [peer] among a tick's answers. *)
Definition poll_hashes (peer : string) (done : list (string * result string string * Time))
    : list (string * Time) :=
  omap (λ c, match c with
             | (p, Ok h, t) => if String.eqb p peer then Some (h, t) else None
             | _ => None
             end) done.
Definition gate_of (st : peerCardState) (peer : string) : gatedHash := default zero_gate (st !! peer).

Lemma poll_gate st done window peer :
  gate_of (scrapePeerCardsOnce st done window) peer =
  observe_all (gate_of st peer) (poll_hashes peer done) window.
Proof.
  unfold scrapePeerCardsOnce. revert st. induction done as [|[[p [h|e]] now] done IH]; intros st;
    cbn [fold_left]; [done| |by rewrite IH].
  rewrite IH. unfold poll_hashes. cbn [omap list_omap]. unfold gate_of, state_observe, peerCardState in *.
  destruct (String.eqb_spec p peer) as [E|Hne].
  - subst p. by rewrite lookup_insert_eq.
  - by rewrite lookup_insert_ne.
Qed.

(** The polls of [peer] on behalf of [ad] in one tick and in a run. *)
Definition tick_polls (o : Options) (set ad peer : string) (a : TickAnswers) : list (string * Time) :=
  match AgentCardScraper o, AgentSetObject o with
  | true, Some s =>
      match ComputeTopology (Some s) ad with
      | Some topology =>
          poll_hashes peer (completed (sched a (managed_names topology))
                              (λ p, ScrapeAgentCard a (peerURL set p (as_Namespace s))))
      | None => []
      end
  | _, _ => []
  end.
Definition polls (o : Options) (set ad peer : string) (trace : list (string * TickAnswers))
    : list (string * Time) :=
  flat_map (λ t, if String.eqb t.1 ad then tick_polls o set ad peer t.2 else []) trace.

(** Some introspection of [pod] during the run reported [h] for [peer]. *)
Definition pod_of (host : string) (s : IntrospectSample) : string :=
  if String.eqb (is_PodName s) "" then host else is_PodName s.
Definition reported (trace : list (string * TickAnswers)) (ad pod peer h : string) : Prop :=
  ∃ a host s t txt, (ad, a) ∈ trace ∧ ScrapeIntrospect a host = (Ok s, t) ∧
    pod = pod_of host s ∧ is_PeerHashes s !! peer = Some (h, txt).

Lemma set_byPod c host pod hashes now p hs :
  byPod (set c host pod hashes now) !! p = Some hs → (p = pod ∧ hs = hashes) ∨ byPod c !! p = Some hs.
Proof.
  cbn [set byPod]. destruct (decide (pod = p)) as [E|Hne].
  { subst p. rewrite lookup_insert_eq. intros [= <-]. by left. }
  rewrite lookup_insert_ne by done. intros Hp. right. revert Hp. repeat case_match; try done.
  intros [_ ?]%lookup_delete_Some. done.
Qed.

Lemma introspect_source c hosts done p hs :
  byPod (scrapeIntrospectOnce ParseRFC3339 c hosts done) !! p = Some hs →
  byPod c !! p = Some hs ∨
  ∃ host s t, (host, Ok s, t) ∈ done ∧ p = pod_of host s ∧
    hs = (λ ph : string * string, mkReported ph.1 (default zero_time (ParseRFC3339 ph.2))) <$> is_PeerHashes s.
Proof.
  unfold scrapeIntrospectOnce. revert hs. induction done as [|[[host r] now] done IH] using rev_ind; intros hs.
  { cbn. intros Hp. left. unfold prune in Hp. by apply prune_byPod in Hp as [? _]. }
  rewrite fold_left_app. cbn [fold_left]. destruct r as [s|e].
  - intros [[-> ->]|Hp]%set_byPod.
    + right. exists host, s, now. split_and!; try done. apply elem_of_app. right. by apply list_elem_of_singleton.
    + destruct (IH hs Hp) as [?|(h & s' & t & Hin & ? & ?)]; [by left|right]. exists h, s', t.
      split_and!; try done. apply elem_of_app. by left.
  - intros Hp. destruct (IH hs Hp) as [?|(h & s' & t & Hin & ? & ?)]; [by left|right]. exists h, s', t.
    split_and!; try done. apply elem_of_app. by left.
Qed.

Lemma completed_elem {A T} order (f : string → result string A * T) n x t :
  (n, x, t) ∈ completed order f → f n = (x, t).
Proof. intros (m & [= -> -> ->] & _)%list_elem_of_fmap. by destruct (f m). Qed.

(** A run of ticks, and what its state knows. *)
Definition run (trace : list (string * TickAnswers)) (r : RaterSt) : option RaterSt :=
  fold_left (λ r t, r ← r; scrapeOneAgentDeploy ParseRFC3339 t.1 t.2 r) trace (Some r).

Record run_ok (o : Options) (set : string) (trace : list (string * TickAnswers)) (r : RaterSt) : Prop := {
  run_opts : opts r = o;
  run_set : agentSet r = set;
  run_gates : ∀ ad st peer, peerCards r !! ad = Some st →
    gate_of st peer = observe_all zero_gate (polls o set ad peer trace) (StabilityWindow o);
  run_reports : ∀ ad c pod hs peer rh,
    peerHashes r !! ad = Some c → byPod c !! pod = Some hs → hs !! peer = Some rh →
    reported trace ad pod peer (rh_Hash rh)
}.

Lemma polls_snoc o set ad peer trace t :
  polls o set ad peer (trace ++ [t]) =
  polls o set ad peer trace ++ if String.eqb t.1 ad then tick_polls o set ad peer t.2 else [].
Proof. unfold polls. rewrite flat_map_app. cbn. by rewrite app_nil_r. Qed.

Lemma reported_snoc trace t ad pod peer h :
  reported trace ad pod peer h → reported (trace ++ [t]) ad pod peer h.
Proof.
  intros (a & host & s & u & txt & Hin & Hrest). exists a, host, s, u, txt. split; [|done].
  apply elem_of_app. by left.
Qed.

Lemma local_cards_gate o set ad a c st' peer :
  local_cards o set ad a c = Some (Some st') →
  ∃ st, c = Some st ∧
    gate_of st' peer = observe_all (gate_of st peer) (tick_polls o set ad peer a) (StabilityWindow o).
Proof.
  unfold local_cards, tick_polls. destruct (AgentCardScraper o); [|intros [= ->]; by exists st'].
  destruct (AgentSetObject o) as [s|]; [|intros [= ->]; by exists st'].
  destruct c as [st|]; [|done].
  destruct (ComputeTopology (Some s) ad) as [topo|]; [|done]. cbn [mbind option_bind].
  intros [= <-]. exists st. split; [done|]. apply poll_gate.
Qed.

(** The parts a tick leaves: the cards as polled, the cache as scraped. *)
Lemma local_tick_parts o set ad a b h c l :
  local_tick ParseRFC3339 o set ad a (b, h, c) = Some l →
  local_cards o set ad a c = Some l.2 ∧
  (l.1.2 = h ∨ ∃ hosts, l.1.2 = (λ k, scrapeIntrospectOnce ParseRFC3339 k hosts
                            (completed (sched a hosts) (ScrapeIntrospect a))) <$> h).
Proof.
  unfold local_tick. destruct (local_cards o set ad a c) as [c'|]; [|done]. cbn [mbind option_bind].
  destruct (Discover a) as [[|host hosts]|e]; [intros [= <-]; by split; [|left]| |intros [= <-]; by split; [|left]].
  destruct b as [buf|]; [destruct (Rater.scrape_tick buf _) as [buf'|]; [|done]|];
    cbn [mbind option_bind]; intros [= <-]; (split; [done|]); cbn [fst snd];
    destruct (IntrospectScraper o); eauto.
Qed.

Lemma tick_run_ok o set trace ad a r r' :
  run_ok o set trace r → scrapeOneAgentDeploy ParseRFC3339 ad a r = Some r' →
  run_ok o set (trace ++ [(ad, a)]) r'.
Proof.
  intros [Ho Hs Hg Hr]. rewrite tick_local. unfold view.
  destruct (local_tick _ _ _ _ _ _) as [l|] eqn:El; [|done]. cbn [mbind option_bind]. intros [= <-].
  rewrite Ho, Hs in El. apply local_tick_parts in El as [Hc Hh].
  split; [exact Ho|exact Hs| |].
  - intros ad' st peer. cbn [put peerCards]. rewrite polls_snoc. cbn [fst snd].
    rewrite lookup_partial_alter. destruct (String.eqb_spec ad ad') as [E|Hne].
    + subst ad'. rewrite decide_True by done. intros El. rewrite El in Hc.
      apply (local_cards_gate _ _ _ _ _ _ peer) in Hc as (st0 & Hst0 & ->).
      rewrite (Hg ad st0 peer Hst0). unfold observe_all. by rewrite fold_left_app.
    + rewrite decide_False by done. rewrite app_nil_r. apply Hg.
  - intros ad' c pod hs peer rh. cbn [put peerHashes]. rewrite lookup_partial_alter.
    case_decide as E; [subst ad'|intros ???; by eapply reported_snoc, Hr].
    destruct Hh as [->|(hosts & ->)]; [intros ???; by eapply reported_snoc, Hr|].
    destruct (peerHashes r !! ad) as [c0|] eqn:E0; [|done]. cbn. intros [= <-] Hp Hrh.
    apply introspect_source in Hp as [Hp|(host & s & t & Hin & -> & ->)];
      [by eapply reported_snoc, Hr|].
    apply completed_elem in Hin. rewrite lookup_fmap in Hrh.
    destruct (is_PeerHashes s !! peer) as [[h txt]|] eqn:Eh; [|done]. injection Hrh as <-.
    exists a, host, s, t, txt. split_and!; try done. apply elem_of_app. right. by apply list_elem_of_singleton.
Qed.

Lemma NewRater_run_ok o :
  run_ok (opts (NewRater o)) (agentSet (NewRater o)) [] (NewRater o).
Proof.
  split; [done|done| |]; unfold NewRater; cbn [peerCards peerHashes].
  - intros ad st peer. rewrite alloc_lookup. case_bool_decide; [|done]. by intros [= <-].
  - intros ad c pod hs peer rh. rewrite alloc_lookup. case_bool_decide; [|done]. intros [= <-] Hp. discriminate Hp.
Qed.

Lemma run_run_ok o trace r :
  run trace (NewRater o) = Some r → run_ok (opts (NewRater o)) (agentSet (NewRater o)) trace r.
Proof.
  revert r. induction trace as [|[ad a] trace IH] using rev_ind; intros r.
  { intros [= <-]. apply NewRater_run_ok. }
  unfold run. rewrite fold_left_app. cbn [fold_left]. fold (run trace (NewRater o)).
  destruct (run trace (NewRater o)) as [r0|]; [|done]. cbn [mbind option_bind fst snd].
  by apply tick_run_ok, IH.
Qed.

Lemma drift_fold (f : string → PeerCardDriftR) peers m peer d :
  fold_left (λ (out : gmap string PeerCardDriftR) p,
    if bool_decide (peer_Kind p = PeerKindManaged) then <[peer_Name p := f (peer_Name p)]> out else out)
    peers m !! peer = Some d →
  m !! peer = Some d ∨
  (d = f peer ∧ peer ∈ map peer_Name (filter (λ p, peer_Kind p = PeerKindManaged) peers)).
Proof.
  revert m. induction peers as [|p peers IH]; intros m; cbn [fold_left]; [by left|].
  rewrite filter_cons. case_bool_decide as Hk; [rewrite decide_True by done|rewrite decide_False by done; apply IH].
  intros [Hm|[-> Hin]]%IH; [|right; split; [done|]; cbn; apply elem_of_cons; by right].
  destruct (decide (peer_Name p = peer)) as [E|Hne].
  - subst peer. rewrite lookup_insert_eq in Hm. injection Hm as <-. right. split; [done|].
    cbn. apply elem_of_cons. by left.
  - rewrite lookup_insert_ne in Hm by done. by left.
Qed.

(** What a served drift entry says, in terms of the rater's state. *)
Lemma served_drift r name drift peer d rh pod :
  Scrapes.GetPeerCardDrift r name = Some (Ok drift) → drift !! peer = Some d →
  Driftwatch.LatestHash d ≠ ""%string → Driftwatch.ReportedHashes d !! pod = Some rh →
  (∃ topo, ComputeTopology (AgentSetObject (opts r)) name = Some topo ∧ peer ∈ managed_names topo) ∧
  (∃ st, peerCards r !! name = Some st ∧ accepted (gate_of st peer) = Driftwatch.LatestHash d) ∧
  ∃ c hs x, peerHashes r !! name = Some c ∧ byPod c !! pod = Some hs ∧ hs !! peer = Some x ∧
    rh_Hash x = Driftwatch.pb_Hash rh.
Proof.
  unfold Scrapes.GetPeerCardDrift, PeerCards.GetPeerCardDrift. cbn [rp_hashes rp_cards].
  case_bool_decide; cbn [negb]; [|done].
  destruct (ComputeTopology (AgentSetObject (opts r)) name) as [topo|]; [|done]. cbn [mbind option_bind].
  intros [= <-]. rewrite lookup_fmap_Some. intros (dr & <- & Hd).
  apply (drift_fold (drift_of (peerHashes r !! name) (peerCards r !! name))) in Hd as [Hd|[-> Hm]];
    [discriminate Hd|].
  unfold drift_message, drift_of. cbn [Driftwatch.LatestHash Driftwatch.ReportedHashes].
  intros Hl Hrh. split; [by exists topo|]. split.
  - revert Hl. destruct (peerCards r !! name) as [st|]; [|done]. intros Hl. exists st. split; [done|].
    revert Hl. unfold snapshot, gate_of. destruct (st !! peer) as [g|]; [|done]. cbn [default from_option id].
    by destruct (String.eqb (accepted g) "").
  - revert Hrh. clear Hl. destruct (match peerCards r !! name with Some _ => _ | None => _ end) as [lh lt].
    cbn [dr_ReportedHashes]. rewrite lookup_fmap_Some. intros (x & <- & Hx).
    destruct (peerHashes r !! name) as [c|]; [|discriminate Hx]. unfold reportedByPeer in Hx.
    rewrite lookup_omap in Hx. destruct (byPod c !! pod) as [hs|] eqn:Hb; [|done]. cbn in Hx.
    by exists c, hs, x.
Qed.

(** C38: the drift watcher never acts on noise.  Over any run of the
    daemon, a pod it would call stale has, for some managed peer of its
    AgentDeploy, itself reported a hash that differs from one which
    [StabilityWindow] consecutive successful polls of that peer's card
    returned. *)
Theorem drift_answer_is_grounded o trace r name drift pod :
  let w := StabilityWindow (opts (NewRater o)) in
  1 <= w < 2 ^ 62 → run trace (NewRater o) = Some r →
  Scrapes.GetPeerCardDrift r name = Some (Ok drift) → pod ∈ Driftwatch.stalePodNames drift →
  ∃ peer latest h,
    (∃ topo, ComputeTopology (AgentSetObject o) name = Some topo ∧ peer ∈ managed_names topo) ∧
    (∃ pre post, map fst (polls (opts (NewRater o)) (agentSet (NewRater o)) name peer trace) =
                 pre ++ replicate (Z.to_nat w) latest ++ post) ∧
    reported trace name pod peer h ∧ h ≠ latest.
Proof.
  intros w Hw Hrun Hget Hst. destruct (run_run_ok o trace r Hrun) as [Ho Hset Hg Hr].
  apply Driftwatch.stalePodNames_spec in Hst as (peer & d & rh & Hd & Hl & Hrh & Hne).
  destruct (served_drift r name drift peer d rh pod Hget Hd Hl Hrh)
    as (Hm & (st & Hst & Hacc) & c & hs & x & Hc & Hb & Hx & Hxh).
  exists peer, (Driftwatch.LatestHash d), (rh_Hash x). rewrite Ho in Hm. split_and!; [exact Hm| |by eapply Hr|congruence].
  destruct (observe_all_ok w Hw zero_gate [] (polls (opts (NewRater o)) (agentSet (NewRater o)) name peer trace))
    as (_ & _ & Ha); [split_and!; cbn [zero_gate pendingCount accepted]; [lia|lia|lia|done]|].
  rewrite (Hg name st peer Hst) in Hacc. fold w in Hacc. rewrite <- Hacc in Hl |- *. by apply Ha.
Qed.
End grounded.

(** ** Witnesses: agents [a] and [b] that hand off to each other; the pod of
    [a] still reports the old card of [b] *)
Definition ex_set : AgentSet :=
  mkAgentSet (new_meta "ns" "set" ∅ ∅ [])
    (mkAgentSetSpec AgentPatternHandoff "a" [named_agent "a"; named_agent "b"] None [] None) zero_set_status.
Definition ex_opts : Options := mkOptions (Some ex_set) true true 0.
Definition ex_answers (t : Time) : TickAnswers :=
  mkAnswers (λ _, (Ok "new"%string, t)) (Ok ["h0"; "h1"]%string)
    (λ host, if String.eqb host "h0"
             then (Ok (PeerCards.mkIntrospect "pod-0" (<["b"%string := ("old"%string, "-"%string)]> ∅)), t)
             else (Err "timeout"%string, t))
    (λ host, (Ok (Rater.mkPodSample 0 ∅ ∅ ∅), t)) (λ l, rev l).

Lemma scrape_pass_order_irrelevant_witness :
  let r := NewRater ex_opts in
  let a (ad : string) := ex_answers 7 in
  ∃ r', rater_ok r' ∧
    (∀ order', ["a"; "b"]%string ≡ₚ order' → scrapeAllOnce (λ _, None) order' a r = Some r') ∧
    (∀ ad b, ad ∈ ["a"; "b"]%string → buffers r !! ad = Some b →
       ∃ b', buffers r' !! ad = Some b' ∧ kept b b' (filed (a ad))) ∧
    (∀ ad, ad ∉ ["a"; "b"]%string → view ad r' = view ad r).
Proof.
  intros r a. refine (scrape_pass_order_irrelevant (λ _, None) ["a"; "b"]%string a r (NewRater_ok ex_opts) _).
  by apply (bool_decide_unpack _).
Defined.

Definition ex_trace : list (string * TickAnswers) := map (λ t, ("a"%string, ex_answers t)) [1; 2; 3].
Definition ex_rater : RaterSt := default (NewRater ex_opts) (run (λ _, None) ex_trace (NewRater ex_opts)).
Definition ex_served : gmap string Driftwatch.PeerCardDrift :=
  match GetPeerCardDrift ex_rater "a" with Some (Ok d) => d | _ => ∅ end.

Lemma drift_answer_is_grounded_witness :
  ∃ peer latest h,
    (∃ topo, ComputeTopology (Some ex_set) "a" = Some topo ∧ peer ∈ managed_names topo) ∧
    (∃ pre post, map fst (polls (opts (NewRater ex_opts)) (agentSet (NewRater ex_opts)) "a" peer ex_trace) =
                 pre ++ replicate 3 latest ++ post) ∧
    reported ex_trace "a" "pod-0" peer h ∧ h ≠ latest.
Proof.
  refine (drift_answer_is_grounded (λ _, None) ex_opts ex_trace ex_rater "a" ex_served "pod-0" _ _ _ _).
  - vm_compute. split; [discriminate|reflexivity].
  - vm_cast_no_check (eq_refl (Some ex_rater)).
  - vm_cast_no_check (eq_refl (Some (Ok (E := Sampler.RpcError) ex_served))).
  - apply (bool_decide_unpack _). vm_cast_no_check I.
Defined.
End Scrapes.
