(* ===== verification/RaterLoop.v ===== *)
(** * The rater's loop and its own metrics ([rater/rater.go], [rater/metrics.go])

    [Start] makes one pass at once and then one per tick until its context is
    done; every pass counts its scrapes, failures and observed pods per
    AgentDeploy.  A counter vector is a map from the [agentdeploy] label to the
    value of its series, which is created at 0 when it is first used; registering
    a name twice panics ([promauto]). *)
From S2P Require Import Prelude Float64 Types Topology Samples Rater PeerCards Scrapes.
#[local] Open Scope Z_scope.

Module RaterLoop.
Import Scrapes.

Definition DefaultScrapeInterval : Duration := 5 * second.
Definition DefaultScrapeTimeout : Duration := 1 * second.
Definition DefaultScrapeWorkers : Z := 32.
Definition Lookback1m : Z := 60.
Definition Lookback5m : Z := 300.
Definition Lookback15m : Z := 900.
Definition WindowKey1m : string := "1m".
Definition WindowKey5m : string := "5m".
Definition WindowKey15m : string := "15m".
Definition WindowKeyCustom : string := "custom".

(** The windows of [GetMetrics] are these. *)
Lemma windows_named lookback : 0 < lookback →
  Rater.windows lookback = [(WindowKey1m, Lookback1m); (WindowKey5m, Lookback5m); (WindowKey15m, Lookback15m); (WindowKeyCustom, Z.min lookback 1800)] ∧
  Rater.windows 0 = [(WindowKey1m, Lookback1m); (WindowKey5m, Lookback5m); (WindowKey15m, Lookback15m)].
Proof. intros Hl. unfold Rater.windows. apply Z.ltb_lt in Hl. by rewrite Hl. Qed.

Record SelfMetrics : Type := mkSelf {
  ScrapeSuccess : gmap string Z;
  ScrapeFailures : gmap string Z;
  DiscoveryFailures : gmap string Z;
  PodsObserved : gmap string Z
}.

(** [promauto.With(registry)]: [None] is the panic of a duplicate name. *)
Definition register (name : string) (registry : gset string) : option (gset string) :=
  if decide (name ∈ registry) then None else Some ({[ name ]} ∪ registry).
Definition NewSelfMetrics (registry : gset string) : option (SelfMetrics * gset string) :=
  registry ← register "daemon_scrape_success_total" registry;
  registry ← register "daemon_scrape_failures_total" registry;
  registry ← register "daemon_discovery_failures_total" registry;
  registry ← register "daemon_pods_observed" registry;
  Some (mkSelf ∅ ∅ ∅ ∅, registry).

Definition value (m : gmap string Z) (ad : string) : Z := default 0 (m !! ad).
(** [WithLabelValues(ad).Inc()]. *)
Definition Inc (ad : string) (m : gmap string Z) : gmap string Z := <[ad := value m ad + 1]> m.

Definition with_discovery_failure (ad : string) (m : SelfMetrics) : SelfMetrics :=
  mkSelf (ScrapeSuccess m) (ScrapeFailures m) (Inc ad (DiscoveryFailures m)) (PodsObserved m).
Definition with_observed (ad : string) (n : Z) (m : SelfMetrics) : SelfMetrics :=
  mkSelf (ScrapeSuccess m) (ScrapeFailures m) (DiscoveryFailures m) (<[ad := n]> (PodsObserved m)).
Definition with_scrape (ad : string) (ok : bool) (m : SelfMetrics) : SelfMetrics :=
  if ok then mkSelf (Inc ad (ScrapeSuccess m)) (ScrapeFailures m) (DiscoveryFailures m) (PodsObserved m)
  else mkSelf (ScrapeSuccess m) (Inc ad (ScrapeFailures m)) (DiscoveryFailures m) (PodsObserved m).

(** The metric writes of [scrapeOneAgentDeploy]; [known] says that the
    AgentDeploy has a buffer. *)
Definition tick_metrics (known : bool) (ad : string) (a : TickAnswers) (m : SelfMetrics) : SelfMetrics :=
  match Discover a with
  | Err _ => with_discovery_failure ad m
  | Ok [] => with_observed ad 0 m
  | Ok hosts =>
      let m := with_observed ad (Z.of_nat (length hosts)) m in
      if known then
        fold_left (λ m host, with_scrape ad (is_Ok (ScrapeMetrics a host).1) m) (sched a hosts) m
      else m
  end.

(** A rater with its metrics, [nil] unless [WithSelfMetrics] set them. *)
Definition Metered : Type := RaterSt * option SelfMetrics.
Definition WithSelfMetrics (m : SelfMetrics) (r : Metered) : Metered := (r.1, Some m).

Section loop.
Context `{GoRange} (ParseRFC3339 : string → option Time).

Definition is_known (r : RaterSt) (ad : string) : bool := match buffers r !! ad with Some _ => true | None => false end.
Definition pass (order : list string) (a : string → TickAnswers) (s : Metered) : option Metered :=
  r ← scrapeAllOnce ParseRFC3339 order a s.1;
  Some (r, (λ m, fold_left (λ m ad, tick_metrics (is_known s.1 ad) ad (a ad) m) order m) <$> s.2).

(** What the [select] of the loop takes: a tick, with the order its goroutines
    finish in and what the network answers, or the end of the context. *)
Inductive Event : Type := Tick (order : list string) (a : string → TickAnswers) | CtxDone.

Definition is_done (e : Event) : bool := match e with CtxDone => true | Tick _ _ => false end.

(** The loop; the flag says whether it has returned. *)
Fixpoint loop (events : list Event) (s : Metered) : option (Metered * bool) :=
  match events with
  | [] => Some (s, false)
  | CtxDone :: _ => Some (s, true)
  | Tick order a :: events => s ← pass order a s; loop events s
  end.
Definition Start (order : list string) (a : string → TickAnswers) (events : list Event) (s : Metered) : option (Metered * bool) :=
  s ← pass order a s; loop events s.
End loop.

(** ** What the metrics say *)
(** The hosts one tick scrapes, and how many answer. *)
Definition hosts_of (a : TickAnswers) : list string := 
  match Discover a with Ok ((_ :: _) as hosts) => sched a hosts | _ => [] end.
Definition answered (a : TickAnswers) : list string := filter (λ h, is_Ok (ScrapeMetrics a h).1 = true) (hosts_of a).
Definition discovery_failed (a : TickAnswers) : Z := match Discover a with Ok _ => 0 | Err _ => 1 end.

Lemma value_Inc ad ad' m : value (Inc ad m) ad' = value m ad' + (if decide (ad' = ad) then 1 else 0).
Proof.
  unfold value, Inc. case_decide; [subst; by rewrite lookup_insert_eq|rewrite lookup_insert_ne by done; lia].
Qed.

(** The counters of one AgentDeploy: successes, failures, failed discoveries. *)
Definition counters (m : SelfMetrics) (ad : string) : Z * Z * Z :=
  (value (ScrapeSuccess m) ad, value (ScrapeFailures m) ad, value (DiscoveryFailures m) ad).
Definition plus3 (x y : Z * Z * Z) : Z * Z * Z := (x.1.1 + y.1.1, x.1.2 + y.1.2, x.2 + y.2).
Definition tick_counts (a : TickAnswers) : Z * Z * Z :=
  (Z.of_nat (length (answered a)), Z.of_nat (length (hosts_of a)) - Z.of_nat (length (answered a)), discovery_failed a).

#[local] Ltac triple := rewrite ?filter_nil; cbn [fst snd length fold_left plus3 counters ScrapeSuccess ScrapeFailures DiscoveryFailures]; rewrite !pair_eq; split_and!; lia.

Lemma scrapes_counted ad (ok : string → bool) hosts : ∀ m ad',
  let m' := fold_left (λ m h, with_scrape ad (ok h) m) hosts m in
  PodsObserved m' = PodsObserved m ∧
  counters m' ad' = if decide (ad' = ad) then
    plus3 (counters m ad') (Z.of_nat (length (filter (λ h, ok h = true) hosts)),
      Z.of_nat (length hosts) - Z.of_nat (length (filter (λ h, ok h = true) hosts)), 0) else counters m ad'.
Proof.
  induction hosts as [|h hosts IH]; intros m ad'; cbn zeta.
  - split; [done|]. case_decide; [|done]. unfold plus3, counters. triple.
  - cbn [fold_left]. destruct (IH (with_scrape ad (ok h) m) ad') as [-> ->]. split; [by destruct (ok h)|].
    rewrite filter_cons. unfold counters, plus3, with_scrape. destruct (ok h); cbn [ScrapeSuccess ScrapeFailures DiscoveryFailures];
      rewrite value_Inc; repeat case_decide; try done; triple.
Qed.

Lemma tick_counted ad a m ad' :
  counters (tick_metrics true ad a m) ad' =
    (if decide (ad' = ad) then plus3 (counters m ad') (tick_counts a) else counters m ad') ∧
  PodsObserved (tick_metrics true ad a m) !! ad' =
    (if decide (ad' = ad) then match Discover a with Ok hosts => Some (Z.of_nat (length hosts)) | Err _ => PodsObserved m !! ad' end
     else PodsObserved m !! ad').
Proof.
  unfold tick_metrics, tick_counts, answered, hosts_of, discovery_failed. destruct (Discover a) as [[|h hosts]|e].
  - unfold plus3, counters. cbn. split; [case_decide; [triple|done]|].
    case_decide; [subst; by rewrite lookup_insert_eq|by rewrite lookup_insert_ne].
  - destruct (scrapes_counted ad (λ h, is_Ok (ScrapeMetrics a h).1) (sched a (h :: hosts))
      (with_observed ad (Z.of_nat (length (h :: hosts))) m) ad') as [-> ->]. split; [done|]. cbn [PodsObserved with_observed].
    case_decide; [subst; by rewrite lookup_insert_eq|by rewrite lookup_insert_ne].
  - unfold plus3, counters. cbn. rewrite value_Inc. split; [|by case_decide]. case_decide; [triple|by rewrite Z.add_0_r].
Qed.

Lemma pass_counted (known : string → bool) a order : ∀ m ad,
  NoDup order → (∀ ad, ad ∈ order → known ad = true) →
  let m' := fold_left (λ m ad, tick_metrics (known ad) ad (a ad) m) order m in
  counters m' ad = (if decide (ad ∈ order) then plus3 (counters m ad) (tick_counts (a ad)) else counters m ad) ∧
  PodsObserved m' !! ad =
    (if decide (ad ∈ order) then match Discover (a ad) with Ok hosts => Some (Z.of_nat (length hosts)) | Err _ => PodsObserved m !! ad end
     else PodsObserved m !! ad).
Proof.
  induction order as [|x order IH]; intros m ad Hnd Hk; cbn zeta; [done|].
  apply NoDup_cons in Hnd as [Hx Hnd]. cbn [fold_left].
  destruct (IH (tick_metrics (known x) x (a x) m) ad Hnd) as [-> ->]; [intros y Hy; apply Hk; by right|].
  rewrite (Hk x) by left. destruct (tick_counted x (a x) m ad) as [-> ->].
  destruct (decide (ad = x)) as [->|Hne].
  - destruct (decide (x ∈ order)); [done|]. destruct (decide (x ∈ x :: order)) as [_|Hn]; [done|]. destruct Hn. left.
  - destruct (decide (ad ∈ order)) as [Hi|Hi], (decide (ad ∈ x :: order)) as [Hj|Hj]; try done.
    + destruct Hj. by right.
    + by apply elem_of_cons in Hj as [->|?].
Qed.

(** The passes a list of events makes before the context is done. *)
Fixpoint passes_of (events : list Event) : list (string → TickAnswers) :=
  match events with
  | Tick _ a :: events => a :: passes_of events
  | _ => []
  end.
Definition sum_counts (ad : string) (passes : list (string → TickAnswers)) : Z * Z * Z :=
  foldr (λ a acc, plus3 (tick_counts (a ad)) acc) (0, 0, 0) passes.

Section theorem.
Context `{GoRange} (ParseRFC3339 : string → option Time).

Definition metered_ok (ads : list string) (s : Metered) : Prop :=
  rater_ok s.1 ∧ ∀ ad, ad ∈ ads → is_Some (buffers s.1 !! ad).

Lemma pass_ok ads order a r m : NoDup ads → order ≡ₚ ads → metered_ok ads (r, Some m) →
  ∃ r' m', pass ParseRFC3339 order a (r, Some m) = Some (r', Some m') ∧ metered_ok ads (r', Some m') ∧
    ∀ ad, ad ∈ ads → counters m' ad = plus3 (counters m ad) (tick_counts (a ad)).
Proof.
  intros Hnd Hp [Hr Hb]. assert (NoDup order) as Hno by (by rewrite Hp). unfold pass. cbn [fst snd].
  destruct (scrapeAllOnce_ok ParseRFC3339 order a r Hr Hno) as (r' & -> & Hr' & Hb' & _). cbn. do 2 eexists. split; [done|]. split.
  - split; [done|]. intros ad Had. cbn. destruct (Hb ad Had) as [b Eb]. destruct (Hb' ad b) as (b' & -> & _); [by rewrite Hp|done|by eexists].
  - intros ad Had. destruct (pass_counted (is_known r) a order m ad Hno) as [-> _].
    + intros x Hx. rewrite Hp in Hx. unfold is_known. destruct (Hb x Hx) as [b Eb]. cbn in Eb. by rewrite Eb.
    + rewrite decide_True by (by rewrite Hp). done.
Qed.
Lemma plus3_zero x : plus3 (0, 0, 0) x = x.
Proof. by destruct x as [[a b] c]. Qed.
Lemma plus3_assoc x y z : plus3 (plus3 x y) z = plus3 x (plus3 y z).
Proof. unfold plus3. triple. Qed.
Lemma loop_ok ads events : ∀ r m, NoDup ads → Forall (λ e, match e with Tick order _ => order ≡ₚ ads | CtxDone => True end) events →
  metered_ok ads (r, Some m) →
  ∃ r' m', loop ParseRFC3339 events (r, Some m) = Some (r', Some m', existsb is_done events) ∧ metered_ok ads (r', Some m') ∧
    ∀ ad, ad ∈ ads → counters m' ad = plus3 (counters m ad) (sum_counts ad (passes_of events)).
Proof.
  induction events as [|e events IH]; intros r m Hnd Hev Hok.
  { exists r, m. split_and!; [done|done|]. intros ad _. cbn. unfold counters, plus3. triple. }
  apply Forall_cons in Hev as [He Hev]. destruct e as [order a|].
  - destruct (pass_ok ads order a r m Hnd He Hok) as (r1 & m1 & E1 & Hok1 & Hc1). cbn [loop]. rewrite E1. cbn [mbind option_bind].
    destruct (IH r1 m1 Hnd Hev Hok1) as (r2 & m2 & E2 & Hok2 & Hc2). exists r2, m2. rewrite E2. split_and!; [done|done|].
    intros ad Had. rewrite (Hc2 ad Had), (Hc1 ad Had), plus3_assoc. done.
  - exists r, m. cbn. split_and!; [done|done|]. intros ad _. unfold counters, plus3. triple.
Qed.

(** The rater of a daemon, started with its metrics, never panics and returns
    when its context is done, after the tick it is in; whatever the order its
    goroutines finish in, each AgentDeploy's counters are then the scrapes that
    succeeded, those that failed and the failed discoveries of its passes. *)
Theorem rater_counts_its_scrapes o registry m reg order a events :
  let ads := agentDeploys (NewRater o) in
  NewSelfMetrics registry = Some (m, reg) → NoDup ads → order ≡ₚ ads →
  Forall (λ e, match e with Tick order _ => order ≡ₚ ads | CtxDone => True end) events →
  ∃ r' m', Start ParseRFC3339 order a events (WithSelfMetrics m (NewRater o, None)) =
      Some (r', Some m', existsb is_done events) ∧ rater_ok r' ∧
    ∀ ad, ad ∈ ads → counters m' ad = sum_counts ad (a :: passes_of events).
Proof.
  cbn zeta. intros Hm Hnd Ho Hev. unfold NewSelfMetrics in Hm.
  assert (m = mkSelf ∅ ∅ ∅ ∅) as ->.
  { repeat (destruct (register _ _); [cbn [mbind option_bind] in Hm|done]). by injection Hm. }
  assert (metered_ok (agentDeploys (NewRater o)) (NewRater o, Some (mkSelf ∅ ∅ ∅ ∅))) as Hok.
  { split; [apply NewRater_ok|]. intros ad Had. cbn in *. rewrite alloc_lookup, bool_decide_eq_true_2 by done. by eexists. }
  destruct (pass_ok _ order a _ _ Hnd Ho Hok) as (r1 & m1 & E1 & Hok1 & Hc1).
  destruct (loop_ok _ events r1 m1 Hnd Hev Hok1) as (r2 & m2 & E2 & [Hok2 _] & Hc2).
  exists r2, m2. unfold Start, WithSelfMetrics. cbn [fst]. rewrite E1. cbn [mbind option_bind]. rewrite E2. split_and!; [done|done|].
  intros ad Had. rewrite (Hc2 ad Had), (Hc1 ad Had), plus3_assoc.
  assert (counters (mkSelf ∅ ∅ ∅ ∅) ad = (0, 0, 0)) as -> by done. by rewrite plus3_zero.
Qed.
End theorem.

(** ** Example: one agent, two passes, then the end *)
Definition ex_passes : string → TickAnswers := λ _, ex_answers 1.
Definition ex_registry : gset string := default ∅ (snd <$> NewSelfMetrics ∅).
Lemma rater_counts_its_scrapes_witness :
  ∃ r' m', Start (λ _, None) ["a"; "b"] ex_passes [Tick ["b"; "a"] ex_passes; CtxDone; Tick ["a"; "b"] ex_passes]
      (WithSelfMetrics (mkSelf ∅ ∅ ∅ ∅) (NewRater ex_opts, None)) = Some (r', Some m', true) ∧
    rater_ok r' ∧ counters m' "a" = sum_counts "a" [ex_passes; ex_passes].
Proof.
  destruct (rater_counts_its_scrapes (λ _, None) ex_opts ∅ (mkSelf ∅ ∅ ∅ ∅) ex_registry ["a"; "b"] ex_passes
    [Tick ["b"; "a"] ex_passes; CtxDone; Tick ["a"; "b"] ex_passes]) as (r' & m' & E & Hok & Hc).
  - vm_compute. reflexivity.
  - vm_compute. repeat (apply NoDup_cons; split; [set_solver|]). apply NoDup_nil_2.
  - done.
  - repeat (apply Forall_cons; split); [apply Permutation_swap|done|done|apply Forall_nil_2].
  - exists r', m'. split_and!; [exact E|done|]. apply (Hc "a"). vm_compute. left.
Defined.
End RaterLoop.
