(* ===== verification/Telemetry.v ===== *)
(** * From the brokers' counters to the scaling history

    The daemon and the controller are two processes that agree on names,
    windows and units only by convention: the rater files what the brokers
    answer under the agent's name and host, averages it over named windows and
    answers a query; the sampler asks for an agent and a window and records the
    answer per replica.  Here they are composed: [Scrapes] and [Rater] on the
    daemon's side, [Sampler] and [Store] on the controller's. *)
From S2P Require Import Prelude Float64 Queue K8s Types Workset Samples Store Sampler Rater Scrapes.
#[local] Open Scope Z_scope.

Module Telemetry.
Import Types.

(** The successful answers of [host] to the ticks of agent [ad], in order,
    stamped with the time they came in. *)
Definition scraped (trace : list (string * Scrapes.TickAnswers)) (ad host : string) : list Rater.PodSample :=
  trace ≫= λ t, if String.eqb t.1 ad then Scrapes.filed t.2 host else [].
(** What the daemon holds of them. *)
Definition held (trace : list (string * Scrapes.TickAnswers)) (ad : string) (b : Rater.AgentDeployBuffers) : Prop :=
  ∀ host, Rater.Samples b host = last_n (Z.to_nat Rater.MaxSamplesPerPod) (scraped trace ad host).

(** ** The load of an agent, from its pods' answers

    What the numbers mean, stated on the answers themselves: a total over
    transports, the answers inside a window, a pod's request rate as the growth
    of its counter over the runs between restarts, its in-flight level as the
    time-weighted mean, and a fleet's load as the sum over the pods that
    answered. *)
Definition total (m : gmap string float64) (v : float64) : Prop :=
  ∃ l, l ≡ₚ map_to_list m ∧ v = fold_left fadd l.*2 fzero.

(** [w] is [l] from its first answer not older than the window on. *)
Definition in_window (now lookback : Z) (l w : list Rater.PodSample) : Prop :=
  let cutoff := int64 (now - lookback) in
  ∃ old, l = old ++ w ∧ Forall (λ s, Rater.ps_Timestamp s < cutoff) old ∧
    ∀ s, head w = Some s → cutoff <= Rater.ps_Timestamp s.

Definition request_rate (w : list Rater.PodSample) (x : option float64) : Prop :=
  match w with
  | s0 :: _ :: _ =>
      let dt := int64 (Rater.last_ts w - Rater.ps_Timestamp s0) in
      if dt <=? 0 then x = None
      else ∃ v rest runs,
        Forall2 (λ s, total (Rater.RequestsByTransport s)) w (v :: rest) ∧
        concat runs = v :: rest ∧ [] ∉ runs ∧ Forall Rater.climbs runs ∧ Rater.resets_between runs ∧
        x = Some (fdiv (fold_left fadd (Rater.contributions v runs) fzero) (f_of_Z dt))
  | _ => x = None
  end.

Definition inflight_mean (w : list Rater.PodSample) (x : option float64) : Prop :=
  ∃ vs, Forall2 (λ s, total (Rater.InflightByTransport s)) w vs ∧
    let widths := zip_with (λ s s', f_of_Z (int64 (Rater.ps_Timestamp s' - Rater.ps_Timestamp s)))
                    w (tail w) in
    let area := fold_left fadd (zip_with fmul vs widths) fzero in
    let span := fold_left fadd widths fzero in
    x = if feq span fzero then last vs else Some (fdiv area span).

(** Summed, in some order, over the pods that answered at all. *)
Definition fleet_load (of_pod : list Rater.PodSample → option float64 → Prop)
    (trace : list (string * Scrapes.TickAnswers)) (ad : string) (now lookback : Z) (x : float64) : Prop :=
  ∃ hosts xs, NoDup hosts ∧ (∀ h, h ∈ hosts ↔ scraped trace ad h ≠ []) ∧
    Forall2 (λ h x, ∃ w, in_window now lookback
               (last_n (Z.to_nat Rater.MaxSamplesPerPod) (scraped trace ad h)) w ∧ of_pod w x) hosts xs ∧
    x = fold_left fadd (omap id xs) fzero.

Lemma samplesInWindow_spec l now lb : in_window now lb l (Rater.samplesInWindow l now lb).
Proof.
  unfold in_window, Rater.samplesInWindow. set (cutoff := int64 (now - lb)). cbv zeta.
  induction l as [|s l (old & E & Ho & Hh)]; cbn [Rater.samplesInWindow_from]; [by exists []|].
  destruct (cutoff <=? Rater.ps_Timestamp s) eqn:Ec; zbool.
  - exists []. split_and!; [done..|]. intros ? [= <-]. done.
  - exists (s :: old). split_and!; [cbn; by rewrite E at 1|by constructor|done].
Qed.

Lemma split_runs_nonempty v rest : [] ∉ Rater.split_runs v rest.
Proof.
  revert v. induction rest as [|c rest IH]; intros v; cbn [Rater.split_runs].
  { rewrite elem_of_cons, elem_of_nil. naive_solver. }
  specialize (IH c). destruct (Rater.split_runs c rest) as [|r rs].
  { rewrite elem_of_cons, elem_of_nil. naive_solver. }
  rewrite elem_of_cons in IH. case_match; rewrite !elem_of_cons; naive_solver.
Qed.

Section pod.
Context `{GoRange}.

Lemma total_spec m : total m (Rater.value_of m Rater.TransportTotal).
Proof.
  exists (range_map m). split; [apply range_map_perm|].
  unfold Rater.value_of. rewrite String.eqb_refl.
  generalize fzero. induction (range_map m) as [|p l IH]; intros z; cbn; [done|]. apply IH.
Qed.

Lemma totals_spec (read : Rater.PodSample → gmap string float64) w :
  Forall2 (λ s, total (read s)) w (map (λ s, Rater.value_of (read s) Rater.TransportTotal) w).
Proof. induction w; cbn; constructor; [apply total_spec|done]. Qed.

Lemma podRate_spec l now lb :
  ∃ w, in_window now lb l w ∧
    request_rate w (Rater.podRate l now lb Rater.TransportTotal Rater.RequestsByTransport).
Proof.
  exists (Rater.samplesInWindow l now lb). split; [apply samplesInWindow_spec|].
  unfold Rater.podRate. destruct (Rater.samplesInWindow l now lb) as [|s0 [|s1 w]]; [done..|].
  cbv zeta. unfold request_rate. destruct (_ <=? 0); [done|].
  pose proof (totals_spec Rater.RequestsByTransport (s0 :: s1 :: w)) as HT.
  set (v := Rater.counterValue s0 _ _). set (rest := map _ (s1 :: w)).
  exists v, rest, (Rater.split_runs v rest).
  destruct (Rater.split_runs_ok v rest) as (Hc & Hcl & Hr).
  split_and!; [exact HT|done|apply split_runs_nonempty|done|done|].
  unfold Rater.rate_loop. by rewrite Rater.rate_loop_runs.
Qed.

Lemma avg_loop_spec w acc :
  let widths := zip_with (λ s s', f_of_Z (int64 (Rater.ps_Timestamp s' - Rater.ps_Timestamp s)))
                  w (tail w) in
  Rater.avg_loop Rater.TransportTotal acc w =
    (fold_left fadd (zip_with fmul (map (λ s, Rater.inflightValue s Rater.TransportTotal) w) widths) acc.1,
     fold_left fadd widths acc.2).
Proof.
  cbv zeta. revert acc. induction w as [|s [|s' w] IH]; intros acc; [by destruct acc..|].
  set (d := f_of_Z (int64 (Rater.ps_Timestamp s' - Rater.ps_Timestamp s))).
  exact (IH (fadd acc.1 (fmul (Rater.inflightValue s Rater.TransportTotal) d), fadd acc.2 d)).
Qed.

Lemma podInflightAvg_spec l now lb :
  ∃ w, in_window now lb l w ∧
    inflight_mean w (Rater.podInflightAvg l now lb Rater.TransportTotal).
Proof.
  exists (Rater.samplesInWindow l now lb). split; [apply samplesInWindow_spec|].
  unfold Rater.podInflightAvg, inflight_mean.
  set (w := Rater.samplesInWindow l now lb). clearbody w.
  exists (map (λ s, Rater.inflightValue s Rater.TransportTotal) w). split; [apply totals_spec|].
  cbv zeta. destruct w as [|s0 [|s1 w]]; [done..|]. rewrite avg_loop_spec. cbn [fst snd].
  destruct (feq _ fzero); [|done]. generalize s1. clear s1.
  induction w as [|s w IH]; intros s1; [done|]. apply IH.
Qed.

(** A sum over the buffers is the sum over the pods that answered. *)
Lemma sum_pods_spec trace ad b now lb (f : list Rater.PodSample → option float64) of_pod :
  held trace ad b → f [] = None → (∀ l, ∃ w, in_window now lb l w ∧ of_pod w (f l)) →
  fleet_load of_pod trace ad now lb (Rater.sum_pods b f).
Proof.
  intros Hh Hf Hof. unfold Rater.sum_pods.
  exists (filter (λ h, Rater.Samples b h ≠ []) (Rater.Pods b)).
  exists (map (λ h, f (Rater.Samples b h)) (filter (λ h, Rater.Samples b h ≠ []) (Rater.Pods b))).
  assert (∀ h, Rater.Samples b h = [] ↔ scraped trace ad h = []) as He.
  { intros h. rewrite (Hh h). split; [|by intros ->]. intros E%(f_equal length).
    rewrite length_last_n in E. destruct (scraped trace ad h); [done|].
    assert (1 <= Z.to_nat Rater.MaxSamplesPerPod)%nat by (vm_compute; lia). cbn in E. lia. }
  split_and!.
  - apply NoDup_filter. unfold Rater.Pods. rewrite range_map_perm. apply NoDup_fst_map_to_list.
  - intros h. rewrite list_elem_of_filter, He. split; [tauto|]. intros Hn. split; [done|].
    unfold Rater.Pods. rewrite <- He in Hn. unfold Rater.Samples in Hn.
    destruct (Rater.byPod b !! h) as [q|] eqn:E; [|done].
    apply list_elem_of_fmap. exists (h, q). split; [done|]. by apply range_map_elem.
  - apply Forall2_fmap_r, Forall_Forall2_diag, Forall_true. intros h. rewrite <- (Hh h). apply Hof.
  - generalize fzero. induction (Rater.Pods b) as [|h hs IH]; intros z; [done|]. cbn [fold_left].
    rewrite filter_cons. case_decide as D; cbn [map omap list_omap id].
    + destruct (f (Rater.Samples b h)); cbn [fold_left]; apply IH.
    + rewrite D, Hf. apply IH.
Qed.
End pod.

Section daemon.
Context `{GoRange} (ParseRFC3339 : string → option Time).

Lemma scraped_snoc trace t ad host :
  scraped (trace ++ [t]) ad host = scraped trace ad host ++ (if String.eqb t.1 ad then Scrapes.filed t.2 host else []).
Proof. unfold scraped. rewrite bind_app. cbn. by rewrite app_nil_r. Qed.

(** After any run of ticks the buffers of an agent hold, per host, the latest
    successful answers of its ticks. *)
Lemma run_held o trace : ∀ ad, ad ∈ Scrapes.agentDeploys (Scrapes.NewRater o) →
  ∃ r b, Scrapes.run ParseRFC3339 trace (Scrapes.NewRater o) = Some r ∧ Scrapes.rater_ok r ∧
    Scrapes.buffers r !! ad = Some b ∧ held trace ad b.
Proof.
  intros ad Had. unfold Scrapes.run. induction trace as [|t trace IH] using rev_ind.
  - exists (Scrapes.NewRater o), Rater.NewAgentDeployBuffers. split_and!; [done|apply Scrapes.NewRater_ok| |done].
    cbn in *. rewrite Scrapes.alloc_lookup, bool_decide_eq_true_2; done.
  - destruct IH as (r & b & E & Hok & Hb & Hh). rewrite fold_left_app, E. cbn [fold_left mbind option_bind].
    destruct (Scrapes.tick_ok ParseRFC3339 t.1 t.2 r Hok) as (r' & E' & Hok' & Hmine & Hother). exists r'.
    destruct (decide (ad = t.1)) as [->|Hne].
    + destruct (Hmine b Hb) as (b' & Hb' & Hk). exists b'. split_and!; [done|done|done|]. intros host.
      rewrite scraped_snoc, String.eqb_refl, (Hk host), (Hh host). apply Queue.last_n_app.
    + exists b. split_and!; [done|done| |].
      * pose proof (f_equal (λ l : Scrapes.Local, l.1.1) (Hother ad Hne)) as Ev. cbn in Ev. by rewrite Ev.
      * intros host. rewrite scraped_snoc. destruct (String.eqb_spec t.1 ad); [by destruct Hne|]. by rewrite app_nil_r.
Qed.

(** Two answers of one host make the history usable. *)
Lemma held_usable trace ad b host : held trace ad b → (2 <= length (scraped trace ad host))%nat → Rater.HasUsableHistory b = true.
Proof.
  intros Hh Hl. assert (2 <= length (Rater.Samples b host))%nat as Hs.
  { rewrite (Hh host), length_last_n. enough (2 <= Z.to_nat Rater.MaxSamplesPerPod)%nat by lia. vm_compute. lia. }
  unfold Rater.HasUsableHistory. apply existsb_exists. exists host. split; [|by apply Nat.leb_le].
  unfold Rater.Pods. apply list_elem_of_In. unfold Rater.Samples in Hs. destruct (Rater.byPod b !! host) as [q|] eqn:E; [|cbn in Hs; lia].
  apply list_elem_of_fmap. exists (host, q). split; [done|]. by apply range_map_elem.
Qed.

(** The window a query with [lookback] is answered for. *)
Definition window (lookback : Z) : Z := if 0 <? lookback then Z.min lookback 1800 else 60.
Lemma answer_window set buffers ad b lookback now :
  buffers !! ad = Some b → Rater.HasUsableHistory b = true →
  ∃ m, Rater.GetAgentDeployMetrics set buffers ad lookback now = Ok m ∧
    let key := if 0 <? lookback then Sampler.windowKeyCustom else Sampler.windowKey1m in
    Sampler.doubleVal (Sampler.Inflights m) key = Some (Rater.CalculateInflightAvg b now (window lookback) Rater.TransportTotal) ∧
    Sampler.doubleVal (Sampler.ProcessingRates m) key = Some (Rater.CalculateRequestRate b now (window lookback) Rater.TransportTotal).
Proof.
  intros Hb Hu. unfold Rater.GetAgentDeployMetrics, Rater.GetMetrics. rewrite Hb, Hu. cbn [negb]. eexists. split; [done|]. cbv zeta.
  unfold Sampler.doubleVal, Rater.mapFloatToDV, window, Rater.windows.
  cbn [Sampler.Inflights Sampler.ProcessingRates Rater.Total Rater.per_window Rater.pw_Inflights Rater.pw_ProcessingRates].
  rewrite !lookup_fmap. destruct (0 <? lookback); cbn [app fold_left fst snd]; unfold Sampler.windowKeyCustom, Sampler.windowKey1m.
  - by rewrite !lookup_insert_eq.
  - rewrite !(lookup_insert_ne _ "15m" "1m"), !(lookup_insert_ne _ "5m" "1m"), !lookup_insert_eq by done. done.
Qed.
End daemon.

Section loop.
Context {W Src : Type} `{!Client W AgentDeploy} `{!Client W ConfigMap} `{GoSort} `{GoRange}.
Context (oob : float64 → Z) (ParseRFC3339 : string → option Time).
Context (dial : string → string → W → W * result string Src).
Context (Query : Src → string → Z → W → W * result Sampler.RpcError Sampler.AgentDeployMetrics).
Context (clock : W → W * Time) (taskInterval flushInterval : Duration).
Context (R : AgentDeploy → AgentDeploy → Prop) `{!ClientLaws W AgentDeploy R}.

(** C36: what the sampler records of an AgentDeploy is the load its brokers
    reported.  Take a daemon that ran any ticks and an AgentDeploy whose agent
    is one of its AgentSet's, one of whose pods answered at least twice; let at
    least one replica be ready and the sampler hold the AgentDeploy's history
    (with room for a record) and a connection that returns what the daemon
    answers.  Then a turn of the sampler succeeds and the newest record of the
    history is its sample of that moment: the request rate and the in-flight
    level divided by the ready replicas, where the rate is the sum over the
    pods that answered of their counter's growth over the runs between
    restarts per second, and the level the sum of their time-weighted means,
    each pod judged by the latest of its answers inside the window the sampler
    asked for (60 seconds when it asked for none, 30 minutes at most). *)
Theorem load_reaches_history o s0 trace r set k (s : Sampler.SamplerSt Src) (w w1 w2 w3 : W) ad src st st1 t1 t2 lb now host :
  Scrapes.AgentSetObject o = Some s0 → Scrapes.run ParseRFC3339 trace (Scrapes.NewRater o) = Some r →
  let name := ag_Name (spec_Agent (ad_Spec ad)) in
  name ∈ map ag_Name (as_Agents (as_Spec s0)) → (2 <= length (scraped trace name host))%nat →
  Get (O := AgentDeploy) k w = (w1, Ok ad) → Sampler.sources s !! Sampler.source_key ad = Some src →
  Store.Get_ (Sampler.registry s) k = Some st → clock w1 = (w2, t1) → clock w2 = (w3, t2) →
  Sampler.lookbackSeconds oob st t1 taskInterval = Some (st1, lb) →
  (∀ lb, Query src name lb w3 = (w3, Rater.GetAgentDeployMetrics set (Scrapes.buffers r) name lb now)) →
  let ready := st_ReadyReplicas (ad_Status ad) in
  1 <= ready < 2 ^ 31 → 0 <= Samples.maxAge (Store.buf st) → 1 <= Samples.maxRecords (Store.buf st) →
  ∃ rate level w' s' st',
    fleet_load request_rate trace name now (window lb) rate ∧
    fleet_load inflight_mean trace name now (window lb) level ∧
    Sampler.sampleKey oob dial Query clock taskInterval flushInterval k s w = Some (w', s', None) ∧
    Store.Get_ (Sampler.registry s') k = Some st' ∧
    last (Samples.records (Store.buf st')) = Some (Samples.mkRecord (Samples.mkSample t2 ready
      (fdiv level (f_of_Z ready)) (fdiv rate (f_of_Z ready))) 1).
Proof using All.
  intros Ho Hrun name Hname Hhost Hget Hsrc Hst Hc1 Hc2 Hlb Hq ready Hready Hage Hrec.
  destruct (run_held ParseRFC3339 o trace name) as (r1 & b & E1 & _ & Hb & Hh); [by cbn; rewrite Ho|].
  assert (r1 = r) as -> by congruence.
  destruct (answer_window set (Scrapes.buffers r) name b lb now Hb (held_usable _ _ _ _ Hh Hhost)) as (m & Em & Hi & Hr).
  destruct (Sampler.scrape_is_recorded oob dial Query clock taskInterval flushInterval R k s w w1 w2 w3 w3 ad src st st1 t1 t2 lb m _ _
    Hget Hsrc Hst Hc1 Hc2 Hlb ltac:(by rewrite Hq; f_equal) Hi Hr Hready Hage Hrec) as (w' & s' & st' & E & Hg & _ & Hl).
  exists (Rater.CalculateRequestRate b now (window lb) Rater.TransportTotal),
    (Rater.CalculateInflightAvg b now (window lb) Rater.TransportTotal), w', s', st'.
  split_and!; [| |done..]; (apply sum_pods_spec; [done|done|]).
  - intros l. apply podRate_spec.
  - intros l. apply podInflightAvg_spec.
Qed.
End loop.

(** ** Example: two ticks, ten seconds and thirty requests apart *)
Section example.
Existing Instances Sampler.ex_ad_client Sampler.ex_cm_client Sampler.ex_ad_laws.

Definition ex_tick (t requests inflight : Z) : string * Scrapes.TickAnswers :=
  ("a", Scrapes.mkAnswers (λ _, (Err "down", t)) (Ok ["h0"]) (λ _, (Err "down", t))
    (λ _, (Ok (Rater.mkPodSample 0 {[ "rest" := f_of_Z requests ]} ∅ {[ "rest" := f_of_Z inflight ]}), t)) (λ l, l)).
Definition ex_trace : list (string * Scrapes.TickAnswers) := [ex_tick 980 100 8; ex_tick 990 130 8].
Definition ex_rater : Scrapes.RaterSt :=
  default (Scrapes.NewRater Scrapes.ex_opts) (Scrapes.run (λ _, None) ex_trace (Scrapes.NewRater Scrapes.ex_opts)).
Definition ex_query (_ : unit) (name : string) (lb : Z) (w : gmap NamespacedName AgentDeploy * gmap NamespacedName ConfigMap) :=
  (w, Rater.GetAgentDeployMetrics "set" (Scrapes.buffers ex_rater) name lb 1000).
Definition ex_buffers : Rater.AgentDeployBuffers := default Rater.NewAgentDeployBuffers (Scrapes.buffers ex_rater !! "a").

Lemma load_reaches_history_witness :
  fdiv (Rater.CalculateRequestRate ex_buffers 1000 60 Rater.TransportTotal) (f_of_Z 4) = fdiv (f_of_Z 3) (f_of_Z 4) ∧
  ∃ rate level w' s' st',
    fleet_load request_rate ex_trace "a" 1000 60 rate ∧ fleet_load inflight_mean ex_trace "a" 1000 60 level ∧
    Sampler.sampleKey (λ _, 0) Sampler.ex_dial ex_query Sampler.ex_clock (60 * second) (300 * second) Sampler.ex_key Sampler.ex_sampler
      Sampler.ex_world = Some (w', s', None) ∧
    Store.Get_ (Sampler.registry s') Sampler.ex_key = Some st' ∧
    last (Samples.records (Store.buf st')) = Some (Samples.mkRecord (Samples.mkSample (1000 * second) 4
      (fdiv level (f_of_Z 4)) (fdiv rate (f_of_Z 4))) 1).
Proof.
  split; [vm_compute; reflexivity|].
  refine (load_reaches_history (λ _, 0) (λ _, None) Sampler.ex_dial ex_query Sampler.ex_clock (60 * second) (300 * second) eq
    Scrapes.ex_opts Scrapes.ex_set ex_trace ex_rater "set" Sampler.ex_key Sampler.ex_sampler Sampler.ex_world Sampler.ex_world
    Sampler.ex_world Sampler.ex_world Sampler.ex_ad tt
    (Store.NewConfigMapStore Sampler.ex_ad Samples.newBuffer) (Store.NewConfigMapStore Sampler.ex_ad Samples.newBuffer)
    (1000 * second) (1000 * second) 0 1000 "h0" eq_refl _ _ _ eq_refl eq_refl eq_refl eq_refl eq_refl _ (λ _, eq_refl) _ _ _).
  - vm_compute. reflexivity.
  - vm_compute. left.
  - vm_compute. lia.
  - vm_compute. reflexivity.
  - split; by vm_compute.
  - by vm_compute.
  - by vm_compute.
Defined.
End example.
End Telemetry.
