(* ===== verification/Daemon.v ===== *)
(** * The daemon process, its discovery and its clients
    ([pkg/daemon/server/cmd/start.go], [service/server.go],
    [pkg/daemon/client], [pkg/shared/discovery/dns.go], the dialers of the
    sampler and of the drift watcher)

    How the daemon is configured from its environment, how it finds the pods
    of an AgentDeploy, and how the controller reaches it.  DNS, TLS and the
    HTTP and gRPC libraries are parameters; the REST gateway's two routes are
    those of [daemon.pb.gw.go]. *)
From S2P Require Import Prelude K8s Types GoStrings Template PodSpecs Pods Services Encoding Workset Controller AgentDeploys AgentSets Broker.
#[local] Open Scope Z_scope.

Module Daemon.
Import GoStrings.

(** ** Discovery *)
Inductive lookupErr : Set :=
  | DNSNotFound
  | LookupFailed (e : string).

Definition headlessHost (as_ ad namespace : string) : string :=
  as_ +:+ "-" +:+ ad +:+ "-headless." +:+ namespace +:+ ".svc".

(** [Discover]; [lookup] is the resolver's answer for the headless host. *)
Definition Discover (lookup : string → result lookupErr (list string)) (as_ ad namespace : string)
    : result string (list string) :=
  let host := headlessHost as_ ad namespace in
  match lookup host with
  | Err DNSNotFound => Ok []
  | Err (LookupFailed e) => Err ("resolve " +:+ host +:+ " (agentSet " +:+ as_ +:+ "): " +:+ e)
  | Ok ips =>
      Ok (map (λ i, as_ +:+ "-" +:+ ad +:+ "-" +:+ Itoa (Z.of_nat i) +:+ "." +:+ as_ +:+ "-" +:+ ad +:+
                    "-headless." +:+ namespace +:+ ".svc")
            (seq 0 (length ips)))
  end.

(** The DNS name Kubernetes gives a pod with a hostname and a subdomain. *)
Definition podDNSName (p : Pod) : string :=
  ps_Hostname (pod_Spec p) +:+ "." +:+ ps_Subdomain (pod_Spec p) +:+ "." +:+
  om_Namespace (pod_meta p) +:+ ".svc".

(** ** Reaching the daemon *)

(** The address both [GRPCDaemonDialer]s dial. *)
Definition GRPCDaemonDialer (namespace agentSetName : string) : string :=
  let s := mkAgentSet (new_meta "" agentSetName ∅ ∅ [])
             (mkAgentSetSpec "" "" [] None [] None) zero_set_status in
  DaemonName s +:+ "." +:+ namespace +:+ ".svc:" +:+ Itoa DaemonAPIPort.

(** [url.PathEscape] *)
Definition unescaped (c : ascii) : bool :=
  let n := Z.of_N (Ascii.N_of_ascii c) in
  ((97 <=? n) && (n <=? 122)) || ((65 <=? n) && (n <=? 90)) || ((48 <=? n) && (n <=? 57)) ||
  existsb (Ascii.eqb c) ["-"; "_"; "."; "~"; "$"; "&"; "+"; "="; ":"; "@"]%char.
Definition hex_digit (n : Z) : ascii := default "0"%char (String.get (Z.to_nat n) "0123456789ABCDEF").
Fixpoint PathEscape (s : string) : string :=
  match s with
  | EmptyString => EmptyString
  | String c s' =>
      let n := Z.of_N (Ascii.N_of_ascii c) in
      if unescaped c then String c (PathEscape s')
      else String "%"%char (String (hex_digit (n / 16)) (String (hex_digit (n mod 16)) (PathEscape s')))
  end.

Record restClient : Set := mkRest { baseURL : string }.
Definition NewRESTClient (address : string) : restClient :=
  let address := if negb (HasPrefix address "https://") && negb (HasPrefix address "http://")
                 then "https://" +:+ address else address in
  mkRest (TrimRight address "/"%char).

Definition metricsPath (name : string) : string :=
  "/api/v1/agentdeploys/" +:+ PathEscape name +:+ "/metrics".
Definition driftPath (name : string) : string :=
  "/api/v1/agentdeploys/" +:+ PathEscape name +:+ "/peer-card-drift".
Definition metricsURL (c : restClient) (name : string) (lookbackSeconds : Z) : string :=
  let u := baseURL c +:+ metricsPath name in
  if negb (lookbackSeconds =? 0) then u +:+ "?lookback_seconds=" +:+ Itoa lookbackSeconds else u.

(** [unmarshalResponse]: the body of a 2xx answer, decoded. *)
Inductive restErr : Set :=
  | RESTSend (e : string)
  | RESTReadBody (e : string)
  | RESTStatus (status : Z) (body : string)
  | RESTDecode (e : string).
Record restResponse : Set := mkRestResponse { rr_status : Z; rr_body : result string string }.

Definition unmarshalResponse {T} (unmarshal : string → result string T) (trim : string → string)
    (r : restResponse) : result restErr T :=
  match rr_body r with
  | Err e => Err (RESTReadBody e)
  | Ok body =>
      if (rr_status r <? 200) || (300 <=? rr_status r) then Err (RESTStatus (rr_status r) (trim body))
      else match unmarshal body with Ok t => Ok t | Err e => Err (RESTDecode e) end
  end.

(** [restClient.GetAgentDeployMetrics] and [GetPeerCardDrift]: [send] performs
    the GET. *)
Definition restGet {T} (unmarshal : string → result string T) (trim : string → string)
    (send : string → result string restResponse) (url : string) : result restErr T :=
  match send url with
  | Err e => Err (RESTSend e)
  | Ok r => unmarshalResponse unmarshal trim r
  end.

(** ** The daemon's API server ([newAPIServer]) *)
Inductive apiRoute : Set := ViaGRPC | ViaGateway | ViaRedirect (to : string) | APINotFound.
Definition apiDispatch (r : Broker.httpRequest) : apiRoute :=
  if Broker.isGRPCRequest r then ViaGRPC
  else match ServeMux [("/api/", tt)] (Broker.r_path r) with
       | Handler _ => ViaGateway
       | Redirect to => ViaRedirect to
       | NotFound => APINotFound
       end.

(** The gateway's routes: the literal segments around one name. *)
Inductive gatewayCall : Set := GetAgentDeployMetrics (name : string) | GetPeerCardDrift (name : string).
Definition gateway (path : string) : option gatewayCall :=
  match Split path "/"%char with
  | [e; a; v; d; name; op] =>
      if String.eqb e "" && String.eqb a "api" && String.eqb v "v1" && String.eqb d "agentdeploys" then
        if String.eqb op "metrics" then Some (GetAgentDeployMetrics name)
        else if String.eqb op "peer-card-drift" then Some (GetPeerCardDrift name)
        else None
      else None
  | _ => None
  end.

(** The metrics server's routes. *)
Definition metricsRoutes : list (string * string) :=
  [("/metrics", "metrics"); ("/healthz", "ok"); ("/readyz", "ready")].

(** ** Configuration *)
Record daemonConfig : Set := mkDaemonConfig {
  dc_Namespace : string;
  dc_AgentSet : AgentSet;
  dc_APIPort : Z;
  dc_MetricsPort : Z
}.
Definition dc_AgentDeploys (c : daemonConfig) : list string :=
  map ag_Name (as_Agents (as_Spec (dc_AgentSet c))).

Inductive configErr : Set :=
  | EnvRequired (name : string)
  | EDecode (e : Encoding.decodeErr)
  | ENoAgents.

Section config.
Context (json_Unmarshal : list byte → result string AgentSet).

(** [getenv] of an unset variable is "". *)
Definition loadConfig (getenv : string → string) (apiPort metricsPort : Z) : result configErr daemonConfig :=
  let namespace := getenv EnvNamespace in
  if String.eqb namespace "" then Err (EnvRequired EnvNamespace)
  else if String.eqb (getenv EnvAgentSetName) "" then Err (EnvRequired EnvAgentSetName)
  else match Encoding.DecodeAgentSet json_Unmarshal (getenv EnvAgentSetObject) with
       | Err e => Err (EDecode e)
       | Ok s =>
           match as_Agents (as_Spec s) with
           | [] => Err ENoAgents
           | _ => Ok (mkDaemonConfig namespace s apiPort metricsPort)
           end
       end.
End config.

(** ** Running ([run], [Servers.GracefulStop]) *)
Inductive stopAction : Set := StopGRPCGracefully | ShutdownAPI | ShutdownMetrics | AwaitRater.
(** The stops issued after the wake-up, in order. *)
Definition GracefulStop : list stopAction := [StopGRPCGracefully; ShutdownAPI; ShutdownMetrics].

Definition runDaemon (w : Broker.wakeup) (apiErr metricsErr : option string)
    : list stopAction * option string :=
  match w with
  | Broker.MainExit e => ([], e)
  | Broker.IntrospectionExit e => ([], e)
  | Broker.Signalled =>
      (GracefulStop ++ [AwaitRater], match apiErr with Some e => Some e | None => metricsErr end)
  end.

(** [GracefulStop] of the gRPC server has no deadline: with a call that needs
    [need], the shutdown takes that long before the bounded part starts. *)
Definition shutdownTimeout : Duration := 10 * second.
Definition stopElapsed (grpcNeed apiNeed metricsNeed : Duration) : Duration :=
  let left := Z.max 0 (shutdownTimeout - grpcNeed) in
  let e1 := Broker.bounded apiNeed left in
  grpcNeed + e1 + Broker.bounded metricsNeed (left - e1).

(** ** Pods are found where they are *)

(** While the replicas of an AgentDeploy are numbered [0..n-1] and DNS
    lists one address each, discovery returns exactly the DNS names of its
    pods, as the pod controller set their hostname and subdomain; a missing
    record is an empty fleet, and any other DNS failure is an error, never an
    empty fleet. *)
Theorem discovered_hosts_are_pods ad ps hash suffix lookup ips :
  ad_Name ad = spec_AgentSetName (ad_Spec ad) +:+ "-" +:+ ag_Name (spec_Agent (ad_Spec ad)) →
  (ps_Subdomain ps = "" ∨ ps_Subdomain ps = HeadlessServiceName ad) →
  let as_ := spec_AgentSetName (ad_Spec ad) in
  let agent := ag_Name (spec_Agent (ad_Spec ad)) in
  let ns := ad_Namespace ad in
  lookup (HeadlessServiceName ad +:+ "." +:+ ns +:+ ".svc") = ips →
  match ips with
  | Ok l => Discover lookup as_ agent ns =
      Ok (map (λ i, podDNSName (Pods.newPod ad (Z.of_nat i) ps hash (suffix i))) (seq 0 (length l)))
  | Err DNSNotFound => Discover lookup as_ agent ns = Ok []
  | Err (LookupFailed _) => is_Ok (Discover lookup as_ agent ns) = false
  end.
Proof.
  intros Hn Hs as_ agent ns Hl. unfold Discover.
  assert (headlessHost as_ agent ns = HeadlessServiceName ad +:+ "." +:+ ns +:+ ".svc") as Hh.
  { unfold headlessHost, HeadlessServiceName, as_, agent. rewrite Hn, !string_app_assoc. done. }
  rewrite Hh, Hl. destruct ips as [l|[|e]]; [|done|done]. f_equal. apply map_ext. intros i.
  unfold podDNSName, Pods.newPod. cbn [pod_Spec ps_with_host ps_Hostname ps_Subdomain pod_meta new_meta om_Namespace].
  assert ((if String.eqb (ps_Subdomain ps) "" then HeadlessServiceName ad else ps_Subdomain ps) =
          HeadlessServiceName ad) as ->.
  { destruct Hs as [-> | ->]; [done|]. by case_match. }
  unfold HeadlessServiceName. rewrite Hn, !string_app_assoc. done.
Qed.

Definition ex_ad : AgentDeploy :=
  mkAgentDeploy (new_meta "ns" "set-a" ∅ ∅ [])
    (mkAgentDeploySpec (named_agent "a") "set" (Some 2) zero_topology) zero_status.
Lemma discovered_hosts_are_pods_witness :
  Discover (λ _, Ok ["10.0.0.1"; "10.0.0.2"]) "set" "a" "ns" =
  Ok (map (λ i, podDNSName (Pods.newPod ex_ad (Z.of_nat i)
        (PodSpecs.buildPodSpec (λ _, "") ex_ad "img" "" no_resources) "h" "xyz")) [0; 1]%nat).
Proof.
  apply (discovered_hosts_are_pods ex_ad (PodSpecs.buildPodSpec (λ _, "") ex_ad "img" "" no_resources)
           "h" (λ _, "xyz") (λ _, Ok ["10.0.0.1"; "10.0.0.2"]) (Ok ["10.0.0.1"; "10.0.0.2"])).
  - reflexivity.
  - right. reflexivity.
  - reflexivity.
Defined.

(** Discovery trusts the count, not the numbers: with replicas 1 and 2 live
    and 0 gone, the names returned are those of replicas 0 and 1. *)
Example gap_is_misnamed :
  Discover (λ _, Ok ["10.0.0.1"; "10.0.0.2"]) "set" "a" "ns" =
  Ok ["set-a-0.set-a-headless.ns.svc"; "set-a-1.set-a-headless.ns.svc"].
Proof. reflexivity. Qed.

(** ** The controller reaches the daemon it created *)
Lemma daemon_env (enc : AgentSet → string) image pol s tmpl dr n :
  match tmpl with Some t => n ∉ map ev_Name (ct_Env t) | None => True end →
  filter (λ e, ev_Name e = n) (c_Env (AgentSets.newDaemonContainer enc image pol s tmpl dr)) =
  filter (λ e, ev_Name e = n)
    [mkEnvVar EnvNamespace "" (Some (FieldRef "metadata.namespace"));
     mkEnvVar EnvPodName "" (Some (FieldRef "metadata.name"));
     env_value EnvAgentSetName (as_Name s); env_value EnvAgentSetObject (enc s)].
Proof.
  intros Ht. unfold AgentSets.newDaemonContainer, Template.ApplyDefaultResourcesIfMissing.
  destruct tmpl as [t|]; case_match; cbn [c_Env Template.ApplyToContainer c_with_resources];
    rewrite ?filter_app, ?(Broker.filter_name_none (ct_Env t)), ?app_nil_r by done; done.
Qed.

Lemma daemon_ports (enc : AgentSet → string) image pol s tmpl dr :
  c_Ports (AgentSets.newDaemonContainer enc image pol s tmpl dr) =
  [mkContainerPort "api" DaemonAPIPort "TCP" ""; mkContainerPort "metrics" DaemonMetricsPort "TCP" ""].
Proof.
  unfold AgentSets.newDaemonContainer, Template.ApplyDefaultResourcesIfMissing. destruct tmpl; by case_match.
Qed.

(** The daemon's template, if any, redefines none of the variables it reads. *)
Definition daemon_tmpl (s : AgentSet) : option ContainerTemplate :=
  (as_Templates (as_Spec s) ≫= t_DaemonTemplate) ≫= dt_Container.
Definition daemon_spares (s : AgentSet) : Prop :=
  match daemon_tmpl s with
  | Some t => ∀ n, n ∈ [EnvNamespace; EnvAgentSetName; EnvAgentSetObject] → n ∉ map ev_Name (ct_Env t)
  | None => True
  end.
Definition daemon_container enc image pol dr (s : AgentSet) : CoreContainer :=
  AgentSets.newDaemonContainer enc image pol s (daemon_tmpl s) dr.

Lemma daemon_spares_tmpl s n : daemon_spares s → n ∈ [EnvNamespace; EnvAgentSetName; EnvAgentSetObject] →
  match daemon_tmpl s with Some t => n ∉ map ev_Name (ct_Env t) | None => True end.
Proof. unfold daemon_spares. destruct (daemon_tmpl s); auto. Qed.

Section reach.
Context (json : AgentSet → string) (json_Unmarshal : list byte → result string AgentSet).
Definition encode_set (s : AgentSet) : string :=
  Encoding.EncodeToString (String.list_byte_of_string (json (SetSimpleCopy s))).

(** C40: the daemon the AgentSet controller creates is the one the sampler and
    the drift watcher dial, and it starts configured for its agents.  Take a
    pod of the daemon Deployment (in its namespace, with the labels of its pod
    template) of an AgentSet with a name, a namespace and an agent, whose
    daemon template sets none of the three variables the daemon reads
    ([daemon_spares]), with a JSON encoding that decodes.  The dialled address
    is the name and namespace of the daemon's service and a port of it; the
    service selects the pod, and no pod of an AgentDeploy; its port leads to
    the container's port of that name, which has the number the daemon
    listens on by default; and a process started with the container's
    environment loads a configuration for this AgentSet and its namespace that
    tracks every agent, in order, and looks for its pods behind the headless
    service of its AgentDeploy. *)
Theorem daemon_is_reached_and_configured s refs image pol dr other pod c :
  let svc := AgentSets.newDaemonService s refs in
  let dep := AgentSets.newDaemonDeployment encode_set image pol dr s refs in
  let tmpl := dep_Template (dep_Spec dep) in
  let getenv := Broker.process_env other pod c in
  daemon_spares s → as_Name s ≠ "" → as_Namespace s ≠ "" → as_Agents (as_Spec s) ≠ [] →
  om_Namespace pod = om_Namespace (dep_meta dep) → pts_Labels tmpl ⊆ om_Labels pod →
  head (ps_Containers (pts_Spec tmpl)) = Some c →
  json (SetSimpleCopy s) ≠ "" →
  json_Unmarshal (String.list_byte_of_string (json (SetSimpleCopy s))) = Ok (SetSimpleCopy s) →
  AgentSets.selects svc (om_Labels pod) ∧ (∀ ad r, ¬ AgentSets.selects svc (Pods.pod_labels ad r)) ∧
  ∃ cfg sp cp, loadConfig json_Unmarshal getenv DaemonAPIPort DaemonMetricsPort = Ok cfg ∧
    GRPCDaemonDialer (as_Namespace s) (as_Name s) =
      om_Name (svc_meta svc) +:+ "." +:+ om_Namespace (svc_meta svc) +:+ ".svc:" +:+ Itoa (sp_Port sp) ∧
    sp ∈ svc_Ports (svc_Spec svc) ∧ cp ∈ c_Ports c ∧ sp_TargetPort sp = cp_Name cp ∧
    cp_ContainerPort cp = dc_APIPort cfg ∧
    dc_AgentDeploys cfg = map ag_Name (as_Agents (as_Spec s)) ∧
    as_Name (dc_AgentSet cfg) = as_Name s ∧ dc_Namespace cfg = as_Namespace s ∧
    ∀ ad, ad_Name ad = ChildAgentDeployName s (ag_Name (spec_Agent (ad_Spec ad))) →
      headlessHost (as_Name (dc_AgentSet cfg)) (ag_Name (spec_Agent (ad_Spec ad))) (dc_Namespace cfg) =
        om_Name (svc_meta (Services.newHeadlessService ad)) +:+ "." +:+ as_Namespace s +:+ ".svc".
Proof.
  intros svc dep tmpl getenv Ht Hn Hns Ha Hpns Hlab Hc Hj Hu.
  assert (c = daemon_container encode_set image pol dr s) as ->.
  { revert Hc. unfold tmpl, dep, AgentSets.newDaemonDeployment, daemon_container, daemon_tmpl.
    cbn [dep_Template dep_Spec]. destruct (as_Templates (as_Spec s) ≫= t_DaemonTemplate); by intros [= <-]. }
  assert (∀ n, n ∈ [EnvNamespace; EnvAgentSetName; EnvAgentSetObject] →
    getenv n = if String.eqb n EnvNamespace then as_Namespace s else if String.eqb n EnvAgentSetName then as_Name s
               else encode_set s) as Henv.
  { intros n Hin. unfold getenv, Broker.process_env, Broker.env_entry, daemon_container.
    rewrite daemon_env by (by apply daemon_spares_tmpl).
    revert Hin. rewrite !elem_of_cons, elem_of_nil. by intros [->|[->|[->|[]]]]. }
  assert (daemonLabels_in : AgentSets.daemonLabels s ⊆ pts_Labels tmpl).
  { unfold tmpl, dep, AgentSets.newDaemonDeployment. cbn [dep_Template dep_Spec].
    case_match; cbn [pts_Labels Template.ApplyToPodTemplateSpec]; [apply map_union_subseteq_l|done]. }
  split; [exact (transitivity daemonLabels_in Hlab)|]. split.
  { intros ad r Hsel. assert (Pods.pod_labels ad r !! KeyComponent = Some ComponentDaemon) as H.
    { eapply lookup_weaken; [|exact Hsel]. by vm_compute. }
    unfold Pods.pod_labels in H. case_match; by do 3 rewrite ?lookup_insert_ne in H by done. }
  eexists _, (mkServicePort "api" DaemonAPIPort "api" "TCP"), (mkContainerPort "api" DaemonAPIPort "TCP" "").
  unfold loadConfig. rewrite !Henv by (rewrite ?elem_of_cons; auto). cbn -[encode_set ChildAgentDeployName].
  apply String.eqb_neq in Hn, Hns. rewrite Hn, Hns.
  unfold Encoding.DecodeAgentSet, Encoding.DecodeObject, encode_set.
  rewrite Encoding.EncodeToString_nonempty, Encoding.decode_encode_bytes, Hu by (by destruct (json _)).
  cbn -[ChildAgentDeployName]. destruct (as_Agents (as_Spec s)) as [|a l] eqn:El; [done|].
  cbn -[ChildAgentDeployName]. split; [done|]. cbn -[ChildAgentDeployName]. rewrite El.
  cbn -[ChildAgentDeployName]. split_and!; try done.
  - apply list_elem_of_here.
  - unfold daemon_container. rewrite daemon_ports. apply list_elem_of_here.
  - f_equal. by rewrite map_map.
  - intros ad E. unfold headlessHost, HeadlessServiceName. rewrite E. unfold ChildAgentDeployName.
    by rewrite !string_app_assoc.
Qed.
End reach.

(** ** REST calls *)
(** Names the URL carries as they are, and that are single segments. *)
Definition plain_name (s : string) : Prop :=
  all_bytes unescaped s = true ∧ s ≠ "" ∧ s ≠ "." ∧ s ≠ "..".

Lemma PathEscape_plain s : all_bytes unescaped s = true → PathEscape s = s.
Proof.
  induction s as [|c s IH]; [done|]. cbn [all_bytes PathEscape]. intros [Hc Hs]%andb_true_iff.
  by rewrite Hc, IH.
Qed.

Lemma plain_ordinary s : plain_name s → ordinary s.
Proof.
  intros (Hb & ? & ? & ?). unfold ordinary. split_and!; try done. by apply (all_bytes_has unescaped).
Qed.

(** A REST call reaches the method it names: the path the client builds
    for an agent's metrics or drift is canonical, the daemon's dispatcher
    hands it to the gateway, and the gateway's route decodes it to the same
    method and the same agent name. *)
Theorem rest_call_reaches_method name proto ct :
  plain_name name → Broker.isGRPCRequest (Broker.mkRequest proto ct "") = false →
  (apiDispatch (Broker.mkRequest proto ct (metricsPath name)) = ViaGateway ∧
   gateway (metricsPath name) = Some (GetAgentDeployMetrics name)) ∧
  (apiDispatch (Broker.mkRequest proto ct (driftPath name)) = ViaGateway ∧
   gateway (driftPath name) = Some (GetPeerCardDrift name)).
Proof.
  intros Hp Hg. pose proof (plain_ordinary _ Hp) as Ho. destruct Hp as (Hb & _).
  assert (∀ op, ordinary op → let path := "/api/v1/agentdeploys/" +:+ name +:+ "/" +:+ op in
    apiDispatch (Broker.mkRequest proto ct path) = ViaGateway ∧
    Split path "/"%char = [""; "api"; "v1"; "agentdeploys"; name; op]) as H.
  { intros op Hop path.
    assert (path = "/" +:+ Join (["api"; "v1"; "agentdeploys"; name] ++ [op]) "/") as Ep by done.
    destruct (cleanPath_segments ["api"; "v1"; "agentdeploys"; name] op) as [Hc Hs].
    { cbn [app]. repeat (apply Forall_cons; split; [done|]). apply Forall_nil. done. }
    rewrite <- Ep in Hc, Hs. split; [|done]. unfold apiDispatch.
    assert (Broker.isGRPCRequest (Broker.mkRequest proto ct path) = false) as -> by exact Hg.
    cbn [Broker.r_path]. unfold ServeMux. rewrite Hc, String.eqb_refl. cbn [best_match existsb fst].
    assert (pattern_matches "/api/" path = true) as -> by reflexivity.
    assert (String.eqb "/api/" (path +:+ "/") = false) as -> by reflexivity.
    cbn [orb]. rewrite andb_false_r. done. }
  unfold metricsPath, driftPath. rewrite PathEscape_plain by done.
  destruct (H "metrics") as [H1 H2]; [done|]. destruct (H "peer-card-drift") as [H3 H4]; [done|].
  unfold gateway. change ("/metrics") with ("/" +:+ "metrics").
  change ("/peer-card-drift") with ("/" +:+ "peer-card-drift"). rewrite H2, H4. done.
Qed.

Lemma rest_call_reaches_method_witness :
  gateway (metricsPath "helper-1") = Some (GetAgentDeployMetrics "helper-1").
Proof.
  apply (rest_call_reaches_method "helper-1" 1 "").
  - split; [reflexivity|]. split; [discriminate|]. split; discriminate.
  - reflexivity.
Defined.

Definition ex_set : AgentSet :=
  mkAgentSet (new_meta "ns" "set" ∅ ∅ [])
    (mkAgentSetSpec AgentPatternSupervisor "a" [named_agent "a"; named_agent "b"] None [] None) zero_set_status.
Definition ex_pod : ObjectMeta :=
  new_meta "ns" "set-daemon-x" (AgentSets.daemonLabels ex_set) ∅ [].
Definition ex_container : CoreContainer := daemon_container (encode_set (λ _, "{}")) "img" "" no_resources ex_set.
Lemma daemon_is_reached_and_configured_witness :
  ∃ cfg, loadConfig (λ _, Ok (SetSimpleCopy ex_set)) (Broker.process_env (λ _, "") ex_pod ex_container)
           DaemonAPIPort DaemonMetricsPort = Ok cfg ∧
         dc_AgentDeploys cfg = ["a"; "b"].
Proof.
  destruct (daemon_is_reached_and_configured (λ _, "{}") (λ _, Ok (SetSimpleCopy ex_set)) ex_set [] "img" ""
              no_resources (λ _, "") ex_pod ex_container I) as (_ & _ & cfg & sp & cp & H1 & _ & _ & _ & _ & _ & H2 & _);
    [discriminate|discriminate|discriminate|reflexivity
    |exact (reflexivity (R := (⊆)) (AgentSets.daemonLabels ex_set))|reflexivity|discriminate|reflexivity|].
  exists cfg. split; [exact H1|exact H2].
Defined.

End Daemon.
