(* ===== verification/Certs.v ===== *)
(** * Certificates ([pkg/shared/tls/tls.go])

    The self-signed server certificate of the broker and of the daemon, and
    the CA with its server certificate of the admission webhook.  The
    primitives of [crypto] are the class [Crypto]: what the code relies on
    is that a certificate that was created parses back with the fields of
    its template and is signed by the key it was created with, and that keys
    and PEM blocks survive their encoding.  [verifies] is the check a TLS
    client makes ([x509.Certificate.Verify] with one root). *)
From S2P Require Import Prelude.
#[local] Open Scope Z_scope.

Module Certs.
#[local] Unset Default Proof Using.

Definition KeyUsageDigitalSignature : Z := Z.shiftl 1 0.
Definition KeyUsageKeyEncipherment : Z := Z.shiftl 1 2.
Definition KeyUsageCertSign : Z := Z.shiftl 1 5.

Inductive ExtKeyUsage : Set := ExtKeyUsageServerAuth | ExtKeyUsageClientAuth.
#[export] Instance ExtKeyUsage_eq_dec : EqDecision ExtKeyUsage.
Proof. solve_decision. Defined.

Inductive SignatureAlgorithm : Set := UnknownSignatureAlgorithm | SHA256WithRSA.

(** [x509.Certificate]: the template fields the code sets, and the fields
    only a parsed certificate has. *)
Record Certificate (P : Type) : Type := mkCertificate {
  SerialNumber : Z;
  Organization : list string;
  SigAlg : SignatureAlgorithm;
  NotBefore : Time;
  NotAfter : Time;
  KeyUsage : Z;
  ExtKeyUsages : list ExtKeyUsage;
  BasicConstraintsValid : bool;
  IsCA : bool;
  DNSNames : list string;
  IPAddresses : list string;
  Issuer : list string;
  PublicKey : option P
}.
Arguments mkCertificate {P}.
Arguments SerialNumber {P}. Arguments Organization {P}. Arguments SigAlg {P}.
Arguments NotBefore {P}. Arguments NotAfter {P}. Arguments KeyUsage {P}.
Arguments ExtKeyUsages {P}. Arguments BasicConstraintsValid {P}. Arguments IsCA {P}.
Arguments DNSNames {P}. Arguments IPAddresses {P}. Arguments Issuer {P}. Arguments PublicKey {P}.

Record Block : Set := mkBlock { pem_Type : string; pem_Bytes : list byte }.

Inductive PrivateKey (E R : Type) : Type := EcdsaKey (k : E) | RsaKey (k : R).
Arguments EcdsaKey {E R}. Arguments RsaKey {E R}.

Inductive certErr : Set :=
  | GenerateKeyFailed | SerialFailed | SignFailed | ParseFailed
  | ServerOrClient | BadPair.

(** The packages [crypto/*] and [encoding/pem], over a world [W] that holds
    the entropy source and the clock. *)
Class Crypto (W : Type) := {
  ecKey : Type;
  rsaKey : Type;
  pubKey : Type;
  pubKey_eq_dec :: EqDecision pubKey;
  Public : PrivateKey ecKey rsaKey → pubKey;
  clock : W → Time;
  Now : W → W * Time;
  ecdsa_GenerateKey : W → W * option ecKey;
  rsa_GenerateKey : W → W * option rsaKey;
  rand_Int : Z → W → W * option Z;
  CreateCertificate : Certificate pubKey → Certificate pubKey → pubKey →
    PrivateKey ecKey rsaKey → W → W * option (list byte);
  ParseCertificate : list byte → option (Certificate pubKey);
  (** [Certificate.CheckSignature] with the public key of a parent *)
  signed_by : list byte → pubKey → bool;
  MarshalECPrivateKey : ecKey → option (list byte);
  MarshalPKCS1PrivateKey : rsaKey → list byte;
  (** [tls.parsePrivateKey] *)
  parsePrivateKey : list byte → option (PrivateKey ecKey rsaKey);
  EncodeToMemory : Block → list byte;
  pem_Decode : list byte → option Block
}.

Section certs.
Context {W : Type} `{Crypto W}.
Abbreviation Cert := (Certificate pubKey).
Abbreviation Key := (PrivateKey ecKey rsaKey).

Definition certValidity : Duration := 365 * 24 * hour.

(** [pemBlockForKey]: [None] is the nil block, [Some None] is [log.Fatal]. *)
Definition pemBlockForKey (priv : Key) : option (option Block) :=
  match priv with
  | EcdsaKey k =>
      match MarshalECPrivateKey k with
      | Some b => Some (Some (mkBlock "EC PRIVATE KEY" b))
      | None => Some None
      end
  | RsaKey _ => None
  end.

(** [new(big.Int).Lsh(big.NewInt(1), 128)] *)
Definition serialNumberLimit : Z := Z.shiftl 1 128.

(** The loop over [hosts] with [net.ParseIP]: addresses and names apart. *)
Definition split_hosts (ParseIP : string → option string) (hosts : list string)
    : list string * list string :=
  foldl (λ acc h, match ParseIP h with
                  | Some ip => (acc.1 ++ [ip], acc.2)
                  | None => (acc.1, acc.2 ++ [h])
                  end) ([], []) hosts.

Definition self_template (ParseIP : string → option string) (serial : Z) (notBefore : Time)
    : Cert :=
  let '(ips, names) := split_hosts ParseIP ["localhost"%string] in
  mkCertificate serial ["Kynoproj"%string] UnknownSignatureAlgorithm notBefore
    (notBefore + certValidity) (Z.lor KeyUsageKeyEncipherment KeyUsageDigitalSignature)
    [ExtKeyUsageServerAuth] true false names ips [] None.

Definition generate (ParseIP : string → option string) (w : W)
    : W * result certErr (list byte * Key) :=
  let '(w, k) := ecdsa_GenerateKey w in
  match k with
  | None => (w, Err GenerateKeyFailed)
  | Some k =>
      let '(w, notBefore) := Now w in
      let '(w, serial) := rand_Int serialNumberLimit w in
      match serial with
      | None => (w, Err SerialFailed)
      | Some serial =>
          let t := self_template ParseIP serial notBefore in
          let '(w, der) := CreateCertificate t t (Public (EcdsaKey k)) (EcdsaKey k) w in
          match der with
          | None => (w, Err SignFailed)
          | Some der => (w, Ok (der, EcdsaKey k))
          end
      end
  end.

(** [generatePEM]; [None] is a process that ended ([log.Fatal], or the nil
    block given to [pem.EncodeToMemory]). *)
Definition generatePEM (ParseIP : string → option string) (w : W)
    : W * option (result certErr (list byte * list byte)) :=
  let '(w, r) := generate ParseIP w in
  match r with
  | Err e => (w, Some (Err e))
  | Ok (der, priv) =>
      let certpem := EncodeToMemory (mkBlock "CERTIFICATE" der) in
      match pemBlockForKey priv with
      | Some (Some b) => (w, Some (Ok (certpem, EncodeToMemory b)))
      | _ => (w, None)
      end
  end.

(** [tls.X509KeyPair]: the leaf of the certificate block and the key of the
    key block, which must belong together. *)
Record tlsCertificate : Type := mkTlsCertificate {
  tc_Certificate : list byte;
  tc_PrivateKey : Key
}.
Definition key_block (t : string) : bool :=
  bool_decide (t = "PRIVATE KEY" ∨ t = "RSA PRIVATE KEY" ∨ t = "EC PRIVATE KEY")%string.
Definition X509KeyPair (certPEM keyPEM : list byte) : result certErr tlsCertificate :=
  match pem_Decode certPEM, pem_Decode keyPEM with
  | Some cb, Some kb =>
      if String.eqb (pem_Type cb) "CERTIFICATE" && key_block (pem_Type kb) then
        match ParseCertificate (pem_Bytes cb), parsePrivateKey (pem_Bytes kb) with
        | Some c, Some k =>
            if bool_decide (PublicKey c = Some (Public k)) then
              Ok (mkTlsCertificate (pem_Bytes cb) k)
            else Err BadPair
        | _, _ => Err BadPair
        end
      else Err BadPair
  | _, _ => Err BadPair
  end.

Definition GenerateX509KeyPair (ParseIP : string → option string) (w : W)
    : W * option (result certErr tlsCertificate) :=
  let '(w, r) := generatePEM ParseIP w in
  match r with
  | None => (w, None)
  | Some (Err e) => (w, Some (Err e))
  | Some (Ok (certpem, keypem)) => (w, Some (X509KeyPair certpem keypem))
  end.

(** ** The CA and the certificate it signs *)
Definition certTemplate (org : string) (hosts : list string) (notAfter : Time) (w : W)
    : W * result certErr Cert :=
  let '(w, serial) := rand_Int serialNumberLimit w in
  match serial with
  | None => (w, Err SerialFailed)
  | Some serial =>
      let '(w, now) := Now w in
      (w, Ok (mkCertificate serial [org] SHA256WithRSA now notAfter 0 [] true false hosts [] [] None))
  end.

Definition with_usage (ca : bool) (usage : Z) (ext : list ExtKeyUsage) (c : Cert) : Cert :=
  mkCertificate (SerialNumber c) (Organization c) (SigAlg c) (NotBefore c) (NotAfter c) usage ext
    (BasicConstraintsValid c) ca (DNSNames c) (IPAddresses c) (Issuer c) (PublicKey c).

Definition createCACertTemplate (org : string) (hosts : list string) (notAfter : Time) (w : W)
    : W * result certErr Cert :=
  let '(w, r) := certTemplate org hosts notAfter w in
  (w, result_bind r (λ c,
        Ok (with_usage true (Z.lor KeyUsageCertSign KeyUsageDigitalSignature)
              [ExtKeyUsageServerAuth; ExtKeyUsageClientAuth] c))).

Definition createCert (template parent : Cert) (pub : pubKey) (parentPriv : Key) (w : W)
    : W * result certErr (Cert * list byte) :=
  let '(w, der) := CreateCertificate template parent pub parentPriv w in
  match der with
  | None => (w, Err SignFailed)
  | Some der =>
      match ParseCertificate der with
      | None => (w, Err ParseFailed)
      | Some c => (w, Ok (c, EncodeToMemory (mkBlock "CERTIFICATE" der)))
      end
  end.

Definition createCA (org : string) (hosts : list string) (notAfter : Time) (w : W)
    : W * result certErr (rsaKey * Cert * list byte) :=
  let '(w, k) := rsa_GenerateKey w in
  match k with
  | None => (w, Err GenerateKeyFailed)
  | Some rootKey =>
      let '(w, t) := createCACertTemplate org hosts notAfter w in
      match t with
      | Err e => (w, Err e)
      | Ok t =>
          let '(w, c) := createCert t t (Public (RsaKey rootKey)) (RsaKey rootKey) w in
          (w, result_bind c (λ '(rootCert, rootCertPEM), Ok (rootKey, rootCert, rootCertPEM)))
      end
  end.

Definition server_usages (server client : bool) : list ExtKeyUsage :=
  (if server then [ExtKeyUsageServerAuth] else []) ++ (if client then [ExtKeyUsageClientAuth] else []).

(** [CreateCerts]: server key, server certificate and CA certificate, in PEM. *)
Definition CreateCerts (org : string) (hosts : list string) (notAfter : Time) (server client : bool)
    (w : W) : W * result certErr (list byte * list byte * list byte) :=
  if negb server && negb client then (w, Err ServerOrClient)
  else
    let '(w, ca) := createCA org hosts notAfter w in
    match ca with
    | Err e => (w, Err e)
    | Ok (caKey, caCertificate, caCertificatePEM) =>
        let '(w, k) := rsa_GenerateKey w in
        match k with
        | None => (w, Err GenerateKeyFailed)
        | Some privateKey =>
            let '(w, t) := certTemplate org hosts notAfter w in
            match t with
            | Err e => (w, Err e)
            | Ok t =>
                let cert := with_usage false KeyUsageDigitalSignature (server_usages server client) t in
                let '(w, c) := createCert cert caCertificate (Public (RsaKey privateKey))
                                 (RsaKey caKey) w in
                match c with
                | Err e => (w, Err e)
                | Ok (_, certPEM) =>
                    (w, Ok (EncodeToMemory (mkBlock "RSA PRIVATE KEY" (MarshalPKCS1PrivateKey privateKey)),
                            certPEM, caCertificatePEM))
                end
            end
        end
    end.

(** ** What the primitives promise *)

(** The times of a certificate are encoded in seconds. *)
Definition truncate (t : Time) : Time := t - t mod second.

Class CryptoLaws := {
  (* created certificates parse back, signed *)
  create_parses t p pub priv w w' der :
    CreateCertificate t p pub priv w = (w', Some der) →
    ∃ c, ParseCertificate der = Some c ∧
      (SerialNumber c = SerialNumber t ∧ Organization c = Organization t ∧
       KeyUsage c = KeyUsage t ∧ ExtKeyUsages c = ExtKeyUsages t ∧
       BasicConstraintsValid c = BasicConstraintsValid t ∧ IsCA c = IsCA t ∧
       DNSNames c = DNSNames t) ∧
      NotBefore c = truncate (NotBefore t) ∧ NotAfter c = truncate (NotAfter t) ∧
      Issuer c = Organization p ∧ PublicKey c = Some pub ∧ signed_by der (Public priv) = true;
  ec_roundtrip k b : MarshalECPrivateKey k = Some b → parsePrivateKey b = Some (EcdsaKey k);
  rsa_roundtrip k : parsePrivateKey (MarshalPKCS1PrivateKey k) = Some (RsaKey k);
  pem_roundtrip b : key_block (pem_Type b) || String.eqb (pem_Type b) "CERTIFICATE" = true →
    pem_Decode (EncodeToMemory b) = Some b;
  (* the clock *)
  now_clock w w' t : Now w = (w', t) → clock w <= t <= clock w';
  clock_ec w w' r : ecdsa_GenerateKey w = (w', r) → clock w <= clock w';
  clock_rsa w w' r : rsa_GenerateKey w = (w', r) → clock w <= clock w';
  clock_rand n w w' r : rand_Int n w = (w', r) → clock w <= clock w';
  clock_create t p pub priv w w' r : CreateCertificate t p pub priv w = (w', r) → clock w <= clock w'
}.

(** [cert.Verify] for a server of name [host] at time [t], with the one root
    of [caPEM]: the chain leaf, root. *)
Definition covers (c : Cert) (t : Time) : Prop := NotBefore c <= t <= NotAfter c.
Definition verifies (certPEM caPEM : list byte) (host : string) (t : Time) : Prop :=
  ∃ bl bc leaf root rootPub,
    pem_Decode certPEM = Some bl ∧ pem_Decode caPEM = Some bc ∧
    pem_Type bl = "CERTIFICATE"%string ∧ pem_Type bc = "CERTIFICATE"%string ∧
    ParseCertificate (pem_Bytes bl) = Some leaf ∧ ParseCertificate (pem_Bytes bc) = Some root ∧
    PublicKey root = Some rootPub ∧ signed_by (pem_Bytes bl) rootPub = true ∧
    Issuer leaf = Organization root ∧
    BasicConstraintsValid root = true ∧ IsCA root = true ∧
    Z.testbit (KeyUsage root) 5 = true ∧
    ExtKeyUsageServerAuth ∈ ExtKeyUsages leaf ∧ ExtKeyUsageServerAuth ∈ ExtKeyUsages root ∧
    host ∈ DNSNames leaf ∧ covers leaf t ∧ covers root t.

Context `{!CryptoLaws}.

Lemma truncate_le t : truncate t <= t.
Proof. unfold truncate. pose proof (Z.mod_pos_bound t second). unfold second in *. lia. Qed.

(** A template of [certTemplate]. *)
Lemma certTemplate_ok org hosts notAfter w w' t :
  certTemplate org hosts notAfter w = (w', Ok t) →
  clock w <= clock w' ∧ NotBefore t <= clock w' ∧ NotAfter t = notAfter ∧
  Organization t = [org] ∧ DNSNames t = hosts ∧ BasicConstraintsValid t = true.
Proof.
  unfold certTemplate. destruct (rand_Int _ w) as [w1 [s|]] eqn:E1; [|done].
  destruct (Now w1) as [w2 n] eqn:E2. intros [= <- <-].
  apply clock_rand in E1. apply now_clock in E2. cbn. split_and!; try done; lia.
Qed.

(** A certificate of [createCert] is the template's, in a PEM block. *)
Lemma createCert_ok t p pub priv w w' c pem :
  createCert t p pub priv w = (w', Ok (c, pem)) →
  clock w <= clock w' ∧
  ∃ der, pem_Decode pem = Some (mkBlock "CERTIFICATE" der) ∧ ParseCertificate der = Some c ∧
    signed_by der (Public priv) = true ∧ Organization c = Organization t ∧
    KeyUsage c = KeyUsage t ∧ ExtKeyUsages c = ExtKeyUsages t ∧
    BasicConstraintsValid c = BasicConstraintsValid t ∧ IsCA c = IsCA t ∧ DNSNames c = DNSNames t ∧
    NotBefore c <= NotBefore t ∧ NotAfter c = truncate (NotAfter t) ∧
    Issuer c = Organization p ∧ PublicKey c = Some pub.
Proof.
  unfold createCert. destruct (CreateCertificate t p pub priv w) as [w1 [der|]] eqn:E; [|done].
  pose proof (create_parses _ _ _ _ _ _ _ E) as (c' & Hp & (?&?&?&?&?&?&?) & Hnb & Hna & ? & ? & ?).
  rewrite Hp. intros [= <- <- <-]. split; [by eapply clock_create|].
  exists der. rewrite pem_roundtrip by done. split_and!; try done.
  rewrite Hnb. apply truncate_le.
Qed.

Lemma createCA_ok org hosts notAfter w w' k c pem :
  createCA org hosts notAfter w = (w', Ok (k, c, pem)) →
  clock w <= clock w' ∧
  ∃ der, pem_Decode pem = Some (mkBlock "CERTIFICATE" der) ∧ ParseCertificate der = Some c ∧
    Organization c = [org] ∧ PublicKey c = Some (Public (RsaKey k)) ∧
    BasicConstraintsValid c = true ∧ IsCA c = true ∧ Z.testbit (KeyUsage c) 5 = true ∧
    ExtKeyUsageServerAuth ∈ ExtKeyUsages c ∧
    NotBefore c <= clock w' ∧ NotAfter c = truncate notAfter.
Proof.
  unfold createCA. destruct (rsa_GenerateKey w) as [w1 [rk|]] eqn:E1; [|done].
  apply clock_rsa in E1. unfold createCACertTemplate.
  destruct (certTemplate org hosts notAfter w1) as [w2 [t|e]] eqn:E2; [|done].
  apply certTemplate_ok in E2 as (? & ? & HA & HO & _ & HB). cbn [result_bind].
  destruct (createCert _ _ _ _ w2) as [w3 [[c' pem']|e]] eqn:E3; [|done].
  apply createCert_ok in E3 as (? & der & ? & ? & _ & HO' & HK & HX & HB' & HC & _ & Hnb & Hna & _ & ?).
  cbn in *. intros [= <- <- <- <-]. split; [lia|]. exists der.
  split_and!; try done; try congruence; [by rewrite HK|rewrite HX; apply list_elem_of_here|lia].
Qed.

Lemma key_pair_ok pem kb der c priv k :
  pem_Decode pem = Some (mkBlock "CERTIFICATE" der) → ParseCertificate der = Some c →
  key_block (pem_Type kb) = true → parsePrivateKey (pem_Bytes kb) = Some priv →
  PublicKey c = Some (Public priv) → k = EncodeToMemory kb →
  X509KeyPair pem k = Ok (mkTlsCertificate der priv).
Proof.
  intros H1 H2 H3 H4 H5 ->. unfold X509KeyPair. rewrite H1, pem_roundtrip by (by rewrite H3). cbn.
  rewrite H3, H2, H4, bool_decide_true; done.
Qed.

(** The certificates made for the webhook work.  Whenever
    [CreateCerts] for a server returns, the server key and certificate load
    as a TLS key pair, and for every host name they were requested for a TLS
    client that trusts the returned CA certificate accepts the server
    certificate, from the moment it was made until the requested expiry. *)
Theorem server_certs_verify org hosts notAfter client w w' serverKey serverCert caCert :
  CreateCerts org hosts notAfter true client w = (w', Ok (serverKey, serverCert, caCert)) →
  is_Ok (X509KeyPair serverCert serverKey) = true ∧
  ∀ host t, host ∈ hosts → clock w' <= t <= truncate notAfter → verifies serverCert caCert host t.
Proof.
  unfold CreateCerts. cbn [negb andb].
  destruct (createCA org hosts notAfter w) as [w1 [[[caKey caC] caPEM]|e]] eqn:E1; [|done].
  apply createCA_ok in E1 as (? & cder & ? & ? & HO & HP & ? & ? & ? & ? & ? & HNA).
  destruct (rsa_GenerateKey w1) as [w2 [pk|]] eqn:E2; [|done]. apply clock_rsa in E2.
  destruct (certTemplate org hosts notAfter w2) as [w3 [t|e]] eqn:E3; [|done].
  apply certTemplate_ok in E3 as (? & ? & HA & HOt & HD & HB).
  destruct (createCert _ _ _ _ w3) as [w4 [[c pem]|e]] eqn:E4; [|done].
  apply createCert_ok in E4 as (? & der & ? & ? & ? & HO' & HK & HX & HB' & HC & HDN & Hnb & Hna & HI & HPub).
  cbn in *. intros [= <- <- <- <-]. split.
  { by erewrite (key_pair_ok pem (mkBlock "RSA PRIVATE KEY" (MarshalPKCS1PrivateKey pk)) der c (RsaKey pk))
      by (done || apply rsa_roundtrip). }
  intros host tm Hh Ht.
  exists (mkBlock "CERTIFICATE" der), (mkBlock "CERTIFICATE" cder), c, caC, (Public (RsaKey caKey)).
  rewrite HA in Hna. unfold covers. rewrite HX, HDN, HD.
  split_and!; try done; try congruence; try lia. apply list_elem_of_here.
Qed.

(** The broker's and the daemon's own certificate: a key pair for
    [localhost], valid for a year; an error leaves none. *)
Theorem self_signed_pair ParseIP w w' r :
  GenerateX509KeyPair ParseIP w = (w', Some r) →
  match r with
  | Ok tc => ∃ c, ParseCertificate (tc_Certificate tc) = Some c ∧
      PublicKey c = Some (Public (tc_PrivateKey tc)) ∧ ExtKeyUsages c = [ExtKeyUsageServerAuth] ∧
      NotBefore c <= clock w' ∧ (ParseIP "localhost" = None → DNSNames c = ["localhost"%string])
  | Err e => e = GenerateKeyFailed ∨ e = SerialFailed ∨ e = SignFailed
  end.
Proof.
  unfold GenerateX509KeyPair, generatePEM, generate.
  destruct (ecdsa_GenerateKey w) as [w1 [k|]] eqn:E1; [|intros [= <- <-]; auto].
  destruct (Now w1) as [w2 now] eqn:E2.
  destruct (rand_Int _ w2) as [w3 [s|]] eqn:E3; [|intros [= <- <-]; auto].
  destruct (CreateCertificate _ _ _ _ w3) as [w4 [der|]] eqn:E4; [|intros [= <- <-]; auto].
  cbn [pemBlockForKey]. destruct (MarshalECPrivateKey k) as [b|] eqn:E5; [|done].
  intros [= <- <-].
  pose proof (create_parses _ _ _ _ _ _ _ E4)
    as (c & Hp & (_ & _ & _ & HX & _ & _ & HD) & Hnb & _ & _ & HP & _).
  erewrite (key_pair_ok _ (mkBlock "EC PRIVATE KEY" b) der c (EcdsaKey k));
    [|by rewrite pem_roundtrip by done|done|done|by apply ec_roundtrip|done|done].
  exists c. apply now_clock in E2. apply clock_rand in E3. apply clock_create in E4.
  pose proof (truncate_le now).
  unfold self_template, split_hosts in *. cbn in *.
  destruct (ParseIP "localhost"); cbn in *; split_and!; try done; lia.
Qed.
End certs.

(** ** A symbolic instance: keys are numbers, a certificate is signed by
    naming the key, and everything is written down as it is *)
Definition cert_tuple {P} (c : Certificate P) :=
  ((SerialNumber c, Organization c, match SigAlg c with SHA256WithRSA => true | _ => false end,
    NotBefore c, NotAfter c, KeyUsage c),
   (map (λ e, match e with ExtKeyUsageServerAuth => true | _ => false end) (ExtKeyUsages c),
    BasicConstraintsValid c, IsCA c, DNSNames c, IPAddresses c, Issuer c, PublicKey c)).
Definition cert_untuple {P} (p : Z * list string * bool * Time * Time * Z *
    (list bool * bool * bool * list string * list string * list string * option P)) : Certificate P :=
  let '((a, b, c, d, e, f), (g, h, i, j, k, l, m)) := p in
  mkCertificate a b (if c : bool then SHA256WithRSA else UnknownSignatureAlgorithm) d e f
    (map (λ x : bool, if x then ExtKeyUsageServerAuth else ExtKeyUsageClientAuth) g) h i j k l m.
#[local] Instance cert_eq_dec {P} `{EqDecision P} : EqDecision (Certificate P).
Proof.
  assert (EqDecision SignatureAlgorithm) by solve_decision. solve_decision.
Defined.
#[local, refine] Instance cert_countable {P} `{Countable P} : Countable (Certificate P) :=
  inj_countable' cert_tuple cert_untuple _.
Proof.
  intros [a b c d e f g h i j k l m]. cbn. f_equal; [by destruct c|].
  rewrite map_map. transitivity (map id g); [|by rewrite map_id]. apply map_ext. by intros [].
Defined.

Fixpoint bits (p : positive) : list byte :=
  match p with xH => [] | xO q => Byte.x00 :: bits q | xI q => Byte.x01 :: bits q end.
Fixpoint of_bits (l : list byte) : positive :=
  match l with [] => xH | Byte.x00 :: l' => xO (of_bits l') | _ :: l' => xI (of_bits l') end.
Lemma of_bits_bits p : of_bits (bits p) = p.
Proof. induction p; cbn; by f_equal. Qed.
Definition to_bytes {A} `{Countable A} (x : A) : list byte := bits (encode x).
Definition of_bytes {A} `{Countable A} (l : list byte) : option A := decode (of_bits l).
Lemma of_to_bytes {A} `{Countable A} (x : A) : of_bytes (to_bytes x) = Some x.
Proof. unfold of_bytes, to_bytes. rewrite of_bits_bits. by destruct (_ : Countable A). Qed.

(** A text in one line and the bytes after it. *)
Fixpoint cut_line (l : list byte) : option (list byte * list byte) :=
  match l with
  | [] => None
  | Byte.x0a :: l' => Some ([], l')
  | b :: l' => match cut_line l' with Some (t, r) => Some (b :: t, r) | None => None end
  end.

(** The world: the next fresh number and the clock. *)
#[export] Instance symbolic_crypto : Crypto (nat * Time) := {|
  ecKey := nat; rsaKey := nat; pubKey := nat;
  Public k := match k with EcdsaKey n => n | RsaKey n => n end;
  clock w := w.2;
  Now w := (w, w.2);
  ecdsa_GenerateKey w := ((S w.1, w.2), Some w.1);
  rsa_GenerateKey w := ((S w.1, w.2), Some w.1);
  rand_Int n w := ((S w.1, w.2), Some (Z.of_nat w.1 mod n));
  CreateCertificate t p pub priv w :=
    (w, Some (to_bytes
      (mkCertificate (SerialNumber t) (Organization t) (SigAlg t) (truncate (NotBefore t))
         (truncate (NotAfter t)) (KeyUsage t) (ExtKeyUsages t) (BasicConstraintsValid t) (IsCA t)
         (DNSNames t) (IPAddresses t) (Organization p) (Some pub),
       match priv with EcdsaKey n => n | RsaKey n => n end)));
  ParseCertificate der := fst <$> of_bytes (A := Certificate nat * nat) der;
  signed_by der k := bool_decide (snd <$> of_bytes (A := Certificate nat * nat) der = Some k);
  MarshalECPrivateKey k := Some (to_bytes (false, k));
  MarshalPKCS1PrivateKey k := to_bytes (true, k);
  parsePrivateKey b :=
    match of_bytes (A := bool * nat) b with
    | Some (true, k) => Some (RsaKey k)
    | Some (false, k) => Some (EcdsaKey k)
    | None => None
    end;
  EncodeToMemory b := String.list_byte_of_string (pem_Type b) ++ Byte.x0a :: pem_Bytes b;
  pem_Decode l := match cut_line l with
                  | Some (t, r) => Some (mkBlock (String.string_of_list_byte t) r)
                  | None => None
                  end
|}.

#[export] Instance symbolic_laws : CryptoLaws (W := nat * Time).
Proof.
  split; cbn; try (by intros; simplify_eq; cbn; lia); try (by intros; simplify_eq; rewrite of_to_bytes).
  - intros t p pub priv w w' der [= <- <-]. rewrite !of_to_bytes. cbn.
    eexists. split; [done|]. cbn. split_and!; try done. apply bool_decide_true. by destruct priv.
  - intros [ty b] Hty. cbn in *. apply orb_true_iff in Hty as [Hk|Hc].
    + apply bool_decide_eq_true in Hk. by destruct Hk as [->|[->| ->]].
    + by apply String.eqb_eq in Hc as ->.
Qed.

Definition ex_hosts : list string := ["hook.kyno.svc"%string].
Definition ex_created := CreateCerts (W := nat * Time) "sh.kyno" ex_hosts (100 * second) true false (7%nat, 5 * second).
Definition ex_key : list byte := match ex_created.2 with Ok (k, _, _) => k | Err _ => [] end.
Definition ex_cert : list byte := match ex_created.2 with Ok (_, c, _) => c | Err _ => [] end.
Definition ex_ca : list byte := match ex_created.2 with Ok (_, _, c) => c | Err _ => [] end.

Lemma server_certs_verify_witness :
  is_Ok (X509KeyPair (W := nat * Time) ex_cert ex_key) = true ∧
  verifies (W := nat * Time) ex_cert ex_ca "hook.kyno.svc" (50 * second).
Proof.
  destruct (server_certs_verify (W := nat * Time) "sh.kyno" ex_hosts (100 * second) false (7%nat, 5 * second)
              ex_created.1 ex_key ex_cert ex_ca) as [Hk Hv];
    [vm_cast_no_check (eq_refl ex_created)|].
  split; [exact Hk|]. refine (Hv _ _ _ _); [exact (list_elem_of_here _ _)|].
  split; vm_compute; intros Hd; discriminate Hd.
Defined.
End Certs.
