(* ===== verification/Webhook.v ===== *)
(** * Admission webhook ([pkg/webhook/webhook.go], [pkg/webhook/validator/*.go],
    [pkg/webhook/cmd/start.go])

    The HTTP handler that validates AgentSets, the registration of the
    webhook with the API server, and its serving certificates, which the
    replicas share through a Secret.  The JSON decoders, [inflect.Pluralize]
    and the text of a validation error are parameters; the API server is a
    [Client] per kind of object and the certificates are those of [Certs]. *)
From S2P Require Import Prelude GoStrings Volumes K8s Types Validator Certs.
#[local] Open Scope Z_scope.
#[local] Open Scope string_scope.
#[local] Open Scope list_scope.

Module Webhook.
#[local] Unset Default Proof Using.
Import GoStrings Validator Certs.

(** ** Validators *)
Record GroupVersionKind : Set := mkGVK { gvk_Group : string; gvk_Version : string; gvk_Kind : string }.
#[export] Instance GVK_eq_dec : EqDecision GroupVersionKind.
Proof. solve_decision. Defined.
#[export, refine] Instance GVK_countable : Countable GroupVersionKind :=
  inj_countable' (λ g, (gvk_Group g, gvk_Version g, gvk_Kind g)) (λ p, mkGVK p.1.1 p.1.2 p.2) _.
Proof. by intros []. Defined.

Definition AgentSetGroupVersionKind : GroupVersionKind :=
  mkGVK "kynomesh.kyno.sh" "v1alpha1" "AgentSet".

(** [metav1.GroupVersionKind.String] *)
Definition gvk_String (g : GroupVersionKind) : string :=
  gvk_Group g +:+ "/" +:+ gvk_Version g +:+ ", Kind=" +:+ gvk_Kind g.

(** [metav1.Status] of an error of class BadRequest. *)
Record Status : Set := mkStatus { st_Status : string; st_Message : string; st_Reason : string; st_Code : Z }.
Record AdmissionResponse : Set := mkResponse {
  ar_UID : string;
  ar_Allowed : bool;
  ar_Result : option Status
}.
Definition NewBadRequest (reason : string) : Status := mkStatus "Failure" reason "BadRequest" 400.

(** [fmt.Sprintf] of a format with one [%v]. *)
Fixpoint subst_verb (fmt v : string) : string :=
  match fmt with
  | EmptyString => EmptyString
  | String c s =>
      if HasPrefix fmt "%v" then v +:+ (match s with String _ s' => s' | _ => "" end)
      else String c (subst_verb s v)
  end.
(** [%v] of a slice. *)
Definition sprint_slice (args : list string) : string := "[" +:+ Join args " " +:+ "]".

(** [fmt.Sprintf(reason, args)]: the slice is the one argument. *)
Definition DeniedResponse (reason : string) (args : list string) : AdmissionResponse :=
  let reason := if bool_decide (args = []) then reason else subst_verb reason (sprint_slice args) in
  mkResponse "" false (Some (NewBadRequest reason)).
Definition AllowedResponse : AdmissionResponse := mkResponse "" true None.

Inductive Operation : Set := OpCreate | OpUpdate | OpDelete | OpConnect | OpOther (s : string).

Record AdmissionRequest : Set := mkRequest {
  rq_UID : string;
  rq_Kind : GroupVersionKind;
  rq_Operation : Operation;
  rq_Object : list byte;
  rq_OldObject : list byte
}.

Section handler.
Context (IsDNS1035Label : string → bool) (url_Parse : string → option (string * string)).
Context (json_Unmarshal : list byte → result string AgentSet) (error_text : ValidationError → string).
(** [json.NewDecoder(body).Decode(&review)]: the request of the review,
    which may be absent. *)
Context (decode_review : list byte → result string (option AdmissionRequest)).

Record agentSetValidator : Set := mkValidator {
  oldAgentSet : option AgentSet;
  newAgentSet : option AgentSet
}.
Definition NewAgentSetValidator (old new : option AgentSet) : agentSetValidator :=
  mkValidator old new.

(** A validator of a nil object dereferences nil: [None]. *)
Definition ValidateCreate (v : agentSetValidator) : option AdmissionResponse :=
  s ← newAgentSet v;
  match ValidateAgentSet IsDNS1035Label url_Parse s with
  | Err e => Some (DeniedResponse (error_text e) [])
  | Ok _ => Some AllowedResponse
  end.
Definition ValidateUpdate (v : agentSetValidator) : option AdmissionResponse :=
  s ← newAgentSet v;
  match ValidateAgentSet IsDNS1035Label url_Parse s with
  | Err e => Some (DeniedResponse (error_text e) [])
  | Ok _ => Some AllowedResponse
  end.

Definition unmarshal_spec (raw : list byte) : result string (option AgentSet) :=
  match raw with
  | [] => Ok None
  | _ => match json_Unmarshal raw with Ok s => Ok (Some s) | Err e => Err e end
  end.
Definition GetValidator (kind : GroupVersionKind) (oldBytes newBytes : list byte)
    : result string agentSetValidator :=
  if String.eqb (gvk_Kind kind) (gvk_Kind AgentSetGroupVersionKind) then
    result_bind (unmarshal_spec newBytes) (λ newSpec,
    result_bind (unmarshal_spec oldBytes) (λ oldSpec,
    Ok (NewAgentSetValidator oldSpec newSpec)))
  else Err ("unrecognized kind: " +:+ gvk_String kind).

(** ** The handler *)
Definition admitRequest (request : AdmissionRequest) : option AdmissionResponse :=
  match rq_Operation request with
  | OpCreate | OpUpdate =>
      match GetValidator (rq_Kind request) (rq_OldObject request) (rq_Object request) with
      | Err e => Some (DeniedResponse "failed to get a validator: %v" [e])
      | Ok v =>
          match rq_Operation request with
          | OpCreate => ValidateCreate v
          | OpUpdate => ValidateUpdate v
          | _ => Some AllowedResponse
          end
      end
  | _ => Some AllowedResponse
  end.

(** What the caller sees: an error with a text, a review, or a connection
    the server dropped when the handler panicked. *)
Inductive reply : Set :=
  | HttpError (status : Z) (msg : string)
  | Review (kind apiVersion : string) (response : AdmissionResponse)
  | Dropped.

Definition StatusUnsupportedMediaType : Z := 415.
Definition StatusBadRequest : Z := 400.

Definition ServeHTTP (contentType : string) (body : list byte) : reply :=
  if negb (String.eqb contentType "application/json") then
    HttpError StatusUnsupportedMediaType "invalid Content-Type, want `application/json`"
  else match decode_review body with
  | Err e => HttpError StatusBadRequest ("could not decode body: " +:+ e)
  | Ok None => Dropped
  | Ok (Some request) =>
      match admitRequest request with
      | None => Dropped
      | Some r =>
          Review "AdmissionReview" "admission.k8s.io/v1"
            (mkResponse (rq_UID request) (ar_Allowed r) (ar_Result r))
      end
  end.

Lemma unmarshal_new raw s : raw ≠ [] → json_Unmarshal raw = Ok s → unmarshal_spec raw = Ok (Some s).
Proof. intros Hne Hs. unfold unmarshal_spec. rewrite Hs. by destruct raw. Qed.
Lemma unmarshal_old raw :
  raw = [] ∨ is_Ok (json_Unmarshal raw) = true → ∃ o, unmarshal_spec raw = Ok o.
Proof.
  unfold unmarshal_spec. intros [->|Hok]; [eauto|]. destruct raw; [eauto|].
  destruct (json_Unmarshal _); [eauto|done].
Qed.

(** The verdict on an object. *)
Lemma admit_agentset request s :
  rq_Operation request = OpCreate ∨ rq_Operation request = OpUpdate →
  gvk_Kind (rq_Kind request) = "AgentSet" →
  rq_Object request ≠ [] → json_Unmarshal (rq_Object request) = Ok s →
  (rq_OldObject request = [] ∨ is_Ok (json_Unmarshal (rq_OldObject request)) = true) →
  admitRequest request =
    Some (match ValidateAgentSet IsDNS1035Label url_Parse s with
          | Ok _ => AllowedResponse
          | Err e => DeniedResponse (error_text e) []
          end).
Proof.
  intros Hop Hk Hne Hs Hold. unfold admitRequest, GetValidator. rewrite Hk.
  rewrite (unmarshal_new _ s Hne Hs). destruct (unmarshal_old _ Hold) as [o Ho].
  cbn [result_bind String.eqb Ascii.eqb Bool.eqb gvk_Kind AgentSetGroupVersionKind]. rewrite Ho.
  destruct Hop as [-> | ->]; cbn; by case_match.
Qed.

(** C29: the webhook enforces the validation rules at admission.  For a
    review of a created or updated AgentSet whose objects decode, the answer
    is a review with the request's UID that allows the object exactly when
    the AgentSet is well-formed and has an agent, so the reconciler never
    rejects what the webhook admitted; a denial carries a BadRequest status
    with the first violation.  Well-formed is what the code checks
    ([Validator.well_formed]), so a
    saturation target of 0, which the operations guide rules out, is
    admitted. *)
Theorem admission_iff_well_formed contentType body request s :
  contentType = "application/json" → decode_review body = Ok (Some request) →
  rq_Operation request = OpCreate ∨ rq_Operation request = OpUpdate →
  gvk_Kind (rq_Kind request) = "AgentSet" →
  rq_Object request ≠ [] → json_Unmarshal (rq_Object request) = Ok s →
  (rq_OldObject request = [] ∨ is_Ok (json_Unmarshal (rq_OldObject request)) = true) →
  ∃ r, ServeHTTP contentType body = Review "AdmissionReview" "admission.k8s.io/v1" r ∧
    ar_UID r = rq_UID request ∧
    (ar_Allowed r = true ↔ well_formed IsDNS1035Label url_Parse s ∧ as_Agents (as_Spec s) ≠ []) ∧
    (ar_Allowed r = false ↔ ∃ e, ValidateAgentSet IsDNS1035Label url_Parse s = Err e ∧
                              ar_Result r = Some (mkStatus "Failure" (error_text e) "BadRequest" 400)).
Proof.
  intros -> Hd Hop Hk Hne Hs Hold. unfold ServeHTTP. rewrite Hd. cbn [negb String.eqb Ascii.eqb Bool.eqb].
  rewrite (admit_agentset request s) by done. eexists. split; [done|].
  rewrite <- validate_well_formed.
  destruct (ValidateAgentSet _ _ s) as [[]|e]; cbn; split_and!; try done; naive_solver.
Qed.

(** Everything else: another operation is allowed unread, another kind and
    an object that does not decode are denied, and a request that carries no
    object to validate drops the connection. *)
Theorem admission_other_requests request :
  (rq_Operation request ≠ OpCreate → rq_Operation request ≠ OpUpdate →
   admitRequest request = Some AllowedResponse) ∧
  (rq_Operation request = OpCreate ∨ rq_Operation request = OpUpdate →
   gvk_Kind (rq_Kind request) ≠ "AgentSet" →
   admitRequest request = Some (DeniedResponse "failed to get a validator: %v"
                           ["unrecognized kind: " +:+ gvk_String (rq_Kind request)])) ∧
  (rq_Operation request = OpCreate ∨ rq_Operation request = OpUpdate →
   gvk_Kind (rq_Kind request) = "AgentSet" → rq_Object request = [] →
   (rq_OldObject request = [] ∨ is_Ok (json_Unmarshal (rq_OldObject request)) = true) →
   admitRequest request = None).
Proof.
  split_and!.
  - unfold admitRequest. by destruct (rq_Operation request).
  - intros Hop Hk. unfold admitRequest, GetValidator.
    destruct (String.eqb_spec (gvk_Kind (rq_Kind request)) (gvk_Kind AgentSetGroupVersionKind)); [done|].
    by destruct Hop as [-> | ->].
  - intros Hop Hk Hne Hold. unfold admitRequest, GetValidator. rewrite Hk, Hne.
    destruct (unmarshal_old _ Hold) as [o Ho].
    cbn [result_bind String.eqb Ascii.eqb Bool.eqb gvk_Kind AgentSetGroupVersionKind unmarshal_spec].
    rewrite Ho. by destruct Hop as [-> | ->].
Qed.
End handler.

(** The denial of a request prints its error in brackets. *)
Example denial_brackets_the_error :
  st_Message <$> ar_Result (DeniedResponse "failed to get a validator: %v" ["boom"]) =
  Some "failed to get a validator: [boom]".
Proof. reflexivity. Qed.

(** ** Configuration ([cmd/start.go]) *)
Record Options : Set := mkOptions {
  WebhookName : string;
  ServiceName : string;
  DeploymentName : string;
  ClusterRoleName : string;
  SecretName : string;
  Namespace : string;
  Port : Z;
  ClientAuth : Z
}.
Definition VerifyClientCertIfGiven : Z := 3.

Inductive optionsErr : Set := NamespaceUnset | PortNotANumber (s : string).
Definition resolveOptions (env : gmap string string) : result optionsErr Options :=
  match env !! "NAMESPACE" with
  | None => Err NamespaceUnset
  | Some namespace =>
      let portStr := Volumes.LookupEnvStringOr env "PORT" "443" in
      match Atoi portStr with
      | None => Err (PortNotANumber portStr)
      | Some port =>
          Ok (mkOptions "webhook.kynomesh.kyno.sh"
                (Volumes.LookupEnvStringOr env "SERVICE_NAME" "kynomesh-webhook")
                (Volumes.LookupEnvStringOr env "DEPLOYMENT_NAME" "kynomesh-webhook")
                (Volumes.LookupEnvStringOr env "CLUSTER_ROLE_NAME" "kynomesh-webhook")
                "kynomesh-webhook-certs" namespace port VerifyClientCertIfGiven)
      end
  end.
(** The handlers [Start] registers. *)
Definition start_handlers : gmap GroupVersionKind unit := {[ AgentSetGroupVersionKind := tt ]}.

(** ** Objects of the registration *)
Record RuleWithOperations : Set := mkRule {
  ru_Operations : list string;
  ru_APIGroups : list string;
  ru_APIVersions : list string;
  ru_Resources : list string;
  ru_Scope : option string
}.
Record ServiceReference : Set := mkServiceReference {
  sr_Namespace : string; sr_Name : string; sr_Port : Z }.
Record ValidatingWebhook : Set := mkValidatingWebhook {
  vw_Name : string;
  vw_Rules : list RuleWithOperations;
  vw_SideEffects : string;
  vw_AdmissionReviewVersions : list string;
  vw_Service : ServiceReference;
  vw_CABundle : list byte;
  vw_FailurePolicy : string;
  vw_MatchPolicy : option string;
  vw_TimeoutSeconds : option Z
}.
#[export] Instance RuleWithOperations_eq_dec : EqDecision RuleWithOperations.
Proof. solve_decision. Defined.
#[export] Instance ServiceReference_eq_dec : EqDecision ServiceReference.
Proof. solve_decision. Defined.
#[export] Instance byte_eq_dec : EqDecision byte := Byte.byte_eq_dec.
#[export] Instance ValidatingWebhook_eq_dec : EqDecision ValidatingWebhook.
Proof. solve_decision. Defined.
Record ValidatingWebhookConfiguration : Set := mkVWC {
  vwc_meta : ObjectMeta;
  Webhooks : list ValidatingWebhook
}.
Record ClusterRole : Set := mkClusterRole { cr_meta : ObjectMeta }.
Record Secret : Set := mkSecret { sec_meta : ObjectMeta; sec_Data : gmap string (list byte) }.
Record TextConfigMap : Set := mkTextConfigMap { tcm_meta : ObjectMeta; tcm_Data : gmap string string }.
#[export] Instance VWC_HasMeta : HasMeta ValidatingWebhookConfiguration := vwc_meta.
#[export] Instance ClusterRole_HasMeta : HasMeta ClusterRole := cr_meta.
#[export] Instance Secret_HasMeta : HasMeta Secret := sec_meta.
#[export] Instance TextConfigMap_HasMeta : HasMeta TextConfigMap := tcm_meta.

Definition secretServerKey := "server-key.pem".
Definition secretServerCert := "server-cert.pem".
Definition secretCACert := "ca-cert.pem".
Definition certOrg := "sh.kyno".

Inductive webhookErr : Set :=
  | Api (what : string) (e : ApiError)
  | CertErr (e : certErr)
  | Missing (what : string)
  | ServerFailed.

(** ** Registration *)
Definition rule_of (Pluralize : string → string) (gvk : GroupVersionKind) : RuleWithOperations :=
  let plural := ToLower (Pluralize (ToLower (gvk_Kind gvk))) in
  mkRule ["CREATE"; "UPDATE"; "DELETE"] [gvk_Group gvk] [gvk_Version gvk] [plural] None.

(** [s[0]] of a non-empty slice. *)
Definition first (l : list string) : string := match l with x :: _ => x | [] => "" end.
Definition rule_less (lhs rhs : RuleWithOperations) : bool :=
  if negb (String.eqb (first (ru_APIGroups lhs)) (first (ru_APIGroups rhs))) then
    String.ltb (first (ru_APIGroups lhs)) (first (ru_APIGroups rhs))
  else if negb (String.eqb (first (ru_APIVersions lhs)) (first (ru_APIVersions rhs))) then
    String.ltb (first (ru_APIVersions lhs)) (first (ru_APIVersions rhs))
  else String.ltb (first (ru_Resources lhs)) (first (ru_Resources rhs)).

Definition rules `{GoRange} `{GoSort} (Pluralize : string → string)
    (handlers : gmap GroupVersionKind unit) : list RuleWithOperations :=
  sort_slice rule_less (map (λ p, rule_of Pluralize p.1) (range_map handlers)).

Definition desired_webhook `{GoRange} `{GoSort} (Pluralize : string → string)
    (handlers : gmap GroupVersionKind unit) (o : Options) (caCert : list byte) : ValidatingWebhook :=
  mkValidatingWebhook (WebhookName o) (rules Pluralize handlers) "None" ["v1"; "v1beta1"]
    (mkServiceReference (Namespace o) (ServiceName o) (wrap_s 32 (Port o))) caCert "Ignore" None None.

(** ** The rules do not depend on the order a map is visited in *)
(** A comparison by one field and then by a weak order on the rest. *)
Lemma strict_weak_lex {B} (f : B → string) (less : B → B → bool) :
  strict_weak less →
  strict_weak (λ x y, if negb (String.eqb (f x) (f y)) then String.ltb (f x) (f y) else less x y).
Proof.
  destruct string_ltb_strict_weak as (Si & St & Sn). intros (Hi & Ht & Hn).
  assert (∀ a b, String.ltb a b = true → a ≠ b) as Hne by (intros a ? E ->; by rewrite Si in E).
  split_and!.
  - intros x. rewrite String.eqb_refl. apply Hi.
  - intros x y z. cbn.
    destruct (String.eqb_spec (f x) (f y)) as [E1|E1], (String.eqb_spec (f y) (f z)) as [E2|E2],
      (String.eqb_spec (f x) (f z)) as [E3|E3]; cbn; try congruence; eauto.
    rewrite E3. intros H1 H2. specialize (St _ _ _ H1 H2). by rewrite Si in St.
  - intros x y z. cbn.
    destruct (String.eqb_spec (f x) (f y)) as [E1|E1], (String.eqb_spec (f y) (f z)) as [E2|E2],
      (String.eqb_spec (f x) (f z)) as [E3|E3]; cbn; try congruence; eauto.
    rewrite <- E3. intros H1 H2. by destruct E1; apply string_ltb_total.
Qed.

Lemma rule_less_strict_weak : strict_weak rule_less.
Proof.
  apply (strict_weak_lex (λ r, first (ru_APIGroups r))).
  apply (strict_weak_lex (λ r, first (ru_APIVersions r))).
  apply (strict_weak_on (λ r, first (ru_Resources r))), string_ltb_strict_weak.
Qed.

Lemma rule_less_total Pluralize g g' :
  rule_less (rule_of Pluralize g) (rule_of Pluralize g') = false →
  rule_less (rule_of Pluralize g') (rule_of Pluralize g) = false →
  rule_of Pluralize g = rule_of Pluralize g'.
Proof.
  unfold rule_less, rule_of. cbn.
  rewrite (String.eqb_sym (gvk_Group g')), (String.eqb_sym (gvk_Version g')).
  destruct (String.eqb_spec (gvk_Group g) (gvk_Group g')) as [->|Hg]; cbn.
  2:{ intros. by destruct Hg; apply string_ltb_total. }
  destruct (String.eqb_spec (gvk_Version g) (gvk_Version g')) as [->|Hv]; cbn.
  2:{ intros. by destruct Hv; apply string_ltb_total. }
  intros. by rewrite (string_ltb_total (ToLower (Pluralize (ToLower (gvk_Kind g))))
                        (ToLower (Pluralize (ToLower (gvk_Kind g'))))).
Qed.

Lemma rules_canonical (R1 R2 : GoRange) (S1 S2 : GoSort) Pluralize handlers :
  @rules R1 S1 Pluralize handlers = @rules R2 S2 Pluralize handlers.
Proof.
  unfold rules.
  apply (StronglySorted_unique_strong (λ x y, rule_less y x = false));
    try apply sort_slice_sorted, rule_less_strict_weak.
  - intros x y. rewrite !sort_slice_perm. intros Hx Hy.
    apply list_elem_of_fmap in Hx as (p & -> & _). apply list_elem_of_fmap in Hy as (q & -> & _).
    intros. by apply rule_less_total.
  - rewrite !sort_slice_perm. by rewrite !range_map_perm.
Qed.

(** The server: [A] holds the objects, [C] is the entropy and the clock. *)
Section controller.
Context {A : Type} `{!Client A ValidatingWebhookConfiguration} `{!Client A ClusterRole}.
Context `{!Client A Secret} `{!Client A Deployment} `{!Client A TextConfigMap}.
Context {C : Type} `{Crypto C} `{GoRange} `{GoSort} (Pluralize : string → string).
Context (handlers : gmap GroupVersionKind unit) (o : Options).

Definition vwc_key : NamespacedName := mkKey "" (WebhookName o).
Definition secret_key : NamespacedName := mkKey (Namespace o) (SecretName o).

Definition register (caCert : list byte) (a : A) : A * option webhookErr :=
  let '(a, role) := Get (O := ClusterRole) (mkKey "" (ClusterRoleName o)) a in
  match role with
  | Err e => (a, Some (Api "failed to fetch webhook cluster role" e))
  | Ok role =>
      let ref := NewControllerRef (cr_meta role) "rbac.authorization.k8s.io/v1" "ClusterRole" in
      let webhook := mkVWC (new_meta "" (WebhookName o) ∅ ∅ [ref])
                       [desired_webhook Pluralize handlers o caCert] in
      let '(a, e) := Create webhook a in
      match e with
      | None => (a, None)
      | Some e =>
          if negb (IsAlreadyExists e) then (a, Some (Api "failed to create a webhook" e))
          else
            let '(a, configured) := Get (O := ValidatingWebhookConfiguration) vwc_key a in
            match configured with
            | Err e => (a, Some (Api "failed to retrieve webhook" e))
            | Ok configured =>
                if bool_decide (Webhooks configured = Webhooks webhook) then (a, None)
                else
                  let m := vwc_meta webhook in
                  let webhook := mkVWC
                    (mkObjectMeta (om_Namespace m) (om_Name m) (om_UID m)
                       (om_ResourceVersion (vwc_meta configured)) (om_Generation m) (om_Labels m)
                       (om_Annotations m) (om_OwnerReferences m) (om_DeletionTimestamp m))
                    (Webhooks webhook) in
                  let '(a, e) := Update webhook a in
                  (a, Api "failed to update webhook" <$> e)
            end
      end
  end.

(** ** Serving certificates *)
Definition cert_hosts : list string :=
  [ServiceName o +:+ "." +:+ Namespace o +:+ ".svc.cluster.local";
   ServiceName o +:+ "." +:+ Namespace o +:+ ".svc"].
Definition cert_lifetime : Duration := 10 * 365 * 24 * hour.

Definition generateSecret (a : A) (c : C) : A * C * result webhookErr Secret :=
  let '(c, now) := Now c in
  let '(c, certs) := CreateCerts certOrg cert_hosts (now + cert_lifetime) true false c in
  match certs with
  | Err e => (a, c, Err (CertErr e))
  | Ok (serverKey, serverCert, caCert) =>
      let '(a, dep) := Get (O := Deployment) (mkKey (Namespace o) (DeploymentName o)) a in
      match dep with
      | Err e => (a, c, Err (Api "failed to fetch webhook deployment" e))
      | Ok dep =>
          let ref := NewControllerRef (dep_meta dep) "apps/v1" "Deployment" in
          (a, c, Ok (mkSecret (new_meta (Namespace o) (SecretName o) ∅ ∅ [ref])
             (<[secretServerKey := serverKey]> (<[secretServerCert := serverCert]>
                (<[secretCACert := caCert]> ∅)))))
      end
  end.

Definition secret_certs (s : Secret) : result webhookErr (list byte * list byte * list byte) :=
  match sec_Data s !! secretServerKey with
  | None => Err (Missing "server key")
  | Some serverKey =>
      match sec_Data s !! secretServerCert with
      | None => Err (Missing "server cert")
      | Some serverCert =>
          match sec_Data s !! secretCACert with
          | None => Err (Missing "ca cert")
          | Some caCert => Ok (serverKey, serverCert, caCert)
          end
      end
  end.

Definition getOrGenerateKeyCertsFromSecret (a : A) (c : C)
    : A * C * result webhookErr (list byte * list byte * list byte) :=
  let '(a, secret) := Get (O := Secret) secret_key a in
  match secret with
  | Ok s => (a, c, secret_certs s)
  | Err e =>
      if negb (IsNotFound e) then (a, c, Err (Api "" e))
      else
        let '(a, c, new) := generateSecret a c in
        match new with
        | Err e => (a, c, Err e)
        | Ok newSecret =>
            let '(a, e) := Create newSecret a in
            match e with
            | Some e' =>
                if negb (IsAlreadyExists e') then (a, c, Err (Api "" e'))
                else
                  let '(a, secret) := Get (O := Secret) secret_key a in
                  match secret with
                  | Ok s => (a, c, secret_certs s)
                  | Err e => (a, c, Err (Api "" e))
                  end
            | None =>
                let '(a, secret) := Get (O := Secret) secret_key a in
                match secret with
                | Ok s => (a, c, secret_certs s)
                | Err e => (a, c, Err (Api "" e))
                end
            end
        end
  end.

Definition getAPIServerExtensionCACert (a : A) : A * result webhookErr (list byte) :=
  let '(a, cm) := Get (O := TextConfigMap) (mkKey "kube-system" "extension-apiserver-authentication") a in
  match cm with
  | Err e => (a, Err (Api "" e))
  | Ok cm =>
      match tcm_Data cm !! "requestheader-client-ca-file" with
      | None => (a, Err (Missing "requestheader-client-ca-file"))
      | Some pem => (a, Ok (String.list_byte_of_string pem))
      end
  end.

(** [tls.Config]; the pool of client CAs is the PEM text it was built from. *)
Record tlsConfig : Type := mkTlsConfig {
  Certificates : list tlsCertificate;
  ClientCAs : list byte;
  tls_ClientAuth : Z
}.
Definition makeTLSConfig (serverCert serverKey caCert : list byte) (clientAuthType : Z)
    : result webhookErr tlsConfig :=
  match X509KeyPair serverCert serverKey with
  | Err e => Err (CertErr e)
  | Ok cert => Ok (mkTlsConfig [cert] caCert clientAuthType)
  end.

Definition configureCerts (clientAuth : Z) (a : A) (c : C)
    : A * C * result webhookErr (tlsConfig * list byte) :=
  let '(a, apiServerCACert) :=
    if (VerifyClientCertIfGiven <=? clientAuth)%Z then getAPIServerExtensionCACert a else (a, Ok []) in
  match apiServerCACert with
  | Err e => (a, c, Err e)
  | Ok apiServerCACert =>
      let '(a, c, certs) := getOrGenerateKeyCertsFromSecret a c in
      match certs with
      | Err e => (a, c, Err e)
      | Ok (serverKey, serverCert, caCert) =>
          match makeTLSConfig serverCert serverKey apiServerCACert clientAuth with
          | Err e => (a, c, Err e)
          | Ok cfg => (a, c, Ok (cfg, caCert))
          end
      end
  end.

(** [Run] up to the server: a failure of [configureCerts] is only logged and
    leaves no certificate and no CA.  The server starts when it has a
    certificate and its port binds; then [Run] ends with the context. *)
Definition Run (binds : bool) (close_err : option webhookErr) (a : A) (c : C)
    : A * C * option webhookErr :=
  let '(a, c, r) := configureCerts (ClientAuth o) a c in
  let '(tls, caCert) := match r with Ok (cfg, ca) => (Some cfg, ca) | Err _ => (None, []) end in
  let '(a, e) := register caCert a in
  match e with
  | Some e => (a, c, Some e)
  | None =>
      match tls with
      | Some _ => if binds then (a, c, close_err) else (a, c, Some ServerFailed)
      | None => (a, c, Some ServerFailed)
      end
  end.

(** ** Registration reaches the desired configuration *)

(** The fields the code sets; the server fills in the others. *)
Definition set_fields (v : ValidatingWebhook) : ValidatingWebhook :=
  mkValidatingWebhook (vw_Name v)
    (map (λ r, mkRule (ru_Operations r) (ru_APIGroups r) (ru_APIVersions r) (ru_Resources r) None) (vw_Rules v))
    (vw_SideEffects v) (vw_AdmissionReviewVersions v) (vw_Service v) (vw_CABundle v)
    (vw_FailurePolicy v) None None.
Definition same_webhooks (x y : ValidatingWebhookConfiguration) : Prop :=
  map set_fields (Webhooks y) = map set_fields (Webhooks x).

Context `{!ClientLaws A ValidatingWebhookConfiguration same_webhooks}.

Lemma set_fields_desired ca :
  set_fields (desired_webhook Pluralize handlers o ca) = desired_webhook Pluralize handlers o ca.
Proof.
  unfold set_fields, desired_webhook. cbn. f_equal. rewrite <- (map_id (rules _ _)) at 2.
  apply map_ext_in. intros r Hr%list_elem_of_In. unfold rules in Hr. rewrite sort_slice_perm in Hr.
  apply list_elem_of_fmap in Hr as (p & -> & _). done.
Qed.

Definition registered (ca : list byte) (a : A) : Prop :=
  ∃ cfg, objs a !! vwc_key = Some cfg ∧
    map set_fields (Webhooks cfg) = [desired_webhook Pluralize handlers o ca].

Lemma stored_registered ca a x y :
  objs a !! vwc_key = Some y → same_webhooks x y →
  Webhooks x = [desired_webhook Pluralize handlers o ca] → registered ca a.
Proof.
  intros Ho Hs Hx. exists y. split; [done|]. rewrite Hs, Hx. cbn. by rewrite set_fields_desired.
Qed.

Lemma register_ok ca a a' : register ca a = (a', None) → registered ca a'.
Proof.
  unfold register. destruct (Get (mkKey "" (ClusterRoleName o)) a) as [a1 [role|e]]; [|done].
  set (wh := mkVWC _ _).
  destruct (Create wh a1) as [a2 [e|]] eqn:Ec.
  2:{ intros [= <-]. apply create_ok in Ec as (y & Hy & Hs). by eapply (stored_registered _ _ wh). }
  destruct (negb (IsAlreadyExists e)); [done|].
  destruct (Get vwc_key a2) as [a3 [conf|e']] eqn:Eg; [|done].
  case_bool_decide as Heq.
  { intros [= <-]. apply get_ok in Eg. eapply (stored_registered _ _ conf); [done|done|exact Heq]. }
  set (wh' := mkVWC _ _).
  destruct (Update wh' a3) as [a4 [e''|]] eqn:Eu; [done|]. intros [= <-].
  apply update_ok in Eu as (y & Hy & Hs). by eapply (stored_registered _ _ wh').
Qed.

(** ** The API server trusts the server it is pointed at *)
Context `{!CryptoLaws (W := C)} (t : Time).

Definition service_host (s : ServiceReference) : string :=
  sr_Name s +:+ "." +:+ sr_Namespace s +:+ ".svc".

(** A secret whose certificate the API server accepts at time [t]. *)
Definition trusted (s : Secret) : Prop :=
  ∃ k cert ca, secret_certs s = Ok (k, cert, ca) ∧ is_Ok (X509KeyPair cert k) = true ∧
    verifies cert ca (ServiceName o +:+ "." +:+ Namespace o +:+ ".svc") t.
(** A secret that holds what a replica with these options generated, at most
    ten years before [t]: the replica's run of [generateSecret] returned it. *)
Definition made (s : Secret) : Prop :=
  ∃ (a a' : A) (c c' : C) s0, generateSecret a c = (a', c', Ok s0) ∧ sec_Data s = sec_Data s0 ∧
    clock c' <= t <= truncate (clock c + cert_lifetime).
Definition secrets_made (a : A) : Prop := ∀ s, objs a !! secret_key = Some s → made s.

(** Whoever else writes the secret is a replica that runs this code with the
    same options: what is there, and what appears while this replica calls the
    server, was generated by one. *)
Class OnlyReplicasWrite := {
  rely_get k a a' r : Get (O := Secret) k a = (a', r) → secrets_made a → secrets_made a';
  rely_create s a a' r : Create (O := Secret) s a = (a', r) →
    made s → secrets_made a → secrets_made a';
  rely_dep k a a' r : Get (O := Deployment) k a = (a', r) → secrets_made a → secrets_made a';
  rely_cm k a a' r : Get (O := TextConfigMap) k a = (a', r) → secrets_made a → secrets_made a'
}.
Context (serves : Secret → Secret → Prop) `{!ClientLaws A Secret serves} `{!OnlyReplicasWrite}.

Lemma truncate_mono x y : x <= y → truncate x <= truncate y.
Proof.
  unfold truncate, second. intros. pose proof (Z.div_le_mono x y 1000000000).
  pose proof (Z.div_mod x 1000000000). pose proof (Z.div_mod y 1000000000). lia.
Qed.

(** What a replica generates is accepted for the service's host name. *)
Lemma made_trusted s : made s → trusted s.
Proof.
  intros (a & a' & c & c' & s0 & Hgen & Hd & Ht). revert Hgen. unfold generateSecret.
  destruct (Now c) as [c1 now] eqn:En.
  destruct (CreateCerts _ _ _ _ _ c1) as [c2 [[[k cert] ca]|e]] eqn:Ec; [|done].
  destruct (Get _ a) as [a1 [dep|e]]; [|done]. intros [= <- <- <-].
  apply server_certs_verify in Ec as [Hk Hv]. apply now_clock in En.
  exists k, cert, ca. split_and!; [unfold secret_certs; by rewrite Hd|done|].
  apply Hv; [unfold cert_hosts; set_solver|].
  pose proof (truncate_mono (clock c + cert_lifetime) (now + cert_lifetime)). lia.
Qed.

Lemma generateSecret_keeps a c a' c' r :
  generateSecret a c = (a', c', r) → secrets_made a → secrets_made a'.
Proof.
  unfold generateSecret. destruct (Now c) as [c1 now].
  destruct (CreateCerts _ _ _ _ _ c1) as [c2 [[[k cert] ca]|e]]; [|by intros [= <- <- <-]].
  destruct (Get _ a) as [a1 [dep|e]] eqn:Eg; intros [= <- <- <-]; by eapply rely_dep.
Qed.

(** A secret that was read was generated by a replica. *)
Lemma read_made a a' s : Get secret_key a = (a', Ok s) → secrets_made a → made s.
Proof. intros Hg HI. eapply (rely_get _ _ _ _ Hg HI). by eapply get_ok. Qed.

Lemma getOrGenerate_made a c a' c' r :
  getOrGenerateKeyCertsFromSecret a c = (a', c', Ok r) → secrets_made a →
  clock c' <= t <= truncate (clock c + cert_lifetime) →
  ∃ s, made s ∧ secret_certs s = Ok r.
Proof.
  unfold getOrGenerateKeyCertsFromSecret. intros Hr HI Ht.
  destruct (Get secret_key a) as [a1 [s|e]] eqn:Eg.
  { simplify_eq. exists s. split; [by eapply read_made|done]. }
  destruct (negb (IsNotFound e)); [done|].
  destruct (generateSecret a1 c) as [[a2 c2] [s|e2]] eqn:Es; [|done].
  destruct (Create s a2) as [a3 e3] eqn:Ec.
  assert (∃ a4 s4, Get secret_key a3 = (a4, Ok s4) ∧ c' = c2 ∧ secret_certs s4 = Ok r)
    as (a4 & s4 & Hg & -> & Hcerts).
  { destruct (Get secret_key a3) as [a4 [s4|e4]];
      destruct e3 as [e3|]; try destruct (negb (IsAlreadyExists e3)); simplify_eq; eauto. }
  exists s4. split; [|done]. eapply read_made; [exact Hg|]. eapply rely_create; [exact Ec| |].
  - by exists a1, a2, c, c2, s.
  - eapply generateSecret_keeps; [exact Es|]. by eapply rely_get.
Qed.

(** C14: the webhook is reachable once it is registered.  Let every replica that
    writes the certificate secret run this code with the same options (service
    name and namespace): the secret that is there already, if any, and any
    that appears while this replica starts hold what a replica's
    [generateSecret] returned ([secrets_made], [OnlyReplicasWrite]).  Then,
    after the certificates are configured and the registration returned no
    error, the server's configuration has one key pair, and the webhook
    configuration stored in the API server names this service and carries a
    CA bundle with which a TLS client accepts that key pair for the service's
    host name, at any time within the ten years after the secret in use was
    generated; this holds whichever replica's secret won.  (A secret generated
    under another service name is not covered: the code would serve it.) *)
Theorem webhook_is_trusted a c a1 c1 cfg ca a2 :
  secrets_made a →
  configureCerts (ClientAuth o) a c = (a1, c1, Ok (cfg, ca)) → register ca a1 = (a2, None) →
  clock c1 <= t <= truncate (clock c + cert_lifetime) →
  ∃ conf v tc key cert,
    objs a2 !! vwc_key = Some conf ∧ map set_fields (Webhooks conf) = [v] ∧
    vw_Service v = mkServiceReference (Namespace o) (ServiceName o) (wrap_s 32 (Port o)) ∧
    Certificates cfg = [tc] ∧ X509KeyPair cert key = Ok tc ∧
    verifies cert (vw_CABundle v) (service_host (vw_Service v)) t.
Proof.
  intros HI Hc (conf & Hconf & Hw)%register_ok Ht. unfold configureCerts in Hc.
  destruct (if (VerifyClientCertIfGiven <=? ClientAuth o)%Z then _ else _) as [a0 [ext|e]] eqn:E0; [|done].
  assert (secrets_made a0) as HI0.
  { destruct (VerifyClientCertIfGiven <=? ClientAuth o)%Z; [|by simplify_eq]. unfold getAPIServerExtensionCACert in E0.
    destruct (Get _ a) as [a0' [cm|e]] eqn:Eg; [|done].
    destruct (tcm_Data cm !! _); simplify_eq; by eapply rely_cm. }
  destruct (getOrGenerateKeyCertsFromSecret a0 c) as [[a1' c1'] [[[key cert] ca']|e]] eqn:Eg; [|done].
  unfold makeTLSConfig in Hc. destruct (X509KeyPair cert key) as [tc|e] eqn:Ep; [|done]. simplify_eq.
  destruct (getOrGenerate_made _ _ _ _ _ Eg HI0 Ht) as (s & (k' & cert' & ca' & Hs & _ & Hv)%made_trusted & Hs').
  rewrite Hs' in Hs. simplify_eq.
  exists conf, (desired_webhook Pluralize handlers o ca'), tc, k', cert'. by split_and!.
Qed.

(** ** Replicas share one certificate *)

(** Once written the secret stays: no call removes or changes it. *)
Definition secret_stays (a a' : A) : Prop :=
  ∀ s : Secret, objs a !! secret_key = Some s → objs a' !! secret_key = Some s.

Lemma getOrGenerate_stored a c a' c' r :
  getOrGenerateKeyCertsFromSecret a c = (a', c', Ok r) →
  ∃ s, objs a' !! secret_key = Some s ∧ secret_certs s = Ok r.
Proof.
  unfold getOrGenerateKeyCertsFromSecret.
  destruct (Get secret_key a) as [a1 [s|e]] eqn:Eg.
  { intros [= <- <- Hs]. exists s. split; [by eapply get_ok|done]. }
  destruct (negb (IsNotFound e)); [done|].
  destruct (generateSecret a1 c) as [[a2 c2] [s|e2]]; [|done].
  destruct (Create s a2) as [a3 e3].
  destruct e3 as [e3|]; [destruct (negb (IsAlreadyExists e3)); [done|]|];
    destruct (Get secret_key a3) as [a4 [s4|e4]] eqn:Eg4; intros; simplify_eq;
    exists s4; (split; [by eapply get_ok|done]).
Qed.

(** Replicas that start at different times serve the same
    certificate.  When the secret is written once and a replica obtained its
    key and certificates, every replica that obtains them later gets exactly
    the same ones, so a CA bundle registered by one replica fits them all. *)
Theorem replicas_share_certificates a c a1 c1 r1 a2 c2 a3 c3 r2 :
  getOrGenerateKeyCertsFromSecret a c = (a1, c1, Ok r1) → secret_stays a1 a2 →
  (∀ x x' r, Get (O := Secret) secret_key x = (x', r) → secret_stays x x') →
  getOrGenerateKeyCertsFromSecret a2 c2 = (a3, c3, Ok r2) →
  r2 = r1.
Proof.
  intros (s & Hs & Hc)%getOrGenerate_stored Hst Hget. apply Hst in Hs.
  unfold getOrGenerateKeyCertsFromSecret.
  destruct (Get secret_key a2) as [a4 [s4|e]] eqn:Eg; pose proof (Hget _ _ _ Eg _ Hs) as Hs4.
  - apply get_ok in Eg. intros [= <- <- Hc4]. congruence.
  - unfold IsNotFound. case_bool_decide as He; [|done]. subst e. apply get_notfound in Eg. congruence.
Qed.

Lemma register_error ca a a' e : register ca a = (a', Some e) → ∃ what x, e = Api what x.
Proof.
  unfold register. destruct (Get _ a) as [a1 [role|e1]]; [|intros [= <- <-]; eauto].
  destruct (Create _ a1) as [a2 [e2|]]; [|done].
  destruct (negb (IsAlreadyExists e2)); [intros [= <- <-]; eauto|].
  destruct (Get vwc_key a2) as [a3 [conf|e3]]; [|intros [= <- <-]; eauto].
  case_bool_decide; [done|]. destruct (Update _ a3) as [a4 [e4|]]; [intros [= <- <-]; eauto|done].
Qed.

(** A replica that could not configure its certificates registers an empty CA
    bundle over a working one before it fails. *)
Theorem failed_certs_clear_bundle binds close a c a1 c1 e a2 c2 r :
  configureCerts (ClientAuth o) a c = (a1, c1, Err e) →
  Run binds close a c = (a2, c2, r) →
  r ≠ None ∧ (r = Some ServerFailed → registered [] a2).
Proof.
  intros He. unfold Run. rewrite He. destruct (register [] a1) as [a' [e'|]] eqn:Er.
  - intros [= <- <- <-]. split; [done|]. intros [= ->].
    by apply register_error in Er as (? & ? & [=]).
  - intros [= <- <- <-]. split; [done|]. intros _. by eapply register_ok.
Qed.
End controller.

(** ** A cluster with the objects the webhook uses *)
Record HookCluster : Type := mkHook {
  hk_vwcs : gmap NamespacedName ValidatingWebhookConfiguration;
  hk_roles : gmap NamespacedName ClusterRole;
  hk_secrets : gmap NamespacedName Secret;
  hk_deps : gmap NamespacedName Deployment;
  hk_cms : gmap NamespacedName TextConfigMap
}.
#[local] Instance hk_vwc : Client HookCluster ValidatingWebhookConfiguration :=
  part_client hk_vwcs (λ v w, mkHook v (hk_roles w) (hk_secrets w) (hk_deps w) (hk_cms w)).
#[local] Instance hk_role : Client HookCluster ClusterRole :=
  part_client hk_roles (λ v w, mkHook (hk_vwcs w) v (hk_secrets w) (hk_deps w) (hk_cms w)).
#[local] Instance hk_secret : Client HookCluster Secret :=
  part_client hk_secrets (λ v w, mkHook (hk_vwcs w) (hk_roles w) v (hk_deps w) (hk_cms w)).
#[local] Instance hk_dep : Client HookCluster Deployment :=
  part_client hk_deps (λ v w, mkHook (hk_vwcs w) (hk_roles w) (hk_secrets w) v (hk_cms w)).
#[local] Instance hk_cm : Client HookCluster TextConfigMap :=
  part_client hk_cms (λ v w, mkHook (hk_vwcs w) (hk_roles w) (hk_secrets w) (hk_deps w) v).

Definition ex_options : Options :=
  match resolveOptions {[ "NAMESPACE" := "kyno" ]} with
  | Ok o => o
  | Err _ => mkOptions "" "" "" "" "" "" 0 0
  end.
Definition plural_s (s : string) : string := s +:+ "s".
Example start_options :
  Port ex_options = 443 ∧ Namespace ex_options = "kyno" ∧ ServiceName ex_options = "kynomesh-webhook" ∧
  rules plural_s start_handlers =
    [mkRule ["CREATE"; "UPDATE"; "DELETE"] ["kynomesh.kyno.sh"] ["v1alpha1"] ["agentsets"] None].
Proof. by vm_compute. Qed.

Definition ex_pod_template : PodTemplateSpec := 
  mkPodTemplateSpec ∅ ∅ (mkPodSpec [] [] [] "" "" ∅ [] None [] "" None None "" None None "" None [] None).
Definition ex_hook : HookCluster :=
  mkHook ∅
    {[ mkKey "" "kynomesh-webhook" := mkClusterRole (new_meta "" "kynomesh-webhook" ∅ ∅ []) ]} ∅
    {[ mkKey "kyno" "kynomesh-webhook" :=
         mkDeployment (new_meta "kyno" "kynomesh-webhook" ∅ ∅ []) (mkDeploymentSpec None "" ∅ ex_pod_template) ]}
    {[ mkKey "kube-system" "extension-apiserver-authentication" :=
         mkTextConfigMap (new_meta "kube-system" "extension-apiserver-authentication" ∅ ∅ [])
           {[ "requestheader-client-ca-file" := "ca" ]} ]}.

Lemma hk_secret_get k (a a' : HookCluster) (r : result ApiError Secret) : Get k a = (a', r) → a' = a.
Proof. by destruct a as [v ro se d cm]; intros [= <- <-]. Qed.
Lemma hk_secret_laws : ClientLaws HookCluster Secret eq.
Proof. apply part_laws; [done|apply memory_laws]. Qed.
#[local] Instance hk_vwc_laws : ClientLaws HookCluster ValidatingWebhookConfiguration same_webhooks.
Proof.
  apply part_laws; [done|]. eapply ClientLaws_weaken; [|apply memory_laws]. by intros x ? <-.
Qed.

(** In a cluster only this replica writes to, nobody else writes the secret. *)
#[local] Instance hk_others t : OnlyReplicasWrite (A := HookCluster) (C := nat * Time) ex_options t.
Proof.
  split.
  1,3,4: by intros k [] a' r [= <- <-].
  intros s [v ro se d cm] a' r. cbn.
  destruct (well_keyed se !! key_of s) as [s0|] eqn:E; intros [= <- <-] Ht HI; [done|].
  intros s'. unfold secrets_made in HI. cbn in *. intros Hs'.
  apply map_lookup_filter_Some in Hs' as [Hs' Hk].
  apply lookup_insert_Some in Hs' as [[_ <-]|[_ Hs']]; [done|].
  apply HI, map_lookup_filter_Some. done.
Qed.

Lemma webhook_is_trusted_witness :
  ∃ (a2 : HookCluster) (conf : ValidatingWebhookConfiguration) v cert,
    objs a2 !! vwc_key ex_options = Some conf ∧ map set_fields (Webhooks conf) = [v] ∧
    verifies (W := nat * Time) cert (vw_CABundle v) "kynomesh-webhook.kyno.svc" (50 * second).
Proof.
  assert (match configureCerts (C := nat * Time) ex_options (ClientAuth ex_options) ex_hook (7%nat, 5 * second) with
          | (a1, c1, Ok (_, ca)) =>
              match register plural_s start_handlers ex_options ca a1 with
              | (_, None) => (clock c1 <=? 50 * second)%Z
              | _ => false
              end
          | _ => false
          end = true) as Hok by (vm_compute; reflexivity).
  destruct (configureCerts _ _ _ _) as [[a1 c1] [[cfg ca]|e]] eqn:E1; [|discriminate Hok].
  destruct (register _ _ _ ca a1) as [a2 [e|]] eqn:E2; [discriminate Hok|].
  destruct (webhook_is_trusted (A := HookCluster) (C := nat * Time) plural_s start_handlers ex_options (50 * second) eq
              (ClientLaws1 := hk_secret_laws) ex_hook (7%nat, 5 * second) a1 c1 cfg ca a2)
    as (conf & v & tc & key & cert & H1 & H2 & H3 & _ & _ & H4); [by intros s|exact E1|exact E2| |].
  { split; [by apply Z.leb_le|by vm_compute]. }
  exists a2, conf, v, cert. split; [exact H1|]. split; [exact H2|]. rewrite H3 in H4. exact H4.
Defined.

Lemma replicas_share_certificates_witness :
  ∃ a1 c1 a3 c3 r,
    getOrGenerateKeyCertsFromSecret (A := HookCluster) (C := nat * Time) ex_options ex_hook (7%nat, 5 * second)
      = (a1, c1, Ok r) ∧
    getOrGenerateKeyCertsFromSecret (A := HookCluster) (C := nat * Time) ex_options a1 (90%nat, 9 * second)
      = (a3, c3, Ok r).
Proof.
  assert (match getOrGenerateKeyCertsFromSecret (A := HookCluster) (C := nat * Time) ex_options ex_hook (7%nat, 5 * second) with
          | (a1, _, Ok _) =>
              is_Ok (getOrGenerateKeyCertsFromSecret (A := HookCluster) (C := nat * Time) ex_options a1 (90%nat, 9 * second)).2
          | _ => false
          end = true) as Hok by (vm_compute; reflexivity).
  destruct (getOrGenerateKeyCertsFromSecret _ ex_hook _) as [[a1 c1] [r1|e]] eqn:E1; [|discriminate Hok].
  destruct (getOrGenerateKeyCertsFromSecret _ a1 (90%nat, _)) as [[a3 c3] [r2|e]] eqn:E2; [|discriminate Hok].
  exists a1, c1, a3, c3, r1. split; [exact eq_refl|].
  rewrite <- (replicas_share_certificates (A := HookCluster) (C := nat * Time) ex_options eq
                (ClientLaws1 := hk_secret_laws) ex_hook (7%nat, 5 * second) a1 c1 r1 a1 (90%nat, 9 * second) a3 c3 r2 E1);
    [exact E2|by intros s| |exact E2].
  intros x x' r Hg s Hs. rewrite (hk_secret_get _ _ _ _ Hg). exact Hs.
Defined.

Definition ex_request : AdmissionRequest :=
  mkRequest "u1" AgentSetGroupVersionKind OpCreate [Byte.x7b] [].
Lemma admission_iff_well_formed_witness :
  ∃ r, ServeHTTP dns1035 any_url (λ _, Ok (ex_agentset ["x"; "worker"])) (λ _, "") (λ _, Ok (Some ex_request))
         "application/json" [] = Review "AdmissionReview" "admission.k8s.io/v1" r ∧
       ar_UID r = "u1" ∧ ar_Allowed r = true.
Proof.
  destruct (admission_iff_well_formed dns1035 any_url (λ _, Ok (ex_agentset ["x"; "worker"])) (λ _, "")
              (λ _, Ok (Some ex_request)) "application/json" [] ex_request (ex_agentset ["x"; "worker"]))
    as (r & H1 & H2 & H3 & _); [reflexivity|reflexivity|by left|reflexivity|discriminate|reflexivity|by left|].
  exists r. split; [exact H1|]. split; [exact H2|]. apply H3, validate_well_formed. vm_compute. reflexivity.
Defined.
End Webhook.
