(* ===== verification/InitRuntime.v ===== *)
(** * Init container and probe ([cmd/commands/init_runtime.go], [probe/probe.go],
    [probe/main.go])

    The init container writes the agent's topology and the probe binary into
    the directory it shares with the agent.  The file system is a map from
    paths to files; every system call may fail, and the states it passes
    through are kept, so that what a concurrent reader (or a crash) can see
    is every state of the list. *)
From S2P Require Import Prelude GoStrings K8s Types Encoding Topology PodSpecs Services AgentDeploys.
#[local] Open Scope Z_scope.
#[local] Open Scope string_scope.
#[local] Open Scope list_scope.

Module InitRuntime.
Import GoStrings Topo PodSpecs Services AgentDeploys.
#[local] Unset Default Proof Using.

(** ** The file system *)
Record File : Set := mkFile { f_data : list byte; f_mode : Z }.
Abbreviation FS := (gmap string File).

(** The outcome of the calls of one installation: [None] and [false] are
    failures; a failing write may have written a prefix. *)
Record Calls : Set := mkCalls {
  k_mkdir : bool;
  k_create : option string;
  k_write : option nat;
  k_chmod : bool;
  k_close : bool;
  k_rename : bool;
  k_remove : bool
}.

Inductive installErr : Set :=
  | DecodeFailed | MarshalFailed | OpenFailed
  | MkdirFailed | CreateTempFailed | WriteFailed | ChmodFailed | CloseFailed | RenameFailed.

(** [os.CreateTemp(dir, base+".*.tmp")]: a new file next to [path]. *)
Definition tempName (path random : string) : string := path +:+ "." +:+ random +:+ ".tmp".

(** [os.Remove(tmpName)], its error ignored. *)
Definition remove (k : Calls) (tmp : string) (fs : FS) : FS :=
  if k_remove k then delete tmp fs else fs.

(** The common tail of the two installers: create a temporary file, fill it,
    set its mode, close it and rename it over [path]; on an error the
    temporary file is removed.  The list holds the states after each call. *)
Definition replaceFile (k : Calls) (path : string) (payload : list byte) (mode : Z) (fs : FS)
    : list FS * result installErr unit :=
  if negb (k_mkdir k) then ([fs], Err MkdirFailed)
  else match k_create k with
  | None => ([fs], Err CreateTempFailed)
  | Some random =>
      let tmp := tempName path random in
      let fs1 := <[tmp := mkFile [] 384]> fs in
      match k_write k with
      | Some n =>
          let fs2 := <[tmp := mkFile (take n payload) 384]> fs in
          ([fs; fs1; fs2; remove k tmp fs2], Err WriteFailed)
      | None =>
          let fs2 := <[tmp := mkFile payload 384]> fs in
          if negb (k_chmod k) then ([fs; fs1; fs2; remove k tmp fs2], Err ChmodFailed)
          else
            let fs3 := <[tmp := mkFile payload mode]> fs in
            if negb (k_close k) then ([fs; fs1; fs2; fs3; remove k tmp fs3], Err CloseFailed)
            else if negb (k_rename k) then ([fs; fs1; fs2; fs3; remove k tmp fs3], Err RenameFailed)
            else ([fs; fs1; fs2; fs3; <[path := mkFile payload mode]> (delete tmp fs3)], Ok tt)
      end
  end.
(** The state an installation leaves. *)
Definition after (fs : FS) (states : list FS) : FS := default fs (last states).

(** ** Atomic installation *)

(** [CreateTemp] never returns an existing file. *)
Definition fresh_temp (k : Calls) (path : string) (fs : FS) : Prop :=
  ∀ r, k_create k = Some r → fs !! tempName path r = None.

Lemma temp_length path r : String.length (tempName path r) = (String.length path + String.length r + 5)%nat.
Proof.
  assert (∀ a b, String.length (a +:+ b) = (String.length a + String.length b)%nat) as Hl.
  { intros a b. induction a as [|c a IH]; [done|].
    change (String.length (String c a +:+ b)) with (S (String.length (a +:+ b))). rewrite IH. done. }
  unfold tempName. rewrite !Hl. cbn. lia.
Qed.
Lemma temp_ne path r : tempName path r ≠ path.
Proof. intros E%(f_equal String.length). rewrite temp_length in E. lia. Qed.

(** What an installation of [f] at [path] shows and leaves. *)
Definition atomic (path : string) (f : File) (k : Calls) (fs : FS) (states : list FS)
    (r : result installErr unit) : Prop :=
  states ≠ [] ∧
  (∀ x, x ∈ states → x !! path = fs !! path ∨ x !! path = Some f) ∧
  match r with
  | Ok _ => after fs states = <[path := f]> fs
  | Err _ => after fs states !! path = fs !! path ∧ (k_remove k = true → after fs states = fs)
  end.

Lemma remove_temp k path r f fs :
  fs !! tempName path r = None →
  let fs' := remove k (tempName path r) (<[tempName path r := f]> fs) in
  fs' !! path = fs !! path ∧ (k_remove k = true → fs' = fs).
Proof.
  intros Hf. cbn. unfold remove. pose proof (temp_ne path r). destruct (k_remove k).
  - rewrite delete_insert_eq, delete_id by done. done.
  - by rewrite lookup_insert_ne.
Qed.

Lemma replaceFile_atomic k path payload mode fs states r :
  fresh_temp k path fs → replaceFile k path payload mode fs = (states, r) →
  atomic path (mkFile payload mode) k fs states r.
Proof.
  intros Hf. unfold replaceFile, atomic.
  destruct (k_mkdir k); cbn [negb]; [|intros [= <- <-]; set_solver].
  destruct (k_create k) as [rd|] eqn:Ec; [|intros [= <- <-]; set_solver].
  specialize (Hf _ Ec). pose proof (temp_ne path rd) as Hne. set (tmp := tempName path rd) in *.
  assert (∀ f, <[tmp := f]> fs !! path = fs !! path) as Hi by (intros; by apply lookup_insert_ne).
  destruct (k_write k) as [n|].
  { intros [= <- <-]. destruct (remove_temp k path rd (mkFile (take n payload) 384) fs Hf) as [H1 H2].
    split_and!; [done| |done..]. set_solver. }
  destruct (k_chmod k); cbn [negb].
  2:{ intros [= <- <-]. destruct (remove_temp k path rd (mkFile payload 384) fs Hf) as [H1 H2].
      split_and!; [done| |done..]. set_solver. }
  destruct (remove_temp k path rd (mkFile payload mode) fs Hf) as [H1 H2].
  destruct (k_close k); cbn [negb].
  2:{ intros [= <- <-]. split_and!; [done| |done..]. set_solver. }
  destruct (k_rename k); cbn [negb].
  2:{ intros [= <- <-]. split_and!; [done| |done..]. set_solver. }
  intros [= <- <-]. cbn. rewrite delete_insert_eq, delete_id by done.
  split_and!; [done| |done]. intros x Hx. rewrite !elem_of_cons in Hx.
  destruct Hx as [->|[->|[->|[->|[->|Hx]]]]]; auto; [by right; apply lookup_insert_eq|set_solver].
Qed.

(** ** The topology *)
Definition managedPeerURL (setName peerName namespace : string) : string :=
  let host := setName +:+ "-" +:+ peerName +:+ "." +:+ namespace +:+ ".svc" in
  "https://" +:+ host +:+ ":" +:+ Itoa AgentBrokerPort.

Definition resolvePeerURLs (ad : AgentDeploy) : Topology :=
  let t := spec_Topology (ad_Spec ad) in
  mkTopology (tp_Pattern t) (tp_IsEntry t)
    (map (λ p, match peer_Kind p with
               | PeerKindExternal => p
               | PeerKindManaged =>
                   mkPeer (peer_Name p) (peer_Kind p)
                     (managedPeerURL (spec_AgentSetName (ad_Spec ad)) (peer_Name p) (ad_Namespace ad))
               end) (tp_Peers t)).

Definition TopologyFilePath := KynomeshRunPath +:+ "/topology.json".
Definition ProbeBinaryImagePath := "/bin/kynoprobe".

Section init.
Context (json_Unmarshal : list byte → result string AgentDeploy).
Context (marshal_topology : Topology → option (list byte)).

(** 0o644 and 0o755 *)
Definition mode644 : Z := 420.
Definition mode755 : Z := 493.

Definition writeTopology (k : Calls) (path encodedAgentDeploy : string) (fs : FS)
    : list FS * result installErr unit :=
  match Encoding.DecodeAgentDeploy json_Unmarshal encodedAgentDeploy with
  | Err _ => ([fs], Err DecodeFailed)
  | Ok ad =>
      match marshal_topology (resolvePeerURLs ad) with
      | None => ([fs], Err MarshalFailed)
      | Some payload => replaceFile k path payload mode644 fs
      end
  end.

(** The probe binary is read from the image, which is not the shared
    directory. *)
Definition installProbeBinary (k : Calls) (image : FS) (src dst : string) (fs : FS)
    : list FS * result installErr unit :=
  match image !! src with
  | None => ([fs], Err OpenFailed)
  | Some f => replaceFile k dst (f_data f) mode755 fs
  end.

(** [init-runtime]: the topology, then the probe binary. *)
Definition initRuntime (k1 k2 : Calls) (topologyPath probeSrc probeDst encoded : string)
    (image fs : FS) : list FS * result installErr unit :=
  let '(s1, r) := writeTopology k1 topologyPath encoded fs in
  match r with
  | Err e => (s1, Err e)
  | Ok _ =>
      let '(s2, r2) := installProbeBinary k2 image probeSrc probeDst (after fs s1) in
      (s1 ++ s2, r2)
  end.

(** The init container never exposes a half-written file.  At every
    point of an installation, whatever calls fail and however much of the
    data was written, the topology file is the old one or the complete new
    one (and so is the probe binary); a successful installation changes
    nothing else and leaves no temporary file, and a failed one leaves the
    file as it was and, if its clean-up works, the directory too. *)
Theorem init_files_are_atomic k path encoded fs :
  fresh_temp k path fs →
  (∀ states r, writeTopology k path encoded fs = (states, r) →
     ∃ payload, atomic path (mkFile payload mode644) k fs states r ∧
       (r = Ok tt → ∃ ad, Encoding.DecodeAgentDeploy json_Unmarshal encoded = Ok ad ∧
                          marshal_topology (resolvePeerURLs ad) = Some payload)) ∧
  (∀ image src states r, installProbeBinary k image src path fs = (states, r) →
     ∃ payload, atomic path (mkFile payload mode755) k fs states r ∧
       (r = Ok tt → ∃ f, image !! src = Some f ∧ payload = f_data f)).
Proof.
  intros Hf. split.
  - intros states r. unfold writeTopology.
    destruct (Encoding.DecodeAgentDeploy _ _) as [ad|e] eqn:Ed.
    2:{ intros [= <- <-]. exists []. split; [|done]. unfold atomic. set_solver. }
    destruct (marshal_topology _) as [payload|] eqn:Em.
    2:{ intros [= <- <-]. exists []. split; [|done]. unfold atomic. set_solver. }
    intros Hr. exists payload. split; [by eapply replaceFile_atomic|eauto].
  - intros image src states r. unfold installProbeBinary.
    destruct (image !! src) as [f|] eqn:Ef.
    2:{ intros [= <- <-]. exists []. split; [|done]. unfold atomic. set_solver. }
    intros Hr. exists (f_data f). split; [by eapply replaceFile_atomic|eauto].
Qed.
End init.

(** ** The peers a topology names are reachable *)

(** The peers [ComputeTopology] gives an agent are agents of the set, and
    the managed ones are named after an agent. *)
Lemma topology_peers_known s self t p :
  ComputeTopology (Some s) self = Some t → p ∈ tp_Peers t → peer_Kind p = PeerKindManaged →
  peer_Name p ∈ map ag_Name (as_Agents (as_Spec s)).
Proof.
  assert (∀ peers, peersExcluding (as_Agents (as_Spec s)) (as_ExternalAgents (as_Spec s)) self = Some peers →
            p ∈ peers → peer_Kind p = PeerKindManaged → peer_Name p ∈ map ag_Name (as_Agents (as_Spec s))) as Hall.
  { intros peers. unfold peersExcluding. case_match; [done|]. intros [= <-].
    rewrite elem_of_app, managed_peers_elem, external_peer_elem.
    intros [(_ & _ & _ & ?)|[E _]] Hk; [done|congruence]. }
  assert (∀ agents, nextAgent agents (as_ExternalAgents (as_Spec s)) self = Some p →
            peer_Kind p = PeerKindManaged → peer_Name p ∈ map ag_Name agents) as Hnext.
  { induction agents as [|a agents IH]; cbn; [done|]. destruct (String.eqb _ _); cbn.
    - destruct agents as [|b agents].
      + destruct (as_ExternalAgents _); [done|]. by intros [= <-].
      + intros [= <-] _. cbn. set_solver.
    - intros. right. by apply IH. }
  unfold ComputeTopology. intros Ht Hp Hk.
  destruct (String.eqb _ AgentPatternHandoff).
  { destruct (peersExcluding _ _ _) as [peers|] eqn:E; cbn in Ht; simplify_eq. by eapply Hall. }
  destruct (String.eqb _ AgentPatternSupervisor).
  { destruct (String.eqb self _); [|simplify_eq; cbn in Hp; set_solver].
    destruct (peersExcluding _ _ _) as [peers|] eqn:E; cbn in Ht; simplify_eq. by eapply Hall. }
  destruct (String.eqb _ AgentPatternSequential); simplify_eq; cbn in Hp; [|set_solver].
  destruct (nextAgent _ _ _) as [q|] eqn:E; cbn in Hp; [|set_solver].
  apply list_elem_of_singleton in Hp as <-. by eapply Hnext.
Qed.

(** The authority of a URL of [managedPeerURL]. *)
Definition service_url (svc : Service) (port : Z) : string :=
  "https://" +:+ om_Name (svc_meta svc) +:+ "." +:+ om_Namespace (svc_meta svc) +:+ ".svc:" +:+ Itoa port.

Section peers.
Context (SetControllerReference : option (AgentSet → ObjectMeta → result string (list OwnerReference))).
Context (MustHashSpec : AgentDeploySpec → string).
Context (json : AgentDeploy → string) (json_Unmarshal : list byte → result string AgentDeploy).
Context (marshal_topology : Topology → option (list byte)).
Abbreviation child := (newAgentDeploy SetControllerReference MustHashSpec).

Lemma newAgentDeploy_fields s a ad :
  child s a = Some (Ok ad) →
  ad_Namespace ad = as_Namespace s ∧ ad_Name ad = ChildAgentDeployName s (ag_Name a) ∧
  spec_AgentSetName (ad_Spec ad) = as_Name s ∧
  ComputeTopology (Some s) (ag_Name a) = Some (spec_Topology (ad_Spec ad)).
Proof.
  unfold newAgentDeploy. destruct (ComputeTopology _ _) as [t|]; [|done]. cbn.
  destruct (owner_refs _ _ _) as [refs|]; [|done]. by intros [= <-].
Qed.

(** C13: the topology file an agent reads leads to its peers.  The init
    container of the pods of a child AgentDeploy, given the object the pod
    spec injects, writes a topology with the peers of the AgentSet's pattern
    in which every managed peer is an agent of the set whose URL addresses
    the broker port of the ClusterIP service of that agent's own AgentDeploy,
    and every external peer keeps its URL. *)
Theorem topology_file_reaches_peers s a ad k path fs states r :
  child s a = Some (Ok ad) →
  json (SimpleCopy ad) ≠ "" →
  json_Unmarshal (String.list_byte_of_string (json (SimpleCopy ad))) = Ok (SimpleCopy ad) →
  fresh_temp k path fs →
  writeTopology json_Unmarshal marshal_topology k path
    (Encoding.EncodeToString (String.list_byte_of_string (json (SimpleCopy ad)))) fs = (states, r) →
  r = Ok tt →
  ∃ t t' payload, ComputeTopology (Some s) (ag_Name a) = Some t ∧
    marshal_topology t' = Some payload ∧ after fs states !! path = Some (mkFile payload mode644) ∧
    tp_Pattern t' = tp_Pattern t ∧ tp_IsEntry t' = tp_IsEntry t ∧
    Forall2 (λ p p', peer_Name p' = peer_Name p ∧ peer_Kind p' = peer_Kind p ∧
      match peer_Kind p with
      | PeerKindExternal => peer_URL p' = peer_URL p
      | PeerKindManaged => ∃ b, b ∈ as_Agents (as_Spec s) ∧ ag_Name b = peer_Name p ∧
          ∀ peer, child s b = Some (Ok peer) →
            ∃ port, port ∈ map sp_Port (svc_Ports (svc_Spec (newClusterIPService peer))) ∧
                    peer_URL p' = service_url (newClusterIPService peer) port
      end) (tp_Peers t) (tp_Peers t').
Proof.
  intros Hc Hj Hu Hf Hw ->. apply newAgentDeploy_fields in Hc as (Hns & _ & Hset & Ht).
  unfold writeTopology, Encoding.DecodeAgentDeploy, Encoding.DecodeObject in Hw.
  rewrite Encoding.EncodeToString_nonempty, Encoding.decode_encode_bytes, Hu in Hw by (by destruct (json _)).
  destruct (marshal_topology _) as [payload|] eqn:Em; [|done].
  pose proof (replaceFile_atomic _ _ _ _ _ _ _ Hf Hw) as (_ & _ & Ha).
  exists (spec_Topology (ad_Spec ad)), (resolvePeerURLs (SimpleCopy ad)), payload.
  split_and!; [done|done|by rewrite Ha, lookup_insert_eq|done|done|].
  cbn [resolvePeerURLs tp_Peers]. change (ad_Namespace (SimpleCopy ad)) with (ad_Namespace ad).
  cbn [SimpleCopy ad_Spec spec_Topology spec_AgentSetName]. rewrite Hns, Hset.
  apply Forall2_fmap_r, Forall_Forall2_diag, Forall_forall. intros p Hp. cbn.
  destruct (peer_Kind p) eqn:Ek; cbn; rewrite ?Ek; [|done]. split_and!; [done|done|].
  pose proof (topology_peers_known _ _ _ _ Ht Hp Ek) as Hin.
  apply list_elem_of_fmap in Hin as (b & Hb & Hin). exists b. split_and!; [done|done|].
  intros peer (Hpn & Hpname & _ & _)%newAgentDeploy_fields. exists AgentBrokerPort. split; [set_solver|].
  unfold service_url, managedPeerURL. cbn. unfold ServiceName. rewrite Hpn, Hpname, <- Hb.
  unfold ChildAgentDeployName. by rewrite !string_app_assoc.
Qed.
End peers.

(** ** The probe binary *)
Record probeConfig : Set := mkProbeConfig {
  pb_Mode : string;
  pb_Socket : string;
  pb_Service : string;
  pb_HTTPPath : string;
  pb_Timeout : Duration
}.
Definition ModeGRPC := "grpc".
Definition ModeHTTP := "http".

Inductive ServingStatus : Set := UNKNOWN | SERVING | NOT_SERVING | SERVICE_UNKNOWN.
Inductive probeErr : Set :=
  | SocketRequired | UnknownMode (m : string) | CallFailed (e : string)
  | NotServing (s : ServingStatus) | BadStatus (code : Z).

Section probe.
(** [grpc.NewClient] with the health call over it, and the HTTP client's
    [GET] over a unix socket: the answers the environment gives. *)
Context (health_Check : string → string → result string ServingStatus).
Context (http_Get : string → string → result string Z).

Definition probeGRPC (socket service : string) : result probeErr unit :=
  match health_Check ("unix://" +:+ socket) service with
  | Err e => Err (CallFailed e)
  | Ok SERVING => Ok tt
  | Ok s => Err (NotServing s)
  end.
Definition probeHTTP (socket path : string) : result probeErr unit :=
  match http_Get socket ("http://kynomesh-agent" +:+ path) with
  | Err e => Err (CallFailed e)
  | Ok code => if (code <? 200)%Z || (300 <=? code)%Z then Err (BadStatus code) else Ok tt
  end.
Definition Run (cfg : probeConfig) : result probeErr unit :=
  if String.eqb (pb_Socket cfg) "" then Err SocketRequired
  else if String.eqb (pb_Mode cfg) ModeGRPC then probeGRPC (pb_Socket cfg) (pb_Service cfg)
  else if String.eqb (pb_Mode cfg) ModeHTTP then probeHTTP (pb_Socket cfg) (pb_HTTPPath cfg)
  else Err (UnknownMode (pb_Mode cfg)).

(** [flag.Parse] of string flags and one duration: an argument [-f=v],
    [--f=v], or [-f v]; the first argument that is not a flag and [--] end
    the flags; an unknown flag, a missing value or a bad duration is an
    error (exit code 2). *)
Definition set_flag (ParseDuration : string → option Duration) (name v : string) (c : probeConfig)
    : option probeConfig :=
  let '(mkProbeConfig m s sv p t) := c in
  if String.eqb name "mode" then Some (mkProbeConfig v s sv p t)
  else if String.eqb name "socket" then Some (mkProbeConfig m v sv p t)
  else if String.eqb name "service" then Some (mkProbeConfig m s v p t)
  else if String.eqb name "path" then Some (mkProbeConfig m s sv v t)
  else if String.eqb name "timeout" then
    match ParseDuration v with Some d => Some (mkProbeConfig m s sv p d) | None => None end
  else None.

Definition flag_name (arg : string) : option string :=
  match arg with
  | String "-" (String "-" (String c r)) => Some (String c r)
  | String "-" (String c r) => if Ascii.eqb c "-" then None else Some (String c r)
  | _ => None
  end.
Fixpoint parse_flags (ParseDuration : string → option Duration) (args : list string) (c : probeConfig)
    : option probeConfig :=
  match args with
  | [] => Some c
  | a :: rest =>
      match flag_name a with
      | None => Some c
      | Some f =>
          match cut_first "=" f with
          | Some (name, v) =>
              if HasPrefix f "-" || HasPrefix f "=" then None
              else match set_flag ParseDuration name v c with
                   | Some c' => parse_flags ParseDuration rest c'
                   | None => None
                   end
          | None =>
              if HasPrefix f "-" then None
              else match rest with
                   | [] => None
                   | v :: rest' =>
                       match set_flag ParseDuration f v c with
                       | Some c' => parse_flags ParseDuration rest' c'
                       | None => None
                       end
                   end
          end
      end
  end.

(** [main]: the exit code. *)
Definition main (ParseDuration : string → option Duration) (args : list string) : Z :=
  match parse_flags ParseDuration args (mkProbeConfig "grpc" "" "" "/healthz" (2 * second)) with
  | None => 2
  | Some cfg => match Run cfg with Ok _ => 0 | Err _ => 1 end
  end.

(** The probes of an agent container test the agent's health.  The
    command of the rendered readiness, liveness and startup probes runs the
    binary the init container installs, and that binary exits with 0 exactly
    when the overall health of the server on the agent's socket is SERVING. *)
Theorem agent_probe_checks_health ParseDuration cmd args :
  agentProbeExec = cmd :: args →
  cmd = ProbeBinaryPath ∧
  (main ParseDuration args = 0 ↔ health_Check ("unix://" +:+ BrokerGRPCSocketPath) "" = Ok SERVING).
Proof.
  intros [= <- <-]. split; [done|]. unfold main.
  assert (parse_flags ParseDuration ["--mode=grpc"; "--socket=" +:+ BrokerGRPCSocketPath]
            (mkProbeConfig "grpc" "" "" "/healthz" (2 * second)) =
          Some (mkProbeConfig "grpc" BrokerGRPCSocketPath "" "/healthz" (2 * second))) as -> by done.
  cbn [Run pb_Socket pb_Mode pb_Service].
  change (Run _) with (probeGRPC BrokerGRPCSocketPath ""). unfold probeGRPC.
  destruct (health_Check _ _) as [[]|e]; naive_solver.
Qed.
End probe.

(** ** Examples *)
Definition calls_ok : Calls := mkCalls true (Some "1") None true true true true.
Definition ex_image : FS := {["s" := mkFile [Byte.x01; Byte.x02; Byte.x03] 0]}.
Definition ex_dir : FS := {["p" := mkFile [Byte.x07] 0]}.
Definition calls_short : Calls := mkCalls true (Some "1") (Some 2%nat) true true true true.
Lemma init_files_are_atomic_witness :
  (installProbeBinary calls_short ex_image "s" "p" ex_dir).2 = Err WriteFailed ∧
  ∀ x, x ∈ (installProbeBinary calls_short ex_image "s" "p" ex_dir).1 →
    x !! "p" = Some (mkFile [Byte.x07] 0) ∨ ∃ d, x !! "p" = Some (mkFile d mode755).
Proof.
  split; [reflexivity|].
  destruct (init_files_are_atomic (λ _, Err "") (λ _, None) calls_short "p" "" ex_dir) as [_ Hp].
  { intros r [= <-]. vm_compute. reflexivity. }
  destruct (Hp ex_image "s" _ _ (surjective_pairing _)) as (d & (_ & H & _) & _).
  intros x Hx. destruct (H x Hx) as [E|E]; [left|right; exists d]; exact E.
Defined.

Definition ex_peer_set : AgentSet :=
  mkAgentSet (new_meta "ns" "set" ∅ ∅ [])
    (mkAgentSetSpec AgentPatternHandoff "a" (map named_agent ["a"; "b"]) None [] None) zero_set_status.
Definition ex_peer_child : AgentDeploy :=
  match newAgentDeploy None (λ _, "h") ex_peer_set (named_agent "a") with
  | Some (Ok ad) => ad
  | _ => mkAgentDeploy (new_meta "" "" ∅ ∅ []) (mkAgentDeploySpec (named_agent "") "" None zero_topology) zero_status
  end.
Definition url_bytes (t : Topology) : option (list byte) :=
  Some (String.list_byte_of_string (Join (map peer_URL (tp_Peers t)) ",")).

Definition ex_written : list FS * result installErr unit :=
  writeTopology (λ _, Ok (SimpleCopy ex_peer_child)) url_bytes calls_ok TopologyFilePath
    (Encoding.EncodeToString (String.list_byte_of_string "{}")) ∅.
Lemma topology_file_reaches_peers_witness :
  ∃ payload, after ∅ ex_written.1 !! TopologyFilePath = Some (mkFile payload mode644) ∧
    String.string_of_list_byte payload = "https://set-b.ns.svc:8490".
Proof.
  destruct (topology_file_reaches_peers None (λ _, "h") (λ _, "{}") (λ _, Ok (SimpleCopy ex_peer_child)) url_bytes
              ex_peer_set (named_agent "a") ex_peer_child calls_ok TopologyFilePath ∅ ex_written.1 ex_written.2)
    as (t & t' & payload & _ & _ & Hp & _);
    [vm_compute; reflexivity|discriminate|reflexivity|by intros r [= <-]|exact (surjective_pairing _)|reflexivity|].
  exists payload. split; [exact Hp|].
  vm_compute in Hp. injection Hp as <-. vm_compute. reflexivity.
Defined.

Lemma agent_probe_checks_health_witness :
  main (λ _ _, Ok SERVING) (λ _ _, Ok 500) (λ _, None) ["--mode=grpc"; "--socket=" +:+ BrokerGRPCSocketPath] = 0.
Proof.
  apply (proj2 (agent_probe_checks_health (λ _ _, Ok SERVING) (λ _ _, Ok 500) (λ _, None) ProbeBinaryPath
                  ["--mode=grpc"; "--socket=" +:+ BrokerGRPCSocketPath] eq_refl)).
  reflexivity.
Defined.
End InitRuntime.
