(* ===== verification/Commands.v ===== *)
(** * The command line ([cmd/commands], [pkg/version], [pkg/shared/logging])

    One binary holds every process of the system; the first argument selects
    the subcommand.  Flags default to environment variables, which are read
    while the command tree is built, before any argument is looked at.  Cobra
    is outside the repository: a command is found by its exact name, and the
    flags a user passes arrive parsed.  [None] and [Panicked] are panics. *)
From S2P Require Import Prelude GoStrings K8s Types Volumes Topology Template PodSpecs Services AgentSets Broker Daemon InitRuntime.
#[local] Open Scope Z_scope.

Module Commands.
Import Template PodSpecs.

Abbreviation Env := (gmap string string).

(** What a subcommand calls. *)
Inductive Action : Set :=
  | StartController (namespaced : bool) (managedNamespace : string)
  | StartBroker (port introspectionPort : Z)
  | RunDrain (introspectionPort : Z)
  | StartDaemon (apiPort metricsPort : Z)
  | InitRuntime (topologyPath probeSrc probeDst : string)
  | StartWebhook.

(** The flags given on the command line. *)
Record Flags : Type := mkFlags {
  f_int : string → option Z;
  f_bool : string → option bool;
  f_string : string → option string
}.
Definition no_flags : Flags := mkFlags (λ _, None) (λ _, None) (λ _, None).
Definition IntVar (fl : Flags) (name : string) (def : Z) : Z := default def (f_int fl name).
Definition BoolVar (fl : Flags) (name : string) (def : bool) : bool := default def (f_bool fl name).
Definition StringVar (fl : Flags) (name def : string) : string := default def (f_string fl name).

Record Command : Type := mkCommand { c_Use : string; c_Run : Flags → Action }.

Definition NewControllerCommand (env : Env) : option Command :=
  namespaced ← Volumes.LookupEnvBoolOr env "KYNOMESH_CONTROLLER_NAMESPACED" false;
  let managedNamespace :=
    Volumes.LookupEnvStringOr env "KYNOMESH_CONTROLLER_MANAGED_NAMESPACE"
      (Volumes.LookupEnvStringOr env "NAMESPACE" "kynomesh-system") in
  Some (mkCommand "controller" (λ fl,
    StartController (BoolVar fl "namespaced" namespaced) (StringVar fl "managed-namespace" managedNamespace))).

Definition NewBrokerCommand (env : Env) : option Command :=
  port ← Volumes.LookupEnvIntOr env "KYNOMESH_BROKER_PORT" AgentBrokerPort;
  introspectionPort ← Volumes.LookupEnvIntOr env "KYNOMESH_BROKER_INTROSPECTION_PORT" AgentBrokerIntrospectionPort;
  Some (mkCommand "broker" (λ fl,
    StartBroker (IntVar fl "port" port) (IntVar fl "introspection-port" introspectionPort))).

Definition NewDrainCommand (env : Env) : option Command :=
  introspectionPort ← Volumes.LookupEnvIntOr env "KYNOMESH_BROKER_INTROSPECTION_PORT" AgentBrokerIntrospectionPort;
  Some (mkCommand "drain" (λ fl, RunDrain (IntVar fl "introspection-port" introspectionPort))).

Definition NewDaemonCommand (env : Env) : option Command :=
  apiPort ← Volumes.LookupEnvIntOr env "KYNOMESH_DAEMON_API_PORT" DaemonAPIPort;
  metricsPort ← Volumes.LookupEnvIntOr env "KYNOMESH_DAEMON_METRICS_PORT" DaemonMetricsPort;
  Some (mkCommand "daemon" (λ fl,
    StartDaemon (IntVar fl "api-port" apiPort) (IntVar fl "metrics-port" metricsPort))).

Definition NewInitRuntimeCommand : Command :=
  mkCommand "init-runtime" (λ fl,
    InitRuntime (StringVar fl "topology-path" InitRuntime.TopologyFilePath)
      (StringVar fl "probe-src" InitRuntime.ProbeBinaryImagePath)
      (StringVar fl "probe-dst" ProbeBinaryPath)).

Definition NewWebhookCommand : Command := mkCommand "webhook" (λ _, StartWebhook).

(** [init]: the subcommands in the order they are added. *)
Definition rootCmd (env : Env) : option (list Command) :=
  controller ← NewControllerCommand env;
  broker ← NewBrokerCommand env;
  drain ← NewDrainCommand env;
  daemon ← NewDaemonCommand env;
  Some [controller; broker; drain; daemon; NewInitRuntimeCommand; NewWebhookCommand].

(** How a process goes on: no argument prints the help; a name that is none of
    ours is left to cobra (its own [help] and [completion], or an error, on
    which [Execute] panics). *)
Inductive Outcome : Set := Panicked | Help | Cobra (arg : string) | Ran (a : Action).

Definition Execute (env : Env) (fl : Flags) (args : list string) : Outcome :=
  match rootCmd env with
  | None => Panicked
  | Some cmds =>
      match args with
      | [] => Help
      | name :: _ =>
          match find (λ c, String.eqb (c_Use c) name) cmds with
          | Some c => Ran (c_Run c fl)
          | None => Cobra name
          end
      end
  end.

(** The variables that are parsed while the tree is built. *)
Definition int_variables : list string :=
  ["KYNOMESH_BROKER_PORT"; "KYNOMESH_BROKER_INTROSPECTION_PORT";
   "KYNOMESH_DAEMON_API_PORT"; "KYNOMESH_DAEMON_METRICS_PORT"].

(** A variable that is unset, empty or can be parsed. *)
Definition int_readable (env : Env) (k : string) : Prop :=
  match env !! k with None => True | Some v => v = "" ∨ is_Some (Atoi v) end.
Definition bool_readable (env : Env) (k : string) : Prop :=
  match env !! k with None => True | Some v => v = "" ∨ is_Some (Volumes.ParseBool v) end.
Definition readable (env : Env) : Prop :=
  Forall (int_readable env) int_variables ∧ bool_readable env "KYNOMESH_CONTROLLER_NAMESPACED".
Definition unset (env : Env) (k : string) : Prop := env !! k = None ∨ env !! k = Some "".

(** ** Version ([GetVersion]) *)
Record Build : Set := mkBuild {
  b_version : string; b_buildDate : string; b_gitCommit : string; b_gitTag : string; b_gitTreeState : string
}.

Definition GetVersion (b : Build) : string :=
  if negb (String.eqb (b_gitCommit b) "") && negb (String.eqb (b_gitTag b) "")
     && String.eqb (b_gitTreeState b) "clean" then b_gitTag b
  else if (7 <=? Z.of_nat (String.length (b_gitCommit b)))%Z then
    b_version b +:+ "+" +:+ String.substring 0 7 (b_gitCommit b)
      +:+ (if String.eqb (b_gitTreeState b) "clean" then "" else ".dirty")
  else b_version b +:+ "+unknown".

(** ** Logger set-up *)
Inductive Level : Set := InfoLevel | ErrorLevel | DebugLevel.
Definition configureLogLevelLogger (logLevel : string) : Level :=
  if String.eqb logLevel "error" then ErrorLevel
  else if String.eqb logLevel "debug" then DebugLevel
  else InfoLevel.
Definition NewLogger (env : Env) : Level :=
  configureLogLevelLogger (GoStrings.ToLower (default "" (env !! "LOG_LEVEL"))).

Definition label_sources : list (string * string) :=
  [("namespace", EnvNamespace); ("agentSet", EnvAgentSetName); ("agentDeploy", EnvAgentDeployName)].
Definition WithAgentLabels (env : Env) : list (string * string) :=
  omap (λ '(key, var), v ← env !! var; if String.eqb v "" then None else Some (key, v)) label_sources.

(** ** Properties *)
Lemma int_readable_iff env k d : is_Some (Volumes.LookupEnvIntOr env k d) ↔ int_readable env k.
Proof.
  unfold Volumes.LookupEnvIntOr, int_readable. destruct (env !! k) as [v|]; [|by split; [|eexists]].
  destruct (String.eqb_spec v "") as [->|Hne]; [split; [by left|by eexists]|].
  split; [by right|]. by intros [?|?].
Qed.
Lemma bool_readable_iff env k d : is_Some (Volumes.LookupEnvBoolOr env k d) ↔ bool_readable env k.
Proof.
  unfold Volumes.LookupEnvBoolOr, bool_readable. destruct (env !! k) as [v|]; [|by split; [|eexists]].
  destruct (String.eqb_spec v "") as [->|Hne]; [split; [by left|by eexists]|].
  split; [by right|]. by intros [?|?].
Qed.

Lemma unset_int env k d : unset env k → Volumes.LookupEnvIntOr env k d = Some d.
Proof. by intros [E|E]; unfold Volumes.LookupEnvIntOr; rewrite E. Qed.

(** The managed namespace when no flag is given. *)
Definition default_namespace (env : Env) : string :=
  Volumes.LookupEnvStringOr env "KYNOMESH_CONTROLLER_MANAGED_NAMESPACE"
    (Volumes.LookupEnvStringOr env "NAMESPACE" "kynomesh-system").

(** The tree with the values its defaults were read from. *)
Lemma rootCmd_spec env cmds :
  rootCmd env = Some cmds →
  ∃ ns port ip api metrics,
    Volumes.LookupEnvIntOr env "KYNOMESH_BROKER_PORT" AgentBrokerPort = Some port ∧
    Volumes.LookupEnvIntOr env "KYNOMESH_BROKER_INTROSPECTION_PORT" AgentBrokerIntrospectionPort = Some ip ∧
    Volumes.LookupEnvIntOr env "KYNOMESH_DAEMON_API_PORT" DaemonAPIPort = Some api ∧
    Volumes.LookupEnvIntOr env "KYNOMESH_DAEMON_METRICS_PORT" DaemonMetricsPort = Some metrics ∧
    cmds =
      [mkCommand "controller" (λ fl,
         StartController (BoolVar fl "namespaced" ns) (StringVar fl "managed-namespace" (default_namespace env)));
       mkCommand "broker" (λ fl, StartBroker (IntVar fl "port" port) (IntVar fl "introspection-port" ip));
       mkCommand "drain" (λ fl, RunDrain (IntVar fl "introspection-port" ip));
       mkCommand "daemon" (λ fl, StartDaemon (IntVar fl "api-port" api) (IntVar fl "metrics-port" metrics));
       NewInitRuntimeCommand; NewWebhookCommand].
Proof.
  unfold rootCmd, NewControllerCommand, NewBrokerCommand, NewDrainCommand, NewDaemonCommand.
  destruct (Volumes.LookupEnvBoolOr env _ false) as [ns|], (Volumes.LookupEnvIntOr env _ AgentBrokerPort) as [port|],
    (Volumes.LookupEnvIntOr env _ AgentBrokerIntrospectionPort) as [ip|], (Volumes.LookupEnvIntOr env _ DaemonAPIPort) as [api|],
    (Volumes.LookupEnvIntOr env _ DaemonMetricsPort) as [mp|]; cbn; try discriminate.
  intros [= <-]. by exists ns, port, ip, api, mp.
Qed.

Lemma rootCmd_readable env : is_Some (rootCmd env) ↔ readable env.
Proof.
  unfold readable, int_variables. rewrite !Forall_cons, Forall_nil, <- (bool_readable_iff env _ false),
    <- (int_readable_iff env _ AgentBrokerPort), <- (int_readable_iff env _ AgentBrokerIntrospectionPort),
    <- (int_readable_iff env _ DaemonAPIPort), <- (int_readable_iff env _ DaemonMetricsPort).
  assert (∀ A, is_Some (@None A) ↔ False) as Hn by (by intros A; split; [intros []|]).
  assert (∀ A (a : A), is_Some (Some a) ↔ True) as Hs by (by intros A a; split; [|eexists]).
  unfold rootCmd, NewControllerCommand, NewBrokerCommand, NewDrainCommand, NewDaemonCommand.
  destruct (Volumes.LookupEnvBoolOr env _ false), (Volumes.LookupEnvIntOr env _ AgentBrokerPort),
    (Volumes.LookupEnvIntOr env _ AgentBrokerIntrospectionPort), (Volumes.LookupEnvIntOr env _ DaemonAPIPort),
    (Volumes.LookupEnvIntOr env _ DaemonMetricsPort); cbn; rewrite !Hn, ?Hs || rewrite !Hs; tauto.
Qed.
(** Containers keep their arguments and hook through templates and defaults. *)
Lemma defaults_keep c rr :
  c_Args (ApplyDefaultResourcesIfMissing c rr) = c_Args c ∧
  c_Command (ApplyDefaultResourcesIfMissing c rr) = c_Command c ∧
  c_Ports (ApplyDefaultResourcesIfMissing c rr) = c_Ports c ∧
  c_Lifecycle (ApplyDefaultResourcesIfMissing c rr) = c_Lifecycle c.
Proof. unfold ApplyDefaultResourcesIfMissing. by destruct (_ || _). Qed.

Lemma template_keeps tmpl c :
  c_Args (apply_tmpl tmpl c) = c_Args c ∧ c_Command (apply_tmpl tmpl c) = c_Command c ∧
  c_Ports (apply_tmpl tmpl c) = c_Ports c ∧ c_Lifecycle (apply_tmpl tmpl c) = c_Lifecycle c.
Proof. by destruct tmpl. Qed.

(** The port a container declares under a name, which services target. *)
Definition named_port (c : CoreContainer) (n : string) : option Z :=
  cp_ContainerPort <$> find (λ p, String.eqb (cp_Name p) n) (c_Ports c).

(** What the entry point of the image, the kynomesh binary, is given: a
    container's [Command] would replace it. *)
Definition entry_point_args (c : CoreContainer) : option (list string) :=
  match c_Command c with [] => Some (c_Args c) | _ => None end.
(** What a container runs: the binary with its arguments. *)
Definition runs (env : Env) (c : CoreContainer) : option Outcome :=
  Execute env no_flags <$> entry_point_args c.

(** C20: every container the controllers render runs the subcommand it is meant
    for: it sets no command of its own, so the image's entry point gets its
    arguments.  The port and flag variables of its environment have to be
    readable ([readable]: unset or well-formed; with any other value every
    subcommand panics, [unreadable_variable_stops_all]).  A broker listens on
    the ports its container declares unless its environment moves them, and
    its preStop hook, run in the same environment, scrapes the very
    introspection port that broker serves; the init container installs the
    probe where the agent's probes execute it; the daemon listens on the ports
    its container declares unless its environment moves them. *)
Theorem containers_run_their_commands env image pol enc tmpl grace dr encs s :
  readable env →
  let broker := newBrokerContainer image pol enc tmpl grace dr in
  let init := newInitRuntimeContainer image pol enc tmpl dr in
  let daemon := AgentSets.newDaemonContainer encs image pol s tmpl dr in
  (∃ port ip, runs env broker = Some (Ran (StartBroker port ip)) ∧
     (∃ drain, c_Lifecycle broker = Some (mkLifecycle (Some (ExecAction (KynomeshBinaryPath :: drain))) "") ∧
        Execute env no_flags drain = Ran (RunDrain ip)) ∧
     (unset env "KYNOMESH_BROKER_PORT" → named_port broker "broker" = Some port) ∧
     (unset env "KYNOMESH_BROKER_INTROSPECTION_PORT" → named_port broker "introspect" = Some ip)) ∧
  (∃ topology dst, runs env init =
     Some (Ran (InitRuntime topology InitRuntime.ProbeBinaryImagePath dst)) ∧ head agentProbeExec = Some dst) ∧
  (∃ api metrics, runs env daemon = Some (Ran (StartDaemon api metrics)) ∧
     (unset env "KYNOMESH_DAEMON_API_PORT" → named_port daemon "api" = Some api) ∧
     (unset env "KYNOMESH_DAEMON_METRICS_PORT" → named_port daemon "metrics" = Some metrics)).
Proof.
  intros [cmds Hc]%rootCmd_readable broker init daemon. unfold runs, entry_point_args, Execute. rewrite Hc.
  apply rootCmd_spec in Hc as (ns & port & ip & api & mp & Hp & Hip & Ha & Hm & ->).
  unfold named_port. subst broker init daemon.
  unfold newBrokerContainer, newInitRuntimeContainer, AgentSets.newDaemonContainer.
  rewrite !(proj1 (defaults_keep _ _)), !(proj1 (proj2 (defaults_keep _ _))),
    !(proj1 (proj2 (proj2 (defaults_keep _ _)))), !(proj2 (proj2 (proj2 (defaults_keep _ _)))).
  split_and!.
  - exists port, ip. destruct tmpl; cbn; (split_and!; [done|by eexists|..]);
      intros Hu; first [rewrite (unset_int _ _ _ Hu) in Hp|rewrite (unset_int _ _ _ Hu) in Hip]; congruence.
  - eexists _, _. by destruct tmpl.
  - exists api, mp. destruct tmpl; cbn; (split_and!; [done|..]);
      intros Hu; first [rewrite (unset_int _ _ _ Hu) in Ha|rewrite (unset_int _ _ _ Hu) in Hm]; congruence.
Qed.

(** A malformed port or flag variable stops every subcommand of the binary,
    also those that do not use it, and nothing else does. *)
Theorem unreadable_variable_stops_all env fl args :
  ¬ readable env ↔ Execute env fl args = Panicked.
Proof.
  rewrite <- rootCmd_readable. unfold Execute. destruct (rootCmd env) as [cmds|].
  - split; [intros Hn; by exfalso; apply Hn; eexists|].
    destruct args as [|a args]; [done|]. by destruct (find _ _).
  - split; [done|]. by intros _ [].
Qed.

(** A namespaced controller is never pointed at the empty namespace, which
    stands for all of them, except by an explicit flag. *)
Theorem managed_namespace_is_named env fl args n ns :
  Execute env fl ("controller" :: args) = Ran (StartController n ns) →
  f_string fl "managed-namespace" = None → ns ≠ "".
Proof.
  unfold Execute. destruct (rootCmd env) as [cmds|] eqn:Hc; [|done].
  apply rootCmd_spec in Hc as (n' & port & ip & api & mp & _ & _ & _ & _ & ->).
  cbn. intros [= <- <-] Hf. unfold StringVar. rewrite Hf. cbn.
  unfold default_namespace, Volumes.LookupEnvStringOr.
  repeat match goal with
  | |- context [env !! ?k] => destruct (env !! k) as [?|]
  | |- context [String.eqb ?v ""] => destruct (String.eqb_spec v "")
  end; done.
Qed.

(** A build from a modified tree never reports a bare release. *)
Lemma dirty_builds_say_so b :
  b_gitTreeState b ≠ "clean" →
  ∃ v, GetVersion b = v +:+ "+unknown" ∨ GetVersion b = v +:+ ".dirty".
Proof.
  intros Hd. unfold GetVersion. destruct (String.eqb_spec (b_gitTreeState b) "clean") as [|_]; [done|].
  rewrite andb_false_r. destruct (7 <=? _)%Z.
  - exists (b_version b +:+ "+" +:+ String.substring 0 7 (b_gitCommit b)). right. by rewrite !GoStrings.string_app_assoc.
  - exists (b_version b). by left.
Qed.

(** Log labels are the set variables, in a fixed order. *)
Lemma labels_elem env k v :
  (k, v) ∈ WithAgentLabels env ↔ ∃ var, (k, var) ∈ label_sources ∧ env !! var = Some v ∧ v ≠ "".
Proof.
  unfold WithAgentLabels. rewrite list_elem_of_omap. split.
  - intros ([key var] & Hin & E). destruct (env !! var) as [x|] eqn:Hx; [|done]. cbn in E.
    destruct (String.eqb_spec x ""); [done|]. injection E as <- <-. eauto.
  - intros (var & Hin & Hx & Hne). exists (k, var). split; [done|]. rewrite Hx. cbn.
    by destruct (String.eqb_spec v "").
Qed.

(** ** Examples *)
Definition ex_env : Env := {[ "KYNOMESH_BROKER_INTROSPECTION_PORT" := "9443" ]}.
Lemma ex_env_readable : readable ex_env.
Proof. apply rootCmd_readable. by eexists. Qed.

(** A moved introspection port moves the drain with it. *)
Lemma containers_run_their_commands_witness :
  ∃ port ip drain, runs ex_env (newBrokerContainer "img" "" "" None 30 no_resources) = Some (Ran (StartBroker port ip)) ∧
    ip = 9443 ∧
    Execute ex_env no_flags drain = Ran (RunDrain ip).
Proof.
  destruct (containers_run_their_commands ex_env "img" "" "" None 30 no_resources (λ _, "") Daemon.ex_set ex_env_readable)
    as [(port & ip & E & (drain & _ & Ed) & _ & _) _].
  exists port, ip, drain. split; [exact E|]. split; [|exact Ed]. injection E as _ <-. reflexivity.
Defined.

Lemma managed_namespace_is_named_witness : "kynomesh-system" ≠ "".
Proof. exact (managed_namespace_is_named ∅ no_flags [] false "kynomesh-system" eq_refl eq_refl). Defined.

End Commands.
