(* ===== verification/Manager.v ===== *)
(** * Controller manager ([pkg/reconciler/cmd/start.go], [pkg/reconciler/config.go])

    The wiring of the two controllers to the API server's events, the
    start-up configuration, and the configuration file that is reloaded
    while the manager runs.  The predicates and event handlers are those of
    controller-runtime: the class [ControllerRuntime] states what its
    documentation says of them.  [time.ParseDuration], the YAML decoder and
    viper are parameters. *)
From S2P Require Import Prelude GoStrings K8s Types Topology Pods Services AgentDeploys AgentSets.
#[local] Open Scope Z_scope.
#[local] Open Scope string_scope.
#[local] Open Scope list_scope.

Module Manager.
Import GoStrings Pods Services AgentDeploys AgentSets.
#[local] Unset Default Proof Using.

(** ** Events and watches *)
Inductive Kind : Set := KAgentSet | KAgentDeploy | KPod | KService | KDeployment | KConfigMap.
#[export] Instance Kind_eq_dec : EqDecision Kind.
Proof. solve_decision. Defined.

Inductive Event : Set :=
  | Created (m : ObjectMeta)
  | Updated (old new : ObjectMeta)
  | Deleted (m : ObjectMeta).
(** The objects of an event. *)
Definition objects (e : Event) : list ObjectMeta :=
  match e with Created m => [m] | Updated o n => [o; n] | Deleted m => [m] end.

Inductive Predicate : Set :=
  | GenerationChangedPredicate | LabelChangedPredicate | ResourceVersionChangedPredicate
  | Or (p q : Predicate).
Inductive Handler : Set :=
  | EnqueueRequestForObject
  | EnqueueRequestForOwner (group kind : string).
Record Watch : Set := mkWatch { w_kind : Kind; w_handler : Handler; w_predicate : Predicate }.

(** [metav1.GetControllerOf] *)
Definition GetControllerOf (m : ObjectMeta) : option OwnerReference :=
  List.find (λ r, bool_decide (or_Controller r = Some true)) (om_OwnerReferences m).
(** The group of an [apiVersion] "group/version". *)
Definition api_group (apiVersion : string) : string :=
  match cut_first "/" apiVersion with Some (g, _) => g | None => "" end.
(** The request for the controller of an object. *)
Definition owner_request (group kind : string) (m : ObjectMeta) : option NamespacedName :=
  match GetControllerOf m with
  | Some r => if String.eqb (or_Kind r) kind && String.eqb (api_group (or_APIVersion r)) group
              then Some (mkKey (om_Namespace m) (or_Name r)) else None
  | None => None
  end.

Class ControllerRuntime := {
  passes : Predicate → Event → bool;
  requests : Handler → Event → list NamespacedName;
  (* a predicate that tests an update lets creations and deletions through *)
  passes_other p e : (∀ o n, e ≠ Updated o n) → passes p e = true;
  passes_generation o n :
    passes GenerationChangedPredicate (Updated o n) = negb (om_Generation o =? om_Generation n)%Z;
  passes_label o n :
    passes LabelChangedPredicate (Updated o n) = negb (bool_decide (om_Labels o = om_Labels n));
  passes_version o n :
    passes ResourceVersionChangedPredicate (Updated o n) =
    negb (String.eqb (om_ResourceVersion o) (om_ResourceVersion n));
  passes_or p q e : passes (Or p q) e = passes p e || passes q e;
  requests_object e k : k ∈ requests EnqueueRequestForObject e ↔ last (om_key <$> objects e) = Some k;
  requests_owner g kd e k :
    k ∈ requests (EnqueueRequestForOwner g kd) e ↔ ∃ m, m ∈ objects e ∧ owner_request g kd m = Some k
}.

Definition group := "kynomesh.kyno.sh".
Definition primary : Predicate := Or GenerationChangedPredicate LabelChangedPredicate.

(** [registerAgentSetController] and [registerAgentDeployController] *)
Definition registerAgentSetController : list Watch :=
  [mkWatch KAgentSet EnqueueRequestForObject primary;
   mkWatch KAgentDeploy (EnqueueRequestForOwner group "AgentSet") ResourceVersionChangedPredicate;
   mkWatch KService (EnqueueRequestForOwner group "AgentSet") ResourceVersionChangedPredicate].
Definition registerAgentDeployController : list Watch :=
  [mkWatch KAgentDeploy EnqueueRequestForObject primary;
   mkWatch KPod (EnqueueRequestForOwner group "AgentDeploy") ResourceVersionChangedPredicate;
   mkWatch KService (EnqueueRequestForOwner group "AgentDeploy") ResourceVersionChangedPredicate].

Section events.
Context `{ControllerRuntime}.

(** The requests a controller's queue receives for an event. *)
Definition enqueued (ws : list Watch) (kind : Kind) (e : Event) : list NamespacedName :=
  ws ≫= λ w, if bool_decide (w_kind w = kind) && passes (w_predicate w) e
             then requests (w_handler w) e else [].

Lemma enqueued_iff ws kind e k :
  k ∈ enqueued ws kind e ↔
  ∃ w, w ∈ ws ∧ w_kind w = kind ∧ passes (w_predicate w) e = true ∧ k ∈ requests (w_handler w) e.
Proof.
  unfold enqueued. rewrite list_elem_of_bind. split.
  - intros (w & Hk & Hw). exists w. case_bool_decide; cbn in Hk; [|set_solver].
    destruct (passes _ e); [done|set_solver].
  - intros (w & Hw & <- & Hp & Hk). exists w. split; [|done]. by rewrite bool_decide_true, Hp.
Qed.

(** An event that reports a change: what the API server sends. *)
Definition changes (e : Event) : Prop :=
  match e with
  | Updated o n => om_ResourceVersion o ≠ om_ResourceVersion n
  | _ => True
  end.
Lemma changes_pass e : changes e → passes ResourceVersionChangedPredicate e = true.
Proof.
  destruct e; try (intros; by apply passes_other). cbn. intros Hne. rewrite passes_version.
  by destruct (String.eqb_spec (om_ResourceVersion old) (om_ResourceVersion new)).
Qed.

(** An object with the controller reference of its owner, in the owner's
    namespace. *)
Lemma controlled_request owner m kind :
  om_OwnerReferences m = [NewControllerRef owner "kynomesh.kyno.sh/v1alpha1" kind] →
  om_Namespace m = om_Namespace owner →
  owner_request group kind m = Some (om_key owner).
Proof.
  intros Hr Hn. unfold owner_request, GetControllerOf. rewrite Hr. cbn [List.find].
  rewrite bool_decide_true by done. cbn [NewControllerRef or_Kind or_APIVersion or_Name].
  rewrite String.eqb_refl. unfold om_key. by rewrite Hn.
Qed.

(** The object of an event is one a controller created: the server keeps
    its namespace and its owner references. *)
Definition about (created : ObjectMeta) (e : Event) : Prop :=
  ∃ m, m ∈ objects e ∧ om_Namespace m = om_Namespace created ∧
       om_OwnerReferences m = om_OwnerReferences created.

(** Every change of an owned object wakes the controller of its owner. *)
Lemma owned_wakes ws kind e created owner okind :
  mkWatch kind (EnqueueRequestForOwner group okind) ResourceVersionChangedPredicate ∈ ws →
  changes e → about created e → owner_request group okind created = Some owner →
  owner ∈ enqueued ws kind e.
Proof.
  intros Hw Hc (m & Hm & Hns & Hrefs) Hr. apply enqueued_iff. eexists. split; [exact Hw|]. cbn.
  split_and!; [done|by apply changes_pass|]. apply requests_owner. exists m.
  split; [done|]. revert Hr. unfold owner_request, GetControllerOf. by rewrite Hns, Hrefs.
Qed.

(** What [ctrl.SetControllerReference] promises: after it the object's
    controller is the owner, by name, kind and group. *)
Definition sets_controller (SetRefs : option (AgentSet → ObjectMeta → result string (list OwnerReference))) : Prop :=
  ∀ f s m refs, SetRefs = Some f → f s m = Ok refs →
    ∃ r, List.find (λ r, bool_decide (or_Controller r = Some true)) refs = Some r ∧
      or_Kind r = "AgentSet" ∧ api_group (or_APIVersion r) = group ∧ or_Name r = as_Name s.

Lemma owner_refs_request SetRefs s m refs created :
  sets_controller SetRefs → owner_refs SetRefs s m = Ok refs →
  om_OwnerReferences created = refs → om_Namespace created = as_Namespace s →
  owner_request group "AgentSet" created = Some (om_key (as_meta s)).
Proof.
  unfold owner_refs. intros Hset. destruct SetRefs as [f|].
  - intros Hf Hr Hn. destruct (Hset f s m refs eq_refl Hf) as (r & Hfind & Hk & Hg & Hname).
    unfold owner_request, GetControllerOf. rewrite Hr, Hfind, Hk, Hg, Hname, Hn. done.
  - intros [= <-] Hr Hn. by apply controlled_request.
Qed.

(** C26: the controllers are woken by what they own.  Whatever happens to a
    pod or a service the AgentDeploy controller creates (creation, deletion,
    or any update) puts its AgentDeploy in that controller's queue, and
    whatever happens to a child AgentDeploy or to the entry and daemon services
    the AgentSet controller creates puts its AgentSet in the other's: the owner
    references are those the code sets when it builds the objects, with
    [ctrl.SetControllerReference] (which does what it promises,
    [sets_controller]) or, without a scheme, by hand. *)
Theorem owned_objects_wake_owner SetRefs hash hashService ad replica ps h suffix s a child svc e :
  sets_controller SetRefs → changes e →
  (about (pod_meta (newPod ad replica ps h suffix)) e →
   ad_key ad ∈ enqueued registerAgentDeployController KPod e) ∧
  (about (svc_meta (newHeadlessService ad)) e ∨ about (svc_meta (newClusterIPService ad)) e →
   ad_key ad ∈ enqueued registerAgentDeployController KService e) ∧
  (newAgentDeploy SetRefs hash s a = Some (Ok child) → about (ad_meta child) e →
   om_key (as_meta s) ∈ enqueued registerAgentSetController KAgentDeploy e) ∧
  (with_refs SetRefs s (newEntryService s) svc_meta = Ok svc ∨
   with_refs SetRefs s (newDaemonService s) svc_meta = Ok svc →
   about (svc_meta (stamp hashService svc)) e →
   om_key (as_meta s) ∈ enqueued registerAgentSetController KService e).
Proof.
  intros Hset Hc. split_and!.
  - intros Hm. eapply owned_wakes; [|done|exact Hm|by apply (controlled_request (ad_meta ad))]. set_solver.
  - intros [Hm|Hm]; (eapply owned_wakes; [|done|exact Hm|by apply (controlled_request (ad_meta ad))]; set_solver).
  - intros Hn Hm. eapply (owned_wakes _ _ _ _ _ "AgentSet"); [|done|exact Hm|]; [set_solver|].
    unfold newAgentDeploy in Hn. destruct (Topo.ComputeTopology _ _); [|done]. cbn in Hn.
    destruct (owner_refs _ _ _) as [refs|] eqn:Er; [|done]. simplify_eq. by eapply owner_refs_request.
  - intros Hb Hm. eapply (owned_wakes _ _ _ _ _ "AgentSet"); [|done|exact Hm|]; [set_solver|].
    destruct Hb as [Hb|Hb]; unfold with_refs in Hb; destruct (owner_refs _ _ _) as [refs|] eqn:Er; try done;
      simplify_eq; by eapply owner_refs_request.
Qed.

(** A controller does not wake itself by writing a status.  An update
    that keeps generation and labels puts nothing in the queue of the
    object's own controller, while an AgentDeploy's status change reaches
    the controller of its AgentSet; a change of the spec (a new generation,
    as the autoscaler's patch of the replicas makes) puts the object in its
    own controller's queue. *)
Theorem status_writes_do_not_loop old new s :
  om_key new = om_key old → om_ResourceVersion old ≠ om_ResourceVersion new →
  om_OwnerReferences new = [AgentSetControllerRef s] → om_Namespace new = as_Namespace s →
  (om_Generation old = om_Generation new → om_Labels old = om_Labels new →
   enqueued registerAgentDeployController KAgentDeploy (Updated old new) = [] ∧
   enqueued registerAgentSetController KAgentSet (Updated old new) = [] ∧
   om_key (as_meta s) ∈ enqueued registerAgentSetController KAgentDeploy (Updated old new)) ∧
  (om_Generation old ≠ om_Generation new →
   om_key old ∈ enqueued registerAgentDeployController KAgentDeploy (Updated old new)).
Proof.
  intros Hk Hrv Hr Hn. split.
  - intros Hg Hl. assert (passes primary (Updated old new) = false) as Hp.
    { unfold primary. rewrite passes_or, passes_generation, passes_label, Hg, Hl.
      by rewrite Z.eqb_refl, bool_decide_true. }
    split_and!; [unfold enqueued; cbn; by rewrite Hp..|].
    eapply (owned_wakes _ _ _ new); [|done| |by apply (controlled_request (as_meta s))]; [set_solver|]. exists new. set_solver.
  - intros Hg. apply enqueued_iff. exists (mkWatch KAgentDeploy EnqueueRequestForObject primary).
    split; [set_solver|]. cbn. split_and!; [done| |by apply requests_object; cbn; rewrite Hk].
    unfold primary. rewrite passes_or, passes_generation.
    by destruct (Z.eqb_spec (om_Generation old) (om_Generation new)).
Qed.

(** No event of a Deployment or of a ConfigMap wakes a controller: a daemon
    Deployment that is deleted is not restored until something else wakes
    the AgentSet's controller. *)
Theorem deployments_are_not_watched e :
  enqueued registerAgentSetController KDeployment e = [] ∧
  enqueued registerAgentDeployController KDeployment e = [].
Proof. done. Qed.
End events.

(** The documented behaviour, as a definition. *)
Fixpoint documented_passes (p : Predicate) (e : Event) : bool :=
  match p with
  | Or p q => documented_passes p e || documented_passes q e
  | _ =>
      match e with
      | Updated o n =>
          match p with
          | GenerationChangedPredicate => negb (om_Generation o =? om_Generation n)%Z
          | LabelChangedPredicate => negb (bool_decide (om_Labels o = om_Labels n))
          | _ => negb (String.eqb (om_ResourceVersion o) (om_ResourceVersion n))
          end
      | _ => true
      end
  end.
#[export, refine] Instance documented_runtime : ControllerRuntime := {
  passes := documented_passes;
  requests h e := match h with
                  | EnqueueRequestForObject => option_list (last (om_key <$> objects e))
                  | EnqueueRequestForOwner g kd => omap (owner_request g kd) (objects e)
                  end
}.
Proof.
  - intros p e He. induction p as [| | |p IHp q IHq]; cbn; [by destruct e; [|destruct (He old new)|]..|].
    by rewrite IHp.
  - done.
  - done.
  - done.
  - done.
  - intros e k. destruct (last _) as [x|]; cbn; [|set_solver].
    rewrite list_elem_of_singleton. naive_solver.
  - intros g kd e k. by rewrite list_elem_of_omap.
Defined.

Definition ex_deploy : AgentDeploy :=
  mkAgentDeploy (new_meta "ns" "set-a" ∅ ∅ [])
    (mkAgentDeploySpec (named_agent "a") "set" None zero_topology) zero_status.
Definition ex_owner_set : AgentSet :=
  mkAgentSet (new_meta "ns" "set" ∅ ∅ [])
    (mkAgentSetSpec AgentPatternSupervisor "a" [named_agent "a"] None [] None) zero_set_status.

(** A library that sets the reference. *)
Definition ex_set_refs (s : AgentSet) (m : ObjectMeta) : result string (list OwnerReference) :=
  Ok [AgentSetControllerRef s].
Definition ex_entry : Service := newEntryService ex_owner_set [AgentSetControllerRef ex_owner_set].

Lemma owned_objects_wake_owner_witness :
  mkKey "ns" "set" ∈ enqueued registerAgentSetController KService (Deleted (svc_meta ex_entry)).
Proof.
  refine (proj2 (proj2 (proj2 (owned_objects_wake_owner (Some ex_set_refs) (λ _, "") (λ _, "") ex_deploy 0
    (bare_pod_spec (newDaemonContainer (λ _, "") "" "" ex_owner_set None no_resources)) "" "" ex_owner_set (named_agent "a")
    ex_deploy ex_entry (Deleted (svc_meta ex_entry)) _ I))) _ _).
  - intros f s m refs [= <-] [= <-]. by eexists.
  - left. reflexivity.
  - exists (svc_meta ex_entry). split; [apply list_elem_of_here|by split].
Defined.

(** Metadata of a child at a resource version and a generation. *)
Definition ex_version (v : string) (g : Z) : ObjectMeta :=
  mkObjectMeta "ns" "set-a" "u" v g ∅ ∅ [AgentSetControllerRef ex_owner_set] None.
Lemma status_writes_do_not_loop_witness :
  enqueued registerAgentDeployController KAgentDeploy (Updated (ex_version "1" 3) (ex_version "2" 3)) = [] ∧
  mkKey "ns" "set" ∈ enqueued registerAgentSetController KAgentDeploy (Updated (ex_version "1" 3) (ex_version "2" 3)).
Proof.
  destruct (status_writes_do_not_loop (ex_version "1" 3) (ex_version "2" 3) ex_owner_set) as [H _];
    [reflexivity|discriminate|reflexivity|reflexivity|].
  destruct (H eq_refl eq_refl) as (H1 & _ & H2). split; [exact H1|exact H2].
Defined.

(** ** Start-up *)
Definition defaultLeaseDuration : Duration := 15 * second.
Definition defaultRenewDeadline : Duration := 10 * second.
Definition defaultRetryPeriod : Duration := 2 * second.
Definition EnvLeaderElectionLeaseDuration := "KYNOMESH_LEADER_ELECTION_LEASE_DURATION".
Definition EnvLeaderElectionRenewDeadline := "KYNOMESH_LEADER_ELECTION_RENEW_DEADLINE".
Definition EnvLeaderElectionRetryPeriod := "KYNOMESH_LEADER_ELECTION_RETRY_PERIOD".
Definition EnvImagePullPolicy := "KYNOMESH_IMAGE_PULL_POLICY".
Definition ContainerNameController := "controller-manager".

Inductive startErr : Set :=
  | BadDuration (key raw : string)
  | BadTimings (retry renew lease : Duration)
  | BadPullPolicy (raw : string)
  | EnvUnset (key : string)
  | PodLookup (e : ApiError)
  | NoContainers | EmptyImage (container : string) | NoController.

(** One entry of the table: the variable, or the default when it is unset or
    empty. *)
Definition timing (ParseDuration : string → option Duration) (getenv : string → string)
    (key : string) (def : Duration) : result startErr Duration :=
  let raw := getenv key in
  if String.eqb raw "" then Ok def
  else match ParseDuration raw with Some d => Ok d | None => Err (BadDuration key raw) end.

Definition resolveLeaderElectionTimings (ParseDuration : string → option Duration)
    (getenv : string → string) : result startErr (Duration * Duration * Duration) :=
  result_bind (timing ParseDuration getenv EnvLeaderElectionLeaseDuration defaultLeaseDuration) (λ lease,
  result_bind (timing ParseDuration getenv EnvLeaderElectionRenewDeadline defaultRenewDeadline) (λ renew,
  result_bind (timing ParseDuration getenv EnvLeaderElectionRetryPeriod defaultRetryPeriod) (λ retry,
  if (renew <=? retry)%Z || (lease <=? renew)%Z then Err (BadTimings retry renew lease)
  else Ok (lease, renew, retry)))).

(** The timings the manager runs with are ordered, and the defaults are used
    when nothing is set. *)
Theorem timings_are_ordered ParseDuration getenv :
  (∀ lease renew retry,
     resolveLeaderElectionTimings ParseDuration getenv = Ok (lease, renew, retry) →
     (retry < renew < lease)%Z) ∧
  ((∀ k, getenv k = "") →
   resolveLeaderElectionTimings ParseDuration getenv =
     Ok (defaultLeaseDuration, defaultRenewDeadline, defaultRetryPeriod)).
Proof.
  split.
  - intros lease renew retry. unfold resolveLeaderElectionTimings.
    destruct (timing _ _ EnvLeaderElectionLeaseDuration _) as [l|]; [|done].
    destruct (timing _ _ EnvLeaderElectionRenewDeadline _) as [n|]; [|done].
    destruct (timing _ _ EnvLeaderElectionRetryPeriod _) as [y|]; [|done]. cbn.
    destruct (Z.leb_spec n y), (Z.leb_spec l n); cbn; try done. intros [= <- <- <-]. lia.
  - intros Hg. unfold resolveLeaderElectionTimings, timing. by rewrite !Hg.
Qed.

Definition resolveBrokerPullPolicy (getenv : string → string) : result startErr string :=
  let raw := getenv EnvImagePullPolicy in
  if String.eqb raw "" then Ok ""
  else if bool_decide (raw ∈ ["Always"; "Never"; "IfNotPresent"]) then Ok raw
  else Err (BadPullPolicy raw).

(** [controllerImageFromPod] *)
Definition controllerImageFromPod (p : Pod) : result startErr string :=
  match ps_Containers (pod_Spec p) with
  | [] => Err NoContainers
  | [c] => if String.eqb (c_Image c) "" then Err (EmptyImage (c_Name c)) else Ok (c_Image c)
  | cs =>
      match List.find (λ c, String.eqb (c_Name c) ContainerNameController) cs with
      | Some c => if String.eqb (c_Image c) "" then Err (EmptyImage (c_Name c)) else Ok (c_Image c)
      | None => Err NoController
      end
  end.
Definition discoverControllerImage {W} `{!Client W Pod} (getenv : string → string) (w : W)
    : W * result startErr string :=
  if String.eqb (getenv EnvPodName) "" then (w, Err (EnvUnset EnvPodName))
  else if String.eqb (getenv EnvNamespace) "" then (w, Err (EnvUnset EnvNamespace))
  else
    let '(w, r) := Get (mkKey (getenv EnvNamespace) (getenv EnvPodName)) w in
    match r with
    | Err e => (w, Err (PodLookup e))
    | Ok p => (w, controllerImageFromPod p)
    end.

(** The image stamped on brokers and daemons is the one a container of the
    manager's own pod runs. *)
Theorem discovered_image_is_own p image :
  controllerImageFromPod p = Ok image →
  image ≠ "" ∧ ∃ c, c ∈ ps_Containers (pod_Spec p) ∧ c_Image c = image ∧
    (ps_Containers (pod_Spec p) = [c] ∨ c_Name c = ContainerNameController).
Proof.
  unfold controllerImageFromPod. destruct (ps_Containers (pod_Spec p)) as [|c [|c' cs]]; [done| |].
  - destruct (String.eqb_spec (c_Image c) ""); [done|]. intros [= <-]. split; [done|].
    exists c. split_and!; [apply list_elem_of_here|done|by left].
  - destruct (List.find _ _) as [x|] eqn:Ef; [|done]. apply List.find_some in Ef as [Hin Hn].
    destruct (String.eqb_spec (c_Image x) ""); [done|]. intros [= <-]. split; [done|].
    exists x. split_and!; [by apply list_elem_of_In|done|right; by apply String.eqb_eq].
Qed.

(** ** The configuration file ([config.go]) *)
Record DefaultConfig : Set := mkDefaultConfig { ContainerResources : string }.
Record config : Set := mkConfig { Defaults : option DefaultConfig }.
(** [None] is the nil receiver. *)
Definition GetDefaults (g : option config) : DefaultConfig :=
  match g with
  | None => mkDefaultConfig ""
  | Some c => default (mkDefaultConfig "") (Defaults c)
  end.
Definition default_resources : ResourceRequirements :=
  mkResourceRequirements ∅ (<["cpu" := "100m"]> (<["memory" := "128Mi"]> ∅)) [].
(** [None] is the panic on a value that does not decode. *)
Definition GetDefaultContainerResources (yaml_Unmarshal : string → option ResourceRequirements)
    (dc : DefaultConfig) : option ResourceRequirements :=
  if String.eqb (ContainerResources dc) "" then Some default_resources
  else yaml_Unmarshal (ContainerResources dc).

Inductive loadErr : Set := ReadFailed | UnmarshalFailed.
(** [LoadConfig]: the file is read once, and each change of it is decoded and
    swapped in; [v.Unmarshal] of a file that cannot be decoded is [None]. *)
Definition LoadConfig {F} (read : option F) (v_Unmarshal : F → option config) : result loadErr config :=
  match read with
  | None => Err ReadFailed
  | Some f => match v_Unmarshal f with Some c => Ok c | None => Err UnmarshalFailed end
  end.
Definition OnConfigChange {F} (v_Unmarshal : F → option config) (c : config) (f : F) : config * bool :=
  match v_Unmarshal f with
  | Some c' => (c', false)
  | None => (c, true)
  end.

(** A bad edit of the configuration file never takes a running manager
    down or back to defaults: after any sequence of changes the manager runs
    with the last version of the file that decodes, and reports the versions
    that do not. *)
Theorem config_is_last_valid {F} (v_Unmarshal : F → option config) c0 (fs : list F) :
  foldl (λ c f, (OnConfigChange v_Unmarshal c f).1) c0 fs =
    default c0 (last (omap v_Unmarshal fs)) ∧
  (∀ c f, (OnConfigChange v_Unmarshal c f).2 = true ↔ v_Unmarshal f = None).
Proof.
  split.
  - revert c0. induction fs as [|f fs IH] using rev_ind; intros c0; [done|].
    rewrite foldl_app, omap_app, last_app. cbn. unfold OnConfigChange.
    destruct (v_Unmarshal f); cbn; [done|apply IH].
  - intros c f. unfold OnConfigChange. by destruct (v_Unmarshal f).
Qed.
End Manager.
