(* ===== verification/Runners.v ===== *)
(** * The controller process ([pkg/reconciler/cmd/start.go])

    How [Start] puts the manager together: options, health checks, the two
    controllers, and the three background components, each with its watch set,
    its worker pool and the options of its constructor ([NewSampler],
    [NewAutoscaler], [NewWatcher]).  What controller-runtime does with a
    registered runnable is a parameter with the documented law: one that needs
    leader election runs only on the leader.  Every failure ends the process. *)
From S2P Require Import Prelude K8s Types Volumes Workset WorkPool Sampler Autoscaler Driftwatch Manager Commands.
#[local] Open Scope Z_scope.

Module Runners.
Import Workset WorkPool.

(** ** [Start] *)
Definition leaderElectionID := "kynomesh-controller-lock".
Definition metricsAddr := ":9090".
Definition probeAddr := ":8081".
Definition EnvLeaderElectionDisabled := "KYNOMESH_LEADER_ELECTION_DISABLED".

Record Options : Set := mkOptions {
  MetricsBindAddress : string;
  HealthProbeBindAddress : string;
  LeaderElection : bool;
  LeaderElectionID : string;
  LeaseDuration : Duration;
  RenewDeadline : Duration;
  RetryPeriod : Duration;
  DefaultNamespaces : option (list string)      (** [None]: all namespaces *)
}.

(** What is handed to the manager: [controller.New] registers a controller,
    [mgr.Add] one of the components as a [LeaderElectionRunner]. *)
Inductive Runnable : Type :=
  | Controller (name : string) (watches : list Manager.Watch)
  | LeaderElectionRunner (w : WorkSet NamespacedName).

(** [NeedLeaderElection]: [true] for a [LeaderElectionRunner]; controllers
    need it unless their options say otherwise, which ours do not. *)
Definition NeedLeaderElection (r : Runnable) : bool :=
  match r with Controller _ _ => true | LeaderElectionRunner _ => true end.

Record Process : Type := mkProcess {
  p_options : Options;
  p_checks : list string;
  p_runnables : list Runnable;
  p_image : string;
  p_pullPolicy : string
}.

Inductive fatal : Set :=
  | ConfigFailed (e : Manager.loadErr)
  | OptionsFailed (e : Manager.startErr)
  | EnvPanicked
  | RuntimeFailed (msg : string).

Definition options_result {A} (r : result Manager.startErr A) : result fatal A :=
  match r with Ok a => Ok a | Err e => Err (OptionsFailed e) end.
Definition runtime_result (e : option string) : result fatal unit :=
  match e with Some m => Err (RuntimeFailed m) | None => Ok tt end.

Section start.
Context {W : Type} `{!Client W Pod}.
(** [time.ParseDuration], the environment, [ctrl.NewManager] and the
    manager's registrations, which may fail. *)
Context (ParseDuration : string → option Duration) (env : gmap string string).
Context (NewManager : Options → option string) (add_check : string → option string).
Context (register : Runnable → option string).

Definition getenv (k : string) : string := default "" (env !! k).

(** Registrations in order, up to the first failure. *)
Fixpoint register_all (rs : list Runnable) : result fatal unit :=
  match rs with
  | [] => Ok tt
  | r :: rs => result_bind (runtime_result (register r)) (λ _, register_all rs)
  end.

Definition manager_options (namespaced : bool) (managedNamespace : string)
    (timings : Duration * Duration * Duration) (disabled : bool) : Options :=
  let '(lease, renew, retry) := timings in
  mkOptions metricsAddr probeAddr (negb disabled) leaderElectionID lease renew retry
    (if namespaced then Some [managedNamespace] else None).

Definition runnables : list Runnable :=
  [Controller ControllerAgentSet Manager.registerAgentSetController;
   Controller ControllerAgentDeploy Manager.registerAgentDeployController;
   LeaderElectionRunner (Sampler.SamplerOptions.NewSampler []).2;
   LeaderElectionRunner (Autoscaler.AutoscalerOptions.NewAutoscaler []).2;
   LeaderElectionRunner (Driftwatch.WatcherOptions.NewWatcher []).2].

Definition Start (config : result Manager.loadErr Manager.config) (namespaced : bool) (managedNamespace : string)
    (w : W) : W * result fatal Process :=
  match config with
  | Err e => (w, Err (ConfigFailed e))
  | Ok _ =>
      match Manager.resolveLeaderElectionTimings ParseDuration getenv,
            Volumes.LookupEnvBoolOr env EnvLeaderElectionDisabled false with
      | Err e, _ => (w, Err (OptionsFailed e))
      | Ok _, None => (w, Err EnvPanicked)
      | Ok timings, Some disabled =>
          let opts := manager_options namespaced managedNamespace timings disabled in
          let '(w, img) := Manager.discoverControllerImage getenv w in
          (w,
           result_bind (options_result img) (λ image,
           result_bind (options_result (Manager.resolveBrokerPullPolicy getenv)) (λ pol,
           result_bind (runtime_result (NewManager opts)) (λ _,
           result_bind (runtime_result (add_check "readiness")) (λ _,
           result_bind (runtime_result (add_check "liveness")) (λ _,
           result_bind (register_all runnables) (λ _,
           Ok (mkProcess opts ["readiness"; "liveness"] runnables image pol))))))))
      end
  end.
End start.

(** ** Properties *)
Section process.
Context {W : Type} `{!Client W Pod}.
Context (ParseDuration : string → option Duration) (env : gmap string string).
Context (NewManager : Options → option string) (add_check : string → option string).
Context (register : Runnable → option string).
#[local] Set Default Proof Using "Type*".
Abbreviation Start := (Start ParseDuration env NewManager add_check register).

(** A process that starts has ordered lease timings, watches one namespace or
    all of them, and stamps a non-empty image on what it renders. *)
Theorem started_process config n ns (w w' : W) p :
  Start config n ns w = (w', Ok p) →
  RetryPeriod (p_options p) < RenewDeadline (p_options p) < LeaseDuration (p_options p) ∧
  DefaultNamespaces (p_options p) = (if n then Some [ns] else None) ∧
  p_runnables p = runnables ∧ p_image p ≠ "".
Proof.
  unfold Runners.Start. destruct config as [cfg|e]; [|done].
  destruct (Manager.resolveLeaderElectionTimings _ _) as [t|e] eqn:Ht; [|done].
  destruct (Volumes.LookupEnvBoolOr _ _ _) as [dis|]; [|done].
  destruct (Manager.discoverControllerImage _ w) as [w1 img] eqn:Hi.
  destruct img as [image|e]; [|done]. cbn [options_result result_bind].
  destruct (Manager.resolveBrokerPullPolicy _) as [pol|e]; [|done]. cbn [options_result result_bind].
  destruct (NewManager _), (add_check "readiness"), (add_check "liveness"); try done.
  cbn [runtime_result result_bind]. destruct (register_all _ _) as [[]|e]; [|done]. cbn.
  intros [= <- <-]. cbn. destruct t as [[lease renew] retry]. cbn.
  pose proof (proj1 (Manager.timings_are_ordered ParseDuration (getenv env)) _ _ _ Ht).
  split_and!; [lia|lia|done|done|]. unfold Manager.discoverControllerImage in Hi.
  destruct (String.eqb _ ""); [done|]. destruct (String.eqb _ ""); [done|].
  destruct (Get _ w) as [w2 [pod|e]]; [|done]. injection Hi as <- Hi.
  by apply Manager.discovered_image_is_own in Hi as [? _].
Qed.

(** Only the leader acts: controller-runtime's [running] starts what needs
    leader election only on the elected process, and everything [Start]
    registers needs it; so on a follower nothing that could write runs. *)
Theorem followers_are_passive (running : Options → bool → Runnable → Prop) config n ns (w w' : W) p leader r :
  (∀ o leader r, running o leader r → LeaderElection o = true → NeedLeaderElection r = true → leader = true) →
  Start config n ns w = (w', Ok p) → LeaderElection (p_options p) = true →
  running (p_options p) leader r → leader = true.
Proof. intros Hrt _ Hle Hr. eapply Hrt; [done|done|]. by destruct r. Qed.

(** The watch set of each background component has workers: its pool never
    deadlocks, and stops when the manager cancels it. *)
Theorem background_pools_run config n ns (w w' : W) p ws ls q :
  Start config n ns w = (w', Ok p) → LeaderElectionRunner ws ∈ p_runnables p →
  steps (WorkPool.Start ws) ls q →
  ((stopped q ∧ p_done q = true) ∨ ∃ l q', step q l q' ∧ external l = false) ∧
  (p_done q = true → ∃ q', winds_down (2 + 2 * 16) q q' ∧ stopped q').
Proof.
  intros (_ & _ & -> & _)%started_process Hin Hrun.
  assert (ws_workers ws = 16) as Hw.
  { unfold runnables in Hin. rewrite !elem_of_cons in Hin.
    destruct Hin as [?|[?|[Hin|[Hin|[Hin|?%not_elem_of_nil]]]]]; try done; by injection Hin as ->. }
  split; [by apply (pool_never_stuck ws ls q Hrun); rewrite Hw|].
  intros Hd. destruct (cancelled_pool_stops ws ls q Hrun Hd) as (q' & Hq & Hs & _).
  exists q'. split; [|done]. by rewrite Hw in Hq.
Qed.
End process.

(** The gap the pacing can open between two samples of one AgentDeploy
    (see [revisit_takes_two_cycles]) stays below the age at which the
    autoscaler refuses a sample. *)
Theorem pacing_keeps_samples_fresh (n : Z) :
  let i := Sampler.SamplerOptions.taskInterval (Sampler.SamplerOptions.NewSampler []).1 in
  0 < n <= i →
  (2 * n - 1) * pause (Z.quot i n) < Autoscaler.AutoscalerOptions.maxSampleAge (Autoscaler.AutoscalerOptions.NewAutoscaler []).1.
Proof.
  cbn. intros Hn. unfold pause. rewrite Z.quot_div_nonneg by lia.
  assert (1 <= 60 * second / n) as Hq by (apply Z.div_le_lower_bound; lia).
  rewrite (proj2 (Z.leb_gt _ _)) by lia. pose proof (Z.mul_div_le (60 * second) n).
  unfold Autoscaler.defaultMaxSampleAge, minute in *. nia.
Qed.

(** With two AgentDeploys or more the averaging window does not reach back to
    the previous sample: the window is floored at the task interval, but the
    pacing alone can put more than that between two samples of a key. *)
Theorem windows_can_miss_traffic (w : WorkSet NamespacedName) k ks d :
  (map_to_list (keys w)).*1 ≡ₚ (k :: ks) → ks ≠ [] → 0 < ws_workers w →
  Sampler.minAdaptiveLookback <= taskInterval w → 2 * Z.of_nat (size (keys w)) <= taskInterval w →
  0 <= Sampler.lookbackFactor * d <= taskInterval w → in_s 64 (taskInterval w) →
  ∃ ls1 ls2 p1 p2,
    steps (WorkPool.Start w) (ls1 ++ [LHand 0 k]) p1 ∧ steps p1 (ls2 ++ [LHand 0 k]) p2 ∧
    (k ∉ handed ls2) ∧ Sampler.adaptive_window d (taskInterval w) < slept ls2.
Proof.
  intros Hk Hne Hw Hmin Hn Hd Hi.
  destruct (revisit_takes_two_cycles w k ks Hk Hw) as (l1 & l2 & p1 & p2 & H1 & H2 & H3 & Hs).
  exists l1, l2, p1, p2. split_and!; [done|done|done|]. rewrite Hs. clear Hs H1 H2 H3.
  assert (2 <= size (keys w))%nat as Hsz.
  { rewrite <- length_map_to_list, <- (length_fmap fst), Hk. destruct ks; [done|]. cbn. lia. }
  assert (Sampler.adaptive_window d (taskInterval w) = taskInterval w) as ->.
  { unfold Sampler.adaptive_window, Sampler.clampDuration. rewrite wrap_s_small by (done || (unfold in_s in *; lia)).
    unfold Sampler.maxAdaptiveLookback, Sampler.minAdaptiveLookback in *.
    destruct (Z.ltb_spec (Sampler.lookbackFactor * d) (30 * second)); [lia|].
    destruct (Z.ltb_spec (15 * minute) (Sampler.lookbackFactor * d)); lia. }
  rewrite Nat2Z.inj_sub, Nat2Z.inj_mul by lia. set (n := Z.of_nat (size (keys w))) in *.
  assert (2 <= n) by lia. unfold pause. rewrite Z.quot_div_nonneg by lia.
  assert (2 <= taskInterval w / n) by (apply Z.div_le_lower_bound; lia).
  rewrite (proj2 (Z.leb_gt _ _)) by lia.
  pose proof (Z.div_mod (taskInterval w) n). pose proof (Z.mod_pos_bound (taskInterval w) n). nia.
Qed.

(** ** Examples *)
Definition ex_keys : list NamespacedName := [mkKey "ns" "a"; mkKey "ns" "b"].
Definition ex_sampler_set : WorkSet NamespacedName :=
  foldr ws_Track (Sampler.SamplerOptions.NewSampler []).2 ex_keys.

Lemma ex_sampler_keys : ∃ k ks, (map_to_list (keys ex_sampler_set)).*1 = k :: ks ∧ ks ≠ [].
Proof. vm_compute. by do 2 eexists. Qed.

Lemma windows_can_miss_traffic_witness :
  ∃ k ls1 ls2 p1 p2,
    steps (WorkPool.Start ex_sampler_set) (ls1 ++ [LHand 0 k]) p1 ∧ steps p1 (ls2 ++ [LHand 0 k]) p2 ∧
    (k ∉ handed ls2) ∧ Sampler.adaptive_window second (taskInterval ex_sampler_set) < slept ls2.
Proof.
  destruct ex_sampler_keys as (k & ks & E & Hne). exists k.
  refine (windows_can_miss_traffic ex_sampler_set k ks second _ Hne _ _ _ _ _).
  - by rewrite E.
  - by vm_compute.
  - by vm_compute.
  - by vm_compute.
  - split; by vm_compute.
  - split; by vm_compute.
Defined.

Lemma pacing_keeps_samples_fresh_witness : (2 * 100 - 1) * pause (Z.quot (60 * second) 100) < 120 * second.
Proof. exact (pacing_keeps_samples_fresh 100 ltac:(cbn; unfold second; lia)). Defined.
End Runners.
