(* ===== verification/ScalingMetrics.v ===== *)
(** * Autoscaling metrics ([pkg/reconciler/agentdeploy/scaling/metrics/metrics.go])

    The Prometheus series of the autoscaler, one set per AgentDeploy, and the
    label sets remembered to delete them.  A vector of the client library is
    the map from the label values of its series to their values:
    [WithLabelValues] creates a series at zero, [DeletePartialMatch] removes
    every series that carries the given labels. *)
From S2P Require Import Prelude Float64 K8s Types Estimator.
#[local] Open Scope Z_scope.

Module ScalingMetrics.
#[local] Unset Default Proof Using.

(** The base labels: namespace, AgentSet, AgentDeploy. *)
Abbreviation Labels := (string * string * string)%type.
Definition directionUp := "up"%string.
Definition directionDown := "down"%string.

Record Metrics : Type := mkMetrics {
  knee : gmap Labels float64;
  confidence : gmap Labels float64;
  desiredReplicas : gmap Labels Z;
  currentReplicas : gmap Labels Z;
  samplesTotal : gmap Labels Z;
  scaleEvents : gmap (Labels * string) Z;
  labels : gmap NamespacedName Labels
}.
Definition NewMetrics : Metrics := mkMetrics ∅ ∅ ∅ ∅ ∅ ∅ ∅.

(** [Inc] of a counter series. *)
Definition inc {K} `{Countable K} (k : K) (m : gmap K Z) : gmap K Z :=
  <[k := default 0 (m !! k) + 1]> m.

Definition labels_of (ad : AgentDeploy) : Labels :=
  (ad_Namespace ad, spec_AgentSetName (ad_Spec ad), ag_Name (spec_Agent (ad_Spec ad))).

Definition remember (ad : AgentDeploy) (m : Metrics) : Metrics * Labels :=
  (mkMetrics (knee m) (confidence m) (desiredReplicas m) (currentReplicas m) (samplesTotal m)
     (scaleEvents m) (<[ad_key ad := labels_of ad]> (labels m)), labels_of ad).

(** The operations; [None] is the nil receiver. *)
Definition RecordSample (ad : AgentDeploy) (m : option Metrics) : option Metrics :=
  match m with
  | None => None
  | Some m =>
      let '(m, l) := remember ad m in
      Some (mkMetrics (knee m) (confidence m) (desiredReplicas m) (currentReplicas m)
              (inc l (samplesTotal m)) (scaleEvents m) (labels m))
  end.
Definition ObserveDecision (ad : AgentDeploy) (est : Estimator.Estimate) (current desired : Z)
    (m : option Metrics) : option Metrics :=
  match m with
  | None => None
  | Some m =>
      let '(m, l) := remember ad m in
      Some (mkMetrics (<[l := Estimator.KneePerReplica est]> (knee m))
              (<[l := Estimator.Confidence est]> (confidence m))
              (<[l := desired]> (desiredReplicas m)) (<[l := current]> (currentReplicas m))
              (samplesTotal m) (scaleEvents m) (labels m))
  end.
Definition RecordScale (ad : AgentDeploy) (up : bool) (m : option Metrics) : option Metrics :=
  match m with
  | None => None
  | Some m =>
      let '(m, l) := remember ad m in
      let dir := if up then directionUp else directionDown in
      Some (mkMetrics (knee m) (confidence m) (desiredReplicas m) (currentReplicas m)
              (samplesTotal m) (inc (l, dir) (scaleEvents m)) (labels m))
  end.

(** [DeletePartialMatch] with the base labels: the one series of a vector
    with these labels, and every direction of the scale events. *)
Definition DeletePartialMatch {V} (l : Labels) (m : gmap (Labels * string) V) : gmap (Labels * string) V :=
  filter (λ p, p.1.1 ≠ l) m.
Definition Delete (k : NamespacedName) (m : option Metrics) : option Metrics :=
  match m with
  | None => None
  | Some m =>
      match labels m !! k with
      | None => Some m
      | Some l =>
          Some (mkMetrics (delete l (knee m)) (delete l (confidence m)) (delete l (desiredReplicas m))
                  (delete l (currentReplicas m)) (delete l (samplesTotal m))
                  (DeletePartialMatch l (scaleEvents m)) (delete k (labels m)))
      end
  end.

(** ** Operations as steps *)
Inductive op : Type :=
  | OpSample (ad : AgentDeploy)
  | OpDecision (ad : AgentDeploy) (est : Estimator.Estimate) (current desired : Z)
  | OpScale (ad : AgentDeploy) (up : bool)
  | OpDelete (k : NamespacedName).
Definition apply_op (o : op) (m : option Metrics) : option Metrics :=
  match o with
  | OpSample ad => RecordSample ad m
  | OpDecision ad est c d => ObserveDecision ad est c d m
  | OpScale ad up => RecordScale ad up m
  | OpDelete k => Delete k m
  end.
Definition run (ops : list op) (m : option Metrics) : option Metrics := foldl (λ m o, apply_op o m) m ops.

(** The label sets that have a series. *)
Definition has_series (m : Metrics) (l : Labels) : Prop :=
  is_Some (knee m !! l) ∨ is_Some (confidence m !! l) ∨ is_Some (desiredReplicas m !! l) ∨
  is_Some (currentReplicas m !! l) ∨ is_Some (samplesTotal m !! l) ∨
  ∃ dir, is_Some (scaleEvents m !! (l, dir)).

(** ** No series leaks *)
Section leak.
(** The labels of an object follow from its key, and differ between keys. *)
Context (name_of : NamespacedName → Labels) `{!Inj (=) (=) name_of}.

Definition op_ok (o : op) : Prop :=
  match o with
  | OpSample ad | OpDecision ad _ _ _ | OpScale ad _ => labels_of ad = name_of (ad_key ad)
  | OpDelete _ => True
  end.
(** Every remembered label set is its key's, and every series is remembered. *)
Record accounted (m : Metrics) : Prop := {
  ac_labels k l : labels m !! k = Some l → l = name_of k;
  ac_series l : has_series m l → ∃ k, labels m !! k = Some l
}.

Lemma remembered ad (m m' : Metrics) :
  accounted m → labels_of ad = name_of (ad_key ad) →
  labels m' = <[ad_key ad := labels_of ad]> (labels m) →
  (∀ l, has_series m' l → has_series m l ∨ l = labels_of ad) → accounted m'.
Proof.
  intros [Hl Hs] Had El Hser. split.
  - intros k l. rewrite El. intros [[<- <-]|[_ ?]]%lookup_insert_Some; [done|by apply Hl].
  - intros l [Hm| ->]%Hser.
    + apply Hs in Hm as [k Hk]. exists k. rewrite El.
      destruct (decide (k = ad_key ad)) as [->|Hne]; [|by rewrite lookup_insert_ne].
      rewrite lookup_insert_eq, Had. by rewrite (Hl _ _ Hk).
    + exists (ad_key ad). by rewrite El, lookup_insert_eq.
Qed.

Lemma insert_is_Some {K V} `{Countable K} (m : gmap K V) i j x :
  is_Some (<[i := x]> m !! j) → is_Some (m !! j) ∨ j = i.
Proof. destruct (decide (j = i)) as [->|Hne]; [by right|]. rewrite lookup_insert_ne by done. by left. Qed.

Lemma apply_op_accounted o m m' :
  op_ok o → accounted m → apply_op o (Some m) = Some m' → accounted m'.
Proof.
  intros Ho Hm. destruct o as [ad|ad est c d|ad up|k]; cbn.
  - intros [= <-]. eapply remembered; [done|exact Ho|done|]. unfold has_series, inc. cbn.
    intros l [?|[?|[?|[?|[H%insert_is_Some|[dir ?]]]]]]; naive_solver.
  - intros [= <-]. eapply remembered; [done|exact Ho|done|]. unfold has_series. cbn.
    intros l [H%insert_is_Some|[H%insert_is_Some|[H%insert_is_Some|[H%insert_is_Some|[?|?]]]]];
      naive_solver.
  - intros [= <-]. eapply remembered; [done|exact Ho|done|]. unfold has_series, inc. cbn.
    intros l [?|[?|[?|[?|[?|[dir H%insert_is_Some]]]]]]; naive_solver.
  - destruct (labels m !! k) as [l0|] eqn:Ek; [|by intros [= <-]]. intros [= <-].
    destruct Hm as [Hl Hs]. split; cbn.
    + intros k' l [_ Hk']%lookup_delete_Some. by apply Hl.
    + intros l Hser. assert (l ≠ l0 ∧ has_series m l) as [Hne Hold].
      { unfold has_series, DeletePartialMatch in *. cbn in Hser.
        destruct Hser as [[x Hx]|[[x Hx]|[[x Hx]|[[x Hx]|[[x Hx]|[dir [x Hx]]]]]]];
          try (apply lookup_delete_Some in Hx as [? Hx]; split; [done|naive_solver]).
        apply map_lookup_filter_Some in Hx as [Hx Hn]. split; [done|]. naive_solver. }
      apply Hs in Hold as [k' Hk']. exists k'. apply lookup_delete_Some. split; [|done].
      intros <-. congruence.
Qed.

Lemma run_accounted ops m m' :
  Forall op_ok ops → accounted m → run ops (Some m) = Some m' → accounted m'.
Proof.
  unfold run. intros Hops. revert m. induction Hops as [|o ops Ho _ IH]; intros m Hm; cbn; [congruence|].
  destruct (apply_op o (Some m)) as [m1|] eqn:E.
  - intros Hr. eapply IH; [|exact Hr]. by eapply apply_op_accounted.
  - exfalso. clear - E. destruct o; cbn in E; try done. by case_match.
Qed.

(** Deleted AgentDeploys leave no metric series.  After any history of
    samples, decisions, scalings and deletions, in which an object's labels
    follow from its key, every series belongs to a remembered object; and
    once an object's key is deleted none of its series is left, in any
    vector and any direction, while every other object keeps all of its
    own. *)
Theorem deleted_deploys_leave_no_series ops k m m' :
  Forall op_ok ops → run ops (Some NewMetrics) = Some m → Delete k (Some m) = Some m' →
  (∀ l, has_series m l → ∃ k', labels m !! k' = Some l ∧ l = name_of k') ∧
  ¬ has_series m' (name_of k) ∧
  (∀ k', k' ≠ k → has_series m' (name_of k') ↔ has_series m (name_of k')).
Proof.
  intros Hops Hr Hd. assert (accounted m) as Hm.
  { eapply run_accounted; [exact Hops| |exact Hr]. split; [done|].
    intros l. unfold has_series. cbn. intros [[x Hx]|[[x Hx]|[[x Hx]|[[x Hx]|[[x Hx]|[dir [x Hx]]]]]]]; done. }
  assert (accounted m') as Hm' by (by eapply (apply_op_accounted (OpDelete k))).
  split_and!.
  - intros l (k' & Hk')%(ac_series m Hm). exists k'. split; [done|]. exact (ac_labels m Hm _ _ Hk').
  - intros (k' & Hk')%(ac_series m' Hm'). pose proof (ac_labels _ Hm' _ _ Hk') as E.
    apply (inj name_of) in E as <-. cbn in Hd.
    destruct (labels m !! k) as [l|] eqn:Ek; injection Hd as <-; [|congruence].
    cbn in Hk'. by rewrite lookup_delete_eq in Hk'.
  - intros k' Hne. cbn in Hd. destruct (labels m !! k) as [l|] eqn:Ek; injection Hd as <-; [|done].
    assert (name_of k' ≠ l) as Hl.
    { rewrite (ac_labels _ Hm _ _ Ek). by intros ?%(inj name_of). }
    unfold has_series, DeletePartialMatch. cbn. rewrite !lookup_delete_ne by done.
    split; intros H; repeat (destruct H as [H|H]; [naive_solver|]); do 5 right;
      destruct H as [dir [x Hx]]; exists dir, x.
    + by apply map_lookup_filter_Some in Hx as [? _].
    + by apply map_lookup_filter_Some.
Qed.
End leak.

(** ** Examples *)
Definition key_labels (k : NamespacedName) : Labels := (nn_namespace k, "set"%string, nn_name k).
#[local] Instance key_labels_inj : Inj (=) (=) key_labels.
Proof. intros [] [] [=]. by subst. Qed.
Definition ex_ad (name : string) : AgentDeploy :=
  mkAgentDeploy (new_meta "ns" name ∅ ∅ [])
    (mkAgentDeploySpec (named_agent name) "set" None zero_topology) zero_status.
Definition ex_ops : list op := [OpSample (ex_ad "a"); OpScale (ex_ad "a") true; OpSample (ex_ad "b")].

Lemma deleted_deploys_leave_no_series_witness :
  ∃ m m', run ex_ops (Some NewMetrics) = Some m ∧ Delete (mkKey "ns" "a") (Some m) = Some m' ∧
    ¬ has_series m' ("ns", "set", "a")%string.
Proof.
  destruct (run ex_ops (Some NewMetrics)) as [m|] eqn:Er; [|discriminate Er].
  destruct (Delete (mkKey "ns" "a") (Some m)) as [m'|] eqn:Ed.
  2:{ injection Er as <-. vm_compute in Ed. discriminate Ed. }
  exists m, m'. split; [reflexivity|]. split; [exact Ed|].
  destruct (deleted_deploys_leave_no_series key_labels ex_ops (mkKey "ns" "a") m m') as (_ & H & _);
    [|exact Er|exact Ed|exact H].
  by repeat constructor.
Defined.

(** An AgentDeploy whose labels change leaves the series of the old ones
    behind. *)
Definition ex_moved : AgentDeploy :=
  mkAgentDeploy (new_meta "ns" "a" ∅ ∅ [])
    (mkAgentDeploySpec (named_agent "a") "other" None zero_topology) zero_status.
Example relabelled_series_leak :
  match run [OpSample (ex_ad "a"); OpSample ex_moved; OpDelete (mkKey "ns" "a")] (Some NewMetrics) with
  | Some m => samplesTotal m !! ("ns", "set", "a")%string = Some 1 ∧ labels m = ∅
  | None => False
  end.
Proof. by vm_compute. Qed.
End ScalingMetrics.
