(* ===== verification/Clients.v ===== *)
(** * The generated clients ([pkg/client/clientset], [pkg/client/listers], [v1alpha1/register.go])

    The registration of the API types in a scheme, the clientset and the typed
    client of the group with their configuration, the fakes and the listers.
    [k8s.io/apimachinery]'s scheme and [k8s.io/client-go]'s REST, discovery,
    generic client, tracker and indexer are parameters: the classes [Scheme],
    [Rest] and [Tracker], or constructors that keep what they were given.  A
    constructor of the code may allocate (a rate limiter), so it takes and
    returns the world. *)
From S2P Require Import Prelude Webhook.
#[local] Open Scope Z_scope.
#[local] Open Scope go_scope.

Module Clients.
Import Webhook.

(** ** Group, version, kind, resource *)
Record GroupVersion : Set := mkGV { gv_Group : string; gv_Version : string }.
Record GroupVersionResource : Set := mkGVR { gvr_Group : string; gvr_Version : string; gvr_Resource : string }.
Record GroupResource : Set := mkGR { gr_Group : string; gr_Resource : string }.
#[export] Instance GV_eq_dec : EqDecision GroupVersion.
Proof. solve_decision. Defined.
#[export] Instance GVR_eq_dec : EqDecision GroupVersionResource.
Proof. solve_decision. Defined.
Definition WithKind (gv : GroupVersion) (kind : string) : GroupVersionKind := mkGVK (gv_Group gv) (gv_Version gv) kind.
Definition WithResource (gv : GroupVersion) (r : string) : GroupVersionResource := mkGVR (gv_Group gv) (gv_Version gv) r.
Definition to_GroupResource (r : GroupVersionResource) : GroupResource := mkGR (gvr_Group r) (gvr_Resource r).

Definition SchemeGroupVersion : GroupVersion := mkGV "kynomesh.kyno.sh" "v1alpha1".
Definition AgentDeployGroupVersionKind : GroupVersionKind := WithKind SchemeGroupVersion "AgentDeploy".
Definition AgentSetGroupVersionResource : GroupVersionResource := WithResource SchemeGroupVersion "agentsets".
Definition AgentDeployGroupVersionResource : GroupVersionResource := WithResource SchemeGroupVersion "agentdeploys".
Definition Resource (resource : string) : GroupResource := to_GroupResource (WithResource SchemeGroupVersion resource).

(** ** Registration *)
(** [runtime.Scheme]: a type is registered under its name, and a builder runs
    its functions in order up to the first error. *)
Class Scheme (S : Type) := {
  NewScheme : S;
  AddKnownTypes : GroupVersion → list string → S → S;
  AddToGroupVersion : GroupVersion → S → S;
  SchemeBuilder_AddToScheme : list (S → result string S) → S → result string S;
  recognizes : S → GroupVersionKind → Prop;
  NewScheme_law : ∀ k, ¬ recognizes NewScheme k;
  AddKnownTypes_law : ∀ gv ts s k, recognizes (AddKnownTypes gv ts s) k ↔ recognizes s k ∨ ∃ t, t ∈ ts ∧ k = WithKind gv t;
  (** it adds kinds of its own ([ListOptions], [WatchEvent] and the like) *)
  AddToGroupVersion_kinds : GroupVersion → list string;
  AddToGroupVersion_law : ∀ gv s k, recognizes (AddToGroupVersion gv s) k ↔
    recognizes s k ∨ ∃ t, t ∈ AddToGroupVersion_kinds gv ∧ k = WithKind gv t;
  Builder_law : ∀ fs s, SchemeBuilder_AddToScheme fs s = foldl (λ r f, let! s := r in f s) (Ok s) fs
}.

Section registration.
Context {S : Type} `{!Scheme S}.

Definition addKnownTypes (scheme : S) : result string S :=
  let scheme := AddKnownTypes SchemeGroupVersion ["AgentSet"; "AgentSetList"; "AgentDeploy"; "AgentDeployList"] scheme in
  Ok (AddToGroupVersion SchemeGroupVersion scheme).
(** [v1alpha1.AddToScheme] *)
Definition SchemeBuilder : list (S → result string S) := [addKnownTypes].
Definition v1alpha1_AddToScheme : S → result string S := SchemeBuilder_AddToScheme SchemeBuilder.
(** [scheme.AddToScheme] and the package's [init]; [None] is the panic of
    [utilruntime.Must].  The fake clientset has the same code. *)
Definition localSchemeBuilder : list (S → result string S) := [v1alpha1_AddToScheme].
Definition AddToScheme : S → result string S := SchemeBuilder_AddToScheme localSchemeBuilder.
Definition Must (r : result string S) : option S := match r with Ok s => Some s | Err _ => None end.
Definition scheme_init : option S := Must (AddToScheme (AddToGroupVersion (mkGV "" "v1") NewScheme)).
Definition fake_localSchemeBuilder : list (S → result string S) := [v1alpha1_AddToScheme].
Definition fake_AddToScheme : S → result string S := SchemeBuilder_AddToScheme fake_localSchemeBuilder.
Definition fake_scheme_init : option S := Must (fake_AddToScheme (AddToGroupVersion (mkGV "" "v1") NewScheme)).

Lemma AddToScheme_ok s : ∃ s', AddToScheme s = Ok s' ∧
  ∀ k, recognizes s' k ↔ recognizes s k ∨ (∃ t, t ∈ ["AgentSet"; "AgentSetList"; "AgentDeploy"; "AgentDeployList"] ∧ k = WithKind SchemeGroupVersion t) ∨
    ∃ t, t ∈ AddToGroupVersion_kinds SchemeGroupVersion ∧ k = WithKind SchemeGroupVersion t.
Proof.
  unfold AddToScheme, localSchemeBuilder, v1alpha1_AddToScheme, SchemeBuilder. rewrite Builder_law. cbn [foldl result_bind].
  rewrite Builder_law. cbn [foldl result_bind]. eexists. split; [done|]. intros k.
  rewrite AddToGroupVersion_law, AddKnownTypes_law. tauto.
Qed.
(** The scheme of the clientset has the kinds of the group. *)
Lemma scheme_init_ok : ∃ s, scheme_init = Some s ∧ fake_scheme_init = Some s ∧
  recognizes s AgentSetGroupVersionKind ∧ recognizes s AgentDeployGroupVersionKind ∧
  ∀ k, recognizes s k → gvk_Group k = "" ∨ gvk_Group k = gv_Group SchemeGroupVersion.
Proof.
  destruct (AddToScheme_ok (AddToGroupVersion (mkGV "" "v1") NewScheme)) as (s & Hs & Hk).
  exists s. unfold scheme_init, fake_scheme_init. change fake_AddToScheme with AddToScheme. rewrite Hs. split_and!; [done|done|..].
  - apply Hk. right. left. exists "AgentSet". split; [set_solver|done].
  - apply Hk. right. left. exists "AgentDeploy". split; [set_solver|done].
  - intros k [Hr|[(t & _ & ->)|(t & _ & ->)]]%Hk; [|by right..]. left.
    apply AddToGroupVersion_law in Hr as [Hr|(t & _ & ->)]; [|done]. by apply NewScheme_law in Hr.
Qed.
End registration.

(** ** Configuration *)
(** [rest.Config], as far as the clients read or write it; [cfg_other] is the
    rest of it. *)
Record Config {Q Lim Ser Other : Type} := mkConfig {
  cfg_UserAgent : string;
  cfg_RateLimiter : option Lim;
  cfg_QPS : Q;
  cfg_Burst : Z;
  cfg_GroupVersion : option GroupVersion;
  cfg_APIPath : string;
  cfg_NegotiatedSerializer : option Ser;
  cfg_other : Other
}.
Arguments Config : clear implicits.

(** [k8s.io/client-go]: a token bucket is a new object at every call. *)
Class Rest (W Q Lim Ser Other HTTP R D : Type) := {
  QPS_positive : Q → bool;
  DefaultKubernetesUserAgent : string;
  GeneratedSerializer : Ser;          (** [rest.CodecFactoryForGeneratedClient(scheme.Scheme, scheme.Codecs).WithoutConversion()] *)
  NewTokenBucketRateLimiter : Q → Z → W → Lim * W;
  HTTPClientFor : Config Q Lim Ser Other → result string HTTP;
  RESTClientForConfigAndClient : Config Q Lim Ser Other → HTTP → result string R;
  NewDiscoveryClientForConfigAndClient : Config Q Lim Ser Other → HTTP → result string D;
  NewDiscoveryClient : R → D
}.

Section clients.
Context {W Q Lim Ser Other HTTP R D : Type} `{!Rest W Q Lim Ser Other HTTP R D}.
Implicit Types (c : Config Q Lim Ser Other).

Definition set_UserAgent (ua : string) c : Config Q Lim Ser Other :=
  mkConfig Q Lim Ser Other ua (cfg_RateLimiter c) (cfg_QPS c) (cfg_Burst c) (cfg_GroupVersion c) (cfg_APIPath c) (cfg_NegotiatedSerializer c) (cfg_other c).
Definition set_RateLimiter (l : Lim) c : Config Q Lim Ser Other :=
  mkConfig Q Lim Ser Other (cfg_UserAgent c) (Some l) (cfg_QPS c) (cfg_Burst c) (cfg_GroupVersion c) (cfg_APIPath c) (cfg_NegotiatedSerializer c) (cfg_other c).

(** ** The client of the group ([kynomesh_client.go]) *)
(** An interface holds nothing, or a pointer of some type, which may be nil. *)
Definition Iface (A : Type) : Type := option (option A).
Record KynomeshV1alpha1Client := mkV1Client { restClient : Iface R }.

Definition setConfigDefaults c : Config Q Lim Ser Other :=
  let config := mkConfig Q Lim Ser Other (cfg_UserAgent c) (cfg_RateLimiter c) (cfg_QPS c) (cfg_Burst c)
    (Some SchemeGroupVersion) "/apis" (Some GeneratedSerializer) (cfg_other c) in
  if String.eqb (cfg_UserAgent config) "" then set_UserAgent DefaultKubernetesUserAgent config else config.
Definition v1_NewForConfigAndClient c (h : HTTP) : result string KynomeshV1alpha1Client :=
  let config := setConfigDefaults c in
  let! client := RESTClientForConfigAndClient config h in
  Ok (mkV1Client (Some (Some client))).
Definition v1_NewForConfig c : result string KynomeshV1alpha1Client :=
  let config := setConfigDefaults c in
  let! httpClient := HTTPClientFor config in
  v1_NewForConfigAndClient config httpClient.
(** [None] is a panic. *)
Definition v1_NewForConfigOrDie c : option KynomeshV1alpha1Client :=
  match v1_NewForConfig c with Ok client => Some client | Err _ => None end.
Definition v1_New (c : Iface R) : KynomeshV1alpha1Client := mkV1Client c.
Definition RESTClient (c : option KynomeshV1alpha1Client) : Iface R :=
  match c with None => None | Some c => restClient c end.

(** The typed clients: what [gentype.NewClientWithList] is given. *)
Record ClientWithList := mkClientWithList {
  tc_resource : string;
  tc_client : Iface R;
  tc_namespace : string;
  tc_object : string;
  tc_list : string
}.
Definition newAgentDeploys (c : option KynomeshV1alpha1Client) (namespace : string) : ClientWithList :=
  mkClientWithList "agentdeploys" (RESTClient c) namespace "AgentDeploy" "AgentDeployList".
Definition newAgentSets (c : option KynomeshV1alpha1Client) (namespace : string) : ClientWithList :=
  mkClientWithList "agentsets" (RESTClient c) namespace "AgentSet" "AgentSetList".
Definition AgentDeploys (c : option KynomeshV1alpha1Client) (namespace : string) : ClientWithList := newAgentDeploys c namespace.
Definition AgentSets (c : option KynomeshV1alpha1Client) (namespace : string) : ClientWithList := newAgentSets c namespace.

(** ** The clientset ([clientset.go]) *)
Record Clientset := mkClientset { cs_DiscoveryClient : option D; cs_kynomeshV1alpha1 : option KynomeshV1alpha1Client }.
Definition KynomeshV1alpha1 (c : Clientset) : Iface KynomeshV1alpha1Client := Some (cs_kynomeshV1alpha1 c).
Definition Discovery (c : option Clientset) : Iface D :=
  match c with None => None | Some c => Some (cs_DiscoveryClient c) end.

Definition burst_required : string :=
  "burst is required to be greater than 0 when RateLimiter is not set and QPS is set to greater than 0".
Definition NewForConfigAndClient c (httpClient : HTTP) (w : W) : result string Clientset * W :=
  let wants := bool_decide (cfg_RateLimiter c = None) && QPS_positive (cfg_QPS c) in
  if wants && (cfg_Burst c <=? 0) then (Err burst_required, w)
  else
    let '(configShallowCopy, w) :=
      if wants then let '(l, w) := NewTokenBucketRateLimiter (cfg_QPS c) (cfg_Burst c) w in (set_RateLimiter l c, w) else (c, w) in
    match v1_NewForConfigAndClient configShallowCopy httpClient with
    | Err e => (Err e, w)
    | Ok v1 =>
        match NewDiscoveryClientForConfigAndClient configShallowCopy httpClient with
        | Err e => (Err e, w)
        | Ok d => (Ok (mkClientset (Some d) (Some v1)), w)
        end
    end.
Definition NewForConfig c (w : W) : result string Clientset * W :=
  let configShallowCopy := if String.eqb (cfg_UserAgent c) "" then set_UserAgent DefaultKubernetesUserAgent c else c in
  match HTTPClientFor configShallowCopy with
  | Err e => (Err e, w)
  | Ok httpClient => NewForConfigAndClient configShallowCopy httpClient w
  end.
Definition NewForConfigOrDie c (w : W) : option Clientset * W :=
  match NewForConfig c w with (Ok cs, w) => (Some cs, w) | (Err _, w) => (None, w) end.
Definition New (c : R) : Clientset := mkClientset (Some (NewDiscoveryClient c)) (Some (v1_New (Some (Some c)))).

(** What the two clients of a clientset are built from: one configuration, so
    one rate limiter, and one HTTP client. *)
Lemma NewForConfigAndClient_shares c h w cs w' : NewForConfigAndClient c h w = (Ok cs, w') →
  ∃ c' r d, cs = mkClientset (Some d) (Some (mkV1Client (Some (Some r)))) ∧
    RESTClientForConfigAndClient (setConfigDefaults c') h = Ok r ∧ NewDiscoveryClientForConfigAndClient c' h = Ok d ∧
    (c' = c ∧ w' = w ∨ ∃ l, NewTokenBucketRateLimiter (cfg_QPS c) (cfg_Burst c) w = (l, w') ∧ c' = set_RateLimiter l c ∧
       cfg_RateLimiter c = None ∧ QPS_positive (cfg_QPS c) = true ∧ 0 < cfg_Burst c) ∧
    (cfg_RateLimiter c' = None → cfg_RateLimiter c = None ∧ QPS_positive (cfg_QPS c) = false).
Proof.
  unfold NewForConfigAndClient, v1_NewForConfigAndClient. intros Hn.
  destruct (bool_decide_reflect (cfg_RateLimiter c = None)) as [Hl|Hl]; cbn [andb] in Hn;
    [destruct (QPS_positive (cfg_QPS c)) eqn:Hq; cbn [andb] in Hn|].
  - destruct (Z.leb_spec (cfg_Burst c) 0); [done|]. destruct (NewTokenBucketRateLimiter _ _ w) as [l w1] eqn:El.
    destruct (RESTClientForConfigAndClient _ h) as [r|] eqn:Er; cbn [result_bind] in Hn; [|done].
    destruct (NewDiscoveryClientForConfigAndClient _ h) as [d|] eqn:Ed; [|done]. injection Hn as <- <-.
    exists (set_RateLimiter l c), r, d. split_and!; try done. right. by exists l.
  - destruct (RESTClientForConfigAndClient _ h) as [r|] eqn:Er; cbn [result_bind] in Hn; [|done].
    destruct (NewDiscoveryClientForConfigAndClient _ h) as [d|] eqn:Ed; [|done]. injection Hn as <- <-. exists c, r, d. split_and!; try done. by left.
  - destruct (RESTClientForConfigAndClient _ h) as [r|] eqn:Er; cbn [result_bind] in Hn; [|done].
    destruct (NewDiscoveryClientForConfigAndClient _ h) as [d|] eqn:Ed; [|done]. injection Hn as <- <-. exists c, r, d. split_and!; try done. by left.
Qed.
End clients.

(** ** The fakes *)
(** An action recorded by [testing.Fake]: its resource and namespace, and the
    options when it is a watch. *)
Inductive Action {LO : Type} :=
  | WatchActionImpl (resource : GroupVersionResource) (namespace : string) (ListOptions : LO)
  | OtherAction (resource : GroupVersionResource) (namespace : string).
Arguments Action : clear implicits.
Definition GetResource {LO} (a : Action LO) : GroupVersionResource :=
  match a with WatchActionImpl r _ _ | OtherAction r _ => r end.
Definition GetNamespace {LO} (a : Action LO) : string := match a with WatchActionImpl _ n _ | OtherAction _ n => n end.

(** [testing.ObjectTracker]: the objects, and the watches on them. *)
Class Tracker (T Obj LO Wt : Type) := {
  NewObjectTracker : T;
  Tracker_Add : Obj → T → result string T;
  Tracker_Watch : GroupVersionResource → string → LO → T → result string Wt;
  zero_ListOptions : LO
}.

Section fakes.
Context {T Obj LO Wt : Type} `{!Tracker T Obj LO Wt}.

(** [testing.Fake]: the reactions, each with the verb and the resource it is
    for.  A reaction works on the tracker as it is when it runs. *)
Inductive Reaction := ObjectReaction.
Record Fake := mkFake {
  ReactionChain : list (string * string * Reaction);
  WatchReactionChain : list (string * (T → Action LO → bool * option Wt * option string))
}.
Record FakeClientset := mkFakeClientset { fc_Fake : Fake; fc_tracker : T }.

Definition watch_reaction (o : T) (action : Action LO) : bool * option Wt * option string :=
  let opts := match action with WatchActionImpl _ _ opts => opts | OtherAction _ _ => zero_ListOptions end in
  match Tracker_Watch (GetResource action) (GetNamespace action) opts o with
  | Err e => (false, None, Some e)
  | Ok watch => (true, Some watch, None)
  end.
(** [None] is the panic on an object the tracker refuses. *)
Definition add_all (objects : list Obj) : result string T := foldl (λ r obj, let! o := r in Tracker_Add obj o) (Ok NewObjectTracker) objects.
Definition NewSimpleClientset (objects : list Obj) : option FakeClientset :=
  match add_all objects with
  | Err _ => None
  | Ok o => Some (mkFakeClientset (mkFake [("*", "*", ObjectReaction)] [("*", watch_reaction)]) o)
  end.
Definition fake_Tracker (c : FakeClientset) : T := fc_tracker c.
Definition IsWatchListSemanticsUnSupported (c : FakeClientset) : bool := true.
Definition fake_KynomeshV1alpha1 (c : FakeClientset) : Fake := fc_Fake c.
(** [var ret *rest.RESTClient; return ret]: an interface with a nil pointer. *)
Definition fake_RESTClient {R} (c : Fake) : Iface R := Some None.

(** The typed fakes: what [gentype.NewFakeClientWithList] is given.  A list
    object has its metadata and its items. *)
Record FakeClientWithList {Meta Item : Type} := mkFakeClientWithList {
  ft_Fake : Fake;
  ft_namespace : string;
  ft_resource : GroupVersionResource;
  ft_kind : GroupVersionKind;
  ft_copyListMeta : (Meta * list Item) → (Meta * list Item) → Meta * list Item;
  ft_getItems : Meta * list Item → list Item;
  ft_setItems : Meta * list Item → list Item → Meta * list Item
}.
Definition newFakeAgentDeploys {Meta Item} (fake : Fake) (namespace : string) : FakeClientWithList (Meta := Meta) (Item := Item) :=
  mkFakeClientWithList _ _ fake namespace (WithResource SchemeGroupVersion "agentdeploys") (WithKind SchemeGroupVersion "AgentDeploy")
    (λ dst src, (src.1, dst.2)) (λ list, list.2) (λ list items, (list.1, items)).
Definition newFakeAgentSets {Meta Item} (fake : Fake) (namespace : string) : FakeClientWithList (Meta := Meta) (Item := Item) :=
  mkFakeClientWithList _ _ fake namespace (WithResource SchemeGroupVersion "agentsets") (WithKind SchemeGroupVersion "AgentSet")
    (λ dst src, (src.1, dst.2)) (λ list, list.2) (λ list items, (list.1, items)).

(** The watches of a fake are the tracker's, on what is asked. *)
Lemma fake_watch objects c r n opts : NewSimpleClientset objects = Some c →
  map (λ rw, rw.2 (fake_Tracker c) (WatchActionImpl r n opts)) (WatchReactionChain (fc_Fake c)) =
    [match Tracker_Watch r n opts (fake_Tracker c) with Ok w => (true, Some w, None) | Err e => (false, None, Some e) end].
Proof. unfold NewSimpleClientset. destruct (add_all objects) as [o|]; [|done]. by intros [= <-]. Qed.
End fakes.

(** ** Listers *)
(** [listers.ResourceIndexer]: an indexer, the resource of its errors and the
    namespace it is limited to. *)
Record ResourceIndexer {Ix : Type} := mkResourceIndexer { ri_indexer : Ix; ri_resource : GroupResource; ri_namespace : string }.
Arguments ResourceIndexer : clear implicits.
Definition listers_New {Ix} (indexer : Ix) (resource : GroupResource) : ResourceIndexer Ix := mkResourceIndexer _ indexer resource "".
Definition NewNamespaced {Ix} (l : ResourceIndexer Ix) (namespace : string) : ResourceIndexer Ix :=
  mkResourceIndexer _ (ri_indexer l) (ri_resource l) namespace.
Definition NewAgentDeployLister {Ix} (indexer : Ix) : ResourceIndexer Ix := listers_New indexer (Resource "agentdeploy").
Definition lister_AgentDeploys {Ix} (s : ResourceIndexer Ix) (namespace : string) : ResourceIndexer Ix := NewNamespaced s namespace.
Definition NewAgentSetLister {Ix} (indexer : Ix) : ResourceIndexer Ix := listers_New indexer (Resource "agentset").
Definition lister_AgentSets {Ix} (s : ResourceIndexer Ix) (namespace : string) : ResourceIndexer Ix := NewNamespaced s namespace.
End Clients.
