(* ===== verification/Informers.v ===== *)
(** * The shared informer factory ([pkg/client/informers/externalversions])

    The factory keeps one informer per Go type, starts every informer once and
    waits for them when it shuts down; the typed and the generic accessors go
    through it.  [k8s.io/client-go/tools/cache] is a parameter: an informer is
    an object on a heap that keeps what it was built from, a typed informer a
    wrapper around another one.  The mutex is not reentrant, so an operation
    that takes it twice would block for ever ([None]).  A step relation
    interleaves the operations of many callers with the ends of the informers'
    goroutines. *)
From S2P Require Import Prelude Webhook Clients.
#[local] Open Scope Z_scope.
#[local] Open Scope go_scope.

Module Informers.
Import Webhook Clients.

(** An informer as a Go value: the shared object, or a typed wrapper. *)
Inductive InformerV := Shared (r : nat) | Typed (T : string) (i : InformerV).
#[export] Instance InformerV_eq_dec : EqDecision InformerV.
Proof. solve_decision. Defined.
Fixpoint underlying (i : InformerV) : nat := match i with Shared r => r | Typed _ i => underlying i end.
(** [cache.NewTypedSharedIndexInformer] *)
Definition NewTypedSharedIndexInformer (T : string) (i : InformerV) : InformerV := Typed T i.

(** A resource of the group: its Go type and its plural. *)
Record Kind := mkKind { k_type : string; k_plural : string }.
Definition agentDeploy : Kind := mkKind "*v1alpha1.AgentDeploy" "agentdeploys".
Definition agentSet : Kind := mkKind "*v1alpha1.AgentSet" "agentsets".

Section informers.
(** Clients, list options, contexts and transform functions. *)
Context {Cl LO Ctx TF Res : Type} `{!GoRange}.
Context (client_List client_Watch : Cl → GroupVersionResource → string → Ctx → LO → Res) (Background : Ctx).

Record ListWatch := mkListWatch {
  ListFunc : LO → Res;
  WatchFunc : LO → Res;
  ListWithContextFunc : Ctx → LO → Res;
  WatchFuncWithContext : Ctx → LO → Res
}.
Record Informer := mkInformer {
  inf_ListWatch : ListWatch;
  inf_client : Cl;
  inf_type : string;
  inf_ResyncPeriod : Z;
  inf_Indexers : list string;
  inf_Identifier : option string * GroupVersionResource;
  inf_transform : option TF
}.
Record InformerOptions := mkInformerOptions {
  io_ResyncPeriod : Z;
  io_Indexers : list string;
  io_InformerName : option string;
  io_TweakListOptions : option (LO → LO)
}.

(** ** The factory *)
Record sharedInformerFactory := mkFactory {
  f_client : Cl;
  f_namespace : string;
  f_tweakListOptions : option (LO → LO);
  f_lock : bool;
  f_defaultResync : Z;
  f_customResync : gmap string Z;
  f_transform : option TF;
  f_informerName : option string;
  f_informers : gmap string InformerV;
  f_startedInformers : gmap string bool;
  f_shuttingDown : bool
}.
(** A goroutine in [RunWithContext]; [wg] counts those alive. *)
Record Run := mkRun { run_informer : nat; run_ctx : Ctx; run_alive : bool }.
Record state := mkState { st_factory : sharedInformerFactory; st_heap : list Informer; st_runs : list Run }.

Definition set_options (ns : string) (tweak : option (LO → LO)) (custom : gmap string Z) (tr : option TF) (name : option string)
    (f : sharedInformerFactory) : sharedInformerFactory :=
  mkFactory (f_client f) ns tweak (f_lock f) (f_defaultResync f) custom tr name (f_informers f) (f_startedInformers f) (f_shuttingDown f).
Definition set_lock (b : bool) (s : state) : state :=
  let f := st_factory s in
  mkState (mkFactory (f_client f) (f_namespace f) (f_tweakListOptions f) b (f_defaultResync f) (f_customResync f) (f_transform f)
    (f_informerName f) (f_informers f) (f_startedInformers f) (f_shuttingDown f)) (st_heap s) (st_runs s).
Definition set_informers (m : gmap string InformerV) (s : state) : state :=
  let f := st_factory s in
  mkState (mkFactory (f_client f) (f_namespace f) (f_tweakListOptions f) (f_lock f) (f_defaultResync f) (f_customResync f) (f_transform f)
    (f_informerName f) m (f_startedInformers f) (f_shuttingDown f)) (st_heap s) (st_runs s).
Definition set_started (m : gmap string bool) (s : state) : state :=
  let f := st_factory s in
  mkState (mkFactory (f_client f) (f_namespace f) (f_tweakListOptions f) (f_lock f) (f_defaultResync f) (f_customResync f) (f_transform f)
    (f_informerName f) (f_informers f) m (f_shuttingDown f)) (st_heap s) (st_runs s).
Definition set_shuttingDown (s : state) : state :=
  let f := st_factory s in
  mkState (mkFactory (f_client f) (f_namespace f) (f_tweakListOptions f) (f_lock f) (f_defaultResync f) (f_customResync f) (f_transform f)
    (f_informerName f) (f_informers f) (f_startedInformers f) true) (st_heap s) (st_runs s).
Definition set_heap (h : list Informer) (s : state) : state := mkState (st_factory s) h (st_runs s).
Definition set_runs (r : list Run) (s : state) : state := mkState (st_factory s) (st_heap s) r.

(** Options *)
Definition SharedInformerOption : Type := sharedInformerFactory → sharedInformerFactory.
Definition WithCustomResyncConfig (resyncConfig : gmap string Z) : SharedInformerOption := λ f,
  set_options (f_namespace f) (f_tweakListOptions f)
    (foldl (λ m kv, <[kv.1 := kv.2]> m) (f_customResync f) (range_map resyncConfig)) (f_transform f) (f_informerName f) f.
Definition WithTweakListOptions (tweak : option (LO → LO)) : SharedInformerOption := λ f,
  set_options (f_namespace f) tweak (f_customResync f) (f_transform f) (f_informerName f) f.
Definition WithNamespace (namespace : string) : SharedInformerOption := λ f,
  set_options namespace (f_tweakListOptions f) (f_customResync f) (f_transform f) (f_informerName f) f.
Definition WithTransform (transform : option TF) : SharedInformerOption := λ f,
  set_options (f_namespace f) (f_tweakListOptions f) (f_customResync f) transform (f_informerName f) f.
Definition WithInformerName (name : option string) : SharedInformerOption := λ f,
  set_options (f_namespace f) (f_tweakListOptions f) (f_customResync f) (f_transform f) name f.
Definition InformerName (s : state) : option string := f_informerName (st_factory s).

Definition NewSharedInformerFactoryWithOptions (client : Cl) (defaultResync : Z) (options : list SharedInformerOption) : sharedInformerFactory :=
  foldl (λ f opt, opt f) (mkFactory client "" None false defaultResync ∅ None None ∅ ∅ false) options.
Definition NewSharedInformerFactory (client : Cl) (defaultResync : Z) : sharedInformerFactory :=
  NewSharedInformerFactoryWithOptions client defaultResync [].
Definition NewFilteredSharedInformerFactory (client : Cl) (defaultResync : Z) (namespace : string) (tweak : option (LO → LO)) : sharedInformerFactory :=
  NewSharedInformerFactoryWithOptions client defaultResync [WithNamespace namespace; WithTweakListOptions tweak].

(** [f.lock.Lock(); defer f.lock.Unlock()] around a body; [None]: blocked for ever. *)
Definition with_lock {A} (body : state → option (A * state)) (s : state) : option (A * state) :=
  if f_lock (st_factory s) then None
  else '(a, s) ← body (set_lock true s); Some (a, set_lock false s).

Definition NewInformerFunc : Type := Cl → Z → state → option (InformerV * state).
(** [informer.SetTransform] *)
Definition SetTransform (tr : TF) (i : InformerV) (s : state) : state :=
  set_heap (alter (λ o, mkInformer (inf_ListWatch o) (inf_client o) (inf_type o) (inf_ResyncPeriod o) (inf_Indexers o) (inf_Identifier o) (Some tr))
    (underlying i) (st_heap s)) s.
Definition InformerFor (informerType : string) (newFunc : NewInformerFunc) : state → option (InformerV * state) := with_lock (λ s,
  let f := st_factory s in
  match f_informers f !! informerType with
  | Some informer => Some (informer, s)
  | None =>
      let resyncPeriod := default (f_defaultResync f) (f_customResync f !! informerType) in
      '(informer, s) ← newFunc (f_client f) resyncPeriod s;
      let s := match f_transform f with Some tr => SetTransform tr informer s | None => s end in
      Some (informer, set_informers (<[informerType := informer]> (f_informers (st_factory s))) s)
  end).

Definition start_one (ctx : Ctx) (s : state) (ti : string * InformerV) : state :=
  if default false (f_startedInformers (st_factory s) !! ti.1) then s
  else
    let s := set_runs (st_runs s ++ [mkRun (underlying ti.2) ctx true]) s in
    set_started (<[ti.1 := true]> (f_startedInformers (st_factory s))) s.
Definition StartWithContext (ctx : Ctx) : state → option (unit * state) := with_lock (λ s,
  if f_shuttingDown (st_factory s) then Some (tt, s)
  else Some (tt, foldl (start_one ctx) s (range_map (f_informers (st_factory s))))).
(** [ContextForChannel] turns the channel into a context. *)
Definition Start {Ch} (ContextForChannel : Ch → Ctx) (stopCh : Ch) : state → option (unit * state) := StartWithContext (ContextForChannel stopCh).

(** [Shutdown]: the flag under the lock, then [wg.Wait()]. *)
Definition Shutdown_begin : state → option (unit * state) := with_lock (λ s, Some (tt, set_shuttingDown s)).
Definition Shutdown_returns (s : state) : bool := forallb (λ r, negb (run_alive r)) (st_runs s).

(** ** Waiting for the caches *)
Record SyncResult := mkSyncResult { sr_Synced : gmap string bool; sr_Err : option string }.
Definition startedInformers (s : state) : option (gmap string InformerV * state) := with_lock (λ s,
  let f := st_factory s in
  Some (foldl (λ m ti, if default false (f_startedInformers f !! ti.1) then <[ti.1 := ti.2]> m else m) ∅ (range_map (f_informers f)), s)) s.
(** After [cache.WaitFor]: [HasSynced] as it answers then, and the context's cause. *)
Definition sync_result (informers : gmap string InformerV) (HasSynced : nat → bool) (Cause : option string) : SyncResult :=
  let '(synced, failed) := foldl (λ '(m, failed) ti,
      let hasSynced := HasSynced (underlying ti.2) in (<[ti.1 := hasSynced]> m, if hasSynced then failed else true))
    (∅, false) (range_map informers) in
  mkSyncResult synced (if failed : bool then Cause else None).
Definition WaitForCacheSyncWithContext (HasSynced : nat → bool) (Cause : option string) (s : state) : option (SyncResult * state) :=
  '(informers, s) ← startedInformers s;
  Some (sync_result informers HasSynced Cause, s).
Definition WaitForCacheSync (HasSynced : nat → bool) (Cause : option string) (s : state) : option (gmap string bool * state) :=
  '(r, s) ← WaitForCacheSyncWithContext HasSynced Cause s;
  Some (sr_Synced r, s).

(** ** Typed informers ([agentdeploy.go], [agentset.go]) *)
Definition tweaked (tweak : option (LO → LO)) (opts : LO) : LO := match tweak with Some t => t opts | None => opts end.
Definition NewTypedInformerWithOptions (k : Kind) (client : Cl) (namespace : string) (options : InformerOptions) (s : state) : InformerV * state :=
  let gvr := mkGVR "kynomesh.kyno.sh" "v1alpha1" (k_plural k) in
  let identifier := (io_InformerName options, gvr) in
  let tweakListOptions := io_TweakListOptions options in
  let resource := WithResource SchemeGroupVersion (k_plural k) in
  let lw := mkListWatch
    (λ opts, client_List client resource namespace Background (tweaked tweakListOptions opts))
    (λ opts, client_Watch client resource namespace Background (tweaked tweakListOptions opts))
    (λ ctx opts, client_List client resource namespace ctx (tweaked tweakListOptions opts))
    (λ ctx opts, client_Watch client resource namespace ctx (tweaked tweakListOptions opts)) in
  let o := mkInformer lw client (k_type k) (io_ResyncPeriod options) (io_Indexers options) identifier None in
  (NewTypedSharedIndexInformer (k_type k) (Shared (length (st_heap s))), set_heap (st_heap s ++ [o]) s).
Definition NewAgentDeployInformerWithOptions := NewTypedInformerWithOptions agentDeploy.
Definition NewTypedAgentDeployInformerWithOptions := NewTypedInformerWithOptions agentDeploy.
Definition NewAgentDeployInformer client namespace resyncPeriod indexers :=
  NewAgentDeployInformerWithOptions client namespace (mkInformerOptions resyncPeriod indexers None None).
Definition NewTypedAgentDeployInformer client namespace resyncPeriod indexers :=
  NewTypedAgentDeployInformerWithOptions client namespace (mkInformerOptions resyncPeriod indexers None None).
Definition NewFilteredAgentDeployInformer client namespace resyncPeriod indexers tweak :=
  NewTypedAgentDeployInformerWithOptions client namespace (mkInformerOptions resyncPeriod indexers None tweak).
Definition NewTypedFilteredAgentDeployInformer client namespace resyncPeriod indexers tweak :=
  NewTypedAgentDeployInformerWithOptions client namespace (mkInformerOptions resyncPeriod indexers None tweak).
Definition NewAgentSetInformerWithOptions := NewTypedInformerWithOptions agentSet.
Definition NewTypedAgentSetInformerWithOptions := NewTypedInformerWithOptions agentSet.
Definition NewAgentSetInformer client namespace resyncPeriod indexers :=
  NewAgentSetInformerWithOptions client namespace (mkInformerOptions resyncPeriod indexers None None).
Definition NewTypedAgentSetInformer client namespace resyncPeriod indexers :=
  NewTypedAgentSetInformerWithOptions client namespace (mkInformerOptions resyncPeriod indexers None None).
Definition NewFilteredAgentSetInformer client namespace resyncPeriod indexers tweak :=
  NewTypedAgentSetInformerWithOptions client namespace (mkInformerOptions resyncPeriod indexers None tweak).
Definition NewTypedFilteredAgentSetInformer client namespace resyncPeriod indexers tweak :=
  NewTypedAgentSetInformerWithOptions client namespace (mkInformerOptions resyncPeriod indexers None tweak).

(** [agentDeployInformer] and [agentSetInformer]; the factory is the state. *)
Record kindInformer := mkKindInformer { ki_kind : Kind; ki_tweakListOptions : option (LO → LO); ki_namespace : string }.
(** [cache.Indexers{cache.NamespaceIndex: cache.MetaNamespaceIndexFunc}] *)
Definition NamespaceIndexers : list string := ["namespace"].
Definition defaultInformer (f : kindInformer) : NewInformerFunc := λ client resyncPeriod s,
  Some (NewTypedInformerWithOptions (ki_kind f) client (ki_namespace f)
    (mkInformerOptions resyncPeriod NamespaceIndexers (InformerName s) (ki_tweakListOptions f)) s).
Definition TypedInformer (f : kindInformer) (s : state) : option (InformerV * state) :=
  '(i, s) ← InformerFor (k_type (ki_kind f)) (defaultInformer f) s;
  Some (NewTypedSharedIndexInformer (k_type (ki_kind f)) i, s).
Definition Informer_of (f : kindInformer) (s : state) : option (InformerV * state) := TypedInformer f s.
(** A lister on the indexer of the shared informer. *)
Definition AgentDeploy_Lister (f : kindInformer) (s : state) : option (ResourceIndexer nat * state) :=
  '(i, s) ← Informer_of f s; Some (NewAgentDeployLister (underlying i), s).
Definition AgentSet_Lister (f : kindInformer) (s : state) : option (ResourceIndexer nat * state) :=
  '(i, s) ← Informer_of f s; Some (NewAgentSetLister (underlying i), s).

(** [Kynomesh().V1alpha1().AgentDeploys()] *)
Record group := mkGroup { g_namespace : string; g_tweakListOptions : option (LO → LO) }.
Definition Kynomesh (s : state) : group := mkGroup (f_namespace (st_factory s)) (f_tweakListOptions (st_factory s)).
Definition V1alpha1 (g : group) : group := mkGroup (g_namespace g) (g_tweakListOptions g).
Definition v_AgentDeploys (v : group) : kindInformer := mkKindInformer agentDeploy (g_tweakListOptions v) (g_namespace v).
Definition v_AgentSets (v : group) : kindInformer := mkKindInformer agentSet (g_tweakListOptions v) (g_namespace v).

(** Conversions of informers from elsewhere: a value that has a typed accessor
    is kept, another one is adapted. *)
Inductive AnyInformer := OfFactory (f : kindInformer) | Foreign (i : InformerV) | Adapter (i : InformerV).
Definition ToTypedInformer (informer : AnyInformer) : AnyInformer := match informer with Foreign i => Adapter i | typed => typed end.
Definition any_TypedInformer (T : string) (a : AnyInformer) (s : state) : option (InformerV * state) :=
  match a with
  | OfFactory f => TypedInformer f s
  | Adapter i => Some (NewTypedSharedIndexInformer T i, s)
  | Foreign _ => None
  end.
Definition ToIndexInformer (T : string) (informer : InformerV) : InformerV :=
  match informer with
  | Typed T' _ => if String.eqb T' T then informer else NewTypedSharedIndexInformer T informer
  | Shared _ => NewTypedSharedIndexInformer T informer
  end.
Definition ToTypedAgentDeployInformer := ToTypedInformer.
Definition ToAgentDeployIndexInformer := ToIndexInformer (k_type agentDeploy).
Definition ToTypedAgentSetInformer := ToTypedInformer.
Definition ToAgentSetIndexInformer := ToIndexInformer (k_type agentSet).

(** ** Generic informers ([generic.go]) *)
(** [GroupVersionResource.String] *)
Definition gvr_String (r : GroupVersionResource) : string := gvr_Group r +:+ "/" +:+ gvr_Version r +:+ ", Resource=" +:+ gvr_Resource r.
Record genericInformer := mkGenericInformer { gi_informer : InformerV; gi_resource : GroupResource }.
Definition gi_Lister (f : genericInformer) : ResourceIndexer nat := listers_New (underlying (gi_informer f)) (gi_resource f).
Definition ForResource (resource : GroupVersionResource) (s : state) : option (result string genericInformer * state) :=
  if decide (resource = WithResource SchemeGroupVersion "agentdeploys") then
    '(i, s) ← Informer_of (v_AgentDeploys (V1alpha1 (Kynomesh s))) s; Some (Ok (mkGenericInformer i (to_GroupResource resource)), s)
  else if decide (resource = WithResource SchemeGroupVersion "agentsets") then
    '(i, s) ← Informer_of (v_AgentSets (V1alpha1 (Kynomesh s))) s; Some (Ok (mkGenericInformer i (to_GroupResource resource)), s)
  else Some (Err ("no informer found for " +:+ gvr_String resource), s).

(** ** Interleavings *)
(** One operation of some caller, or the end of a goroutine. *)
Definition run_ends (i : nat) (s : state) : state :=
  set_runs (alter (λ r, mkRun (run_informer r) (run_ctx r) false) i (st_runs s)) s.
Inductive step : state → state → Prop :=
  | step_informer f v s s' : TypedInformer f s = Some (v, s') → step s s'
  | step_resource r v s s' : ForResource r s = Some (v, s') → step s s'
  | step_start ctx s s' : StartWithContext ctx s = Some (tt, s') → step s s'
  | step_shutdown s s' : Shutdown_begin s = Some (tt, s') → step s s'
  | step_wait synced cause r s s' : WaitForCacheSyncWithContext synced cause s = Some (r, s') → step s s'
  | step_ends i s : step s (run_ends i s).
Definition steps : state → state → Prop := rtc step.
(** The options of the package. *)
Inductive option_of : SharedInformerOption → Prop :=
  | opt_resync m : option_of (WithCustomResyncConfig m)
  | opt_tweak t : option_of (WithTweakListOptions t)
  | opt_namespace n : option_of (WithNamespace n)
  | opt_transform t : option_of (WithTransform t)
  | opt_name n : option_of (WithInformerName n).
Inductive reachable : state → Prop :=
  | reachable_new client resync options : Forall option_of options →
      reachable (mkState (NewSharedInformerFactoryWithOptions client resync options) [] [])
  | reachable_step s s' : reachable s → step s s' → reachable s'.

(** The runs there are, dead or alive, as informers. *)
Definition run_of (s : state) : list nat := run_informer <$> st_runs s.
Record core (s : state) : Prop := {
  inv_objects : ∀ T v, f_informers (st_factory s) !! T = Some v → ∃ o, st_heap s !! underlying v = Some o ∧ inf_type o = T ∧
    inf_ResyncPeriod o = default (f_defaultResync (st_factory s)) (f_customResync (st_factory s) !! T) ∧ inf_transform o = f_transform (st_factory s);
  inv_started : ∀ T, f_startedInformers (st_factory s) !! T = Some true → ∃ v, f_informers (st_factory s) !! T = Some v ∧ underlying v ∈ run_of s;
  inv_runs : ∀ r, r ∈ run_of s → ∃ T v, f_informers (st_factory s) !! T = Some v ∧ underlying v = r ∧ f_startedInformers (st_factory s) !! T = Some true;
  inv_once : NoDup (run_of s)
}.
Definition inv (s : state) : Prop := core s ∧ f_lock (st_factory s) = false.
#[local] Unset Default Proof Using.

(** What never changes, and what only grows. *)
Record grows (s s' : state) : Prop := {
  grows_config : (f_client (st_factory s'), f_defaultResync (st_factory s'), f_customResync (st_factory s'), f_transform (st_factory s')) =
    (f_client (st_factory s), f_defaultResync (st_factory s), f_customResync (st_factory s), f_transform (st_factory s));
  grows_informers : f_informers (st_factory s) ⊆ f_informers (st_factory s');
  grows_down : f_shuttingDown (st_factory s) = true → f_shuttingDown (st_factory s') = true ∧ run_of s' = run_of s;
  grows_runs : run_of s `prefix_of` run_of s'
}.
#[export] Instance grows_preorder : PreOrder grows.
Proof.
  split; [by intros s; split|]. intros s1 s2 s3 [C1 I1 D1 R1] [C2 I2 D2 R2]. split; [congruence|by etrans| |by etrans].
  intros Hd. destruct (D1 Hd) as [Hd2 E1]. destruct (D2 Hd2) as [Hd3 E2]. split; [done|congruence].
Qed.

Lemma with_lock_inv {A} (body : state → option (A * state)) s a s' : f_lock (st_factory s) = false → with_lock body s = Some (a, s') →
  ∃ s1, body (set_lock true s) = Some (a, s1) ∧ s' = set_lock false s1.
Proof.
  unfold with_lock. intros ->. destruct (body (set_lock true s)) as [[a1 s1]|]; cbn; [|done]. intros [= <- <-]. eauto.
Qed.
Lemma set_lock_id s : f_lock (st_factory s) = false → set_lock false (set_lock true s) = s.
Proof. destruct s as [[] h r]. cbn. by intros ->. Qed.

(** An informer object belongs to one type. *)
Lemma core_inj s T T' v v' : core s → f_informers (st_factory s) !! T = Some v → f_informers (st_factory s) !! T' = Some v' →
  underlying v = underlying v' → T = T'.
Proof.
  intros Hi H1 H2 E. destruct (inv_objects s Hi T v H1) as (o & Ho & <- & _). destruct (inv_objects s Hi T' v' H2) as (o' & Ho' & <- & _).
  rewrite E in Ho. congruence.
Qed.

(** The accessor of a type: the informer there is, or a new one. *)
Lemma TypedInformer_cases f s v s' : f_lock (st_factory s) = false → TypedInformer f s = Some (v, s') →
  (∃ i, f_informers (st_factory s) !! k_type (ki_kind f) = Some i ∧ v = Typed (k_type (ki_kind f)) i ∧ s' = s) ∨
  (f_informers (st_factory s) !! k_type (ki_kind f) = None ∧
   ∃ o, v = Typed (k_type (ki_kind f)) (Typed (k_type (ki_kind f)) (Shared (length (st_heap s)))) ∧
     s' = set_informers (<[k_type (ki_kind f) := Typed (k_type (ki_kind f)) (Shared (length (st_heap s)))]> (f_informers (st_factory s)))
            (set_heap (st_heap s ++ [o]) s) ∧
     inf_type o = k_type (ki_kind f) ∧ inf_transform o = f_transform (st_factory s) ∧
     inf_ResyncPeriod o = default (f_defaultResync (st_factory s)) (f_customResync (st_factory s) !! k_type (ki_kind f))).
Proof.
  intros Hl. unfold TypedInformer, InformerFor. destruct (with_lock _ s) as [[i s1]|] eqn:E; cbn; [|done]. intros [= <- <-].
  apply with_lock_inv in E as (s2 & Hb & ->); [|done]. change (f_informers (st_factory (set_lock true s))) with (f_informers (st_factory s)) in Hb.
  destruct (f_informers (st_factory s) !! k_type (ki_kind f)) as [j|] eqn:Ej.
  - injection Hb as <- <-. left. exists j. by rewrite set_lock_id.
  - right. split; [done|]. destruct s as [[] h r]. cbn in *. subst. destruct f_transform0 as [tr|]; cbn in Hb; injection Hb as <- <-.
    + eexists. split; [done|]. split; [unfold set_lock, set_informers, set_heap; cbn; by rewrite alter_app_r_alt, Nat.sub_diag by done|].
      by split_and!.
    + eexists. split; [done|]. split; [done|]. by split_and!.
Qed.

Lemma TypedInformer_step f s v s' : inv s → TypedInformer f s = Some (v, s') → inv s' ∧ grows s s'.
Proof.
  intros [Hi Hlk] E. destruct (TypedInformer_cases f s v s' Hlk E) as [(i & _ & _ & ->)|(Hn & o & _ & -> & Ht & Htr & Hr)]; [by split|].
  set (T := k_type (ki_kind f)) in *. destruct Hi as [Ho Hs Hru Hon]. split.
  - split; [|done]. split; cbn; try done.
    + intros T' v' [[<- <-]|[Hne Hv]]%lookup_insert_Some.
      * exists o. cbn. rewrite lookup_app_r, Nat.sub_diag by done. done.
      * destruct (Ho T' v' Hv) as (o' & Ho' & ?). exists o'. split; [by apply lookup_app_l_Some|done].
    + intros T' Hst. destruct (Hs T' Hst) as (v' & Hv & Hin). exists v'. split; [|done]. rewrite lookup_insert_ne; [done|]. intros <-. congruence.
    + intros r Hin. destruct (Hru r Hin) as (T' & v' & Hv & Hu & Hst). exists T', v'. split_and!; try done.
      rewrite lookup_insert_ne; [done|]. intros <-. congruence.
  - split; cbn; try done. by apply insert_subseteq.
Qed.

Lemma ForResource_step r s v s' : inv s → ForResource r s = Some (v, s') → inv s' ∧ grows s s'.
Proof.
  intros Hi. unfold ForResource, Informer_of. repeat case_decide; [| |intros [= <- <-]; by split].
  all: match goal with |- context [TypedInformer ?f ?s] => destruct (TypedInformer f s) as [[i s1]|] eqn:E end; cbn; [|done].
  all: intros [= <- <-]; by eapply TypedInformer_step.
Qed.

(** *** Start *)
Lemma core_set_lock b s : core s → core (set_lock b s).
Proof. by intros []. Qed.
(** What a pass over the informers keeps. *)
Definition kept (s s' : state) : Prop :=
  st_heap s' = st_heap s ∧ f_informers (st_factory s') = f_informers (st_factory s) ∧ f_shuttingDown (st_factory s') = f_shuttingDown (st_factory s) ∧
  (f_client (st_factory s'), f_defaultResync (st_factory s'), f_customResync (st_factory s'), f_transform (st_factory s')) =
    (f_client (st_factory s), f_defaultResync (st_factory s), f_customResync (st_factory s), f_transform (st_factory s)) ∧
  run_of s `prefix_of` run_of s' ∧
  ∀ T, f_startedInformers (st_factory s) !! T = Some true → f_startedInformers (st_factory s') !! T = Some true.
#[export] Instance kept_preorder : PreOrder kept.
Proof.
  split; [by intros s; split_and!|]. intros s1 s2 s3 (A1 & B1 & C1 & D1 & E1 & F1) (A2 & B2 & C2 & D2 & E2 & F2).
  split_and!; try congruence; [by etrans|auto].
Qed.

Definition started_with (ctx : Ctx) (s : state) (T : string) (v : InformerV) : state :=
  set_started (<[T := true]> (f_startedInformers (st_factory s))) (set_runs (st_runs s ++ [mkRun (underlying v) ctx true]) s).
Lemma started_with_core ctx s T v : core s → f_informers (st_factory s) !! T = Some v → f_startedInformers (st_factory s) !! T ≠ Some true →
  core (started_with ctx s T v) ∧ kept s (started_with ctx s T v).
Proof.
  intros Hi Hv Hns. assert (underlying v ∉ run_of s) as Hfresh.
  { intros (T' & v' & Hv' & Hu & Hst')%(inv_runs s Hi). by rewrite (core_inj s T' T v' v Hi Hv' Hv Hu) in Hst'. }
  assert (run_of (started_with ctx s T v) = run_of s ++ [underlying v]) as Hrun by (unfold run_of; cbn; by rewrite fmap_app).
  assert (∀ T', f_startedInformers (st_factory s) !! T' = Some true → f_startedInformers (st_factory (started_with ctx s T v)) !! T' = Some true) as Hmono.
  { intros T' HT'. cbn. rewrite lookup_insert_ne; [done|congruence]. }
  destruct Hi as [Ho Hs Hru Hon]. split.
  - split; rewrite ?Hrun; [done|..].
    + intros T'. cbn. intros [[<- _]|[Hne Hst]]%lookup_insert_Some; [exists v; split; [done|set_solver]|].
      destruct (Hs T' Hst) as (v' & ? & ?). exists v'. split; [done|set_solver].
    + intros r [Hr| ->%list_elem_of_singleton]%elem_of_app.
      * destruct (Hru r Hr) as (T' & v' & ? & ? & ?). exists T', v'. auto.
      * exists T, v. split_and!; [done|done|]. cbn. by rewrite lookup_insert_eq.
    + apply NoDup_app. split_and!; [done| |apply NoDup_singleton]. intros x Hx ->%list_elem_of_singleton. done.
  - split_and!; try done. rewrite Hrun. by eexists.
Qed.

Lemma start_one_core ctx s T v : core s → f_informers (st_factory s) !! T = Some v →
  core (start_one ctx s (T, v)) ∧ kept s (start_one ctx s (T, v)) ∧ f_startedInformers (st_factory (start_one ctx s (T, v))) !! T = Some true.
Proof.
  intros Hi Hv. unfold start_one. cbn [fst snd].
  destruct (f_startedInformers (st_factory s) !! T) as [[|]|] eqn:Hst; cbn [default from_option id]; [by split_and!|..].
  all: destruct (started_with_core ctx s T v) as [Hc Hk]; [done|done|congruence|].
  all: split_and!; [done|done|]; cbn; by rewrite lookup_insert_eq.
Qed.

Lemma start_all_core ctx tis : ∀ s, core s → Forall (λ ti, f_informers (st_factory s) !! ti.1 = Some ti.2) tis →
  core (foldl (start_one ctx) s tis) ∧ kept s (foldl (start_one ctx) s tis) ∧
  Forall (λ ti, f_startedInformers (st_factory (foldl (start_one ctx) s tis)) !! ti.1 = Some true) tis.
Proof.
  induction tis as [|[T v] tis IH]; intros s Hc Ht; cbn [foldl]; [by split_and!|]. apply Forall_cons in Ht as [Hv Ht].
  destruct (start_one_core ctx s T v Hc Hv) as (Hc1 & Hk1 & Hst). pose proof Hk1 as (_ & Hinf & _).
  destruct (IH (start_one ctx s (T, v)) Hc1) as (Hc2 & Hk2 & Hall); [by rewrite Hinf|].
  split_and!; [done|by etrans|]. apply Forall_cons. split; [|done]. by apply Hk2.
Qed.

(** [StartWithContext]: after it every informer the factory has is started,
    unless the factory shuts down. *)
Lemma StartWithContext_spec ctx s s' : inv s → StartWithContext ctx s = Some (tt, s') → inv s' ∧ grows s s' ∧
  f_informers (st_factory s') = f_informers (st_factory s) ∧
  if f_shuttingDown (st_factory s) then s' = s
  else ∀ T, is_Some (f_informers (st_factory s) !! T) → f_startedInformers (st_factory s') !! T = Some true.
Proof.
  intros [Hc Hl]. unfold StartWithContext. intros (s1 & Hb & ->)%with_lock_inv; [|done].
  change (f_shuttingDown (st_factory (set_lock true s))) with (f_shuttingDown (st_factory s)) in Hb.
  destruct (f_shuttingDown (st_factory s)) eqn:Hd; injection Hb as <-; [by rewrite set_lock_id|].
  change (f_informers (st_factory (set_lock true s))) with (f_informers (st_factory s)).
  destruct (start_all_core ctx (range_map (f_informers (st_factory s))) (set_lock true s)) as (Hc1 & (Hh & Hinf & Hsd & Hcfg & Hpre & Hmono) & Hall).
  { by apply core_set_lock. }
  { apply Forall_forall. intros [T v] Hin. by apply range_map_elem in Hin. }
  set (s1 := foldl _ _ _) in *. split_and!.
  - split; [by apply core_set_lock|done].
  - split; [done|cbn; by rewrite Hinf|by rewrite Hd|done].
  - done.
  - intros T [v Hv]. rewrite Forall_forall in Hall. apply (Hall (T, v)). by apply range_map_elem.
Qed.

Lemma Shutdown_step s s' : inv s → Shutdown_begin s = Some (tt, s') → inv s' ∧ grows s s' ∧ f_shuttingDown (st_factory s') = true.
Proof.
  intros [[Ho Hs Hru Hon] Hl] (s1 & [= <-] & ->)%with_lock_inv; [|done]. split_and!; try done.
Qed.
Lemma wait_keeps synced cause s r s' : inv s → WaitForCacheSyncWithContext synced cause s = Some (r, s') → s' = s ∧ ∃ m, startedInformers s = Some (m, s) ∧ r = sync_result m synced cause.
Proof.
  intros [Hc Hl]. unfold WaitForCacheSyncWithContext. destruct (startedInformers s) as [[m s1]|] eqn:E; cbn; [|done]. intros [= <- <-].
  pose proof E as (s2 & [= _ <-] & ->)%with_lock_inv; [|done]. rewrite set_lock_id in * by done. eauto.
Qed.
Lemma run_ends_step i s : inv s → inv (run_ends i s) ∧ grows s (run_ends i s).
Proof.
  intros [[Ho Hs Hru Hon] Hl]. assert (run_of (run_ends i s) = run_of s) as Hr.
  { unfold run_of, run_ends, set_runs. cbn [st_runs]. apply list_eq. intros j. rewrite !list_lookup_fmap.
    destruct (decide (j = i)) as [->|Hne]; [rewrite list_lookup_alter_eq; by destruct (st_runs s !! i)|by rewrite list_lookup_alter_ne]. }
  split; [split; [split; rewrite ?Hr; done|done]|]. split; rewrite ?Hr; done.
Qed.

Lemma step_inv s s' : inv s → step s s' → inv s' ∧ grows s s'.
Proof.
  intros Hi. destruct 1 as [f v s s' E|r v s s' E|ctx s s' E|s s' E|synced cause r s s' E|i s].
  - by eapply TypedInformer_step.
  - by eapply ForResource_step.
  - by destruct (StartWithContext_spec ctx s s' Hi E) as (? & ? & _).
  - by destruct (Shutdown_step s s' Hi E) as (? & ? & _).
  - by destruct (wait_keeps _ _ _ _ _ Hi E) as [-> _].
  - by apply run_ends_step.
Qed.
Lemma steps_inv s s' : inv s → steps s s' → inv s' ∧ grows s s'.
Proof.
  intros Hi Hs. induction Hs as [s|s1 s2 s3 H12 _ IH]; [by split|]. destruct (step_inv s1 s2 Hi H12) as [H2 G12].
  destruct (IH H2) as [H3 G23]. split; [done|by etrans].
Qed.
Lemma reachable_factory_inv s : reachable s → inv s.
Proof.
  induction 1 as [client resync options Ho|s s' _ IH Hs]; [|by eapply step_inv].
  unfold NewSharedInformerFactoryWithOptions.
  assert (∀ f, f_informers f = ∅ → f_startedInformers f = ∅ → f_lock f = false → inv (mkState (foldl (λ f opt, opt f) f options) [] [])) as Hg; [|by apply Hg].
  induction Ho as [|opt options Hopt _ IH]; intros f H1 H2 H3; cbn [foldl].
  - split; [|done]. split; cbn.
    + intros T v. by rewrite H1.
    + intros T. by rewrite H2.
    + by intros r ?%not_elem_of_nil.
    + constructor.
  - destruct Hopt; by apply IH.
Qed.

(** ** What the factory promises *)
Lemma TypedInformer_total f s : inv s → ∃ v s', TypedInformer f s = Some (v, s').
Proof.
  intros [_ Hl]. unfold TypedInformer, InformerFor, with_lock. rewrite Hl. cbv zeta. cbn [set_lock st_factory f_informers].
  destruct (f_informers (st_factory s) !! k_type (ki_kind f)); cbn; eauto.
Qed.
Lemma TypedInformer_found f s i : inv s → f_informers (st_factory s) !! k_type (ki_kind f) = Some i →
  TypedInformer f s = Some (Typed (k_type (ki_kind f)) i, s).
Proof.
  intros Hi Hf. destruct (TypedInformer_total f s Hi) as (v & s' & E). rewrite E.
  destruct (TypedInformer_cases f s v s' (proj2 Hi) E) as [(j & Hj & -> & ->)|[Hn _]]; congruence.
Qed.
Lemma TypedInformer_registers f s v s' : inv s → TypedInformer f s = Some (v, s') →
  ∃ i, f_informers (st_factory s') !! k_type (ki_kind f) = Some i ∧ underlying i = underlying v.
Proof.
  intros Hi E. destruct (TypedInformer_cases f s v s' (proj2 Hi) E) as [(j & Hj & -> & ->)|(_ & o & -> & -> & _)]; [by exists j|].
  eexists. split; [by cbn; rewrite lookup_insert_eq|done].
Qed.
Lemma StartWithContext_total ctx s : inv s → ∃ s', StartWithContext ctx s = Some (tt, s').
Proof. intros [_ Hl]. unfold StartWithContext, with_lock. rewrite Hl. destruct (f_shuttingDown _); cbn; eauto. Qed.

(** The generic accessor is the typed one. *)
Lemma ForResource_typed s : inv s →
  ForResource (WithResource SchemeGroupVersion "agentdeploys") s =
    ('(i, s') ← TypedInformer (v_AgentDeploys (V1alpha1 (Kynomesh s))) s; Some (Ok (mkGenericInformer i (Resource "agentdeploys")), s')) ∧
  ForResource (WithResource SchemeGroupVersion "agentsets") s =
    ('(i, s') ← TypedInformer (v_AgentSets (V1alpha1 (Kynomesh s))) s; Some (Ok (mkGenericInformer i (Resource "agentsets")), s')).
Proof. done. Qed.

Lemma Shutdown_total s : inv s → ∃ s', Shutdown_begin s = Some (tt, s').
Proof. intros [_ Hl]. unfold Shutdown_begin, with_lock. rewrite Hl. cbn. eauto. Qed.

(** An accessor gives the informer of a type that was registered. *)
Lemma accessors_found s k i : inv s → k ∈ [agentDeploy; agentSet] → f_informers (st_factory s) !! k_type k = Some i →
  (∀ f, ki_kind f = k → ∃ v, TypedInformer f s = Some (v, s) ∧ underlying v = underlying i) ∧
  ∃ g, ForResource (WithResource SchemeGroupVersion (k_plural k)) s = Some (Ok g, s) ∧
    underlying (gi_informer g) = underlying i ∧ gi_resource g = Resource (k_plural k).
Proof.
  intros Hi Hk Hf. split.
  - intros f <-. rewrite (TypedInformer_found f s i Hi Hf). by eexists.
  - destruct (ForResource_typed s Hi) as [Hd Hs]. revert Hk Hf. rewrite !elem_of_cons, elem_of_nil.
    intros [->|[->|[]]] Hf; cbn [k_plural agentDeploy agentSet].
    + rewrite Hd, (TypedInformer_found (v_AgentDeploys (V1alpha1 (Kynomesh s))) s i Hi Hf). by eexists.
    + rewrite Hs, (TypedInformer_found (v_AgentSets (V1alpha1 (Kynomesh s))) s i Hi Hf). by eexists.
Qed.

(** C22: in every interleaving of callers and goroutines, the factory has one
    informer per type for good: an accessor never blocks, and from then on every
    accessor of the type, and [ForResource] of its resource, gives the same one
    ([ForResource] of any other resource is an error).  No informer is run
    twice; [Start] leaves none of those there are unstarted unless the factory
    is shutting down; [Shutdown] does not block on the lock, and from then on
    nothing is started any more, whatever [Start] is called. *)
Theorem shared_informer_factory s : reachable s →
  NoDup (run_of s) ∧
  (∀ f, ki_kind f ∈ [agentDeploy; agentSet] → ∃ v s1, TypedInformer f s = Some (v, s1) ∧ ∀ s2, steps s1 s2 →
     (∀ f', ki_kind f' = ki_kind f → ∃ v', TypedInformer f' s2 = Some (v', s2) ∧ underlying v' = underlying v) ∧
     ∃ g, ForResource (WithResource SchemeGroupVersion (k_plural (ki_kind f))) s2 = Some (Ok g, s2) ∧
       underlying (gi_informer g) = underlying v ∧ gi_resource g = Resource (k_plural (ki_kind f))) ∧
  (∀ r, r ∉ [WithResource SchemeGroupVersion "agentdeploys"; WithResource SchemeGroupVersion "agentsets"] →
     ∃ e, ForResource r s = Some (Err e, s)) ∧
  (∀ ctx, ∃ s1, StartWithContext ctx s = Some (tt, s1) ∧
     if f_shuttingDown (st_factory s) then s1 = s
     else ∀ T i, f_informers (st_factory s1) !! T = Some i → underlying i ∈ run_of s1) ∧
  (∃ s1, Shutdown_begin s = Some (tt, s1) ∧ ∀ s2, steps s1 s2 → run_of s2 = run_of s).
Proof.
  intros Hi%reachable_factory_inv. split_and!.
  - apply Hi.
  - intros f Hk. destruct (TypedInformer_total f s Hi) as (v & s1 & E). exists v, s1. split; [done|]. intros s2 H12.
    destruct (TypedInformer_registers f s v s1 Hi E) as (i & Hf & <-). destruct (TypedInformer_step f s v s1 Hi E) as [H1 _].
    destruct (steps_inv s1 s2 H1 H12) as [H2 G]. apply accessors_found; [done|done|].
    by eapply lookup_weaken; [|apply (grows_informers _ _ G)].
  - intros r Hr. unfold ForResource. rewrite !decide_False by set_solver. by eexists.
  - intros ctx. destruct (StartWithContext_total ctx s Hi) as [s1 E]. exists s1. split; [done|].
    destruct (StartWithContext_spec ctx s s1 Hi E) as ([Hc _] & _ & Hinf & Hst). destruct (f_shuttingDown (st_factory s)); [done|].
    intros T i HT. destruct (inv_started s1 Hc T) as (i' & Hi' & Hin); [|congruence]. apply Hst. rewrite <- Hinf. by eexists.
  - destruct (Shutdown_total s Hi) as [s1 E]. exists s1. split; [done|]. intros s2 H12.
    destruct (Shutdown_step s s1 Hi E) as (H1 & _ & Hd). destruct (steps_inv s1 s2 H1 H12) as [_ G].
    assert (run_of s1 = run_of s) as <-; [|by apply (grows_down _ _ G)].
    apply with_lock_inv in E as (s0 & [= <-] & ->); [done|apply Hi].
Qed.

Lemma fold_insert_lookup {B C} (g : B → C) (k : string) (l : list (string * B)) : ∀ acc : gmap string C, NoDup l.*1 →
  (∀ x, (k, x) ∈ l → foldl (λ acc kv, <[kv.1 := g kv.2]> acc) acc l !! k = Some (g x)) ∧
  (k ∉ l.*1 → foldl (λ acc kv, <[kv.1 := g kv.2]> acc) acc l !! k = acc !! k).
Proof.
  induction l as [|[k' y] l IH]; intros acc; cbn [foldl fmap list_fmap fst snd]; [by split; [intros x ?%not_elem_of_nil|]|].
  intros [Hni Hnd]%NoDup_cons. destruct (IH (<[k' := g y]> acc) Hnd) as [H1 H2]. split.
  - intros x [[= <- <-]|Hx]%elem_of_cons; [rewrite H2 by done; by rewrite lookup_insert_eq|by apply H1].
  - intros [Hne Hk]%not_elem_of_cons. rewrite H2 by done. by rewrite lookup_insert_ne.
Qed.
Lemma fold_insert_range {B C} (g : B → C) (m : gmap string B) : foldl (λ acc kv, <[kv.1 := g kv.2]> acc) ∅ (range_map m) = g <$> m.
Proof.
  assert (NoDup (range_map m).*1) as Hnd by (rewrite range_map_perm; apply NoDup_fst_map_to_list).
  apply map_eq. intros k. destruct (fold_insert_lookup g k (range_map m) ∅ Hnd) as [H1 H2]. rewrite lookup_fmap.
  destruct (m !! k) as [x|] eqn:E; cbn; [by apply H1, range_map_elem|]. rewrite H2; [done|].
  intros ([k' x] & -> & Hx%range_map_elem)%list_elem_of_fmap. cbn in E. congruence.
Qed.

(** The caches that are reported are those of the started informers, and there
    is an error exactly when one of them did not sync. *)
Lemma sync_result_spec m HasSynced Cause :
  sr_Synced (sync_result m HasSynced Cause) = (λ i, HasSynced (underlying i)) <$> m ∧
  sr_Err (sync_result m HasSynced Cause) = if forallb (λ ti, HasSynced (underlying ti.2)) (map_to_list m) then None else Cause.
Proof.
  unfold sync_result.
  assert (∀ (tis : list (string * InformerV)) (acc : gmap string bool) b, foldl (λ '(m, failed) ti, let hasSynced := HasSynced (underlying ti.2) in
      (<[ti.1 := hasSynced]> m, if hasSynced then failed else true)) (acc, b) tis =
    (foldl (λ acc ti, <[ti.1 := HasSynced (underlying ti.2)]> acc) acc tis, b || negb (forallb (λ ti, HasSynced (underlying ti.2)) tis))) as Hf.
  { induction tis as [|ti tis IH]; intros acc b; cbn [foldl forallb]; [by rewrite orb_false_r|]. rewrite IH. f_equal.
    by destruct (HasSynced (underlying ti.2)), b. }
  rewrite Hf. cbn [sr_Synced sr_Err orb]. split; [apply (fold_insert_range (λ i, HasSynced (underlying i)))|].
  assert (forallb (λ ti, HasSynced (underlying ti.2)) (range_map m) = forallb (λ ti, HasSynced (underlying ti.2)) (map_to_list m)) as ->.
  { apply eq_true_iff_eq. rewrite !forallb_forall. setoid_rewrite <- list_elem_of_In. by setoid_rewrite (range_map_perm m). }
  by destruct (forallb _ _).
Qed.
End informers.

(** ** A concrete history *)
Section example.
Definition ex_call (_ : unit) (r : GroupVersionResource) (ns : string) (_ : nat) (opts : string) : string := gvr_String r +:+ ns +:+ opts.
Abbreviation ex_step := (step (TF := unit) ex_call ex_call 0%nat).
Abbreviation ex_typed := (TypedInformer (TF := unit) ex_call ex_call 0%nat).
Definition ex_start : state (Cl := unit) (LO := string) (Ctx := nat) (TF := unit) (Res := string) :=
  mkState (NewSharedInformerFactoryWithOptions tt 30 [WithNamespace "mesh"; WithCustomResyncConfig {[ k_type agentSet := 5 ]}]) [] [].
Definition ex_deploys : kindInformer (LO := string) := v_AgentDeploys (V1alpha1 (Kynomesh ex_start)).
Definition ex_next {A S} (s : S) (r : option (A * S)) : S := match r with Some (_, s) => s | None => s end.
Definition ex_one := ex_next ex_start (ex_typed ex_deploys ex_start).
Definition ex_running := ex_next ex_one (StartWithContext 7%nat ex_one).
Definition ex_down := ex_next ex_running (Shutdown_begin ex_running).

Lemma ex_running_reachable : reachable ex_call ex_call 0%nat ex_running.
Proof.
  apply (reachable_step _ _ _ ex_one); [|apply (step_start _ _ _ 7%nat); vm_compute; reflexivity].
  apply (reachable_step _ _ _ ex_start); [|].
  2: { apply (step_informer _ _ _ ex_deploys (Typed (k_type agentDeploy) (Typed (k_type agentDeploy) (Shared 0)))). vm_compute. reflexivity. }
  apply reachable_new. repeat constructor.
Qed.
(** One informer is made and run; after the shutdown a second one may be made
    but is not started. *)
Lemma shared_informer_factory_witness : run_of ex_running = [0%nat] ∧ NoDup (run_of ex_running) ∧
  run_of (ex_next ex_down (StartWithContext 8%nat (ex_next ex_down (ex_typed (v_AgentSets (V1alpha1 (Kynomesh ex_start))) ex_down)))) = [0%nat] ∧
  Shutdown_returns ex_down = false ∧ Shutdown_returns (run_ends 0 ex_down) = true.
Proof.
  destruct (shared_informer_factory ex_call ex_call 0%nat ex_running ex_running_reachable) as (H1 & _ & _ & _ & s1 & E & H4).
  assert (s1 = ex_down) as -> by (unfold ex_down; rewrite E; reflexivity).
  split_and!; [vm_compute; reflexivity|exact H1| |vm_compute; reflexivity|vm_compute; reflexivity].
  etransitivity; [apply H4|vm_compute; reflexivity].
  apply (rtc_l _ _ (ex_next ex_down (ex_typed (v_AgentSets (V1alpha1 (Kynomesh ex_start))) ex_down))).
  - apply (step_informer _ _ _ (v_AgentSets (V1alpha1 (Kynomesh ex_start))) (Typed (k_type agentSet) (Typed (k_type agentSet) (Shared 1)))).
    vm_compute. reflexivity.
  - apply rtc_once, (step_start _ _ _ 8%nat). vm_compute. reflexivity.
Defined.
End example.
End Informers.
