(* ===== verification/Gateway.v ===== *)
(** * The REST gateway and the gRPC client of the daemon
    ([pkg/apis/proto/daemon/daemon.pb.gw.go], [pkg/daemon/client/grpc_client.go],
    [pkg/daemon/server/service/server.go])

    A REST call to the daemon becomes a gRPC request: the name is the one of
    the path, the other parameters come from the query.  The grpc-gateway
    runtime and gRPC are parameters ([GatewayRuntime]); a service is a function
    from requests to answers. *)
From S2P Require Import Prelude GoStrings K8s Types Broker Daemon.
#[local] Open Scope Z_scope.
#[local] Open Scope go_scope.

Module Gateway.
#[local] Unset Default Proof Using.

(** ** Messages *)
Record GetAgentDeployMetricsRequest : Set := mkMetricsRequest { mr_Name : string; mr_LookbackSeconds : Z }.
Record GetPeerCardDriftRequest : Set := mkDriftRequest { dr_Name : string }.
(** A gRPC status. *)
Inductive Status : Set := InvalidArgument (msg : string) | StatusOf (e : string).

(** [grpc-gateway/v2/runtime]: [String] returns the given string;
    [PopulateQueryParameters] sets the fields of the message whose (proto or
    JSON) name is a key of the form, [name] and [lookbackSeconds] here, except
    those the filter names; other keys are ignored.  It fails only for a value
    that does not parse or is repeated. *)
Definition Form : Type := gmap string (list string).
Class GatewayRuntime := {
  runtime_String : string → result string string;
  PopulateQueryParameters : GetAgentDeployMetricsRequest → Form → list string → result string GetAgentDeployMetricsRequest;
  runtime_String_law : ∀ v, runtime_String v = Ok v;
  Populate_keeps : ∀ r form filter r', PopulateQueryParameters r form filter = Ok r' →
    ("name" ∈ filter ∨ form !! "name" = None → mr_Name r' = mr_Name r) ∧
    ("lookbackSeconds" ∈ filter ∨ form !! "lookbackSeconds" = None → mr_LookbackSeconds r' = mr_LookbackSeconds r);
  Populate_sets : ∀ r form filter r', PopulateQueryParameters r form filter = Ok r' →
    (∀ v, "name" ∉ filter → form !! "name" = Some [v] → mr_Name r' = v) ∧
    (∀ n, "lookbackSeconds" ∉ filter → form !! "lookbackSeconds" = Some [Itoa n] → in_s 64 n → mr_LookbackSeconds r' = n);
  Populate_ok : ∀ r form filter,
    (∀ vs, "name" ∉ filter → form !! "name" = Some vs → ∃ v, vs = [v]) →
    (∀ vs, "lookbackSeconds" ∉ filter → form !! "lookbackSeconds" = Some vs → ∃ n, vs = [Itoa n] ∧ in_s 64 n) →
    ∃ r', PopulateQueryParameters r form filter = Ok r'
}.

Section gateway.
Context `{!GatewayRuntime}.
(** Answers, and the metadata of a call. *)
Context {M D MD : Type} (no_md : MD).

Record HTTPRequest : Type := mkHTTPRequest { hr_form : result string Form; hr_body : option (list byte) }.
(** [DaemonServiceServer]; the client stub also returns the metadata. *)
Record Server := mkServer {
  sv_GetAgentDeployMetrics : GetAgentDeployMetricsRequest → result Status M;
  sv_GetPeerCardDrift : GetPeerCardDriftRequest → result Status D
}.
Record Client := mkClient {
  cl_GetAgentDeployMetrics : GetAgentDeployMetricsRequest → result Status M * MD;
  cl_GetPeerCardDrift : GetPeerCardDriftRequest → result Status D * MD
}.
(** The answer, its metadata, and whether the body was read to its end. *)
Definition Answer (A : Type) : Type := result Status A * MD * bool.

Definition filter_GetAgentDeployMetrics : list string := ["name"].
Definition path_name (pathParams : gmap string string) : result Status string :=
  match pathParams !! "name" with
  | None => Err (InvalidArgument "missing parameter name")
  | Some val =>
      match runtime_String val with
      | Err e => Err (InvalidArgument ("type mismatch, parameter: name, error: " +:+ e))
      | Ok s => Ok s
      end
  end.
Definition metrics_request (req : HTTPRequest) (pathParams : gmap string string) : result Status GetAgentDeployMetricsRequest :=
  let! name := path_name pathParams in
  match hr_form req with
  | Err e => Err (InvalidArgument e)
  | Ok form =>
      match PopulateQueryParameters (mkMetricsRequest name 0) form filter_GetAgentDeployMetrics with
      | Err e => Err (InvalidArgument e)
      | Ok protoReq => Ok protoReq
      end
  end.
Definition request_GetAgentDeployMetrics (client : Client) (req : HTTPRequest) (pathParams : gmap string string) : Answer M :=
  match metrics_request req pathParams with
  | Err e => (Err e, no_md, false)
  | Ok protoReq => let '(msg, md) := cl_GetAgentDeployMetrics client protoReq in (msg, md, bool_decide (is_Some (hr_body req)))
  end.
Definition local_request_GetAgentDeployMetrics (server : Server) (req : HTTPRequest) (pathParams : gmap string string) : Answer M :=
  match metrics_request req pathParams with
  | Err e => (Err e, no_md, false)
  | Ok protoReq => (sv_GetAgentDeployMetrics server protoReq, no_md, false)
  end.
Definition request_GetPeerCardDrift (client : Client) (req : HTTPRequest) (pathParams : gmap string string) : Answer D :=
  match path_name pathParams with
  | Err e => (Err e, no_md, false)
  | Ok name => let '(msg, md) := cl_GetPeerCardDrift client (mkDriftRequest name) in (msg, md, bool_decide (is_Some (hr_body req)))
  end.
Definition local_request_GetPeerCardDrift (server : Server) (req : HTTPRequest) (pathParams : gmap string string) : Answer D :=
  match path_name pathParams with
  | Err e => (Err e, no_md, false)
  | Ok name => (sv_GetPeerCardDrift server (mkDriftRequest name), no_md, false)
  end.

(** ** The handlers *)
(** What is written to the client: an error, or the forwarded message, with
    the metadata put into the context. *)
Inductive Written (A : Type) := HTTPError (e : Status) (md : option MD) | ForwardResponseMessage (resp : A) (md : MD).
Arguments HTTPError {A}.
Arguments ForwardResponseMessage {A}.
Definition respond {A} (annotated : result Status unit) (answer : Answer A) (with_stream : MD → MD) : Written A :=
  match annotated with
  | Err e => HTTPError e None
  | Ok _ =>
      let '(resp, md, _) := answer in
      let md := with_stream md in
      match resp with Err e => HTTPError e (Some md) | Ok resp => ForwardResponseMessage resp md end
  end.
(** The two routes of a mux: method, pattern, full method, handler. *)
Inductive Handler := HandlesMetrics (h : result Status unit → HTTPRequest → gmap string string → Written M)
                   | HandlesDrift (h : result Status unit → HTTPRequest → gmap string string → Written D).
Definition metrics_pattern : string := "/api/v1/agentdeploys/{name}/metrics".
Definition drift_pattern : string := "/api/v1/agentdeploys/{name}/peer-card-drift".
Definition Mux : Type := list (string * string * Handler).
(** [stream] joins what the server put on the transport stream. *)
Definition RegisterDaemonServiceHandlerServer (stream : MD → MD) (server : Server) (mux : Mux) : result string Mux :=
  Ok (mux ++ [
    ("GET", metrics_pattern, HandlesMetrics (λ annotated req pathParams,
       respond annotated (local_request_GetAgentDeployMetrics server req pathParams) stream));
    ("GET", drift_pattern, HandlesDrift (λ annotated req pathParams,
       respond annotated (local_request_GetPeerCardDrift server req pathParams) stream))]).
Definition RegisterDaemonServiceHandlerClient (client : Client) (mux : Mux) : result string Mux :=
  Ok (mux ++ [
    ("GET", metrics_pattern, HandlesMetrics (λ annotated req pathParams,
       respond annotated (request_GetAgentDeployMetrics client req pathParams) (λ md, md)));
    ("GET", drift_pattern, HandlesDrift (λ annotated req pathParams,
       respond annotated (request_GetPeerCardDrift client req pathParams) (λ md, md)))]).

(** ** Connections *)
(** A connection has its stub, and is open or closed. *)
Record Conn := mkConn { cn_stub : Client; cn_closes : nat }.
Definition Close (c : Conn) : Conn := mkConn (cn_stub c) (S (cn_closes c)).
Definition RegisterDaemonServiceHandler (conn : Conn) (mux : Mux) : result string Mux := RegisterDaemonServiceHandlerClient (cn_stub conn) mux.
(** The connection as it is when the function returned, and later when the
    context is done: closed at once on an error, otherwise then. *)
Definition RegisterDaemonServiceHandlerFromEndpoint (NewClient : string → result string Conn) (endpoint : string) (mux : Mux) :
    result string Mux * option (Conn * Conn) :=
  match NewClient endpoint with
  | Err e => (Err e, None)
  | Ok conn =>
      match RegisterDaemonServiceHandler conn mux with
      | Err e => (Err e, Some (Close conn, Close conn))
      | Ok mux => (Ok mux, Some (conn, Close conn))
      end
  end.

(** ** The gRPC client *)
Record grpcClient := mkGrpcClient { gc_conn : option Conn; gc_client : Client }.
Definition NewGRPCClient (NewClient : string → result string Conn) (address : string) : result string grpcClient :=
  let! conn := NewClient address in
  Ok (mkGrpcClient (Some conn) (cn_stub conn)).
Definition grpc_Close (c : grpcClient) : grpcClient := mkGrpcClient (Close <$> gc_conn c) (gc_client c).
(** [resp.GetMetrics()], [resp.GetPeers()] *)
Definition grpc_GetAgentDeployMetrics {R} (GetMetrics : M → R) (c : grpcClient) (name : string) (lookbackSeconds : Z) : result Status R :=
  let! resp := (cl_GetAgentDeployMetrics (gc_client c) (mkMetricsRequest name lookbackSeconds)).1 in
  Ok (GetMetrics resp).
Definition grpc_GetPeerCardDrift {R} (GetPeers : D → R) (c : grpcClient) (name : string) : result Status R :=
  let! resp := (cl_GetPeerCardDrift (gc_client c) (mkDriftRequest name)).1 in
  Ok (GetPeers resp).
(** [driftwatch.GRPCDaemonDialer] *)
Definition drift_GRPCDaemonDialer (NewClient : string → result string Conn) (namespace agentSetName : string) : result string grpcClient :=
  NewGRPCClient NewClient (Daemon.GRPCDaemonDialer namespace agentSetName).

(** ** The daemon's servers *)
(** [New]: the gRPC server, and the gateway in front of it through a loopback
    connection to the same port; [ss_Addr] is the address of the listener. *)
Record Servers := mkServers { ss_Addr : string; ss_gateway : Mux; ss_service : Server; ss_loopback : Conn }.
Definition newAPIServer (NewClient : string → result string Conn) (APIPort : Z) (service : Server) : result string Servers :=
  match NewClient ("127.0.0.1:" +:+ Itoa APIPort) with
  | Err e => Err ("loopback gRPC client: " +:+ e)
  | Ok loopback =>
      match RegisterDaemonServiceHandler loopback [] with
      | Err e => Err ("register gateway: " +:+ e)
      | Ok gwMux => Ok (mkServers (":" +:+ Itoa APIPort) gwMux service loopback)
      end
  end.
Definition New (NewClient : string → result string Conn) (APIPort : Z) (service : Server) : result string Servers :=
  newAPIServer NewClient APIPort service.

(** The mux serves a call of a route with the name of its path. *)
Definition route_of (c : Daemon.gatewayCall) : string * string :=
  match c with Daemon.GetAgentDeployMetrics name => (metrics_pattern, name) | Daemon.GetPeerCardDrift name => (drift_pattern, name) end.
Definition serve (mux : Mux) (annotated : result Status unit) (req : HTTPRequest) (c : Daemon.gatewayCall) : option (Written M + Written D) :=
  let '(pattern, name) := route_of c in
  h ← List.find (λ r, String.eqb r.1.1 "GET" && String.eqb r.1.2 pattern) mux;
  Some match h.2 with
       | HandlesMetrics f => inl (f annotated req {[ "name" := name ]})
       | HandlesDrift f => inr (f annotated req {[ "name" := name ]})
       end.
(** What a gRPC caller gets, written over HTTP. *)
Definition written {A} (r : result Status A) (md : MD) : Written A :=
  match r with Ok a => ForwardResponseMessage a md | Err e => HTTPError e (Some md) end.

(** The lookback a query asks for: that of its parameter [lookbackSeconds]. *)
Definition asks (form : Form) (lookback : Z) : Prop :=
  match form !! "lookbackSeconds" with
  | None => lookback = 0
  | Some vs => vs = [Itoa lookback] ∧ in_s 64 lookback
  end.

(** The name of the request is the one of the path, whatever the query says. *)
Lemma metrics_request_of req form name lookback : hr_form req = Ok form → asks form lookback →
  metrics_request req {[ "name" := name ]} = Ok (mkMetricsRequest name lookback).
Proof.
  intros Hf Ha. unfold metrics_request, path_name. rewrite lookup_singleton_eq, runtime_String_law, Hf. cbn [result_bind].
  unfold asks in Ha. assert ("name" ∈ filter_GetAgentDeployMetrics) as Hn by (unfold filter_GetAgentDeployMetrics; set_solver).
  assert ("lookbackSeconds" ∉ filter_GetAgentDeployMetrics) as Hl by (unfold filter_GetAgentDeployMetrics; set_solver).
  destruct (Populate_ok (mkMetricsRequest name 0) form filter_GetAgentDeployMetrics) as [r' E]; [done| |].
  { intros vs _ Hvs. rewrite Hvs in Ha. eauto. }
  rewrite E. destruct (Populate_keeps _ _ _ _ E) as [Kn Kl]. destruct (Populate_sets _ _ _ _ E) as [_ Sl].
  destruct r' as [n' l']. cbn in *. rewrite Kn by auto. do 2 f_equal.
  destruct (form !! "lookbackSeconds") as [vs|] eqn:Ev; [destruct Ha as [-> Hr]; by apply Sl|subst lookback; by apply Kl; right].
Qed.

(** The REST client of this package sends its lookback as [lookback_seconds],
    which is neither name of the field: the daemon is asked for none. *)
Theorem rest_client_lookback_is_ignored c name n body :
  n ≠ 0 → let form := {[ "lookback_seconds" := [Itoa n] ]} in
  Daemon.metricsURL c name n = Daemon.baseURL c +:+ Daemon.metricsPath name +:+ "?lookback_seconds=" +:+ Itoa n ∧
  metrics_request (mkHTTPRequest (Ok form) body) {[ "name" := name ]} = Ok (mkMetricsRequest name 0).
Proof.
  intros Hn form. split; [|by apply (metrics_request_of _ form)].
  unfold Daemon.metricsURL. rewrite (proj2 (Z.eqb_neq _ _)) by done. cbn [negb]. by rewrite GoStrings.string_app_assoc.
Qed.

(** The gateway in front of a server, in process or through a connection that
    carries requests and answers, answers the same. *)
Lemma gateway_local_same (server : Server) (client : Client) req pathParams :
  (∀ r, (cl_GetAgentDeployMetrics client r).1 = sv_GetAgentDeployMetrics server r) →
  (∀ r, (cl_GetPeerCardDrift client r).1 = sv_GetPeerCardDrift server r) →
  (request_GetAgentDeployMetrics client req pathParams).1.1 = (local_request_GetAgentDeployMetrics server req pathParams).1.1 ∧
  (request_GetPeerCardDrift client req pathParams).1.1 = (local_request_GetPeerCardDrift server req pathParams).1.1.
Proof.
  intros Hm Hd. unfold request_GetAgentDeployMetrics, local_request_GetAgentDeployMetrics, request_GetPeerCardDrift, local_request_GetPeerCardDrift.
  split.
  - destruct (metrics_request req pathParams) as [r|]; [|done]. specialize (Hm r). by destruct (cl_GetAgentDeployMetrics client r).
  - destruct (path_name pathParams) as [n|]; [|done]. specialize (Hd (mkDriftRequest n)). by destruct (cl_GetPeerCardDrift client _).
Qed.

(** The connection of a gateway is closed once, when its context is done. *)
Lemma gateway_conn_closed_once NewClient endpoint mux r c1 c2 :
  RegisterDaemonServiceHandlerFromEndpoint NewClient endpoint mux = (r, Some (c1, c2)) →
  ∃ conn, NewClient endpoint = Ok conn ∧ is_Ok r = true ∧ cn_closes c1 = cn_closes conn ∧ cn_closes c2 = S (cn_closes conn).
Proof.
  unfold RegisterDaemonServiceHandlerFromEndpoint. destruct (NewClient endpoint) as [conn|]; [|done].
  cbn. intros [= <- <- <-]. by exists conn.
Qed.

Section clients_agree.
(** What serves at an address, as a process of the daemon's pod sees it, and
    connections that carry requests and answers of what they were dialled to. *)
Context (net : string → option Server) (NewClient : string → result string Conn).
Context (carries : ∀ a conn service, NewClient a = Ok conn → net a = Some service →
  (∀ r, (cl_GetAgentDeployMetrics (cn_stub conn) r).1 = sv_GetAgentDeployMetrics service r) ∧
  (∀ r, (cl_GetPeerCardDrift (cn_stub conn) r).1 = sv_GetPeerCardDrift service r)).

(** C23: a REST call to the daemon is answered as a call of the gRPC client.
    The daemon's server is listening (a server that listens on a port of all
    addresses answers on that port of the loopback address), and the gRPC
    client was dialled to it.  Then a REST call for an agent with a plain name
    goes through the dispatcher, the gateway and its loopback connection to the
    method it names, with the agent of the path whatever the query says, and
    what is written is what the gRPC client gets from the service for that
    agent and the lookback of the query's parameter lookbackSeconds: its
    answer, or its error.  (The REST client of the package names the parameter
    lookback_seconds, which the gateway ignores:
    [rest_client_lookback_is_ignored].) *)
Theorem rest_and_grpc_clients_agree service port address ss c proto ct name lookback form req :
  New NewClient port service = Ok ss →
  (∀ p, ss_Addr ss = ":" +:+ Itoa p → net ("127.0.0.1:" +:+ Itoa p) = Some (ss_service ss)) →
  NewGRPCClient NewClient address = Ok c → net address = Some (ss_service ss) →
  Daemon.plain_name name → Broker.isGRPCRequest (Broker.mkRequest proto ct "") = false →
  hr_form req = Ok form → asks form lookback →
  Daemon.apiDispatch (Broker.mkRequest proto ct (Daemon.metricsPath name)) = Daemon.ViaGateway ∧
  Daemon.apiDispatch (Broker.mkRequest proto ct (Daemon.driftPath name)) = Daemon.ViaGateway ∧
  (∃ md, (Daemon.gateway (Daemon.metricsPath name) ≫= serve (ss_gateway ss) (Ok tt) req) =
     Some (inl (written (grpc_GetAgentDeployMetrics id c name lookback) md))) ∧
  (∃ md, (Daemon.gateway (Daemon.driftPath name) ≫= serve (ss_gateway ss) (Ok tt) req) =
     Some (inr (written (grpc_GetPeerCardDrift id c name) md))) ∧
  grpc_GetAgentDeployMetrics id c name lookback = sv_GetAgentDeployMetrics service (mkMetricsRequest name lookback) ∧
  grpc_GetPeerCardDrift id c name = sv_GetPeerCardDrift service (mkDriftRequest name).
Proof.
  intros Hss Hlisten Hc Haddr Hp Hg Hform Hq.
  destruct (Daemon.rest_call_reaches_method name proto ct Hp Hg) as [[Hd1 ->] [Hd2 ->]].
  split; [done|]. split; [done|]. unfold New, newAPIServer in Hss. destruct (NewClient (_ +:+ _)) as [lo|] eqn:Elo; [|done].
  injection Hss as <-. unfold NewGRPCClient in Hc. destruct (NewClient address) as [conn|] eqn:Econn; [|done]. injection Hc as <-.
  destruct (carries _ _ _ Elo (Hlisten port eq_refl)) as [Lm Ld]. destruct (carries _ _ _ Econn Haddr) as [Cm Cd].
  cbn [ss_service] in *.
  unfold grpc_GetAgentDeployMetrics, grpc_GetPeerCardDrift. cbn [gc_client]. rewrite Cm, Cd.
  split_and!.
  - specialize (Lm (mkMetricsRequest name lookback)). destruct (cl_GetAgentDeployMetrics (cn_stub lo) (mkMetricsRequest name lookback)) as [a md] eqn:E.
    exists md. cbn. unfold request_GetAgentDeployMetrics. rewrite (metrics_request_of req form name lookback Hform Hq), E.
    cbn in Lm. subst a. by destruct (sv_GetAgentDeployMetrics service _).
  - specialize (Ld (mkDriftRequest name)). destruct (cl_GetPeerCardDrift (cn_stub lo) (mkDriftRequest name)) as [a md] eqn:E.
    exists md. cbn. unfold request_GetPeerCardDrift, path_name. rewrite lookup_singleton_eq, runtime_String_law. rewrite E.
    cbn in Ld. subst a. by destruct (sv_GetPeerCardDrift service _).
  - by destruct (sv_GetAgentDeployMetrics service _).
  - by destruct (sv_GetPeerCardDrift service _).
Qed.
End clients_agree.
End gateway.

(** ** A concrete call *)
(** A runtime for the two fields. *)
Definition one_value (vs : list string) : result string string :=
  match vs with [v] => Ok v | _ => Err "too many values for field" end.
Definition populate (r : GetAgentDeployMetricsRequest) (form : Form) (filter : list string) : result string GetAgentDeployMetricsRequest :=
  let! name := match form !! "name" with
               | Some vs => if bool_decide ("name" ∈ filter) then Ok (mr_Name r) else one_value vs
               | None => Ok (mr_Name r)
               end in
  let! lookback := match form !! "lookbackSeconds" with
                   | Some vs =>
                       if bool_decide ("lookbackSeconds" ∈ filter) then Ok (mr_LookbackSeconds r)
                       else let! v := one_value vs in
                            match Atoi v with Some n => Ok n | None => Err "parsing field" end
                   | None => Ok (mr_LookbackSeconds r)
                   end in
  Ok (mkMetricsRequest name lookback).
Lemma populate_spec r form filter r' : populate r form filter = Ok r' →
  (match form !! "name" with
   | Some vs => if bool_decide ("name" ∈ filter) then mr_Name r' = mr_Name r else vs = [mr_Name r']
   | None => mr_Name r' = mr_Name r
   end) ∧
  (match form !! "lookbackSeconds" with
   | Some vs =>
       if bool_decide ("lookbackSeconds" ∈ filter) then mr_LookbackSeconds r' = mr_LookbackSeconds r
       else ∃ v, vs = [v] ∧ Atoi v = Some (mr_LookbackSeconds r')
   | None => mr_LookbackSeconds r' = mr_LookbackSeconds r
   end).
Proof.
  unfold populate, one_value.
  assert (∀ A B (x : result string A) (f : A → result string B) b, (let! a := x in f a) = Ok b → ∃ a, x = Ok a ∧ f a = Ok b) as Hb.
  { intros A B [a|e] f b E; [eauto|done]. }
  intros (n & En & (l & El & [= <-])%Hb)%Hb. cbn [mr_Name mr_LookbackSeconds]. split.
  - destruct (form !! "name") as [vs|]; [|by injection En].
    destruct (bool_decide _); [by injection En|].
    destruct vs as [|v []]; try done. by injection En as ->.
  - destruct (form !! "lookbackSeconds") as [vs|]; [|by injection El].
    destruct (bool_decide ("lookbackSeconds" ∈ filter)); [by injection El|].
    apply Hb in El as (v & Ev & El). destruct vs as [|v' []]; try done. injection Ev as ->. exists v. split; [done|].
    destruct (Atoi v); [by injection El as ->|done].
Qed.

#[refine] Instance simple_runtime : GatewayRuntime := {| runtime_String v := Ok v; PopulateQueryParameters := populate |}.
Proof.
  - done.
  - intros r form filter r' [Hn Hl]%populate_spec. split; intros [H|H]; rewrite ?H in *; try done.
    + rewrite bool_decide_eq_true_2 in Hn by done. by destruct (form !! "name").
    + rewrite bool_decide_eq_true_2 in Hl by done. by destruct (form !! "lookbackSeconds").
  - intros r form filter r' [Hn Hl]%populate_spec. split.
    + intros v Hf Hv. rewrite Hv, bool_decide_eq_false_2 in Hn by done. by injection Hn.
    + intros n Hf Hv Hr. rewrite Hv, bool_decide_eq_false_2 in Hl by done. destruct Hl as (v & [= <-] & E).
      rewrite Atoi_Itoa_signed in E by done. by injection E.
  - intros r form filter Hn Hl. unfold populate.
    destruct (form !! "name") as [ns|], (form !! "lookbackSeconds") as [ls|]; repeat case_bool_decide;
      try destruct (Hn _ ltac:(done) eq_refl) as [v ->]; try destruct (Hl _ ltac:(done) eq_refl) as (n & -> & Hr);
      cbn [one_value result_bind]; rewrite ?Atoi_Itoa_signed by done; cbn; eauto.
Defined.
Definition ex_service : Server (M := string * Z) (D := string) :=
  mkServer (λ r, Ok (mr_Name r, mr_LookbackSeconds r)) (λ r, Err (StatusOf ("not found: " +:+ dr_Name r))).
Definition ex_conn : Conn (M := string * Z) (D := string) (MD := unit) :=
  mkConn (mkClient (λ r, (sv_GetAgentDeployMetrics ex_service r, tt)) (λ r, (sv_GetPeerCardDrift ex_service r, tt))) 0.
Definition ex_dial (_ : string) : result string (Conn (M := string * Z) (D := string) (MD := unit)) := Ok ex_conn.
Definition ex_net (a : string) : option (Server (M := string * Z) (D := string)) :=
  if String.eqb a "127.0.0.1:8443" || String.eqb a "d:8443" then Some ex_service else None.
Lemma ex_carries a (conn : Conn (M := string * Z) (D := string) (MD := unit)) service :
  ex_dial a = Ok conn → ex_net a = Some service →
  (∀ r, (cl_GetAgentDeployMetrics (cn_stub conn) r).1 = sv_GetAgentDeployMetrics service r) ∧
  (∀ r, (cl_GetPeerCardDrift (cn_stub conn) r).1 = sv_GetPeerCardDrift service r).
Proof. intros [= <-]. unfold ex_net. destruct (_ || _); by intros [= <-]. Qed.
(** The query asks for 90 seconds and tries another name. *)
Definition ex_form : Form := {[ "lookbackSeconds" := ["90"]; "name" := ["other"] ]}.
Definition ex_servers : Servers := mkServers ":8443"
  (default [] (match RegisterDaemonServiceHandler tt ex_conn [] with Ok m => Some m | Err _ => None end)) ex_service ex_conn.
Lemma ex_listens p : ss_Addr ex_servers = ":" +:+ Itoa p → ex_net ("127.0.0.1:" +:+ Itoa p) = Some (ss_service ex_servers).
Proof. intros E. assert (Itoa p = "8443") as -> by (by injection E as E). done. Qed.

Lemma rest_and_grpc_clients_agree_witness :
  (Daemon.gateway (Daemon.metricsPath "a") ≫= serve (ss_gateway ex_servers) (Ok tt) (mkHTTPRequest (Ok ex_form) None)) =
    Some (inl (ForwardResponseMessage _ ("a", 90) tt)).
Proof.
  destruct (rest_and_grpc_clients_agree tt ex_net ex_dial ex_carries ex_service 8443 "d:8443" ex_servers
    (mkGrpcClient (Some ex_conn) (cn_stub ex_conn)) 1 "" "a" 90 ex_form (mkHTTPRequest (Ok ex_form) None))
    as (_ & _ & [[] H] & _).
  - reflexivity.
  - exact ex_listens.
  - reflexivity.
  - reflexivity.
  - split; [reflexivity|]. split; [discriminate|]. split; discriminate.
  - reflexivity.
  - reflexivity.
  - split; [reflexivity|]. unfold in_s. cbn. lia.
  - exact H.
Defined.
End Gateway.
