(* ===== verification/Processes.v ===== *)
(** * How the processes start and are wired ([pkg/*/cmd/start.go], constructors)

    [Start] of the broker, the daemon and the webhook around what they run, the
    scheme of the manager, the constructors of the two reconcilers with their
    defaults for [nil] collaborators, the logger a context carries, the version
    record and the HTTP clients of the daemon's scrapers.  [logger.Fatalw] exits
    the process: it is the outcome [Fatal]. *)
From S2P Require Import Prelude K8s Types Workset Pods Controller Certs Webhook Clients Broker Daemon Volumes Commands RaterLoop.
#[local] Open Scope Z_scope.

Module Processes.

Inductive outcome : Set := Fatal (msg : string) | Panicked | Stopped.

(** ** Broker *)
Definition broker_Start (json_Unmarshal : list byte → result string AgentDeploy) (unmarshalServerInfo : string → result string Broker.ServerInfo)
    (e : Broker.environment) (graceEnv : string) (w : Broker.wakeup) (s : Broker.stopTimes) (port introspectionPort : Z) : outcome :=
  match Broker.assembleBroker json_Unmarshal unmarshalServerInfo e port introspectionPort with
  | Err _ => Fatal "Failed to assemble broker - refusing to start"
  | Ok stack =>
      match Broker.sv_err (Broker.runServeLoop graceEnv stack w s) with
      | Some _ => Fatal "Broker exited with error"
      | None => Stopped
      end
  end.

(** ** Daemon: [built] are the certificate and the servers [run] makes first *)
Definition daemon_Start (json_Unmarshal : list byte → result string AgentSet) (getenv : string → string) (built : result string unit)
    (w : Broker.wakeup) (apiErr metricsErr : option string) (apiPort metricsPort : Z) : outcome :=
  match Daemon.loadConfig json_Unmarshal getenv apiPort metricsPort with
  | Err _ => Fatal "Invalid daemon configuration"
  | Ok _ =>
      match built with
      | Err _ => Fatal "Daemon exited with error"
      | Ok _ =>
          match (Daemon.runDaemon w apiErr metricsErr).2 with
          | Some _ => Fatal "Daemon exited with error"
          | None => Stopped
          end
      end
  end.

(** A daemon that is told to stop while its listeners serve stops cleanly, and
    one whose listener fails does not pass for stopped. *)
Lemma daemon_outcome json getenv cfg w apiErr metricsErr a m :
  Daemon.loadConfig json getenv a m = Ok cfg →
  daemon_Start json getenv (Ok tt) w apiErr metricsErr a m = Stopped ↔
  match w with
  | Broker.Signalled => apiErr = None ∧ metricsErr = None
  | Broker.MainExit e | Broker.IntrospectionExit e => e = None
  end.
Proof.
  intros Hc. unfold daemon_Start. rewrite Hc. destruct w as [|[e|]|[e|]]; cbn; try done.
  destruct apiErr as [e|], metricsErr as [e'|]; cbn; naive_solver.
Qed.

(** ** Webhook *)
Section webhook.
Import Webhook.
Context {A : Type} `{!Client A ValidatingWebhookConfiguration} `{!Client A ClusterRole} `{!Client A Secret}
  `{!Client A Deployment} `{!Client A TextConfigMap} {C : Type} `{!Certs.Crypto C} `{GoRange} `{GoSort}.
Context (Pluralize : string → string) (handlers : gmap GroupVersionKind ()).
Context {Q Lim Ser Other HTTP R D : Type} `{!Clients.Rest A Q Lim Ser Other HTTP R D}.
(** Reading the configuration the rest source names, and the constructor of
    client-go's own clientset, which panics on an error. *)
Context (load : Volumes.restSource → result string (Clients.Config Q Lim Ser Other)) (kubernetes_NewForConfigOrDie : Clients.Config Q Lim Ser Other → bool).

Definition webhook_Start (env : gmap string string) (home : string) (isNotExist : string → bool) (binds : bool)
    (close_err : option webhookErr) (a : A) (c : C) : A * C * outcome :=
  match load (Volumes.K8sRestConfig (default "" (env !! "KUBECONFIG")) home isNotExist) with
  | Err _ => (a, c, Fatal "Failed to get kubeconfig")
  | Ok restConfig =>
      match resolveOptions env with
      | Err _ => (a, c, Fatal "Invalid webhook configuration")
      | Ok options =>
          if kubernetes_NewForConfigOrDie restConfig then
            match Clients.NewForConfigOrDie restConfig a with
            | (None, a) => (a, c, Panicked)
            | (Some _, a) =>
                match Run Pluralize handlers options binds close_err a c with
                | (a, c, Some _) => (a, c, Fatal "Failed to create admission controller")
                | (a, c, None) => (a, c, Stopped)
                end
            end
          else (a, c, Panicked)
      end
  end.

(** A webhook that cannot be configured exits before it touches the cluster or
    makes a key. *)
Lemma unconfigured_webhook_is_inert env home ne binds ce a c :
  is_Ok (resolveOptions env) = false → ∃ msg, webhook_Start env home ne binds ce a c = (a, c, Fatal msg).
Proof. intros Ho. unfold webhook_Start. destruct (load _); [|eauto]. destruct (resolveOptions env); [done|eauto]. Qed.
End webhook.

(** ** The manager's scheme ([buildScheme]) *)
Section scheme.
Context {S : Type} `{!Clients.Scheme S} (clientgoscheme_AddToScheme : S → result string S).
Definition buildScheme : result outcome S :=
  match clientgoscheme_AddToScheme Clients.NewScheme with
  | Err _ => Err (Fatal "Failed to register kubernetes core types")
  | Ok s =>
      match Clients.v1alpha1_AddToScheme s with
      | Err _ => Err (Fatal "Failed to register kynomesh types")
      | Ok s => Ok s
      end
  end.
(** It has the core types and ours. *)
Lemma buildScheme_ok core : clientgoscheme_AddToScheme Clients.NewScheme = Ok core →
  ∃ s, buildScheme = Ok s ∧ Clients.recognizes s Webhook.AgentSetGroupVersionKind ∧
    Clients.recognizes s Clients.AgentDeployGroupVersionKind ∧ ∀ k, Clients.recognizes core k → Clients.recognizes s k.
Proof.
  intros Hc. unfold buildScheme. rewrite Hc. unfold Clients.v1alpha1_AddToScheme, Clients.SchemeBuilder.
  rewrite Clients.Builder_law. cbn [foldl result_bind Clients.addKnownTypes]. eexists. split; [done|].
  assert (∀ t, t ∈ ["AgentSet"; "AgentSetList"; "AgentDeploy"; "AgentDeployList"] →
    Clients.recognizes (Clients.AddToGroupVersion Clients.SchemeGroupVersion (Clients.AddKnownTypes Clients.SchemeGroupVersion
      ["AgentSet"; "AgentSetList"; "AgentDeploy"; "AgentDeployList"] core)) (Clients.WithKind Clients.SchemeGroupVersion t)) as Hk.
  { intros t Ht. apply Clients.AddToGroupVersion_law. left. apply Clients.AddKnownTypes_law. right. by exists t. }
  split_and!; [apply (Hk "AgentSet"); set_solver|apply (Hk "AgentDeploy"); set_solver|].
  intros k Hr. apply Clients.AddToGroupVersion_law. left. apply Clients.AddKnownTypes_law. by left.
Qed.
End scheme.

(** ** The reconcilers ([NewReconciler]) *)
(** [noopScaler] watches nothing. *)
Inductive noopScaler : Set := mkNoopScaler.
#[export] Instance noopScaler_watcher : Workset.ScaleWatcher NamespacedName noopScaler :=
  {| Workset.Track _ s := s; Workset.Forget _ s := s |}.
(** A [scaleWatcher] or the default for [nil]. *)
#[export] Instance given_or_noop {S} `{!Workset.ScaleWatcher NamespacedName S} : Workset.ScaleWatcher NamespacedName (S + noopScaler) :=
  {| Workset.Track k s := match s with inl s => inl (Workset.Track k s) | inr s => inr (Workset.Track k s) end;
     Workset.Forget k s := match s with inl s => inl (Workset.Forget k s) | inr s => inr (Workset.Forget k s) end |}.

(** [noopRecorder] drops events; a recorder keeps them. *)
Inductive noopRecorder : Set := mkNoopRecorder.
Definition Recorder : Set := list string + noopRecorder.
Definition Eventf (event : string) (r : Recorder) : Recorder :=
  match r with inl l => inl (l ++ [event]) | inr n => inr n end.

Record Reconciler {Cl Sch Cfg Log Sc Dw : Type} := mkReconciler {
  rc_Client : Cl; rc_scheme : Sch; rc_config : Cfg; rc_logger : Log; rc_recorder : Recorder;
  rc_image : string; rc_imagePullPolicy : string;
  rc_scaler : Sc + noopScaler; rc_driftWatcher : Dw + noopScaler
}.
Arguments Reconciler : clear implicits.
Definition or_noop {S} (s : option S) : S + noopScaler := match s with Some s => inl s | None => inr mkNoopScaler end.
Definition NewReconciler {Cl Sch Cfg Log Sc Dw} (named : string → Log) (c : Cl) (scheme : Sch) (config : Cfg) (logger : option Log)
    (recorder : option (list string)) (image imagePullPolicy : string) (scaler : option Sc) (driftWatcher : option Dw)
    : Reconciler Cl Sch Cfg Log Sc Dw :=
  mkReconciler _ _ _ _ _ _ c scheme config (default (named ControllerAgentDeploy) logger)
    (match recorder with Some l => inl l | None => inr mkNoopRecorder end) image imagePullPolicy (or_noop scaler) (or_noop driftWatcher).

(** The reconciler of AgentSets keeps the recorder it is given, [nil] too. *)
Record SetReconciler {Cl Sch Cfg Log : Type} := mkSetReconciler {
  sr_Client : Cl; sr_scheme : Sch; sr_config : Cfg; sr_logger : Log; sr_recorder : option (list string);
  sr_image : string; sr_imagePullPolicy : string
}.
Arguments SetReconciler : clear implicits.
Definition NewSetReconciler {Cl Sch Cfg Log} (named : string → Log) (c : Cl) (scheme : Sch) (config : Cfg) (logger : option Log)
    (recorder : option (list string)) (image imagePullPolicy : string) : SetReconciler Cl Sch Cfg Log :=
  mkSetReconciler _ _ _ _ c scheme config (default (named ControllerAgentSet) logger) recorder image imagePullPolicy.
(** An event of it; [None] is the nil dereference. *)
Definition set_Eventf (event : string) (r : option (list string)) : option (list string) := (λ l, l ++ [event]) <$> r.

Section watchers.
Context {W : Type} `{!Client W AgentDeploy} `{!Client W Service} `{!Client W Pod} `{GoSort} `{GoRange}.
Context {S1 S2 T1 T2 : Type} `{!Workset.ScaleWatcher NamespacedName S1} `{!Workset.ScaleWatcher NamespacedName S2}
  `{!Workset.ScaleWatcher NamespacedName T1} `{!Workset.ScaleWatcher NamespacedName T2}.
Context (ListPods : string → gmap string string → W → W * result ApiError (list Pod)).
Context (RandomLowerCaseString : W → W * string) (Now : W → W * Time).
Context (PatchStatus : AgentDeploy → AgentDeployStatus → W → W * option ApiError).
Context (MustHash : PodSpec → string) (MustHashService : ServiceSpec → string).
Context (scaled : IntOrString → Z → bool → option Z) (encode_object : AgentDeploy → string) (api_text : ApiError → string) (env : Controller.Env).

(** The watchers follow a reconcile and never steer it: with any others, the
    ones left out included, the same calls are made in the same order, and the
    result is the same. *)
Lemma watchers_do_not_steer req st (s1 : S1) (s2 : S2) (t1 : T1) (t2 : T2) :
  let run {A B} `{!Workset.ScaleWatcher NamespacedName A} `{!Workset.ScaleWatcher NamespacedName B} (a : A) (b : B) :=
    Controller.Reconcile ListPods RandomLowerCaseString Now PatchStatus MustHash MustHashService scaled encode_object api_text env req
      (Controller.mkCtl st a b) in
  Controller.ctl (run s1 s2).1 = Controller.ctl (run t1 t2).1 ∧ (run s1 s2).2 = (run t1 t2).2.
Proof.
  cbv zeta. unfold Controller.Reconcile. cbn [Controller.ctl Controller.scaler Controller.driftWatcher].
  destruct (Get req _) as [w [ad|e]]; [|by destruct (IsNotFound e)]. destruct (Controller.being_deleted ad); [done|].
  destruct (Controller.reconcile _ _ _ _ _ _ _ _ _ ad _) as [[st' s] e]. destruct (Controller.persist _ ad s _) as [w' pe].
  by destruct e.
Qed.
End watchers.

(** ** The logger in a context ([logging.WithLogger], [FromContext]) *)
Section logging.
Context {Log : Type} (defaultLogger : Log).
(** The values of a context, the innermost first; other packages' keys are
    [inr]. *)
Inductive loggerKey : Set := mkLoggerKey.
Definition Context_ (V : Type) : Type := list ((loggerKey * Log) + V).
Definition WithLogger {V} (ctx : Context_ V) (logger : Log) : Context_ V := inl (mkLoggerKey, logger) :: ctx.
Definition FromContext {V} (ctx : Context_ V) : Log :=
  default defaultLogger (head (omap (λ v, match v with inl (_, l) => Some l | inr _ => None end) ctx)).
Lemma FromContext_WithLogger {V} (ctx : Context_ V) l (vs : list V) : FromContext ((inr <$> vs) ++ WithLogger ctx l) = l ∧ FromContext (V := V) (inr <$> vs) = defaultLogger.
Proof. unfold FromContext. split; induction vs; done. Qed.
End logging.

(** ** The version record *)
Record Version : Set := mkVersion {
  v_Version : string; v_BuildDate : string; v_GitCommit : string; v_GitTag : string;
  v_GitTreeState : string; v_GoVersion : string; v_Compiler : string; v_Platform : string
}.
(** [var (version ...)], unless set when linking. *)
Definition default_build : Commands.Build := Commands.mkBuild "latest" "1970-01-01T00:00:00Z" "" "" "".
Definition version_record (b : Commands.Build) (goVersion compiler os arch : string) : Version :=
  mkVersion (Commands.GetVersion b) (Commands.b_buildDate b) (Commands.b_gitCommit b) (Commands.b_gitTag b) (Commands.b_gitTreeState b)
    goVersion compiler (os +:+ "/" +:+ arch).
Definition Version_String (v : Version) : string :=
  "Version: " +:+ v_Version v +:+ ", BuildDate: " +:+ v_BuildDate v +:+ ", GitCommit: " +:+ v_GitCommit v +:+ ", GitTag: " +:+ v_GitTag v +:+
  ", GitTreeState: " +:+ v_GitTreeState v +:+ ", GoVersion: " +:+ v_GoVersion v +:+ ", Compiler: " +:+ v_Compiler v +:+ ", Platform: " +:+ v_Platform v.
Example unset_version : Version_String (version_record default_build "go1" "gc" "linux" "amd64") =
  "Version: latest+unknown, BuildDate: 1970-01-01T00:00:00Z, GitCommit: , GitTag: , GitTreeState: , GoVersion: go1, Compiler: gc, Platform: linux/amd64".
Proof. reflexivity. Qed.

(** ** The scrapers' HTTP clients *)
Definition VersionTLS12 : Z := 771.
Record httpClient : Set := mkHttpClient {
  InsecureSkipVerify : bool; MinVersion : Z; IdleConnTimeout : Duration; Timeout : Duration
}.
Record HostScraper : Set := mkHostScraper { hs_client : httpClient; hs_port : Z }.
Definition NewMetricsScraper (timeout : Duration) : HostScraper :=
  mkHostScraper (mkHttpClient true VersionTLS12 (30 * second) timeout) AgentBrokerIntrospectionPort.
Definition NewIntrospectScraper (timeout : Duration) : HostScraper :=
  mkHostScraper (mkHttpClient true VersionTLS12 (30 * second) timeout) AgentBrokerIntrospectionPort.
Record AgentCardScraper : Set := mkAgentCardScraper { resolver : httpClient }.
Definition NewAgentCardScraper (timeout : Duration) : AgentCardScraper :=
  mkAgentCardScraper (mkHttpClient true VersionTLS12 (30 * second) timeout).

(** The rounds in which [n] hosts are scraped by [workers] at a time, and the
    time they can take: up to 160 pods are scraped within one interval. *)
Definition rounds (n workers : Z) : Z := (n + workers - 1) / workers.
Lemma scrapes_fit_interval n : 0 <= n <= 160 →
  rounds n RaterLoop.DefaultScrapeWorkers * Timeout (hs_client (NewMetricsScraper RaterLoop.DefaultScrapeTimeout)) <= RaterLoop.DefaultScrapeInterval.
Proof.
  intros Hn. unfold rounds, RaterLoop.DefaultScrapeWorkers, RaterLoop.DefaultScrapeInterval, RaterLoop.DefaultScrapeTimeout. cbn [hs_client NewMetricsScraper Timeout].
  assert ((n + 32 - 1) / 32 <= 5) as Hr by (apply Z.lt_succ_r, Z.div_lt_upper_bound; lia). unfold second, millisecond. nia.
Qed.
End Processes.
